(* ===== verification/_CoqProject ===== *)
-Q . S2P
Prelude.v
Query.v
PyStr.v
PyVal.v
Codec.v
InspectRpc.v
SessionPool.v
Rpc.v
Summary.v
Participants.v
Parsers.v
RealmCatalog.v
Database.v
Finalized.v
CatalogTotals.v
Endpoints.v
Blake2.v
Selection.v
Runner.v
RunnerSafety.v
Indexed.v
Valopers.v
ValopersStore.v
Json.v
Decoder.v
DecoderSafety.v
Service.v
PyFloat.v
Scan.v
Lines.v
Governance.v
GovernanceStore.v
GovernanceSafety.v
GovernanceUpdater.v
Config.v
RealmMetadata.v
RealmMetadataStore.v
RealmMetadataCollector.v
RequestCache.v
Digits.v
Rfc3339.v
CosmosParsing.v
IpAddress.v
Url.v
CosmosConfig.v
Registry.v
CosmosCache.v
HistoryCursor.v
CosmosAdapter.v
Protobuf.v
Decimal.v
TransactionDetail.v
TransactionHistory.v
ProviderHistory.v
Lru.v
TokenSupply.v
TransactionArguments.v
Keyset.v
ExplorerRows.v
Schema.v
Explorer.v
ExplorerSafety.v
Percent.v
Validators.v
ValidatorsSafety.v
