(* ===== verification/Prelude.v ===== *)
(** * UTSA Gno.land explorer: verification development (root)

    A verification library for the Python program of this repository, an
    indexer and explorer of Gno.land (TM2) chains.  It is a shallow
    embedding: each modelled function of src/ is a Rocq function of the same
    name (leading underscores dropped), executable, with the order of its
    checks, its early returns and its exceptions.

    ** The program and its model

    Processes.  The continuous indexer (src/indexer/runner.py) probes RPC
    endpoints, fetches one height after the other from the best of them, checks
    that the heights form a chain, parses them and writes each in one
    transaction.  The one-shot indexer (src/indexer/service.py) does so for
    a given range.  Three collectors store snapshots of other chain state:
    governance proposals (src/indexer/governance_updater.py), the Valopers
    registry (src/indexer/valopers_*.py) and the metadata of realms
    (src/scripts/refresh_realm_metadata.py).  All of them write to PostgreSQL
    with the keys and constraints of src/database/schema.sql.  The HTTP API
    also serves Cosmos networks (src/api/cosmos): it asks public endpoints,
    behind one cache, at the moment a browser asks.

    Languages and libraries.
    - [Prelude]: the exceptions with their class hierarchy, [res] (a value or
      an exception) with its notations, and the lemmas and tactics all files
      share; [PyStr], [PyVal], [PyFloat], [Codec], [Json], [Blake2]: the parts
      of CPython 3.11 and its standard library that the program uses;
      [Scan] and [Lines]: regular expressions as scanners, texts as lines;
      [Digits], [IpAddress], [Url], [Decimal]: ASCII numerals, ipaddress,
      urlsplit and decimal; [Query]: computations with a state and exceptions.

    RPC (src/scripts/inspect_rpc.py, src/indexer/rpc.py).
    - [InspectRpc]: the readers of raw payloads, the bounded ABCI query, the
      configuration readers; [SessionPool]: the pool of HTTP sessions as a
      transition system whose threads interleave; [Rpc]: probes, the lag rule,
      ranking and the hash-continuity checks.

    Parsing one height (src/indexer/parsers.py and what it calls).
    - [Summary] (transaction_summary.py), [Participants]
      (transaction_participants.py, src/api/network_profile.py), [Parsers]
      (parsers.py), [RealmCatalog] (realm_catalog.py), [Decoder] and
      [DecoderSafety] (transaction_decoder.py: the supervised child process).

    Storing one height (src/indexer/database.py).
    - [Database]: every statement of the height transaction on tables that
      are finite maps from their keys; [Finalized] and [CatalogTotals]: what it
      guarantees; [Endpoints]: the RPC endpoint tables.

    Running.
    - [Selection] (endpoint order, run configuration, lock key of runner.py),
      [Runner] and [RunnerSafety]: the cycles and the loop against the class
      [Indexer] and its laws; [Indexed]: the instance over the database model,
      which discharges the laws, so the theorems of the two meet; [Service]:
      the one-shot indexer on the same interface; [Config]: the loaders of
      src/indexer/config.py.

    Snapshots.
    - [Valopers], [ValopersStore]: the registry's parsers and pager, and its
      replacement transaction; [Governance], [GovernanceStore],
      [GovernanceSafety], [GovernanceUpdater]: renders and discovery
      (src/governance/gno.py), the two storing transactions
      (governance_persistence.py), what they preserve, the updater process;
      [RealmMetadata], [RealmMetadataStore], [RealmMetadataCollector]: the
      parsers, the publication and the refresh run.

    Cosmos networks (src/api/cosmos).
    - [RequestCache] (cache.py): the single-flight cache as a transition system
      whose requests interleave; [Rfc3339], [CosmosParsing], [CosmosConfig],
      [Registry], [Protobuf], [TransactionDetail]: the pure parts (timestamps,
      answers, configuration, networks and their aliases, raw transactions).
    - [CosmosCache]: transport.py and the world the requests share;
      [CosmosAdapter] (adapter.py): endpoint selection and failover;
      [HistoryCursor] and [TransactionHistory]
      (transaction_endpoint_policy.py); [ProviderHistory] (service.py): the
      search for the lowest height a node still has, and the providers' status.

    The API of the explorer (src/api).
    - [Lru] and [TokenSupply] (token_supply.py): the bounded cache, the supply
      answers and their decimal form; [TransactionArguments]
      (transaction_argument_decoder.py): the one-shot decoder process.
    - [Keyset]: keyset pagination over tables that grow, for any key;
      [ExplorerRows]: what app.py makes of a row (operations, hashes, the public
      transaction summary, items); [Explorer] and [ExplorerSafety]: the queries
      of database.py over the tables of [Database] and the routes of blocks,
      transactions and accounts; [Percent], [Validators], [ValidatorsSafety]:
      decimal percentages and the routes of validators.  A route with several
      statements reads a different snapshot with each; [Schema] shows that the
      CHECK constraints of schema.sql hold on every table the indexer reaches.

    ** State and effects

    Fallible code returns [res]; a cursor function takes the tables and returns
    the new ones or raises, and a transaction that raises leaves the tables as
    they were.  A commit may fail too: the interfaces [Indexer],
    [GovernanceEnvironment] and [RefreshEnvironment] contain the network, the
    clock, signals and the connection, and answer as they like; the laws next to
    each say only what a theorem needs of them.  Threads appear in
    [SessionPool], where every locked section is one step, and requests in
    [RequestCache].  A request to a Cosmos endpoint runs over the class
    [CosmosEnvironment]: wherever it waits, the environment may change the whole
    shared state, as the other requests do, and [CosmosLaws] says that they keep
    what is cached good; so the theorems of [CosmosAdapter] and its clients hold
    under every interleaving.

    ** What the theorems show

    - The chain data: the indexed heights have no gap and their blocks link up
      whatever fails ([indexer_consistent], [checkpoint_no_gaps]); finalized
      rows never change ([write_height_immutable]), a second write of a height
      is refused or changes nothing ([write_height_agrees],
      [write_height_idempotent]); catalogue rows are exact totals of the
      blocks written ([CatalogTotals]).
    - Parsers: what is accepted is well formed and bounded, exceptions are the
      documented ones, printed data is read back, validators are exact
      ([parse_height_consistent], [validate_document_iff],
      [validate_account_address_iff]).
    - Supervision: the decoder and the loops terminate, resynchronise and stop
      when asked to ([decode_typed], [decode_resync],
      [run_continuous_terminates], [run_updater_safe]).
    - Stored snapshots: each store stays readable, refines one abstract snapshot
      and never moves back ([replace_valopers_refines],
      [governance_store_invariant], [metadata_history], [publish_refines]).
    - Cosmos: the cache loads a key once at a time and answers every waiter
      ([request_cache_shared]); answers come from validated, fresh endpoints,
      fail over in order and fail only as documented
      ([endpoint_selection_sound], [block_failover_sound],
      [transaction_history_sound], [transaction_lookup_sound]); the history walk
      visits every height once ([history_navigation]); the search for a node's
      lowest height finds it ([provider_floor_exact]); decoded transactions are
      bounded ([message_bounded]); codecs are read back ([fields_roundtrip],
      [history_cursor_roundtrip], [normalize_rfc3339_canonical]).
    - Explorer: listing page by page while the indexer writes ends and shows
      every transaction of the start once, in order ([transactions_listed]);
      account pages, lookups by hash and block pages are right and never fail on
      indexed data ([account_page_sound], [found_by_hash],
      [block_detail_consistent]); the list and the history of validators agree
      with the stored signatures ([validators_agree],
      [signing_history_aligned]); what was published of a summary is published
      unchanged ([public_summary_fixed]); the supply cache and the argument
      decoder are bounded and exact ([supply_cache_exact], [exchange_exact],
      [decode_arguments_sound]).
    - Bounds: heights, latencies, configuration, sizes.

    ** Conventions, bounds and fuel

    Integers are unbounded as in Python, and the ranges of PostgreSQL columns are
    explicit checks.  Floats are [spec_float] at binary64.  A [str] is its
    UTF-8 bytes; the identity of a list's elements is their position.  An
    exception carries the constant part of its message, never the interpolated
    values.  Structural recursion is used where the code consumes a list.  Where
    a loop has no structure the fuel is an argument and [None] means it ran out
    ([Decoder], [Runner], [GovernanceUpdater]), with a theorem that enough fuel
    gives a result under laws on the environment; parsers take the length of
    their input as fuel, which each step decreases.  What Python or PostgreSQL
    decides and this development does not fix is a class with an instance for the
    witnesses: [PyRuntime] and [UnicodeText] (Unicode tables), [JsonStack] (the
    recursion limit in json), [Postgres] and [JsonServer] (type conversions and
    CHECK constraints), [Collation] (text order).

    ** Not modelled

    Logging, and URLs that are only made printable for the log; HTTP itself;
    the closing of clients and connections; command lines; the getattr
    fallbacks for database objects without the methods of
    [PostgresDatabase]; time columns the server fills with now().  Of the
    HTTP API of the Gno.land explorer (src/api/app.py, database.py,
    schemas.py) the routes of health, network, distribution, realms, tokens,
    assets, governance and applications, and the search for a validator by
    text: further read-only SQL and response models; the verified token
    standards of packages are an argument of [Explorer].  The rest of the
    Cosmos API (service_core.py, validators, blocks, accounts, governance
    and their routes) assembles answers of the modelled adapter.
    Maintenance scripts (schema creation, backups) drive subprocesses and
    SQL text.  The network-distribution collector (src/network_distribution)
    is not modelled. *)

From Stdlib Require Import ZArith NArith Lia Ascii String SpecFloat.
From stdpp Require Import base gmap sets list strings sorting.

#[export] Set Warnings "-notation-overridden,-clear-no-such-hyp".
Open Scope Z_scope.

(** ** Exceptions

    The exception classes the modelled code raises or distinguishes.  The
    [isinstance_*] predicates below are the class hierarchy. *)
Inductive exc : Type :=
| RpcError (msg : string)
| RpcContinuityError (reason : string)
| TimeoutError
| OSError
| ValueError (msg : string)
| TypeError
| KeyError
| AttributeError
| OverflowError
| DatabaseError (msg : string)
| FinalizedDataConflict (msg : string)
| ChainIdentityError (msg : string)
| RealmActivityCoverageError (msg : string)
| RealmCallCoverageError (msg : string)
| FatalIndexerError (msg : string)
| AdvisoryLockHeld (msg : string)
| AdvisoryLockLost (msg : string)
| TransientIndexerError (msg : string)
| OperationalError
| InterfaceError
| IntegrityError
| MalformedUpstreamResponse (msg : string)
| RejectedEndpoint (msg : string)
| AllEndpointsUnavailable (msg : string)
| HistoryUnavailable (requested : Z) (lowest : option Z)
| TransactionNotFound (msg : string)
| StopIteration
| ValopersPersistenceError (msg : string)
| ValopersChainIdentityError (msg : string)
| StaleValopersSnapshot (msg : string)
| ValopersSnapshotConflict (msg : string)
| ValopersStoredStateError (msg : string)
| DecoderFailure (reason category : string)
| BlockingIOError
| RuntimeError (msg : string)
| RecursionError
| DataError
| GovernanceParseError (msg : string)
| GovernancePersistenceError (msg : string)
| GovernanceChainIdentityError (msg : string)
| IncompleteGovernanceSnapshot (msg : string)
| StaleGovernanceSnapshot (msg : string)
| GovernanceSnapshotConflict (msg : string)
| GovernanceStoredStateError (msg : string)
| FatalGovernanceUpdaterError (msg : string)
| AllGovernanceRpcAttemptsFailed (msg : string)
| MetadataParseError (msg : string)
| MetadataPersistenceError (msg : string)
| StaleMetadataSnapshot (msg : string)
| ValidationError
| IndexError (msg : string)
| InvalidConfiguration (msg : string)
| NodeNotSynced (msg : string)
| ValidatorNotFound (msg : string)
| InvalidValidatorAddress (msg : string)
| AllSourcesFailed (msg : string)
| RequestError
| DecimalInvalidOperation
| DecimalOverflow
| LookupError (msg : string)
| ConfigError (msg : string)
| AccountParseError (msg : string)
| AccountUnavailableError (msg : string)
| GnoBlockLookupUnavailable (msg : string)
| SubprocessError
| TimeoutExpired
| HTTPException (status : Z) (detail : string)
| CancelledError.

#[global] Instance exc_eq_dec : EqDecision exc.
Proof. solve_decision. Defined.

(** [class RpcError(RuntimeError)], its subclasses [RpcContinuityError] and
    [AllGovernanceRpcAttemptsFailed]. *)
Definition isinstance_RpcError (e : exc) : bool :=
  match e with RpcError _ | RpcContinuityError _ | AllGovernanceRpcAttemptsFailed _ => true | _ => false end.
Definition isinstance_RpcContinuityError (e : exc) : bool :=
  match e with RpcContinuityError _ => true | _ => false end.
(** [TimeoutError] and [BlockingIOError] are subclasses of [OSError] in Python. *)
Definition isinstance_TimeoutError (e : exc) : bool :=
  match e with TimeoutError => true | _ => false end.
Definition isinstance_OSError (e : exc) : bool :=
  match e with OSError | TimeoutError | BlockingIOError => true | _ => false end.
(** [ValueError] and its subclasses in indexer/ and governance/; pydantic's
    [ValidationError] is one too. *)
Definition isinstance_ValueError (e : exc) : bool :=
  match e with
  | ValueError _ | ValidationError | GovernanceParseError _ | MetadataParseError _ | MetadataPersistenceError _ | StaleMetadataSnapshot _
  | AccountParseError _ => true
  | _ => false
  end.
Definition isinstance_KeyError (e : exc) : bool :=
  match e with KeyError => true | _ => false end.
Definition isinstance_AttributeError (e : exc) : bool :=
  match e with AttributeError => true | _ => false end.
Definition isinstance_TypeError (e : exc) : bool :=
  match e with TypeError => true | _ => false end.
(** [DatabaseError] and its four subclasses in indexer/database.py. *)
Definition isinstance_DatabaseError (e : exc) : bool :=
  match e with
  | DatabaseError _ | FinalizedDataConflict _ | ChainIdentityError _
  | RealmActivityCoverageError _ | RealmCallCoverageError _ => true
  | _ => false
  end.
(** [FatalIndexerError] and its two lock subclasses in indexer/runner.py. *)
Definition isinstance_FatalIndexerError (e : exc) : bool :=
  match e with
  | FatalIndexerError _ | AdvisoryLockHeld _ | AdvisoryLockLost _ => true
  | _ => false
  end.

(** [ValopersPersistenceError] and its four subclasses. *)
Definition isinstance_ValopersPersistenceError (e : exc) : bool :=
  match e with
  | ValopersPersistenceError _ | ValopersChainIdentityError _ | StaleValopersSnapshot _
  | ValopersSnapshotConflict _ | ValopersStoredStateError _ => true
  | _ => false
  end.

(** [subprocess.SubprocessError] and its subclass [TimeoutExpired]. *)
Definition isinstance_SubprocessError (e : exc) : bool :=
  match e with SubprocessError | TimeoutExpired => true | _ => false end.

(** [except Exception]: everything here but asyncio's cancellation. *)
Definition isinstance_Exception (e : exc) : bool :=
  match e with CancelledError => false | _ => true end.

(** ** The error monad: a call returns a value or raises *)
Inductive res (A : Type) : Type :=
| Ok (a : A)
| Raise (e : exc).
Arguments Ok {A} a.
Arguments Raise {A} e.

#[global] Instance res_eq_dec `{EqDecision A} : EqDecision (res A).
Proof. solve_decision. Defined.

#[global] Instance res_ret : MRet res := @Ok.
#[global] Instance res_bind : MBind res := fun A B f m =>
  match m with Ok a => f a | Raise e => Raise e end.
#[global] Instance res_fmap : FMap res := fun A B f m =>
  match m with Ok a => Ok (f a) | Raise e => Raise e end.

(** [if not b: raise e] *)
Definition require (b : bool) (e : exc) : res unit := if b then Ok tt else Raise e.
(** [if b: raise e] *)
Definition raise_if (b : bool) (e : exc) : res unit := if b then Raise e else Ok tt.

(** [try: m except <caught> as exc: raise e from exc] *)
Definition except_as {A} (m : res A) (caught : exc -> bool) (e : exc) : res A :=
  match m with
  | Ok a => Ok a
  | Raise x => if caught x then Raise e else Raise x
  end.

Definition is_Ok {A} (m : res A) : bool := match m with Ok _ => true | Raise _ => false end.

Lemma Ok_inj {A} (a b : A) : Ok a = Ok b -> a = b.
Proof. congruence. Qed.

Lemma bind_Ok {A B} (f : A -> res B) (m : res A) b :
  (m ≫= f) = Ok b <-> exists a, m = Ok a /\ f a = Ok b.
Proof.
  destruct m as [a|e]; simpl; split; naive_solver.
Qed.

Lemma bind_Raise {A B} (f : A -> res B) (m : res A) e :
  (m ≫= f) = Raise e <-> m = Raise e \/ exists a, m = Ok a /\ f a = Raise e.
Proof. destruct m; simpl; split; naive_solver. Qed.

Lemma require_Ok b e u : require b e = Ok u <-> b = true.
Proof. destruct b, u; simpl; naive_solver. Qed.
Lemma raise_if_Ok b e u : raise_if b e = Ok u <-> b = false.
Proof. destruct b, u; simpl; naive_solver. Qed.
Lemma fmap_Ok {A B} (f : A -> B) (m : res A) b :
  (f <$> m) = Ok b <-> exists a, m = Ok a /\ b = f a.
Proof. destruct m; simpl; split; naive_solver. Qed.

(** [mapM_res f l]: a list comprehension whose body may raise. *)
Fixpoint mapM_res {A B} (f : A -> res B) (l : list A) : res (list B) :=
  match l with
  | [] => Ok []
  | x :: l' => y ← f x; ys ← mapM_res f l'; Ok (y :: ys)
  end.

(** [foldM_res f acc l]: a [for] loop that threads a value and may raise. *)
Fixpoint foldM_res {A S} (f : S -> A -> res S) (acc : S) (l : list A) : res S :=
  match l with
  | [] => Ok acc
  | x :: l' => acc' ← f acc x; foldM_res f acc' l'
  end.

Lemma mapM_res_Forall2 {A B} (f : A -> res B) l k :
  mapM_res f l = Ok k <-> Forall2 (fun x y => f x = Ok y) l k.
Proof.
  revert k. induction l as [|x l IH]; intros k; simpl.
  - split; [intros [= <-]; constructor | intros H; by inversion H].
  - rewrite bind_Ok. setoid_rewrite bind_Ok. setoid_rewrite IH. split.
    + intros (y & Hy & ys & Hys & [= <-]). by constructor.
    + intros H. inversion H; subst. eauto.
Qed.

Lemma mapM_res_length {A B} (f : A -> res B) l k :
  mapM_res f l = Ok k -> length k = length l.
Proof. intros H%mapM_res_Forall2. by apply Forall2_length in H. Qed.

Lemma foldM_res_map {A B S} (f : S -> B -> res S) (g : A -> B) l s :
  foldM_res f s (map g l) = foldM_res (fun s a => f s (g a)) s l.
Proof. revert s. induction l as [|a l IH]; intros s; [done|]. simpl. by destruct (f s (g a)); simpl. Qed.
Lemma foldM_res_app {A S} (f : S -> A -> res S) l1 l2 s :
  foldM_res f s (l1 ++ l2) = foldM_res f s l1 ≫= fun s' => foldM_res f s' l2.
Proof. revert s. induction l1 as [|a l IH]; intros s; [done|]. simpl. destruct (f s a); simpl; [apply IH|done]. Qed.
(** A loop whose every step leaves the state as it is. *)
Lemma foldM_res_same {A S} (f : S -> A -> res S) l s :
  (forall x, x ∈ l -> f s x = Ok s) -> foldM_res f s l = Ok s.
Proof.
  induction l as [|x l IH]; intros Hf; [done|]. cbn [foldM_res]. rewrite (Hf x) by left.
  apply IH. intros y Hy. apply Hf. by right.
Qed.

(** A loop that only checks. *)
Lemma foldM_res_unit {A} (f : A -> res unit) l u :
  foldM_res (fun _ x => f x) tt l = Ok u <-> Forall (fun x => f x = Ok tt) l.
Proof.
  destruct u. induction l as [|x l IH]; cbn [foldM_res]; [by split|].
  rewrite Forall_cons, bind_Ok, <- IH. split.
  - by intros ([] & Hx & Hl).
  - intros [Hx Hl]. by exists tt.
Qed.

(** Loop rule for [foldM_res]. *)
Lemma foldM_res_inv {A S} (P : S -> Prop) (f : S -> A -> res S) l acc acc' :
  P acc ->
  (forall s x s', x ∈ l -> P s -> f s x = Ok s' -> P s') ->
  foldM_res f acc l = Ok acc' -> P acc'.
Proof.
  revert acc. induction l as [|x l IH]; intros acc Hp Hf; simpl.
  - by intros [= <-].
  - intros (a & Ha & Hl)%bind_Ok. eapply IH; [| |exact Hl].
    + eapply Hf; eauto. left.
    + intros. eapply Hf; eauto. by right.
Qed.

(** [inv_res] decomposes hypotheses [... = Ok _] built from the monad. *)
Ltac inv_res_step :=
  match goal with
  | H : (_ ≫= _) = Ok _ |- _ =>
      apply bind_Ok in H; let a := fresh "a" in let Ha := fresh "Ha" in
      destruct H as (a & Ha & H)
  | H : require _ _ = Ok _ |- _ => apply require_Ok in H
  | H : raise_if _ _ = Ok _ |- _ => apply raise_if_Ok in H
  | H : mret _ = Ok _ |- _ => injection H as H; subst
  | H : Ok _ = Ok _ |- _ => injection H as H; subst
  | H : Raise _ = Ok _ |- _ => discriminate H
  | H : Ok _ = Raise _ |- _ => discriminate H
  end.
Ltac inv_res := repeat (inv_res_step; cbn beta iota in * ).

(** [raises P m]: the only exceptions [m] can raise satisfy [P]. *)
Definition raises {A} (P : exc -> bool) (m : res A) : Prop :=
  match m with Ok _ => True | Raise e => P e = true end.

Section raises.
Context (P : exc -> bool).
Lemma raises_Ok {A} (a : A) : raises P (Ok a).
Proof. done. Qed.
Lemma raises_Raise {A} e : P e = true -> raises P (Raise (A:=A) e).
Proof. done. Qed.
Lemma raises_bind {A B} (m : res A) (f : A -> res B) :
  raises P m -> (forall a, m = Ok a -> raises P (f a)) -> raises P (m ≫= f).
Proof. destruct m; simpl; auto. Qed.
Lemma raises_fmap {A B} (m : res A) (f : A -> B) : raises P m -> raises P (f <$> m).
Proof. by destruct m. Qed.
Lemma raises_require b e : P e = true -> raises P (require b e).
Proof. by destruct b. Qed.
Lemma raises_raise_if b e : P e = true -> raises P (raise_if b e).
Proof. by destruct b. Qed.
Lemma raises_mapM {A B} (f : A -> res B) l :
  (forall x, x ∈ l -> raises P (f x)) -> raises P (mapM_res f l).
Proof.
  induction l as [|x l IH]; simpl; [done|]. intros Hf.
  apply raises_bind; [apply Hf; left|]. intros y _.
  apply raises_bind; [apply IH; intros; apply Hf; by right|done].
Qed.
Lemma raises_foldM {A S} (f : S -> A -> res S) l acc :
  (forall s x, raises P (f s x)) -> raises P (foldM_res f acc l).
Proof.
  intros Hf. revert acc. induction l as [|x l IH]; intros acc; simpl; [done|].
  by apply raises_bind.
Qed.
Lemma raises_except_as {A} (m : res A) c e :
  P e = true -> raises (fun x => c x || P x) m -> raises P (except_as m c e).
Proof. intros He. destruct m as [|x]; simpl; [done|]. destruct (c x); simpl; [done|]. done. Qed.
Lemma raises_Raise_inv {A} (m : res A) e : raises P m -> m = Raise e -> P e = true.
Proof. by intros H ->. Qed.
End raises.

Lemma raises_impl {A} (P Q : exc -> bool) (m : res A) :
  (forall e, P e = true -> Q e = true) -> raises P m -> raises Q m.
Proof. destruct m; simpl; auto. Qed.

Create HintDb raises.
#[export] Hint Resolve raises_Ok raises_Raise raises_fmap raises_require raises_raise_if
  raises_mapM raises_foldM : raises.

(** Follow the monadic structure of a definition; what is left are the calls
    whose [raises] lemma is not in the database. *)
Ltac solve_raises :=
  repeat (intros; cbv beta zeta;
          first [ solve [eauto 3 with raises]
                | apply raises_bind
                | apply raises_mapM
                | apply raises_foldM
                | apply raises_fmap
                | case_match ]).

Create HintDb res.
#[global] Hint Rewrite @bind_Ok @require_Ok @raise_if_Ok @fmap_Ok : res.

(** ** Stable sorting

    Python's [sorted] is stable; insertion sort from the right is the
    reference definition of a stable sort.  [leb] is the comparison on the
    sort keys. *)
Section sort.
Context {A : Type} (leb : A -> A -> bool).

Fixpoint insert_by (x : A) (l : list A) : list A :=
  match l with
  | [] => [x]
  | y :: l' => if leb x y then x :: y :: l' else y :: insert_by x l'
  end.

Definition sort_by (l : list A) : list A := foldr insert_by [] l.

Lemma insert_by_perm x l : insert_by x l ≡ₚ x :: l.
Proof.
  induction l as [|y l IH]; simpl; [done|]. destruct (leb x y); [done|].
  rewrite IH. by apply perm_swap.
Qed.

Lemma sort_by_perm l : sort_by l ≡ₚ l.
Proof. induction l as [|x l IH]; simpl; [done|]. by rewrite insert_by_perm, IH. Qed.

Lemma elem_of_sort_by x l : x ∈ sort_by l <-> x ∈ l.
Proof. by rewrite sort_by_perm. Qed.

Lemma length_sort_by l : length (sort_by l) = length l.
Proof. apply Permutation_length, sort_by_perm. Qed.

Lemma NoDup_sort_by l : NoDup l -> NoDup (sort_by l).
Proof. by rewrite sort_by_perm. Qed.

Hypothesis leb_total : forall x y, leb x y = true \/ leb y x = true.
Hypothesis leb_trans : forall x y z, leb x y = true -> leb y z = true -> leb x z = true.

Lemma insert_by_sorted x l :
  StronglySorted (fun a b => leb a b = true) l ->
  StronglySorted (fun a b => leb a b = true) (insert_by x l).
Proof.
  induction l as [|y l IH]; simpl; intros Hs.
  { repeat constructor. }
  apply StronglySorted_inv in Hs as [Hs Hy].
  destruct (leb x y) eqn:Hxy.
  - repeat constructor; [done|done|done|].
    eapply Forall_impl; [exact Hy|]. simpl. intros z. by apply leb_trans.
  - constructor; [by apply IH|].
    rewrite insert_by_perm. constructor; [|done].
    destruct (leb_total x y) as [H|H]; congruence.
Qed.

Lemma sort_by_sorted l : StronglySorted (fun a b => leb a b = true) (sort_by l).
Proof. induction l; simpl; [constructor|]. by apply insert_by_sorted. Qed.

(** The head of the sorted list is the first of the least elements. *)
Lemma sort_by_head_least x l l' y :
  sort_by l = x :: l' -> y ∈ l -> leb x y = true.
Proof.
  intros Hl Hy. pose proof (sort_by_sorted l) as Hs. rewrite Hl in Hs.
  apply (elem_of_sort_by y) in Hy. rewrite Hl in Hy.
  apply StronglySorted_inv in Hs as [_ Hs]. rewrite Forall_forall in Hs.
  apply elem_of_cons in Hy as [->|Hy]; [|by apply Hs].
  destruct (leb_total x x); done.
Qed.
End sort.

(** Sorting commutes with an order-reflecting map. *)
Lemma sort_by_map {A B} (leA : A -> A -> bool) (leB : B -> B -> bool) (f : A -> B) l :
  (forall x y, leB (f x) (f y) = leA x y) ->
  sort_by leB (map f l) = map f (sort_by leA l).
Proof.
  intros Hf. induction l as [|x l IH]; simpl; [done|]. rewrite IH.
  generalize (sort_by leA l) as k. induction k as [|y k IHk]; simpl; [done|].
  rewrite Hf. destruct (leA x y); simpl; [done|]. by rewrite IHk.
Qed.

#[global] Arguments String.append !_ _ / : simpl nomatch.

(** ** Strings are ordered by their bytes, which for UTF-8 is Python's order *)
Definition str_leb (a b : string) : bool := String.leb a b.
Definition str_ltb (a b : string) : bool := String.ltb a b.

Lemma ascii_compare_N a b : Ascii.compare a b = N.compare (N_of_ascii a) (N_of_ascii b).
Proof. reflexivity. Qed.

Lemma str_compare_refl a : String.compare a a = Eq.
Proof. induction a as [|x a IH]; simpl; [done|]. rewrite ascii_compare_N, N.compare_refl. done. Qed.

Lemma str_compare_eq a b : String.compare a b = Eq <-> a = b.
Proof. split; [apply String.compare_eq_iff|intros ->; apply str_compare_refl]. Qed.

Lemma str_compare_trans a b c r :
  r <> Eq -> String.compare a b = r -> String.compare b c = r -> String.compare a c = r.
Proof.
  intros Hr. revert b c. induction a as [|x a IH]; intros [|y b] [|z c]; simpl; try congruence.
  rewrite !ascii_compare_N.
  destruct (N.compare_spec (N_of_ascii x) (N_of_ascii y)) as [E|E|E];
  destruct (N.compare_spec (N_of_ascii y) (N_of_ascii z)) as [F|F|F];
  destruct (N.compare_spec (N_of_ascii x) (N_of_ascii z)) as [G|G|G];
  try congruence; try lia; eauto.
Qed.

Lemma str_leb_total a b : str_leb a b = true \/ str_leb b a = true.
Proof. apply String.leb_total. Qed.

Lemma str_leb_trans a b c : str_leb a b = true -> str_leb b c = true -> str_leb a c = true.
Proof.
  unfold str_leb, String.leb.
  destruct (String.compare a b) eqn:E1; try done; intros _;
  destruct (String.compare b c) eqn:E2; try done; intros _.
  - apply str_compare_eq in E1 as ->. by rewrite E2.
  - apply str_compare_eq in E1 as ->. by rewrite E2.
  - apply str_compare_eq in E2 as ->. by rewrite E1.
  - by rewrite (str_compare_trans a b c Lt).
Qed.

Lemma str_leb_antisym a b : str_leb a b = true -> str_leb b a = true -> a = b.
Proof. apply String.leb_antisym. Qed.

Lemma str_leb_refl a : str_leb a a = true.
Proof. destruct (str_leb_total a a); done. Qed.

Lemma str_ltb_spec a b : str_ltb a b = true <-> str_leb a b = true /\ a <> b.
Proof.
  unfold str_ltb, str_leb, String.ltb, String.leb.
  destruct (String.compare a b) eqn:E; split; try naive_solver.
  - apply str_compare_eq in E. naive_solver.
  - intros _. split; [done|]. intros ->. rewrite str_compare_refl in E. done.
Qed.

(** [sorted(set_of_strings)] and [sorted(list_of_strings)]. *)
Definition sort_str (l : list string) : list string := sort_by str_leb l.

Lemma sort_str_sorted l : StronglySorted (fun a b => str_leb a b = true) (sort_str l).
Proof. apply sort_by_sorted; [apply str_leb_total|apply str_leb_trans]. Qed.

(** ** List helpers *)

(** [dict.fromkeys(l)] / a set built from a list: the first occurrences. *)
Definition dedup {A} `{EqDecision A} (l : list A) : list A :=
  foldl (fun acc x => if decide (x ∈ acc) then acc else acc ++ [x]) [] l.

Lemma dedup_aux {A} `{EqDecision A} (l acc : list A) :
  NoDup acc ->
  NoDup (foldl (fun acc x => if decide (x ∈ acc) then acc else acc ++ [x]) acc l) /\
  forall y, y ∈ foldl (fun acc x => if decide (x ∈ acc) then acc else acc ++ [x]) acc l
            <-> y ∈ acc \/ y ∈ l.
Proof.
  revert acc. induction l as [|x l IH]; intros acc Hn; simpl.
  { split; [done|]. set_solver. }
  destruct (decide (x ∈ acc)) as [Hx|Hx].
  - destruct (IH acc Hn) as [? HH]. split; [done|]. intros y. rewrite HH. set_solver.
  - assert (NoDup (acc ++ [x])) as Hn'.
    { apply NoDup_app. split; [done|]. split; [set_solver|apply NoDup_singleton]. }
    destruct (IH _ Hn') as [? HH]. split; [done|]. intros y. rewrite HH. set_solver.
Qed.

Lemma NoDup_dedup {A} `{EqDecision A} (l : list A) : NoDup (dedup l).
Proof. apply dedup_aux, NoDup_nil_2. Qed.

Lemma elem_of_dedup {A} `{EqDecision A} (l : list A) y : y ∈ dedup l <-> y ∈ l.
Proof. unfold dedup. destruct (dedup_aux l []) as [_ ->]; [apply NoDup_nil_2|]. set_solver. Qed.

(** [enumerate(l)]. *)
Definition enumerate {A} (l : list A) : list (nat * A) := imap (fun i x => (i, x)) l.

Lemma enumerate_lookup {A} (l : list A) i p :
  enumerate l !! i = Some p <-> fst p = i /\ l !! i = Some (snd p).
Proof.
  unfold enumerate. rewrite list_lookup_imap. destruct p as [j x]; simpl.
  destruct (l !! i); simpl; naive_solver.
Qed.

Lemma enumerate_snd {A} (l : list A) : (enumerate l).*2 = l.
Proof.
  apply list_eq. intros i. rewrite list_lookup_fmap. unfold enumerate.
  rewrite list_lookup_imap. by destruct (l !! i).
Qed.

Lemma length_enumerate {A} (l : list A) : length (enumerate l) = length l.
Proof. apply length_imap. Qed.

Lemma Forall_sublist {A} (P : A -> Prop) (k l : list A) :
  k `sublist_of` l -> Forall P l -> Forall P k.
Proof. induction 1; [done|..]; inversion 1; subst; auto. Qed.

Lemma fmap_sublist {A B} (f : A -> B) (k l : list A) : k `sublist_of` l -> (f <$> k) `sublist_of` (f <$> l).
Proof. by induction 1; constructor. Qed.
Lemma reverse_sublist {A} (k l : list A) : k `sublist_of` l -> reverse k `sublist_of` reverse l.
Proof.
  induction 1; [done|..]; rewrite ?reverse_cons.
  - by apply sublist_app.
  - by apply sublist_inserts_r.
Qed.

Lemma filter_sublist {A} (P : A -> Prop) `{!forall x, Decision (P x)} (l : list A) :
  filter P l `sublist_of` l.
Proof.
  induction l as [|x l IH]; [done|]. rewrite filter_cons.
  destruct (decide (P x)); [by apply sublist_skip|by apply sublist_cons].
Qed.

(** [max(l)] of a non-empty list of integers. *)
Definition max_list (x : Z) (l : list Z) : Z := foldr Z.max x l.

Lemma max_list_ge x l y : y = x \/ y ∈ l -> y <= max_list x l.
Proof.
  unfold max_list. induction l as [|z l IH]; simpl.
  - intros [->|Hy]; [lia|by apply elem_of_nil in Hy].
  - rewrite elem_of_cons. intros [->|[->|Hy]]; [|lia|].
    + specialize (IH (or_introl eq_refl)). lia.
    + specialize (IH (or_intror Hy)). lia.
Qed.

Lemma max_list_in x l : max_list x l = x \/ max_list x l ∈ l.
Proof.
  unfold max_list. induction l as [|z l IH]; simpl; [by left|].
  destruct (Z.max_spec z (foldr Z.max x l)) as [[_ ->]|[_ ->]];
    [destruct IH as [->|]; [by left|right; by right] | right; left].
Qed.

(** A sorted list without duplicate keys is the sorting of any listing. *)
Lemma sorted_unique {A} (R : A -> A -> Prop) (l k : list A) :
  (forall x y, x ∈ l -> y ∈ l -> R x y -> R y x -> x = y) -> StronglySorted R l -> StronglySorted R k -> l ≡ₚ k -> l = k.
Proof.
  intros Hanti Hl. revert k. induction Hl as [|x l Hl IH Hx]; intros k Hk Hp.
  { by apply Permutation_nil in Hp. }
  destruct Hk as [|y k Hk Hy]; [by apply Permutation_sym, Permutation_nil in Hp|].
  rewrite Forall_forall in Hx, Hy.
  assert (x = y) as ->.
  { assert (Hxk : x ∈ y :: k) by (rewrite <-Hp; left). assert (Hyl : y ∈ x :: l) by (rewrite Hp; left).
    apply elem_of_cons in Hxk as [->|Hxk]; [done|]. apply elem_of_cons in Hyl as [->|Hyl]; [done|].
    apply Hanti; [by left|by right|auto..]. }
  f_equal. apply IH; [|done|by apply Permutation_cons_inv in Hp]. intros u v Hu Hv. apply Hanti; by right.
Qed.
Lemma StronglySorted_map {A B} (R : A -> A -> Prop) (S : B -> B -> Prop) (f : A -> B) l :
  (forall x y, R x y -> S (f x) (f y)) -> StronglySorted R l -> StronglySorted S (map f l).
Proof.
  intros Hf. induction 1 as [|x l Hl IH Hx]; simpl; constructor; [done|].
  rewrite Forall_forall in Hx. apply Forall_forall. intros y (z & -> & Hz)%list_elem_of_fmap. by apply Hf, Hx.
Qed.
Lemma StronglySorted_map_inv {A B} (S : B -> B -> Prop) (f : A -> B) l :
  StronglySorted S (f <$> l) -> StronglySorted (fun x y => S (f x) (f y)) l.
Proof.
  induction l as [|x l IH]; [constructor|]. rewrite fmap_cons. intros [Hs Hx]%StronglySorted_inv. constructor; [by apply IH|].
  apply Forall_forall. intros y Hy. rewrite Forall_forall in Hx. by apply Hx, (list_elem_of_fmap_2 f).
Qed.
