(* ===== verification/Query.v ===== *)
(** * Computations with a state and exceptions

    A method of an object that talks to the outside returns a value or raises,
    and changes a state: [query A].  [and_then] runs one after the other and
    stops at the first exception; [pure] changes nothing. *)
From stdpp Require Import base tactics list.
From S2P Require Import Prelude.

Section query.
Context {W : Type}.
Definition query (A : Type) : Type := W -> res A * W.
Definition and_then {A B} (m : query A) (f : A -> query B) : query B :=
  fun w => match m w with (Ok a, w') => f a w' | (Raise e, w') => (Raise e, w') end.
Definition pure {A} (m : res A) : query A := fun w => (m, w).
(** [try: m except Exception: handler] *)
Definition catch {A} (m : query A) (caught : exc -> bool) (handler : exc -> query A) : query A :=
  fun w => match m w with
           | (Raise e, w') => if caught e then handler e w' else (Raise e, w')
           | r => r
           end.

Lemma and_then_Ok {A B} (m : query A) (f : A -> query B) w b w' : and_then m f w = (Ok b, w') ->
  exists a w1, m w = (Ok a, w1) /\ f a w1 = (Ok b, w').
Proof. unfold and_then. destruct (m w) as [[a|e] w1]; [eauto|done]. Qed.
Lemma pure_Ok {A} (m : res A) (w : W) a w' : pure m w = (Ok a, w') -> m = Ok a /\ w' = w.
Proof. unfold pure. intros [= -> ->]. done. Qed.
Lemma catch_Ok {A} (m : query A) caught handler w a w' : catch m caught handler w = (Ok a, w') ->
  m w = (Ok a, w') \/ exists e w1, m w = (Raise e, w1) /\ caught e = true /\ handler e w1 = (Ok a, w').
Proof. unfold catch. destruct (m w) as [[b|e] w1]; [by left|]. destruct (caught e) eqn:E; [|done]. intros Hh. right. by exists e, w1. Qed.
End query.

(** Follow one bind. *)
Ltac next H a Ha :=
  let w := fresh "w" in apply and_then_Ok in H as (a & w & Ha & H).
Ltac next_pure H a Ha :=
  next H a Ha; apply pure_Ok in Ha as [Ha ->].

(** ** Queries that keep a relation between the states *)
Create HintDb keeps.
Section keeps.
Context {W : Type} (R : W -> W -> Prop) `{!PreOrder R}.

Definition keeps {A} (m : query (W:=W) A) : Prop := forall w, R w (m w).2.
Lemma keeps_pure {A} (r : res A) : keeps (pure r).
Proof. intros w. simpl. reflexivity. Qed.
Lemma keeps_and_then {A B} (m : query (W:=W) A) (f : A -> query (W:=W) B) : keeps m -> (forall a, keeps (f a)) -> keeps (and_then m f).
Proof.
  intros Hm Hf w. unfold and_then. specialize (Hm w). destruct (m w) as [[a|e] w']; [|done]. simpl in Hm. etrans; [exact Hm|apply Hf].
Qed.
End keeps.

(** ** Outcomes under an invariant of the state

    [satisfies m Q X]: from a state with the invariant, [m] ends in one, with
    a value in [Q] or an exception in [X]. *)
Section satisfies.
Context {W : Type} (Inv : W -> Prop).

Definition satisfies {A} (m : query (W:=W) A) (Q : A -> Prop) (X : exc -> Prop) : Prop :=
  forall w, Inv w -> Inv (m w).2 /\ match (m w).1 with Ok a => Q a | Raise e => X e end.

Lemma satisfies_pure {A} (r : res A) (Q : A -> Prop) (X : exc -> Prop) :
  match r with Ok a => Q a | Raise e => X e end -> satisfies (pure r) Q X.
Proof. by intros Hr w Hw. Qed.
Lemma satisfies_and_then {A B} (m : query (W:=W) A) (f : A -> query (W:=W) B) (P : A -> Prop) Q X :
  satisfies m P X -> (forall a, P a -> satisfies (f a) Q X) -> satisfies (and_then m f) Q X.
Proof.
  intros Hm Hf w Hw. unfold and_then. destruct (Hm w Hw) as [Hw' Hr]. destruct (m w) as [[a|e] w']; [|done].
  by apply (Hf a Hr).
Qed.
Lemma satisfies_catch {A} (m : query (W:=W) A) caught handler (Q : A -> Prop) (X Y : exc -> Prop) :
  satisfies m Q Y -> (forall e, Y e -> caught e = false -> X e) ->
  (forall e, Y e -> caught e = true -> satisfies (handler e) Q X) -> satisfies (catch m caught handler) Q X.
Proof.
  intros Hm Hx Hh w Hw. unfold catch. destruct (Hm w Hw) as [Hw' Hr]. destruct (m w) as [[a|e] w']; [done|].
  destruct (caught e) eqn:E; [by apply Hh|]. split; [done|]. by apply Hx.
Qed.
Lemma satisfies_impl {A} (m : query (W:=W) A) (P Q : A -> Prop) (X Y : exc -> Prop) :
  satisfies m P X -> (forall a, P a -> Q a) -> (forall e, X e -> Y e) -> satisfies m Q Y.
Proof. intros Hm Hq Hx w Hw. destruct (Hm w Hw) as [Hw' Hr]. split; [done|]. destruct (m w) as [[a|e] w']; cbn in *; auto. Qed.
(** What a run leaves, read off a [satisfies]. *)
Lemma satisfies_run {A} (m : query (W:=W) A) Q X w r w' : satisfies m Q X -> Inv w -> m w = (r, w') ->
  Inv w' /\ match r with Ok a => Q a | Raise e => X e end.
Proof. intros Hm Hw E. specialize (Hm w Hw). by rewrite E in Hm. Qed.
End satisfies.

(** [for x in l: try: return body(x) except Exception: continue], then [rest] *)
Section try_each.
Context {W A B : Type} (caught : exc -> bool) (body : A -> query (W:=W) B).
Fixpoint try_each (l : list A) (rest : query (W:=W) B) : query (W:=W) B :=
  match l with
  | [] => rest
  | x :: l => catch (body x) caught (fun _ => try_each l rest)
  end.
Lemma satisfies_try_each (Inv : W -> Prop) l rest (Q : B -> Prop) (X Y : exc -> Prop) :
  (forall x, x ∈ l -> satisfies Inv (body x) Q Y) -> (forall e, Y e -> caught e = false -> X e) ->
  satisfies Inv rest Q X -> satisfies Inv (try_each l rest) Q X.
Proof.
  intros Hb Hy Hr. induction l as [|x l IH]; [done|]. eapply satisfies_catch; [apply Hb; left|done|].
  intros _ _ _. apply IH. intros y Hl. apply Hb. by right.
Qed.
End try_each.
