(* ===== verification/PyStr.v ===== *)
(** * Python text and integers

    A Python [str] is the Rocq [string] of its UTF-8 bytes (lone surrogates
    are outside the model); [bytes] is [list ascii].  [chars] splits a string
    into its code points, so [py_len] and the slices count code points as
    Python does.  This file models the parts of CPython 3.11 that the program
    uses: [str.strip], [lower], [isdigit], [isspace], slicing, [split],
    [int(str)], [str(int)].  Tables for non-ASCII code points are Unicode 14's.
    What is left open (case mapping and printability beyond ASCII and
    [float.__repr__]) is the class [PyRuntime]. *)
From Stdlib Require Import ZArith NArith Lia Ascii String SpecFloat.
From stdpp Require Import base gmap sets list strings sorting.
From S2P Require Import Prelude.
Open Scope Z_scope.

Abbreviation bytes := (list ascii).

Definition byte_Z (a : ascii) : Z := Z.of_N (N_of_ascii a).
Definition Z_byte (z : Z) : ascii := ascii_of_N (Z.to_N z).

Lemma byte_Z_range a : 0 <= byte_Z a < 256.
Proof. unfold byte_Z. pose proof (N_ascii_bounded a). lia. Qed.
Lemma Z_byte_Z a : Z_byte (byte_Z a) = a.
Proof. unfold Z_byte, byte_Z. rewrite N2Z.id. apply ascii_N_embedding. Qed.
Lemma byte_Z_byte z : 0 <= z < 256 -> byte_Z (Z_byte z) = z.
Proof. intros. unfold Z_byte, byte_Z. rewrite N_ascii_embedding; lia. Qed.
Lemma byte_Z_inj a b : byte_Z a = byte_Z b -> a = b.
Proof. intros H. by rewrite <-(Z_byte_Z a), H, Z_byte_Z. Qed.

(** ** What the model leaves to the interpreter *)
Class PyRuntime := {
  rt_isprintable : Z -> bool;          (* code points >= 128 *)
  rt_lower : string -> string;         (* strings with a non-ASCII character *)
  rt_upper : string -> string;
  rt_float_repr : spec_float -> string (* finite floats *)
}.

(** [unicodedata.category(c).startswith("C")]: control, format, surrogate,
    private-use and unassigned characters. *)
Class UnicodeData := { category_C : Z -> bool }.

(** An interpreter restricted to ASCII text and float-free documents. *)
Definition ascii_runtime : PyRuntime :=
  Build_PyRuntime (fun _ => false) (fun s => s) (fun s => s) (fun _ => "0.0").

(** ** Bytes and code points *)
Definition list_of_string : string -> list ascii := String.list_ascii_of_string.
Definition string_of_list : list ascii -> string := String.string_of_list_ascii.

Lemma string_of_list_of_string s : string_of_list (list_of_string s) = s.
Proof. apply String.string_of_list_ascii_of_string. Qed.
Lemma list_of_string_of_list l : list_of_string (string_of_list l) = l.
Proof. apply String.list_ascii_of_string_of_list_ascii. Qed.

Definition is_cont (a : ascii) : bool := (128 <=? byte_Z a) && (byte_Z a <? 192).
Definition is_ascii_byte (a : ascii) : bool := byte_Z a <? 128.

Definition head_is (c : ascii) (l : list ascii) : bool :=
  match l with a :: _ => bool_decide (a = c) | [] => false end.

Fixpoint str_forallb (p : ascii -> bool) (s : string) : bool :=
  match s with EmptyString => true | String c s' => p c && str_forallb p s' end.
Definition is_ascii (s : string) : bool := str_forallb is_ascii_byte s.

Fixpoint chars (s : string) : list string :=
  match s with
  | EmptyString => []
  | String c s' =>
      match chars s' with
      | String d t :: rest => if is_cont d then String c (String d t) :: rest
                              else String c EmptyString :: String d t :: rest
      | l => String c EmptyString :: l
      end
  end.

Fixpoint str_concat (l : list string) : string :=
  match l with [] => EmptyString | s :: l' => s +:+ str_concat l' end.

Definition py_len (s : string) : Z := Z.of_nat (length (chars s)).
(** [s[:n]] *)
Definition py_take (n : Z) (s : string) : string := str_concat (take (Z.to_nat n) (chars s)).

Lemma str_app_assoc (a b c : string) : (a +:+ b) +:+ c = a +:+ (b +:+ c).
Proof. induction a; simpl; congruence. Qed.
Lemma str_app_nil_r (a : string) : a +:+ EmptyString = a.
Proof. induction a; simpl; congruence. Qed.
Lemma str_length_app (a b : string) : String.length (a +:+ b) = (String.length a + String.length b)%nat.
Proof. induction a; simpl; congruence. Qed.

Lemma str_concat_chars s : str_concat (chars s) = s.
Proof.
  induction s as [|c s IH]; [done|]. rewrite <-IH at 2. simpl.
  destruct (chars s) as [|[|d t] rest]; simpl; [done..|]. by destruct (is_cont d).
Qed.

(** A character group: a byte followed by continuation bytes. *)
Definition char_group (g : string) : bool :=
  match g with EmptyString => false | String _ t => str_forallb is_cont t end.
Definition lead_group (g : string) : bool :=
  match g with EmptyString => false | String c _ => negb (is_cont c) end.
(** Lists of groups that [chars] can return. *)
Definition groups_ok (l : list string) : Prop :=
  Forall (fun g => char_group g = true) l /\ Forall (fun g => lead_group g = true) (tail l).

Lemma groups_ok_chars s : groups_ok (chars s).
Proof.
  induction s as [|c s [IH1 IH2]]; [repeat constructor|]. simpl.
  destruct (chars s) as [|[|d t] rest] eqn:E; simpl.
  - repeat constructor.
  - apply Forall_cons in IH1 as [? _]. done.
  - apply Forall_cons in IH1 as [Ht Hr]. simpl in Ht, IH2.
    destruct (is_cont d) eqn:Hd; split; simpl.
    + constructor; [simpl; by rewrite Hd|done].
    + done.
    + repeat constructor; done.
    + constructor; [simpl; by rewrite Hd|done].
Qed.

Lemma chars_app_group g r :
  char_group g = true ->
  match chars r with [] => True | h :: _ => lead_group h = true end ->
  chars (g +:+ r) = g :: chars r.
Proof.
  destruct g as [|c t]; [done|]. simpl. revert c.
  induction t as [|d t IH]; intros c Ht Hr; simpl in *.
  - destruct (chars r) as [|[|d t] rest]; [done..|]. simpl in Hr. by destruct (is_cont d).
  - apply andb_true_iff in Ht as [Hd Ht]. rewrite (IH d Ht Hr). by rewrite Hd.
Qed.

Lemma chars_concat l : groups_ok l -> chars (str_concat l) = l.
Proof.
  induction l as [|g l IH]; [done|]. intros [H1 H2]. simpl in *.
  apply Forall_cons in H1 as [Hg H1].
  assert (groups_ok l) as Hok.
  { split; [done|]. destruct l; [done|]. by apply Forall_cons in H2 as [_ ?]. }
  rewrite chars_app_group, IH; [done..|]. rewrite IH by done.
  destruct l; [done|]. by apply Forall_cons in H2 as [? _].
Qed.

(** Sublists of a well-formed group list are well formed. *)
Lemma groups_ok_sublist l k : k `sublist_of` l -> groups_ok l -> groups_ok k.
Proof.
  intros Hs [H1 H2]. split.
  - eapply Forall_sublist; eauto.
  - destruct l as [|g l]; simpl in *.
    { apply sublist_nil_r in Hs as ->. constructor. }
    apply sublist_cons_r in Hs as [Hs|(k' & -> & Hs)]; simpl.
    + destruct k; [constructor|]. apply sublist_cons_l in Hs as (l1 & l2 & -> & Hs).
      simpl. apply Forall_app in H2 as [_ H2]. apply Forall_cons in H2 as [_ H2].
      eapply Forall_sublist; eauto.
    + eapply Forall_sublist; eauto.
Qed.

Lemma chars_take n s : chars (str_concat (take n (chars s))) = take n (chars s).
Proof. apply chars_concat. eapply groups_ok_sublist; [|apply groups_ok_chars]. apply sublist_take. Qed.

Lemma py_len_take n s : 0 <= n -> py_len (py_take n s) <= n.
Proof. intros. unfold py_len, py_take. rewrite chars_take, length_take. lia. Qed.

Lemma py_len_nonneg s : 0 <= py_len s.
Proof. unfold py_len. lia. Qed.

Lemma py_take_all n s : py_len s <= n -> py_take n s = s.
Proof. intros. unfold py_take, py_len in *. rewrite take_ge by lia. apply str_concat_chars. Qed.

Lemma py_take_nonempty n s : 1 <= n -> s <> EmptyString -> py_take n s <> EmptyString.
Proof.
  intros Hn Hs. unfold py_take. pose proof (groups_ok_chars s) as [Hg _].
  destruct (chars s) as [|g l] eqn:E.
  - exfalso. apply Hs. by rewrite <-(str_concat_chars s), E.
  - apply Forall_cons in Hg as [Hg _]. destruct (Z.to_nat n) eqn:En; [lia|]. simpl. by destruct g.
Qed.

Lemma chars_nil s : chars s = [] <-> s = EmptyString.
Proof. split; [|by intros ->]. intros H. rewrite <-(str_concat_chars s), H. done. Qed.

(** *** Code point of a group *)
Definition code_point (g : string) : Z :=
  match list_of_string g with
  | [a] => byte_Z a
  | [a; b] => (byte_Z a - 192) * 64 + (byte_Z b - 128)
  | [a; b; c] => ((byte_Z a - 224) * 64 + (byte_Z b - 128)) * 64 + (byte_Z c - 128)
  | [a; b; c; d] =>
      (((byte_Z a - 240) * 64 + (byte_Z b - 128)) * 64 + (byte_Z c - 128)) * 64
      + (byte_Z d - 128)
  | _ => 0
  end.

Definition in_range (ranges : list (Z * Z)) (c : Z) : bool :=
  existsb (fun r => (r.1 <=? c) && (c <=? r.2)) ranges.

(** [str.isspace] of one code point. *)
Definition is_space_cp (c : Z) : bool :=
  in_range [(9,13); (28,32); (133,133); (160,160); (5760,5760); (8192,8202);
            (8232,8233); (8239,8239); (8287,8287); (12288,12288)] c.

(** First code points of the decimal-digit runs beyond ASCII. *)
Definition decimal_zeros : list Z :=
  [1632; 1776; 1984; 2406; 2534; 2662; 2790; 2918; 3046; 3174; 3302; 3430; 3558; 3664;
   3792; 3872; 4160; 4240; 6112; 6160; 6470; 6608; 6784; 6800; 6992; 7088; 7232; 7248;
   42528; 43216; 43264; 43472; 43504; 43600; 44016; 65296; 66720; 68912; 69734; 69872;
   69942; 70096; 70384; 70736; 70864; 71248; 71360; 71472; 71904; 72016; 72784; 73040;
   73120; 92768; 92864; 93008; 120782; 120792; 120802; 120812; 120822; 123200; 123632;
   125264; 130032].
(** Non-decimal digits ([isdigit] but not accepted by [int]). *)
Definition other_digits : list (Z * Z) :=
  [(178,179); (185,185); (4969,4977); (6618,6618); (8304,8304); (8308,8313); (8320,8329);
   (9312,9320); (9332,9340); (9352,9360); (9450,9450); (9461,9469); (9471,9471);
   (10102,10110); (10112,10120); (10122,10130); (68160,68163); (69216,69224);
   (69714,69722); (127232,127242)].

(** The decimal value of a code point, if it is a decimal digit. *)
Definition decimal_value (c : Z) : option Z :=
  if (48 <=? c) && (c <=? 57) then Some (c - 48)
  else match List.find (fun z => (z <=? c) && (c <? z + 10)) decimal_zeros with
       | Some z => Some (c - z)
       | None => None
       end.
Definition is_digit_cp (c : Z) : bool :=
  bool_decide (is_Some (decimal_value c)) || in_range other_digits c.
(** [s.isdigit()] *)
Definition py_isdigit (s : string) : bool :=
  negb (bool_decide (s = EmptyString)) && forallb (fun g => is_digit_cp (code_point g)) (chars s).

Section runtime.
Context `{PyRuntime}.

Definition is_printable_cp (c : Z) : bool :=
  if c <? 128 then (32 <=? c) && (c <=? 126) else rt_isprintable c.

Definition ascii_lower (a : ascii) : ascii :=
  let z := byte_Z a in if (65 <=? z) && (z <=? 90) then Z_byte (z + 32) else a.
Definition ascii_upper (a : ascii) : ascii :=
  let z := byte_Z a in if (97 <=? z) && (z <=? 122) then Z_byte (z - 32) else a.
Fixpoint str_map (f : ascii -> ascii) (s : string) : string :=
  match s with EmptyString => EmptyString | String c s' => String (f c) (str_map f s') end.

Definition py_lower (s : string) : string :=
  if is_ascii s then str_map ascii_lower s else rt_lower s.
Definition py_upper (s : string) : string :=
  if is_ascii s then str_map ascii_upper s else rt_upper s.
End runtime.

(** ** Stripping, splitting, searching *)
Fixpoint drop_while {A} (p : A -> bool) (l : list A) : list A :=
  match l with [] => [] | x :: l' => if p x then drop_while p l' else l end.
Definition strip_chars (p : string -> bool) (l : list string) : list string :=
  reverse (drop_while p (reverse (drop_while p l))).
Definition is_space_char (g : string) : bool := is_space_cp (code_point g).
(** [s.strip()] *)
Definition py_strip (s : string) : string := str_concat (strip_chars is_space_char (chars s)).
(** [s.strip(c)], [s.lstrip(c)], [s.rstrip(c)] for a one-character [c]. *)
Definition is_char (c : ascii) (g : string) : bool := bool_decide (g = String c EmptyString).
Definition py_strip_char (c : ascii) (s : string) : string :=
  str_concat (strip_chars (is_char c) (chars s)).
Definition py_lstrip_char (c : ascii) (s : string) : string :=
  str_concat (drop_while (is_char c) (chars s)).
Definition py_rstrip_char (c : ascii) (s : string) : string :=
  str_concat (reverse (drop_while (is_char c) (reverse (chars s)))).

Lemma drop_while_sublist {A} (p : A -> bool) l : drop_while p l `sublist_of` l.
Proof.
  induction l as [|x l IH]; simpl; [constructor|].
  destruct (p x); [by apply sublist_cons|done].
Qed.
Lemma strip_chars_sublist p l : strip_chars p l `sublist_of` l.
Proof.
  unfold strip_chars. etrans; [|apply (drop_while_sublist p)].
  rewrite <-(reverse_involutive (drop_while p l)) at 2.
  apply reverse_sublist, drop_while_sublist.
Qed.

Fixpoint split_aux (sep : ascii) (cur s : string) : list string :=
  match s with
  | EmptyString => [cur]
  | String c s' => if bool_decide (c = sep) then cur :: split_aux sep EmptyString s'
                   else split_aux sep (cur +:+ String c EmptyString) s'
  end.
(** [s.split(sep)] for a one-character ASCII separator. *)
Definition py_split (sep : ascii) (s : string) : list string := split_aux sep EmptyString s.

(** [s.split(sep, 1)] when [sep] occurs: the texts before and after it. *)
Fixpoint py_split1 (sep : ascii) (s : string) : option (string * string) :=
  match s with
  | EmptyString => None
  | String c s' => if bool_decide (c = sep) then Some (EmptyString, s')
                   else p ← py_split1 sep s'; Some (String c p.1, p.2)
  end.
(** [s.rsplit(sep, 1)[-1]] *)
Definition py_rsplit_last (sep : ascii) (s : string) : string :=
  default s (last (py_split sep s)).

(** [s.splitlines()] *)
Definition is_linebreak (g : string) : bool :=
  in_range [(10,13); (28,30); (133,133); (8232,8233)] (code_point g).
Fixpoint lines_aux (cur : string) (l : list string) : list string :=
  match l with
  | [] => if bool_decide (cur = EmptyString) then [] else [cur]
  | g :: l' =>
      if is_linebreak g then
        cur :: match l' with
               | h :: l'' => if (code_point g =? 13) && (code_point h =? 10)
                             then lines_aux EmptyString l'' else lines_aux EmptyString l'
               | [] => []
               end
      else lines_aux (cur +:+ g) l'
  end.
Definition py_splitlines (s : string) : list string := lines_aux EmptyString (chars s).

(** [sep.join(l)] *)
Fixpoint py_join (sep : string) (l : list string) : string :=
  match l with
  | [] => EmptyString
  | [s] => s
  | s :: l' => s +:+ sep +:+ py_join sep l'
  end.

(** [sub in s] *)
Fixpoint py_contains (sub s : string) : bool :=
  String.prefix sub s ||
  match s with EmptyString => false | String _ s' => py_contains sub s' end.
Definition startswith (p s : string) : bool := String.prefix p s.

(** [s.replace(c, r)] for a one-byte [c]. *)
Fixpoint replace_char (c : ascii) (r s : string) : string :=
  match s with
  | EmptyString => EmptyString
  | String d s' => if bool_decide (d = c) then r +:+ replace_char c r s'
                   else String d (replace_char c r s')
  end.

(** ** Decimal text *)
Definition digit_char (d : Z) : ascii := Z_byte (48 + d).

Fixpoint dec_list (fuel : nat) (n : Z) : list Z :=
  match fuel with
  | O => []
  | S f => if n <? 10 then [n] else dec_list f (n / 10) ++ [n mod 10]
  end.
Definition dec_digits (n : Z) : list Z := dec_list (S (Z.to_nat (Z.log2 n))) n.
Definition digits_str (ds : list Z) : string := string_of_list (map digit_char ds).
Definition str_of_nonneg (n : Z) : string := digits_str (dec_digits n).
(** [str(n)]; integers beyond 4300 digits raise ValueError in CPython 3.11,
    see [py_str_int]. *)
Definition str_of_Z (n : Z) : string :=
  if n <? 0 then String "-" (str_of_nonneg (- n)) else str_of_nonneg n.
Definition MAX_STR_DIGITS : Z := 4300.
Definition py_str_int (n : Z) : res string :=
  if Z.log2 (Z.abs n) <? 12900 then Ok (str_of_Z n)    (* clearly within the limit *)
  else if 10 ^ MAX_STR_DIGITS <=? Z.abs n then Raise (ValueError "Exceeds the limit")
  else Ok (str_of_Z n).

(** The first test only avoids computing the limit. *)
Lemma py_str_int_spec n : py_str_int n =
  if 10 ^ MAX_STR_DIGITS <=? Z.abs n then Raise (ValueError "Exceeds the limit") else Ok (str_of_Z n).
Proof.
  unfold py_str_int. destruct (Z.log2 (Z.abs n) <? 12900) eqn:E; [|done].
  apply Z.ltb_lt in E. rewrite (proj2 (Z.leb_gt _ _)); [done|].
  destruct (decide (Z.abs n = 0)) as [->|Hn]; [by apply Z.pow_pos_nonneg|].
  apply Z.log2_lt_pow2 in E; [|lia]. eapply Z.lt_le_trans; [exact E|].
  change 12900 with (3 * MAX_STR_DIGITS). rewrite Z.pow_mul_r by done. by apply Z.pow_le_mono_l.
Qed.

Definition digits_value (ds : list Z) : Z := foldl (fun acc d => acc * 10 + d) 0 ds.

Definition dec_ok (n : Z) (ds : list Z) : Prop :=
  digits_value ds = n /\ Forall (fun d => 0 <= d < 10) ds /\ ds <> [] /\
  (forall k : Z, 1 <= k -> Z.of_nat (length ds) <= k <-> n < 10 ^ k).

Lemma dec_list_ok fuel n : 0 <= n < 2 ^ Z.of_nat fuel -> 1 <= Z.of_nat fuel -> dec_ok n (dec_list fuel n).
Proof.
  revert n. induction fuel as [|f IH]; intros n Hn H1; [simpl in H1; lia|].
  rewrite Nat2Z.inj_succ, Z.pow_succ_r in Hn by lia. cbn [dec_list].
  destruct (Z.ltb_spec n 10) as [H10|H10].
  - split; [reflexivity|]. split; [apply Forall_singleton; lia|]. split; [done|].
    intros k Hk. simpl. assert (10 ^ 1 <= 10 ^ k) by (apply Z.pow_le_mono_r; lia). lia.
  - assert (0 <= n / 10 < 2 ^ Z.of_nat f) as Hd.
    { split; [apply Z.div_pos; lia|]. apply Z.div_lt_upper_bound; lia. }
    assert (1 <= Z.of_nat f) as Hf1 by (destruct f; [simpl in Hn|]; lia).
    destruct (IH _ Hd Hf1) as (Hv & Hf & Hne & Hlen). pose proof (Z.mod_pos_bound n 10).
    split; [|split; [|split]].
    + unfold digits_value in *. rewrite foldl_app, Hv. simpl.
      pose proof (Z.div_mod n 10). lia.
    + apply Forall_app. split; [done|]. apply Forall_singleton. lia.
    + destruct (dec_list f (n / 10)); done.
    + intros k Hk. rewrite length_app, Nat2Z.inj_add. simpl.
      destruct (decide (k = 1)) as [->|].
      { destruct (dec_list f (n / 10)); [done|]. simpl. lia. }
      replace (10 ^ k) with (10 * 10 ^ (k - 1)) by (rewrite <-Z.pow_succ_r by lia; f_equal; lia).
      specialize (Hlen (k - 1) ltac:(lia)).
      pose proof (Z.div_mod n 10). nia.
Qed.

Lemma dec_digits_ok n : 0 <= n -> dec_ok n (dec_digits n).
Proof.
  intros Hn. apply dec_list_ok; [|lia]. split; [done|].
  rewrite Nat2Z.inj_succ, Z2Nat.id by apply Z.log2_nonneg.
  destruct (decide (n = 0)) as [->|]; [done|]. apply Z.log2_spec. lia.
Qed.

Lemma str_length_of_list l : String.length (string_of_list l) = length l.
Proof. induction l; simpl; congruence. Qed.

Lemma digit_char_ascii d : 0 <= d < 10 -> is_ascii_byte (digit_char d) = true.
Proof. intros. unfold is_ascii_byte, digit_char. rewrite byte_Z_byte; lia. Qed.

Lemma is_cont_ascii a : is_ascii_byte a = true -> is_cont a = false.
Proof. unfold is_ascii_byte, is_cont. lia. Qed.

(** ASCII strings have one code point per byte. *)
Lemma chars_ascii s :
  is_ascii s = true -> chars s = map (fun a => String a EmptyString) (list_of_string s).
Proof.
  induction s as [|c s IH]; [done|]. unfold is_ascii in *. cbn [str_forallb]. intros [Hc Hs]%andb_true_iff.
  cbn [chars]. rewrite (IH Hs). destruct s as [|d s]; [done|].
  cbn [str_forallb] in Hs. apply andb_true_iff in Hs as [Hd _].
  cbn. by rewrite is_cont_ascii.
Qed.

Lemma str_forallb_of_list p l : str_forallb p (string_of_list l) = forallb p l.
Proof. induction l; simpl; congruence. Qed.

Lemma py_len_ascii s : is_ascii s = true -> py_len s = Z.of_nat (String.length s).
Proof.
  intros Hs. unfold py_len. rewrite chars_ascii by done. rewrite length_map.
  f_equal. clear Hs. induction s; simpl; congruence.
Qed.

Lemma digits_str_ascii ds :
  Forall (fun d => 0 <= d < 10) ds -> is_ascii (digits_str ds) = true.
Proof.
  intros Hf. unfold is_ascii, digits_str. rewrite str_forallb_of_list.
  induction Hf; simpl; [done|]. rewrite digit_char_ascii by done. done.
Qed.

Lemma py_len_str_of_nonneg n k :
  0 <= n -> 1 <= k -> py_len (str_of_nonneg n) <= k <-> n < 10 ^ k.
Proof.
  intros Hn Hk. destruct (dec_digits_ok n Hn) as (_ & Hf & _ & Hlen).
  unfold str_of_nonneg. rewrite py_len_ascii by (by apply digits_str_ascii).
  unfold digits_str. rewrite str_length_of_list, length_map. by apply Hlen.
Qed.

(** [int(s)] for a string.  Non-ASCII spaces and decimal digits are mapped to
    ASCII, anything else non-ASCII is an error. *)
Definition int_char (g : string) : ascii :=
  let c := code_point g in
  if c <? 128 then Z_byte c
  else if is_space_cp c then " "%char
  else match decimal_value c with Some d => digit_char d | None => "?"%char end.
Definition c_isspace (a : ascii) : bool :=
  let z := byte_Z a in ((9 <=? z) && (z <=? 13)) || (z =? 32).
Definition ascii_digit (a : ascii) : option Z :=
  let z := byte_Z a in if (48 <=? z) && (z <=? 57) then Some (z - 48) else None.

(** Digits with single underscores between them. *)
Fixpoint int_digits (l : list ascii) : option (list Z) :=
  match l with
  | [] => None
  | a :: l' =>
      match ascii_digit a with
      | None => None
      | Some d =>
          match l' with
          | [] => Some [d]
          | b :: l'' => if bool_decide (b = "_"%char) then cons d <$> int_digits l''
                        else cons d <$> int_digits l'
          end
      end
  end.

Definition bad_int : exc := ValueError "invalid literal for int()".
Definition py_int_str (s : string) : res Z :=
  let l := map int_char (chars s) in
  let l := reverse (drop_while c_isspace (reverse (drop_while c_isspace l))) in
  let neg := head_is "-"%char l in
  let l := if neg || head_is "+"%char l then tail l else l in
  match int_digits l with
  | None => Raise bad_int
  | Some ds => if MAX_STR_DIGITS <? Z.of_nat (length ds) then Raise bad_int
               else Ok (if neg then - digits_value ds else digits_value ds)
  end.

(** ** Splitting and joining *)
Lemma split_aux_join sep cur s :
  py_join (String sep EmptyString) (split_aux sep cur s) = cur +:+ s.
Proof.
  revert cur. induction s as [|c s IH]; intros cur; simpl; [by rewrite str_app_nil_r|].
  destruct (bool_decide_reflect (c = sep)) as [->|Hc].
  - specialize (IH EmptyString). destruct (split_aux sep EmptyString s) as [|x l] eqn:E.
    { by destruct s; simpl in E; try case_bool_decide. }
    change (cur +:+ String sep EmptyString +:+ py_join (String sep EmptyString) (x :: l) = cur +:+ String sep s).
    by rewrite IH.
  - rewrite IH, str_app_assoc. done.
Qed.

(** Splitting a text at a character and joining it again gives the text. *)
Lemma py_join_split sep s : py_join (String sep EmptyString) (py_split sep s) = s.
Proof. apply (split_aux_join sep EmptyString s). Qed.

Lemma split_aux_app sep cur s t :
  str_forallb (fun c => negb (bool_decide (c = sep))) s = true ->
  split_aux sep cur (s +:+ t) = split_aux sep (cur +:+ s) t.
Proof.
  revert cur. induction s as [|c s IH]; intros cur; simpl.
  - by rewrite str_app_nil_r.
  - intros [Hc%negb_true_iff Hs]%andb_prop. rewrite Hc, IH by done. by rewrite str_app_assoc.
Qed.

Lemma py_split_join sep l :
  l <> [] -> Forall (fun s => str_forallb (fun c => negb (bool_decide (c = sep))) s = true) l ->
  py_split sep (py_join (String sep EmptyString) l) = l.
Proof.
  intros Hne Hl. unfold py_split. induction Hl as [|s l Hs Hl IH]; [done|].
  destruct l as [|t l].
  - simpl. rewrite <-(str_app_nil_r s) at 1. rewrite split_aux_app by done. done.
  - change (py_join (String sep EmptyString) (s :: t :: l)) with (s +:+ String sep (py_join (String sep EmptyString) (t :: l))).
    rewrite split_aux_app by done. cbn [split_aux String.append].
    rewrite bool_decide_eq_true_2 by done. by rewrite IH.
Qed.
