(* ===== verification/PyVal.v ===== *)
(** * Python values

    JSON documents and the other dynamically typed values the program passes
    around: [None], booleans, integers, binary64 floats, strings, lists and
    string-keyed dictionaries.  A dictionary is the association list of its
    items in insertion order.  The operations raise what Python raises:
    [py_get] is [v.get(k)] (AttributeError unless [v] is a dict), [py_sub] is
    [v[k]], [py_eq] is [==] (numeric across int, bool and float), [truthy] is
    [bool(v)], [por] is [a or b], [py_int] is [int(v)], and [json_dumps] is
    [json.dumps] with the options the program uses. *)
From Stdlib Require Import ZArith NArith Lia Ascii String SpecFloat.
From stdpp Require Import base gmap sets list strings sorting.
From S2P Require Import Prelude PyStr.
Open Scope Z_scope.

(** ** binary64 *)
Abbreviation float := spec_float.
Definition f_add : float -> float -> float := SFadd 53 1024.
Definition f_sub : float -> float -> float := SFsub 53 1024.
Definition f_mul : float -> float -> float := SFmul 53 1024.
Definition f_div : float -> float -> float := SFdiv 53 1024.
Definition f_ltb (a b : float) : bool := SFltb a b.
Definition f_leb (a b : float) : bool := SFleb a b.
(** The nearest float of an integer below 2^53 in absolute value is exact. *)
Definition f_of_Z (z : Z) : float := binary_normalize 53 1024 z 0 false.
Definition f_zero : float := S754_zero false.
Definition f_inf : float := S754_infinity false.
Definition isfinite (f : float) : bool :=
  match f with S754_zero _ | S754_finite _ _ _ => true | _ => false end.
Definition f_truthy (f : float) : bool := match f with S754_zero _ => false | _ => true end.

(** [math.trunc] and [math.floor] of a finite float. *)
Definition f_trunc (f : float) : Z :=
  match f with
  | S754_finite s m e =>
      let a := if 0 <=? e then Z.pos m * 2 ^ e else Z.pos m / 2 ^ (- e) in
      if s then - a else a
  | _ => 0
  end.
Definition f_floor (f : float) : Z :=
  match f with
  | S754_finite s m e =>
      let sm := if s then Z.neg m else Z.pos m in
      if 0 <=? e then sm * 2 ^ e else sm / 2 ^ (- e)
  | _ => 0
  end.
(** Exact comparison of a float with an integer. *)
Definition f_eq_Z (f : float) (z : Z) : bool :=
  match f with
  | S754_zero _ => z =? 0
  | S754_finite s m e =>
      let sm := if s then Z.neg m else Z.pos m in
      if 0 <=? e then sm * 2 ^ e =? z else sm =? z * 2 ^ (- e)
  | _ => false
  end.

(** ** Values *)
Inductive val : Type :=
| VNone
| VBool (b : bool)
| VInt (z : Z)
| VFloat (f : float)
| VStr (s : string)
| VList (l : list val)
| VDict (d : list (string * val)).

Section val_ind.
Variable P : val -> Prop.
Hypothesis HNone : P VNone.
Hypothesis HBool : forall b, P (VBool b).
Hypothesis HInt : forall z, P (VInt z).
Hypothesis HFloat : forall f, P (VFloat f).
Hypothesis HStr : forall s, P (VStr s).
Hypothesis HList : forall l, Forall P l -> P (VList l).
Hypothesis HDict : forall d, Forall (fun kv => P kv.2) d -> P (VDict d).

Fixpoint val_ind' (v : val) : P v :=
  match v with
  | VNone => HNone
  | VBool b => HBool b
  | VInt z => HInt z
  | VFloat f => HFloat f
  | VStr s => HStr s
  | VList l =>
      HList l ((fix go l : Forall P l :=
                  match l with
                  | [] => Forall_nil_2 _
                  | v :: l' => Forall_cons_2 _ v l' (val_ind' v) (go l')
                  end) l)
  | VDict d =>
      HDict d ((fix go d : Forall (fun kv => P kv.2) d :=
                  match d with
                  | [] => Forall_nil_2 _
                  | kv :: d' => Forall_cons_2 (fun kv => P kv.2) kv d' (val_ind' kv.2) (go d')
                  end) d)
  end.
End val_ind.

#[global] Instance spec_float_eq_dec : EqDecision spec_float.
Proof. solve_decision. Defined.

#[global] Instance val_eq_dec : EqDecision val.
Proof.
  refine (fix go (a b : val) : Decision (a = b) :=
    match a, b with
    | VNone, VNone => left eq_refl
    | VBool x, VBool y => cast_if (decide (x = y))
    | VInt x, VInt y => cast_if (decide (x = y))
    | VFloat x, VFloat y => cast_if (decide (x = y))
    | VStr x, VStr y => cast_if (decide (x = y))
    | VList l, VList m =>
        cast_if ((fix gol (l m : list val) : Decision (l = m) :=
           match l, m with
           | [], [] => left eq_refl
           | x :: l', y :: m' => cast_if_and (go x y) (gol l' m')
           | _, _ => right _
           end) l m)
    | VDict d, VDict e =>
        cast_if ((fix god (d e : list (string * val)) : Decision (d = e) :=
           match d, e with
           | [], [] => left eq_refl
           | (k, x) :: d', (j, y) :: e' =>
               cast_if_and3 (decide (k = j)) (go x y) (god d' e')
           | _, _ => right _
           end) d e)
    | _, _ => right _
    end); clear go; abstract congruence.
Defined.

(** ** Dictionaries *)
Section dict.
Context {A : Type}.
Fixpoint dict_get (k : string) (d : list (string * A)) : option A :=
  match d with
  | [] => None
  | (j, x) :: d' => if String.eqb k j then Some x else dict_get k d'
  end.
Definition dict_has (k : string) (d : list (string * A)) : bool :=
  match dict_get k d with Some _ => true | None => false end.
(** [d[k] = x]: replaces in place or appends. *)
Fixpoint dict_set (k : string) (x : A) (d : list (string * A)) : list (string * A) :=
  match d with
  | [] => [(k, x)]
  | (j, y) :: d' => if String.eqb k j then (j, x) :: d' else (j, y) :: dict_set k x d'
  end.
Definition dict_keys (d : list (string * A)) : list string := map fst d.

Lemma dict_get_In k d x : dict_get k d = Some x -> (k, x) ∈ d.
Proof.
  induction d as [|[j y] d IH]; simpl; [done|].
  destruct (String.eqb_spec k j) as [->|].
  - intros [= ->]. left.
  - intros H. right. auto.
Qed.
Lemma dict_get_None k d : dict_get k d = None <-> k ∉ dict_keys d.
Proof.
  induction d as [|[j y] d IH]; simpl; [set_solver|].
  destruct (String.eqb_spec k j) as [->|]; [set_solver|]. rewrite IH. set_solver.
Qed.
Lemma dict_get_set k x d : dict_get k (dict_set k x d) = Some x.
Proof.
  induction d as [|[j y] d IH]; simpl; [by rewrite String.eqb_refl|].
  destruct (String.eqb_spec k j) as [->|Hn]; simpl; [by rewrite String.eqb_refl|].
  destruct (String.eqb_spec k j); done.
Qed.
Lemma dict_get_set_ne k j x d : j <> k -> dict_get j (dict_set k x d) = dict_get j d.
Proof.
  intros Hn. induction d as [|[i y] d IH]; simpl.
  { by destruct (String.eqb_spec j k). }
  destruct (String.eqb_spec k i) as [->|]; simpl.
  - by destruct (String.eqb_spec j i).
  - by rewrite IH.
Qed.
Lemma dict_keys_set k x d :
  dict_keys (dict_set k x d) = if dict_has k d then dict_keys d else dict_keys d ++ [k].
Proof.
  unfold dict_has. induction d as [|[j y] d IH]; simpl; [done|].
  destruct (String.eqb_spec k j) as [->|]; simpl; [done|].
  rewrite IH. by destruct (dict_get k d).
Qed.
Lemma dict_set_fresh k x d : dict_has k d = false -> dict_set k x d = d ++ [(k, x)].
Proof.
  unfold dict_has. induction d as [|[j y] d IH]; simpl; [done|].
  destruct (String.eqb_spec k j); [done|]. intros H. by rewrite IH.
Qed.
Lemma NoDup_dict_set k x d : NoDup (dict_keys d) -> NoDup (dict_keys (dict_set k x d)).
Proof.
  intros Hd. rewrite dict_keys_set. unfold dict_has.
  destruct (dict_get k d) eqn:E; [done|]. apply dict_get_None in E.
  apply NoDup_app. split; [done|]. split; [set_solver|apply NoDup_singleton].
Qed.
End dict.
Lemma dict_get_elem {A} (d : list (string * A)) k v :
  NoDup (dict_keys d) -> ((k, v) ∈ d <-> dict_get k d = Some v).
Proof.
  intros Hn. split; [|apply dict_get_In]. intros Hin. induction d as [|[j y] d IH]; simpl.
  - by apply elem_of_nil in Hin.
  - simpl in Hn. apply NoDup_cons in Hn as [Hj Hn]. apply elem_of_cons in Hin as [[= -> ->]|Hin].
    + by rewrite String.eqb_refl.
    + destruct (String.eqb_spec k j) as [->|]; [|by apply IH].
      exfalso. apply Hj. apply list_elem_of_fmap. by exists (j, v).
Qed.

(** ** Operations on values *)
Definition is_dict (v : val) : bool := match v with VDict _ => true | _ => false end.
Definition is_list (v : val) : bool := match v with VList _ => true | _ => false end.
Definition is_str (v : val) : bool := match v with VStr _ => true | _ => false end.
Definition is_bool (v : val) : bool := match v with VBool _ => true | _ => false end.
(** [isinstance(v, int)]: booleans are integers. *)
Definition is_int (v : val) : bool := match v with VInt _ | VBool _ => true | _ => false end.
Definition is_None (v : val) : bool := match v with VNone => true | _ => false end.
Definition is_True (v : val) : bool := match v with VBool true => true | _ => false end.
Definition as_str (v : val) : option string := match v with VStr s => Some s | _ => None end.
Definition of_option (o : option string) : val := match o with Some s => VStr s | None => VNone end.

Definition truthy (v : val) : bool :=
  match v with
  | VNone => false
  | VBool b => b
  | VInt z => negb (z =? 0)
  | VFloat f => f_truthy f
  | VStr s => negb (String.eqb s "")
  | VList l => match l with [] => false | _ => true end
  | VDict d => match d with [] => false | _ => true end
  end.

(** [a or b] *)
Definition por (a b : val) : val := if truthy a then a else b.

(** [v.get(k, d)] *)
Definition py_get_def (v : val) (k : string) (d : val) : res val :=
  match v with
  | VDict l => Ok (match dict_get k l with Some x => x | None => d end)
  | _ => Raise AttributeError
  end.
Definition py_get (v : val) (k : string) : res val := py_get_def v k VNone.
(** [v.get(k)] where [v] is a dict given by its items. *)
Definition dget (d : list (string * val)) (k : string) : val :=
  match dict_get k d with Some x => x | None => VNone end.
(** [v[k]] with a string [k]. *)
Definition py_sub (v : val) (k : string) : res val :=
  match v with
  | VDict l => match dict_get k l with Some x => Ok x | None => Raise KeyError end
  | _ => Raise TypeError
  end.
(** [k in v] for a dict [v]. *)
Definition dict_contains (k : string) (v : val) : bool :=
  match v with VDict l => dict_has k l | _ => false end.

(** The elements [for x in v] visits; [len(v)] is their number. *)
Definition py_iter (v : val) : res (list val) :=
  match v with
  | VList l => Ok l
  | VStr s => Ok (map VStr (chars s))
  | VDict d => Ok (map VStr (dict_keys d))
  | _ => Raise TypeError
  end.
(** Lists and dicts cannot be members of a set. *)
Definition hashable (v : val) : bool :=
  match v with VList _ | VDict _ => false | _ => true end.

(** [a == b] *)
Definition num_eq (a b : val) : bool :=
  let num v := match v with VBool b => Some (if b then 1 else 0) | VInt z => Some z | _ => None end in
  match num a, num b with
  | Some x, Some y => x =? y
  | Some x, None => match b with VFloat g => f_eq_Z g x | _ => false end
  | None, Some y => match a with VFloat f => f_eq_Z f y | _ => false end
  | None, None => match a, b with VFloat f, VFloat g => SFeqb f g | _, _ => false end
  end.

Fixpoint py_eq (a b : val) {struct a} : bool :=
  match a, b with
  | VNone, VNone => true
  | VStr s, VStr t => String.eqb s t
  | VList l, VList m =>
      (fix go l m := match l, m with
                     | [], [] => true
                     | x :: l', y :: m' => py_eq x y && go l' m'
                     | _, _ => false
                     end) l m
  | VDict d, VDict e =>
      Nat.eqb (length d) (length e) &&
      (fix go d := match d with
                   | [] => true
                   | (k, x) :: d' =>
                       match dict_get k e with Some y => py_eq x y | None => false end && go d'
                   end) d
  | _, _ => num_eq a b
  end.

Lemma py_eq_str v s : py_eq v (VStr s) = true <-> v = VStr s.
Proof.
  destruct v; simpl; split; try congruence; try (by destruct b); try done.
  - intros ->%String.eqb_eq. done.
  - intros [= ->]. apply String.eqb_refl.
Qed.

Lemma py_eq_None v : py_eq v VNone = true <-> v = VNone.
Proof. destruct v; simpl; split; try congruence; try (by destruct b); done. Qed.

(** [v in s] for a set [s] given by its members. *)
Definition py_in_set (v : val) (s : list val) : res bool :=
  if hashable v then Ok (existsb (py_eq v) s) else Raise TypeError.
(** [v in t] for a tuple [t]. *)
Definition py_in_tuple (v : val) (t : list val) : bool := existsb (py_eq v) t.
Definition in_strs (s : string) (l : list string) : bool := existsb (String.eqb s) l.

Lemma in_strs_spec s l : in_strs s l = true <-> s ∈ l.
Proof.
  unfold in_strs. rewrite existsb_exists, list_elem_of_In. setoid_rewrite String.eqb_eq.
  naive_solver.
Qed.

(** Exact value [m * 2 ^ e] of a finite number. *)
Definition num_value (v : val) : option (Z * Z) :=
  match v with
  | VBool b => Some (if b then 1 else 0, 0)
  | VInt z => Some (z, 0)
  | VFloat (S754_zero _) => Some (0, 0)
  | VFloat (S754_finite s m e) => Some (if s then Z.neg m else Z.pos m, e)
  | _ => None
  end.
Definition num_leb (a b : val) : bool :=
  match num_value a, num_value b with
  | Some (m, e), Some (n, f) =>
      let k := Z.min e f in m * 2 ^ (e - k) <=? n * 2 ^ (f - k)
  | _, _ => match a, b with
            | VFloat (S754_infinity s), _ => s || (match b with VFloat (S754_infinity false) => true | _ => false end)
            | _, VFloat (S754_infinity s) => negb s
            | _, _ => false
            end
  end.
Definition is_number (v : val) : bool :=
  match v with VBool _ | VInt _ | VFloat _ => true | _ => false end.
Definition str_of_val (v : val) : string := default "" (as_str v).
(** [sorted(l)]: strings by code point, finite numbers by value, anything else
    of two or more elements does not compare. *)
Definition py_sorted (l : list val) : res (list val) :=
  if forallb is_str l then Ok (map VStr (sort_str (map str_of_val l)))
  else if forallb is_number l then Ok (sort_by num_leb l)
  else match l with [_] => Ok l | _ => Raise TypeError end.

(** [int(v)] *)
Definition py_int (v : val) : res Z :=
  match v with
  | VBool b => Ok (if b then 1 else 0)
  | VInt z => Ok z
  | VFloat f => match f with
                | S754_nan => Raise (ValueError "cannot convert float NaN to integer")
                | S754_infinity _ => Raise OverflowError
                | _ => Ok (f_trunc f)
                end
  | VStr s => py_int_str s
  | VNone | VList _ | VDict _ => Raise TypeError
  end.

(** ** json.dumps *)
Record json_opts := {
  jo_ensure_ascii : bool;
  jo_allow_nan : bool;
  jo_item_sep : string;
  jo_key_sep : string;
  jo_sort_keys : bool
}.
(** [json.dumps(v)] *)
Definition json_default : json_opts := Build_json_opts true true ", " ": " false.

Definition dquote : string := String (Z_byte 34) "".
Definition backslash : string := String (Z_byte 92) "".
Definition hex_digit (z : Z) : ascii := Z_byte (if z <? 10 then 48 + z else 87 + z).
Definition hex4 (z : Z) : string :=
  String (hex_digit (z / 4096 mod 16)) (String (hex_digit (z / 256 mod 16))
    (String (hex_digit (z / 16 mod 16)) (String (hex_digit (z mod 16)) ""))).
Definition json_u (z : Z) : string := backslash +:+ "u" +:+ hex4 z.

Definition json_escape (ensure_ascii : bool) (g : string) : string :=
  let c := code_point g in
  if c =? 34 then backslash +:+ dquote
  else if c =? 92 then backslash +:+ backslash
  else if c =? 10 then backslash +:+ "n"
  else if c =? 13 then backslash +:+ "r"
  else if c =? 9 then backslash +:+ "t"
  else if c =? 8 then backslash +:+ "b"
  else if c =? 12 then backslash +:+ "f"
  else if c <? 32 then json_u c
  else if ensure_ascii && (126 <? c) then
    if c <? 65536 then json_u c
    else json_u (55296 + (c - 65536) / 1024) +:+ json_u (56320 + (c - 65536) mod 1024)
  else g.
Definition json_string (ensure_ascii : bool) (s : string) : string :=
  dquote +:+ str_concat (map (json_escape ensure_ascii) (chars s)) +:+ dquote.

Section json.
Context `{PyRuntime}.

Definition json_float (o : json_opts) (f : float) : res string :=
  match f with
  | S754_nan => if jo_allow_nan o then Ok "NaN" else Raise (ValueError "Out of range float")
  | S754_infinity s => if jo_allow_nan o then Ok (if s then "-Infinity" else "Infinity")
                       else Raise (ValueError "Out of range float")
  | _ => Ok (rt_float_repr f)
  end.

Fixpoint json_dumps (o : json_opts) (v : val) : res string :=
  match v with
  | VNone => Ok "null"
  | VBool b => Ok (if b then "true" else "false")
  | VInt z => py_str_int z
  | VFloat f => json_float o f
  | VStr s => Ok (json_string (jo_ensure_ascii o) s)
  | VList l =>
      items ← (fix go l := match l with
                           | [] => Ok []
                           | x :: l' => y ← json_dumps o x; ys ← go l'; Ok (y :: ys)
                           end) l;
      Ok ("[" +:+ py_join (jo_item_sep o) items +:+ "]")
  | VDict d =>
      items ← (fix go d := match d with
                           | [] => Ok []
                           | (k, x) :: d' => y ← json_dumps o x; ys ← go d'; Ok ((k, y) :: ys)
                           end) d;
      let items := if jo_sort_keys o
                   then sort_by (fun a b => str_leb a.1 b.1) items else items in
      Ok ("{" +:+ py_join (jo_item_sep o)
            (map (fun kv => json_string (jo_ensure_ascii o) kv.1 +:+ jo_key_sep o +:+ kv.2) items)
          +:+ "}")
  end.
End json.

(** ** Exceptions of the operations *)
Lemma py_int_str_raises s : raises isinstance_ValueError (py_int_str s).
Proof. unfold py_int_str. repeat case_match; done. Qed.
Lemma py_str_int_raises z : raises isinstance_ValueError (py_str_int z).
Proof. rewrite py_str_int_spec. by case_match. Qed.

Lemma json_dumps_raises `{PyRuntime} o v : raises isinstance_ValueError (json_dumps o v).
Proof.
  induction v as [| | | | |l IH|d IH] using val_ind'; simpl; try done.
  - apply py_str_int_raises.
  - unfold json_float. repeat case_match; done.
  - apply raises_bind; [|done]. induction IH as [|x l Hx _ IHl]; [done|].
    apply raises_bind; [done|]. intros. by apply raises_bind.
  - apply raises_bind; [|done]. induction IH as [|[k x] l Hx _ IHl]; [done|].
    apply raises_bind; [done|]. intros. by apply raises_bind.
Qed.
#[export] Hint Resolve py_int_str_raises py_str_int_raises json_dumps_raises : raises.
