(* ===== verification/Codec.v ===== *)
(** * Byte codecs of the standard library

    [base64.b64encode]/[b64decode(validate=True)] (CPython 3.11's strict
    state machine), [bytes.hex]/[bytes.fromhex], strict UTF-8 validation and
    [hashlib.sha256], with the lengths, alphabets and round trips the
    components use. *)
From Stdlib Require Import ZArith NArith Lia Ascii String SpecFloat.
From stdpp Require Import base gmap sets list strings sorting.
From S2P Require Import Prelude PyStr PyVal.
Open Scope Z_scope.

(** ** base64 *)
Definition b64_char (i : Z) : ascii :=
  if i <? 26 then Z_byte (65 + i)
  else if i <? 52 then Z_byte (71 + i)
  else if i <? 62 then Z_byte (i - 4)
  else if i =? 62 then "+"%char else "/"%char.
Definition b64_index (a : ascii) : option Z :=
  let z := byte_Z a in
  if (65 <=? z) && (z <=? 90) then Some (z - 65)
  else if (97 <=? z) && (z <=? 122) then Some (z - 71)
  else if (48 <=? z) && (z <=? 57) then Some (z + 4)
  else if z =? 43 then Some 62
  else if z =? 47 then Some 63
  else None.

Fixpoint b64_encode_list (l : bytes) : list ascii :=
  match l with
  | [] => []
  | [a] => let x := byte_Z a in
      [b64_char (x / 4); b64_char (x mod 4 * 16); "="%char; "="%char]
  | [a; b] => let x := byte_Z a in let y := byte_Z b in
      [b64_char (x / 4); b64_char (x mod 4 * 16 + y / 16); b64_char (y mod 16 * 4); "="%char]
  | a :: b :: c :: l' =>
      let x := byte_Z a in let y := byte_Z b in let z := byte_Z c in
      b64_char (x / 4) :: b64_char (x mod 4 * 16 + y / 16)
      :: b64_char (y mod 16 * 4 + z / 64) :: b64_char (z mod 64) :: b64_encode_list l'
  end.
Definition b64encode (l : bytes) : string := string_of_list (b64_encode_list l).

Definition bad_b64 : exc := ValueError "binascii.Error".

(** [qpos]: position in the quad; [left]: pending bits; [pads]: consecutive
    pad characters; [padding]: a pad character was seen. *)
Fixpoint a2b_base64 (qpos : nat) (left pads : Z) (padding : bool) (l : list ascii) : res bytes :=
  match l with
  | [] => if Nat.eqb qpos 0 then Ok [] else Raise bad_b64
  | a :: l' =>
      if bool_decide (a = "="%char) then
        if Nat.leb 2 qpos then
          if 4 <=? Z.of_nat qpos + (pads + 1)
          then match l' with [] => Ok [] | _ => Raise bad_b64 end
          else a2b_base64 qpos left (pads + 1) true l'
        else a2b_base64 qpos left pads true l'
      else
        match b64_index a with
        | None => Raise bad_b64
        | Some i =>
            if padding then Raise bad_b64
            else match qpos with
                 | O => a2b_base64 1 i 0 false l'
                 | 1%nat => cons (Z_byte (left * 4 + i / 16)) <$> a2b_base64 2 (i mod 16) 0 false l'
                 | 2%nat => cons (Z_byte (left * 16 + i / 4)) <$> a2b_base64 3 (i mod 4) 0 false l'
                 | _ => cons (Z_byte (left * 64 + i)) <$> a2b_base64 0 0 0 false l'
                 end
        end
  end.

(** [base64.b64decode(s, validate=True)] *)
Definition b64decode (s : string) : res bytes :=
  if negb (is_ascii s) then Raise (ValueError "string argument should contain only ASCII characters")
  else let l := list_of_string s in
       if head_is "="%char l then Raise bad_b64 else a2b_base64 0 0 0 false l.

Lemma b64_table i : 0 <= i < 64 ->
  b64_index (b64_char i) = Some i /\ b64_char i <> "="%char /\ is_ascii_byte (b64_char i) = true.
Proof.
  intros Hi.
  assert (forallb (fun n => let i := Z.of_nat n in
    bool_decide (b64_index (b64_char i) = Some i) && bool_decide (b64_char i <> "="%char)
    && is_ascii_byte (b64_char i)) (seq 0 64) = true) as H by (vm_compute; reflexivity).
  rewrite forallb_forall in H. specialize (H (Z.to_nat i)).
  rewrite Z2Nat.id in H by lia.
  destruct (andb_prop _ _ (H ltac:(apply in_seq; lia))) as [[H1 H2]%andb_prop H3].
  apply bool_decide_eq_true in H1, H2. done.
Qed.

Lemma byte_eq a z : 0 <= z < 256 -> z = byte_Z a -> Z_byte z = a.
Proof. intros _ ->. apply Z_byte_Z. Qed.

(** One data character of the decoder. *)
Lemma a2b_char i q left pads l :
  0 <= i < 64 ->
  a2b_base64 q left pads false (b64_char i :: l) =
  match q with
  | O => a2b_base64 1 i 0 false l
  | 1%nat => cons (Z_byte (left * 4 + i / 16)) <$> a2b_base64 2 (i mod 16) 0 false l
  | 2%nat => cons (Z_byte (left * 16 + i / 4)) <$> a2b_base64 3 (i mod 4) 0 false l
  | _ => cons (Z_byte (left * 64 + i)) <$> a2b_base64 0 0 0 false l
  end.
Proof.
  intros Hi. destruct (b64_table i Hi) as (H1 & H2 & _). cbn [a2b_base64].
  rewrite bool_decide_eq_false_2 by done. by rewrite H1.
Qed.

Ltac byte_arith :=
  repeat match goal with a : ascii |- _ =>
    lazymatch goal with H : 0 <= byte_Z a < 256 |- _ => fail | _ => pose proof (byte_Z_range a) end
  end; Z.to_euclidean_division_equations; lia.

Lemma a2b_encode l : a2b_base64 0 0 0 false (b64_encode_list l) = Ok l.
Proof.
  induction l as [l IH] using (induction_ltof1 _ (@length ascii)). unfold ltof in IH.
  destruct l as [|a [|b [|c l]]]; [done|..]; cbn [b64_encode_list];
    repeat (rewrite a2b_char by byte_arith; cbn iota).
  - simpl. do 2 f_equal. apply byte_eq; byte_arith.
  - simpl. do 3 f_equal; [|f_equal]; apply byte_eq; byte_arith.
  - rewrite IH by (simpl; lia). simpl. f_equal.
    f_equal; [|f_equal; [|f_equal]]; apply byte_eq; byte_arith.
Qed.

Lemma b64_encode_ascii l : forallb is_ascii_byte (b64_encode_list l) = true.
Proof.
  induction l as [l IH] using (induction_ltof1 _ (@length ascii)). unfold ltof in IH.
  destruct l as [|a [|b [|c l]]]; [done|..]; cbn [b64_encode_list forallb];
    rewrite ?(fun i H => proj2 (proj2 (b64_table i H))) by byte_arith; [done|done|].
  rewrite IH by (simpl; lia). done.
Qed.

(** Encoding is inverted by the strict decoder. *)
Lemma b64decode_encode l : b64decode (b64encode l) = Ok l.
Proof.
  unfold b64decode, b64encode, is_ascii. rewrite str_forallb_of_list, b64_encode_ascii. simpl.
  rewrite list_of_string_of_list, a2b_encode.
  replace (head_is _ _) with false; [done|].
  destruct l as [|a [|b [|c l]]]; [done|..]; cbn [b64_encode_list head_is];
    (rewrite bool_decide_eq_false_2; [done|apply b64_table; byte_arith]).
Qed.

Lemma b64decode_error s e : b64decode s = Raise e -> isinstance_ValueError e = true.
Proof.
  assert (forall l q left pads p, a2b_base64 q left pads p l = Raise e -> e = bad_b64) as Haux.
  { induction l as [|a l IH]; intros q left pads p; cbn [a2b_base64].
    - destruct (Nat.eqb q 0); congruence.
    - repeat case_match; try congruence; eauto;
        match goal with |- (_ <$> ?m) = _ -> _ => destruct m eqn:E; simpl; try congruence end;
        intros [= <-]; eauto. }
  unfold b64decode. destruct (is_ascii s); simpl; [|intros [= <-]; done].
  intros H. repeat case_match; try (apply Haux in H as ->; done); simplify_eq; done.
Qed.

(** ** Hexadecimal *)
Definition hex_byte (a : ascii) : string :=
  String (hex_digit (byte_Z a / 16)) (String (hex_digit (byte_Z a mod 16)) "").
(** [b.hex()] and [b.hex().upper()] *)
Definition bytes_hex (l : bytes) : string := str_concat (map hex_byte l).
Definition hex_upper (l : bytes) : string := str_map ascii_upper (bytes_hex l).

Definition hex_value (a : ascii) : option Z :=
  let z := byte_Z a in
  if (48 <=? z) && (z <=? 57) then Some (z - 48)
  else if (65 <=? z) && (z <=? 70) then Some (z - 55)
  else if (97 <=? z) && (z <=? 102) then Some (z - 87)
  else None.
Definition bad_hex : exc := ValueError "non-hexadecimal number".
Fixpoint fromhex_list (l : list ascii) : res bytes :=
  match l with
  | [] => Ok []
  | a :: l' =>
      if c_isspace a then fromhex_list l'
      else match l' with
           | [] => Raise bad_hex
           | b :: l'' =>
               match hex_value a, hex_value b with
               | Some x, Some y => cons (Z_byte (x * 16 + y)) <$> fromhex_list l''
               | _, _ => Raise bad_hex
               end
           end
  end.
(** [bytes.fromhex(s)] *)
Definition bytes_fromhex (s : string) : res bytes := fromhex_list (list_of_string s).

(** [[0-9A-F]] *)
Definition is_upper_hex (a : ascii) : bool :=
  let z := byte_Z a in ((48 <=? z) && (z <=? 57)) || ((65 <=? z) && (z <=? 70)).
(** [re.fullmatch(r"[0-9A-F]{64}", s)] *)
Definition is_hash_hex (s : string) : bool :=
  Nat.eqb (String.length s) 64 && str_forallb is_upper_hex s.

Lemma str_forallb_app p a b : str_forallb p (a +:+ b) = str_forallb p a && str_forallb p b.
Proof. induction a; simpl; [done|]. by rewrite IHa, andb_assoc. Qed.
Lemma str_map_app f a b : str_map f (a +:+ b) = str_map f a +:+ str_map f b.
Proof. induction a; simpl; congruence. Qed.
Lemma str_map_length f a : String.length (str_map f a) = String.length a.
Proof. induction a; simpl; congruence. Qed.

Lemma hex_upper_cons a l :
  hex_upper (a :: l) = String (ascii_upper (hex_digit (byte_Z a / 16)))
                         (String (ascii_upper (hex_digit (byte_Z a mod 16))) (hex_upper l)).
Proof. done. Qed.

Lemma hex_upper_length l : String.length (hex_upper l) = (2 * length l)%nat.
Proof.
  induction l as [|a l IH]; [done|].
  change (String.length (hex_upper (a :: l))) with (S (S (String.length (hex_upper l)))).
  rewrite IH. simpl. lia.
Qed.

Lemma hex_digit_table z : 0 <= z < 16 ->
  is_upper_hex (ascii_upper (hex_digit z)) = true /\
  hex_value (ascii_upper (hex_digit z)) = Some z /\
  c_isspace (ascii_upper (hex_digit z)) = false.
Proof.
  intros Hz.
  assert (forallb (fun n => let z := Z.of_nat n in let d := ascii_upper (hex_digit z) in
    is_upper_hex d && bool_decide (hex_value d = Some z) && negb (c_isspace d)) (seq 0 16) = true)
    as H by (vm_compute; reflexivity).
  rewrite forallb_forall in H. specialize (H (Z.to_nat z)). rewrite Z2Nat.id in H by lia.
  destruct (andb_prop _ _ (H ltac:(apply in_seq; lia))) as [[H1 H2]%andb_prop H3].
  apply bool_decide_eq_true in H2. apply negb_true_iff in H3. done.
Qed.

Lemma byte_nibbles a : 0 <= byte_Z a / 16 < 16 /\ 0 <= byte_Z a mod 16 < 16.
Proof. byte_arith. Qed.

Lemma hex_upper_alphabet l : str_forallb is_upper_hex (hex_upper l) = true.
Proof.
  induction l as [|a l IH]; [done|]. rewrite hex_upper_cons. cbn [str_forallb].
  destruct (byte_nibbles a) as [H1 H2].
  by rewrite (proj1 (hex_digit_table _ H1)), (proj1 (hex_digit_table _ H2)), IH.
Qed.

Lemma hex_upper_hash l : length l = 32%nat -> is_hash_hex (hex_upper l) = true.
Proof. intros Hl. unfold is_hash_hex. by rewrite hex_upper_length, Hl, hex_upper_alphabet. Qed.

Lemma fromhex_hex_upper l : bytes_fromhex (hex_upper l) = Ok l.
Proof.
  unfold bytes_fromhex. induction l as [|a l IH]; [done|]. rewrite hex_upper_cons.
  destruct (byte_nibbles a) as [H1 H2].
  destruct (hex_digit_table _ H1) as (_ & V1 & S1), (hex_digit_table _ H2) as (_ & V2 & _).
  cbn [list_of_string String.list_ascii_of_string fromhex_list]. rewrite S1, V1, V2.
  change (String.list_ascii_of_string (hex_upper l)) with (list_of_string (hex_upper l)).
  rewrite IH. simpl. do 2 f_equal. apply byte_eq; byte_arith.
Qed.

(** Distinct byte strings have distinct hexadecimal texts. *)
Lemma hex_upper_inj a b : hex_upper a = hex_upper b -> a = b.
Proof. intros H. assert (Ok a = Ok b) as [= ->]; [|done]. by rewrite <-!fromhex_hex_upper, H. Qed.

Lemma is_upper_hex_upper a : is_upper_hex a = true -> ascii_upper a = a.
Proof.
  unfold is_upper_hex, ascii_upper. intros H.
  destruct ((97 <=? byte_Z a) && (byte_Z a <=? 122)) eqn:E; [lia|done].
Qed.
Lemma is_upper_hex_ascii a : is_upper_hex a = true -> is_ascii_byte a = true.
Proof. unfold is_upper_hex, is_ascii_byte. lia. Qed.

Lemma str_forallb_impl (p q : ascii -> bool) s :
  (forall a, p a = true -> q a = true) -> str_forallb p s = true -> str_forallb q s = true.
Proof.
  intros Hpq. induction s as [|a s IH]; [done|]. simpl. rewrite !andb_true_iff.
  intros [? ?]; auto.
Qed.

(** A normalized hash text is its own upper-casing. *)
Lemma py_upper_hash `{PyRuntime} s : is_hash_hex s = true -> py_upper s = s.
Proof.
  unfold is_hash_hex. intros [_ Hs]%andb_true_iff. unfold py_upper, is_ascii.
  rewrite (str_forallb_impl is_upper_hex is_ascii_byte) by (done || apply is_upper_hex_ascii).
  induction s as [|a s IH]; [done|]. simpl in *. apply andb_true_iff in Hs as [Ha Hs].
  by rewrite is_upper_hex_upper, IH.
Qed.

(** ** Strict UTF-8 *)
Definition byte_in (lo hi : Z) (a : ascii) : bool := (lo <=? byte_Z a) && (byte_Z a <=? hi).
Fixpoint utf8_valid (l : list ascii) : bool :=
  match l with
  | [] => true
  | a :: l1 =>
      if byte_in 0 127 a then utf8_valid l1 else
      match l1 with
      | [] => false
      | b :: l2 =>
          if byte_in 194 223 a then is_cont b && utf8_valid l2 else
          match l2 with
          | [] => false
          | c :: l3 =>
              if byte_in 224 224 a then byte_in 160 191 b && is_cont c && utf8_valid l3
              else if byte_in 237 237 a then byte_in 128 159 b && is_cont c && utf8_valid l3
              else if byte_in 225 239 a then is_cont b && is_cont c && utf8_valid l3 else
              match l3 with
              | [] => false
              | d :: l4 =>
                  if byte_in 240 240 a then byte_in 144 191 b && is_cont c && is_cont d && utf8_valid l4
                  else if byte_in 241 243 a then is_cont b && is_cont c && is_cont d && utf8_valid l4
                  else if byte_in 244 244 a then byte_in 128 143 b && is_cont c && is_cont d && utf8_valid l4
                  else false
              end
          end
      end
  end.
(** [b.decode("utf-8")]; [None] is UnicodeDecodeError. *)
Definition utf8_decode (l : bytes) : option string :=
  if utf8_valid l then Some (string_of_list l) else None.

(** ** SHA-256 *)
Definition w32 (z : Z) : Z := Z.land z 4294967295.
Definition rotr (n x : Z) : Z := Z.lor (Z.shiftr x n) (w32 (Z.shiftl x (32 - n))).
Definition sha_k : list Z :=
  [1116352408; 1899447441; 3049323471; 3921009573; 961987163; 1508970993;
   2453635748; 2870763221; 3624381080; 310598401; 607225278; 1426881987;
   1925078388; 2162078206; 2614888103; 3248222580; 3835390401; 4022224774;
   264347078; 604807628; 770255983; 1249150122; 1555081692; 1996064986;
   2554220882; 2821834349; 2952996808; 3210313671; 3336571891; 3584528711;
   113926993; 338241895; 666307205; 773529912; 1294757372; 1396182291;
   1695183700; 1986661051; 2177026350; 2456956037; 2730485921; 2820302411;
   3259730800; 3345764771; 3516065817; 3600352804; 4094571909; 275423344;
   430227734; 506948616; 659060556; 883997877; 958139571; 1322822218;
   1537002063; 1747873779; 1955562222; 2024104815; 2227730452; 2361852424;
   2428436474; 2756734187; 3204031479; 3329325298].
Definition sha_h0 : list Z := [1779033703; 3144134277; 1013904242; 2773480762; 1359893119; 2600822924; 528734635; 1541459225].

Definition word_of (l : list ascii) : Z := foldl (fun acc a => acc * 256 + byte_Z a) 0 l.
Definition word_bytes (z : Z) : list ascii :=
  [Z_byte (z / 16777216 mod 256); Z_byte (z / 65536 mod 256); Z_byte (z / 256 mod 256); Z_byte (z mod 256)].
Fixpoint chunks {A} (fuel n : nat) (l : list A) : list (list A) :=
  match fuel, l with
  | S f, _ :: _ => take n l :: chunks f n (drop n l)
  | _, _ => []
  end.
Definition sha_pad (l : bytes) : bytes :=
  let n := Z.of_nat (length l) in
  let zeros := (55 - n) mod 64 in
  l ++ Z_byte 128 :: replicate (Z.to_nat zeros) zero
    ++ map (fun i => Z_byte (8 * n / 2 ^ (8 * i) mod 256)) [7; 6; 5; 4; 3; 2; 1; 0].
(** The message schedule, most recent word first. *)
Fixpoint sha_schedule (n : nat) (w : list Z) : list Z :=
  match n with
  | O => w
  | S n' =>
      let g i := nth i w 0 in
      let s0 := Z.lxor (Z.lxor (rotr 7 (g 14%nat)) (rotr 18 (g 14%nat))) (Z.shiftr (g 14%nat) 3) in
      let s1 := Z.lxor (Z.lxor (rotr 17 (g 1%nat)) (rotr 19 (g 1%nat))) (Z.shiftr (g 1%nat) 10) in
      sha_schedule n' (w32 (s1 + g 6%nat + s0 + g 15%nat) :: w)
  end.
Record sha_state := Sha { ha : Z; hb : Z; hc : Z; hd_ : Z; he : Z; hf : Z; hg : Z; hh : Z }.
Definition sha_round (s : sha_state) (kw : Z * Z) : sha_state :=
  let s1 := Z.lxor (Z.lxor (rotr 6 (he s)) (rotr 11 (he s))) (rotr 25 (he s)) in
  let ch := Z.lxor (Z.land (he s) (hf s)) (Z.land (4294967295 - he s) (hg s)) in
  let t1 := w32 (hh s + s1 + ch + kw.1 + kw.2) in
  let s0 := Z.lxor (Z.lxor (rotr 2 (ha s)) (rotr 13 (ha s))) (rotr 22 (ha s)) in
  let mj := Z.lxor (Z.lxor (Z.land (ha s) (hb s)) (Z.land (ha s) (hc s))) (Z.land (hb s) (hc s)) in
  Sha (w32 (t1 + s0 + mj)) (ha s) (hb s) (hc s) (w32 (hd_ s + t1)) (he s) (hf s) (hg s).
Definition sha_block (s : sha_state) (block : list ascii) : sha_state :=
  let w0 := map word_of (chunks 16 4 block) in
  let w := rev (sha_schedule 48 (rev w0)) in
  let t := foldl sha_round s (zip sha_k w) in
  Sha (w32 (ha s + ha t)) (w32 (hb s + hb t)) (w32 (hc s + hc t)) (w32 (hd_ s + hd_ t))
      (w32 (he s + he t)) (w32 (hf s + hf t)) (w32 (hg s + hg t)) (w32 (hh s + hh t)).
Definition sha_init : sha_state :=
  let g i := nth i sha_h0 0 in Sha (g 0%nat) (g 1%nat) (g 2%nat) (g 3%nat) (g 4%nat) (g 5%nat) (g 6%nat) (g 7%nat).
(** [hashlib.sha256(b).digest()] *)
Definition sha256 (l : bytes) : bytes :=
  let p := sha_pad l in
  let s := foldl sha_block sha_init (chunks (length p) 64 p) in
  word_bytes (ha s) ++ word_bytes (hb s) ++ word_bytes (hc s) ++ word_bytes (hd_ s)
  ++ word_bytes (he s) ++ word_bytes (hf s) ++ word_bytes (hg s) ++ word_bytes (hh s).

Lemma sha256_length l : length (sha256 l) = 32%nat.
Proof. reflexivity. Qed.

Example sha256_abc :
  bytes_hex (sha256 (list_of_string "abc"))
  = "ba7816bf8f01cfea414140de5dae2223b00361a396177a9cb410ff61f20015ad".
Proof. vm_compute. reflexivity. Qed.

Example b64_cases :
  map (fun s => is_Ok (b64decode s)) [""; "AAAA="; "AAAA=="; "AA==="; "AA=="; "=AAA"; "A"; "AA=A"; "AA=="]
  = [true; true; true; false; true; false; false; false; true].
Proof. vm_compute. reflexivity. Qed.

(** *** [bytes.fromhex] and letter case *)
Lemma hex_char_cases a :
  hex_value (ascii_upper a) = hex_value a /\ c_isspace (ascii_upper a) = c_isspace a /\
  match hex_value a with
  | Some x => 0 <= x < 16 /\ ascii_upper a = ascii_upper (hex_digit x) /\ is_ascii_byte a = true
  | None => c_isspace a = true -> is_ascii_byte a = true
  end.
Proof.
  assert (forallb (fun n => let a := ascii_of_nat n in
    bool_decide (hex_value (ascii_upper a) = hex_value a) &&
    bool_decide (c_isspace (ascii_upper a) = c_isspace a) &&
    match hex_value a with
    | Some x => (0 <=? x) && (x <? 16) && bool_decide (ascii_upper a = ascii_upper (hex_digit x))
                && is_ascii_byte a
    | None => negb (c_isspace a) || is_ascii_byte a
    end) (seq 0 256) = true) as H by (vm_compute; reflexivity).
  rewrite forallb_forall in H. specialize (H (nat_of_ascii a)).
  rewrite ascii_nat_embedding in H.
  destruct (andb_prop _ _ (H ltac:(apply in_seq; pose proof (nat_ascii_bounded a); lia)))
    as [[H1 H2]%andb_prop H3].
  apply bool_decide_eq_true in H1, H2. split_and!; [done|done|].
  destruct (hex_value a).
  - apply andb_prop in H3 as [[[? ?]%andb_prop H5%bool_decide_eq_true]%andb_prop ?].
    split_and!; [lia|lia|done|done].
  - intros Hs. rewrite Hs in H3. done.
Qed.

Lemma fromhex_list_cons2 a b l :
  fromhex_list (a :: b :: l) =
  if c_isspace a then fromhex_list (b :: l)
  else match hex_value a, hex_value b with
       | Some x, Some y => cons (Z_byte (x * 16 + y)) <$> fromhex_list l
       | _, _ => Raise bad_hex
       end.
Proof. done. Qed.

(** Induction on the way [fromhex] reads: one space or two digits. *)
Lemma fromhex_ind (P : list ascii -> Prop) :
  P [] -> (forall a, P [a]) -> (forall a b l, P l -> P (b :: l) -> P (a :: b :: l)) -> forall l, P l.
Proof.
  intros H0 H1 H2. assert (forall l, P l /\ forall a, P (a :: l)) as H.
  { induction l as [|a l [IH1 IH2]]; [auto|]. split; [auto|]. intros b. auto. }
  intros l. apply H.
Qed.

Lemma fromhex_upper l : fromhex_list (map ascii_upper l) = fromhex_list l.
Proof.
  induction l as [|a|a b l IH1 IH2] using fromhex_ind; [done| |].
  - simpl. destruct (hex_char_cases a) as (_ & -> & _). done.
  - cbn [map] in *. rewrite !fromhex_list_cons2, IH1, IH2.
    destruct (hex_char_cases a) as (-> & -> & _), (hex_char_cases b) as (-> & _). done.
Qed.

Lemma bytes_fromhex_Raise s e : bytes_fromhex s = Raise e -> isinstance_ValueError e = true.
Proof.
  unfold bytes_fromhex. generalize (list_of_string s). intros l.
  induction l as [|a|a c l IH1 IH2] using fromhex_ind; [done| |].
  - simpl. case_match; [done|]. by intros [= <-].
  - rewrite fromhex_list_cons2. repeat case_match; try done; try (by intros [= <-]).
    destruct (fromhex_list l); simpl; [done|]. intros [= <-]. by apply IH1.
Qed.

Lemma fromhex_ascii l b : fromhex_list l = Ok b -> forallb is_ascii_byte l = true.
Proof.
  revert b. induction l as [|a|a c l IH1 IH2] using fromhex_ind; intros b; [done| |].
  - simpl. destruct (hex_char_cases a) as (_ & _ & Ha). destruct (c_isspace a); [|done].
    intros _. destruct (hex_value a); [|by rewrite Ha]. by destruct Ha as (_ & _ & ->).
  - rewrite fromhex_list_cons2.
    destruct (hex_char_cases a) as (_ & _ & Ha), (hex_char_cases c) as (_ & _ & Hc).
    cbn [forallb]. destruct (c_isspace a).
    + intros H%IH2. cbn [forallb] in H. rewrite H.
      destruct (hex_value a); [by destruct Ha as (_ & _ & ->)|by rewrite Ha].
    + destruct (hex_value a) as [x|], (hex_value c) as [y|]; try done.
      intros (l' & Hl & _)%fmap_Ok. rewrite (IH1 _ Hl).
      destruct Ha as (_ & _ & ->), Hc as (_ & _ & ->). done.
Qed.

(** A text of exactly two characters per byte has no spaces in it. *)
Lemma fromhex_exact l b :
  fromhex_list l = Ok b ->
  (2 * length b <= length l)%nat /\
  (length l = (2 * length b)%nat -> map ascii_upper l = list_of_string (hex_upper b)).
Proof.
  revert b. induction l as [|a|a c l IH1 IH2] using fromhex_ind; intros b.
  - intros [= <-]. done.
  - simpl. destruct (c_isspace a); [|done]. intros [= <-]. split; [simpl; lia|done].
  - rewrite fromhex_list_cons2. destruct (c_isspace a) eqn:Es.
    { intros [H1 H2]%IH2. simpl in *. split; lia. }
    destruct (hex_char_cases a) as (_ & _ & Ha), (hex_char_cases c) as (_ & _ & Hc).
    destruct (hex_value a) as [x|], (hex_value c) as [y|]; try done.
    intros (l' & Hl & ->)%fmap_Ok. destruct (IH1 _ Hl) as [H1 H2].
    simpl length. split; [lia|]. intros H. rewrite hex_upper_cons.
    destruct Ha as (Hx & Ha & _), Hc as (Hy & Hc & _).
    rewrite byte_Z_byte by lia. cbn [map list_of_string String.list_ascii_of_string].
    change (String.list_ascii_of_string (hex_upper l')) with (list_of_string (hex_upper l')).
    rewrite H2 by lia. rewrite Ha, Hc. f_equal; [f_equal; f_equal|f_equal; f_equal; f_equal];
      Z.to_euclidean_division_equations; lia.
Qed.

Lemma list_of_string_map f s : list_of_string (str_map f s) = map f (list_of_string s).
Proof. induction s; simpl; [done|]. unfold list_of_string in *. simpl. by f_equal. Qed.
Lemma list_of_string_inj s t : list_of_string s = list_of_string t -> s = t.
Proof. intros H. by rewrite <-(string_of_list_of_string s), H, string_of_list_of_string. Qed.
Lemma length_list_of_string s : length (list_of_string s) = String.length s.
Proof. induction s; simpl; [done|]. unfold list_of_string in *. simpl. by f_equal. Qed.
Lemma is_ascii_list s : is_ascii s = forallb is_ascii_byte (list_of_string s).
Proof. rewrite <-(string_of_list_of_string s) at 1. apply str_forallb_of_list. Qed.

(** A 64-character text upper-cases to the hash text of [b] exactly when it
    is a hexadecimal text of the 32 bytes [b]. *)
Lemma fromhex_hash `{PyRuntime} s b : length b = 32%nat ->
  (py_len s = 64 /\ is_Ok (bytes_fromhex s) = true /\ py_upper s = hex_upper b) <->
  (String.length s = 64%nat /\ bytes_fromhex s = Ok b).
Proof.
  intros Hb. unfold bytes_fromhex. split.
  - intros (Hl & Hok & Hup). destruct (fromhex_list _) as [b'|] eqn:E; [|done].
    assert (is_ascii s = true) as Ha by (by rewrite is_ascii_list; eapply fromhex_ascii).
    rewrite py_len_ascii in Hl by done. split; [lia|].
    unfold py_upper in Hup. rewrite Ha in Hup.
    rewrite <-E, <-fromhex_upper, <-list_of_string_map, Hup. apply fromhex_hex_upper.
  - intros [Hl E]. assert (is_ascii s = true) as Ha by (by rewrite is_ascii_list; eapply fromhex_ascii).
    rewrite py_len_ascii by done. split; [lia|]. rewrite E. split; [done|].
    unfold py_upper. rewrite Ha. apply list_of_string_inj. rewrite list_of_string_map.
    apply (fromhex_exact _ _ E). by rewrite length_list_of_string, Hl, Hb.
Qed.
