(* ===== verification/InspectRpc.v ===== *)
(** * scripts/inspect_rpc.py: reading RPC payloads

    The parsers that turn raw JSON payloads of a TM2 node into status, block,
    commit and validator records, the health check of a status, the one-block
    summary, the bounded ABCI query and the configuration readers.  A client
    is the outcome of its GET requests; HTTP itself is not modelled (the
    session pool is SessionPool.v). *)
From Stdlib Require Import ZArith NArith Lia Ascii String SpecFloat.
From stdpp Require Import base gmap sets list strings sorting.
From S2P Require Import Prelude PyStr PyVal Codec.
Open Scope Z_scope.

Definition MAX_ABCI_RESPONSE_BYTES : Z := 1024 * 1024.

(** ** Payload access *)
Definition validate_payload (method : string) (payload : val) : res val :=
  match payload with
  | VDict d => if truthy (dget d "error") then Raise (RpcError ("RPC returned an error for " +:+ method))
               else Ok payload
  | _ => Raise (RpcError ("RPC response for " +:+ method +:+ " was not a JSON object"))
  end.

(** What the HTTP layer gives [GnoRpcClient.get]: a decoded JSON body or one
    of the exceptions the method distinguishes. *)
Inductive transport : Type :=
| TBody (payload : val)
| TTimeout
| TRequestException
| TJSONDecodeError.

Definition client_get (method : string) (t : transport) : res val :=
  match t with
  | TTimeout => Raise (RpcError ("RPC request timed out for " +:+ method))
  | TRequestException => Raise (RpcError ("RPC request failed for " +:+ method))
  | TJSONDecodeError => Raise (RpcError ("RPC response for " +:+ method +:+ " was not valid JSON"))
  | TBody payload => validate_payload method payload
  end.

Definition result (payload : val) : res val :=
  value ← py_get_def payload "result" payload;
  Ok (if is_dict value then value else VDict []).

(** Only TypeError and ValueError mean [None]; [int(inf)] raises through. *)
Definition to_int (value : val) : res (option Z) :=
  match py_int value with
  | Ok z => Ok (Some z)
  | Raise e => if isinstance_TypeError e || isinstance_ValueError e then Ok None else Raise e
  end.

(** ** Status *)
Record status := {
  st_chain_id : val;
  st_latest_height : option Z;
  st_node_version : val;
  st_catching_up : val
}.

Definition parse_status (status_payload : val) : res status :=
  data ← result status_payload;
  n ← py_get data "node_info";
  let node_info := por n (VDict []) in
  s ← py_get data "sync_info";
  let sync_info := por s (VDict []) in
  chain_id ← py_get node_info "network";
  h ← py_get sync_info "latest_block_height";
  latest_height ← to_int h;
  build ← py_get data "build_version";
  version ← (if truthy build then Ok build else py_get node_info "version");
  catching_up ← py_get sync_info "catching_up";
  Ok (Build_status chain_id latest_height version catching_up).

Definition validate_status_for_health (st : status) (expected_chain_id : string) : res unit :=
  _ ← require (truthy (st_chain_id st)) (RpcError "malformed status: missing chain ID");
  _ ← require (bool_decide (st_latest_height st <> None)) (RpcError "malformed status: missing latest height");
  _ ← require (is_bool (st_catching_up st)) (RpcError "malformed status: missing catching_up boolean");
  _ ← require (py_eq (st_chain_id st) (VStr expected_chain_id)) (RpcError "wrong chain ID");
  raise_if (is_True (st_catching_up st)) (RpcError "endpoint is catching up").

(** ** Base64 fields *)
Definition decode_base64 (value : val) (field_name : string) : res bytes :=
  match value with
  | VStr s =>
      if String.eqb s "" then Raise (RpcError ("Malformed RPC response: missing " +:+ field_name))
      else match b64decode s with
           | Ok b => Ok b
           | Raise _ => Raise (RpcError ("Malformed RPC response: invalid base64 in " +:+ field_name))
           end
  | _ => Raise (RpcError ("Malformed RPC response: missing " +:+ field_name))
  end.

(** ** Blocks.  [T] is the type of a parsed transaction. *)
Record block (T : Type) := {
  b_hash_base64 : string;
  b_hash_hex : string;
  b_height : option Z;
  b_time : val;
  b_proposer_address : val;
  b_tx_count : Z;
  b_transactions : list T
}.
Arguments Build_block {T}.
Arguments b_hash_base64 {T}. Arguments b_hash_hex {T}. Arguments b_height {T}.
Arguments b_time {T}. Arguments b_proposer_address {T}. Arguments b_tx_count {T}.
Arguments b_transactions {T}.

Record legacy_tx := {
  lt_index : Z;
  lt_raw_base64 : string;
  lt_encoded_size_chars : Z;
  lt_decoded_size_bytes : Z;
  lt_raw_preview : string;
  lt_base64_decoded : bool
}.

Record commit := {
  c_height : Z;
  c_header_height : Z;
  c_precommits : list val;
  c_canonical : bool;
  c_raw : val            (* set by parsers.parse_height *)
}.

Record validator := {
  v_address : val;
  v_voting_power : option Z;
  v_proposer_priority : option Z;
  v_pub_key_type : val;
  v_pub_key_display_type : option string;
  v_pub_key_value : val
}.
Record validators_data := {
  vd_block_height : Z;
  vd_total : option Z;
  vd_validators : list validator
}.

Section runtime.
Context `{PyRuntime}.

(** [json.dumps(tx, sort_keys=True)] for a transaction that is not text. *)
Definition json_sorted : json_opts := Build_json_opts true true ", " ": " true.
Definition tx_raw_base64 (tx : val) : res string :=
  match tx with VStr s => Ok s | _ => json_dumps json_sorted tx end.

Definition parse_transaction (index : Z) (tx : val) : res legacy_tx :=
  raw ← tx_raw_base64 tx;
  let '(size, decoded) := match b64decode raw with
                          | Ok b => (Z.of_nat (length b), true)
                          | Raise _ => (0, false)
                          end in
  Ok (Build_legacy_tx index raw (py_len raw) size (py_take 120 raw) decoded).

Definition parse_transactions (txs : list val) : res (list legacy_tx) :=
  mapM_res (fun p => parse_transaction (Z.of_nat p.1) p.2) (enumerate txs).

Definition parse_block (block_payload : val) : res (block legacy_tx) :=
  data ← result block_payload;
  b ← py_get data "block";
  let blk := por b (VDict []) in
  h ← py_get blk "header";
  let header := por h (VDict []) in
  bd ← py_get_def blk "data" (VDict []);
  t ← py_get bd "txs";
  let txs := por t (VList []) in
  meta ← py_get_def data "block_meta" (VDict []);
  bid ← py_get_def meta "block_id" (VDict []);
  hash ← py_get bid "hash";
  hash_bytes ← decode_base64 hash "result.block_meta.block_id.hash";
  n ← py_get header "num_txs";
  num ← to_int n;
  match num with
  | None => Raise (RpcError "Malformed block response: missing result.block.header.num_txs")
  | Some num_txs =>
      items ← py_iter txs;
      _ ← require (num_txs =? Z.of_nat (length items)) (RpcError "Block transaction count mismatch");
      hh ← py_get header "height";
      height ← to_int hh;
      time ← py_get header "time";
      proposer ← py_get header "proposer_address";
      parsed ← parse_transactions items;
      Ok (Build_block (default "" (as_str hash)) (hex_upper hash_bytes) height time proposer
            num_txs parsed)
  end.
End runtime.

(** ** Commits and validators *)
Definition parse_commit (commit_payload : val) : res commit :=
  data ← result commit_payload;
  signed_header ← py_get data "signed_header";
  _ ← require (is_dict signed_header) (RpcError "Malformed commit response: missing result.signed_header");
  header ← py_get signed_header "header";
  cm ← py_get signed_header "commit";
  _ ← require (is_dict header && is_dict cm)
        (RpcError "Malformed commit response: missing signed_header.header or signed_header.commit");
  precommits ← py_get cm "precommits";
  match precommits with
  | VList l =>
      hh ← py_get header "height";
      height ← to_int hh;
      match height with
      | None => Raise (RpcError "Malformed commit response: missing signed_header.header.height")
      | Some header_height =>
          canonical ← py_get data "canonical";
          match canonical with
          | VBool c => Ok (Build_commit header_height header_height l c VNone)
          | _ => Raise (RpcError "Malformed commit response: result.canonical must be a boolean")
          end
      end
  | _ => Raise (RpcError "Malformed commit response: missing signed_header.commit.precommits")
  end.

Definition normalize_pub_key_type (pub_key_type : val) : option string :=
  match pub_key_type with
  | VStr s => if String.eqb s "/tm.PubKeyEd25519" then Some "Ed25519"
              else Some (py_lstrip_char "/" (py_rsplit_last "." s))
  | _ => None
  end.

Definition parse_validator (v : val) : res validator :=
  pk ← py_get v "pub_key";
  let pub_key := por pk (VDict []) in
  address ← py_get v "address";
  vp ← py_get v "voting_power"; voting_power ← to_int vp;
  pp ← py_get v "proposer_priority"; proposer_priority ← to_int pp;
  ty ← py_get pub_key "@type"; ty2 ← py_get pub_key "type";
  let pub_key_type := por ty ty2 in
  value ← py_get pub_key "value";
  Ok (Build_validator address voting_power proposer_priority pub_key_type
        (normalize_pub_key_type pub_key_type) value).

Definition parse_validators (validators_payload : val) : res validators_data :=
  data ← result validators_payload;
  vs ← py_get data "validators";
  vals ← py_iter (por vs (VList []));
  parsed ← mapM_res parse_validator vals;
  bh ← py_get data "block_height"; block_height ← to_int bh;
  match block_height with
  | None => Raise (RpcError "Malformed validators response: missing result.block_height")
  | Some height =>
      t ← py_get data "total"; total ← to_int t;
      Ok (Build_validators_data height total parsed)
  end.

(** ** Signatures *)
Definition signer_address (signature : val) : val :=
  match signature with
  | VDict d => por (dget d "validator_address") (dget d "address")
  | _ => VNone
  end.

Definition signature_signed (signature : val) : bool :=
  match signature with
  | VDict d =>
      if is_True (dget d "absent") then false
      else if truthy (dget d "signature") then true
      else py_in_tuple (dget d "block_id_flag")
             [VInt 2; VStr "2"; VStr "BLOCK_ID_FLAG_COMMIT"; VStr "BlockIDFlagCommit"]
  | _ => false
  end.

(** ** One-block summary *)
Record RpcSummary := {
  rs_rpc_url : string;
  rs_chain_id : val;
  rs_latest_height : Z;
  rs_signing_height : Z;
  rs_node_version : val;
  rs_catching_up : val;
  rs_block_hash_base64 : string;
  rs_block_hash_hex : string;
  rs_block_time : val;
  rs_proposer_address : val;
  rs_tx_count : Z;
  rs_validators_height : Z;
  rs_commit_height : Z;
  rs_canonical : bool;
  rs_validators : list validator;
  rs_commit_signatures : list val;
  rs_signed_validators : list validator;
  rs_missed_validators : list validator;
  rs_transactions : list legacy_tx
}.

(** [{f(x) for x in l if f(x) and p(x)}]: members must be hashable. *)
Definition set_of {A} (f : A -> val) (p : A -> bool) (l : list A) : res (list val) :=
  mapM_res (fun x => if hashable (f x) then Ok (f x) else Raise TypeError)
    (List.filter (fun x => truthy (f x) && p x) l).

(** [[x for x in l if c(x)]] where the condition may raise. *)
Fixpoint filter_res {A} (c : A -> res bool) (l : list A) : res (list A) :=
  match l with
  | [] => Ok []
  | x :: l' => b ← c x; rest ← filter_res c l'; Ok (if b : bool then x :: rest else rest)
  end.

Section summary.
Context `{PyRuntime}.

Definition build_summary (rpc_url : string)
    (status_payload block_payload commit_payload validators_payload : val) : res RpcSummary :=
  st ← parse_status status_payload;
  blk ← parse_block block_payload;
  cm ← parse_commit commit_payload;
  vd ← parse_validators validators_payload;
  let lh := match st_latest_height st with
            | Some h => if h =? 0 then b_height blk else Some h
            | None => b_height blk
            end in
  match lh with
  | None => Raise (RpcError "Latest height is unavailable")
  | Some latest_height =>
      let signing_height := latest_height - 1 in
      _ ← raise_if (signing_height <? 1) (RpcError "Latest height is too low for H-1 signing analysis");
      _ ← require (c_height cm =? signing_height) (RpcError "Commit height mismatch");
      _ ← require (vd_block_height vd =? signing_height) (RpcError "Validator-set height mismatch");
      signed ← set_of signer_address signature_signed (c_precommits cm);
      all ← set_of v_address (fun _ => true) (vd_validators vd);
      signed_validators ← filter_res (fun v => py_in_set (v_address v) signed) (vd_validators vd);
      let missed := List.filter (fun a => negb (existsb (py_eq a) signed)) all in
      missed_validators ← filter_res (fun v => py_in_set (v_address v) missed) (vd_validators vd);
      Ok (Build_RpcSummary rpc_url (st_chain_id st) latest_height signing_height
            (st_node_version st) (st_catching_up st) (b_hash_base64 blk) (b_hash_hex blk)
            (b_time blk) (b_proposer_address blk) (b_tx_count blk) (vd_block_height vd)
            (c_height cm) (c_canonical cm) (vd_validators vd) (c_precommits cm)
            signed_validators missed_validators (b_transactions blk))
  end.

(** [get method height] is [client.get(method, height=height)]. *)
Definition fetch_validators (get : string -> Z -> res val) (height : Z) : res val :=
  get "validators" height.

Definition fetch_summary (base_url : string) (get : string -> Z -> res val)
    (status_payload : val) : res RpcSummary :=
  st ← parse_status status_payload;
  match st_latest_height st with
  | None => Raise (RpcError "/status did not include latest_block_height")
  | Some latest_height =>
      let signing_height := latest_height - 1 in
      _ ← raise_if (signing_height <? 1) (RpcError "Latest height is too low for H-1 signing analysis");
      blk ← get "block" latest_height;
      cm ← get "commit" signing_height;
      vs ← fetch_validators get signing_height;
      build_summary (py_rstrip_char "/" base_url) status_payload blk cm vs
  end.

(** ** ABCI queries.  [get params] is [self.get("abci_query", **params)]. *)
Definition abci_fields (payload : val) : res (val * val) :=
  r ← py_sub payload "result"; response ← py_sub r "response";
  base ← py_sub response "ResponseBase";
  error ← py_sub base "Error"; value ← py_sub base "Data";
  Ok (error, value).

Definition abci_decode (value : val) : res string :=
  match value with
  | VStr v =>
      _ ← raise_if (4 * ((MAX_ABCI_RESPONSE_BYTES + 2) / 3) <? py_len v)
            (RpcError "Malformed or oversized ABCI response data");
      match b64decode v with
      | Raise _ => Raise (RpcError "Malformed ABCI response data")
      | Ok decoded =>
          _ ← raise_if (MAX_ABCI_RESPONSE_BYTES <? Z.of_nat (length decoded))
                (RpcError "ABCI response exceeds size limit");
          match utf8_decode decoded with
          | None => Raise (RpcError "ABCI response data is not UTF-8")
          | Some s => Ok s
          end
      end
  | _ => Raise (RpcError "Malformed or oversized ABCI response data")
  end.

Definition abci_height_check (height : val) : res unit :=
  match height with
  | VNone => Ok tt
  | VInt h => raise_if (h <? 1) (RpcError "ABCI query height must be a positive integer")
  | _ => Raise (RpcError "ABCI query height must be a positive integer")
  end.

(** The parameters an ABCI query sends. *)
Definition abci_params (path d : string) (height : val) : list (string * val) :=
  [("path", VStr (json_string true path));
   ("data", VStr (json_string true (b64encode (list_of_string d))));
   ("prove", VStr "false")] ++ (if is_None height then [] else [("height", height)]).

Definition abci_query (get : list (string * val) -> res val)
    (path : string) (data : val) (height : val) : res string :=
  match data with
  | VStr d =>
      _ ← raise_if (String.eqb path "") (RpcError "ABCI query path and string data are required");
      _ ← abci_height_check height;
      payload ← get (abci_params path d height);
      match abci_fields payload with
      | Raise e => Raise (match e with
                          | KeyError | TypeError => RpcError "Malformed ABCI response"
                          | _ => e end)
      | Ok (error, value) =>
          _ ← require (py_in_tuple error [VNone; VStr ""])
                (RpcError "ABCI query returned an application error");
          abci_decode value
      end
  | _ => Raise (RpcError "ABCI query path and string data are required")
  end.
End summary.

(** ** Configuration: [os.environ] is a string dictionary. *)
Definition env := list (string * string).
Definition env_get (e : env) (k d : string) : string := default d (dict_get k e).

(** One line of a .env file. *)
Definition dotenv_line (e : env) (line : string) : env :=
  let stripped := py_strip line in
  if String.eqb stripped "" || startswith "#" stripped then e
  else match py_split1 "=" stripped with
       | None => e
       | Some (k, v) =>
           let key := py_strip k in
           let value := py_strip_char "'" (py_strip_char (Z_byte 34) (py_strip v)) in
           if negb (String.eqb key "") && negb (dict_has key e) then dict_set key value e else e
       end.
(** [dotenv] is the text of the file, [None] when it does not exist. *)
Definition load_dotenv (dotenv : option string) (e : env) : env :=
  match dotenv with
  | None => e
  | Some text => foldl dotenv_line e (py_splitlines text)
  end.

Definition configured_rpc_urls (dotenv : option string) (e : env) : list string :=
  let e := load_dotenv dotenv e in
  let urls := List.filter (fun u => negb (String.eqb u ""))
                (map py_strip (py_split "," (env_get e "GNO_RPC_URLS" ""))) in
  let legacy := py_strip (env_get e "GNO_RPC_URL" "") in
  match urls with
  | [] => if String.eqb legacy "" then [] else [legacy]
  | _ => urls
  end.

Definition configured_chain_id (dotenv : option string) (e : env) : string :=
  let s := py_strip (env_get (load_dotenv dotenv e) "GNO_CHAIN_ID" "pearl-1") in
  if String.eqb s "" then "pearl-1" else s.

Definition configured_max_height_lag (dotenv : option string) (e : env) : res Z :=
  match py_int_str (py_strip (env_get (load_dotenv dotenv e) "RPC_MAX_HEIGHT_LAG" "10")) with
  | Raise _ => Raise (RpcError "RPC_MAX_HEIGHT_LAG must be an integer")
  | Ok lag => if lag <? 0 then Raise (RpcError "RPC_MAX_HEIGHT_LAG must not be negative") else Ok lag
  end.

(** ** Properties *)

Lemma b64_encode_length l : Z.of_nat (length (b64_encode_list l)) = 4 * ((Z.of_nat (length l) + 2) / 3).
Proof.
  induction l as [l IH] using (induction_ltof1 _ (@length ascii)). unfold ltof in IH.
  destruct l as [|a [|b [|c l]]]; [done|done|done|]. cbn [b64_encode_list length].
  rewrite !Nat2Z.inj_succ, IH by (simpl; lia). Z.to_euclidean_division_equations; lia.
Qed.

Lemma py_len_b64encode l : py_len (b64encode l) = 4 * ((Z.of_nat (length l) + 2) / 3).
Proof.
  unfold b64encode. rewrite py_len_ascii.
  - by rewrite str_length_of_list, b64_encode_length.
  - unfold is_ascii. rewrite str_forallb_of_list. apply b64_encode_ascii.
Qed.

(** The JSON body of a successful ABCI response. *)
Definition abci_response (error data : val) : val :=
  VDict [("result", VDict [("response", VDict [("ResponseBase",
    VDict [("Error", error); ("Data", data)])])])].

Lemma abci_decode_encode l :
  utf8_valid l = true -> Z.of_nat (length l) <= MAX_ABCI_RESPONSE_BYTES ->
  abci_decode (VStr (b64encode l)) = Ok (string_of_list l).
Proof.
  intros Hu Hlen. unfold abci_decode. rewrite py_len_b64encode.
  replace (4 * _ <? _) with false; cycle 1.
  { unfold MAX_ABCI_RESPONSE_BYTES in *. Z.to_euclidean_division_equations; lia. }
  cbn [raise_if mbind res_bind]. rewrite b64decode_encode.
  replace (_ <? Z.of_nat _) with false by lia. cbn [raise_if mbind res_bind].
  unfold utf8_decode. by rewrite Hu.
Qed.

Lemma py_sub_error v k e : py_sub v k = Raise e -> e = KeyError \/ e = TypeError.
Proof. destruct v; simpl; repeat case_match; naive_solver. Qed.

Lemma abci_fields_error payload e : abci_fields payload = Raise e -> e = KeyError \/ e = TypeError.
Proof.
  unfold abci_fields. rewrite !bind_Raise. intros [H|(r & _ & H)]; [by eapply py_sub_error|].
  repeat (apply bind_Raise in H as [H|(? & _ & H)]; [by eapply py_sub_error|]). done.
Qed.

Definition valid_query_height (height : val) : bool :=
  match height with VNone => true | VInt h => 1 <=? h | _ => false end.

(** A node that answers an ABCI query without an application error, with
    the base64 text of at most 1 MiB of valid UTF-8, is read back exactly:
    [abci_query] returns the bytes the node encoded, whatever the query. *)
Theorem abci_query_roundtrip get path d height error l :
  path <> "" -> valid_query_height height = true ->
  error = VNone \/ error = VStr "" ->
  utf8_valid l = true -> Z.of_nat (length l) <= MAX_ABCI_RESPONSE_BYTES ->
  get (abci_params path d height) = Ok (abci_response error (VStr (b64encode l))) ->
  abci_query get path (VStr d) height = Ok (string_of_list l).
Proof.
  intros Hp Hh He Hu Hlen Hget. unfold abci_query.
  rewrite (proj2 (String.eqb_neq path "") Hp). cbn [raise_if mbind res_bind].
  assert (abci_height_check height = Ok tt) as ->.
  { destruct height; try done. simpl in *. unfold raise_if. by replace (z <? 1) with false by lia. }
  cbn [mbind res_bind]. rewrite Hget. cbn [mbind res_bind].
  assert (py_in_tuple error [VNone; VStr ""] = true) as He' by (by destruct He as [-> | ->]).
  change (abci_fields _) with (Ok (error, VStr (b64encode l))). cbv beta iota.
  rewrite He'. by apply abci_decode_encode.
Qed.

Lemma abci_query_roundtrip_witness :
  abci_query (fun _ => Ok (abci_response VNone (VStr (b64encode (list_of_string "ok")))))
    "vm/qrender" (VStr "gno.land/r/demo:") (VInt 7) = Ok "ok".
Proof.
  apply (abci_query_roundtrip _ "vm/qrender" "gno.land/r/demo:" (VInt 7) VNone (list_of_string "ok"));
    [done|done|by left|done|vm_compute; congruence|done].
Defined.

(** Whatever a node sends, an ABCI query either raises [RpcError] or
    returns a text of at most 1 MiB whose bytes are valid UTF-8 and are the
    strict base64 decoding of the response's data field; no other exception
    escapes from a query whose request raised none. *)
Theorem abci_query_outcome get path data height payload :
  (forall params, get params = Ok payload) ->
  match abci_query get path data height with
  | Raise e => isinstance_RpcError e = true
  | Ok s =>
      Z.of_nat (String.length s) <= MAX_ABCI_RESPONSE_BYTES /\
      utf8_valid (list_of_string s) = true /\
      exists r response base v,
        py_sub payload "result" = Ok r /\ py_sub r "response" = Ok response /\
        py_sub response "ResponseBase" = Ok base /\ py_sub base "Data" = Ok (VStr v) /\
        b64decode v = Ok (list_of_string s)
  end.
Proof.
  intros Hget. unfold abci_query. destruct data as [| | | |d| |]; try done.
  unfold raise_if. destruct (String.eqb path ""); [done|]. cbn [mbind res_bind].
  destruct (abci_height_check height) as [[]|e] eqn:Eh; cycle 1.
  { destruct height; simpl in Eh; simplify_eq; try done.
    unfold raise_if in Eh. by case_match; simplify_eq. }
  cbn [mbind res_bind]. rewrite Hget. cbn [mbind res_bind].
  destruct (abci_fields payload) as [[er v]|e] eqn:E; cycle 1.
  { by apply abci_fields_error in E as [-> | ->]. }
  unfold require. destruct (py_in_tuple er _); [|done]. cbn [mbind res_bind].
  unfold abci_fields in E. inv_res. simplify_eq.
  destruct v as [| | | |v| |]; try done. unfold abci_decode, raise_if.
  destruct (_ <? py_len v); [done|]. cbn [mbind res_bind].
  destruct (b64decode v) as [l|] eqn:E6; [|done].
  destruct (MAX_ABCI_RESPONSE_BYTES <? _) eqn:E7; [done|]. cbn [mbind res_bind].
  unfold utf8_decode. destruct (utf8_valid l) eqn:E8; [|done].
  rewrite str_length_of_list, list_of_string_of_list.
  split; [lia|]. split; [done|]. eauto 10.
Qed.

Lemma abci_query_outcome_witness :
  match abci_query (fun _ => Ok (VDict [])) "p" (VStr "d") VNone with
  | Raise e => isinstance_RpcError e = true
  | Ok _ => False
  end.
Proof.
  pose proof (abci_query_outcome (fun _ => Ok (VDict [])) "p" (VStr "d") VNone (VDict [])
    (fun _ => eq_refl)) as H.
  revert H. vm_compute. exact (fun H => H).
Defined.

Lemma set_of_Ok {A} (f : A -> val) p (l : list A) k :
  set_of f p l = Ok k -> forall y, y ∈ k <-> exists x, x ∈ l /\ truthy (f x) = true /\ p x = true /\ y = f x.
Proof.
  unfold set_of. intros Hk%mapM_res_Forall2 y.
  assert (k = map f (List.filter (fun x => truthy (f x) && p x) l)) as ->.
  { revert Hk. generalize (List.filter (fun x => truthy (f x) && p x) l) as m. intros m Hk.
    induction Hk as [|x z m' k' Hx _ IH]; [done|]. simpl. by case_match; simplify_eq. }
  rewrite list_elem_of_In, in_map_iff. setoid_rewrite filter_In. setoid_rewrite <-list_elem_of_In.
  setoid_rewrite andb_true_iff. naive_solver.
Qed.

Lemma filter_res_Ok {A} (c : A -> res bool) l k :
  filter_res c l = Ok k -> forall x, x ∈ k <-> x ∈ l /\ c x = Ok true.
Proof.
  revert k. induction l as [|a l IH]; intros k; simpl.
  - intros [= <-] x. set_solver.
  - intros (b & Hb & (rest & Hr & [= <-])%bind_Ok)%bind_Ok x. specialize (IH _ Hr x).
    destruct b; rewrite ?elem_of_cons, IH; split.
    + intros [-> | [? ?]]; auto.
    + intros [[-> |?] ?]; auto.
    + intros [? ?]; auto.
    + intros [[-> |?] ?]; [congruence|auto].
Qed.

Lemma py_eq_str_l s v : py_eq (VStr s) v = true <-> v = VStr s.
Proof.
  destruct v; simpl; split; try congruence; try done.
  - intros ->%String.eqb_eq. done.
  - intros [= ->]. apply String.eqb_refl.
Qed.

Lemma in_set_str a (s : list val) : existsb (py_eq (VStr a)) s = true <-> VStr a ∈ s.
Proof.
  rewrite existsb_exists, list_elem_of_In. setoid_rewrite py_eq_str_l. naive_solver.
Qed.

(** A precommit that counts as a signature of [a]. *)
Definition signed_by (precommits : list val) (a : string) : Prop :=
  exists sig, sig ∈ precommits /\ signer_address sig = VStr a /\ signature_signed sig = true.

(** The one-block summary analyses exactly the height below the tip: its
    commit and validator set are of that height, and a validator with a text
    address is listed as signed iff some precommit of the commit carries its
    signature, and as missed iff none does. *)
Theorem build_summary_partition `{PyRuntime} url st blk cm vs s v a :
  build_summary url st blk cm vs = Ok s ->
  v ∈ rs_validators s -> v_address v = VStr a -> a <> "" ->
  1 <= rs_signing_height s /\ rs_signing_height s = rs_latest_height s - 1 /\
  rs_commit_height s = rs_signing_height s /\ rs_validators_height s = rs_signing_height s /\
  (v ∈ rs_signed_validators s <-> signed_by (rs_commit_signatures s) a) /\
  (v ∈ rs_missed_validators s <-> ~ signed_by (rs_commit_signatures s) a).
Proof.
  unfold build_summary. intros Hs Hv Ha Hne. inv_res.
  destruct (match st_latest_height a0 with
            | Some h => if h =? 0 then b_height a1 else Some h | None => b_height a1 end)
    as [latest|]; [|done].
  inv_res. simpl in *. rename a7 into signed, a8 into all.
  assert (VStr a ∈ signed <-> signed_by (c_precommits a2) a) as Hsig.
  { rewrite (set_of_Ok _ _ _ _ Ha7). unfold signed_by.
    split; [naive_solver|]. intros (sig & ? & Hx & ?). exists sig. rewrite Hx.
    split_and!; try done. simpl. by destruct (String.eqb_spec a ""). }
  assert (VStr a ∈ all) as Hall.
  { rewrite (set_of_Ok _ _ _ _ Ha8). exists v. rewrite Ha. split_and!; try done.
    simpl. by destruct (String.eqb_spec a ""). }
  split_and!; try lia.
  - rewrite (filter_res_Ok _ _ _ Ha9), Ha. unfold py_in_set. simpl hashable. cbv iota.
    rewrite <-Hsig, <-in_set_str. split; [naive_solver|]. intros ->. done.
  - rewrite (filter_res_Ok _ _ _ Ha10), Ha. unfold py_in_set. simpl hashable. cbv iota.
    rewrite <-Hsig, <-in_set_str. split.
    + intros [_ [= H1]]. apply in_set_str, list_elem_of_In, filter_In in H1 as [_ H1].
      apply negb_true_iff in H1. congruence.
    + intros H1. split; [done|]. f_equal. apply in_set_str, list_elem_of_In, filter_In.
      split; [by apply list_elem_of_In|]. apply negb_true_iff.
      by destruct (existsb (py_eq (VStr a)) signed).
Qed.

(** *** A concrete node: one block at height 12 signed by one of two validators *)
Definition demo_hash (n : Z) : val := VStr (b64encode (replicate 32 (Z_byte n))).
Definition demo_block_id (n : Z) : val :=
  VDict [("hash", demo_hash n); ("parts", VDict [("total", VStr "1"); ("hash", demo_hash (n + 1))])].
Definition demo_block (height : Z) (n parent : Z) (txs : list val) : val :=
  VDict [("result", VDict [
    ("block_meta", VDict [("block_id", demo_block_id n)]);
    ("block", VDict [
      ("header", VDict [("height", VStr (str_of_Z height)); ("num_txs", VInt (Z.of_nat (length txs)));
                        ("time", VStr "2026-01-01T00:00:00Z"); ("proposer_address", VStr "g1a");
                        ("last_block_id", demo_block_id parent)]);
      ("data", VDict [("txs", VList txs)])])])].
Definition demo_precommit (addr : string) (n : Z) : val :=
  VDict [("validator_address", VStr addr); ("block_id", demo_block_id n);
         ("signature", VStr (b64encode (replicate 64 (Z_byte 9))))].
Definition demo_commit (height : Z) (n : Z) (precommits : list val) : val :=
  VDict [("result", VDict [
    ("signed_header", VDict [
       ("header", VDict [("height", VInt height)]);
       ("commit", VDict [("block_id", demo_block_id n); ("precommits", VList precommits)])]);
    ("canonical", VBool true)])].
Definition demo_validators (height : Z) (addrs : list string) : val :=
  VDict [("result", VDict [("block_height", VInt height);
    ("validators", VList (map (fun a => VDict [("address", VStr a); ("voting_power", VStr "10");
       ("pub_key", VDict [("@type", VStr "/tm.PubKeyEd25519"); ("value", VStr "k")])]) addrs))])].
Definition demo_status (chain : string) (height : Z) : val :=
  VDict [("result", VDict [("node_info", VDict [("network", VStr chain)]);
    ("sync_info", VDict [("latest_block_height", VStr (str_of_Z height)); ("catching_up", VBool false)])])].

Lemma build_summary_partition_witness :
  exists s v1 v2,
    @build_summary ascii_runtime "http://n/" (demo_status "pearl-1" 12) (demo_block 12 1 0 [])
      (demo_commit 11 5 [demo_precommit "g1a" 5; VNone]) (demo_validators 11 ["g1a"; "g1b"]) = Ok s /\
    (v1 ∈ rs_signed_validators s <-> signed_by (rs_commit_signatures s) "g1a") /\
    (v2 ∈ rs_missed_validators s <-> ~ signed_by (rs_commit_signatures s) "g1b").
Proof.
  eexists _, _, _. split; [vm_compute; reflexivity|]. split.
  - eapply (@build_summary_partition ascii_runtime "http://n/" (demo_status "pearl-1" 12)
      (demo_block 12 1 0 []) (demo_commit 11 5 [demo_precommit "g1a" 5; VNone])
      (demo_validators 11 ["g1a"; "g1b"]) _ _ "g1a"); [vm_compute; reflexivity|left|done|done].
  - eapply (@build_summary_partition ascii_runtime "http://n/" (demo_status "pearl-1" 12)
      (demo_block 12 1 0 []) (demo_commit 11 5 [demo_precommit "g1a" 5; VNone])
      (demo_validators 11 ["g1a"; "g1b"]) _ _ "g1b"); [vm_compute; reflexivity|right; left|done|done].
Defined.
