(* ===== verification/SessionPool.v ===== *)
(** * scripts/inspect_rpc.py: the HTTP session pool of GnoRpcClient

    The client keeps idle HTTP sessions in a LIFO queue, counts the sessions
    it has created and closes them when it is closed.  Each critical section
    guarded by [_session_state_lock], and the blocking [Queue.get] outside
    it, is one atomic operation; threads interleave these operations in any
    order.  Sessions are numbered in order of creation. *)
From Stdlib Require Import ZArith NArith Lia Ascii String SpecFloat.
From stdpp Require Import base gmap sets list strings sorting.
From S2P Require Import Prelude PyStr PyVal Codec InspectRpc.
Open Scope Z_scope.

Definition SESSION_POOL_MAX_SIZE : Z := 12.

Record pool := Pool {
  p_idle : list nat;    (* _idle_sessions, next to be taken first *)
  p_count : Z;          (* _session_count *)
  p_closed : bool;      (* _closed *)
  p_out : list nat;     (* sessions held by requests *)
  p_shut : list nat;    (* sessions on which close() was called *)
  p_next : nat          (* sessions created so far *)
}.

Definition pool_init : pool := Pool [] 0 false [] [] 0.

(** [GnoRpcClient(base_url)] *)
Definition client_init (base_url : string) : res (string * pool) :=
  _ ← raise_if (String.eqb base_url "") (RpcError "RPC URL is required");
  Ok (py_rstrip_char "/" base_url +:+ "/", pool_init).

Definition check_open (p : pool) : res unit :=
  raise_if (p_closed p) (RpcError "RPC client is closed").

(** The locked part of [_checkout_session]: a session, or nothing when the
    caller has to wait for one. *)
Definition checkout_locked (p : pool) : res (option nat * pool) :=
  if p_closed p then Raise (RpcError "RPC client is closed")
  else match p_idle p with
       | s :: idle => Ok (Some s, Pool idle (p_count p) (p_closed p) (s :: p_out p) (p_shut p) (p_next p))
       | [] =>
           if p_count p <? SESSION_POOL_MAX_SIZE then
             let s := p_next p in
             Ok (Some s, Pool [] (p_count p + 1) (p_closed p) (s :: p_out p) (p_shut p) (S s))
           else Ok (None, p)
       end.

(** [self._idle_sessions.get(timeout=...)] when the wait ends: the session
    that is idle then, or the timeout. *)
Definition checkout_wait (p : pool) : res (nat * pool) :=
  match p_idle p with
  | s :: idle => Ok (s, Pool idle (p_count p) (p_closed p) (s :: p_out p) (p_shut p) (p_next p))
  | [] => Raise (RpcError "RPC HTTP session pool exhausted")
  end.

(** [_return_session]; [cookies_ok] says whether clearing the cookies worked.
    [None] is the [queue.Full] that [put_nowait] raises. *)
Definition return_session (s : nat) (cookies_ok : bool) (p : pool) : option pool :=
  let out := List.remove Nat.eq_dec s (p_out p) in
  if cookies_ok then
    if p_closed p then
      Some (Pool (p_idle p) (p_count p - 1) true out (s :: p_shut p) (p_next p))
    else if Z.of_nat (length (p_idle p)) <? SESSION_POOL_MAX_SIZE then
      Some (Pool (s :: p_idle p) (p_count p) false out (p_shut p) (p_next p))
    else None
  else Some (Pool (p_idle p) (p_count p - 1) (p_closed p) out (s :: p_shut p) (p_next p)).

Definition close (p : pool) : pool :=
  if p_closed p then p
  else Pool [] (p_count p - Z.of_nat (length (p_idle p))) true (p_out p)
         (p_idle p ++ p_shut p) (p_next p).

(** ** Interleavings of the threads that share a client *)
Inductive pool_step : pool -> pool -> Prop :=
| step_checkout p o q : checkout_locked p = Ok (o, q) -> pool_step p q
| step_wait p s q : checkout_wait p = Ok (s, q) -> pool_step p q
| step_return p s ok q : s ∈ p_out p -> return_session s ok p = Some q -> pool_step p q
| step_close p : pool_step p (close p).

Definition pool_reachable (p : pool) : Prop := rtc pool_step pool_init p.

Record pool_inv (p : pool) : Prop := {
  inv_count : p_count p = Z.of_nat (length (p_idle p) + length (p_out p));
  inv_bound : p_count p <= SESSION_POOL_MAX_SIZE;
  inv_all : p_idle p ++ p_out p ++ p_shut p ≡ₚ seq 0 (p_next p);
  inv_closed : p_closed p = true -> p_idle p = []
}.

Lemma remove_perm (s : nat) l : s ∈ l -> NoDup l -> l ≡ₚ s :: List.remove Nat.eq_dec s l.
Proof.
  induction l as [|x l IH]; [by intros ?%elem_of_nil|]. intros Hs Hn.
  apply NoDup_cons in Hn as [Hx Hn]. simpl. destruct (Nat.eq_dec s x) as [->|Hne].
  - rewrite notin_remove; [done|]. by rewrite <-list_elem_of_In.
  - apply elem_of_cons in Hs as [?|Hs]; [done|]. rewrite perm_swap. by rewrite <-IH.
Qed.

Lemma pool_inv_NoDup p : pool_inv p -> NoDup (p_out p).
Proof.
  intros [_ _ Hall _]. assert (NoDup (p_idle p ++ p_out p ++ p_shut p)) as Hn.
  { rewrite Hall. apply NoDup_seq. }
  by apply NoDup_app in Hn as (_ & _ & (Hn & _)%NoDup_app).
Qed.

Lemma pool_inv_init : pool_inv pool_init.
Proof. by split. Qed.

Lemma pool_inv_checkout p o q : pool_inv p -> checkout_locked p = Ok (o, q) -> pool_inv q.
Proof.
  intros [Hc Hb Hall Hcl]. unfold checkout_locked.
  destruct (p_closed p) eqn:Ec; [done|]. destruct (p_idle p) as [|s idle] eqn:Ei.
  - case_match eqn:Hlt; intros [= <- <-]; [|by split; rewrite ?Ei, ?Ec].
    split; cbn [p_idle p_count p_closed p_out p_shut p_next app length] in *;
      [lia|lia| |congruence].
    by rewrite Hall, seq_S, <-Permutation_cons_append.
  - intros [= <- <-]. split; simpl in *; [lia|lia| |congruence].
    rewrite <-Hall. simpl. by rewrite <-Permutation_middle.
Qed.

Lemma pool_inv_wait p s q : pool_inv p -> checkout_wait p = Ok (s, q) -> pool_inv q.
Proof.
  intros [Hc Hb Hall Hcl]. unfold checkout_wait.
  destruct (p_idle p) as [|s' idle] eqn:Ei; [done|].
  intros [= <- <-]. split; simpl in *; [lia|lia| |].
  - rewrite <-Hall. simpl. by rewrite <-Permutation_middle.
  - intros E. by specialize (Hcl E).
Qed.

Lemma pool_inv_return p s ok q :
  pool_inv p -> s ∈ p_out p -> return_session s ok p = Some q -> pool_inv q.
Proof.
  intros Hp Hs. pose proof (remove_perm s _ Hs (pool_inv_NoDup _ Hp)) as Hr.
  destruct Hp as [Hc Hb Hall Hcl]. pose proof (Permutation_length Hr) as Hl. simpl in Hl.
  unfold return_session. revert Hr Hl.
  generalize (List.remove Nat.eq_dec s (p_out p)) as r. intros r Hr Hl H.
  repeat case_match; simplify_eq;
    (split; simpl; [lia|lia| |naive_solver]); rewrite <-Hall, Hr; simpl;
    rewrite <-?Permutation_middle; done.
Qed.

Lemma pool_inv_close p : pool_inv p -> pool_inv (close p).
Proof.
  intros Hp. unfold close. destruct (p_closed p) eqn:E; [done|].
  destruct Hp as [Hc Hb Hall Hcl]. split; simpl; [lia|lia| |done].
  rewrite <-Hall, !app_assoc. by rewrite (Permutation_app_comm (p_idle p)).
Qed.

Lemma pool_reachable_inv p : pool_reachable p -> pool_inv p.
Proof.
  intros Hr. refine (rtc_ind_r pool_inv pool_init pool_inv_init _ p Hr).
  intros y z _ Hs Hy. destruct Hs; eauto using pool_inv_checkout, pool_inv_wait,
    pool_inv_return, pool_inv_close.
Qed.

(** C9. However requests and [close] interleave, the pool never creates more
    than twelve sessions at a time, its count is exactly the idle plus the
    checked-out sessions, returning a session never overflows the queue, and
    no session leaks: once the client is closed and every request has
    returned, every session ever created has been closed exactly once. *)
Theorem session_pool_no_leak p :
  pool_reachable p ->
  p_count p = Z.of_nat (length (p_idle p) + length (p_out p)) /\
  p_count p <= SESSION_POOL_MAX_SIZE /\
  (forall s ok, s ∈ p_out p -> return_session s ok p <> None) /\
  (p_closed p = true -> p_out p = [] -> p_shut p ≡ₚ seq 0 (p_next p)).
Proof.
  intros Hr. pose proof (pool_reachable_inv p Hr) as Hp. pose proof (pool_inv_NoDup p Hp) as Hn.
  destruct Hp as [Hc Hb Hall Hcl]. split_and!; try done.
  - intros s ok Hs. pose proof (Permutation_length (remove_perm s _ Hs Hn)) as Hl. simpl in Hl.
    unfold return_session. repeat case_match; try done. lia.
  - intros Ec Eo. by rewrite (Hcl Ec), Eo in Hall.
Qed.

Lemma session_pool_no_leak_witness :
  let p := Pool [] 0 true [] [0%nat] 1 in
  pool_reachable p /\ (p_closed p = true -> p_out p = [] -> p_shut p ≡ₚ seq 0 (p_next p)).
Proof.
  intros p.
  assert (pool_reachable p) as Hr.
  { eapply rtc_l; [eapply step_checkout; reflexivity|].
    eapply rtc_l; [apply step_close|].
    eapply rtc_l; [|apply rtc_refl].
    apply (step_return _ 0%nat true); [left|reflexivity]. }
  split; [exact Hr|]. exact (proj2 (proj2 (proj2 (session_pool_no_leak p Hr)))).
Defined.
