(* ===== verification/Rpc.v ===== *)
(** * indexer/rpc.py: endpoint probes, selection and hash continuity

    Probing a list of endpoints, choosing one of the healthy ones within the
    allowed height lag, ranking the suitable ones by latency, and the checks
    that tie a block to its predecessor: canonical hash, parent hash and
    checkpoint anchor.  What an endpoint answers is the function [status_get]
    or [get] of the definitions, how long it took is [elapsed]. *)
From Stdlib Require Import ZArith NArith Lia Ascii String SpecFloat.
From stdpp Require Import base gmap sets list strings sorting.
From S2P Require Import Prelude PyStr PyVal Codec InspectRpc.
Open Scope Z_scope.

(** A client of an endpoint; [cl_closed] once [close()] was called on it. *)
Record client := Client { cl_url : string; cl_closed : bool }.

(** [class RpcProbeResult] *)
Record probe := Probe {
  pr_url : string;
  pr_healthy : bool;
  pr_selected : bool;
  pr_chain_id : val;
  pr_latest_height : option Z;
  pr_observed_lag : option Z;
  pr_catching_up : val;
  pr_error_message : option string;
  pr_client : option client;
  pr_status_payload : option val;
  pr_response_seconds : option float
}.

(** A copy of the probe with another [selected] flag. *)
Definition with_selected (b : bool) (p : probe) : probe :=
  Probe (pr_url p) (pr_healthy p) b (pr_chain_id p) (pr_latest_height p) (pr_observed_lag p)
    (pr_catching_up p) (pr_error_message p) (pr_client p) (pr_status_payload p) (pr_response_seconds p).

(** [class SelectedRpc] *)
Record selected_rpc := SelectedRpc {
  sr_client : option client;
  sr_status_payload : option val;
  sr_latest_height : Z;
  sr_finalized_tip : Z;
  sr_probes : list probe
}.

Definition close_client (c : option client) : option client :=
  match c with Some c => Some (Client (cl_url c) true) | None => None end.

Definition safe_probe_error (message : string) : string :=
  if startswith "wrong chain ID" message then "wrong chain ID"
  else if startswith "malformed status" message then "malformed status"
  else if String.eqb message "endpoint is catching up" then "endpoint is catching up"
  else "rpc_error".

Definition exc_message (e : exc) : string :=
  match e with RpcError m | RpcContinuityError m => m | _ => "" end.

Definition failed_probe (url : string) (st : option status) (e : exc) (seconds : float) : probe :=
  Probe url false false
    (match st with Some s => st_chain_id s | None => VNone end)
    (match st with Some s => st_latest_height s | None => None end)
    None
    (match st with Some s => st_catching_up s | None => VNone end)
    (Some (safe_probe_error (exc_message e)))
    (close_client (Some (Client url false))) None (Some seconds).

(** [client.get("status")] of the endpoint, and the measured duration. *)
Definition probe_endpoint (url expected_chain_id : string) (get : res val) (seconds : float) : res probe :=
  if String.eqb url "" then Raise (RpcError "RPC URL is required") else
  let attempt :=
    status_payload ← get;
    st ← parse_status status_payload;
    Ok (status_payload, st) in
  match attempt with
  | Raise e => if isinstance_RpcError e then Ok (failed_probe url None e seconds) else Raise e
  | Ok (status_payload, st) =>
      match validate_status_for_health st expected_chain_id with
      | Raise e => if isinstance_RpcError e then Ok (failed_probe url (Some st) e seconds) else Raise e
      | Ok _ =>
          Ok (Probe url true false (st_chain_id st) (st_latest_height st) None (st_catching_up st)
                None (Some (Client url false)) (Some status_payload) (Some seconds))
      end
  end.

Definition with_lag (highest_height max_height_lag : Z) (p : probe) : probe :=
  match pr_healthy p, pr_latest_height p with
  | true, Some h =>
      let lag := highest_height - h in
      if max_height_lag <? lag then
        Probe (pr_url p) false (pr_selected p) (pr_chain_id p) (pr_latest_height p) (Some lag)
          (pr_catching_up p) (Some "stale endpoint") (close_client (pr_client p))
          (pr_status_payload p) (pr_response_seconds p)
      else
        Probe (pr_url p) (pr_healthy p) (pr_selected p) (pr_chain_id p) (pr_latest_height p) (Some lag)
          (pr_catching_up p) (pr_error_message p) (pr_client p) (pr_status_payload p)
          (pr_response_seconds p)
  | _, _ => p
  end.

(** ** Ranking: latency first, then input order *)
Definition probe_duration (p : probe) : float :=
  match pr_response_seconds p with
  | Some d => if negb (isfinite d) || f_ltb d f_zero then f_inf else d
  | None => f_inf
  end.
Definition rank_leb (a b : nat * probe) : bool :=
  let x := probe_duration a.2 in let y := probe_duration b.2 in
  if SFeqb x y then Nat.leb a.1 b.1 else f_ltb x y.

(** [min(l, key=...)]: the first least element. *)
Fixpoint min_by {A} (leb : A -> A -> bool) (l : list A) : option A :=
  match l with
  | [] => None
  | x :: l' => match min_by leb l' with
               | None => Some x
               | Some y => if leb x y then Some x else Some y
               end
  end.

Definition selectable (max_height_lag : Z) (p : probe) : bool :=
  pr_healthy p && match pr_observed_lag p with Some l => l <=? max_height_lag | None => false end.

Definition selected_probe_index (probes : list probe) (max_height_lag : Z) : option nat :=
  fst <$> min_by rank_leb (List.filter (fun ip => selectable max_height_lag ip.2) (enumerate probes)).

(** [[p.latest_height for p in probes if p.healthy and p.latest_height is not None]] *)
Definition healthy_heights (probes : list probe) : list Z :=
  omap (fun p => if pr_healthy p then pr_latest_height p else None) probes.

Definition probe_raw (chain_id : string) (status_get : string -> res val) (elapsed : string -> float)
    (url : string) : probe :=
  match probe_endpoint url chain_id (status_get url) (elapsed url) with
  | Ok p => p
  | Raise _ => Probe url false false VNone None None VNone (Some "rpc_error") None None None
  end.

Definition probe_rpc_endpoints (urls : list string) (chain_id : string) (max_height_lag : Z)
    (status_get : string -> res val) (elapsed : string -> float) : res (list probe) :=
  match urls with
  | [] => Raise (RpcError "Set GNO_RPC_URLS to a comma-separated RPC list, or temporarily set legacy GNO_RPC_URL")
  | _ =>
      let raw_probes := map (probe_raw chain_id status_get elapsed) urls in
      match healthy_heights raw_probes with
      | [] => Ok raw_probes
      | h :: hs =>
          let highest_height := max_list h hs in
          let probes_with_lag := map (with_lag highest_height max_height_lag) raw_probes in
          let selected_index := selected_probe_index probes_with_lag max_height_lag in
          Ok (map (fun ip => with_selected (bool_decide (selected_index = Some ip.1)) ip.2)
                (enumerate probes_with_lag))
      end
  end.

Definition selected_rpc_from_probes (probes : list probe) (max_height_lag : Z) : res selected_rpc :=
  match healthy_heights probes with
  | [] => Raise (RpcError "All RPC endpoints are rejected or unavailable")
  | _ =>
      match List.find pr_selected probes with
      | None => Raise (RpcError "No suitable RPC endpoint is within RPC_MAX_HEIGHT_LAG")
      | Some p =>
          match pr_client p, pr_status_payload p, pr_latest_height p with
          | Some c, Some s, Some h => Ok (SelectedRpc (Some c) (Some s) h (h - 1) probes)
          | _, _, _ => Raise (RpcError "Selected RPC probe is missing successful payload data")
          end
      end
  end.

Definition select_rpc (urls : list string) (chain_id : string) (max_height_lag : Z)
    (status_get : string -> res val) (elapsed : string -> float) : res selected_rpc :=
  probes ← probe_rpc_endpoints urls chain_id max_height_lag status_get elapsed;
  selected_rpc_from_probes probes max_height_lag.

Definition suitable (p : probe) : bool :=
  pr_healthy p
  && bool_decide (is_Some (pr_client p))
  && bool_decide (is_Some (pr_status_payload p))
  && bool_decide (is_Some (pr_latest_height p))
  && match pr_observed_lag p with Some l => 0 <=? l | None => false end
  && negb (bool_decide (pr_error_message p = Some "stale endpoint")).

Definition suitable_rpc_probes (probes : list probe) : list probe :=
  map snd (sort_by rank_leb (List.filter (fun ip => suitable ip.2) (enumerate probes))).

Definition suitable_rpc_candidates (probes : list probe) : list selected_rpc :=
  map (fun p => let h := default 0 (pr_latest_height p) in
                SelectedRpc (pr_client p) (pr_status_payload p) h (h - 1) [p])
    (suitable_rpc_probes probes).

(** ** Hash continuity *)
Definition hash_of_field (value : val) (missing malformed : string) : res string :=
  match value with
  | VStr s =>
      if String.eqb s "" then Raise (RpcContinuityError missing)
      else decoded ← except_as (decode_base64 value "BlockID.Hash") isinstance_RpcError
                       (RpcContinuityError malformed);
           _ ← require (Nat.eqb (length decoded) 32) (RpcContinuityError malformed);
           Ok (hex_upper decoded)
  | _ => Raise (RpcContinuityError missing)
  end.

Definition canonical_block_hash_hex (payload : val) : res string :=
  value ← except_as (r ← py_sub payload "result"; m ← py_sub r "block_meta";
                     b ← py_sub m "block_id"; py_sub b "hash")
            (fun e => isinstance_KeyError e || isinstance_TypeError e)
            (RpcContinuityError "malformed_block_hash");
  hash_of_field value "missing_block_hash" "malformed_block_hash".

Definition parent_hash_value (payload : val) : res val :=
  r ← py_sub payload "result"; b ← py_sub r "block"; header ← py_sub b "header";
  b1 ← py_get header "last_block_id";
  b2 ← py_get header "last_block_id_hash";
  b3 ← py_get header "lastBlockID";
  let block_id := por (por b1 b2) b3 in
  h1 ← py_get block_id "hash";
  h2 ← py_get block_id "Hash";
  Ok (por h1 h2).

Definition parent_block_hash_hex (payload : val) : res string :=
  value ← except_as (parent_hash_value payload)
            (fun e => isinstance_KeyError e || isinstance_TypeError e || isinstance_AttributeError e)
            (RpcContinuityError "missing_parent_hash");
  hash_of_field value "missing_parent_hash" "malformed_parent_hash".

Section continuity.
Context `{PyRuntime}.

Definition verify_parent_continuity (payload : val) (expected_hash_hex : string) : res string :=
  actual ← parent_block_hash_hex payload;
  _ ← require (String.eqb actual (py_upper expected_hash_hex)) (RpcContinuityError "parent_hash_mismatch");
  canonical_block_hash_hex payload.

(** [get method height] is [client.get(method, height=height)]. *)
Definition verify_checkpoint_anchor (get : string -> Z -> res val) (height : Z)
    (expected_hash_hex : string) : res unit :=
  _ ← require (py_len expected_hash_hex =? 64) (RpcContinuityError "malformed_checkpoint_hash");
  _ ← except_as (bytes_fromhex expected_hash_hex) isinstance_ValueError
        (RpcContinuityError "malformed_checkpoint_hash");
  actual ← except_as (payload ← get "block" height; canonical_block_hash_hex payload)
             (fun e => isinstance_RpcError e && negb (isinstance_RpcContinuityError e))
             (RpcContinuityError "checkpoint_unavailable");
  require (String.eqb actual (py_upper expected_hash_hex)) (RpcContinuityError "checkpoint_hash_mismatch").
End continuity.

(** The four payloads of one height; the first failing request in this order
    is the one whose exception is seen. *)
Definition fetch_height (get : string -> Z -> res val) (height : Z) : res (val * val * val * val) :=
  block ← get "block" height;
  block_results ← get "block_results" height;
  commit ← get "commit" height;
  validators ← get "validators" height;
  Ok (block, block_results, commit, validators).

(** ** Properties *)

(** *** The latency ranking is a total order *)
Definition dur_ok (d : float) : bool :=
  match d with
  | S754_zero _ | S754_infinity false | S754_finite false _ _ => true
  | _ => false
  end.
Definition dur_key (d : float) : Z * Z * Z :=
  match d with
  | S754_finite _ m e => (1, e, Z.pos m)
  | S754_infinity _ => (2, 0, 0)
  | _ => (0, 0, 0)
  end.
Definition key_lt (a b : Z * Z * Z) : Prop :=
  a.1.1 < b.1.1 \/ (a.1.1 = b.1.1 /\ (a.1.2 < b.1.2 \/ (a.1.2 = b.1.2 /\ a.2 < b.2))).

Lemma probe_duration_ok p : dur_ok (probe_duration p) = true.
Proof.
  unfold probe_duration. destruct (pr_response_seconds p) as [d|]; [|done].
  destruct d as [|[]| |[] m e]; try done.
Qed.

Lemma dur_eqb a b : dur_ok a = true -> dur_ok b = true ->
  SFeqb a b = true <-> dur_key a = dur_key b.
Proof.
  destruct a as [?|[]| |[] m e], b as [?|[]| |[] m' e']; try done; intros _ _;
    unfold SFeqb; simpl; split; try congruence; try done.
  - destruct (Z.compare_spec e e'); try done. change (Pos.compare_cont Eq m m') with (Pos.compare m m').
    destruct (Pos.compare_spec m m'); congruence.
  - intros [= <- <-]. rewrite Z.compare_refl.
    change (Pos.compare_cont Eq m m) with (Pos.compare m m). by rewrite Pos.compare_refl.
Qed.

Lemma dur_ltb a b : dur_ok a = true -> dur_ok b = true ->
  f_ltb a b = true <-> key_lt (dur_key a) (dur_key b).
Proof.
  unfold f_ltb, SFltb, key_lt.
  destruct a as [?|[]| |[] m e], b as [?|[]| |[] m' e']; try done; intros _ _; simpl;
    try (split; [done|lia]); try (split; [lia|done]); try (split; (done || lia)).
  change (Pos.compare_cont Eq m m') with (Pos.compare m m').
  destruct (Z.compare_spec e e'), (Pos.compare_spec m m'); split; try done; try lia.
Qed.

Lemma rank_leb_spec a b :
  rank_leb a b = true <->
  key_lt (dur_key (probe_duration a.2)) (dur_key (probe_duration b.2)) \/
  (dur_key (probe_duration a.2) = dur_key (probe_duration b.2) /\ (a.1 <= b.1)%nat).
Proof.
  unfold rank_leb.
  pose proof (dur_eqb _ _ (probe_duration_ok a.2) (probe_duration_ok b.2)) as He.
  pose proof (dur_ltb _ _ (probe_duration_ok a.2) (probe_duration_ok b.2)) as Hl.
  destruct (SFeqb _ _) eqn:E.
  - rewrite Nat.leb_le. assert (dur_key (probe_duration a.2) = dur_key (probe_duration b.2)) as Hk
      by (by apply He). rewrite Hk. unfold key_lt. split; [auto|intros [H|[_ H]]; lia].
  - rewrite Hl. split; [by left|]. intros [H|[H _]]; [done|]. apply He in H. congruence.
Qed.

Lemma key_lt_cases a b : key_lt a b \/ a = b \/ key_lt b a.
Proof.
  destruct a as [[a1 a2] a3], b as [[b1 b2] b3]. unfold key_lt. simpl.
  destruct (Z.lt_trichotomy a1 b1) as [|[->|]], (Z.lt_trichotomy a2 b2) as [|[->|]],
    (Z.lt_trichotomy a3 b3) as [|[->|]]; auto; lia.
Qed.

Lemma rank_leb_total a b : rank_leb a b = true \/ rank_leb b a = true.
Proof.
  rewrite !rank_leb_spec.
  destruct (key_lt_cases (dur_key (probe_duration a.2)) (dur_key (probe_duration b.2)))
    as [H|[->|H]]; auto. destruct (Nat.le_ge_cases a.1 b.1); auto.
Qed.

Lemma rank_leb_trans a b c : rank_leb a b = true -> rank_leb b c = true -> rank_leb a c = true.
Proof.
  rewrite !rank_leb_spec. unfold key_lt.
  intros [H|[-> H]] [H'|[H'' H']]; [left; lia| | |right; rewrite H''; split; [done|lia]].
  - left. rewrite <-H''. lia.
  - by left.
Qed.

Lemma min_by_spec {A} (leb : A -> A -> bool) l x :
  (forall a b, leb a b = true \/ leb b a = true) ->
  (forall a b c, leb a b = true -> leb b c = true -> leb a c = true) ->
  min_by leb l = Some x -> x ∈ l /\ forall y, y ∈ l -> leb x y = true.
Proof.
  intros Ht Htr. revert x. induction l as [|a l IH]; intros x; simpl; [done|].
  destruct (min_by leb l) as [y|] eqn:E.
  - destruct (IH y eq_refl) as [Hy Hl]. destruct (leb a y) eqn:Hay; intros [= <-].
    + split; [left|]. intros z [->|Hz]%elem_of_cons; [by destruct (Ht a a)|]. eauto.
    + split; [by right|]. intros z [->|Hz]%elem_of_cons; [|by apply Hl].
      destruct (Ht a y); congruence.
  - intros [= <-]. destruct l as [|b l]; [|simpl in E; repeat case_match; done].
    split; [left|]. intros z [->|Hz%elem_of_nil]%elem_of_cons; [by destruct (Ht a a)|done].
Qed.

Lemma min_by_None {A} (leb : A -> A -> bool) l : min_by leb l = None -> l = [].
Proof. destruct l; simpl; [done|]. repeat case_match; done. Qed.

Lemma elem_of_filter_enumerate (f : probe -> bool) l i p :
  (i, p) ∈ List.filter (fun ip => f ip.2) (enumerate l) <-> l !! i = Some p /\ f p = true.
Proof.
  rewrite list_elem_of_In, filter_In, <-list_elem_of_In. simpl.
  rewrite list_elem_of_lookup. setoid_rewrite enumerate_lookup. simpl. naive_solver.
Qed.

Lemma filter_enumerate_snd (f : probe -> bool) l :
  map snd (List.filter (fun ip => f ip.2) (enumerate l)) = List.filter f l.
Proof.
  rewrite <-(enumerate_snd l) at 2. generalize (enumerate l) as k.
  induction k as [|[i p] k IH]; simpl; [done|]. destruct (f p); simpl; by rewrite IH.
Qed.

(** The failover order is exactly the suitable probes, fastest first:
    [suitable_rpc_probes] returns a permutation of the probes that are
    healthy, complete and not stale, in nondecreasing order of measured
    latency, and equally fast probes keep the configured order. *)
Theorem suitable_rpc_probes_sorted probes :
  suitable_rpc_probes probes ≡ₚ List.filter suitable probes /\
  StronglySorted (fun a b => ~ key_lt (dur_key (probe_duration b)) (dur_key (probe_duration a)))
    (suitable_rpc_probes probes) /\
  exists order : list (nat * probe),
    map snd order = suitable_rpc_probes probes /\
    Forall (fun ip => probes !! ip.1 = Some ip.2) order /\
    StronglySorted (fun a b => rank_leb a b = true) order.
Proof.
  unfold suitable_rpc_probes.
  pose proof (sort_by_sorted _ rank_leb_total rank_leb_trans
    (List.filter (fun ip => suitable ip.2) (enumerate probes))) as Hs.
  split_and!.
  - rewrite <-(filter_enumerate_snd suitable). apply Permutation_map, sort_by_perm.
  - induction Hs as [|[i p] l _ IH Hf]; [constructor|]. simpl. constructor; [done|].
    rewrite Forall_map. eapply Forall_impl; [exact Hf|].
    intros [j q] H. apply rank_leb_spec in H. simpl in *.
    unfold key_lt in *. intros Hk. destruct H as [H|[H _]]; [lia|]. rewrite H in Hk. lia.
  - eexists. split; [reflexivity|]. split; [|exact Hs].
    apply Forall_forall. intros [i p] Hip. apply elem_of_sort_by in Hip.
    by apply elem_of_filter_enumerate in Hip as [? _].
Qed.

(** *** Selection of one endpoint *)

(** The endpoint's own answer makes probe [p] healthy at height [h]. *)
Definition endpoint_evidence (chain : string) (get : string -> res val) (p : probe) (h : Z) : Prop :=
  exists payload st,
    get (pr_url p) = Ok payload /\ pr_status_payload p = Some payload /\
    parse_status payload = Ok st /\ validate_status_for_health st chain = Ok tt /\
    st_latest_height st = Some h.

Record raw_ok (chain : string) (get : string -> res val) (p : probe) : Prop := {
  raw_unselected : pr_selected p = false;
  raw_source : pr_healthy p = true -> exists h,
    pr_latest_height p = Some h /\ pr_client p = Some (Client (pr_url p) false) /\
    endpoint_evidence chain get p h
}.
Arguments raw_unselected {chain get p}. Arguments raw_source {chain get p}.

Lemma validate_status_height st c u :
  validate_status_for_health st c = Ok u -> exists h, st_latest_height st = Some h.
Proof.
  unfold validate_status_for_health. intros H. inv_res. apply bool_decide_eq_true in Ha0.
  destruct (st_latest_height st); eauto. congruence.
Qed.

Lemma probe_raw_ok chain get el url : raw_ok chain get (probe_raw chain get el url).
Proof.
  unfold probe_raw, probe_endpoint. destruct (String.eqb url ""); [by split|].
  destruct (_ ← get url; _) as [[sp st]|e] eqn:Ea;
    [|destruct (isinstance_RpcError e); by split].
  destruct (validate_status_for_health st chain) as [[]|e] eqn:E;
    [|destruct (isinstance_RpcError e); by split].
  destruct (validate_status_height _ _ _ E) as [h Hh]. split; simpl; [done|]. intros _.
  exists h. split_and!; try done. exists sp, st. inv_res. simplify_eq. done.
Qed.

Lemma probe_raw_url chain get el url : pr_url (probe_raw chain get el url) = url.
Proof.
  unfold probe_raw, probe_endpoint. destruct (String.eqb url ""); [done|].
  repeat case_match; simplify_eq; done.
Qed.

Lemma with_lag_facts chain get top lag p :
  raw_ok chain get p ->
  let q := with_lag top lag p in
  pr_url q = pr_url p /\
  (pr_healthy q = true -> pr_healthy p = true /\ pr_client q = Some (Client (pr_url q) false) /\
     exists h, pr_latest_height q = Some h /\ pr_observed_lag q = Some (top - h) /\ top - h <= lag /\
       endpoint_evidence chain get q h).
Proof.
  intros [Hs Hsrc]. unfold with_lag.
  destruct (pr_healthy p) eqn:E; simpl; [|by rewrite E].
  destruct (Hsrc eq_refl) as (h & -> & Hc & He).
  destruct (Z.ltb_spec lag (top - h)); simpl; split_and!; try done.
  intros _. split_and!; eauto.
Qed.

Lemma healthy_heights_spec l h :
  h ∈ healthy_heights l <-> exists p, p ∈ l /\ pr_healthy p = true /\ pr_latest_height p = Some h.
Proof.
  unfold healthy_heights. rewrite list_elem_of_omap. split; intros (p & Hp & H); exists p.
  - by destruct (pr_healthy p).
  - destruct H as [-> ->]. done.
Qed.

Lemma selected_index_spec l lag i :
  selected_probe_index l lag = Some i ->
  exists p, l !! i = Some p /\ selectable lag p = true /\
    forall j q, l !! j = Some q -> selectable lag q = true -> rank_leb (i, p) (j, q) = true.
Proof.
  unfold selected_probe_index. rewrite fmap_Some. intros ([i' p] & Hm & ->).
  destruct (min_by_spec _ _ _ rank_leb_total rank_leb_trans Hm) as [Hin Hle].
  apply elem_of_filter_enumerate in Hin as [Hi Hs]. exists p. split_and!; try done.
  intros j q Hj Hq. apply Hle. by apply elem_of_filter_enumerate.
Qed.

Lemma selected_index_None l lag :
  selected_probe_index l lag = None -> forall p, p ∈ l -> selectable lag p = false.
Proof.
  unfold selected_probe_index. rewrite fmap_None. intros Hm%min_by_None p [i Hi]%list_elem_of_lookup.
  destruct (selectable lag p) eqn:E; [|done].
  assert ((i, p) ∈ List.filter (fun ip => selectable lag ip.2) (enumerate l)) as Hx
    by (by apply elem_of_filter_enumerate). rewrite Hm in Hx. by apply elem_of_nil in Hx.
Qed.

Lemma rank_leb_with_selected b c i p j q :
  rank_leb (i, with_selected b p) (j, with_selected c q) = rank_leb (i, p) (j, q).
Proof. reflexivity. Qed.

(** What the caller of [probe_rpc_endpoints] may rely on. *)
Record probes_ok (urls : list string) (chain : string) (get : string -> res val) (lag : Z)
    (probes : list probe) : Prop := {
  ok_urls : map pr_url probes = urls;
  ok_healthy : forall p, p ∈ probes -> pr_healthy p = true ->
    exists h l, pr_latest_height p = Some h /\ endpoint_evidence chain get p h /\
      pr_client p = Some (Client (pr_url p) false) /\
      pr_observed_lag p = Some l /\ 0 <= l <= lag /\
      (forall q k, q ∈ probes -> pr_healthy q = true -> pr_latest_height q = Some k -> k - h <= l);
  ok_selected : forall i p, probes !! i = Some p -> pr_selected p = true ->
    pr_healthy p = true /\
    (forall j q, probes !! j = Some q -> pr_healthy q = true -> rank_leb (i, p) (j, q) = true);
  ok_unique : forall i j p q, probes !! i = Some p -> probes !! j = Some q ->
    pr_selected p = true -> pr_selected q = true -> i = j;
  ok_exists : (exists p, p ∈ probes /\ pr_healthy p = true) -> exists p, p ∈ probes /\ pr_selected p = true
}.

Lemma probes_ok_unhealthy urls chain get lag raw :
  map pr_url raw = urls -> Forall (raw_ok chain get) raw -> healthy_heights raw = [] ->
  probes_ok urls chain get lag raw.
Proof.
  intros Hu Hr Hh. rewrite Forall_forall in Hr.
  assert (forall p, p ∈ raw -> pr_healthy p = true -> False) as Hno.
  { intros p Hp Hhp. destruct (raw_source (Hr p Hp) Hhp) as (h & Hh' & _).
    assert (h ∈ healthy_heights raw) as Hx by (apply healthy_heights_spec; eauto).
    rewrite Hh in Hx. by apply elem_of_nil in Hx. }
  split; [done| | | |].
  - intros p Hp Hhp. destruct (Hno p Hp Hhp).
  - intros i p Hi%list_elem_of_lookup_2 Hs. by rewrite (raw_unselected (Hr p Hi)) in Hs.
  - intros i j p q Hi%list_elem_of_lookup_2 _ Hs. by rewrite (raw_unselected (Hr p Hi)) in Hs.
  - intros (p & Hp & Hhp). destruct (Hno p Hp Hhp).
Qed.

Section select.
Context (urls : list string) (chain : string) (get : string -> res val) (lag : Z).
Context (raw : list probe) (h : Z) (hs : list Z).
Hypothesis lag_nonneg : 0 <= lag.
Hypothesis raw_urls : map pr_url raw = urls.
Hypothesis raw_all : forall p, p ∈ raw -> raw_ok chain get p.
Hypothesis raw_heights : healthy_heights raw = h :: hs.
Let top := max_list h hs.
Let lagged := map (with_lag top lag) raw.
Let choice := selected_probe_index lagged lag.
Let final := map (fun ip => with_selected (bool_decide (choice = Some ip.1)) ip.2) (enumerate lagged).

Lemma lagged_from q : q ∈ lagged -> exists p, p ∈ raw /\ q = with_lag top lag p.
Proof. unfold lagged. intros (p & -> & Hp)%list_elem_of_fmap. eauto. Qed.

Lemma top_ge p k : p ∈ raw -> pr_healthy p = true -> pr_latest_height p = Some k -> k <= top.
Proof.
  intros Hp Hhp Hk. apply max_list_ge. apply elem_of_cons. rewrite <-raw_heights.
  apply healthy_heights_spec. eauto.
Qed.

Lemma lagged_healthy q :
  q ∈ lagged -> pr_healthy q = true ->
  selectable lag q = true /\ pr_client q = Some (Client (pr_url q) false) /\
  exists k, pr_latest_height q = Some k /\ pr_observed_lag q = Some (top - k) /\
    0 <= top - k <= lag /\ endpoint_evidence chain get q k.
Proof.
  intros (p & Hp & ->)%lagged_from Hhq.
  destruct (with_lag_facts chain get top lag p (raw_all p Hp)) as (_ & Hx).
  destruct (Hx Hhq) as (Hhp & Hc & k & E1 & E2 & Hle & He).
  destruct (raw_source (raw_all p Hp) Hhp) as (k' & Hk' & _).
  assert (k = k') as ->.
  { unfold with_lag in E1. rewrite Hhp, Hk' in E1. by destruct (lag <? top - k'); simplify_eq/=. }
  pose proof (top_ge p k' Hp Hhp Hk').
  unfold selectable. rewrite Hhq, E2. split; [simpl; lia|]. split; [done|].
  exists k'. split_and!; try done. lia.
Qed.

Lemma final_lookup i q :
  final !! i = Some q <->
  exists p, lagged !! i = Some p /\ q = with_selected (bool_decide (choice = Some i)) p.
Proof.
  unfold final. rewrite list_lookup_fmap_Some. split.
  - intros ([j p] & -> & [? ?]%enumerate_lookup). simpl in *. subst. eauto.
  - intros (p & Hp & ->). exists (i, p). split; [done|]. by apply enumerate_lookup.
Qed.

Lemma final_elem q :
  q ∈ final -> exists p b, p ∈ lagged /\ q = with_selected b p.
Proof.
  intros [i (p & Hp%list_elem_of_lookup_2 & ->)%final_lookup]%list_elem_of_lookup. eauto.
Qed.

Lemma final_urls : map pr_url final = urls.
Proof.
  unfold final. rewrite map_map. change (fun x : nat * probe => pr_url (with_selected _ x.2))
    with (fun x : nat * probe => pr_url (snd x)).
  rewrite <-(map_map snd pr_url). change (map snd (enumerate lagged)) with (enumerate lagged).*2.
  rewrite enumerate_snd. unfold lagged. rewrite map_map, <-raw_urls. apply map_ext_in.
  intros p Hp%list_elem_of_In. apply (with_lag_facts chain get top lag p (raw_all p Hp)).
Qed.

Lemma final_exists : exists p, p ∈ final /\ pr_selected p = true.
Proof.
  unfold final. destruct choice as [i|] eqn:Ei.
  - destruct (selected_index_spec _ _ _ Ei) as (p & Hp & _).
    exists (with_selected true p). split; [|done]. apply list_elem_of_lookup. exists i.
    rewrite list_lookup_fmap_Some. exists (i, p). simpl. rewrite bool_decide_eq_true_2 by done.
    split; [done|]. by apply enumerate_lookup.
  - exfalso. assert (top ∈ healthy_heights raw) as (p & Hp & Hhp & Htp)%healthy_heights_spec.
    { rewrite raw_heights. apply elem_of_cons. apply max_list_in. }
    assert (pr_healthy (with_lag top lag p) = true) as Hhl.
    { unfold with_lag. rewrite Hhp, Htp. by replace (lag <? top - top) with false by lia. }
    assert (with_lag top lag p ∈ lagged) as Hin by (by apply list_elem_of_fmap_2).
    destruct (lagged_healthy _ Hin Hhl) as [Hs _].
    by rewrite (selected_index_None _ _ Ei _ Hin) in Hs.
Qed.

Lemma probes_ok_selected : probes_ok urls chain get lag final.
Proof.
  split; [apply final_urls| | | |intros _; apply final_exists].
  - intros q (p & b & Hp & ->)%final_elem Hhp.
    destruct (lagged_healthy p Hp Hhp) as (_ & Hc & k & E1 & E2 & Hk & He).
    exists k, (top - k). split_and!; try done; try lia.
    intros q0 k0 (p0 & b0 & (p1 & Hp1 & ->)%lagged_from & ->)%final_elem Hh0 Hk0.
    simpl in Hh0, Hk0.
    destruct (with_lag_facts chain get top lag p1 (raw_all p1 Hp1)) as (_ & Hx).
    destruct (Hx Hh0) as (Hhp1 & _).
    enough (k0 <= top) by lia. apply (top_ge p1); try done.
    unfold with_lag in Hk0. rewrite Hhp1 in Hk0.
    destruct (pr_latest_height p1) as [k1|] eqn:E; [|simpl in Hk0; congruence].
    destruct (lag <? top - k1); simpl in Hk0; congruence.
  - intros i q (p & Hp & ->)%final_lookup. simpl. intros Hi%bool_decide_eq_true.
    destruct (selected_index_spec _ _ _ Hi) as (p' & Hp' & Hsp & Hmin).
    assert (p' = p) as -> by congruence.
    split. { unfold selectable in Hsp. by destruct (pr_healthy p). }
    intros j q (q0 & Hq0 & ->)%final_lookup Hhq. rewrite rank_leb_with_selected.
    apply Hmin; [done|]. apply lagged_healthy; [|done]. by apply list_elem_of_lookup_2 in Hq0.
  - intros i j p q (p0 & Hp0 & ->)%final_lookup (q0 & Hq0 & ->)%final_lookup. simpl.
    intros H1%bool_decide_eq_true H2%bool_decide_eq_true. congruence.
Qed.
End select.

Lemma probe_rpc_endpoints_facts urls chain lag get elapsed probes :
  0 <= lag -> probe_rpc_endpoints urls chain lag get elapsed = Ok probes ->
  probes_ok urls chain get lag probes.
Proof.
  intros Hlag. unfold probe_rpc_endpoints. destruct urls as [|u us]; [done|].
  generalize dependent (u :: us). intros urls H.
  set (raw := map (probe_raw chain get elapsed) urls) in *.
  assert (map pr_url raw = urls) as Hu.
  { unfold raw. rewrite map_map. rewrite <-(map_id urls) at 2. apply map_ext. intros. apply probe_raw_url. }
  assert (forall p, p ∈ raw -> raw_ok chain get p) as Hr.
  { unfold raw. intros p (x & -> & _)%list_elem_of_fmap. apply probe_raw_ok. }
  destruct (healthy_heights raw) as [|h hs] eqn:Hh; apply Ok_inj in H as <-.
  - apply probes_ok_unhealthy; [done|by apply Forall_forall|done].
  - by apply probes_ok_selected.
Qed.

(** C7. Probing never loses or reorders endpoints and selects well: every
    healthy probe is backed by its endpoint's own status for the expected
    chain, its client is open and its lag behind the highest healthy height
    is between zero and the allowed maximum; at most one probe is selected,
    it is healthy and no healthy probe ranks before it; and if any endpoint
    is healthy, one is selected. *)
Theorem probe_rpc_endpoints_ok urls chain lag get elapsed probes :
  0 <= lag -> probe_rpc_endpoints urls chain lag get elapsed = Ok probes ->
  probes_ok urls chain get lag probes.
Proof. apply probe_rpc_endpoints_facts. Qed.

Lemma probe_rpc_endpoints_ok_witness :
  let get u := if String.eqb u "http://a" then Raise (RpcError "down") else Ok (demo_status "pearl-1" 12) in
  exists probes,
    probe_rpc_endpoints ["http://a"; "http://b"] "pearl-1" 10 get (fun _ => f_zero) = Ok probes /\
    probes_ok ["http://a"; "http://b"] "pearl-1" get 10 probes.
Proof.
  intros get. eexists. split; [vm_compute; reflexivity|].
  eapply (probe_rpc_endpoints_ok _ "pearl-1" 10 get (fun _ => f_zero)); [lia|vm_compute; reflexivity].
Defined.

(** Selecting an endpoint never trusts a bad one: when [select_rpc]
    succeeds, the endpoint is a configured one whose status was healthy for
    the expected chain, no healthy endpoint is more than [max_height_lag]
    ahead of it, and the reported finalized tip is one below its height; when
    it fails, it fails with [RpcError]. *)
Theorem select_rpc_sound urls chain lag get elapsed :
  0 <= lag ->
  match select_rpc urls chain lag get elapsed with
  | Raise e => isinstance_RpcError e = true
  | Ok s =>
      exists p, p ∈ sr_probes s /\ pr_url p ∈ urls /\
        endpoint_evidence chain get p (sr_latest_height s) /\
        sr_client s = Some (Client (pr_url p) false) /\
        sr_finalized_tip s = sr_latest_height s - 1 /\
        (forall q h, q ∈ sr_probes s -> pr_healthy q = true -> pr_latest_height q = Some h ->
           h - sr_latest_height s <= lag)
  end.
Proof.
  intros Hlag. unfold select_rpc.
  destruct (probe_rpc_endpoints urls chain lag get elapsed) as [probes|e] eqn:E; cbn [mbind res_bind].
  - destruct (probe_rpc_endpoints_facts urls chain lag get elapsed probes Hlag E) as [Hu Hhe Hse _ _].
    unfold selected_rpc_from_probes. destruct (healthy_heights probes); [done|].
    destruct (List.find pr_selected probes) as [p|] eqn:Ef; [|done].
    apply find_some in Ef as [Hp%list_elem_of_In Hs].
    pose proof Hp as [i Hi]%list_elem_of_lookup. destruct (Hse i p Hi Hs) as [Hhp _].
    destruct (Hhe p Hp Hhp) as (h & lg & Hh & He & Hc & Hl & Hlr & Hmax).
    rewrite Hc, Hh. pose proof He as (payload & st & _ & Hpl & _). rewrite Hpl. simpl.
    exists p. split_and!; try done.
    + rewrite <-Hu. by apply list_elem_of_fmap_2.
    + intros q k Hq Hhq Hk. specialize (Hmax q k Hq Hhq Hk). lia.
  - unfold probe_rpc_endpoints in E. destruct urls; [by simplify_eq|].
    destruct (healthy_heights _); done.
Qed.

Lemma select_rpc_sound_witness :
  match select_rpc ["http://b"] "pearl-1" 10 (fun _ => Ok (demo_status "pearl-1" 12)) (fun _ => f_zero) with
  | Raise _ => False
  | Ok s => sr_finalized_tip s = sr_latest_height s - 1
  end.
Proof.
  pose proof (select_rpc_sound ["http://b"] "pearl-1" 10 (fun _ => Ok (demo_status "pearl-1" 12))
    (fun _ => f_zero) ltac:(lia)) as H.
  destruct (select_rpc _ _ _ _ _) as [s|e] eqn:E; [|vm_compute in E; discriminate E].
  by destruct H as (p & _ & _ & _ & _ & H & _).
Defined.

(** *** Hashes *)

(** The 32 bytes a payload field encodes. *)
Definition hash_bytes (value : val) (b : bytes) : Prop :=
  exists s, value = VStr s /\ s <> "" /\ b64decode s = Ok b /\ length b = 32%nat.

Lemma hash_of_field_Ok value m1 m2 h :
  hash_of_field value m1 m2 = Ok h <-> exists b, hash_bytes value b /\ h = hex_upper b.
Proof.
  unfold hash_of_field, hash_bytes. split.
  - destruct value as [| | | |s| |]; try done.
    destruct (String.eqb_spec s "") as [->|Hs]; [done|]. simpl decode_base64.
    rewrite (proj2 (String.eqb_neq s "") Hs).
    destruct (b64decode s) as [b|e] eqn:E; simpl; [|done].
    destruct (Nat.eqb_spec (length b) 32); simpl; [|done]. intros [= <-]. eauto 10.
  - intros (b & (s & -> & Hs & Hb & Hl) & ->). simpl decode_base64.
    rewrite (proj2 (String.eqb_neq s "") Hs), Hb. simpl. by rewrite Hl.
Qed.

Lemma hash_of_field_Raise value m1 m2 e :
  hash_of_field value m1 m2 = Raise e -> e = RpcContinuityError m1 \/ e = RpcContinuityError m2.
Proof.
  unfold hash_of_field. destruct value as [| | | |s| |]; try (intros [= <-]; by left).
  destruct (String.eqb_spec s "") as [->|Hs]; [intros [= <-]; by left|]. simpl decode_base64.
  destruct (String.eqb_spec s "") as [->|_]; [done|].
  destruct (b64decode s) as [b|e']; simpl; [|intros [= <-]; by right].
  unfold require. destruct (Nat.eqb _ _); simpl; [done|]. intros [= <-]. by right.
Qed.

Definition block_hash_field (payload : val) : res val :=
  r ← py_sub payload "result"; m ← py_sub r "block_meta";
  b ← py_sub m "block_id"; py_sub b "hash".

Lemma except_as_Ok {A} (m : res A) c e a : except_as m c e = Ok a <-> m = Ok a.
Proof. destruct m; simpl; [done|]. split; [|done]. by case_match. Qed.

Lemma except_as_Raise {A} (m : res A) c e x :
  (forall y, m = Raise y -> c y = true) -> except_as m c e = Raise x -> x = e.
Proof. destruct m as [a|y]; simpl; [done|]. intros H. rewrite (H y eq_refl). congruence. Qed.

Lemma block_hash_field_error payload e :
  block_hash_field payload = Raise e -> isinstance_KeyError e || isinstance_TypeError e = true.
Proof.
  unfold block_hash_field. intros H.
  repeat (apply bind_Raise in H as [H|(? & _ & H)]; [by apply py_sub_error in H as [-> | ->]|]).
  by apply py_sub_error in H as [-> | ->].
Qed.

Lemma canonical_block_hash_hex_Ok payload h :
  canonical_block_hash_hex payload = Ok h <->
  exists v b, block_hash_field payload = Ok v /\ hash_bytes v b /\ h = hex_upper b.
Proof.
  unfold canonical_block_hash_hex. fold (block_hash_field payload). rewrite bind_Ok.
  setoid_rewrite except_as_Ok. setoid_rewrite hash_of_field_Ok. naive_solver.
Qed.

Lemma canonical_block_hash_hex_Raise payload e :
  canonical_block_hash_hex payload = Raise e -> isinstance_RpcContinuityError e = true.
Proof.
  unfold canonical_block_hash_hex. fold (block_hash_field payload). rewrite bind_Raise.
  intros [H|(v & _ & H)].
  - apply except_as_Raise in H as ->; [done|]. apply block_hash_field_error.
  - by apply hash_of_field_Raise in H as [-> | ->].
Qed.

(** The checkpoint-anchor check passes exactly when the endpoint's block
    at the checkpoint height carries, as base64, the same 32 bytes that the
    stored text spells in hexadecimal (in either letter case); in every other
    case in which the endpoint answers with a payload or an [RpcError], the
    check raises [RpcContinuityError], so a forked endpoint is never accepted. *)
Theorem verify_checkpoint_anchor_iff `{PyRuntime} get height expected :
  (verify_checkpoint_anchor get height expected = Ok tt <->
   exists payload v b,
     get "block" height = Ok payload /\ block_hash_field payload = Ok v /\ hash_bytes v b /\
     String.length expected = 64%nat /\ bytes_fromhex expected = Ok b) /\
  ((forall e, get "block" height = Raise e -> isinstance_RpcError e = true) ->
   forall e, verify_checkpoint_anchor get height expected = Raise e ->
     isinstance_RpcContinuityError e = true).
Proof.
  unfold verify_checkpoint_anchor. split.
  - split.
    + intros Hv. inv_res. apply except_as_Ok in Ha0, Ha1. inv_res.
      apply String.eqb_eq in Hv.
      apply canonical_block_hash_hex_Ok in Ha1 as (v & b & Hf & Hb & ->).
      exists a2, v, b. pose proof Hb as (s & _ & _ & _ & Hlen).
      assert (is_Ok (bytes_fromhex expected) = true) as Hok by (by rewrite Ha0).
      destruct (proj1 (fromhex_hash expected b Hlen)); [|done]. split_and!; [lia|done|done].
    + intros (payload & v & b & Hg & Hf & Hb & Hl & Hx).
      pose proof Hb as (s & _ & _ & _ & Hlen).
      destruct (proj2 (fromhex_hash expected b Hlen) (conj Hl Hx)) as (H1 & _ & H3).
      rewrite H1. simpl. rewrite Hx, Hg. simpl.
      rewrite (proj2 (canonical_block_hash_hex_Ok payload (hex_upper b))) by eauto. simpl.
      by rewrite H3, String.eqb_refl.
  - intros Hget e. rewrite bind_Raise. intros [Hr|(u & _ & Hr)].
    { unfold require in Hr. by case_match; simplify_eq. }
    apply bind_Raise in Hr as [Hr|(b & _ & Hr)].
    { apply except_as_Raise in Hr as ->; [done|]. apply bytes_fromhex_Raise. }
    apply bind_Raise in Hr as [Hr|(h & _ & Hr)].
    { unfold except_as in Hr.
      destruct (get "block" height) as [payload|e'] eqn:Eg; cbn [mbind res_bind] in Hr.
      - destruct (canonical_block_hash_hex payload) as [|y] eqn:Ec; [done|].
        apply canonical_block_hash_hex_Raise in Ec. rewrite Ec in Hr.
        rewrite andb_false_r in Hr. by simplify_eq.
      - specialize (Hget e' eq_refl). rewrite Hget in Hr. simpl in Hr.
        destruct (isinstance_RpcContinuityError e') eqn:E'; simpl in Hr; by simplify_eq. }
    unfold require in Hr. by case_match; simplify_eq.
Qed.
