(* ===== verification/Summary.v ===== *)
(** * indexer/transaction_summary.py: the bounded transaction summary

    The chain-neutral summary stored with every transaction.  A summary is a
    dict; [summary] is the record of the fields of the TypedDict and
    [summary_val] the dict it stands for.  [normalize_summary] accepts any
    value and returns either a normalized summary or the generic one. *)
From Stdlib Require Import ZArith NArith Lia Ascii String SpecFloat.
From stdpp Require Import base gmap sets list strings sorting.
From S2P Require Import Prelude PyStr PyVal Codec.
Open Scope Z_scope.

Definition SCHEMA_VERSION : Z := 1.
Definition MAX_MESSAGES : nat := 20.
Definition MAX_LABEL_LENGTH : Z := 80.
Definition MAX_TYPE_LENGTH : Z := 160.
Definition MAX_TOKEN_LENGTH : Z := 64.
Definition MAX_MESSAGE_FIELDS : nat := 17.
Definition MAX_VALUE_LENGTH : Z := 160.
Definition MAX_PACKAGE_PATH_LENGTH : Z := 256.
Definition MAX_SUMMARY_BYTES : Z := 16384.
Definition MAX_INTEGER_BITS : Z := 256.
Definition MAX_MESSAGE_COUNT : Z := 100000.

Definition PARSE_STATUSES : list string := ["unparsed"; "parsed"; "unsupported"; "invalid"].
Definition REQUIRED_FIELDS : list string :=
  ["schema_version"; "chain_family"; "parse_status"; "message_count"; "messages_truncated";
   "primary"; "messages"].
Definition REQUIRED_PRIMARY_FIELDS : list string := ["type"; "category"; "action"; "label"].
Definition FORBIDDEN_KEY_PARTS : list string :=
  ["base64"; "signature"; "raw_transaction"; "raw_tx"; "decoded_bytes"].

(** [class TransactionSummary] with its [PrimarySummary]. *)
Record summary := Summary {
  sm_chain_family : string;
  sm_parse_status : string;
  sm_message_count : option Z;
  sm_messages_truncated : bool;
  sm_type : string;
  sm_category : string;
  sm_action : string;
  sm_label : string;
  sm_messages : list (list (string * val))
}.

Definition summary_val (s : summary) : val :=
  VDict [("schema_version", VInt SCHEMA_VERSION);
         ("chain_family", VStr (sm_chain_family s));
         ("parse_status", VStr (sm_parse_status s));
         ("message_count", match sm_message_count s with Some c => VInt c | None => VNone end);
         ("messages_truncated", VBool (sm_messages_truncated s));
         ("primary", VDict [("type", VStr (sm_type s)); ("category", VStr (sm_category s));
                            ("action", VStr (sm_action s)); ("label", VStr (sm_label s))]);
         ("messages", VList (map VDict (sm_messages s)))].

Definition generic_record (parse_status : string) : summary :=
  Summary "unknown" (if in_strs parse_status PARSE_STATUSES then parse_status else "unparsed")
    None false "unknown" "unknown" "unknown" "Transaction" [].
Definition generic_summary (parse_status : string) : val := summary_val (generic_record parse_status).

Section runtime.
Context `{PyRuntime}.

Definition is_printable_char (g : string) : bool := is_printable_cp (code_point g).

(** [_text(value, limit)] *)
Definition text_chars (s : string) : list string :=
  List.filter is_printable_char (chars (py_strip s)).
Definition text (value : val) (limit : Z) : res string :=
  match value with
  | VStr s =>
      let printable := str_concat (text_chars s) in
      _ ← raise_if (String.eqb printable "") (ValueError "summary text must not be empty");
      Ok (py_take limit printable)
  | _ => Raise (ValueError "summary text must be a string")
  end.

Definition json_compact : json_opts := Build_json_opts false false "," ":" false.
Definition summary_size_bytes (v : val) : res Z :=
  s ← json_dumps json_compact v; Ok (Z.of_nat (String.length s)).

Definition forbidden_key (key : string) : bool :=
  existsb (fun part => py_contains part (py_lower key)) FORBIDDEN_KEY_PARTS.

Definition text_limit (safe_key : string) : Z :=
  if String.eqb safe_key "type" then MAX_TYPE_LENGTH
  else if String.eqb safe_key "label" then MAX_LABEL_LENGTH
  else if String.eqb safe_key "package_path" then MAX_PACKAGE_PATH_LENGTH
  else MAX_VALUE_LENGTH.

(** One field of a message; [complete] is
    [message.get("package_path_complete") is True]. *)
Definition normalize_value (complete : bool) (safe_key : string) (value : val) : res val :=
  match value with
  | VStr s =>
      t ← text value (text_limit safe_key);
      _ ← raise_if (String.eqb safe_key "package_path" && complete && negb (String.eqb t s))
            (ValueError "complete package path must not be altered");
      Ok (VStr t)
  | VNone | VBool _ => Ok value
  | VInt z => _ ← raise_if (2 ^ MAX_INTEGER_BITS <=? Z.abs z) (ValueError "message integer exceeds size limit");
              Ok value
  | VFloat f => _ ← require (isfinite f) (ValueError "message values must be JSON-safe scalars");
                Ok value
  | VList _ | VDict _ => Raise (ValueError "message values must be JSON-safe scalars")
  end.

Definition normalize_field (complete : bool) (acc : list (string * val)) (kv : string * val)
    : res (list (string * val)) :=
  _ ← raise_if (forbidden_key kv.1) (ValueError "unsafe message field");
  safe_key ← text (VStr kv.1) MAX_TOKEN_LENGTH;
  _ ← raise_if (dict_has safe_key acc) (ValueError "message keys collide after normalization");
  value ← normalize_value complete safe_key kv.2;
  Ok (dict_set safe_key value acc).

Definition normalize_message (message : val) : res (list (string * val)) :=
  match message with
  | VDict items =>
      _ ← raise_if (Nat.ltb MAX_MESSAGE_FIELDS (length items)) (ValueError "invalid message summary");
      let complete := is_True (dget items "package_path_complete") in
      out ← foldM_res (normalize_field complete) [] items;
      if dict_has "package_path_complete" items then
        _ ← require (is_bool (dget items "package_path_complete") && dict_has "package_path" out)
              (ValueError "invalid package path completeness marker");
        Ok out
      else Ok out
  | _ => Raise (ValueError "invalid message summary")
  end.

(** [normalized["messages"].pop(); normalized["messages_truncated"] = True] *)
Definition pop_message (s : summary) : summary :=
  Summary (sm_chain_family s) (sm_parse_status s) (sm_message_count s) true (sm_type s)
    (sm_category s) (sm_action s) (sm_label s) (take (pred (length (sm_messages s))) (sm_messages s)).

(** The size loop: one iteration per message is enough. *)
Fixpoint shrink (fuel : nat) (s : summary) : res summary :=
  match fuel, sm_messages s with
  | S f, _ :: _ =>
      size ← summary_size_bytes (summary_val s);
      if MAX_SUMMARY_BYTES <? size then shrink f (pop_message s) else Ok s
  | _, _ => Ok s
  end.

Definition check_count (count : val) : res (option Z) :=
  match count with
  | VNone => Ok None
  | VInt c => _ ← require ((0 <=? c) && (c <=? MAX_MESSAGE_COUNT)) (ValueError "invalid message count");
              Ok (Some c)
  | _ => Raise (ValueError "invalid message count")
  end.

Definition normalize_body (candidate : val) : res summary :=
  match candidate with
  | VDict c =>
      _ ← require (forallb (fun k => dict_has k c) REQUIRED_FIELDS) (ValueError "missing summary fields");
      let ps := dget c "parse_status" in
      _ ← require (py_eq (dget c "schema_version") (VInt SCHEMA_VERSION))
            (ValueError "unsupported summary version or status");
      known ← py_in_set ps (map VStr PARSE_STATUSES);
      _ ← require known (ValueError "unsupported summary version or status");
      match dget c "messages_truncated" with
      | VBool truncated =>
          count ← check_count (dget c "message_count");
          match dget c "primary" with
          | VDict primary =>
              _ ← require (forallb (fun k => dict_has k primary) REQUIRED_PRIMARY_FIELDS)
                    (ValueError "invalid primary summary");
              match dget c "messages" with
              | VList messages =>
                  _ ← raise_if (match count with Some n => n <? Z.of_nat (length messages) | None => false end)
                        (ValueError "message count is smaller than supplied messages");
                  normalized ← mapM_res normalize_message (take MAX_MESSAGES messages);
                  family ← text (dget c "chain_family") MAX_TOKEN_LENGTH;
                  ty ← text (dget primary "type") MAX_TYPE_LENGTH;
                  category ← text (dget primary "category") MAX_TOKEN_LENGTH;
                  action ← text (dget primary "action") MAX_TOKEN_LENGTH;
                  label ← text (dget primary "label") MAX_LABEL_LENGTH;
                  let s := Summary family (default "" (as_str ps)) count
                    (truncated || Nat.ltb MAX_MESSAGES (length messages)
                     || match count with Some n => Z.of_nat (length normalized) <? n | None => false end)
                    ty category action label normalized in
                  s' ← shrink (length normalized) s;
                  size ← summary_size_bytes (summary_val s');
                  _ ← raise_if (MAX_SUMMARY_BYTES <? size) (ValueError "summary exceeds total size limit");
                  Ok s'
              | _ => Raise (ValueError "invalid messages")
              end
          | _ => Raise (ValueError "invalid primary summary")
          end
      | _ => Raise (ValueError "invalid truncation marker")
      end
  | _ => Raise (ValueError "missing summary fields")
  end.

(** [except (KeyError, TypeError, ValueError): return generic_summary(...)] *)
Definition normalize_record (candidate : val) (fallback_status : string) : res summary :=
  match normalize_body candidate with
  | Ok s => Ok s
  | Raise e => if isinstance_KeyError e || isinstance_TypeError e || isinstance_ValueError e
               then Ok (generic_record fallback_status) else Raise e
  end.
Definition normalize_summary (candidate : val) (fallback_status : string) : res val :=
  summary_val <$> normalize_record candidate fallback_status.
End runtime.

(** ** Properties *)

(** The exceptions [normalize_summary] turns into the generic summary. *)
Definition caught (e : exc) : bool := isinstance_KeyError e || isinstance_TypeError e || isinstance_ValueError e.

Lemma ValueError_caught e : isinstance_ValueError e = true -> caught e = true.
Proof. unfold caught. intros ->. apply orb_true_r. Qed.
#[export] Hint Resolve ValueError_caught : raises.

(** What every normalized summary satisfies. *)
Definition text_ok (limit : Z) (s : string) : Prop := s <> "" /\ py_len s <= limit.
Definition field_ok (kv : string * val) : Prop :=
  text_ok MAX_TOKEN_LENGTH kv.1 /\
  match kv.2 with
  | VStr s => text_ok (text_limit kv.1) s
  | VNone | VBool _ => True
  | VInt z => Z.abs z < 2 ^ MAX_INTEGER_BITS
  | VFloat f => isfinite f = true
  | VList _ | VDict _ => False
  end.
Definition message_ok (m : list (string * val)) : Prop :=
  (length m <= MAX_MESSAGE_FIELDS)%nat /\ NoDup (dict_keys m) /\ Forall field_ok m.
Record summary_ok `{PyRuntime} (s : summary) : Prop := {
  so_status : sm_parse_status s ∈ PARSE_STATUSES;
  so_family : text_ok MAX_TOKEN_LENGTH (sm_chain_family s);
  so_type : text_ok MAX_TYPE_LENGTH (sm_type s);
  so_category : text_ok MAX_TOKEN_LENGTH (sm_category s);
  so_action : text_ok MAX_TOKEN_LENGTH (sm_action s);
  so_label : text_ok MAX_LABEL_LENGTH (sm_label s);
  so_count : forall n, sm_message_count s = Some n ->
    Z.of_nat (length (sm_messages s)) <= n <= MAX_MESSAGE_COUNT;
  so_messages : (length (sm_messages s) <= MAX_MESSAGES)%nat;
  so_message : Forall message_ok (sm_messages s);
  so_size : exists n, summary_size_bytes (summary_val s) = Ok n /\ n <= MAX_SUMMARY_BYTES
}.

Section proofs.
Context `{PyRuntime}.

Lemma text_raises v n : raises caught (text v n).
Proof. unfold text. solve_raises. Qed.
Lemma summary_size_raises v : raises caught (summary_size_bytes v).
Proof.
  unfold summary_size_bytes. apply raises_bind; [|done].
  eapply raises_impl; [apply ValueError_caught|apply json_dumps_raises].
Qed.
Hint Resolve text_raises summary_size_raises : raises.

Lemma normalize_value_raises c k v : raises caught (normalize_value c k v).
Proof. unfold normalize_value. solve_raises. Qed.
Hint Resolve normalize_value_raises : raises.
Lemma normalize_message_raises m : raises caught (normalize_message m).
Proof. unfold normalize_message, normalize_field. solve_raises. Qed.
Lemma shrink_raises n s : raises caught (shrink n s).
Proof. revert s. induction n as [|n IH]; intros s; simpl; solve_raises. Qed.
Hint Resolve normalize_message_raises shrink_raises : raises.
Lemma normalize_body_raises v : raises caught (normalize_body v).
Proof. unfold normalize_body, check_count, py_in_set. solve_raises. Qed.

(** [normalize_summary] never raises. *)
Lemma normalize_record_total v f : exists s, normalize_record v f = Ok s.
Proof.
  pose proof (normalize_body_raises v) as Hr. unfold normalize_record.
  destruct (normalize_body v); [eauto|]. simpl in Hr. unfold caught in Hr. rewrite Hr. eauto.
Qed.

Lemma text_Ok v n t : 1 <= n -> text v n = Ok t -> text_ok n t.
Proof.
  intros Hn. unfold text. destruct v as [| | | |s| |]; try done. intros Ht. inv_res.
  apply String.eqb_neq in Ha. split; [|apply py_len_take; lia]. by apply py_take_nonempty.
Qed.

Lemma text_limit_pos k : 1 <= text_limit k.
Proof. unfold text_limit. repeat case_match; vm_compute; congruence. Qed.

Lemma normalize_value_Ok c k v v' :
  text_ok MAX_TOKEN_LENGTH k -> normalize_value c k v = Ok v' -> field_ok (k, v').
Proof.
  intros Hk. unfold normalize_value, field_ok. destruct v; intros Hv; inv_res; simpl; try done.
  - split; [done|]. lia.
  - split; [done|]. eapply text_Ok; [apply text_limit_pos|done].
Qed.

Lemma normalize_fields_Ok c items acc out :
  foldM_res (normalize_field c) acc items = Ok out ->
  NoDup (dict_keys acc) -> Forall field_ok acc ->
  length out = (length acc + length items)%nat /\ NoDup (dict_keys out) /\ Forall field_ok out.
Proof.
  revert acc. induction items as [|[k v] items IH]; intros acc; cbn [foldM_res].
  { intros [= <-] ? ?. split; [simpl; lia|done]. }
  intros (acc' & Hf & Hrest)%bind_Ok Hn Ho. unfold normalize_field in Hf. inv_res.
  simpl fst in *; simpl snd in *. apply text_Ok in Ha0; [|vm_compute; congruence].
  assert (field_ok (a0, a2)) as Hfo by (eapply normalize_value_Ok; eauto).
  destruct (IH _ Hrest) as (Hl & H1 & H2).
  - by apply NoDup_dict_set.
  - rewrite dict_set_fresh by done. apply Forall_app. split; [done|]. by apply Forall_singleton.
  - split; [|done]. rewrite Hl, dict_set_fresh by done. rewrite length_app. simpl. lia.
Qed.

Lemma normalize_message_Ok m out : normalize_message m = Ok out -> message_ok out.
Proof.
  unfold normalize_message. destruct m as [| | | | | |items]; try done. intros Hm. inv_res.
  apply Nat.ltb_ge in Ha.
  destruct (normalize_fields_Ok _ _ _ _ Ha0) as (Hl & H1 & H2); [constructor|constructor|].
  simpl in Hl. case_match; inv_res; repeat split; try done; lia.
Qed.

(** [shrink] drops trailing messages and records that it did. *)
Record shrunk (s s' : summary) : Prop := {
  sh_prefix : exists k, sm_messages s' = take k (sm_messages s);
  sh_rest : s' = Summary (sm_chain_family s) (sm_parse_status s) (sm_message_count s)
    (sm_messages_truncated s') (sm_type s) (sm_category s) (sm_action s) (sm_label s) (sm_messages s');
  sh_truncated : sm_messages_truncated s' = false ->
    sm_messages_truncated s = false /\ sm_messages s' = sm_messages s
}.
Lemma shrunk_refl s : shrunk s s.
Proof. split; [|by destruct s|done]. exists (length (sm_messages s)). by rewrite take_ge. Qed.
Lemma shrink_Ok n s s' : shrink n s = Ok s' -> shrunk s s'.
Proof.
  revert s. induction n as [|n IH]; intros s; simpl.
  { intros [= <-]. apply shrunk_refl. }
  destruct (sm_messages s) as [|m ms] eqn:Em; [intros [= <-]; apply shrunk_refl|].
  intros Hs. apply bind_Ok in Hs as (size & _ & Hs).
  destruct (MAX_SUMMARY_BYTES <? size); [|injection Hs as <-; apply shrunk_refl].
  destruct (IH _ Hs) as [[k Hk] Hr Ht]. split.
  - rewrite Hk. simpl. rewrite Em. simpl pred. rewrite take_take. eauto.
  - rewrite Hr at 1. done.
  - intros H1. apply Ht in H1 as [H1 _]. done.
Qed.

Lemma check_count_Ok v o : check_count v = Ok o ->
  forall n, o = Some n -> 0 <= n <= MAX_MESSAGE_COUNT.
Proof. unfold check_count. destruct v; intros Hv n ->; inv_res; try done. lia. Qed.

Lemma known_status ps known :
  py_in_set ps (map VStr PARSE_STATUSES) = Ok known -> known = true ->
  default "" (as_str ps) ∈ PARSE_STATUSES.
Proof.
  unfold py_in_set. intros Hk ->. destruct (hashable ps); [|done].
  apply Ok_inj, existsb_exists in Hk as (v & Hv & Heq).
  apply in_map_iff in Hv as (t & <- & Ht). apply py_eq_str in Heq as ->. simpl.
  by apply list_elem_of_In.
Qed.

(** The successful path of [normalize_summary]. *)
Record body_facts (v : val) (s : summary) : Prop := {
  bf_messages : exists c ms normalized,
    v = VDict c /\ dget c "messages" = VList ms /\
    mapM_res normalize_message (take MAX_MESSAGES ms) = Ok normalized /\
    (exists k, sm_messages s = take k normalized) /\
    (forall n, sm_message_count s = Some n -> Z.of_nat (length ms) <= n) /\
    (sm_messages_truncated s = false ->
       sm_messages s = normalized /\ (length ms <= MAX_MESSAGES)%nat /\
       (forall n, sm_message_count s = Some n -> n <= Z.of_nat (length normalized)));
  bf_ok : summary_ok s
}.

Lemma normalize_body_Ok v s : normalize_body v = Ok s -> body_facts v s.
Proof.
  unfold normalize_body. destruct v as [| | | | | |c]; try done. intros Hb.
  inv_res. destruct (dget c "messages_truncated") as [|truncated| | | | |]; try done.
  inv_res. destruct (dget c "primary") as [| | | | | |primary]; try done.
  inv_res. destruct (dget c "messages") as [| | | | |ms|] eqn:Ems; try done.
  inv_res. rename a6 into normalized, Ha6 into Hnorm, Ha12 into Hsh.
  apply shrink_Ok in Hsh as [[k Hk] Hr Ht].
  simpl sm_messages in *. simpl sm_messages_truncated in *.
  pose proof (check_count_Ok _ _ Ha3) as Hcount.
  pose proof (mapM_res_length _ _ _ Hnorm) as Hlen. rewrite length_take in Hlen.
  assert (Hcms : forall n, sm_message_count s = Some n ->
    a3 = Some n /\ Z.of_nat (length ms) <= n).
  { rewrite Hr. simpl. intros n ->. split; [done|]. lia. }
  assert (Hkl : (length (sm_messages s) <= length normalized)%nat).
  { rewrite Hk, length_take. lia. }
  split.
  - exists c, ms, normalized. split_and!; try done; [eauto|naive_solver|].
    intros Htr. destruct (Ht Htr) as [[[_ Hm]%orb_false_iff Hc]%orb_false_iff Hms].
    apply Nat.ltb_ge in Hm. split_and!; [done|done|]. intros n [-> _]%Hcms. lia.
  - split; try (rewrite Hr; simpl; by apply text_Ok || (eapply text_Ok; [|eassumption]; vm_compute; congruence)).
    + rewrite Hr. simpl. by eapply known_status.
    + intros n Hn. destruct (Hcms n Hn) as [-> Hge]. specialize (Hcount n eq_refl). lia.
    + lia.
    + rewrite Hk. apply Forall_take, mapM_res_Forall2 in Hnorm || apply Forall_take.
      apply Forall_forall. intros m Hm. apply mapM_res_Forall2 in Hnorm.
      apply list_elem_of_lookup in Hm as [i Hm].
      destruct (Forall2_lookup_r _ _ _ _ _ Hnorm Hm) as (x & _ & Hx).
      by eapply normalize_message_Ok.
    + eexists. split; [eassumption|]. lia.
Qed.

Lemma generic_record_ok f : summary_ok (generic_record f).
Proof.
  unfold generic_record. destruct (in_strs f PARSE_STATUSES) eqn:E.
  - apply in_strs_spec in E. unfold PARSE_STATUSES in E.
    repeat (apply elem_of_cons in E as [-> | E];
      [split; simpl; try (split; [done|vm_compute; congruence]); try done;
       [vm_compute; set_solver|lia|eexists; split; [vm_compute; reflexivity|vm_compute; congruence]]|]).
    by apply elem_of_nil in E.
  - split; simpl; try (split; [done|vm_compute; congruence]); try done;
      [vm_compute; set_solver|lia|eexists; split; [vm_compute; reflexivity|vm_compute; congruence]].
Qed.
End proofs.

(** C8. Whatever an adapter returns, [normalize_summary] never raises and its
    result is a well-formed bounded summary: a known status, non-empty texts
    within their limits, at most twenty messages of at most seventeen
    distinct non-empty fields holding only bounded scalars, a message count
    that covers the kept messages, and at most 16384 bytes of compact JSON. *)
Theorem normalize_summary_bounded `{PyRuntime} candidate fallback :
  exists s, normalize_summary candidate fallback = Ok (summary_val s) /\ summary_ok s.
Proof.
  unfold normalize_summary, normalize_record.
  pose proof (normalize_body_raises candidate) as Hr.
  destruct (normalize_body candidate) as [s|e] eqn:E.
  - exists s. split; [done|]. by apply (normalize_body_Ok candidate).
  - simpl in Hr. unfold caught in Hr. rewrite Hr. exists (generic_record fallback).
    split; [done|apply generic_record_ok].
Qed.

(** Dropped messages are never silent: when a summary is accepted and not
    marked as truncated, it holds the normalization of every message the
    adapter supplied, in order, and its message count, if given, is exactly
    their number; when messages were dropped, what is kept is a prefix. *)
Theorem normalize_summary_truncation `{PyRuntime} candidate s :
  normalize_body candidate = Ok s ->
  exists c ms normalized,
    candidate = VDict c /\ dget c "messages" = VList ms /\
    mapM_res normalize_message (take MAX_MESSAGES ms) = Ok normalized /\
    (exists k, sm_messages s = take k normalized) /\
    (sm_messages_truncated s = false ->
       sm_messages s = normalized /\ length normalized = length ms /\
       (sm_message_count s = None \/ sm_message_count s = Some (Z.of_nat (length ms)))).
Proof.
  intros Hb. destruct (normalize_body_Ok _ _ Hb) as [(c & ms & normalized & -> & Hms & Hn & Hk & Hc & Ht) _].
  exists c, ms, normalized. split_and!; try done. intros Htr.
  destruct (Ht Htr) as (H1 & H2 & H3). pose proof (mapM_res_length _ _ _ Hn) as Hl.
  rewrite length_take in Hl. split_and!; [done|lia|].
  destruct (sm_message_count s) as [n|]; [right|by left].
  specialize (Hc n eq_refl). specialize (H3 n eq_refl). f_equal. lia.
Qed.

Definition demo_summary (messages : list val) : val :=
  VDict [("schema_version", VInt 1); ("chain_family", VStr "gno"); ("parse_status", VStr "parsed");
         ("message_count", VInt (Z.of_nat (length messages))); ("messages_truncated", VBool false);
         ("primary", VDict [("type", VStr "t"); ("category", VStr "c"); ("action", VStr "a"); ("label", VStr "l")]);
         ("messages", VList messages)].

Lemma normalize_summary_truncation_witness :
  exists s, @normalize_body ascii_runtime (demo_summary [VDict [("type", VStr " m ")]]) = Ok s /\
    sm_messages_truncated s = false /\ length (sm_messages s) = 1%nat.
Proof.
  eexists. split; [vm_compute; reflexivity|]. split; [reflexivity|].
  destruct (@normalize_summary_truncation ascii_runtime (demo_summary [VDict [("type", VStr " m ")]]) _
    ltac:(vm_compute; reflexivity)) as (c & ms & normalized & _ & _ & _ & _ & _). reflexivity.
Defined.

(** ** What the code does not guarantee *)

(** The forbidden-key check sees the key before non-printable characters are
    removed: a key with a control character inside a forbidden name passes it
    and is stored under the forbidden name. *)
Definition hidden_key : string := "raw" +:+ String (Z_byte 1) "_tx".
Lemma forbidden_key_bypass :
  @normalize_message ascii_runtime (VDict [(hidden_key, VStr "AAAA")]) = Ok [("raw_tx", VStr "AAAA")]
  /\ forbidden_key (H:=ascii_runtime) "raw_tx" = true.
Proof. split; vm_compute; reflexivity. Qed.

(** Stripping before removing non-printable characters leaves spaces at the
    ends, so normalizing a normalized summary may change or reject it. *)
Definition padded_value : string := "a " +:+ String (Z_byte 1) "".
Lemma normalize_message_not_idempotent :
  @normalize_message ascii_runtime (VDict [("k", VStr padded_value)]) = Ok [("k", VStr "a ")]
  /\ @normalize_message ascii_runtime (VDict [("k", VStr "a ")]) = Ok [("k", VStr "a")].
Proof. split; vm_compute; reflexivity. Qed.
