(* ===== verification/Participants.v ===== *)
(** * api/network_profile.py and indexer/transaction_participants.py

    Strict bech32 account addresses of a network profile, and the sender and
    recipient rows derived from a normalized transaction summary. *)
From Stdlib Require Import ZArith NArith Lia Ascii String SpecFloat.
From stdpp Require Import base gmap sets list strings sorting.
From S2P Require Import Prelude PyStr PyVal Codec Summary.
Open Scope Z_scope.

(** ** Bech32 *)
Definition BECH32_CHARSET : string := "qpzry9x8gf2tvdw0s3jn54khce6mua7l".

Record NetworkProfile := {
  chain_family : string;
  chain_id : string;
  account_hrp : string;
  account_payload_length : Z;
  native_denom : string;
  native_symbol : string;
  native_decimals : Z
}.
Definition gno_profile (chain_id : string) : NetworkProfile :=
  Build_NetworkProfile "gno" chain_id "g" 20 "ugnot" "GNOT" 6.

Definition generators : list Z := [996825010; 642813549; 513874426; 1027748829; 705979059].

Definition apply_generators (top checksum : Z) : Z :=
  foldl (fun c ig => if Z.land (Z.shiftr top (Z.of_nat ig.1)) 1 =? 1 then Z.lxor c ig.2 else c)
    checksum (enumerate generators).
Definition polymod_step (checksum value : Z) : Z :=
  let top := Z.shiftr checksum 25 in
  apply_generators top (Z.lxor (Z.shiftl (Z.land checksum 33554431) 5) value).
Definition polymod (values : list Z) : Z := foldl polymod_step 1 values.

Definition expand_hrp (hrp : string) : list Z :=
  let ords := map code_point (chars hrp) in
  map (fun c => Z.shiftr c 5) ords ++ [0] ++ map (fun c => Z.land c 31) ords.

(** The inner [while bits >= to_bits] loop; [fuel] bounds its iterations. *)
Fixpoint emit_bits (fuel : nat) (to_bits accumulator bits : Z) (output : list Z) : Z * list Z :=
  match fuel with
  | S f =>
      if to_bits <=? bits then
        let bits := bits - to_bits in
        emit_bits f to_bits accumulator bits
          (output ++ [Z.land (Z.shiftr accumulator bits) (Z.shiftl 1 to_bits - 1)])
      else (bits, output)
  | O => (bits, output)
  end.
Record bits_state := { bs_acc : Z; bs_bits : Z; bs_out : list Z }.
Definition convert_step (from_bits to_bits : Z) (s : bits_state) (value : Z) : option bits_state :=
  if (value <? 0) || negb (Z.shiftr value from_bits =? 0) then None
  else
    let acc := Z.lor (Z.shiftl (bs_acc s) from_bits) value in
    let bits := bs_bits s + from_bits in
    let '(bits', out) := emit_bits (Z.to_nat bits) to_bits acc bits (bs_out s) in
    Some (Build_bits_state acc bits' out).
Fixpoint convert_loop (from_bits to_bits : Z) (s : bits_state) (values : list Z) : option bits_state :=
  match values with
  | [] => Some s
  | v :: values' => s' ← convert_step from_bits to_bits s v; convert_loop from_bits to_bits s' values'
  end.
Definition convert_bits (values : list Z) (from_bits to_bits : Z) (pad : bool) : option (list Z) :=
  s ← convert_loop from_bits to_bits (Build_bits_state 0 0 []) values;
  let last := Z.land (Z.shiftl (bs_acc s) (to_bits - bs_bits s)) (Z.shiftl 1 to_bits - 1) in
  if pad && negb (bs_bits s =? 0) then Some (bs_out s ++ [last])
  else if (from_bits <=? bs_bits s) || negb (last =? 0) then None
  else Some (bs_out s).

(** [charset.index(c)] *)
Fixpoint char_index (g : string) (l : list string) : option Z :=
  match l with
  | [] => None
  | h :: l' => if String.eqb g h then Some 0 else Z.succ <$> char_index g l'
  end.
Definition bech32_value (g : string) : option Z := char_index g (chars BECH32_CHARSET).

(** [s.rfind("1")] over the characters; [-1] when absent. *)
Fixpoint rfind_char (g : string) (i : Z) (l : list string) : Z :=
  match l with
  | [] => -1
  | h :: l' => let r := rfind_char g (i + 1) l' in
               if r =? -1 then (if String.eqb g h then i else -1) else r
  end.

Fixpoint all_some {A} (l : list (option A)) : option (list A) :=
  match l with
  | [] => Some []
  | x :: l' => a ← x; r ← all_some l'; Some (a :: r)
  end.

(** The checks on the text after its characters are known to be printable ASCII. *)
Definition check_bech32 (cs : list string) (profile : NetworkProfile) : bool :=
  let separator := rfind_char "1" 0 cs in
  if (separator <? 1) || (Z.of_nat (length cs) <? separator + 7)
     || negb (String.eqb (str_concat (take (Z.to_nat separator) cs)) (account_hrp profile)) then false
  else
    match all_some (map bech32_value (drop (Z.to_nat (separator + 1)) cs)) with
    | None => false
    | Some values =>
        if negb (polymod (expand_hrp (account_hrp profile) ++ values) =? 1) then false
        else match convert_bits (take (length values - 6) values) 5 8 false with
             | None => false
             | Some payload => Z.of_nat (length payload) =? account_payload_length profile
             end
    end.

Section runtime.
Context `{PyRuntime}.

Definition validate_account_address (address : string) (profile : NetworkProfile) : bool :=
  if negb ((8 <=? py_len address) && (py_len address <=? 90))
     || negb (String.eqb address (py_lower address)) then false
  else if existsb (fun g => (code_point g <? 33) || (126 <? code_point g)) (chars address) then false
  else check_bech32 (chars address) profile.

(** ** Participants *)
Record TransactionParticipant := {
  tp_message_index : nat;
  tp_role : string;
  tp_address : string
}.
Definition participant_leb (a b : TransactionParticipant) : bool :=
  if Nat.eqb (tp_message_index a) (tp_message_index b) then
    if String.eqb (tp_role a) (tp_role b) then str_leb (tp_address a) (tp_address b)
    else str_ltb (tp_role a) (tp_role b)
  else Nat.ltb (tp_message_index a) (tp_message_index b).

Definition message_participants (index : nat) (message : list (string * val)) : list TransactionParticipant :=
  omap (fun role => match dget message role with
                    | VStr a => if validate_account_address a (gno_profile "")
                                then Some (Build_TransactionParticipant index role a) else None
                    | _ => None
                    end) ["sender"; "recipient"].

(** The loop over the messages; a message that is not a dict ends it with []. *)
Fixpoint collect_participants (index : nat) (messages : list val) : option (list TransactionParticipant) :=
  match messages with
  | [] => Some []
  | VDict m :: rest => r ← collect_participants (S index) rest; Some (message_participants index m ++ r)
  | _ :: _ => None
  end.

#[export] Instance participant_eq_dec : EqDecision TransactionParticipant.
Proof. solve_decision. Defined.

Definition extract_transaction_participants (summary : val) : list TransactionParticipant :=
  match summary with
  | VDict s =>
      if negb (py_eq (dget s "parse_status") (VStr "parsed")) then []
      else match dget s "messages" with
           | VList messages =>
               if Nat.ltb MAX_MESSAGES (length messages) then []
               else match collect_participants 0 messages with
                    | None => []
                    | Some found => sort_by participant_leb (dedup found)
                    end
           | _ => []
           end
  | _ => []
  end.
End runtime.

(** ** Properties *)

(** *** The checksum step is injective in the running checksum *)
Lemma lxor_bound n a b : 0 <= n -> 0 <= a < 2 ^ n -> 0 <= b < 2 ^ n -> 0 <= Z.lxor a b < 2 ^ n.
Proof.
  intros Hn Ha Hb.
  destruct (decide (a = 0)) as [->|Ha0]; [by rewrite Z.lxor_0_l|].
  destruct (decide (b = 0)) as [->|Hb0]; [by rewrite Z.lxor_0_r|].
  assert (0 <= Z.lxor a b) as H0 by (apply Z.lxor_nonneg; lia). split; [done|].
  destruct (decide (Z.lxor a b = 0)) as [->|]; [lia|]. apply Z.log2_lt_pow2; [lia|].
  pose proof (Z.log2_lxor a b ltac:(lia) ltac:(lia)).
  pose proof (proj1 (Z.log2_lt_pow2 a n ltac:(lia)) ltac:(lia)).
  pose proof (proj1 (Z.log2_lt_pow2 b n ltac:(lia)) ltac:(lia)). lia.
Qed.

Lemma land_lxor_l a b m : Z.land (Z.lxor a b) m = Z.lxor (Z.land a m) (Z.land b m).
Proof.
  apply Z.bits_inj'. intros n _. rewrite ?Z.land_spec, ?Z.lxor_spec, ?Z.land_spec.
  by destruct (Z.testbit a n), (Z.testbit b n), (Z.testbit m n).
Qed.

Lemma apply_generators_lxor t x : apply_generators t x = Z.lxor x (apply_generators t 0).
Proof.
  unfold apply_generators. generalize (enumerate generators) as l. intros l.
  assert (forall y z, foldl (fun c (ig : nat * Z) =>
      if Z.land (Z.shiftr t (Z.of_nat ig.1)) 1 =? 1 then Z.lxor c ig.2 else c) (Z.lxor y z) l
    = Z.lxor y (foldl (fun c (ig : nat * Z) =>
      if Z.land (Z.shiftr t (Z.of_nat ig.1)) 1 =? 1 then Z.lxor c ig.2 else c) z l)) as H.
  { induction l as [|ig l IH]; intros y z; simpl; [done|]. case_match; [|done].
    rewrite Z.lxor_assoc. apply IH. }
  by rewrite <-(H x 0), Z.lxor_0_r.
Qed.

Definition gen_mask (t : Z) : Z := apply_generators t 0.

Lemma gen_mask_table t : 0 <= t < 32 -> 0 <= gen_mask t < 2 ^ 30 /\
  forall u, 0 <= u < 32 -> Z.land (gen_mask t) 31 = Z.land (gen_mask u) 31 -> t = u.
Proof.
  intros Ht.
  assert (forallb (fun i => let t := Z.of_nat i in
    (0 <=? gen_mask t) && (gen_mask t <? 2 ^ 30) &&
    forallb (fun j => negb (Z.land (gen_mask t) 31 =? Z.land (gen_mask (Z.of_nat j)) 31) || Nat.eqb i j)
      (seq 0 32)) (seq 0 32) = true) as H by (vm_compute; reflexivity).
  rewrite forallb_forall in H. specialize (H (Z.to_nat t)). rewrite Z2Nat.id in H by lia.
  destruct (andb_prop _ _ (H ltac:(apply in_seq; lia))) as [H1 H2].
  split; [lia|]. intros u Hu Heq. rewrite forallb_forall in H2. specialize (H2 (Z.to_nat u)).
  rewrite Z2Nat.id in H2 by lia. specialize (H2 ltac:(apply in_seq; lia)).
  rewrite Heq, Z.eqb_refl in H2. simpl in H2. apply Nat.eqb_eq in H2. lia.
Qed.

Definition checksum_ok (c : Z) : Prop := 0 <= c < 2 ^ 30.

Lemma checksum_split c : checksum_ok c ->
  0 <= Z.shiftr c 25 < 32 /\ Z.land c 33554431 = c mod 2 ^ 25 /\ c = 2 ^ 25 * Z.shiftr c 25 + c mod 2 ^ 25.
Proof.
  unfold checksum_ok. intros Hc. rewrite Z.shiftr_div_pow2 by lia.
  change 33554431 with (Z.ones 25). rewrite Z.land_ones by lia.
  pose proof (Z.div_mod c (2 ^ 25) ltac:(lia)). pose proof (Z.mod_pos_bound c (2 ^ 25) ltac:(lia)).
  split_and!; lia.
Qed.

Lemma polymod_step_eq c v :
  polymod_step c v = Z.lxor (Z.lxor (Z.shiftl (Z.land c 33554431) 5) v) (gen_mask (Z.shiftr c 25)).
Proof. unfold polymod_step. apply apply_generators_lxor. Qed.

Lemma low_shift_ok c : checksum_ok c ->
  checksum_ok (Z.shiftl (Z.land c 33554431) 5) /\ Z.land (Z.shiftl (Z.land c 33554431) 5) 31 = 0.
Proof.
  intros Hc. destruct (checksum_split c Hc) as (_ & -> & _). unfold checksum_ok in *.
  rewrite Z.shiftl_mul_pow2 by lia. pose proof (Z.mod_pos_bound c (2 ^ 25) ltac:(lia)).
  split; [lia|]. change 31 with (Z.ones 5). rewrite Z.land_ones by lia. apply Z_mod_mult.
Qed.

Lemma polymod_step_ok c v : checksum_ok c -> 0 <= v < 32 -> checksum_ok (polymod_step c v).
Proof.
  intros Hc Hv. rewrite polymod_step_eq.
  destruct (checksum_split c Hc) as (Ht & _ & _).
  apply lxor_bound; [lia| |by apply gen_mask_table].
  apply lxor_bound; [lia|by apply low_shift_ok|lia].
Qed.

Lemma lxor_cancel_r a b c : Z.lxor a c = Z.lxor b c -> a = b.
Proof.
  intros H. rewrite <-(Z.lxor_0_r a), <-(Z.lxor_0_r b), <-(Z.lxor_nilpotent c), <-!Z.lxor_assoc.
  by rewrite H.
Qed.

Lemma polymod_step_inj c d v : checksum_ok c -> checksum_ok d ->
  polymod_step c v = polymod_step d v -> c = d.
Proof.
  intros Hc Hd. rewrite !polymod_step_eq. intros H.
  assert (Z.lxor (Z.shiftl (Z.land c 33554431) 5) (gen_mask (Z.shiftr c 25))
          = Z.lxor (Z.shiftl (Z.land d 33554431) 5) (gen_mask (Z.shiftr d 25))) as H'.
  { apply (lxor_cancel_r _ _ v). rewrite !Z.lxor_assoc, !(Z.lxor_comm (gen_mask _) v).
    by rewrite <-!Z.lxor_assoc. }
  clear H. destruct (low_shift_ok c Hc) as [_ Lc], (low_shift_ok d Hd) as [_ Ld].
  destruct (checksum_split c Hc) as (Tc & Ec & Sc), (checksum_split d Hd) as (Td & Ed & Sd).
  assert (Z.shiftr c 25 = Z.shiftr d 25) as Ht.
  { apply gen_mask_table; [done..|]. apply (f_equal (fun z => Z.land z 31)) in H'.
    rewrite !land_lxor_l, Lc, Ld, !Z.lxor_0_l in H'. done. }
  rewrite Ht in H'. apply lxor_cancel_r in H'. rewrite Ec, Ed in H'.
  rewrite !Z.shiftl_mul_pow2 in H' by lia. lia.
Qed.

Lemma polymod_from_inj vs c d : Forall (fun v => 0 <= v < 32) vs -> checksum_ok c -> checksum_ok d ->
  foldl polymod_step c vs = foldl polymod_step d vs -> c = d.
Proof.
  intros Hv. revert c d. induction Hv as [|v vs Hv _ IH]; intros c d Hc Hd; simpl; [done|].
  intros H. apply IH in H; [|by apply polymod_step_ok..]. by apply (polymod_step_inj c d v).
Qed.

Lemma polymod_ok vs c : Forall (fun v => 0 <= v < 32) vs -> checksum_ok c -> checksum_ok (foldl polymod_step c vs).
Proof.
  intros Hv. revert c. induction Hv as [|v vs Hv _ IH]; intros c Hc; simpl; [done|].
  by apply IH, polymod_step_ok.
Qed.

(** Two symbol lists that differ in one place have different checksums. *)
Lemma polymod_substitution pre post v w :
  Forall (fun v => 0 <= v < 32) (pre ++ v :: post) -> 0 <= w < 32 -> v <> w ->
  polymod (pre ++ v :: post) <> polymod (pre ++ w :: post).
Proof.
  intros Hf Hw Hne. apply Forall_app in Hf as [Hpre [Hv Hpost]%Forall_cons].
  unfold polymod. rewrite !foldl_app. simpl. intros H.
  assert (checksum_ok (foldl polymod_step 1 pre)) as Hc by (by apply polymod_ok).
  apply polymod_from_inj in H; [|done|by apply polymod_step_ok..].
  rewrite !polymod_step_eq in H. apply lxor_cancel_r in H.
  rewrite !(Z.lxor_comm (Z.shiftl _ _)) in H. by apply lxor_cancel_r in H.
Qed.

(** *** Regrouping 5-bit symbols into bytes *)
Lemma convert_step_ok s v : 0 <= bs_bits s < 8 -> 0 <= v < 32 ->
  exists s', convert_step 5 8 s v = Some s' /\ 0 <= bs_bits s' < 8 /\
    8 * Z.of_nat (length (bs_out s')) + bs_bits s' = 8 * Z.of_nat (length (bs_out s)) + bs_bits s + 5.
Proof.
  intros Hb Hv. unfold convert_step.
  assert (Z.shiftr v 5 = 0) as -> by (rewrite Z.shiftr_div_pow2 by lia; apply Z.div_small; lia).
  replace (v <? 0) with false by lia. simpl orb. cbv iota.
  set (acc := Z.lor _ _). clearbody acc.
  destruct (Z.to_nat (bs_bits s + 5)) as [|[|f]] eqn:Ef; [lia|lia|]. simpl emit_bits.
  destruct (Z.leb_spec 8 (bs_bits s + 5)).
  - replace (8 <=? bs_bits s + 5 - 8) with false by lia. eexists. split; [done|]. simpl.
    rewrite length_app. simpl. lia.
  - eexists. split; [done|]. simpl. lia.
Qed.

Lemma convert_loop_ok vs s : 0 <= bs_bits s < 8 -> Forall (fun v => 0 <= v < 32) vs ->
  exists s', convert_loop 5 8 s vs = Some s' /\ 0 <= bs_bits s' < 8 /\
    8 * Z.of_nat (length (bs_out s')) + bs_bits s'
    = 8 * Z.of_nat (length (bs_out s)) + bs_bits s + 5 * Z.of_nat (length vs).
Proof.
  intros Hb Hv. revert s Hb. induction Hv as [|v vs Hv _ IH]; intros s Hb; simpl.
  - eexists. split; [done|]. lia.
  - destruct (convert_step_ok s v Hb Hv) as (s1 & -> & H1 & E1). simpl.
    destruct (IH s1 H1) as (s2 & -> & H2 & E2). exists s2. split; [done|]. lia.
Qed.

(** A 20-byte payload is exactly 32 symbols. *)
Lemma convert_bits_20 vs : Forall (fun v => 0 <= v < 32) vs ->
  (exists p, convert_bits vs 5 8 false = Some p /\ Z.of_nat (length p) = 20) <-> length vs = 32%nat.
Proof.
  intros Hv. unfold convert_bits.
  destruct (convert_loop_ok vs (Build_bits_state 0 0 [])) as (s & -> & Hb & E); [simpl; lia|done|].
  simpl in *. split.
  - intros (p & Hp & Hl). destruct (5 <=? bs_bits s) eqn:E5; [done|]. simpl in Hp.
    case_match; [done|]. injection Hp as <-. lia.
  - intros Hl. replace (5 <=? bs_bits s) with false by lia.
    assert (bs_bits s = 0) as H0 by lia. simpl orb. rewrite H0. change (8 - 0) with 8.
    change (Z.shiftl 1 8 - 1) with (Z.ones 8). rewrite Z.land_ones, Z.shiftl_mul_pow2, Z_mod_mult by lia.
    simpl. eexists. split; [done|]. lia.
Qed.

(** *** Characters *)
Definition bech32_chars : list string := chars BECH32_CHARSET.

Lemma char_index_Some g l k : char_index g l = Some k -> 0 <= k /\ l !! Z.to_nat k = Some g.
Proof.
  revert k. induction l as [|h l IH]; intros k; simpl; [done|].
  destruct (String.eqb_spec g h) as [->|]; [by intros [= <-]|].
  intros (j & Hj & ->)%fmap_Some. apply IH in Hj as [? ?].
  split; [lia|]. by rewrite Z2Nat.inj_succ.
Qed.

Lemma bech32_value_Some g v : bech32_value g = Some v -> 0 <= v < 32 /\ bech32_chars !! Z.to_nat v = Some g.
Proof.
  intros H. apply char_index_Some in H as [H0 Hl]. split; [|done].
  apply lookup_lt_Some in Hl. vm_compute (length _) in Hl. lia.
Qed.

Lemma bech32_value_inj g h v : bech32_value g = Some v -> bech32_value h = Some v -> g = h.
Proof. intros [_ H1]%bech32_value_Some [_ H2]%bech32_value_Some. congruence. Qed.

Lemma all_some_Forall2 {A} (l : list (option A)) k : all_some l = Some k <-> Forall2 (fun x y => x = Some y) l k.
Proof.
  revert k. induction l as [|x l IH]; intros k; simpl.
  - split; [intros [= <-]; constructor|intros H; by inversion H].
  - split.
    + intros H. destruct x as [a|]; [|done]. simpl in H. destruct (all_some l) as [r|]; [|done].
      simpl in H. injection H as <-. constructor; [done|]. by apply IH.
    + intros H. inversion H as [|? y ? k' Hy Hk]; subst. apply IH in Hk. simpl. by rewrite Hk.
Qed.

Lemma rfind_char_spec g i l :
  0 <= i ->
  (rfind_char g i l = -1 /\ g ∉ l) \/
  exists n, rfind_char g i l = i + Z.of_nat n /\ l !! n = Some g /\ g ∉ drop (S n) l.
Proof.
  revert i. induction l as [|h l IH]; intros i Hi; simpl; [left; split; [done|apply not_elem_of_nil]|].
  destruct (IH (i + 1)) as [[-> Hn]|(n & -> & Hl & Hd)]; [lia|..].
  - simpl. destruct (String.eqb_spec g h) as [->|Hgh].
    + right. exists 0%nat. split; [lia|]. done.
    + left. split; [done|]. by apply not_elem_of_cons.
  - right. exists (S n). rewrite (proj2 (Z.eqb_neq (i + 1 + Z.of_nat n) (-1))) by lia.
    split; [lia|]. done.
Qed.

Lemma rfind_char_unique g l n :
  l !! n = Some g -> g ∉ drop (S n) l -> rfind_char g 0 l = Z.of_nat n.
Proof.
  intros Hl Hd. destruct (rfind_char_spec g 0 l) as [[_ Hn]|(m & -> & Hm & Hdm)]; [lia|..].
  - exfalso. apply Hn. by eapply list_elem_of_lookup_2.
  - simpl. f_equal. destruct (Nat.lt_total m n) as [Hlt|[->|Hlt]]; [|done|]; exfalso.
    + apply Hdm. apply (list_elem_of_lookup_2 _ (n - S m)). rewrite lookup_drop.
      by replace (S m + (n - S m))%nat with n by lia.
    + apply Hd. apply (list_elem_of_lookup_2 _ (m - S n)). rewrite lookup_drop.
      by replace (S n + (m - S n))%nat with m by lia.
Qed.

Lemma one_not_data l vs : Forall2 (fun g v => bech32_value g = Some v) l vs -> "1" ∉ l.
Proof.
  intros Hf Hin. apply list_elem_of_lookup in Hin as [i Hi].
  destruct (Forall2_lookup_l _ _ _ _ _ Hf Hi) as (v & _ & Hv). vm_compute in Hv. done.
Qed.

(** An account address is "g", the separator and 38 data symbols whose
    checksum verifies. *)
Definition address_chars (cs : list string) : Prop :=
  exists data values,
    cs = "g" :: "1" :: data /\ length data = 38%nat /\
    Forall2 (fun g v => bech32_value g = Some v) data values /\
    polymod (expand_hrp "g" ++ values) = 1.

Lemma values_range l vs :
  Forall2 (fun g v => bech32_value g = Some v) l vs -> Forall (fun v => 0 <= v < 32) vs.
Proof.
  intros Hf. apply Forall_forall. intros v [i Hi]%list_elem_of_lookup.
  destruct (Forall2_lookup_r _ _ _ _ _ Hf Hi) as (g & _ & Hg). by apply bech32_value_Some in Hg as [Hg _].
Qed.

Lemma prefix_g cs n :
  groups_ok cs -> str_concat (take n cs) = "g" -> (1 <= n)%nat -> (n <= length cs)%nat ->
  n = 1%nat /\ exists rest, cs = "g" :: rest.
Proof.
  intros [Hg _] Hc H1 Hn. destruct cs as [|a cs]; [simpl in Hn; lia|].
  destruct n as [|n]; [lia|]. simpl in Hc. apply Forall_cons in Hg as [Ha Hg].
  destruct a as [|c t]; [done|]. simpl in Hc. injection Hc as -> Hc.
  destruct t; [|done]. simpl in Hc. destruct n as [|n]; [eauto|].
  exfalso. destruct cs as [|b cs]; [simpl in Hn; lia|]. simpl in Hc.
  apply Forall_cons in Hg as [Hb _]. by destruct b.
Qed.

Lemma check_bech32_iff cs c : groups_ok cs ->
  check_bech32 cs (gno_profile c) = true <-> address_chars cs.
Proof.
  intros Hg. unfold check_bech32. cbn [account_hrp account_payload_length gno_profile]. split.
  - destruct (rfind_char_spec "1" 0 cs) as [[-> _]|(n & -> & Hn & Hd)]; [lia|done|].
    rewrite Z.add_0_l, Nat2Z.id. replace (Z.to_nat (Z.of_nat n + 1)) with (S n) by lia.
    destruct (_ || _ || _) eqn:E; [done|].
    apply orb_false_iff in E as [[E1 E2]%orb_false_iff E3].
    apply negb_false_iff, String.eqb_eq in E3.
    destruct (prefix_g cs n Hg E3) as [-> [rest ->]]; [lia|lia|].
    destruct (all_some _) as [values|] eqn:Ev; [|done].
    apply all_some_Forall2, Forall2_fmap_l in Ev. simpl drop in Ev.
    destruct (negb _) eqn:Ep; [done|]. apply negb_false_iff, Z.eqb_eq in Ep.
    destruct rest as [|x data]; [done|]. injection Hn as ->.
    change (Forall2 (fun g v => bech32_value g = Some v) data values) in Ev.
    destruct (convert_bits _ _ _ _) as [p|] eqn:Ec; [|done]. intros Hlen%Z.eqb_eq.
    exists data, values. split_and!; try done.
    assert (length (take (length values - 6) values) = 32%nat) as H32.
    { apply convert_bits_20; [apply Forall_take; by eapply values_range|eauto]. }
    apply Forall2_length in Ev. rewrite length_take in H32. apply Z.ltb_ge in E2. cbn [length] in E2. 
    lia.
  - intros (data & values & -> & Hl & Hf & Hp).
    rewrite (rfind_char_unique "1" ("g" :: "1" :: data) 1); [|done|by apply (one_not_data data values)].
    change (Z.to_nat (Z.of_nat 1)) with 1%nat. change (Z.to_nat (Z.of_nat 1 + 1)) with 2%nat.
    pose proof (Forall2_length _ _ _ Hf) as Hlv.
    rewrite (proj2 (Z.ltb_ge (Z.of_nat (length ("g" :: "1" :: data))) (Z.of_nat 1 + 7)))
      by (cbn [length]; lia).
    cbn [take str_concat drop]. simpl orb. cbv iota. rewrite ?drop_0.
    replace (all_some (map bech32_value data)) with (Some values); cycle 1.
    { symmetry. by apply all_some_Forall2, Forall2_fmap_l. }
    rewrite Hp. simpl negb. cbv iota.
    destruct (proj2 (convert_bits_20 (take (length values - 6) values)
      ltac:(apply Forall_take; by eapply values_range))) as (p & -> & Hlp).
    { rewrite length_take. lia. }
    lia.
Qed.

(** [^g1[023456789acdefghjklmnpqrstuvwxyz]{38}$] of indexer/realm_catalog.py. *)
Definition data_char_ok (g : string) : bool :=
  (33 <=? code_point g) && (code_point g <=? 126) && bool_decide (str_map ascii_lower g = g)
  && str_forallb is_ascii_byte g.

Lemma bech32_value_char g v : bech32_value g = Some v -> data_char_ok g = true.
Proof.
  intros [_ Hl]%bech32_value_Some. apply list_elem_of_lookup_2 in Hl.
  assert (Forall (fun g => data_char_ok g = true) bech32_chars) as H.
  { apply Forall_forall. intros x Hx. revert Hx.
    assert (forallb data_char_ok bech32_chars = true) as Hb by (vm_compute; reflexivity).
    rewrite forallb_forall in Hb. intros Hx. apply Hb. by apply list_elem_of_In. }
  rewrite Forall_forall in H. auto.
Qed.

Lemma is_ascii_concat l : Forall (fun g => data_char_ok g = true) l ->
  is_ascii (str_concat l) = true /\ str_map ascii_lower (str_concat l) = str_concat l.
Proof.
  unfold is_ascii. induction 1 as [|g l Hg _ [IH1 IH2]]; [done|]. simpl.
  unfold data_char_ok in Hg. apply andb_true_iff in Hg as [[Hg Hlow]%andb_true_iff Hasc].
  apply bool_decide_eq_true in Hlow.
  rewrite str_forallb_app, Hasc, IH1, str_map_app, Hlow, IH2. done.
Qed.

Section address.
Context `{PyRuntime}.

Lemma validate_iff a c : validate_account_address a (gno_profile c) = true <-> address_chars (chars a).
Proof.
  unfold validate_account_address. rewrite <-(check_bech32_iff _ c) by apply groups_ok_chars.
  split; [by repeat case_match|]. intros Hc. rewrite Hc.
  apply check_bech32_iff in Hc as (data & values & Hcs & Hl & Hf & _); [|apply groups_ok_chars].
  assert (Forall (fun g => data_char_ok g = true) (chars a)) as Hall.
  { rewrite Hcs. do 2 (apply Forall_cons; split; [reflexivity|]).
    apply Forall_forall. intros g [i Hi]%list_elem_of_lookup.
    destruct (Forall2_lookup_l _ _ _ _ _ Hf Hi) as (v & _ & Hv). by eapply bech32_value_char. }
  destruct (is_ascii_concat _ Hall) as [Ha Hlow]. rewrite str_concat_chars in Ha, Hlow.
  assert (py_len a = 40) as -> by (unfold py_len; rewrite Hcs; cbn [length]; lia).
  unfold py_lower. rewrite Ha, Hlow, String.eqb_refl. simpl orb. cbv iota.
  destruct (existsb _ _) eqn:E; [|done].
  apply existsb_exists in E as (g & Hg%list_elem_of_In & Hb). rewrite Forall_forall in Hall.
  specialize (Hall g Hg). unfold data_char_ok in Hall. lia.
Qed.
End address.

(** An account address is accepted exactly when its characters are "g1"
    followed by 38 bech32 symbols whose polymod checksum is 1: forty
    characters, no other length, prefix, case or alphabet, and the 32 symbols
    before the checksum always carry exactly 20 bytes. *)
Theorem validate_account_address_iff `{PyRuntime} address c :
  validate_account_address address (gno_profile c) = true <-> address_chars (chars address).
Proof. apply validate_iff. Qed.

(** Replacing any single character of a valid account address by any other
    character, at any position, gives an invalid address: the checksum
    detects every single-character error. *)
Theorem address_single_error `{PyRuntime} a b c i g :
  validate_account_address a (gno_profile c) = true ->
  chars b = <[i := g]> (chars a) -> chars b <> chars a ->
  validate_account_address b (gno_profile c) = false.
Proof.
  rewrite !validate_iff. intros (data & values & Ha & Hl & Hf & Hp) Hb Hne.
  destruct (validate_account_address b (gno_profile c)) eqn:E; [|done]. exfalso.
  apply validate_iff in E as (data' & values' & Hb' & Hl' & Hf' & Hp').
  rewrite Ha in Hb, Hne. rewrite Hb' in Hb, Hne.
  destruct i as [|[|i]]; simpl in Hb; [injection Hb as <- <-; done|injection Hb as <- <-; done|].
  injection Hb as ->. destruct (decide (i < length data)%nat) as [Hi|Hi]; cycle 1.
  { rewrite list_insert_ge in Hne by lia. done. }
  destruct (lookup_lt_is_Some_2 _ _ Hi) as [d Hd].
  destruct (Forall2_lookup_l _ _ _ _ _ Hf Hd) as (v & Hv & Hdv).
  assert (<[i:=g]> data !! i = Some g) as Hg by (by apply list_lookup_insert_eq).
  destruct (Forall2_lookup_l _ _ _ _ _ Hf' Hg) as (w & Hw & Hgw).
  assert (values' = <[i:=w]> values) as ->.
  { apply list_eq. intros j. destruct (decide (i = j)) as [<-|Hij].
    - rewrite Hw. symmetry. apply list_lookup_insert_eq. by apply lookup_lt_Some in Hv.
    - rewrite list_lookup_insert_ne by done. destruct (data !! j) as [x|] eqn:Ej.
      + destruct (Forall2_lookup_l _ _ _ _ _ Hf Ej) as (y & Hy & Hxy).
        assert (<[i:=g]> data !! j = Some x) as Ej' by (by rewrite list_lookup_insert_ne).
        destruct (Forall2_lookup_l _ _ _ _ _ Hf' Ej') as (y' & Hy' & Hxy'). congruence.
      + apply Forall2_length in Hf, Hf'. rewrite length_insert in Hf'.
        apply lookup_ge_None in Ej. by rewrite !lookup_ge_None_2 by lia. }
  assert (v <> w) as Hvw.
  { intros ->. assert (d = g) as -> by (by eapply bech32_value_inj).
    apply Hne. by rewrite list_insert_id. }
  rewrite <-(take_drop_middle values i v Hv) in Hp.
  assert (<[i:=w]> values = take i values ++ w :: drop (S i) values) as Hins.
  { rewrite <-(take_drop_middle values i v Hv) at 1. rewrite insert_app_r_alt by (rewrite length_take; lia).
    rewrite length_take_le by (apply lookup_lt_Some in Hv; lia). by rewrite Nat.sub_diag. }
  rewrite Hins in Hp', Hf'. clear Hins. rewrite app_assoc in Hp, Hp'.
  refine (polymod_substitution (expand_hrp "g" ++ take i values) (drop (S i) values) v w _ _ Hvw _);
    [| |congruence].
  - rewrite <-app_assoc. apply Forall_app. split.
    + vm_compute. repeat constructor; intros; discriminate.
    + rewrite take_drop_middle by done. by eapply values_range.
  - by apply bech32_value_Some in Hgw as [Hgw _].
Qed.

Lemma address_single_error_witness :
  @validate_account_address ascii_runtime "g1jg8mtutu9khhfwc4nxmuhcpftf0pajdhfvsqf5" (gno_profile "") = true /\
  @validate_account_address ascii_runtime "g1jg8mtutu9khhfwc4nxmuhcpftf0pajdhfvsqf6" (gno_profile "") = false.
Proof.
  assert (@validate_account_address ascii_runtime "g1jg8mtutu9khhfwc4nxmuhcpftf0pajdhfvsqf5" (gno_profile "") = true)
    as H by (vm_compute; reflexivity).
  split; [exact H|].
  apply (@address_single_error ascii_runtime "g1jg8mtutu9khhfwc4nxmuhcpftf0pajdhfvsqf5" _ "" 39 "6" H);
    [vm_compute; reflexivity|vm_compute; congruence].
Defined.

(** *** Participants *)
Lemma participant_leb_spec a b :
  participant_leb a b = true <->
  (tp_message_index a < tp_message_index b)%nat \/
  (tp_message_index a = tp_message_index b /\
    ((str_leb (tp_role a) (tp_role b) = true /\ tp_role a <> tp_role b) \/
     (tp_role a = tp_role b /\ str_leb (tp_address a) (tp_address b) = true))).
Proof.
  unfold participant_leb. rewrite <-str_ltb_spec.
  destruct (Nat.eqb_spec (tp_message_index a) (tp_message_index b)) as [Hi|Hi].
  - destruct (String.eqb_spec (tp_role a) (tp_role b)) as [Hr|Hr].
    + split; [auto|]. rewrite str_ltb_spec. intros [?|[_ [[_ ?]|[_ ?]]]]; [lia|done|done].
    + split; [auto|]. intros [?|[_ [?|[? _]]]]; [lia|done|done].
  - rewrite Nat.ltb_lt. split; [by left|]. intros [?|[? _]]; lia.
Qed.

Lemma participant_leb_total a b : participant_leb a b = true \/ participant_leb b a = true.
Proof.
  rewrite !participant_leb_spec.
  destruct (Nat.lt_total (tp_message_index a) (tp_message_index b)) as [?|[Hi|?]]; auto.
  destruct (decide (tp_role a = tp_role b)) as [Hr|Hr].
  - destruct (str_leb_total (tp_address a) (tp_address b)); [left|right]; right; auto.
  - destruct (str_leb_total (tp_role a) (tp_role b)); [left|right]; right; auto.
Qed.

Lemma participant_leb_trans a b c :
  participant_leb a b = true -> participant_leb b c = true -> participant_leb a c = true.
Proof.
  rewrite !participant_leb_spec.
  intros [?|(E1 & H1)] [?|(E2 & H2)]; try (left; lia). right. split; [lia|].
  destruct H1 as [[H1 N1]|[R1 H1]], H2 as [[H2 N2]|[R2 H2]].
  - left. split; [by eapply str_leb_trans|]. intros E. rewrite E in H1. by apply N2, str_leb_antisym.
  - left. by rewrite <-R2.
  - left. by rewrite R1.
  - right. split; [congruence|]. by eapply str_leb_trans.
Qed.

Section participants.
Context `{PyRuntime}.

Lemma message_participants_spec i m p :
  p ∈ message_participants i m <->
  tp_message_index p = i /\ tp_role p ∈ ["sender"; "recipient"] /\
  dget m (tp_role p) = VStr (tp_address p) /\
  validate_account_address (tp_address p) (gno_profile "") = true.
Proof.
  unfold message_participants. rewrite list_elem_of_omap. split.
  - intros (r & Hr & Hp). destruct (dget m r) eqn:E; try done.
    destruct (validate_account_address s (gno_profile "")) eqn:Ev; [|done].
    injection Hp as <-. done.
  - destruct p as [i' r a]. simpl. intros (-> & Hr & Hm & Hv). exists r. by rewrite Hm, Hv.
Qed.

Lemma collect_spec i ms found :
  collect_participants i ms = Some found ->
  (forall k v, ms !! k = Some v -> exists m, v = VDict m) /\
  forall p, p ∈ found <-> exists k m, ms !! k = Some (VDict m) /\ p ∈ message_participants (i + k) m.
Proof.
  revert i found. induction ms as [|v ms IH]; intros i found; simpl.
  { intros [= <-]. split; [done|]. intros p. split; [by intros ?%elem_of_nil|].
    intros (k & m & Hk & _). done. }
  destruct v as [| | | | | |m]; try done.
  destruct (collect_participants (S i) ms) as [r|] eqn:E; [|done]. intros [= <-].
  destruct (IH _ _ E) as [H1 H2]. split.
  - intros [|k] v; simpl; [intros [= <-]; eauto|apply H1].
  - intros p. rewrite elem_of_app, H2. split.
    + intros [Hp|(k & m' & Hk & Hp)].
      * exists 0%nat, m. by rewrite Nat.add_0_r.
      * exists (S k), m'. by rewrite Nat.add_succ_r.
    + intros ([|k] & m' & Hk & Hp); simpl in Hk.
      * injection Hk as <-. left. by rewrite Nat.add_0_r in Hp.
      * right. exists k, m'. by rewrite Nat.add_succ_r in Hp.
Qed.

Lemma collect_total i ms :
  (forall k v, ms !! k = Some v -> exists m, v = VDict m) -> is_Some (collect_participants i ms).
Proof.
  revert i. induction ms as [|v ms IH]; intros i Hd; simpl; [eauto|].
  destruct (Hd 0%nat v eq_refl) as [m ->].
  destruct (IH (S i)) as [r ->]; [intros k v; apply (Hd (S k))|]. eauto.
Qed.
End participants.

(** The dict items of a parsed summary's messages, when it has at most
    twenty of them and every message is a dict. *)
Definition parsed_messages (summary : val) (ms : list val) : Prop :=
  exists s, summary = VDict s /\ dget s "parse_status" = VStr "parsed" /\
    dget s "messages" = VList ms /\ (length ms <= MAX_MESSAGES)%nat /\
    (forall k v, ms !! k = Some v -> exists m, v = VDict m).

Lemma extract_cases `{PyRuntime} summary :
  (exists ms found, parsed_messages summary ms /\ collect_participants 0 ms = Some found /\
     extract_transaction_participants summary = sort_by participant_leb (dedup found)) \/
  (extract_transaction_participants summary = [] /\ forall ms, ~ parsed_messages summary ms).
Proof.
  unfold parsed_messages, extract_transaction_participants.
  destruct summary as [| | | | | |s]; try (right; split; [done|]; by intros ms (s' & ? & _)).
  destruct (py_eq (dget s "parse_status") (VStr "parsed")) eqn:Ep; simpl; cycle 1.
  { right. split; [done|]. intros ms (s' & [= <-] & E & _). rewrite E in Ep. done. }
  apply py_eq_str in Ep.
  destruct (dget s "messages") as [| | | | |ms|] eqn:Em;
    try (right; split; [done|]; intros ms' (s' & [= <-] & _ & E & _); congruence).
  destruct (Nat.ltb_spec MAX_MESSAGES (length ms)).
  { right. split; [done|]. intros ms' (s' & [= <-] & _ & E & Hl & _).
    rewrite Em in E. injection E as <-. lia. }
  destruct (collect_participants 0 ms) as [found|] eqn:Ec.
  - left. exists ms, found. split_and!; try done. exists s. split_and!; try done.
    by apply (collect_spec 0 ms found).
  - right. split; [done|]. intros ms' (s' & [= <-] & _ & E & _ & Hd).
    rewrite Em in E. injection E as <-. destruct (collect_total 0 ms Hd). congruence.
Qed.

(** The participant rows are exactly the valid addresses of the summary:
    a row (index, role, address) is produced iff the summary is parsed and
    well-shaped and its message at that index has that address, checksum
    valid, under "sender" or "recipient"; the rows are distinct and sorted, so
    they do not depend on anything but the summary. *)
Theorem extract_participants_exact `{PyRuntime} summary :
  let rows := extract_transaction_participants summary in
  NoDup rows /\ StronglySorted (fun a b => participant_leb a b = true) rows /\
  forall p, p ∈ rows <->
    exists ms m, parsed_messages summary ms /\ ms !! tp_message_index p = Some (VDict m) /\
      tp_role p ∈ ["sender"; "recipient"] /\ dget m (tp_role p) = VStr (tp_address p) /\
      validate_account_address (tp_address p) (gno_profile "") = true.
Proof.
  intros rows. subst rows.
  destruct (extract_cases summary) as [(ms & found & Hm & Hc & ->)|(-> & Hno)].
  - destruct (collect_spec 0 ms found Hc) as [_ Hf]. split_and!.
    + apply NoDup_sort_by, NoDup_dedup.
    + apply sort_by_sorted; [apply participant_leb_total|apply participant_leb_trans].
    + intros p. rewrite elem_of_sort_by, elem_of_dedup, Hf.
      setoid_rewrite message_participants_spec. split.
      * intros (k & m & Hk & Hi & Hp). exists ms, m. rewrite Hi. by split_and!; try apply Hp.
      * intros (ms' & m & Hm' & Hk & Hp).
        assert (ms' = ms) as ->.
        { destruct Hm as (s & -> & _ & E1 & _), Hm' as (s' & [= <-] & _ & E2 & _). congruence. }
        exists (tp_message_index p), m. by split_and!; try apply Hp.
  - split_and!; [constructor|constructor|]. intros p. split; [by intros ?%elem_of_nil|].
    intros (ms & m & Hm & _). by apply Hno in Hm.
Qed.

Example valid_address :
  @validate_account_address ascii_runtime "g1jg8mtutu9khhfwc4nxmuhcpftf0pajdhfvsqf5" (gno_profile "") = true.
Proof. vm_compute. reflexivity. Qed.
