(* ===== verification/Parsers.v ===== *)
(** * indexer/parsers.py: normalized records of one height

    Transactions, block identifiers, votes and execution results, read from
    the four payloads of a height.  The transaction decoder is the interface
    [TransactionDecoder] (Decoder.v has the implementation): decoding threads
    the decoder's state and may fail with any exception. *)
From Stdlib Require Import ZArith NArith Lia Ascii String SpecFloat.
From stdpp Require Import base gmap sets list strings sorting.
From S2P Require Import Prelude PyStr PyVal Codec InspectRpc Summary.
Open Scope Z_scope.

(** [class TransactionDecoder(Protocol)]: [decode(tx_base64, length)]. *)
Class TransactionDecoder (D : Type) := {
  decode : string -> Z -> D -> res (option val) * D
}.

Definition ZERO_HASHES : list val :=
  map VStr [""; "AA=="; "AAA="; "AAAA"; "AAAAAAAAAAAAAAAAAAAAAAAAAAAAAAAAAAAAAAAAAAA="].

(** [class NormalizedBlockID] *)
Record NormalizedBlockID := {
  hash_base64 : option string;
  hash_hex : option string;
  parts_total : option Z;
  parts_hash_base64 : option string;
  parts_hash_hex : option string;
  is_zero : bool
}.

(** The dict [parse_tx] returns. *)
Record parsed_tx := {
  px_index : Z;
  px_raw_base64 : string;
  px_raw_base64_length : Z;
  px_decoded_bytes : option bytes;
  px_decoded_byte_length : option Z;
  px_decode_status : string;
  px_tx_hash_hex : option string;
  px_payload_summary : val
}.

(** The dict [_signature_row] returns. *)
Record signature_row := {
  sg_height : Z;
  sg_signing_address : val;
  sg_vote_status : string;
  sg_signed : bool;
  sg_block_id : option NormalizedBlockID;
  sg_is_zero : bool;
  sg_matches_commit : bool;
  sg_signature : option string;
  sg_raw_precommit : option val
}.

(** One dict of [parse_execution_results]. *)
Record execution_result := {
  er_block_height : Z;
  er_tx_index : Z;
  er_execution_status : string;
  er_gas_wanted : Z;
  er_gas_used : Z;
  er_error_text : option string;
  er_log_text : val;
  er_info_text : val;
  er_data_base64 : val;
  er_events : val;
  er_raw_result : val
}.

(** [class ParsedHeight] *)
Record ParsedHeight := {
  ph_height : Z;
  ph_block : block parsed_tx;
  ph_transactions : list parsed_tx;
  ph_execution_results : list execution_result;
  ph_validators : list validator;
  ph_signatures : list signature_row;
  ph_raw_block : val
}.

(** ** Transactions *)
Section transactions.
Context `{PyRuntime} {D : Type} `{TransactionDecoder D}.

(** The summary an optional decoder gives; any exception of the decoder is
    swallowed. *)
Definition decode_summary (raw : string) (len : Z) (dec : option D) : val * option D :=
  match dec with
  | None => (generic_summary "unparsed", None)
  | Some d =>
      let '(r, d') := decode raw len d in
      (match r with
       | Ok (Some candidate) =>
           match normalize_record candidate "unparsed" with
           | Ok s => if in_strs (sm_parse_status s) ["parsed"; "unsupported"] then summary_val s
                     else generic_summary "unparsed"
           | Raise _ => generic_summary "unparsed"
           end
       | _ => generic_summary "unparsed"
       end, Some d')
  end.

Definition parse_tx (index : Z) (tx : val) (dec : option D) : res parsed_tx * option D :=
  match tx_raw_base64 tx with
  | Raise e => (Raise e, dec)
  | Ok raw =>
      match b64decode raw with
      | Raise _ =>
          (Ok (Build_parsed_tx index raw (py_len raw) None None "invalid_base64" None
                 (generic_summary "invalid")), dec)
      | Ok decoded =>
          let len := Z.of_nat (length decoded) in
          let '(summary, dec') := decode_summary raw len dec in
          (Ok (Build_parsed_tx index raw (py_len raw) (Some decoded) (Some len) "decoded"
                 (Some (hex_upper (sha256 decoded))) summary), dec')
      end
  end.

Fixpoint parse_txs (index : Z) (txs : list val) (dec : option D) : res (list parsed_tx) * option D :=
  match txs with
  | [] => (Ok [], dec)
  | tx :: rest =>
      match parse_tx index tx dec with
      | (Raise e, dec') => (Raise e, dec')
      | (Ok p, dec') => let '(q, dec'') := parse_txs (index + 1) rest dec' in (cons p <$> q, dec'')
      end
  end.

(** [(((payload.get("result") or {}).get("block") or {}).get("data") or {}).get("txs") or []] *)
Definition block_txs (payload : val) : res val :=
  r ← py_get payload "result"; b ← py_get (por r (VDict [])) "block";
  d ← py_get (por b (VDict [])) "data"; t ← py_get (por d (VDict [])) "txs";
  Ok (por t (VList [])).

Definition with_transactions {T U} (txs : list U) (b : block T) : block U :=
  Build_block (b_hash_base64 b) (b_hash_hex b) (b_height b) (b_time b) (b_proposer_address b)
    (b_tx_count b) txs.

Definition parse_height_block (payload : val) (dec : option D) : res (block parsed_tx) * option D :=
  match (parsed ← parse_block payload; txs ← block_txs payload; items ← py_iter txs; Ok (parsed, items)) with
  | Raise e => (Raise e, dec)
  | Ok (parsed, items) =>
      let '(txs, dec') := parse_txs 0 items dec in
      ((fun l => with_transactions l parsed) <$> txs, dec')
  end.
End transactions.

(** ** Block identifiers *)
Definition in_zero_hashes (v : val) : res bool :=
  if is_None v then Ok true else py_in_set v ZERO_HASHES.
Definition zero_total (total : option Z) : bool :=
  match total with None => true | Some t => t =? 0 end.

Definition normalize_block_id (block_id : val) (field_name : string) : res NormalizedBlockID :=
  match block_id with
  | VDict b =>
      let block_hash := por (dget b "hash") (dget b "Hash") in
      let parts := por (por (por (dget b "parts") (dget b "parts_header")) (dget b "PartsHeader")) (VDict []) in
      match parts with
      | VDict p =>
          total ← to_int (por (dget p "total") (dget p "Total"));
          let parts_hash := por (dget p "hash") (dget p "Hash") in
          z1 ← in_zero_hashes block_hash;
          zero ← (if z1 : bool then
                    if zero_total total then in_zero_hashes parts_hash else Ok false
                  else Ok false);
          if zero : bool then
            Ok (Build_NormalizedBlockID (as_str block_hash) None total (as_str parts_hash) None true)
          else
            match block_hash with
            | VStr h =>
                _ ← raise_if (String.eqb h "") (RpcError ("Malformed " +:+ field_name +:+ ": missing hash"));
                match total with
                | None => Raise (RpcError ("Malformed " +:+ field_name +:+ ": missing non-negative parts total"))
                | Some t =>
                    _ ← raise_if (t <? 0) (RpcError ("Malformed " +:+ field_name +:+ ": missing non-negative parts total"));
                    match parts_hash with
                    | VStr ph =>
                        _ ← raise_if (String.eqb ph "") (RpcError ("Malformed " +:+ field_name +:+ ": missing parts hash"));
                        hb ← decode_base64 block_hash (field_name +:+ ".hash");
                        pb ← decode_base64 parts_hash (field_name +:+ ".parts.hash");
                        Ok (Build_NormalizedBlockID (Some h) (Some (hex_upper hb)) (Some t) (Some ph)
                              (Some (hex_upper pb)) false)
                    | _ => Raise (RpcError ("Malformed " +:+ field_name +:+ ": missing parts hash"))
                    end
                end
            | _ => Raise (RpcError ("Malformed " +:+ field_name +:+ ": missing hash"))
            end
      | _ => Raise (RpcError ("Malformed " +:+ field_name +:+ ".parts: expected object"))
      end
  | _ => Raise (RpcError ("Malformed " +:+ field_name +:+ ": expected object"))
  end.

Definition block_ids_match (left right : NormalizedBlockID) : bool :=
  negb (is_zero left) && negb (is_zero right)
  && bool_decide (hash_base64 left = hash_base64 right)
  && bool_decide (parts_total left = parts_total right)
  && bool_decide (parts_hash_base64 left = parts_hash_base64 right).

(** ** Votes *)
Definition commit_block_id (c : commit) : res NormalizedBlockID :=
  r ← py_get (por (c_raw c) (VDict [])) "result";
  h ← py_get_def (por r (VDict [])) "signed_header" (VDict []);
  raw_commit ← py_get_def h "commit" (VDict []);
  b ← py_get raw_commit "block_id";
  normalize_block_id b "Commit.BlockID".

Definition precommit_block_id (p : list (string * val)) : val :=
  por (por (dget p "block_id") (dget p "blockID")) (dget p "BlockID").
Definition signature_of (p : list (string * val)) : option string := as_str (dget p "signature").

Definition SUPPORTED_SIGNATURE_KEY_TYPES : list val :=
  map VStr ["/tm.PubKeyEd25519"; "/tm.PubKeySecp256k1"].

Definition usable_signature (signature : option string) (public_key_type : val) : res bool :=
  supported ← py_in_set public_key_type SUPPORTED_SIGNATURE_KEY_TYPES;
  if negb supported then Ok false
  else match signature with
       | None => Ok false
       | Some s => if String.eqb s "" then Ok false
                   else match b64decode s with
                        | Raise _ => Ok false
                        | Ok decoded => Ok (Nat.eqb (length decoded) 64)
                        end
       end.

Definition classify_precommit (height : Z) (address : val) (precommit : list (string * val))
    (cbid : NormalizedBlockID) (public_key_type : val) : res signature_row :=
  let signature := signature_of precommit in
  match normalize_block_id (precommit_block_id precommit) "Vote.BlockID" with
  | Raise e => if isinstance_RpcError e
               then Ok (Build_signature_row height address "invalid" false None false false signature
                          (Some (VDict precommit)))
               else Raise e
  | Ok vote =>
      signature_ok ← usable_signature signature public_key_type;
      let matches := block_ids_match vote cbid in
      if matches && signature_ok then
        Ok (Build_signature_row height address "commit" true (Some vote) false true signature None)
      else if is_zero vote then
        Ok (Build_signature_row height address "nil" false (Some vote) true false signature
              (Some (VDict precommit)))
      else
        Ok (Build_signature_row height address "invalid" false (Some vote) false matches signature
              (Some (VDict precommit)))
  end.

(** A set or dict keyed by values, in insertion order. *)
Definition vset_add (v : val) (s : list val) : list val :=
  if existsb (py_eq v) s then s else s ++ [v].
Fixpoint vmap_get {A} (v : val) (m : list (val * A)) : option A :=
  match m with
  | [] => None
  | (w, a) :: m' => if py_eq v w then Some a else vmap_get v m'
  end.
Fixpoint vmap_set {A} (v : val) (a : A) (m : list (val * A)) : list (val * A) :=
  match m with
  | [] => [(v, a)]
  | (w, b) :: m' => if py_eq v w then (w, a) :: m' else (w, b) :: vmap_set v a m'
  end.

(** The state of the loop over the precommits. *)
Record vote_scan := {
  vs_malformed : bool;
  vs_outside : list val;
  vs_seen : list (val * list (string * val));
  vs_duplicates : list val
}.

Definition scan_precommit (active : list val) (s : vote_scan) (precommit : val) : res vote_scan :=
  match precommit with
  | VNone => Ok s
  | VDict p =>
      let address := signer_address precommit in
      if negb (truthy address) then Ok (Build_vote_scan true (vs_outside s) (vs_seen s) (vs_duplicates s))
      else
        inside ← py_in_set address active;
        if negb inside then
          Ok (Build_vote_scan (vs_malformed s) (vs_outside s ++ [address]) (vs_seen s) (vs_duplicates s))
        else match vmap_get address (vs_seen s) with
             | Some _ => Ok (Build_vote_scan (vs_malformed s) (vs_outside s) (vs_seen s)
                               (vset_add address (vs_duplicates s)))
             | None => Ok (Build_vote_scan (vs_malformed s) (vs_outside s) (vs_seen s ++ [(address, p)])
                             (vs_duplicates s))
             end
  | _ => Ok (Build_vote_scan true (vs_outside s) (vs_seen s) (vs_duplicates s))
  end.

(** [{v["address"] for v in validators if v.get("address")}] *)
Definition active_addresses (validators : list validator) : res (list val) :=
  members ← set_of v_address (fun _ => true) validators;
  Ok (foldl (fun s v => vset_add v s) [] members).
Definition validator_key_types (validators : list validator) : list (val * val) :=
  foldl (fun m v => if truthy (v_address v) then vmap_set (v_address v) (v_pub_key_type v) m else m)
    [] validators.

Definition vote_row (height : Z) (s : vote_scan) (cbid : NormalizedBlockID) (types : list (val * val))
    (address : val) : res signature_row :=
  match vmap_get address (vs_seen s) with
  | None => Ok (Build_signature_row height address "absent" false None false false None None)
  | Some precommit =>
      if existsb (py_eq address) (vs_duplicates s) then
        Ok (Build_signature_row height address "invalid" false None false false None
              (Some (VDict precommit)))
      else classify_precommit height address precommit cbid (default VNone (vmap_get address types))
  end.

Definition classify_votes (height : Z) (c : commit) (validators : list validator) : res (list signature_row) :=
  active ← active_addresses validators;
  cbid ← commit_block_id c;
  let types := validator_key_types validators in
  s ← foldM_res (scan_precommit active) (Build_vote_scan false [] [] []) (c_precommits c);
  _ ← raise_if (vs_malformed s) (RpcError "Malformed non-null precommit: ");
  _ ← (match vs_outside s with
       | [] => Ok tt
       | outside =>
           sorted ← py_sorted outside;
           if forallb is_str sorted then Raise (RpcError "Signer outside active validator set: ")
           else Raise TypeError
       end);
  sorted ← py_sorted active;
  mapM_res (vote_row height s cbid types) sorted.

(** ** Execution results *)
Definition MAX_RESULT_TEXT_BYTES : Z := 64 * 1024.
Definition MAX_RESULT_JSON_BYTES : Z := 256 * 1024.

Definition sanitize_str (s : string) : string := replace_char zero (json_u 0) s.
Fixpoint sanitize_rpc_value (v : val) : val :=
  match v with
  | VStr s => VStr (sanitize_str s)
  | VDict d =>
      VDict ((fix go acc d := match d with
                              | [] => acc
                              | (k, x) :: d' => go (dict_set (sanitize_str k) (sanitize_rpc_value x) acc) d'
                              end) [] d)
  | VList l => VList (map sanitize_rpc_value l)
  | _ => v
  end.

Section results.
Context `{PyRuntime}.

(** [json.dumps(v, separators=(",", ":"))] *)
Definition json_ascii_compact : json_opts := Build_json_opts true true "," ":" false.
Definition json_ascii_sorted : json_opts := Build_json_opts true true "," ":" true.

Definition bounded (value : val) (name : string) (limit : Z) : res val :=
  match value with
  | VNone => Ok VNone
  | VStr _ | VDict _ | VList _ =>
      let sanitized := sanitize_rpc_value value in
      encoded ← (match sanitized with VStr s => Ok s | _ => json_dumps json_ascii_compact sanitized end);
      _ ← raise_if (limit <? Z.of_nat (String.length encoded)) (RpcError ("block_results " +:+ name +:+ " exceeds limit"));
      Ok sanitized
  | _ => Raise (RpcError ("Malformed block_results " +:+ name))
  end.

Definition gas (value : val) (name : string) : res Z :=
  let bad := RpcError ("Malformed block_results " +:+ name) in
  match value with
  | VStr _ | VInt _ =>
      _ ← (match value with
           | VStr s => raise_if (String.eqb s "" || negb (py_isdigit s)) bad
           | _ => Ok tt
           end);
      parsed ← py_int value;
      if parsed <? 0 then Raise bad
      else
        text ← py_str_int parsed;
        _ ← raise_if (78 <? py_len text) bad;
        Ok parsed
  | _ => Raise bad
  end.

Definition error_text_of (error : val) : res (option string) :=
  match error with
  | VNone => Ok None
  | VStr _ => b ← bounded error "Error" MAX_RESULT_TEXT_BYTES; Ok (as_str b)
  | _ => b ← bounded error "Error" MAX_RESULT_TEXT_BYTES;
         t ← json_dumps json_ascii_sorted b; Ok (Some t)
  end.

(** [d.get(k1, d.get(k2))] *)
Definition dget2 (d : list (string * val)) (k1 k2 : string) : val :=
  match dict_get k1 d with Some x => x | None => dget d k2 end.

Definition execution_result_of (height index : Z) (item : val) : res execution_result :=
  match item with
  | VDict i =>
      match dget2 i "ResponseBase" "response_base" with
      | VDict base =>
          let error := dget2 base "Error" "error" in
          error_text ← error_text_of error;
          _ ← raise_if (match error_text with Some t => String.eqb (py_strip t) "" | None => false end)
                (RpcError "Ambiguous deliver_tx error");
          raw ← bounded item "raw_result" MAX_RESULT_JSON_BYTES;
          gas_wanted ← gas (dget2 i "GasWanted" "gas_wanted") "GasWanted";
          gas_used ← gas (dget2 i "GasUsed" "gas_used") "GasUsed";
          log ← bounded (dget2 base "Log" "log") "Log" MAX_RESULT_TEXT_BYTES;
          info ← bounded (dget2 base "Info" "info") "Info" MAX_RESULT_TEXT_BYTES;
          data ← bounded (dget2 base "Data" "data") "Data" MAX_RESULT_TEXT_BYTES;
          events ← bounded (dget2 base "Events" "events") "Events" MAX_RESULT_JSON_BYTES;
          Ok (Build_execution_result height index (if is_None error then "success" else "failed")
                gas_wanted gas_used error_text log info data events raw)
      | _ => Raise (RpcError "Malformed deliver_tx.ResponseBase")
      end
  | _ => Raise (RpcError "Malformed deliver_tx")
  end.

Definition deliver_list (results : val) : res val :=
  match results with
  | VNone => Ok (VList [])
  | VDict r => let d := dget2 r "deliver_tx" "deliverTx" in Ok (if is_None d then VList [] else d)
  | _ => Raise (RpcError "Malformed block_results results")
  end.

Definition parse_execution_results (height : Z) (payload : val) (tx_count : Z) : res (list execution_result) :=
  match payload with
  | VDict p =>
      match dget p "result" with
      | VDict r =>
          g ← gas (por (dget r "height") (dget r "Height")) "height";
          _ ← require (g =? height) (RpcError "block_results height mismatch while parsing");
          deliver ← deliver_list (dget r "results");
          match deliver with
          | VList l =>
              _ ← require (Z.of_nat (length l) =? tx_count) (RpcError "Transaction/result count mismatch at height");
              mapM_res (fun ix => execution_result_of height (Z.of_nat ix.1) ix.2) (enumerate l)
          | _ => Raise (RpcError "Transaction/result count mismatch at height")
          end
      | _ => Raise (RpcError "Malformed block_results result")
      end
  | _ => Raise (RpcError "Malformed block_results: expected object")
  end.

Definition with_raw (raw : val) (c : commit) : commit :=
  Build_commit (c_height c) (c_header_height c) (c_precommits c) (c_canonical c) raw.

Definition parse_height {D} `{TransactionDecoder D} (height : Z)
    (block_payload block_results_payload commit_payload validators_payload : val)
    (dec : option D) : res ParsedHeight * option D :=
  let '(parsed_block, dec') := parse_height_block block_payload dec in
  (blk ← parsed_block;
   cm ← parse_commit commit_payload;
   let cm := with_raw commit_payload cm in
   vd ← parse_validators validators_payload;
   _ ← require (bool_decide (b_height blk = Some height) && (c_height cm =? height)
                && (vd_block_height vd =? height)) (RpcError "Height mismatch while parsing");
   signatures ← classify_votes height cm (vd_validators vd);
   execution_results ← parse_execution_results height block_results_payload
                         (Z.of_nat (length (b_transactions blk)));
   Ok (Build_ParsedHeight height blk (b_transactions blk) execution_results (vd_validators vd)
         signatures block_payload), dec').
End results.

(** ** Properties *)

(** *** Transactions *)
Section transaction_proofs.
Context `{PyRuntime} {D : Type} `{TransactionDecoder D}.

(** A summary produced by the normalizer or its generic fallback. *)
Definition summary_form (v : val) : Prop := exists s, v = summary_val s /\ summary_ok s.

Lemma normalize_record_form v f s : normalize_record v f = Ok s -> summary_ok s.
Proof.
  unfold normalize_record. destruct (normalize_body v) eqn:E.
  - intros [= <-]. by apply (normalize_body_Ok v).
  - case_match; [|done]. intros [= <-]. apply generic_record_ok.
Qed.

Lemma decode_summary_form raw len dec : summary_form (decode_summary raw len dec).1.
Proof.
  assert (summary_form (generic_summary "unparsed")) as Hg
    by (exists (generic_record "unparsed"); split; [done|apply generic_record_ok]).
  unfold decode_summary. destruct dec as [d|]; [|done].
  destruct (decode raw len d) as [[[c|]|e] d']; try done. simpl.
  destruct (normalize_record c "unparsed") as [s|e] eqn:E; [|done].
  apply normalize_record_form in E. case_match; [|done]. by exists s.
Qed.

(** The record of one transaction, given its raw text. *)
Record tx_ok (index : Z) (raw : string) (p : parsed_tx) : Prop := {
  tx_index : px_index p = index;
  tx_raw : px_raw_base64 p = raw;
  tx_length : px_raw_base64_length p = py_len raw;
  tx_summary : summary_form (px_payload_summary p);
  tx_decoded : match b64decode raw with
    | Ok b => px_decode_status p = "decoded" /\ px_decoded_bytes p = Some b /\
              px_decoded_byte_length p = Some (Z.of_nat (length b)) /\
              px_tx_hash_hex p = Some (hex_upper (sha256 b)) /\ is_hash_hex (hex_upper (sha256 b)) = true
    | Raise _ => px_decode_status p = "invalid_base64" /\ px_decoded_bytes p = None /\
              px_decoded_byte_length p = None /\ px_tx_hash_hex p = None
    end
}.

Lemma parse_tx_Ok index tx dec p dec' :
  parse_tx index tx dec = (Ok p, dec') -> exists raw, tx_raw_base64 tx = Ok raw /\ tx_ok index raw p.
Proof.
  unfold parse_tx. destruct (tx_raw_base64 tx) as [raw|]; [|done].
  destruct (b64decode raw) as [b|e] eqn:E.
  - pose proof (decode_summary_form raw (Z.of_nat (length b)) dec) as Hs.
    destruct (decode_summary _ _ dec) as [s d']. intros [= <- <-]. exists raw. split; [done|].
    split; simpl; try done. rewrite E. split_and!; try done.
    apply hex_upper_hash, sha256_length.
  - intros [= <- <-]. exists raw. split; [done|]. split; simpl; try done.
    + exists (generic_record "invalid"). split; [done|apply generic_record_ok].
    + by rewrite E.
Qed.
End transaction_proofs.

(** Every text transaction is recorded, whatever the decoder does: with or
    without a decoder, and whether the decoder answers, refuses or raises, the
    record has the raw text and its index, is marked decoded exactly when the
    text is strict base64, then carries the decoded bytes, their length and
    the SHA-256 of the bytes as 64 uppercase hexadecimal digits, and its
    summary is well formed and bounded. *)
Theorem parse_tx_recorded `{PyRuntime} {D} `{TransactionDecoder D} index raw (dec : option D) :
  exists p dec', parse_tx index (VStr raw) dec = (Ok p, dec') /\ tx_ok index raw p.
Proof.
  destruct (parse_tx index (VStr raw) dec) as [[p|e] dec'] eqn:E.
  - exists p, dec'. split; [done|]. by apply parse_tx_Ok in E as (raw' & [= <-] & Hp).
  - unfold parse_tx in E. simpl in E. destruct (b64decode raw); [|done].
    by destruct (decode_summary _ _ dec).
Qed.

(** *** Block identifiers *)
Lemma block_ids_match_spec l r :
  block_ids_match l r = true <->
  is_zero l = false /\ is_zero r = false /\ hash_base64 l = hash_base64 r /\
  parts_total l = parts_total r /\ parts_hash_base64 l = parts_hash_base64 r.
Proof.
  unfold block_ids_match. rewrite !andb_true_iff, !negb_true_iff, !bool_decide_eq_true. tauto.
Qed.

(** A non-zero identifier is complete and its hexadecimal texts are those of
    its base64 texts; a zero identifier carries no hexadecimal text. *)
Definition block_id_ok (b : NormalizedBlockID) : Prop :=
  if is_zero b then hash_hex b = None /\ parts_hash_hex b = None /\ zero_total (parts_total b) = true
  else exists h hb t ph pb,
    hash_base64 b = Some h /\ b64decode h = Ok hb /\ hash_hex b = Some (hex_upper hb) /\
    parts_total b = Some t /\ 0 <= t /\
    parts_hash_base64 b = Some ph /\ b64decode ph = Ok pb /\ parts_hash_hex b = Some (hex_upper pb).

Lemma decode_base64_str s n b : decode_base64 (VStr s) n = Ok b -> b64decode s = Ok b.
Proof. simpl. case_match; [done|]. by destruct (b64decode s). Qed.

Lemma normalize_block_id_Ok v n b : normalize_block_id v n = Ok b -> block_id_ok b.
Proof.
  unfold normalize_block_id. destruct v as [| | | | | |d]; try done.
  destruct (por (por (por (dget d "parts") _) _) _) as [| | | | | |p]; try done.
  intros Hb. inv_res. destruct a1.
  - inv_res. unfold block_id_ok. simpl. split_and!; try done.
    destruct a0; [|done]. by destruct (zero_total a).
  - destruct (por (dget d "hash") (dget d "Hash")) as [| | | |h| |]; try done. inv_res.
    destruct a as [t|]; [|done]. inv_res.
    destruct (por (dget p "hash") (dget p "Hash")) as [| | | |ph| |]; try done. inv_res.
    apply decode_base64_str in Ha5, Ha6. unfold block_id_ok. simpl.
    exists h, a3, t, ph, a4. split_and!; try done. lia.
Qed.

(** A match of two block identifiers is a match of hashes: for normalized
    identifiers, [block_ids_match] is symmetric, never holds for a zero
    identifier, and when it holds the decoded block hashes, the decoded parts
    hashes and the part counts are the same. *)
Theorem block_ids_match_sound v w n m l r :
  normalize_block_id v n = Ok l -> normalize_block_id w m = Ok r ->
  block_ids_match l r = block_ids_match r l /\
  (block_ids_match l r = true ->
   is_zero l = false /\ is_zero r = false /\
   exists h p t, hash_hex l = Some h /\ hash_hex r = Some h /\
     parts_hash_hex l = Some p /\ parts_hash_hex r = Some p /\
     parts_total l = Some t /\ parts_total r = Some t).
Proof.
  intros Hl%normalize_block_id_Ok Hr%normalize_block_id_Ok. split.
  - destruct (block_ids_match l r) eqn:E1, (block_ids_match r l) eqn:E2; try done; exfalso.
    + apply block_ids_match_spec in E1. enough (block_ids_match r l = true) by congruence.
      apply block_ids_match_spec. naive_solver.
    + apply block_ids_match_spec in E2. enough (block_ids_match l r = true) by congruence.
      apply block_ids_match_spec. naive_solver.
  - intros (Zl & Zr & E1 & E2 & E3)%block_ids_match_spec. split_and!; [done|done|].
    unfold block_id_ok in Hl, Hr. rewrite Zl in Hl. rewrite Zr in Hr.
    destruct Hl as (h & hb & t & ph & pb & H1 & H2 & H3 & H4 & _ & H5 & H6 & H7).
    destruct Hr as (h' & hb' & t' & ph' & pb' & K1 & K2 & K3 & K4 & _ & K5 & K6 & K7).
    exists (hex_upper hb), (hex_upper pb), t.
    assert (h' = h) as -> by congruence. assert (ph' = ph) as -> by congruence.
    assert (hb' = hb) as -> by congruence. assert (pb' = pb) as -> by congruence.
    split_and!; congruence.
Qed.

Lemma block_ids_match_sound_witness :
  exists l, normalize_block_id (demo_block_id 3) "Commit.BlockID" = Ok l /\ is_zero l = false.
Proof.
  eexists. split; [vm_compute; reflexivity|].
  eapply (block_ids_match_sound (demo_block_id 3) (demo_block_id 3) "Commit.BlockID" "Vote.BlockID");
    vm_compute; reflexivity.
Defined.

(** *** Votes *)

(** The precommits signed with text address [a], in order. *)
Definition precommits_of (a : string) (l : list val) : list (list (string * val)) :=
  omap (fun v => match v with
                 | VDict p => if bool_decide (signer_address v = VStr a) then Some p else None
                 | _ => None
                 end) l.

(** The key type that counts for address [a]: the last validator's. *)
Definition key_type_of (a : string) (l : list validator) : val :=
  default VNone (last (omap (fun v => if bool_decide (v_address v = VStr a)
                                      then Some (v_pub_key_type v) else None) l)).

(** The reference reading of one validator's vote. *)
Definition reference_row (height : Z) (c : commit) (validators : list validator)
    (cbid : NormalizedBlockID) (a : string) : res signature_row :=
  match precommits_of a (c_precommits c) with
  | [] => Ok (Build_signature_row height (VStr a) "absent" false None false false None None)
  | [p] => classify_precommit height (VStr a) p cbid (key_type_of a validators)
  | p :: _ => Ok (Build_signature_row height (VStr a) "invalid" false None false false None (Some (VDict p)))
  end.

Lemma vmap_get_set {A} (v w : val) (x : A) m :
  (forall u, u ∈ m.*1 -> is_str u = true) -> is_str v = true -> is_str w = true ->
  vmap_get w (vmap_set v x m) = if bool_decide (w = v) then Some x else vmap_get w m.
Proof.
  intros Hm Hv Hw. destruct v as [| | | |v| |], w as [| | | |w| |]; try done. clear Hv Hw.
  induction m as [|[u y] m IH]; simpl.
  - destruct (String.eqb_spec w v) as [->|]; [by rewrite bool_decide_eq_true_2|].
    rewrite bool_decide_eq_false_2 by congruence. done.
  - assert (is_str u = true) as Hu by (apply Hm; left).
    destruct u as [| | | |u| |]; try done. simpl.
    destruct (String.eqb_spec v u) as [->|Hvu]; simpl.
    + destruct (String.eqb_spec w u) as [->|]; [by rewrite bool_decide_eq_true_2|].
      rewrite bool_decide_eq_false_2 by congruence. done.
    + destruct (String.eqb_spec w u) as [->|Hwu].
      * rewrite bool_decide_eq_false_2 by congruence. done.
      * apply IH. intros z Hz. apply Hm. by right.
Qed.

Lemma vmap_keys_set {A} (v : val) (x : A) m u :
  u ∈ (vmap_set v x m).*1 -> u = v \/ u ∈ m.*1.
Proof.
  induction m as [|[w y] m IH]; simpl; [set_solver|]. destruct (py_eq v w); simpl; set_solver.
Qed.

Lemma vmap_get_app {A} (v : val) (m n : list (val * A)) :
  vmap_get v (m ++ n) = match vmap_get v m with Some x => Some x | None => vmap_get v n end.
Proof. induction m as [|[w x] m IH]; simpl; [done|]. by destruct (py_eq v w). Qed.

Definition text_addresses (validators : list validator) : Prop :=
  forall v, v ∈ validators -> truthy (v_address v) = true -> is_str (v_address v) = true.

Lemma key_types_get validators a :
  text_addresses validators -> a <> "" ->
  default VNone (vmap_get (VStr a) (validator_key_types validators)) = key_type_of a validators.
Proof.
  intros Ht Ha. unfold validator_key_types, key_type_of.
  assert (forall l (m : list (val * val)),
    (forall v, v ∈ l -> truthy (v_address v) = true -> is_str (v_address v) = true) ->
    (forall u, u ∈ m.*1 -> is_str u = true) ->
    vmap_get (VStr a) (foldl (fun m v => if truthy (v_address v)
        then vmap_set (v_address v) (v_pub_key_type v) m else m) m l)
    = match last (omap (fun v => if bool_decide (v_address v = VStr a)
          then Some (v_pub_key_type v) else None) l) with
      | Some k => Some k | None => vmap_get (VStr a) m end) as H.
  { clear validators Ht. induction l as [|v l IH] using rev_ind; intros m Hl Hm; [done|].
    rewrite foldl_app, omap_app. simpl.
    assert (forall l m u, (forall v, v ∈ l -> truthy (v_address v) = true -> is_str (v_address v) = true) ->
      (forall u, u ∈ m.*1 -> is_str u = true) ->
      u ∈ (foldl (fun m v => if truthy (v_address v)
        then vmap_set (v_address v) (v_pub_key_type v) m else m) m l).*1 -> is_str u = true) as Hk.
    { clear. induction l as [|w l IH]; intros m u Hl Hm; simpl; [apply Hm|]. apply IH.
      - intros; apply Hl; [by right|done].
      - intros z. destruct (truthy (v_address w)) eqn:E; [|apply Hm].
        intros [->|?]%vmap_keys_set; [apply Hl; [left|done]|by apply Hm]. }
    assert (forall w, w ∈ l -> truthy (v_address w) = true -> is_str (v_address w) = true) as Hl'.
    { intros w Hw. apply Hl. set_solver. }
    destruct (truthy (v_address v)) eqn:E.
    - rewrite vmap_get_set; [|intros u; by apply Hk|apply Hl; [set_solver|done]|done].
      destruct (decide (v_address v = VStr a)) as [Hv|Hv].
      + rewrite !bool_decide_eq_true_2 by done. by rewrite last_snoc.
      + rewrite !bool_decide_eq_false_2 by congruence. rewrite app_nil_r. by apply IH.
    - rewrite bool_decide_eq_false_2, app_nil_r; [by apply IH|].
      intros Hv. rewrite Hv in E. simpl in E. by destruct (String.eqb_spec a ""). }
  rewrite H by (done || by intros u ?%elem_of_nil). by destruct (last _).
Qed.

(** The scan of the precommits, for one text address. *)
Record scan_at (a : string) (s s' : vote_scan) (l : list val) : Prop := {
  sc_malformed : vs_malformed s' = false -> vs_malformed s = false;
  sc_outside : vs_outside s' = [] -> vs_outside s = [];
  sc_seen : vs_malformed s' = false -> vs_outside s' = [] ->
    vmap_get (VStr a) (vs_seen s')
    = match vmap_get (VStr a) (vs_seen s) with
      | Some p => Some p
      | None => head (precommits_of a l)
      end;
  sc_duplicates : vs_malformed s' = false -> vs_outside s' = [] ->
    existsb (py_eq (VStr a)) (vs_duplicates s')
    = existsb (py_eq (VStr a)) (vs_duplicates s)
      || match vmap_get (VStr a) (vs_seen s) with
         | Some _ => Nat.leb 1 (length (precommits_of a l))
         | None => Nat.leb 2 (length (precommits_of a l))
         end
}.

Lemma precommits_of_cons a v l :
  precommits_of a (v :: l) = precommits_of a [v] ++ precommits_of a l.
Proof. unfold precommits_of. apply (omap_app _ [v]). Qed.

Lemma in_active_str v active inside :
  Forall (fun w => is_str w = true) active -> py_in_set v active = Ok inside -> inside = true ->
  v ∈ active.
Proof.
  unfold py_in_set. intros Hs H ->. destruct (hashable v); [|done].
  apply Ok_inj, existsb_exists in H as (w & Hw%list_elem_of_In & He).
  rewrite Forall_forall in Hs. specialize (Hs w Hw). destruct w as [| | | |w| |]; try done.
  by apply py_eq_str in He as ->.
Qed.

Lemma existsb_vset_add a v s :
  existsb (py_eq (VStr a)) (vset_add v s) = existsb (py_eq (VStr a)) s || py_eq (VStr a) v.
Proof.
  unfold vset_add. destruct (existsb (py_eq v) s) eqn:E.
  - destruct (py_eq (VStr a) v) eqn:Ev; [|by rewrite orb_false_r].
    apply py_eq_str_l in Ev as ->. by rewrite E.
  - rewrite existsb_app. simpl. by rewrite orb_false_r.
Qed.

Lemma scan_step a active s v s' :
  a <> "" -> Forall (fun w => is_str w = true) active ->
  scan_precommit active s v = Ok s' -> scan_at a s s' [v].
Proof.
  intros Ha Hact. unfold scan_precommit.
  destruct v as [| | | | | |p]; try (intros [= <-]; by split).
  { intros [= <-]. split; simpl; try done; intros _ _; by destruct (vmap_get _ _); rewrite ?orb_false_r. }
  destruct (truthy (signer_address (VDict p))) eqn:Et; simpl negb; cbv iota; cycle 1.
  { intros [= <-]. by split. }
  intros H. apply bind_Ok in H as (inside & Hin & H).
  destruct inside; cbn [negb] in H; cycle 1.
  { injection H as <-. split; simpl; try done; intros; by destruct (vs_outside s). }
  pose proof (in_active_str _ _ _ Hact Hin eq_refl) as Hm.
  rewrite Forall_forall in Hact. specialize (Hact _ Hm).
  assert (precommits_of a [VDict p] = if bool_decide (signer_address (VDict p) = VStr a) then [p] else []) as Hp.
  { unfold precommits_of. simpl. by destruct (bool_decide _). }
  set (sa := signer_address (VDict p)) in *. clearbody sa.
  destruct sa as [| | | |b| |]; try done.
  destruct (vmap_get (VStr b) (vs_seen s)) as [q|] eqn:Eb; apply Ok_inj in H as <-;
    split; cbn [vs_malformed vs_outside vs_seen vs_duplicates]; try done; intros _ _; rewrite Hp.
  - destruct (bool_decide_reflect (VStr b = VStr a)) as [[= ->]|Hne]; [by rewrite Eb|].
    by destruct (vmap_get (VStr a) (vs_seen s)).
  - rewrite existsb_vset_add. f_equal. simpl.
    destruct (bool_decide_reflect (VStr b = VStr a)) as [[= ->]|Hne].
    + rewrite Eb, String.eqb_refl. done.
    + destruct (String.eqb_spec a b) as [->|]; [done|]. by destruct (vmap_get (VStr a) (vs_seen s)).
  - rewrite vmap_get_app. destruct (vmap_get (VStr a) (vs_seen s)) eqn:Ea; [done|]. simpl.
    destruct (bool_decide_reflect (VStr b = VStr a)) as [[= ->]|Hne]; [by rewrite String.eqb_refl|].
    destruct (String.eqb_spec a b) as [->|]; done.
  - destruct (bool_decide_reflect (VStr b = VStr a)) as [[= ->]|Hne].
    + rewrite Eb. by rewrite orb_false_r.
    + destruct (vmap_get (VStr a) (vs_seen s)); simpl; by rewrite orb_false_r.
Qed.

Lemma scan_trans a s1 s2 s3 v l :
  scan_at a s1 s2 [v] -> scan_at a s2 s3 l -> scan_at a s1 s3 (v :: l).
Proof.
  intros [M1 O1 S1 D1] [M2 O2 S2 D2]. split; [auto|auto| |].
  - intros Hm Ho. rewrite (S2 Hm Ho), (S1 (M2 Hm) (O2 Ho)), (precommits_of_cons a v l).
    destruct (vmap_get (VStr a) (vs_seen s1)); [done|].
    by destruct (precommits_of a [v]).
  - intros Hm Ho. rewrite (D2 Hm Ho), (D1 (M2 Hm) (O2 Ho)), (S1 (M2 Hm) (O2 Ho)).
    rewrite (precommits_of_cons a v l), length_app, <-orb_assoc. f_equal.
    destruct (vmap_get (VStr a) (vs_seen s1)).
    + destruct (precommits_of a [v]) as [|x [|y m]]; simpl; done.
    + destruct (precommits_of a [v]) as [|x [|y m]]; simpl; done.
Qed.

Lemma scan_all a active l s s' :
  a <> "" -> Forall (fun w => is_str w = true) active ->
  foldM_res (scan_precommit active) s l = Ok s' -> scan_at a s s' l.
Proof.
  intros Ha Hact. revert s. induction l as [|v l IH]; intros s; simpl.
  - intros [= <-]. split; simpl; try done; intros _ _; by destruct (vmap_get _ _); rewrite ?orb_false_r.
  - intros (s1 & H1 & H2)%bind_Ok. eapply scan_trans; [by eapply scan_step|by apply IH].
Qed.

Lemma vset_fold l s : (forall u, u ∈ l ++ s -> is_str u = true) -> NoDup s ->
  let r := foldl (fun s v => vset_add v s) s l in
  NoDup r /\ forall u, u ∈ r <-> u ∈ s \/ u ∈ l.
Proof.
  revert s. induction l as [|v l IH]; intros s Hs Hn; simpl; [set_solver|].
  assert (is_str v = true) as Hv by (apply Hs; left).
  unfold vset_add at 2 4. destruct v as [| | | |v| |]; try done.
  destruct (existsb (py_eq (VStr v)) s) eqn:E.
  - destruct (IH s) as [H1 H2]; [intros u Hu; apply Hs; set_solver|done|].
    split; [done|]. intros u. rewrite H2. apply in_set_str in E. set_solver.
  - assert (VStr v ∉ s) as Hvs by (rewrite <-in_set_str; by rewrite E).
    destruct (IH (s ++ [VStr v])) as [H1 H2]; [intros u Hu; apply Hs; set_solver| |].
    + apply NoDup_app. split; [done|]. split; [set_solver|apply NoDup_singleton].
    + split; [done|]. intros u. rewrite H2. set_solver.
Qed.

Lemma active_addresses_Ok validators active :
  text_addresses validators -> active_addresses validators = Ok active ->
  Forall (fun w => is_str w = true) active /\ NoDup active /\
  forall a, VStr a ∈ active <-> a <> "" /\ exists v, v ∈ validators /\ v_address v = VStr a.
Proof.
  unfold active_addresses. intros Ht H. apply bind_Ok in H as (members & Hm & <-%Ok_inj).
  pose proof (set_of_Ok _ _ _ _ Hm) as Hs.
  assert (forall u, u ∈ members -> is_str u = true) as Hstr.
  { intros u Hu. apply Hs in Hu as (v & Hv & Hvt & _ & ->). by apply Ht. }
  destruct (vset_fold members []) as [H1 H2]; [by rewrite app_nil_r|constructor|].
  split_and!; [|done|].
  - apply Forall_forall. intros u [?%elem_of_nil|Hu]%H2; [done|auto].
  - intros a. rewrite H2, Hs. split.
    + intros [?%elem_of_nil|(v & Hv & Hvt & _ & Ha)]; [done|]. split; [|eauto].
      intros ->. by rewrite <-Ha in Hvt.
    + intros [Ha (v & Hv & Hva)]. right. exists v. rewrite Hva. split_and!; try done.
      simpl. by destruct (String.eqb_spec a "").
Qed.

Lemma py_sorted_strs l :
  Forall (fun w => is_str w = true) l -> NoDup l ->
  exists addrs, py_sorted l = Ok (map VStr addrs) /\ StronglySorted (fun a b => str_leb a b = true) addrs
    /\ NoDup addrs /\ forall a, a ∈ addrs <-> VStr a ∈ l.
Proof.
  intros Hs Hn. unfold py_sorted.
  assert (forallb is_str l = true) as ->.
  { apply forallb_forall. intros x Hx%list_elem_of_In. rewrite Forall_forall in Hs. auto. }
  exists (sort_str (map str_of_val l)). split; [done|]. split; [apply sort_str_sorted|].
  assert (l = map VStr (map str_of_val l)) as Hl.
  { clear Hn. induction Hs as [|w l Hw _ IH]; [done|]. simpl. rewrite <-IH. by destruct w. }
  split.
  - apply NoDup_sort_by. rewrite Hl in Hn. by apply NoDup_fmap_1 in Hn.
  - intros a. unfold sort_str. rewrite elem_of_sort_by. rewrite Hl at 2.
    split; [apply list_elem_of_fmap_2|]. intros (b & Hab & Hb)%list_elem_of_fmap. by simplify_eq.
Qed.

Lemma classify_votes_rows height c validators rows :
  text_addresses validators -> classify_votes height c validators = Ok rows ->
  exists addrs cbid,
    StronglySorted (fun a b => str_leb a b = true) addrs /\ NoDup addrs /\
    (forall a, a ∈ addrs <-> a <> "" /\ exists v, v ∈ validators /\ v_address v = VStr a) /\
    commit_block_id c = Ok cbid /\
    mapM_res (reference_row height c validators cbid) addrs = Ok rows.
Proof.
  intros Ht H. unfold classify_votes in H.
  apply bind_Ok in H as (active & Hact & H). apply bind_Ok in H as (cbid & Hc & H).
  apply bind_Ok in H as (s & Hs & H). apply bind_Ok in H as (u & Hm & H).
  apply raise_if_Ok in Hm. apply bind_Ok in H as ([] & Ho & H).
  apply bind_Ok in H as (sorted & Hsort & H).
  destruct (active_addresses_Ok _ _ Ht Hact) as (Hstr & Hn & Hin).
  destruct (py_sorted_strs _ Hstr Hn) as (addrs & Hpa & Hss & Hna & Hea).
  rewrite Hpa in Hsort. apply Ok_inj in Hsort as <-.
  assert (vs_outside s = []) as Hout.
  { destruct (vs_outside s); [done|]. apply bind_Ok in Ho as (? & _ & Ho). by case_match. }
  exists addrs, cbid. split_and!; try done.
  { intros a. rewrite Hea. apply Hin. }
  assert (forall a, a ∈ addrs ->
    vote_row height s cbid (validator_key_types validators) (VStr a)
    = reference_row height c validators cbid a) as Hrow.
  { intros a Ha. apply Hea, Hin in Ha as [Ha _].
    destruct (scan_all a active _ _ _ Ha Hstr Hs) as [_ _ Hseen Hdup].
    specialize (Hseen Hm Hout). specialize (Hdup Hm Hout).
    cbn [vs_seen vs_duplicates vmap_get existsb orb] in Hseen, Hdup.
    unfold vote_row, reference_row. rewrite Hseen, Hdup, (key_types_get _ _ Ht Ha).
    destruct (precommits_of a (c_precommits c)) as [|p [|q l]]; done. }
  clear -H Hrow. apply mapM_res_Forall2. apply mapM_res_Forall2 in H.
  revert rows H. induction addrs as [|a addrs IH]; intros rows H; inversion H; subst; constructor.
  - rewrite <-Hrow by left. done.
  - apply IH; [|done]. intros b Hb. apply Hrow. by right.
Qed.

(** C11. Votes are classified validator by validator: when the validators'
    addresses are texts and classification succeeds, there is exactly one row
    per distinct active address, in sorted order, and the row is the one the
    reference reading gives: absent when no precommit carries the address,
    invalid when several do, and otherwise decided by the single precommit,
    the commit's block identifier and the validator's key type. *)
Theorem classify_votes_reference height c validators rows :
  text_addresses validators -> classify_votes height c validators = Ok rows ->
  exists addrs cbid,
    StronglySorted (fun a b => str_leb a b = true) addrs /\ NoDup addrs /\
    (forall a, a ∈ addrs <-> a <> "" /\ exists v, v ∈ validators /\ v_address v = VStr a) /\
    commit_block_id c = Ok cbid /\
    mapM_res (reference_row height c validators cbid) addrs = Ok rows.
Proof. apply classify_votes_rows. Qed.

Definition demo_validator (a : string) : validator :=
  Build_validator (VStr a) (Some 10) None (VStr "/tm.PubKeyEd25519") (Some "Ed25519") (VStr "k").
Definition demo_commit_record (precommits : list val) : commit :=
  Build_commit 11 11 precommits true (demo_commit 11 5 precommits).

Lemma demo_text_addresses : text_addresses [demo_validator "g1b"; demo_validator "g1a"].
Proof.
  intros v [-> |[-> |Hv%elem_of_nil]%elem_of_cons]%elem_of_cons _; done.
Qed.

Lemma classify_votes_reference_witness :
  exists rows,
    classify_votes 11 (demo_commit_record [demo_precommit "g1a" 5; VNone]) [demo_validator "g1b"; demo_validator "g1a"]
    = Ok rows /\ length rows = 2%nat.
Proof.
  eexists. split; [vm_compute; reflexivity|].
  destruct (classify_votes_reference 11 (demo_commit_record [demo_precommit "g1a" 5; VNone])
    [demo_validator "g1b"; demo_validator "g1a"] _ demo_text_addresses
    ltac:(vm_compute; reflexivity)) as (addrs & cbid & _ & _ & _ & _ & _). reflexivity.
Defined.

Lemma usable_signature_true s t :
  usable_signature s t = Ok true ->
  exists text decoded, s = Some text /\ b64decode text = Ok decoded /\ length decoded = 64%nat /\
    t ∈ SUPPORTED_SIGNATURE_KEY_TYPES.
Proof.
  unfold usable_signature. intros H. apply bind_Ok in H as (sup & Hs & H).
  destruct sup; [|done]. simpl in H. destruct s as [s|]; [|done].
  destruct (String.eqb s ""); [done|]. destruct (b64decode s) as [d|] eqn:Ed; [|done].
  apply Ok_inj, Nat.eqb_eq in H. exists s, d. split_and!; try done.
  eapply in_active_str; [|exact Hs|done]. unfold SUPPORTED_SIGNATURE_KEY_TYPES.
  repeat constructor.
Qed.

Lemma classify_precommit_signed height a p cbid t r :
  classify_precommit height a p cbid t = Ok r ->
  sg_height r = height /\ sg_signing_address r = a /\
  (sg_signed r = true <-> sg_vote_status r = "commit") /\
  (sg_signed r = true -> exists vote,
    normalize_block_id (precommit_block_id p) "Vote.BlockID" = Ok vote /\
    block_ids_match vote cbid = true /\ usable_signature (signature_of p) t = Ok true).
Proof.
  unfold classify_precommit. destruct (normalize_block_id _ _) as [vote|e] eqn:E; cycle 1.
  { destruct (isinstance_RpcError e); [|done]. intros <-%Ok_inj. simpl. split_and!; done. }
  intros H. apply bind_Ok in H as (ok & Hok & H).
  destruct (block_ids_match vote cbid) eqn:Em; simpl in H.
  - destruct ok.
    + apply Ok_inj in H as <-. simpl. split_and!; try done. eauto.
    + destruct (is_zero vote); apply Ok_inj in H as <-; simpl; split_and!; done.
  - destruct (is_zero vote); apply Ok_inj in H as <-; simpl; split_and!; done.
Qed.

(** A signature is never invented: a row says signed exactly when its
    status is commit, and then exactly one precommit of the commit carries
    the row's address, it names the commit's own block (never the zero
    identifier), and its signature is the base64 text of 64 bytes under a
    supported key type of that validator. *)
Theorem classify_votes_signed_sound height c validators rows r :
  text_addresses validators -> classify_votes height c validators = Ok rows -> r ∈ rows ->
  sg_height r = height /\ (sg_signed r = true <-> sg_vote_status r = "commit") /\
  (sg_signed r = true ->
   exists a p vote cbid text decoded,
     sg_signing_address r = VStr a /\ precommits_of a (c_precommits c) = [p] /\
     normalize_block_id (precommit_block_id p) "Vote.BlockID" = Ok vote /\
     commit_block_id c = Ok cbid /\ is_zero vote = false /\ hash_base64 vote = hash_base64 cbid /\
     signature_of p = Some text /\ b64decode text = Ok decoded /\ length decoded = 64%nat /\
     key_type_of a validators ∈ SUPPORTED_SIGNATURE_KEY_TYPES).
Proof.
  intros Ht Hc Hr. destruct (classify_votes_rows _ _ _ _ Ht Hc) as (addrs & cbid & _ & _ & _ & Hcb & Hrows).
  apply mapM_res_Forall2 in Hrows. apply list_elem_of_lookup in Hr as [i Hr].
  destruct (Forall2_lookup_r _ _ _ _ _ Hrows Hr) as (a & _ & Ha).
  unfold reference_row in Ha. destruct (precommits_of a (c_precommits c)) as [|p [|q l]] eqn:Ep.
  - apply Ok_inj in Ha as <-. simpl. split_and!; done.
  - destruct (classify_precommit_signed _ _ _ _ _ _ Ha) as (H1 & H2 & H3 & H4).
    split; [done|]. split; [done|]. intros Hs. destruct (H4 Hs) as (vote & Hv & Hm & Hu).
    apply block_ids_match_spec in Hm as (Hz & _ & Hh & _ & _).
    apply usable_signature_true in Hu as (text & decoded & Hst & Hd & Hl & Hk).
    exists a, p, vote, cbid, text, decoded. split_and!; done.
  - apply Ok_inj in Ha as <-. simpl. split_and!; done.
Qed.

Lemma classify_votes_signed_sound_witness :
  exists rows r,
    classify_votes 11 (demo_commit_record [demo_precommit "g1a" 5; VNone]) [demo_validator "g1b"; demo_validator "g1a"]
    = Ok rows /\ r ∈ rows /\ sg_signed r = true /\ sg_vote_status r = "commit".
Proof.
  eexists _, _. split; [vm_compute; reflexivity|]. split; [left|].
  split; [reflexivity|].
  eapply (classify_votes_signed_sound 11 (demo_commit_record [demo_precommit "g1a" 5; VNone])
    [demo_validator "g1b"; demo_validator "g1a"]);
    [apply demo_text_addresses|vm_compute; reflexivity|left|reflexivity].
Defined.

(** *** Execution results *)
Definition not_nul (c : ascii) : bool := negb (bool_decide (c = zero)).
Fixpoint nul_free (v : val) : bool :=
  match v with
  | VStr s => str_forallb not_nul s
  | VList l => forallb nul_free l
  | VDict d => (fix go d := match d with
                            | [] => true
                            | (k, x) :: d' => str_forallb not_nul k && nul_free x && go d'
                            end) d
  | _ => true
  end.

Lemma nul_free_dict d :
  nul_free (VDict d) = forallb (fun kv => str_forallb not_nul kv.1 && nul_free kv.2) d.
Proof. induction d as [|[k x] d IH]; simpl; [done|]. by rewrite <-IH. Qed.

Lemma sanitize_str_nul_free s : str_forallb not_nul (sanitize_str s) = true.
Proof.
  unfold sanitize_str. induction s as [|c s IH]; [done|]. cbn [replace_char].
  destruct (bool_decide_reflect (c = zero)) as [->|Hc].
  - rewrite str_forallb_app, IH. reflexivity.
  - simpl. rewrite IH, andb_true_r. unfold not_nul. by rewrite bool_decide_eq_false_2.
Qed.

Lemma nul_free_dict_set k x d :
  str_forallb not_nul k = true -> nul_free x = true -> nul_free (VDict d) = true ->
  nul_free (VDict (dict_set k x d)) = true.
Proof.
  intros Hk Hx. rewrite !nul_free_dict. induction d as [|[j y] d IH]; simpl.
  - by rewrite Hk, Hx.
  - intros [[H1 H2]%andb_prop H3]%andb_prop.
    destruct (String.eqb k j); simpl; rewrite H1, ?Hx, ?H3, ?H2; simpl; auto.
Qed.

Lemma sanitize_nul_free v : nul_free (sanitize_rpc_value v) = true.
Proof.
  induction v as [| | | | |l IH|d IH] using val_ind'; try done.
  - apply sanitize_str_nul_free.
  - cbn [sanitize_rpc_value nul_free]. apply forallb_forall. intros x (y & <- & Hy)%in_map_iff.
    rewrite Forall_forall in IH. apply IH. by apply list_elem_of_In.
  - cbn [sanitize_rpc_value].
    assert (forall acc, nul_free (VDict acc) = true -> nul_free (VDict
      ((fix go acc d := match d with
        | [] => acc
        | (k, x) :: d' => go (dict_set (sanitize_str k) (sanitize_rpc_value x) acc) d'
        end) acc d)) = true) as H; [|by apply H].
    induction IH as [|[k x] d Hx _ IHd]; intros acc Hacc; [done|].
    apply IHd, nul_free_dict_set; [apply sanitize_str_nul_free|done|done].
Qed.

Section result_proofs.
Context `{PyRuntime}.

(** A stored field: no NUL character and at most [limit] bytes as stored. *)
Definition field_within (limit : Z) (v : val) : Prop :=
  nul_free v = true /\
  match v with
  | VNone => True
  | VStr s => Z.of_nat (String.length s) <= limit
  | _ => exists t, json_dumps json_ascii_compact v = Ok t /\ Z.of_nat (String.length t) <= limit
  end.

Lemma bounded_Ok v n limit w : bounded v n limit = Ok w -> field_within limit w.
Proof.
  assert (forall u, (encoded ← match sanitize_rpc_value u with VStr s => Ok s | _ =>
        json_dumps json_ascii_compact (sanitize_rpc_value u) end;
      _ ← raise_if (limit <? Z.of_nat (String.length encoded)) (RpcError ("block_results " +:+ n +:+ " exceeds limit"));
      Ok (sanitize_rpc_value u)) = Ok w -> field_within limit w) as Hu.
  { intros u Hb. apply bind_Ok in Hb as (t & Ht & Hb). apply bind_Ok in Hb as (x & Hx & Hb).
    apply raise_if_Ok in Hx. apply Ok_inj in Hb as <-. split; [apply sanitize_nul_free|].
    destruct (sanitize_rpc_value u); try (exists t; split; [done|lia]); [done|].
    apply Ok_inj in Ht as <-. lia. }
  unfold bounded. destruct v; try done; try apply Hu. intros [= <-]. by split.
Qed.

Lemma gas_Ok v n z : gas v n = Ok z -> 0 <= z < 10 ^ 78.
Proof.
  unfold gas. destruct v; try done; intros Hg; apply bind_Ok in Hg as (u & _ & Hg);
    apply bind_Ok in Hg as (p & _ & Hg); (destruct (p <? 0) eqn:E; [done|]);
    apply bind_Ok in Hg as (t & Ht & Hg); apply bind_Ok in Hg as (x & Hx & Hg);
    apply raise_if_Ok in Hx; apply Ok_inj in Hg as <-;
    rewrite py_str_int_spec in Ht; (destruct (_ <=? _); [done|]); apply Ok_inj in Ht as <-;
    unfold str_of_Z in Hx; rewrite E in Hx; (split; [lia|]);
    apply (py_len_str_of_nonneg p 78); lia.
Qed.

(** The record of one delivered transaction. *)
Record result_ok (height index : Z) (r : execution_result) : Prop := {
  ro_height : er_block_height r = height;
  ro_index : er_tx_index r = index;
  ro_status : er_execution_status r = "success" /\ er_error_text r = None \/
              er_execution_status r = "failed" /\ exists t, er_error_text r = Some t /\ py_strip t <> "";
  ro_wanted : 0 <= er_gas_wanted r < 10 ^ 78;
  ro_used : 0 <= er_gas_used r < 10 ^ 78;
  ro_log : field_within MAX_RESULT_TEXT_BYTES (er_log_text r);
  ro_info : field_within MAX_RESULT_TEXT_BYTES (er_info_text r);
  ro_data : field_within MAX_RESULT_TEXT_BYTES (er_data_base64 r);
  ro_events : field_within MAX_RESULT_JSON_BYTES (er_events r);
  ro_raw : field_within MAX_RESULT_JSON_BYTES (er_raw_result r)
}.

Lemma error_text_of_None e t : error_text_of e = Ok t -> (t = None <-> e = VNone).
Proof.
  unfold error_text_of. destruct e as [| | | |s| |]; intros He; try (inv_res; by split).
  - inv_res. apply bind_Ok in Ha as (x & Hx & Ha).
    apply bind_Ok in Ha as (y & _ & Ha). by apply Ok_inj in Ha as <-.
Qed.

Lemma execution_result_Ok height index item r :
  execution_result_of height index item = Ok r -> result_ok height index r.
Proof.
  unfold execution_result_of. destruct item as [| | | | | |i]; try done.
  destruct (dget2 i "ResponseBase" "response_base") as [| | | | | |base]; try done.
  intros Hr. inv_res. pose proof (error_text_of_None _ _ Ha) as He.
  split; simpl; eauto using bounded_Ok, gas_Ok.
  destruct (dget2 base "Error" "error") eqn:E; simpl;
    try (right; split; [done|]; destruct a as [t|];
         [exists t; split; [done|]; by apply String.eqb_neq|by destruct He as [He _]; specialize (He eq_refl)]).
  left. split; [done|]. by apply He.
Qed.
End result_proofs.

Lemma parse_execution_results_facts `{PyRuntime} height payload n rs :
  parse_execution_results height payload n = Ok rs ->
  Z.of_nat (length rs) = n /\
  forall i r, rs !! i = Some r -> result_ok height (Z.of_nat i) r.
Proof.
  unfold parse_execution_results. destruct payload as [| | | | | |p]; try done.
  destruct (dget p "result") as [| | | | | |res]; try done. intros Hr.
  apply bind_Ok in Hr as (g & _ & Hr). apply bind_Ok in Hr as (u & _ & Hr).
  apply bind_Ok in Hr as (deliver & _ & Hr). destruct deliver as [| | | | |l|]; try done.
  apply bind_Ok in Hr as (x & Hx & Hr). apply require_Ok in Hx.
  pose proof (mapM_res_length _ _ _ Hr) as Hl. rewrite length_enumerate in Hl.
  split; [lia|]. intros i r Hi. apply mapM_res_Forall2 in Hr.
  destruct (Forall2_lookup_r _ _ _ _ _ Hr Hi) as ([j item] & Hj & Hok).
  apply enumerate_lookup in Hj as [Hj _]. simpl in Hj, Hok. subst j.
  by apply execution_result_Ok in Hok.
Qed.

(** Execution results are complete and bounded: when the results of a
    height are accepted there is exactly one per transaction, numbered in
    order; each is a success exactly when it has no error text and otherwise
    failed with a non-blank one, its gas amounts are naturals of at most 78
    decimal digits, and every stored text or document is free of NUL
    characters and within its byte limit. *)
Theorem parse_execution_results_ok `{PyRuntime} height payload n rs :
  parse_execution_results height payload n = Ok rs ->
  Z.of_nat (length rs) = n /\
  forall i r, rs !! i = Some r -> result_ok height (Z.of_nat i) r.
Proof. apply parse_execution_results_facts. Qed.

Definition demo_results (height : Z) : val :=
  VDict [("result", VDict [("height", VStr (str_of_Z height)); ("results", VDict [("deliver_tx",
    VList [VDict [("ResponseBase", VDict [("Error", VNone); ("Log", VStr "ok")]);
                  ("GasWanted", VStr "100"); ("GasUsed", VInt 42)]])])])].

Lemma parse_execution_results_ok_witness :
  exists r, @parse_execution_results ascii_runtime 12 (demo_results 12) 1 = Ok [r] /\
    @result_ok ascii_runtime 12 0 r.
Proof.
  eexists. split; [vm_compute; reflexivity|].
  destruct (@parse_execution_results_ok ascii_runtime 12 (demo_results 12) 1 _
    ltac:(vm_compute; reflexivity)) as [_ Hr]. apply (Hr 0%nat). reflexivity.
Defined.

(** *** One height *)
Section height_proofs.
Context `{PyRuntime} {D : Type} `{TransactionDecoder D}.

Lemma parse_block_Ok payload b :
  parse_block payload = Ok b ->
  exists data blk bd t items hb,
    result payload = Ok data /\ py_get data "block" = Ok blk /\
    py_get_def (por blk (VDict [])) "data" (VDict []) = Ok bd /\ py_get bd "txs" = Ok t /\
    py_iter (por t (VList [])) = Ok items /\ b_tx_count b = Z.of_nat (length items) /\
    (exists m i, py_get_def data "block_meta" (VDict []) = Ok m /\ py_get_def m "block_id" (VDict []) = Ok i /\
       py_get i "hash" = Ok (VStr (b_hash_base64 b))) /\
    b64decode (b_hash_base64 b) = Ok hb /\ b_hash_hex b = hex_upper hb.
Proof.
  unfold parse_block. intros Hb.
  apply bind_Ok in Hb as (data & H1 & Hb). apply bind_Ok in Hb as (blk & H2 & Hb).
  apply bind_Ok in Hb as (h & H3 & Hb). apply bind_Ok in Hb as (bd & H4 & Hb).
  apply bind_Ok in Hb as (t & H5 & Hb). apply bind_Ok in Hb as (meta & H6 & Hb).
  apply bind_Ok in Hb as (bid & H7 & Hb). apply bind_Ok in Hb as (hash & H8 & Hb).
  apply bind_Ok in Hb as (hb & H9 & Hb). apply bind_Ok in Hb as (n & _ & Hb).
  apply bind_Ok in Hb as (num & _ & Hb). destruct num as [num|]; [|done].
  apply bind_Ok in Hb as (items & H10 & Hb). apply bind_Ok in Hb as (u & Hn & Hb).
  apply require_Ok in Hn. inv_res. simpl.
  destruct hash as [| | | |hs| |]; try done. apply decode_base64_str in H9.
  exists data, blk, bd, t, items, hb. simpl. split_and!; try done; [lia|eauto].
Qed.

Lemma por_empty_dict d : por (VDict d) (VDict []) = VDict d.
Proof. by destruct d. Qed.

(** The transactions read for decoding are those the block parser counted. *)
Lemma block_txs_agree payload b r :
  parse_block payload = Ok b -> py_sub payload "result" = Ok r ->
  exists txs items, block_txs payload = Ok txs /\ py_iter txs = Ok items /\
    b_tx_count b = Z.of_nat (length items).
Proof.
  intros Hb Hr. apply parse_block_Ok in Hb as (data & blk & bd & t & items & hb & H1 & H2 & H3 & H4 & H5 & H6 & H7 & _).
  destruct payload as [| | | | | |p]; try done. simpl in Hr.
  unfold result, py_get_def in H1. cbn [mbind res_bind] in H1. unfold block_txs, py_get, py_get_def.
  cbn [mbind res_bind]. destruct (dict_get "result" p) as [r'|]; [|done]. injection Hr as ->.
  destruct (is_dict r) eqn:Er; apply Ok_inj in H1 as <-; cycle 1.
  { destruct H7 as (m & i & Hm & Hi & Hh). injection Hm as <-. injection Hi as <-. done. }
  destruct r as [| | | | | |r]; try done. rewrite por_empty_dict. cbn [mbind res_bind].
  simpl in H2. injection H2 as <-.
  destruct (por (match dict_get "block" r with Some x => x | None => VNone end) (VDict []))
    as [| | | | | |blk]; try done.
  simpl in H3. injection H3 as <-. cbn [mbind res_bind].
  destruct (dict_get "data" blk) as [d|].
  - destruct d as [| | | | | |d]; try done. simpl in H4. injection H4 as <-.
    rewrite por_empty_dict. cbn [mbind res_bind]. eauto 10.
  - simpl in H4. injection H4 as <-. simpl in H5. injection H5 as <-. simpl. eauto 10.
Qed.

Lemma parse_txs_Ok i items dec ps dec' :
  parse_txs i items dec = (Ok ps, dec') ->
  length ps = length items /\
  forall k p, ps !! k = Some p -> exists raw, tx_ok (i + Z.of_nat k) raw p.
Proof.
  revert i dec ps. induction items as [|tx items IH]; intros i dec ps; simpl.
  - intros [= <- <-]. split; [done|]. intros k p Hk. done.
  - destruct (parse_tx i tx dec) as [[p|e] d1] eqn:E1; [|done].
    destruct (parse_txs (i + 1) items d1) as [[q|e] d2] eqn:E2; simpl; [|done].
    intros [= <- <-]. destruct (IH _ _ _ E2) as [Hl Hq]. split; [simpl; by rewrite Hl|].
    intros [|k] x; simpl.
    + intros [= <-]. apply parse_tx_Ok in E1 as (raw & _ & Hp). exists raw. by rewrite Z.add_0_r.
    + intros Hx. destruct (Hq k x Hx) as [raw Hr]. exists raw.
      by replace (i + Z.of_nat (S k)) with (i + 1 + Z.of_nat k) by lia.
Qed.
End height_proofs.

(** What a parsed height guarantees to the code that stores it. *)
Record parsed_ok `{PyRuntime} (height : Z) (p : ParsedHeight) : Prop := {
  po_height : ph_height p = height;
  po_block_height : b_height (ph_block p) = Some height;
  po_same : ph_transactions p = b_transactions (ph_block p);
  po_count : b_tx_count (ph_block p) = Z.of_nat (length (ph_transactions p));
  po_results_count : length (ph_execution_results p) = length (ph_transactions p);
  po_hash : exists b, b64decode (b_hash_base64 (ph_block p)) = Ok b /\ b_hash_hex (ph_block p) = hex_upper b;
  po_tx : forall k t, ph_transactions p !! k = Some t -> exists raw, tx_ok (Z.of_nat k) raw t;
  po_result : forall k r, ph_execution_results p !! k = Some r -> result_ok height (Z.of_nat k) r
}.

Lemma parse_height_facts `{PyRuntime} {D} `{TransactionDecoder D} height bp rp cp vp dec p dec' r :
  py_sub bp "result" = Ok r -> parse_height height bp rp cp vp dec = (Ok p, dec') ->
  parsed_ok height p /\ exists b, parse_block bp = Ok b /\ b_hash_hex (ph_block p) = b_hash_hex b /\
    b_hash_base64 (ph_block p) = b_hash_base64 b.
Proof.
  intros Hr. unfold parse_height, parse_height_block.
  destruct (parse_block bp) as [b|e] eqn:Eb; cbn [mbind res_bind]; cycle 1.
  { intros [=]. }
  destruct (block_txs_agree _ _ _ Eb Hr) as (txs & items & Ht & Hi & Hn).
  rewrite Ht. cbn [mbind res_bind]. rewrite Hi. cbn [mbind res_bind].
  destruct (parse_txs 0 items dec) as [[ps|e] d1] eqn:Ep; [|done].
  intros [= H2 <-]. cbn [fmap res_fmap mbind res_bind] in H2.
  apply bind_Ok in H2 as (cm & _ & H2). apply bind_Ok in H2 as (vd & _ & H2).
  apply bind_Ok in H2 as (u & Hq & H2). apply require_Ok in Hq.
  apply bind_Ok in H2 as (sigs & _ & H2). apply bind_Ok in H2 as (rs & Hrs & H2).
  apply Ok_inj in H2 as <-. apply andb_prop in Hq as [[Hq _]%andb_prop _].
  apply bool_decide_eq_true in Hq.
  destruct (parse_txs_Ok _ _ _ _ _ Ep) as [Hl Htx].
  destruct (parse_execution_results_facts _ _ _ _ Hrs) as [Hlr Hres].
  pose proof (parse_block_Ok _ _ Eb) as (? & ? & ? & ? & ? & hb & _ & _ & _ & _ & _ & _ & _ & Hd & Hh).
  simpl in *. split; [|exists b; done]. split; simpl; try done; try lia; eauto.
Qed.

(** C10. A parsed height is one consistent record: when [parse_height] accepts
    the four payloads, the block, the commit and the validator set are of the
    requested height, the block's transaction count is the number of stored
    transactions, there is exactly one execution result per transaction, in
    order, every transaction and result record is well formed, and the stored
    hash text is the hexadecimal form of the block's base64 hash. *)
Theorem parse_height_consistent `{PyRuntime} {D} `{TransactionDecoder D} height bp rp cp vp
    (dec : option D) p dec' r :
  py_sub bp "result" = Ok r -> parse_height height bp rp cp vp dec = (Ok p, dec') ->
  parsed_ok height p.
Proof. intros Hr Hp. by destruct (parse_height_facts _ _ _ _ _ _ _ _ _ Hr Hp). Qed.

(** A decoder that answers nothing. *)
Definition no_decoder : TransactionDecoder unit := {| decode := fun _ _ d => (Ok None, d) |}.

Definition demo_parse (height : Z) : res ParsedHeight * option unit :=
  @parse_height ascii_runtime unit no_decoder height
    (demo_block height 5 4 [VStr "AAAA"]) (demo_results height)
    (demo_commit height 5 [demo_precommit "g1a" 5; VNone]) (demo_validators height ["g1b"; "g1a"]) (Some tt).

Lemma parse_height_consistent_witness :
  exists p, demo_parse 12 = (Ok p, Some tt) /\ @parsed_ok ascii_runtime 12 p.
Proof.
  eexists. split; [vm_compute; reflexivity|].
  eapply (@parse_height_consistent ascii_runtime unit no_decoder 12
    (demo_block 12 5 4 [VStr "AAAA"]) (demo_results 12)
    (demo_commit 12 5 [demo_precommit "g1a" 5; VNone]) (demo_validators 12 ["g1b"; "g1a"]) (Some tt));
    [reflexivity|vm_compute; reflexivity].
Defined.
