(* ===== verification/RealmCatalog.v ===== *)
(** * indexer/realm_catalog.py: realm observations of a block

    Package paths, the observations and call locators a normalized summary
    yields, the aggregation of a block to one value per path, and the
    validation of a qpaths response. *)
From Stdlib Require Import ZArith NArith Lia Ascii String SpecFloat.
From stdpp Require Import base gmap sets list strings sorting.
From S2P Require Import Prelude PyStr PyVal Codec Summary.
Open Scope Z_scope.

(** ** Paths *)

(** [[!-\.0-~]] *)
Definition segment_char (a : ascii) : bool :=
  let z := byte_Z a in ((33 <=? z) && (z <=? 46)) || ((48 <=? z) && (z <=? 126)).
Definition segment_ok (s : string) : bool := negb (String.eqb s "") && str_forallb segment_char s.

(** [_PATH_RE.fullmatch(path)]: the [kind] group. *)
Definition path_re (path : string) : option string :=
  match py_split "/" path with
  | host :: kind :: first :: rest =>
      if String.eqb host "gno.land" && in_strs kind ["r"; "p"] && forallb segment_ok (first :: rest)
      then Some kind else None
  | _ => None
  end.

Definition path_kind (path : val) : option string :=
  match path with
  | VStr p =>
      if negb ((1 <=? py_len p) && (py_len p <=? 256)) then None
      else if existsb is_space_char (chars p) || py_contains "?" p || py_contains "#" p then None
      else match path_re p with
           | Some kind => Some (if String.eqb kind "r" then "realm" else "package")
           | None => None
           end
  | _ => None
  end.

(** [_ADDRESS_RE.fullmatch(s)] *)
Definition address_char (a : ascii) : bool := py_contains (String a "") "023456789acdefghjklmnpqrstuvwxyz".
Definition address_re (s : string) : bool :=
  match s with
  | String "g" (String "1" rest) => Nat.eqb (String.length rest) 38 && str_forallb address_char rest
  | _ => false
  end.

Definition is_complete_package_path (message path : val) : bool :=
  match message with
  | VDict m =>
      let completeness := dget m "package_path_complete" in
      is_True completeness ||
      (is_None completeness && match path with VStr p => py_len p <? 160 | _ => false end)
  | _ => false
  end.

Definition namespace_key (path : val) : option string :=
  if bool_decide (path_kind path = Some "realm")
  then match path with VStr p => py_split "/" p !! 2%nat | _ => None end
  else None.

(** ** Observations *)
Record RealmObservation := {
  ob_path : string;
  ob_kind : string;
  ob_message_index : nat;
  ob_observation_type : string;
  ob_sender : option string
}.

(** The messages a payload summary offers, empty unless it is parsed. *)
Definition parsed_summary_messages (payload_summary : val) : list val :=
  match payload_summary with
  | VDict s =>
      if py_eq (dget s "parse_status") (VStr "parsed")
      then match dget s "messages" with VList l => take MAX_MESSAGES l | _ => [] end
      else []
  | _ => []
  end.

Definition sender_of (m : list (string * val)) : option string :=
  match dget m "sender" with
  | VStr s => if address_re s then Some s else None
  | _ => None
  end.

Definition observe_message (index : nat) (message : val) : option RealmObservation :=
  match message with
  | VDict m =>
      let path := dget m "package_path" in
      if is_complete_package_path message path then
        match path, path_kind path with
        | VStr p, Some kind =>
            if py_eq (dget m "type") (VStr "gno.vm.MsgAddPackage") then
              Some (Build_RealmObservation p kind index "deployment" (sender_of m))
            else if py_eq (dget m "type") (VStr "gno.vm.MsgCall") && String.eqb kind "realm" then
              Some (Build_RealmObservation p kind index "call" (sender_of m))
            else None
        | _, _ => None
        end
      else None
  | _ => None
  end.

Definition extract_observations (payload_summary : val) : list RealmObservation :=
  omap (fun im => observe_message im.1 im.2) (enumerate (parsed_summary_messages payload_summary)).

(** ** Aggregation of one block *)
Record PathAggregate := {
  pa_path : string;
  pa_kind : string;
  pa_first_tx_index : Z;
  pa_deploy_tx_index : option Z;
  pa_deployer_address : option string;
  pa_last_activity_tx_index : option Z;
  pa_call_count : Z;
  pa_successful_call_count : Z;
  pa_failed_call_count : Z;
  pa_unknown_result_call_count : Z
}.

(** The inner dict of [aggregate_block]. *)
Record agg_value := {
  av_kind : string;
  av_first : Z;
  av_deploy : option Z;
  av_deployer : option string;
  av_last : option Z;
  av_success : Z;
  av_failed : Z;
  av_unknown : Z
}.

Definition aggregate_step (tx_index : Z) (status : option string)
    (values : list (string * agg_value)) (o : RealmObservation) : list (string * agg_value) :=
  let v := default (Build_agg_value (ob_kind o) tx_index None None None 0 0 0)
             (dict_get (ob_path o) values) in
  let first := Z.min (av_first v) tx_index in
  let v' :=
    if String.eqb (ob_observation_type o) "deployment"
       && match av_deploy v with None => true | Some d => tx_index <? d end then
      Build_agg_value (av_kind v) first (Some tx_index) (ob_sender o) (av_last v)
        (av_success v) (av_failed v) (av_unknown v)
    else if String.eqb (ob_observation_type o) "call" then
      let last := match av_last v with None => tx_index | Some l => Z.max l tx_index end in
      let stat s := bool_decide (status = Some s) in
      let known := stat "success" || stat "failed" in
      Build_agg_value (av_kind v) first (av_deploy v) (av_deployer v) (Some last)
        (av_success v + if stat "success" then 1 else 0)
        (av_failed v + if stat "failed" then 1 else 0)
        (av_unknown v + if known then 0 else 1)
    else
      Build_agg_value (av_kind v) first (av_deploy v) (av_deployer v) (av_last v)
        (av_success v) (av_failed v) (av_unknown v) in
  dict_set (ob_path o) v' values.

(** One transaction of the block: index, summary, execution status. *)
Definition tx_entry : Type := Z * val * option string.

Definition aggregate_values (transactions : list tx_entry) : list (string * agg_value) :=
  foldl (fun values t => foldl (aggregate_step t.1.1 t.2) values (extract_observations t.1.2)) [] transactions.

Definition path_aggregate (pv : string * agg_value) : PathAggregate :=
  let v := pv.2 in
  Build_PathAggregate pv.1 (av_kind v) (av_first v) (av_deploy v) (av_deployer v) (av_last v)
    (av_success v + av_failed v + av_unknown v) (av_success v) (av_failed v) (av_unknown v).

Definition aggregate_block (transactions : list tx_entry) : list PathAggregate :=
  map path_aggregate (sort_by (fun a b => str_leb a.1 b.1) (aggregate_values transactions)).

(** ** qpaths *)
Inductive qpaths_payload := QBytes (b : bytes) | QStr (s : string).
Definition MAX_QPATHS_BYTES : Z := 2570000.
Definition MAX_QPATHS : Z := 10000.

Definition qpaths_text (payload : qpaths_payload) : res string :=
  match payload with
  | QBytes b =>
      _ ← raise_if (MAX_QPATHS_BYTES <? Z.of_nat (length b)) (ValueError "qpaths_too_large");
      match utf8_decode b with
      | Some s => Ok s
      | None => Raise (ValueError "qpaths_invalid_utf8")
      end
  | QStr s => Ok s
  end.

Definition add_qpath (paths : list (string * string)) (raw_path : string) : res (list (string * string)) :=
  if String.eqb raw_path "" then Ok paths
  else match path_kind (VStr raw_path) with
       | None => Raise (ValueError "qpaths_invalid_path")
       | Some kind =>
           let paths := dict_set raw_path kind paths in
           _ ← raise_if (MAX_QPATHS <? Z.of_nat (length paths)) (ValueError "qpaths_too_many_paths");
           Ok paths
       end.

Definition parse_qpaths (payload : qpaths_payload) : res (list (string * string)) :=
  text ← qpaths_text payload;
  _ ← raise_if (MAX_QPATHS_BYTES <? Z.of_nat (String.length text)) (ValueError "qpaths_too_large");
  paths ← foldM_res add_qpath [] (py_splitlines text);
  _ ← raise_if (bool_decide (paths = [])) (ValueError "qpaths_empty");
  Ok (sort_by (fun a b => str_leb a.1 b.1) paths).

(** ** Call locators *)
Record RealmCallRecord := {
  rc_path : string;
  rc_message_index : nat;
  rc_caller_address : option string;
  rc_function_name : option string;
  rc_args_count : option Z;
  rc_send_amount : option string
}.

(** [None] when the field is rejected, [Some None] when it is absent. *)
Definition caller_field (v : val) : option (option string) :=
  match v with
  | VNone => Some None
  | VStr s => if address_re s then Some (Some s) else None
  | _ => None
  end.
Definition short_text_field (v : val) : option (option string) :=
  match v with
  | VNone => Some None
  | VStr s => if String.eqb s "" || (160 <? py_len s) then None else Some (Some s)
  | _ => None
  end.
Definition args_field (v : val) : option (option Z) :=
  match v with
  | VNone => Some None
  | VInt z => if (0 <=? z) && (z <=? 100000) then Some (Some z) else None
  | _ => None
  end.

Definition realm_call (index : nat) (message : val) : option RealmCallRecord :=
  match message with
  | VDict m =>
      if negb (py_eq (dget m "type") (VStr "gno.vm.MsgCall")) then None
      else
        let path := dget m "package_path" in
        if negb (is_complete_package_path message path)
           || negb (bool_decide (path_kind path = Some "realm")) then None
        else
          caller ← caller_field (dget m "sender");
          function ← short_text_field (dget m "function");
          args ← args_field (dget m "args_count");
          send ← short_text_field (dget m "send");
          Some (Build_RealmCallRecord (str_of_val path) index caller function args send)
  | _ => None
  end.

Definition extract_realm_calls (payload_summary : val) : list RealmCallRecord :=
  omap (fun im => realm_call im.1 im.2) (enumerate (parsed_summary_messages payload_summary)).

(** ** Properties *)

(** *** Paths *)
(** The texts the path expression denotes. *)
Definition realm_path (kind : string) (segments : list string) : string :=
  py_join "/" ("gno.land" :: kind :: segments).

Lemma segment_no_slash s : segment_ok s = true ->
  str_forallb (fun c => negb (bool_decide (c = "/"%char))) s = true.
Proof.
  unfold segment_ok. intros [_ H]%andb_prop. eapply str_forallb_impl; [|exact H].
  intros a Ha. apply negb_true_iff, bool_decide_eq_false. intros ->. vm_compute in Ha. done.
Qed.

Lemma path_re_iff path kind :
  path_re path = Some kind <->
  (kind = "r" \/ kind = "p") /\
  exists segments, segments <> [] /\ Forall (fun s => segment_ok s = true) segments /\
    path = realm_path kind segments.
Proof.
  unfold path_re. split.
  - intros H. pose proof (py_join_split "/" path) as Hj.
    destruct (py_split "/" path) as [|host [|k [|first rest]]]; try done.
    destruct (String.eqb_spec host "gno.land") as [->|]; [|done].
    destruct (in_strs k ["r"; "p"]) eqn:Ek; [|done].
    destruct (forallb segment_ok (first :: rest)) eqn:Ef; [|done]. simpl andb in H.
    injection H as ->. apply in_strs_spec in Ek.
    split. { apply elem_of_cons in Ek as [?|Ek]; [by left|]. apply elem_of_cons in Ek as [?|Ek]; [by right|].
      by apply elem_of_nil in Ek. }
    exists (first :: rest). split_and!; [done| |by rewrite <-Hj].
    apply Forall_forall. intros s Hs%list_elem_of_In. rewrite forallb_forall in Ef. auto.
  - intros (Hk & segments & Hne & Hf & ->). unfold realm_path.
    rewrite (py_split_join "/" ("gno.land" :: kind :: segments)); [|done|].
    + destruct segments as [|first rest]; [done|].
      assert (in_strs kind ["r"; "p"] = true) as -> by (by destruct Hk as [-> | ->]).
      assert (forallb segment_ok (first :: rest) = true) as ->; [|done].
      apply forallb_forall. intros s Hs%list_elem_of_In. rewrite Forall_forall in Hf. auto.
    + constructor; [reflexivity|]. constructor; [by destruct Hk as [-> | ->]|].
      eapply Forall_impl; [exact Hf|]. apply segment_no_slash.
Qed.

Lemma str_forallb_join p sep l :
  str_forallb p sep = true -> Forall (fun s => str_forallb p s = true) l ->
  str_forallb p (py_join sep l) = true.
Proof.
  intros Hsep. induction 1 as [|s l Hs Hl IH]; [done|]. destruct l as [|t l]; [done|].
  change (py_join sep (s :: t :: l)) with (s +:+ sep +:+ py_join sep (t :: l)).
  by rewrite !str_forallb_app, Hs, Hsep, IH.
Qed.

Definition visible_char (a : ascii) : bool := (33 <=? byte_Z a) && (byte_Z a <=? 126).

Lemma realm_path_visible k segments :
  k = "r" \/ k = "p" -> Forall (fun s => segment_ok s = true) segments ->
  str_forallb visible_char (realm_path k segments) = true.
Proof.
  intros Hk Hs. apply str_forallb_join; [reflexivity|]. constructor; [reflexivity|].
  constructor; [by destruct Hk as [-> | ->]|]. eapply Forall_impl; [exact Hs|].
  intros s [_ H]%andb_prop. eapply str_forallb_impl; [|exact H].
  intros a. unfold segment_char, visible_char. lia.
Qed.

Lemma visible_no_space s : str_forallb visible_char s = true -> existsb is_space_char (chars s) = false.
Proof.
  intros Hv. rewrite chars_ascii.
  - induction s as [|c s IH]; [done|]. cbn [str_forallb] in Hv. apply andb_prop in Hv as [Hc Hs].
    cbn [list_of_string String.list_ascii_of_string map existsb].
    rewrite (IH Hs), orb_false_r. unfold is_space_char, is_space_cp, code_point, in_range. simpl.
    unfold visible_char in Hc. lia.
  - unfold is_ascii. eapply str_forallb_impl; [|exact Hv]. intros a. unfold visible_char, is_ascii_byte. lia.
Qed.

(** A path has a kind exactly when it is at most 256 characters of the
    form gno.land/r/... (a realm) or gno.land/p/... (a package) with one or
    more non-empty segments of printable ASCII characters, and no question
    mark or hash sign anywhere; nothing else is ever catalogued. *)
Theorem path_kind_iff path kind :
  path_kind path = Some kind <->
  exists p k segments,
    path = VStr p /\ (k = "r" /\ kind = "realm" \/ k = "p" /\ kind = "package") /\
    p = realm_path k segments /\ segments <> [] /\ Forall (fun s => segment_ok s = true) segments /\
    py_len p <= 256 /\ py_contains "?" p = false /\ py_contains "#" p = false.
Proof.
  split.
  - destruct path as [| | | |p| |]; try done. unfold path_kind.
    destruct (negb _) eqn:El; [done|]. apply negb_false_iff, andb_prop in El as [_ El].
    destruct (_ || _ || _) eqn:Es; [done|]. apply orb_false_iff in Es as [[_ Eq]%orb_false_iff Eh].
    destruct (path_re p) as [k|] eqn:Ep; [|done]. intros [= <-].
    apply path_re_iff in Ep as (Hk & segments & Hne & Hf & Hp).
    exists p, k, segments. split_and!; try done; [|lia].
    destruct Hk as [-> | ->]; [by left|by right].
  - intros (p & k & segments & -> & Hk & Hp & Hne & Hf & Hl & Hq & Hh). unfold path_kind.
    assert (k = "r" \/ k = "p") as Hk' by naive_solver.
    pose proof (realm_path_visible k segments Hk' Hf) as Hv. rewrite <-Hp in Hv.
    assert (1 <= py_len p) as Hl1.
    { unfold py_len. assert (p <> "") as Hp0 by (rewrite Hp; unfold realm_path; by destruct segments).
      destruct (chars p) eqn:E; [by apply chars_nil in E|simpl; lia]. }
    replace (1 <=? py_len p) with true by lia. replace (py_len p <=? 256) with true by lia.
    rewrite (visible_no_space _ Hv), Hq, Hh. simpl.
    rewrite (proj2 (path_re_iff p k)) by eauto.
    destruct Hk as [[-> ->]|[-> ->]]; done.
Qed.

(** *** Aggregation *)

(** A block as the flat list of its observations with index and status. *)
Definition event : Type := Z * option string * RealmObservation.
Definition block_events (transactions : list tx_entry) : list event :=
  concat (map (fun t : tx_entry => map (fun o => (t.1.1, t.2, o)) (extract_observations t.1.2)) transactions).
Definition events_of (p : string) (es : list event) : list event :=
  List.filter (fun e => String.eqb p (ob_path e.2)) es.
Definition ev_tx (e : event) : Z := e.1.1.
Definition is_call (e : event) : bool := String.eqb (ob_observation_type e.2) "call".
Definition is_deployment (e : event) : bool := String.eqb (ob_observation_type e.2) "deployment".
Definition has_status (s : string) (e : event) : bool := bool_decide (e.1.2 = Some s).
Definition count (f : event -> bool) (es : list event) : Z := Z.of_nat (length (List.filter f es)).

(** The first transaction index of a path. *)
Definition first_ok (es : list event) (first : Z) : Prop :=
  (exists e, e ∈ es /\ ev_tx e = first) /\ forall e, e ∈ es -> first <= ev_tx e.
(** The earliest deployment and its sender. *)
Definition deploy_ok (es : list event) (deploy : option Z) (deployer : option string) : Prop :=
  match deploy with
  | None => forall e, e ∈ es -> is_deployment e = false
  | Some d =>
      (exists e, e ∈ es /\ is_deployment e = true /\ ev_tx e = d /\ ob_sender e.2 = deployer) /\
      forall e, e ∈ es -> is_deployment e = true -> d <= ev_tx e
  end.
(** The latest call. *)
Definition last_ok (es : list event) (last : option Z) : Prop :=
  match last with
  | None => forall e, e ∈ es -> is_call e = false
  | Some l =>
      (exists e, e ∈ es /\ is_call e = true /\ ev_tx e = l) /\
      forall e, e ∈ es -> is_call e = true -> ev_tx e <= l
  end.

(** What the aggregate of a path says about the path's events. *)
Record agg_ok (es : list event) (v : agg_value) : Prop := {
  ao_first : first_ok es (av_first v);
  ao_deploy : deploy_ok es (av_deploy v) (av_deployer v);
  ao_last : last_ok es (av_last v);
  ao_success : av_success v = count (fun e => is_call e && has_status "success" e) es;
  ao_failed : av_failed v = count (fun e => is_call e && has_status "failed" e) es;
  ao_unknown : av_unknown v = count (fun e => is_call e && negb (has_status "success" e || has_status "failed" e)) es
}.

Lemma count_snoc f es e : count f (es ++ [e]) = count f es + if f e then 1 else 0.
Proof.
  unfold count. rewrite List.filter_app, length_app. simpl. destruct (f e); simpl; lia.
Qed.

Definition step_event (values : list (string * agg_value)) (e : event) : list (string * agg_value) :=
  aggregate_step (ev_tx e) e.1.2 values e.2.

Lemma aggregate_values_events transactions :
  aggregate_values transactions = foldl step_event [] (block_events transactions).
Proof.
  unfold aggregate_values, block_events. generalize (@nil (string * agg_value)) as acc.
  induction transactions as [|[[i s] st] ts IH]; intros acc; simpl; [done|].
  rewrite foldl_app, IH. f_equal. generalize (extract_observations s) as os. intros os.
  revert acc. induction os as [|o os IHo]; intros acc; simpl; [done|]. apply IHo.
Qed.

(** The value of a path after one more event on that path. *)
Definition agg_step_value (e : event) (old : option agg_value) : agg_value :=
  let v := default (Build_agg_value (ob_kind e.2) (ev_tx e) None None None 0 0 0) old in
  let first := Z.min (av_first v) (ev_tx e) in
  if is_deployment e && match av_deploy v with None => true | Some d => ev_tx e <? d end then
    Build_agg_value (av_kind v) first (Some (ev_tx e)) (ob_sender e.2) (av_last v)
      (av_success v) (av_failed v) (av_unknown v)
  else if is_call e then
    Build_agg_value (av_kind v) first (av_deploy v) (av_deployer v)
      (Some (match av_last v with None => ev_tx e | Some l => Z.max l (ev_tx e) end))
      (av_success v + if has_status "success" e then 1 else 0)
      (av_failed v + if has_status "failed" e then 1 else 0)
      (av_unknown v + if has_status "success" e || has_status "failed" e then 0 else 1)
  else Build_agg_value (av_kind v) first (av_deploy v) (av_deployer v) (av_last v)
         (av_success v) (av_failed v) (av_unknown v).

Lemma step_event_set values e :
  step_event values e = dict_set (ob_path e.2) (agg_step_value e (dict_get (ob_path e.2) values)) values.
Proof. reflexivity. Qed.

Lemma call_not_deployment e : is_call e = true -> is_deployment e = false.
Proof. unfold is_call, is_deployment. intros ->%String.eqb_eq. done. Qed.

Lemma status_exclusive e : has_status "success" e = true -> has_status "failed" e = false.
Proof. unfold has_status. intros ->%bool_decide_eq_true. done. Qed.

Lemma elem_of_snoc (es : list event) e x : x ∈ es ++ [e] <-> x ∈ es \/ x = e.
Proof. by rewrite elem_of_app, list_elem_of_singleton. Qed.

Lemma first_snoc es first e : first_ok es first -> first_ok (es ++ [e]) (Z.min first (ev_tx e)).
Proof.
  intros [(x & Hx & Hf) Hle]. split.
  - destruct (Z.le_gt_cases first (ev_tx e)).
    + exists x. rewrite elem_of_snoc. split; [by left|lia].
    + exists e. rewrite elem_of_snoc. split; [by right|lia].
  - intros y [Hy| ->]%elem_of_snoc; [specialize (Hle y Hy); lia|lia].
Qed.

Lemma deploy_snoc_new es d dep e :
  deploy_ok es d dep -> is_deployment e = true ->
  match d with None => true | Some d => ev_tx e <? d end = true ->
  deploy_ok (es ++ [e]) (Some (ev_tx e)) (ob_sender e.2).
Proof.
  intros Hd He Hlt. split.
  - exists e. rewrite elem_of_snoc. auto.
  - intros y [Hy| ->]%elem_of_snoc Hyd; [|lia]. destruct d as [d|]; simpl in Hd.
    + destruct Hd as [_ Hle]. specialize (Hle y Hy Hyd). lia.
    + rewrite (Hd y Hy) in Hyd. done.
Qed.

Lemma deploy_snoc_old es d dep e :
  deploy_ok es d dep ->
  (is_deployment e = true -> match d with None => true | Some d => ev_tx e <? d end = false) ->
  deploy_ok (es ++ [e]) d dep.
Proof.
  intros Hd He. destruct d as [d|]; simpl in *.
  - destruct Hd as [(x & Hx & Hxd) Hle]. split.
    + exists x. rewrite elem_of_snoc. auto.
    + intros y [Hy| ->]%elem_of_snoc Hyd; [by apply Hle|]. specialize (He Hyd). lia.
  - intros y [Hy| ->]%elem_of_snoc; [by apply Hd|]. destruct (is_deployment e); [|done].
    by specialize (He eq_refl).
Qed.

Lemma last_snoc_call es l e :
  last_ok es l -> is_call e = true ->
  last_ok (es ++ [e]) (Some (match l with None => ev_tx e | Some l => Z.max l (ev_tx e) end)).
Proof.
  intros Hl He. destruct l as [l|]; simpl in *.
  - destruct Hl as [(x & Hx & Hxc & Hxl) Hle]. split.
    + destruct (Z.le_gt_cases l (ev_tx e)).
      * exists e. rewrite elem_of_snoc. split_and!; [by right|done|lia].
      * exists x. rewrite elem_of_snoc. split_and!; [by left|done|lia].
    + intros y [Hy| ->]%elem_of_snoc Hyc; [specialize (Hle y Hy Hyc); lia|lia].
  - split; [exists e; rewrite elem_of_snoc; auto|].
    intros y [Hy| ->]%elem_of_snoc Hyc; [|lia]. rewrite (Hl y Hy) in Hyc. done.
Qed.

Lemma last_snoc_other es l e : last_ok es l -> is_call e = false -> last_ok (es ++ [e]) l.
Proof.
  intros Hl He. destruct l as [l|]; simpl in *.
  - destruct Hl as [(x & Hx & Hxl) Hle]. split; [exists x; rewrite elem_of_snoc; auto|].
    intros y [Hy| ->]%elem_of_snoc Hyc; [by apply Hle|congruence].
  - intros y [Hy| ->]%elem_of_snoc; [by apply Hl|done].
Qed.

Lemma count_call_snoc es e f : is_call e = false ->
  count (fun x => is_call x && f x) (es ++ [e]) = count (fun x => is_call x && f x) es.
Proof. intros He. rewrite count_snoc, He. simpl. lia. Qed.

(** One more event on a path that already has an aggregate. *)
Lemma agg_step_ok es v e : agg_ok es v -> agg_ok (es ++ [e]) (agg_step_value e (Some v)).
Proof.
  intros [Hf Hd Hl Hs Hfl Hu]. unfold agg_step_value. cbn [default].
  pose proof (first_snoc _ _ e Hf) as Hf'.
  destruct (is_call e) eqn:Ec.
  - pose proof (call_not_deployment e Ec) as Ed. rewrite Ed. simpl andb. cbv iota.
    split; simpl; [done| |by apply last_snoc_call|..].
    + apply deploy_snoc_old; [done|]. congruence.
    + rewrite count_snoc, Ec, Hs. done.
    + rewrite count_snoc, Ec, Hfl. done.
    + rewrite count_snoc, Ec, Hu. simpl. by destruct (has_status "success" e || has_status "failed" e).
  - destruct (is_deployment e && _) eqn:E.
    + apply andb_prop in E as [Ed Elt].
      split; simpl; [done|by eapply deploy_snoc_new|by apply last_snoc_other|..];
        by rewrite count_call_snoc.
    + split; simpl; [done| |by apply last_snoc_other|..]; try by rewrite count_call_snoc.
      apply deploy_snoc_old; [done|]. intros Ed. by rewrite Ed in E.
Qed.

(** The first event of a path. *)
Lemma agg_first_ok e : agg_ok [e] (agg_step_value e None).
Proof.
  assert (forall x : event, x ∈ [e] -> x = e) as Hx by (intros x; apply list_elem_of_singleton).
  assert (e ∈ [e]) as He by left.
  unfold agg_step_value. cbn [default av_first av_deploy av_last]. rewrite Z.min_id, andb_true_r.
  destruct (is_deployment e) eqn:Ed; destruct (is_call e) eqn:Ec;
    try (apply call_not_deployment in Ec; congruence);
    (split; simpl; [split; [eauto|intros y ->%Hx; lia]|..]; try (intros y ->%Hx; done);
     try (split; [eauto|intros y ->%Hx; lia]));
    unfold count; simpl; rewrite ?Ec; simpl; try done;
    by destruct (has_status "success" e), (has_status "failed" e).
Qed.

Lemma events_of_snoc p es e :
  events_of p (es ++ [e]) = if String.eqb p (ob_path e.2) then events_of p es ++ [e] else events_of p es.
Proof.
  unfold events_of. rewrite List.filter_app. simpl.
  destruct (String.eqb p (ob_path e.2)); [done|]. by rewrite app_nil_r.
Qed.

(** After any list of events, each path has the aggregate of its events. *)
Lemma fold_events_ok es p :
  NoDup (dict_keys (foldl step_event [] es)) /\
  match dict_get p (foldl step_event [] es) with
  | None => events_of p es = []
  | Some v => agg_ok (events_of p es) v
  end.
Proof.
  induction es as [|e es [IHn IH]] using rev_ind.
  { split; [constructor|done]. }
  rewrite foldl_app. cbn [foldl]. rewrite step_event_set. split; [by apply NoDup_dict_set|].
  rewrite events_of_snoc. destruct (String.eqb_spec p (ob_path e.2)) as [->|Hp].
  - rewrite dict_get_set. destruct (dict_get (ob_path e.2) _) as [v|].
    + by apply agg_step_ok.
    + rewrite IH. apply agg_first_ok.
  - by rewrite dict_get_set_ne.
Qed.

(** The key order of a sorted dict. *)
Lemma sort_keys_sorted {A} (d : list (string * A)) :
  StronglySorted (fun a b => str_leb a b = true) (map fst (sort_by (fun a b => str_leb a.1 b.1) d)).
Proof.
  rewrite <-(sort_by_map (fun a b => str_leb a.1 b.1) str_leb fst) by done. apply sort_str_sorted.
Qed.

Lemma sort_keys_perm {A} (d : list (string * A)) :
  map fst (sort_by (fun a b => str_leb a.1 b.1) d) ≡ₚ dict_keys d.
Proof. apply Permutation_map, sort_by_perm. Qed.

(** The aggregate the specification assigns to a path with events [es]. *)
Definition path_summary (es : list event) (a : PathAggregate) : Prop :=
  first_ok es (pa_first_tx_index a) /\
  deploy_ok es (pa_deploy_tx_index a) (pa_deployer_address a) /\
  last_ok es (pa_last_activity_tx_index a) /\
  pa_successful_call_count a = count (fun e => is_call e && has_status "success" e) es /\
  pa_failed_call_count a = count (fun e => is_call e && has_status "failed" e) es /\
  pa_unknown_result_call_count a
    = count (fun e => is_call e && negb (has_status "success" e || has_status "failed" e)) es /\
  pa_call_count a = count is_call es.

Lemma count_split es :
  count is_call es
  = count (fun e => is_call e && has_status "success" e) es
    + count (fun e => is_call e && has_status "failed" e) es
    + count (fun e => is_call e && negb (has_status "success" e || has_status "failed" e)) es.
Proof.
  induction es as [|e es IH] using rev_ind; [done|]. rewrite !count_snoc, IH.
  destruct (is_call e); simpl; [|lia].
  destruct (has_status "success" e) eqn:Es; [apply status_exclusive in Es as ->; simpl; lia|].
  destruct (has_status "failed" e); simpl; lia.
Qed.

Lemma aggregate_block_facts transactions :
  let es := block_events transactions in
  let out := aggregate_block transactions in
  StronglySorted (fun a b => str_leb a b = true) (map pa_path out) /\ NoDup (map pa_path out) /\
  (forall p, p ∈ map pa_path out <-> events_of p es <> []) /\
  forall a, a ∈ out -> path_summary (events_of (pa_path a) es) a.
Proof.
  intros es out. unfold out, aggregate_block. rewrite aggregate_values_events. fold es.
  set (d := foldl step_event [] es).
  assert (map pa_path (map path_aggregate (sort_by (fun a b => str_leb a.1 b.1) d))
          = map fst (sort_by (fun a b => str_leb a.1 b.1) d)) as Hp by (rewrite map_map; done).
  assert (NoDup (dict_keys d)) as Hn by apply (fold_events_ok es "").
  rewrite Hp. split_and!.
  - apply sort_keys_sorted.
  - by rewrite sort_keys_perm.
  - intros p. rewrite sort_keys_perm. destruct (fold_events_ok es p) as [_ Hg]. fold d in Hg.
    destruct (dict_get p d) as [v|] eqn:E.
    + split; intros _.
      * intros Hnil. rewrite Hnil in Hg. destruct (ao_first _ _ Hg) as [(e & He & _) _].
        by apply elem_of_nil in He.
      * apply dict_get_In in E. unfold dict_keys. apply list_elem_of_fmap. by exists (p, v).
    + apply dict_get_None in E. rewrite Hg. split; [done|]. by intros H.
  - intros a (pv & -> & Hin)%list_elem_of_fmap. apply elem_of_sort_by in Hin.
    destruct pv as [p v]. apply dict_get_elem in Hin; [|done].
    destruct (fold_events_ok es p) as [_ Hg]. fold d in Hg. rewrite Hin in Hg.
    destruct Hg as [Hf Hd Hl Hs Hfl Hu]. unfold path_summary, path_aggregate. simpl.
    split_and!; try done. rewrite count_split. lia.
Qed.

(** Aggregating a block loses and invents nothing: there is exactly one
    aggregate per observed path, in sorted path order, and it has the path's
    first transaction index, its earliest deployment with that deployment's
    sender, its latest call, and the exact number of its calls, split without
    overlap into successful, failed and unknown ones. *)
Theorem aggregate_block_exact transactions :
  let es := block_events transactions in
  let out := aggregate_block transactions in
  StronglySorted (fun a b => str_leb a b = true) (map pa_path out) /\ NoDup (map pa_path out) /\
  (forall p, p ∈ map pa_path out <-> events_of p es <> []) /\
  forall a, a ∈ out -> path_summary (events_of (pa_path a) es) a.
Proof. apply aggregate_block_facts. Qed.

(** *** qpaths and calls *)
Lemma add_qpath_ok paths line paths' :
  add_qpath paths line = Ok paths' ->
  NoDup (dict_keys paths) -> (forall p k, (p, k) ∈ paths -> path_kind (VStr p) = Some k) ->
  Z.of_nat (length paths) <= MAX_QPATHS ->
  NoDup (dict_keys paths') /\ (forall p k, (p, k) ∈ paths' -> path_kind (VStr p) = Some k) /\
  Z.of_nat (length paths') <= MAX_QPATHS /\
  forall p, p ∈ dict_keys paths' <-> p ∈ dict_keys paths \/ (p = line /\ line <> "").
Proof.
  unfold add_qpath. intros H Hn Hk Hl. destruct (String.eqb_spec line "") as [->|Hne].
  { apply Ok_inj in H as <-. split_and!; try done. naive_solver. }
  destruct (path_kind (VStr line)) as [kind|] eqn:E; [|done].
  apply bind_Ok in H as (u & Hu & H). apply raise_if_Ok in Hu. apply Ok_inj in H as <-.
  assert (NoDup (dict_keys (dict_set line kind paths))) as Hn' by (by apply NoDup_dict_set).
  split_and!; [done| |lia|].
  - intros p k Hp. apply dict_get_elem in Hp; [|done].
    destruct (decide (p = line)) as [->|Hpl].
    + rewrite dict_get_set in Hp. congruence.
    + rewrite dict_get_set_ne in Hp by done. apply Hk. by apply dict_get_In.
  - intros p. rewrite dict_keys_set. unfold dict_has. destruct (dict_get line paths) as [k|] eqn:Eg.
    + apply dict_get_In in Eg. split; [by left|]. intros [?|[-> _]]; [done|].
      apply list_elem_of_fmap. by exists (line, k).
    + rewrite elem_of_app, list_elem_of_singleton. naive_solver.
Qed.

Lemma qpaths_fold lines paths paths' :
  foldM_res add_qpath paths lines = Ok paths' ->
  NoDup (dict_keys paths) -> (forall p k, (p, k) ∈ paths -> path_kind (VStr p) = Some k) ->
  Z.of_nat (length paths) <= MAX_QPATHS ->
  NoDup (dict_keys paths') /\ (forall p k, (p, k) ∈ paths' -> path_kind (VStr p) = Some k) /\
  Z.of_nat (length paths') <= MAX_QPATHS /\
  forall p, p ∈ dict_keys paths' <-> p ∈ dict_keys paths \/ (p ∈ lines /\ p <> "").
Proof.
  revert paths. induction lines as [|line lines IH]; intros paths; simpl.
  - intros <-%Ok_inj ? ? ?. split_and!; try done. intros p. rewrite elem_of_nil. naive_solver.
  - intros (q & Hq & Hr)%bind_Ok Hn Hk Hl.
    destruct (add_qpath_ok _ _ _ Hq Hn Hk Hl) as (Hn1 & Hk1 & Hl1 & Hm1).
    destruct (IH _ Hr Hn1 Hk1 Hl1) as (Hn2 & Hk2 & Hl2 & Hm2). split_and!; try done.
    intros p. rewrite Hm2, Hm1, elem_of_cons. naive_solver.
Qed.

(** A qpaths response is accepted as a whole or not at all: the result is
    the set of its non-empty lines, each a valid canonical path with its kind,
    sorted, without duplicates, never empty and at most 10000 of them; one bad
    line, an oversized or an undecodable payload rejects everything with
    ValueError. *)
Theorem parse_qpaths_atomic payload :
  match parse_qpaths payload with
  | Raise e => isinstance_ValueError e = true
  | Ok out =>
      exists text, qpaths_text payload = Ok text /\ Z.of_nat (String.length text) <= MAX_QPATHS_BYTES /\
      out <> [] /\ Z.of_nat (length out) <= MAX_QPATHS /\ NoDup (map fst out) /\
      StronglySorted (fun a b => str_leb a b = true) (map fst out) /\
      (forall p k, (p, k) ∈ out -> path_kind (VStr p) = Some k) /\
      forall p, p ∈ map fst out <-> p ∈ py_splitlines text /\ p <> ""
  end.
Proof.
  destruct (parse_qpaths payload) as [out|e] eqn:H; unfold parse_qpaths in H.
  - apply bind_Ok in H as (text & Ht & H). apply bind_Ok in H as (u & Hu & H).
    apply raise_if_Ok in Hu. apply bind_Ok in H as (paths & Hp & H).
    apply bind_Ok in H as (u' & Hu' & H). apply raise_if_Ok, bool_decide_eq_false in Hu'.
    apply Ok_inj in H as <-. exists text. split; [done|]. split; [lia|].
    destruct (qpaths_fold (py_splitlines text) [] paths Hp) as (Hn & Hk & Hl & Hm);
      [constructor|by intros ? ? ?%elem_of_nil|done|].
    split_and!.
    + intros Hnil. apply Hu'. apply (f_equal length) in Hnil. rewrite length_sort_by in Hnil.
      by destruct paths.
    + by rewrite length_sort_by.
    + by rewrite sort_keys_perm.
    + apply sort_keys_sorted.
    + intros p k Hpk%elem_of_sort_by. auto.
    + intros p. rewrite sort_keys_perm, Hm. simpl. rewrite elem_of_nil. naive_solver.
  - revert H. apply raises_Raise_inv. unfold qpaths_text, add_qpath. solve_raises.
Qed.
