(* ===== verification/Database.v ===== *)
(** * indexer/database.py: the finalized-height transaction

    The tables [write_height_cursor] reads and writes, every statement it
    executes in its order, and what the transaction guarantees: finalized rows
    never change, the checkpoint never skips a height, reprocessing a height is
    idempotent and a conflicting answer is refused.  A statement that raises
    aborts the transaction, so a cursor function either returns the new tables
    or raises.  [now()] columns and generated ids are left out; PostgreSQL's own
    conversions and CHECK constraints are the class [Postgres].  PostgreSQL checks
    the row an INSERT proposes even when ON CONFLICT then discards it. *)
From Stdlib Require Import ZArith NArith Lia Ascii String SpecFloat.
From stdpp Require Import base gmap sets list strings sorting.
From S2P Require Import Prelude PyStr PyVal Codec InspectRpc Summary Participants Parsers RealmCatalog.
Open Scope Z_scope.

(** ** Rows *)
Record block_row := {
  br_hash_base64 : string;
  br_hash_hex : string;
  br_time : val;
  br_proposer : option string;
  br_tx_count : Z;
  br_raw : option val
}.

(** The columns [_verify_transaction_conflicts] compares: raw text and length,
    decoded length, decode status, hash. *)
Definition tx_columns : Type := string * Z * option Z * string * option string.
Record tx_row := {
  tr_columns : tx_columns;
  tr_decoded_bytes : option bytes;
  tr_payload_summary : option val
}.

Record result_row := {
  rr_status : string;
  rr_gas_wanted : Z;
  rr_gas_used : Z;
  rr_error : option string;
  rr_log : option string;
  rr_info : option string;
  rr_data : option string;
  rr_events : option val;
  rr_raw : option val;
  rr_endpoint : option Z
}.

Record catalog_row := {
  cr_kind : string;
  cr_seen_via_transactions : bool;
  cr_deployer : option string;
  cr_deploy : option (Z * Z);         (* deploy_height, deploy_tx_index *)
  cr_first_seen : option Z;
  cr_last : option (Z * Z);           (* last_activity_height, last_activity_tx_index *)
  cr_last_at : option val;
  cr_calls : Z;
  cr_success : Z;
  cr_failed : Z;
  cr_unknown : Z;
  cr_last_counted : option Z;
  cr_rpc : bool * bool * option val   (* seen_via_rpc, rpc_visible, last_rpc_seen_at *)
}.

Record validator_row := {
  vr_key : string * string;           (* public_key_type, public_key_value *)
  vr_first_seen : Z;
  vr_last_seen : Z
}.

(** voting_power, proposer_priority, validator_index *)
Definition member_columns : Type := Z * option Z * Z.
Record member_row := { mr_columns : member_columns; mr_raw : option val }.

(** The ten columns [_verify_signature_conflicts] compares. *)
Definition signature_columns : Type :=
  string * bool * option string * option string * option Z * option string * option string * bool * bool * option string.
Record stored_signature := { ss_columns : signature_columns; ss_raw : option val }.

(** The [state_key = 'default'] row of [indexer_state]. *)
Record state_row := {
  st_chain : string;
  st_last_finalized : Z;
  st_tip : Z;
  st_endpoint : option Z
}.

(** message_index, role, address *)
Definition participant_row : Type := nat * string * string.

(** ** The tables *)
Record db := {
  blocks : gmap Z block_row;
  transactions : gmap (Z * Z) tx_row;
  participants : gmap (Z * Z) (gset participant_row);   (* rows by transaction *)
  results : gmap (Z * Z) result_row;
  realm_calls : gmap (string * Z * Z * nat) RealmCallRecord;
  catalog : gmap (string * string) catalog_row;
  call_state : gmap string (option Z * option Z);
  activity_state : gmap string (option Z * option Z);
  validators : gmap string validator_row;
  members : gmap (Z * string) member_row;
  signatures : gmap (Z * string) stored_signature;
  state : option state_row;
  xact_locks : gset Z                 (* advisory locks of the running transaction *)
}.

Definition empty_db : db :=
  Build_db ∅ ∅ ∅ ∅ ∅ ∅ ∅ ∅ ∅ ∅ ∅ None ∅.

Definition set_blocks x d := Build_db x (transactions d) (participants d) (results d) (realm_calls d)
  (catalog d) (call_state d) (activity_state d) (validators d) (members d) (signatures d) (state d) (xact_locks d).
Definition set_transactions x d := Build_db (blocks d) x (participants d) (results d) (realm_calls d)
  (catalog d) (call_state d) (activity_state d) (validators d) (members d) (signatures d) (state d) (xact_locks d).
Definition set_participants x d := Build_db (blocks d) (transactions d) x (results d) (realm_calls d)
  (catalog d) (call_state d) (activity_state d) (validators d) (members d) (signatures d) (state d) (xact_locks d).
Definition set_results x d := Build_db (blocks d) (transactions d) (participants d) x (realm_calls d)
  (catalog d) (call_state d) (activity_state d) (validators d) (members d) (signatures d) (state d) (xact_locks d).
Definition set_realm_calls x d := Build_db (blocks d) (transactions d) (participants d) (results d) x
  (catalog d) (call_state d) (activity_state d) (validators d) (members d) (signatures d) (state d) (xact_locks d).
Definition set_catalog x d := Build_db (blocks d) (transactions d) (participants d) (results d) (realm_calls d)
  x (call_state d) (activity_state d) (validators d) (members d) (signatures d) (state d) (xact_locks d).
Definition set_call_state x d := Build_db (blocks d) (transactions d) (participants d) (results d) (realm_calls d)
  (catalog d) x (activity_state d) (validators d) (members d) (signatures d) (state d) (xact_locks d).
Definition set_activity_state x d := Build_db (blocks d) (transactions d) (participants d) (results d) (realm_calls d)
  (catalog d) (call_state d) x (validators d) (members d) (signatures d) (state d) (xact_locks d).
Definition set_validators x d := Build_db (blocks d) (transactions d) (participants d) (results d) (realm_calls d)
  (catalog d) (call_state d) (activity_state d) x (members d) (signatures d) (state d) (xact_locks d).
Definition set_members x d := Build_db (blocks d) (transactions d) (participants d) (results d) (realm_calls d)
  (catalog d) (call_state d) (activity_state d) (validators d) x (signatures d) (state d) (xact_locks d).
Definition set_signatures x d := Build_db (blocks d) (transactions d) (participants d) (results d) (realm_calls d)
  (catalog d) (call_state d) (activity_state d) (validators d) (members d) x (state d) (xact_locks d).
Definition set_state x d := Build_db (blocks d) (transactions d) (participants d) (results d) (realm_calls d)
  (catalog d) (call_state d) (activity_state d) (validators d) (members d) (signatures d) x (xact_locks d).
Definition set_xact_locks x d := Build_db (blocks d) (transactions d) (participants d) (results d) (realm_calls d)
  (catalog d) (call_state d) (activity_state d) (validators d) (members d) (signatures d) (state d) x.

(** ** PostgreSQL and psycopg

    What the server makes of a value bound to a TEXT, JSONB or TIMESTAMPTZ
    column, and whether a row satisfies the column ranges and CHECK constraints
    of its table.  Key and UNIQUE constraints are in the definitions below. *)
Inductive any_row :=
| RowBlock (h : Z) (r : block_row)
| RowTx (k : Z * Z) (r : tx_row)
| RowParticipant (k : Z * Z) (r : participant_row)
| RowResult (k : Z * Z) (r : result_row)
| RowCall (k : string * Z * Z * nat) (r : RealmCallRecord)
| RowCatalog (k : string * string) (r : catalog_row)
| RowCallState (chain : string) (r : Z * Z)
| RowValidator (a : string) (r : validator_row)
| RowMember (k : Z * string) (r : member_row)
| RowSignature (k : Z * string) (r : stored_signature)
| RowState (r : state_row).

Class Postgres := {
  pg_text : val -> res (option string);
  pg_jsonb : string -> res val;
  pg_timestamp : val -> res val;
  pg_check : any_row -> res unit
}.

(** A TEXT column stores the text it is given, and only text or NULL. *)
Class PostgresLaws `{Postgres} := {
  pg_text_stored : forall v o, pg_text v = Ok o -> v = of_option o
}.

Section database.
Context `{PyRuntime} `{Postgres}.

Definition text_column (s : string) : res string :=
  o ← pg_text (VStr s);
  match o with Some t => Ok t | None => Raise IntegrityError end.
(** A NOT NULL text column given an arbitrary value. *)
Definition text_not_null (v : val) : res string :=
  o ← pg_text v;
  match o with Some t => Ok t | None => Raise IntegrityError end.
Definition text_option (o : option string) : res (option string) := pg_text (of_option o).

(** [_json(value)] bound to a JSONB column. *)
Definition json_column (value : val) : res (option val) :=
  match value with
  | VNone => Ok None
  | _ => s ← json_dumps json_default value; j ← pg_jsonb s; Ok (Some j)
  end.

(** [get_checkpoint_cursor] *)
Definition get_checkpoint_cursor (chain_id : string) (d : db) : res (option Z) :=
  match state d with
  | None => Ok None
  | Some row =>
      if bool_decide (st_chain row = chain_id) then Ok (Some (st_last_finalized row))
      else Raise (ChainIdentityError "Existing indexer_state chain_id does not match configured chain_id")
  end.

(** [class CheckpointAnchor] *)
Record CheckpointAnchor := { an_height : Z; an_block_hash_hex : string }.

Definition get_checkpoint_anchor_cursor (chain_id : string) (d : db) : res (option CheckpointAnchor) :=
  match state d with
  | None => Ok None
  | Some row =>
      if bool_decide (st_chain row = chain_id) then
        match blocks d !! st_last_finalized row with
        | None => Raise (DatabaseError "Checkpoint block is missing")
        | Some b =>
            if is_hash_hex (br_hash_hex b)
            then Ok (Some (Build_CheckpointAnchor (st_last_finalized row) (br_hash_hex b)))
            else Raise (DatabaseError "Checkpoint block hash is malformed")
        end
      else Raise (ChainIdentityError "Existing indexer_state chain_id does not match configured chain_id")
  end.

Definition verify_checkpoint_sequence (height : Z) (checkpoint : option Z) : res unit :=
  match checkpoint with
  | Some c => raise_if (c + 1 <? height) (DatabaseError "Refusing to skip")
  | None => Ok tt
  end.

Definition REALM_CALL_INDEX_LOCK_ID : Z := 0x52434C4C494458.
Definition lock_realm_call_index (d : db) : db :=
  set_xact_locks (xact_locks d ∪ {[REALM_CALL_INDEX_LOCK_ID]}) d.

(** ** Conflict checks against what is already finalized *)
Definition conflict : exc := FinalizedDataConflict "Conflicting".

Definition verify_block_conflict (d : db) (p : ParsedHeight) : res bool :=
  match blocks d !! ph_height p with
  | Some row =>
      if bool_decide (br_hash_base64 row = b_hash_base64 (ph_block p)) &&
         bool_decide (br_hash_hex row = b_hash_hex (ph_block p))
      then Ok true else Raise conflict
  | None => Ok false
  end.

(** The second components stored with the height: [_fetch_single_column_set]. *)
Definition at_height {K A} `{EqDecision K} `{Countable K} (h : Z) (m : gmap (Z * K) A) : list K :=
  map snd (List.filter (fun k => Z.eqb (fst k) h) (map fst (map_to_list m))).

(** A set built by comprehension: its members must be hashable. *)
Definition val_set (l : list val) : res (list val) :=
  if forallb hashable l then Ok l else Raise TypeError.
Definition same_set (a b : list val) : bool :=
  forallb (fun x => existsb (py_eq x) b) a && forallb (fun x => existsb (py_eq x) a) b.

Definition verify_child_key_sets (d : db) (p : ParsedHeight) (existing_height : bool) : res unit :=
  if negb existing_height then Ok tt else
  let h := ph_height p in
  let incoming_tx := map (fun t => VInt (px_index t)) (ph_transactions p) in
  _ ← require (same_set (map VInt (at_height h (transactions d))) incoming_tx) conflict;
  incoming_members ← val_set (map v_address (ph_validators p));
  _ ← require (same_set (map VStr (at_height h (members d))) incoming_members) conflict;
  incoming_signatures ← val_set (map sg_signing_address (ph_signatures p));
  require (same_set (map VStr (at_height h (signatures d))) incoming_signatures) conflict.

Definition tx_expected (t : parsed_tx) : tx_columns :=
  (px_raw_base64 t, px_raw_base64_length t, px_decoded_byte_length t, px_decode_status t, px_tx_hash_hex t).

Definition verify_transaction (d : db) (h : Z) (t : parsed_tx) : res unit :=
  match transactions d !! (h, px_index t) with
  | Some row => require (bool_decide (tr_columns row = tx_expected t)) conflict
  | None => Ok tt
  end.
Definition verify_transaction_conflicts (d : db) (p : ParsedHeight) : res unit :=
  foldM_res (fun _ t => verify_transaction d (ph_height p) t) tt (ph_transactions p).

Definition opt_val (o : option val) : val := default VNone o.
(** [tuple(row) == expected] for the nine result columns. *)
Definition result_agrees (row : result_row) (r : execution_result) : bool :=
  bool_decide (rr_status row = er_execution_status r) && Z.eqb (rr_gas_wanted row) (er_gas_wanted r) &&
  Z.eqb (rr_gas_used row) (er_gas_used r) && bool_decide (rr_error row = er_error_text r) &&
  py_eq (of_option (rr_log row)) (er_log_text r) && py_eq (of_option (rr_info row)) (er_info_text r) &&
  py_eq (of_option (rr_data row)) (er_data_base64 r) && py_eq (opt_val (rr_events row)) (er_events r) &&
  py_eq (opt_val (rr_raw row)) (er_raw_result r).

Definition verify_result (d : db) (h : Z) (r : execution_result) : res unit :=
  match results d !! (h, er_tx_index r) with
  | Some row => require (result_agrees row r) conflict
  | None => Ok tt
  end.
Definition verify_execution_result_conflicts (d : db) (p : ParsedHeight) : res unit :=
  foldM_res (fun _ r => verify_result d (ph_height p) r) tt (ph_execution_results p).

(** [WHERE signing_address = %s]: a NULL parameter matches no row. *)
Definition by_address {A} (find : string -> option A) (v : val) : res (option A) :=
  o ← pg_text v;
  Ok (match o with Some a => find a | None => None end).

(** [validator.get("pub_key_type") or "unknown"] and the value likewise. *)
Definition key_type_param (v : validator) : val := por (v_pub_key_type v) (VStr "unknown").
Definition key_value_param (v : validator) : val := por (v_pub_key_value v) (VStr "").

Definition verify_validator (d : db) (v : validator) : res unit :=
  row ← by_address (fun a => validators d !! a) (v_address v);
  match row with
  | Some r => require (py_eq (VStr (vr_key r).1) (key_type_param v) && py_eq (VStr (vr_key r).2) (key_value_param v))
                conflict
  | None => Ok tt
  end.
Definition verify_validator_conflicts (d : db) (p : ParsedHeight) : res unit :=
  foldM_res (fun _ v => verify_validator d v) tt (ph_validators p).

(** [validator.get("voting_power") or 0] *)
Definition member_expected (index : nat) (v : validator) : member_columns :=
  (default 0 (v_voting_power v), v_proposer_priority v, Z.of_nat index).
Definition verify_member (d : db) (h : Z) (iv : nat * validator) : res unit :=
  row ← by_address (fun a => members d !! (h, a)) (v_address iv.2);
  match row with
  | Some r => require (bool_decide (mr_columns r = member_expected iv.1 iv.2)) conflict
  | None => Ok tt
  end.
Definition verify_member_conflicts (d : db) (p : ParsedHeight) : res unit :=
  foldM_res (fun _ iv => verify_member d (ph_height p) iv) tt (enumerate (ph_validators p)).

Definition signature_expected (s : signature_row) : signature_columns :=
  let b := sg_block_id s in
  (sg_vote_status s, sg_signed s, b ≫= hash_base64, b ≫= hash_hex, b ≫= parts_total,
   b ≫= parts_hash_base64, b ≫= parts_hash_hex, sg_is_zero s, sg_matches_commit s, sg_signature s).
Definition verify_signature (d : db) (h : Z) (s : signature_row) : res unit :=
  row ← by_address (fun a => signatures d !! (h, a)) (sg_signing_address s);
  match row with
  | Some r => require (bool_decide (ss_columns r = signature_expected s)) conflict
  | None => Ok tt
  end.
Definition verify_signature_conflicts (d : db) (p : ParsedHeight) : res unit :=
  foldM_res (fun _ s => verify_signature d (ph_height p) s) tt (ph_signatures p).

Definition verify_finalized_conflicts (d : db) (p : ParsedHeight) : res unit :=
  existing_height ← verify_block_conflict d p;
  _ ← verify_child_key_sets d p existing_height;
  _ ← verify_transaction_conflicts d p;
  _ ← verify_execution_result_conflicts d p;
  _ ← verify_validator_conflicts d p;
  _ ← verify_member_conflicts d p;
  verify_signature_conflicts d p.

(** ** Writes *)
Definition upsert_block (p : ParsedHeight) (d : db) : res db :=
  let b := ph_block p in
  hash_b64 ← text_column (b_hash_base64 b);
  hash_x ← text_column (b_hash_hex b);
  time ← pg_timestamp (b_time b);
  proposer ← pg_text (b_proposer_address b);
  raw ← json_column (ph_raw_block p);
  let row := Build_block_row hash_b64 hash_x time proposer (b_tx_count b) raw in
  _ ← pg_check (RowBlock (ph_height p) row);
  match blocks d !! ph_height p with
  | Some _ => Ok d                                (* only updated_at *)
  | None =>
      if existsb (fun kr => bool_decide (br_hash_base64 kr.2 = hash_b64) || bool_decide (br_hash_hex kr.2 = hash_x))
           (map_to_list (blocks d))
      then Raise IntegrityError                   (* blocks_block_hash_*_unique *)
      else Ok (set_blocks (<[ph_height p := row]> (blocks d)) d)
  end.

(** [normalize_summary(transaction.get("payload_summary"), fallback_status)] *)
Definition stored_summary (t : parsed_tx) : res val :=
  normalize_summary (px_payload_summary t)
    (if bool_decide (px_decode_status t = "invalid_base64") then "invalid" else "unparsed").

Definition participant_columns (q : TransactionParticipant) : participant_row :=
  (tp_message_index q, tp_role q, tp_address q).

(** [INSERT ... ON CONFLICT DO NOTHING], one row *)
Definition insert_participant (k : Z * Z) (d : db) (q : TransactionParticipant) : res db :=
  _ ← pg_check (RowParticipant k (participant_columns q));
  Ok (set_participants (<[k := {[participant_columns q]} ∪ default ∅ (participants d !! k)]> (participants d)) d).

Definition upsert_transaction (h : Z) (d : db) (t : parsed_tx) : res db :=
  payload_summary ← stored_summary t;
  raw ← text_column (px_raw_base64 t);
  tx_hash ← text_option (px_tx_hash_hex t);
  stored ← json_column payload_summary;
  let k := (h, px_index t) in
  let proposed := Build_tx_row (raw, px_raw_base64_length t, px_decoded_byte_length t, px_decode_status t, tx_hash)
                    (px_decoded_bytes t) stored in
  _ ← pg_check (RowTx k proposed);
  let row := match transactions d !! k with
             | Some old => Build_tx_row (tr_columns old) (tr_decoded_bytes old) stored
             | None => proposed
             end in
  _ ← pg_check (RowTx k row);
  let d := set_transactions (<[k := row]> (transactions d)) d in
  let d := set_participants (delete k (participants d)) d in
  foldM_res (insert_participant k) d (extract_transaction_participants payload_summary).

Definition upsert_result (h : Z) (endpoint : option Z) (d : db) (r : execution_result) : res db :=
  error ← text_option (er_error_text r);
  log ← pg_text (er_log_text r);
  info ← pg_text (er_info_text r);
  data ← pg_text (er_data_base64 r);
  events ← json_column (er_events r);
  raw ← json_column (er_raw_result r);
  let row := Build_result_row (er_execution_status r) (er_gas_wanted r) (er_gas_used r)
               error log info data events raw endpoint in
  _ ← pg_check (RowResult (h, er_tx_index r) row);
  match results d !! (h, er_tx_index r) with
  | Some _ => Ok d                                (* only updated_at *)
  | None =>
      if bool_decide (is_Some (transactions d !! (h, er_tx_index r))) then
        Ok (set_results (<[(h, er_tx_index r) := row]> (results d)) d)
      else Raise IntegrityError                   (* foreign key *)
  end.

Definition upsert_transactions (p : ParsedHeight) (endpoint : option Z) (d : db) : res db :=
  d ← foldM_res (upsert_transaction (ph_height p)) d (ph_transactions p);
  foldM_res (upsert_result (ph_height p) endpoint) d (ph_execution_results p).

(** *** Realm calls of one height *)
Definition call_key (chain_id : string) (h i : Z) (c : RealmCallRecord) : string * Z * Z * nat :=
  (chain_id, h, i, rc_message_index c).

(** The loop's [positions] set, [inserted] count and tables. *)
Definition call_loop : Type := list (Z * nat) * Z * db.
Definition insert_realm_call (chain_id : string) (h i : Z) (s : call_loop) (c : RealmCallRecord) : res call_loop :=
  let '(positions, inserted, d) := s in
  let position := (i, rc_message_index c) in
  if bool_decide (position ∈ positions)
  then Raise (DatabaseError "Duplicate Realm call position in finalized height")
  else
    let k := call_key chain_id h i c in
    _ ← pg_check (RowCall k c);
    if bool_decide (is_Some (realm_calls d !! k)) then Raise IntegrityError else
    Ok (position :: positions, inserted + 1, set_realm_calls (<[k := c]> (realm_calls d)) d).

Definition insert_transaction_calls (chain_id : string) (h : Z) (s : call_loop) (t : parsed_tx) : res call_loop :=
  summary ← stored_summary t;
  foldM_res (insert_realm_call chain_id h (px_index t)) s (extract_realm_calls summary).

Definition delete_realm_calls (chain_id : string) (h : Z) (d : db) : db :=
  set_realm_calls (filter (fun kv => ~ (kv.1.1.1.1 = chain_id /\ kv.1.1.1.2 = h)) (realm_calls d)) d.

Definition replace_realm_calls_for_height (p : ParsedHeight) (chain_id : string) (d : db) : res db :=
  s ← foldM_res (insert_transaction_calls chain_id (ph_height p)) ([], 0, delete_realm_calls chain_id (ph_height p) d)
        (ph_transactions p);
  let '(positions, inserted, d) := s in
  _ ← require (inserted =? Z.of_nat (length positions)) (DatabaseError "Realm call replacement count mismatch");
  Ok d.

(** *** Realm catalog *)
Definition pos_ltb (a b : Z * Z) : bool := (a.1 <? b.1) || ((a.1 =? b.1) && (a.2 <? b.2)).

(** The row the INSERT proposes for one aggregate. *)
Definition proposed_row (height : Z) (block_time : val) (a : PathAggregate) : catalog_row :=
  let called := negb (pa_call_count a =? 0) in
  Build_catalog_row (pa_kind a) true (pa_deployer_address a)
    ((fun i => (height, i)) <$> pa_deploy_tx_index a) (Some height)
    (if called then (fun i => (height, i)) <$> pa_last_activity_tx_index a else None)
    (if called then Some block_time else None)
    (pa_call_count a) (pa_successful_call_count a) (pa_failed_call_count a) (pa_unknown_result_call_count a)
    (if called then Some height else None) (false, false, None).

(** The [DO UPDATE SET] clause. *)
Definition merge_row (row ex : catalog_row) : catalog_row :=
  let earlier := match cr_deploy row with
                 | None => true
                 | Some p => match cr_deploy ex with Some q => pos_ltb q p | None => false end
                 end in
  let later := match cr_last ex with
               | None => false
               | Some q => match cr_last row with None => true | Some p => pos_ltb p q end
               end in
  let at_least := match cr_last ex with
                  | None => false
                  | Some q => match cr_last row with None => true | Some p => p.1 <=? q.1 end
                  end in
  let counted := match cr_last_counted ex with
                 | None => false
                 | Some h => default 0 (cr_last_counted row) <? h
                 end in
  let add x y := x + (if counted then y else 0) in
  Build_catalog_row (cr_kind ex) true
    (if earlier then cr_deployer ex else cr_deployer row)
    (if earlier then cr_deploy ex else cr_deploy row)
    (match cr_first_seen row, cr_first_seen ex with
     | Some a, Some b => Some (Z.min a b) | Some a, None => Some a | None, o => o end)
    (if later then cr_last ex else cr_last row)
    (if at_least then cr_last_at ex else cr_last_at row)
    (add (cr_calls row) (cr_calls ex)) (add (cr_success row) (cr_success ex))
    (add (cr_failed row) (cr_failed ex)) (add (cr_unknown row) (cr_unknown ex))
    (if counted then cr_last_counted ex else cr_last_counted row) (cr_rpc row).

Definition upsert_aggregate (chain_id : string) (height : Z) (block_time : val) (d : db) (a : PathAggregate) : res db :=
  time ← (if pa_call_count a =? 0 then Ok VNone else pg_timestamp block_time);
  let ex := proposed_row height time a in
  let k := (chain_id, pa_path a) in
  _ ← pg_check (RowCatalog k ex);
  let row := match catalog d !! k with Some row => merge_row row ex | None => ex end in
  _ ← pg_check (RowCatalog k row);
  Ok (set_catalog (<[k := row]> (catalog d)) d).

Definition upsert_transaction_catalog_aggregates (chain_id : string) (height : Z) (block_time : val)
    (aggregates : list PathAggregate) (d : db) : res db :=
  _ ← require (1 <=? height) (ValueError "height must be positive");
  foldM_res (upsert_aggregate chain_id height block_time) d aggregates.

(** [{result["tx_index"]: result["execution_status"] ...}.get(index)] *)
Definition status_of (rs : list execution_result) (i : Z) : option string :=
  fold_left (fun acc r => if er_tx_index r =? i then Some (er_execution_status r) else acc) rs None.

Definition catalog_entry (rs : list execution_result) (t : parsed_tx) : res tx_entry :=
  summary ← stored_summary t;
  Ok (px_index t, summary, status_of rs (px_index t)).

Definition upsert_realm_catalog (p : ParsedHeight) (chain_id : string) (d : db) : res db :=
  summaries ← mapM_res (catalog_entry (ph_execution_results p)) (ph_transactions p);
  upsert_transaction_catalog_aggregates chain_id (ph_height p) (b_time (ph_block p)) (aggregate_block summaries) d.

(** *** Coverage ranges *)
(** [class RealmCallCoverageResult], [class RealmActivityCoverageResult] *)
Record coverage_result := { cv_previous : option Z; cv_new : option Z; cv_advanced : bool }.

Definition coverage_arguments (chain_id : string) (height : Z) : res unit :=
  _ ← require (negb (String.eqb (py_strip chain_id) "")) (ValueError "chain_id must be a non-empty string");
  require (1 <=? height) (ValueError "height must be a positive integer").

Definition advance_realm_call_coverage (chain_id : string) (height : Z) (initialize_if_missing : bool) (d : db)
    : res (db * coverage_result) :=
  _ ← coverage_arguments chain_id height;
  match call_state d !! chain_id with
  | None =>
      if initialize_if_missing then
        _ ← pg_check (RowCallState chain_id (height, height));
        Ok (set_call_state (<[chain_id := (Some height, Some height)]> (call_state d)) d,
            Build_coverage_result None (Some height) true)
      else Ok (d, Build_coverage_result None None false)
  | Some (Some from, Some previous) =>
      if height <=? previous then Ok (d, Build_coverage_result (Some previous) (Some previous) false)
      else if negb (height =? previous + 1)
      then Raise (RealmCallCoverageError "Realm call coverage cannot advance")
      else _ ← pg_check (RowCallState chain_id (from, height));
           Ok (set_call_state (<[chain_id := (Some from, Some height)]> (call_state d)) d,
               Build_coverage_result (Some previous) (Some height) true)
  | Some _ => Raise (RealmCallCoverageError "Incompatible Realm call coverage state")
  end.

Definition advance_realm_activity_coverage (chain_id : string) (height : Z) (d : db) : res (db * coverage_result) :=
  _ ← coverage_arguments chain_id height;
  match activity_state d !! chain_id with
  | None | Some (None, None) => Ok (d, Build_coverage_result None None false)
  | Some (Some from, Some previous) =>
      if height <=? previous then Ok (d, Build_coverage_result (Some previous) (Some previous) false)
      else if negb (height =? previous + 1)
      then Raise (RealmActivityCoverageError "Realm activity coverage cannot advance")
      else Ok (set_activity_state (<[chain_id := (Some from, Some height)]> (activity_state d)) d,
               Build_coverage_result (Some previous) (Some height) true)
  | Some _ => Raise (RealmActivityCoverageError "Incompatible Realm activity coverage state")
  end.

(** *** Validators, members, signatures *)
Definition upsert_validator (h : Z) (d : db) (v : validator) : res db :=
  a ← text_not_null (v_address v);
  kind ← text_not_null (key_type_param v);
  value ← text_not_null (key_value_param v);
  let proposed := Build_validator_row (kind, value) h h in
  _ ← pg_check (RowValidator a proposed);
  match validators d !! a with
  | Some old =>
      let row := Build_validator_row (vr_key old) (Z.min (vr_first_seen old) h) (Z.max (vr_last_seen old) h) in
      _ ← pg_check (RowValidator a row);
      Ok (set_validators (<[a := row]> (validators d)) d)
  | None =>
      if existsb (fun kr => bool_decide (vr_key kr.2 = (kind, value))) (map_to_list (validators d))
      then Raise IntegrityError                   (* validators_public_key_unique *)
      else Ok (set_validators (<[a := proposed]> (validators d)) d)
  end.

(** The dict [parse_validators] built, as [_json(validator)] sees it. *)
Definition validator_val (v : validator) : val :=
  let int o := match o with Some z => VInt z | None => VNone end in
  VDict [("address", v_address v); ("voting_power", int (v_voting_power v));
         ("proposer_priority", int (v_proposer_priority v)); ("pub_key_type", v_pub_key_type v);
         ("pub_key_display_type", of_option (v_pub_key_display_type v)); ("pub_key_value", v_pub_key_value v)].

Definition insert_member (h : Z) (d : db) (iv : nat * validator) : res db :=
  a ← text_not_null (v_address iv.2);
  raw ← json_column (validator_val iv.2);
  let row := Build_member_row (member_expected iv.1 iv.2) raw in
  _ ← pg_check (RowMember (h, a) row);
  match members d !! (h, a) with
  | Some _ => Ok d
  | None => Ok (set_members (<[(h, a) := row]> (members d)) d)
  end.

Definition upsert_validator_and_member (h : Z) (d : db) (iv : nat * validator) : res db :=
  d ← upsert_validator h d iv.2;
  insert_member h d iv.
Definition upsert_validators_and_members (p : ParsedHeight) (d : db) : res db :=
  foldM_res (upsert_validator_and_member (ph_height p)) d (enumerate (ph_validators p)).

Definition insert_signature (h : Z) (d : db) (s : signature_row) : res db :=
  a ← text_not_null (sg_signing_address s);
  signature ← text_option (sg_signature s);
  raw ← json_column (opt_val (sg_raw_precommit s));
  let row := Build_stored_signature (signature_expected s) raw in
  _ ← pg_check (RowSignature (h, a) row);
  match signatures d !! (h, a) with
  | Some _ => Ok d
  | None =>
      if bool_decide (is_Some (members d !! (h, a))) then
        Ok (set_signatures (<[(h, a) := row]> (signatures d)) d)
      else Raise IntegrityError                   (* foreign key *)
  end.
Definition upsert_signatures (p : ParsedHeight) (d : db) : res db :=
  foldM_res (insert_signature (ph_height p)) d (ph_signatures p).

(** *** Checkpoint *)
Definition advance_checkpoint (height : Z) (checkpoint : option Z) (chain_id : string) (finalized_tip : Z)
    (endpoint_id : option Z) (d : db) : res db :=
  let skip := match checkpoint with Some c => height <=? c | None => false end in
  if skip then Ok d else
  _ ← require (match checkpoint with Some c => height =? c + 1 | None => true end)
        (DatabaseError "Height is not the next sequential checkpoint");
  let proposed := Build_state_row chain_id height finalized_tip endpoint_id in
  _ ← pg_check (RowState proposed);
  let row := match state d with
             | None => proposed
             | Some old => Build_state_row (st_chain old) (Z.max (st_last_finalized old) height) finalized_tip endpoint_id
             end in
  _ ← pg_check (RowState row);
  Ok (set_state (Some row) d).

Definition write_height_cursor (p : ParsedHeight) (chain_id : string) (finalized_tip : Z)
    (selected_rpc_endpoint_id : option Z) (d : db) : res db :=
  checkpoint ← get_checkpoint_cursor chain_id d;
  _ ← verify_checkpoint_sequence (ph_height p) checkpoint;
  let d := lock_realm_call_index d in
  _ ← verify_finalized_conflicts d p;
  d ← upsert_block p d;
  d ← upsert_transactions p selected_rpc_endpoint_id d;
  d ← replace_realm_calls_for_height p chain_id d;
  d ← upsert_realm_catalog p chain_id d;
  '(d, _) ← advance_realm_call_coverage chain_id (ph_height p) (bool_decide (checkpoint = None)) d;
  '(d, _) ← advance_realm_activity_coverage chain_id (ph_height p) d;
  d ← upsert_validators_and_members p d;
  d ← upsert_signatures p d;
  advance_checkpoint (ph_height p) checkpoint chain_id finalized_tip selected_rpc_endpoint_id d.

(** [PostgresDatabase.write_height]: the [with connection] block commits the
    cursor's writes or, when anything raises, rolls them back; the
    transaction's advisory locks end with it. *)
Definition write_height (p : ParsedHeight) (chain_id : string) (finalized_tip : Z)
    (selected_rpc_endpoint_id : option Z) (d : db) : res unit * db :=
  match write_height_cursor p chain_id finalized_tip selected_rpc_endpoint_id d with
  | Ok d' => (Ok tt, set_xact_locks ∅ d')
  | Raise e => (Raise e, d)
  end.
End database.

(** ** Frames: which table an operation touches

    A table is read and replaced through a lens; its content is seen by key.
    [fold_rows] is the loop rule of every [for ...: cursor.execute(...)] loop:
    the loop changes one table, at the keys of its items only, and running an
    item again where its row is already there changes nothing. *)
Class Lens {S} (get : db -> S) (set : S -> db -> db) := {
  lens_get : forall s d, get (set s d) = s;
  lens_set : forall s t d, set s (set t d) = set s d;
  lens_id : forall d, set (get d) d = d
}.
Class KeyedStore (S K X : Type) := {
  at_key : K -> S -> X;
  put : K -> (X -> X) -> S -> S;
  at_put : forall k f s, at_key k (put k f s) = f (at_key k s);
  at_put_ne : forall k j f s, j <> k -> at_key j (put k f s) = at_key j s;
  put_id : forall k f s, f (at_key k s) = at_key k s -> put k f s = s
}.

Lemma partial_alter_same {K V} `{Countable K} (f : option V -> option V) (k : K) (m : gmap K V) :
  f (m !! k) = m !! k -> partial_alter f k m = m.
Proof.
  intros Hf. apply map_eq. intros j. destruct (decide (j = k)) as [->|Hne].
  - by rewrite lookup_partial_alter_eq.
  - by rewrite lookup_partial_alter_ne.
Qed.

Lemma partial_alter_const {K V} `{Countable K} (f : option V -> option V) (k : K) (m : gmap K V) :
  partial_alter (fun _ => f (m !! k)) k m = partial_alter f k m.
Proof.
  apply map_eq. intros j. destruct (decide (j = k)) as [->|Hne].
  - by rewrite !lookup_partial_alter_eq.
  - by rewrite !lookup_partial_alter_ne.
Qed.

#[export] Program Instance gmap_store {K V} `{Countable K} : KeyedStore (gmap K V) K (option V) :=
  {| at_key k m := m !! k; put k f m := partial_alter f k m |}.
Next Obligation. intros. apply lookup_partial_alter_eq. Qed.
Next Obligation. intros. by apply lookup_partial_alter_ne. Qed.
Next Obligation. intros K V ? ? k f s Hf. by apply partial_alter_same. Qed.

Lemma lookup_put {K V} `{Countable K} (k : K) f (m : gmap K V) : put k f m !! k = f (m !! k).
Proof. apply lookup_partial_alter_eq. Qed.
Lemma lookup_put_ne {K V} `{Countable K} (k j : K) f (m : gmap K V) : j <> k -> put k f m !! j = m !! j.
Proof. intros Hne. by apply lookup_partial_alter_ne. Qed.

#[export] Program Instance pair_store {K V W} `{Countable K} :
  KeyedStore (gmap K V * gmap K W) K (option V * option W) :=
  {| at_key k s := (s.1 !! k, s.2 !! k);
     put k f s := (partial_alter (fun _ => (f (s.1 !! k, s.2 !! k)).1) k s.1,
                   partial_alter (fun _ => (f (s.1 !! k, s.2 !! k)).2) k s.2) |}.
Next Obligation. intros. simpl. rewrite !lookup_partial_alter_eq. by destruct (f _). Qed.
Next Obligation. intros. simpl. by rewrite !lookup_partial_alter_ne. Qed.
Next Obligation.
  intros K V W ? ? k f [a b] Hf. simpl in *. rewrite Hf. simpl. f_equal; by apply partial_alter_same.
Qed.

Ltac lens := constructor; intros; repeat match goal with d : db |- _ => destruct d end; reflexivity.
#[export] Instance lens_blocks : Lens blocks set_blocks. Proof. lens. Qed.
#[export] Instance lens_results : Lens results set_results. Proof. lens. Qed.
#[export] Instance lens_catalog : Lens catalog set_catalog. Proof. lens. Qed.
#[export] Instance lens_validators : Lens validators set_validators. Proof. lens. Qed.
#[export] Instance lens_members : Lens members set_members. Proof. lens. Qed.
#[export] Instance lens_signatures : Lens signatures set_signatures. Proof. lens. Qed.
Definition get_txs (d : db) := (transactions d, participants d).
Definition set_txs (s : gmap (Z * Z) tx_row * gmap (Z * Z) (gset participant_row)) (d : db) :=
  set_participants s.2 (set_transactions s.1 d).
#[export] Instance lens_txs : Lens get_txs set_txs.
Proof. constructor; intros; repeat match goal with d : db |- _ => destruct d end; try reflexivity. by destruct s. Qed.

Section fold_rows.
Context {S K X A : Type} (get : db -> S) (set : S -> db -> db) `{Lens S get set} `{KeyedStore S K X} `{!EqDecision K}.
Context (op : db -> A -> res db) (key : A -> K) (P : A -> X -> X -> Prop).

(** One item: its key, the row before and after, and the effect of a rerun. *)
Definition row_step (x : A) (d d' : db) : Prop :=
  exists f, d' = set (put (key x) f (get d)) d /\
    P x (at_key (key x) (get d)) (f (at_key (key x) (get d))) /\
    forall d2, at_key (key x) (get d2) = f (at_key (key x) (get d)) -> op d2 x = Ok d2.

Context (Hstep : forall x d d', op d x = Ok d' -> row_step x d d').

Lemma fold_rows l d d' :
  foldM_res op d l = Ok d' -> NoDup (map key l) ->
  exists s, d' = set s d /\
    (forall k, k ∉ map key l -> at_key k s = at_key k (get d)) /\
    (forall x, x ∈ l -> P x (at_key (key x) (get d)) (at_key (key x) s) /\
       forall d2, at_key (key x) (get d2) = at_key (key x) s -> op d2 x = Ok d2).
Proof.
  revert d. induction l as [|x l IH]; intros d; cbn [foldM_res map].
  - intros [= <-] _. exists (get d). rewrite lens_id. split_and!; [done|done|]. intros x Hx. by apply elem_of_nil in Hx.
  - intros (d1 & Hx & Hl)%bind_Ok [Hn Hnd]%NoDup_cons.
    destruct (Hstep _ _ _ Hx) as (f & -> & HP & Hre).
    destruct (IH _ Hl Hnd) as (s & -> & Hout & Hin). rewrite lens_get in Hout, Hin.
    exists s. split_and!.
    + by rewrite lens_set.
    + intros k [Hk Hkl]%not_elem_of_cons. rewrite (Hout k Hkl). by apply at_put_ne.
    + intros y [->|Hy]%elem_of_cons.
      * rewrite (Hout _ Hn), at_put. split; [done|]. done.
      * destruct (Hin y Hy) as [Hp Hr]. split; [|done].
        rewrite at_put_ne in Hp; [done|]. intros Heq. apply Hn. rewrite <- Heq. by apply list_elem_of_fmap_2.
Qed.

(** The same loop without distinct keys: what is monotone stays. *)
Lemma fold_rows_mono (R : relation X) `{!PreOrder R} l d d' :
  (forall x o o', P x o o' -> R o o') ->
  foldM_res op d l = Ok d' ->
  exists s, d' = set s d /\
    (forall k, k ∉ map key l -> at_key k s = at_key k (get d)) /\
    (forall k, R (at_key k (get d)) (at_key k s)) /\
    (forall x, x ∈ l -> exists o o', P x o o' /\ R o' (at_key (key x) s)).
Proof.
  intros HR. revert d. induction l as [|x l IH]; intros d; cbn [foldM_res map].
  - intros [= <-]. exists (get d). rewrite lens_id. split_and!; try done. intros x Hx. by apply elem_of_nil in Hx.
  - intros (d1 & Hx & Hl)%bind_Ok. destruct (Hstep _ _ _ Hx) as (f & -> & HP & _).
    destruct (IH _ Hl) as (s & -> & Hout & Hmono & Hin). rewrite lens_get in Hout, Hmono.
    exists s. split_and!.
    + by rewrite lens_set.
    + intros k [Hk Hkl]%not_elem_of_cons. rewrite (Hout k Hkl). by apply at_put_ne.
    + intros k. transitivity (at_key k (put (key x) f (get d))); [|done].
      destruct (decide (k = key x)) as [->|Hne].
      * rewrite at_put. by apply (HR x).
      * by rewrite at_put_ne.
    + intros y [->|Hy]%elem_of_cons; [|by apply Hin]. eexists _, _. split; [exact HP|].
      rewrite <- (at_put (key x) f (get d)). apply Hmono.
Qed.
End fold_rows.

(** ** One row of each table *)

(** Run the next bind of the goal, whose left part is known. *)
Ltac run_step E := rewrite E; cbn [mbind res_bind].

Section rows.
Context `{PyRuntime} `{PL : PostgresLaws}.

Lemma text_column_Ok s t : text_column s = Ok t -> t = s.
Proof. unfold text_column. intros (o & Ho & Ht)%bind_Ok. apply pg_text_stored in Ho. destruct o; naive_solver. Qed.
Lemma text_not_null_Ok v a : text_not_null v = Ok a -> v = VStr a.
Proof. unfold text_not_null. intros (o & Ho & Ht)%bind_Ok. apply pg_text_stored in Ho. destruct o; naive_solver. Qed.
Lemma text_option_Ok o o' : text_option o = Ok o' -> o' = o.
Proof. unfold text_option. intros Ho%pg_text_stored. destruct o, o'; naive_solver. Qed.
Lemma py_eq_of_option o : py_eq (of_option o) (of_option o) = true.
Proof. destruct o; simpl; [apply String.eqb_refl|done]. Qed.
Lemma pg_text_agrees v o : pg_text v = Ok o -> py_eq (of_option o) v = true.
Proof. intros ->%pg_text_stored. apply py_eq_of_option. Qed.

(** What is read back from a JSONB column equals what was written. *)
Definition json_stable (v : val) : Prop := forall j, json_column v = Ok j -> py_eq (opt_val j) v = true.

Lemma insert_participants_Ok k qs d d' :
  foldM_res (insert_participant k) d qs = Ok d' ->
  d' = set_participants (match qs with
       | [] => participants d
       | _ => <[k := list_to_set (map participant_columns qs) ∪ default ∅ (participants d !! k)]> (participants d)
       end) d /\
  Forall (fun q => pg_check (RowParticipant k (participant_columns q)) = Ok tt) qs.
Proof.
  revert d. induction qs as [|q qs IH]; intros d; cbn [foldM_res].
  - intros [= <-]. split; [by destruct d|constructor].
  - intros (d1 & Hq & Hl)%bind_Ok. unfold insert_participant in Hq.
    apply bind_Ok in Hq as ([] & Hc & [= <-]). destruct (IH _ Hl) as [-> Hf]. split; [|by constructor].
    destruct qs as [|q' qs]; cbn [map list_to_set participants set_participants].
    + unfold set_participants. cbn [transactions]. f_equal. by rewrite (right_id_L ∅ (∪)).
    + unfold set_participants. cbn. f_equal. rewrite insert_insert_eq. f_equal. rewrite lookup_insert_eq. simpl.
      set_solver.
Qed.
Lemma insert_participants_run k qs d :
  Forall (fun q => pg_check (RowParticipant k (participant_columns q)) = Ok tt) qs ->
  foldM_res (insert_participant k) d qs = Ok (set_participants (match qs with
       | [] => participants d
       | _ => <[k := list_to_set (map participant_columns qs) ∪ default ∅ (participants d !! k)]> (participants d)
       end) d).
Proof.
  revert d. induction qs as [|q qs IH]; intros d Hf; [by destruct d|].
  apply Forall_cons in Hf as [Hq Hf]. destruct (foldM_res (insert_participant k) d (q :: qs)) as [d'|e] eqn:E.
  - apply insert_participants_Ok in E as [-> _]. done.
  - exfalso. cbn [foldM_res] in E. destruct (insert_participant k d q) as [d1|] eqn:E1.
    + cbn [mbind res_bind] in E. by rewrite (IH d1 Hf) in E.
    + unfold insert_participant in E1. by rewrite Hq in E1.
Qed.

(** The participant rows a stored summary stands for. *)
Definition participant_rows (summary : val) : option (gset participant_row) :=
  match extract_transaction_participants summary with
  | [] => None
  | qs => Some (list_to_set (map participant_columns qs))
  end.

(** What is kept of a transaction row, what is replaced. *)
Definition tx_written (t : parsed_tx) (o o' : option tx_row * option (gset participant_row)) : Prop :=
  exists row summary stored, o'.1 = Some row /\ stored_summary t = Ok summary /\
    json_column summary = Ok stored /\ tr_payload_summary row = stored /\ o'.2 = participant_rows summary /\
    match o.1 with
    | Some old => tr_columns row = tr_columns old /\ tr_decoded_bytes row = tr_decoded_bytes old
    | None => tr_columns row = tx_expected t /\ tr_decoded_bytes row = px_decoded_bytes t
    end.

Lemma upsert_transaction_step h t d d' : upsert_transaction h d t = Ok d' ->
  row_step get_txs set_txs (upsert_transaction h) (fun t => (h, px_index t)) tx_written t d d'.
Proof.
  unfold upsert_transaction. intros Hu.
  apply bind_Ok in Hu as (summary & Hs & Hu). apply bind_Ok in Hu as (raw & Hr & Hu).
  apply bind_Ok in Hu as (tx_hash & Ht & Hu). apply bind_Ok in Hu as (stored & Hj & Hu). cbn zeta in Hu.
  apply bind_Ok in Hu as ([] & Hc1 & Hu). apply bind_Ok in Hu as ([] & Hc2 & Hu).
  set (k := (h, px_index t)) in *.
  set (proposed := Build_tx_row _ _ stored) in *.
  set (f := fun o : option tx_row * option (gset participant_row) =>
    (Some (match o.1 with Some old => Build_tx_row (tr_columns old) (tr_decoded_bytes old) stored | None => proposed end),
     participant_rows summary)).
  apply insert_participants_Ok in Hu as [-> Hf].
  exists f. change (transactions d !! k) with (at_key k (get_txs d)).1 in *. split_and!.
  - unfold set_txs, get_txs, put, pair_store. cbn [fst snd f at_key].
    unfold set_participants, set_transactions. cbn.
    f_equal. unfold participant_rows. destruct (extract_transaction_participants summary) as [|q qs]; [done|].
    rewrite lookup_delete_eq. simpl default. by rewrite (right_id_L ∅ (∪)), insert_delete_eq.
  - exists (match (at_key k (get_txs d)).1 with
            | Some old => Build_tx_row (tr_columns old) (tr_decoded_bytes old) stored
            | None => proposed end), summary, stored.
    split_and!; try done; [by destruct (at_key k (get_txs d)).1|].
    destruct (at_key k (get_txs d)).1; [done|]. simpl. unfold tx_expected.
    by rewrite (text_column_Ok _ _ Hr), (text_option_Ok _ _ Ht).
  - intros d2 H2. change (at_key k (get_txs d2) = f (at_key k (get_txs d))) in H2. run_step Hs. run_step Hr. run_step Ht. run_step Hj. cbn zeta. fold k proposed. run_step Hc1.
    change (transactions d2 !! k) with (at_key k (get_txs d2)).1. rewrite H2. unfold f. cbn [fst].
    set (row := match (at_key k (get_txs d)).1 with Some old => _ | None => proposed end) in *.
    assert (Hrow : Build_tx_row (tr_columns row) (tr_decoded_bytes row) stored = row).
    { unfold row. by destruct (at_key k (get_txs d)).1. }
    rewrite Hrow. run_step Hc2. rewrite (insert_participants_run _ _ _ Hf). f_equal.
    pose proof (f_equal fst H2) as Hk1. pose proof (f_equal snd H2) as Hk2. cbn [at_key pair_store get_txs f fst snd] in Hk1, Hk2.
    fold row in Hk1. unfold set_participants, set_transactions. destruct d2 as [? tx2 pa2]. cbn in *.
    f_equal; [by apply insert_id|]. unfold participant_rows in Hk2.
    destruct (extract_transaction_participants summary) as [|q qs]; [by apply delete_id|].
    rewrite lookup_delete_eq. simpl default. rewrite (right_id_L ∅ (∪)), insert_delete_eq. by apply insert_id.
Qed.

(** An insertion that leaves an existing row alone. *)
Definition kept_or {R} (Q : R -> Prop) (o o' : option R) : Prop :=
  match o with Some r => o' = Some r | None => exists r, o' = Some r /\ Q r end.

Lemma put_default {K V} `{Countable K} (k : K) (r : V) (m : gmap K V) :
  put k (fun o => Some (default r o)) m = match m !! k with Some _ => m | None => <[k := r]> m end.
Proof.
  destruct (m !! k) as [x|] eqn:E.
  - apply put_id. simpl. by rewrite E.
  - simpl. apply map_eq. intros j. destruct (decide (j = k)) as [->|Hne].
    + by rewrite lookup_partial_alter_eq, lookup_insert_eq, E.
    + by rewrite lookup_partial_alter_ne, lookup_insert_ne.
Qed.

Definition block_written (p : ParsedHeight) : option block_row -> option block_row -> Prop :=
  kept_or (fun r => br_hash_base64 r = b_hash_base64 (ph_block p) /\ br_hash_hex r = b_hash_hex (ph_block p)).

Lemma upsert_block_step p d d' : upsert_block p d = Ok d' ->
  row_step blocks set_blocks (fun d p => upsert_block p d) ph_height block_written p d d'.
Proof.
  unfold upsert_block. intros Hu. cbn zeta in Hu.
  apply bind_Ok in Hu as (b64 & H1 & Hu). apply bind_Ok in Hu as (hx & H2 & Hu).
  apply bind_Ok in Hu as (time & H3 & Hu). apply bind_Ok in Hu as (prop & H4 & Hu).
  apply bind_Ok in Hu as (raw & H5 & Hu). apply bind_Ok in Hu as ([] & H6 & Hu).
  set (row := Build_block_row b64 hx time prop (b_tx_count (ph_block p)) raw) in *.
  exists (fun o => Some (default row o)). rewrite put_default. unfold block_written, kept_or.
  change (at_key (ph_height p) (blocks d)) with (blocks d !! ph_height p).
  split_and!.
  - destruct (blocks d !! ph_height p); [apply Ok_inj in Hu as <-; by destruct d|].
    destruct (existsb _ _); [done|]. by apply Ok_inj in Hu as <-.
  - destruct (blocks d !! ph_height p); [done|]. exists row. split; [done|].
    by rewrite <- (text_column_Ok _ _ H1), <- (text_column_Ok _ _ H2).
  - intros d2 Hd2. run_step H1. run_step H2. run_step H3. run_step H4. run_step H5. fold row.
    run_step H6. change (at_key (ph_height p) (blocks d2)) with (blocks d2 !! ph_height p) in Hd2. by rewrite Hd2.
Qed.

Definition result_written (r : execution_result) : option result_row -> option result_row -> Prop :=
  kept_or (fun row => json_stable (er_events r) -> json_stable (er_raw_result r) -> result_agrees row r = true).

Lemma upsert_result_step h endpoint r d d' : upsert_result h endpoint d r = Ok d' ->
  row_step results set_results (upsert_result h endpoint) (fun r => (h, er_tx_index r)) result_written r d d'.
Proof.
  unfold upsert_result. intros Hu.
  apply bind_Ok in Hu as (er & H1 & Hu). apply bind_Ok in Hu as (lg & H2 & Hu).
  apply bind_Ok in Hu as (info & H3 & Hu). apply bind_Ok in Hu as (data & H4 & Hu).
  apply bind_Ok in Hu as (ev & H5 & Hu). apply bind_Ok in Hu as (raw & H6 & Hu). cbn zeta in Hu.
  apply bind_Ok in Hu as ([] & H7 & Hu).
  set (row := Build_result_row _ _ _ er lg info data ev raw endpoint) in *.
  set (k := (h, er_tx_index r)) in *.
  exists (fun o => Some (default row o)). rewrite put_default. unfold result_written, kept_or. cbn beta. fold k.
  change (at_key k (results d)) with (results d !! k). split_and!.
  - fold k. destruct (results d !! k); [apply Ok_inj in Hu as <-; by destruct d|].
    case_bool_decide; [|discriminate Hu]. by apply Ok_inj in Hu as <-.
  - destruct (results d !! k); [done|]. exists row. split; [done|]. intros Hev Hraw. unfold result_agrees, row. simpl.
    apply text_option_Ok in H1 as ->. rewrite !bool_decide_eq_true_2, !Z.eqb_refl by done.
    rewrite (pg_text_agrees _ _ H2), (pg_text_agrees _ _ H3), (pg_text_agrees _ _ H4).
    by rewrite (Hev _ H5), (Hraw _ H6).
  - intros d2 Hd2. run_step H1. run_step H2. run_step H3. run_step H4. run_step H5. run_step H6. cbn zeta. fold k row.
    run_step H7. change (at_key k (results d2)) with (results d2 !! k) in Hd2. by rewrite Hd2.
Qed.

Definition signature_written (s : signature_row) (o o' : option stored_signature) : Prop :=
  is_str (sg_signing_address s) = true /\ kept_or (fun r => ss_columns r = signature_expected s) o o'.

Lemma insert_signature_step h s d d' : insert_signature h d s = Ok d' ->
  row_step signatures set_signatures (insert_signature h) (fun s => (h, str_of_val (sg_signing_address s)))
    signature_written s d d'.
Proof.
  intros Hu. unfold insert_signature in Hu.
  apply bind_Ok in Hu as (a & H1 & Hu). apply bind_Ok in Hu as (sg & H2 & Hu).
  apply bind_Ok in Hu as (raw & H3 & Hu). cbn zeta in Hu. apply bind_Ok in Hu as ([] & H4 & Hu).
  pose proof (text_not_null_Ok _ _ H1) as Ha. unfold row_step, signature_written, kept_or. rewrite Ha.
  change (str_of_val (VStr a)) with a. set (row := Build_stored_signature (signature_expected s) raw) in *.
  exists (fun o => Some (default row o)). rewrite put_default.
  change (at_key (h, a) (signatures d)) with (signatures d !! (h, a)). split_and!.
  - destruct (signatures d !! (h, a)); [apply Ok_inj in Hu as <-; by destruct d|].
    case_bool_decide; [|discriminate Hu]. by apply Ok_inj in Hu as <-.
  - done.
  - destruct (signatures d !! (h, a)); [done|]. by exists row.
  - intros d2 Hd2. unfold insert_signature. run_step H1. run_step H2. run_step H3. cbn zeta. fold row. run_step H4.
    change (at_key (h, a) (signatures d2)) with (signatures d2 !! (h, a)) in Hd2. by rewrite Hd2.
Qed.

(** A validator and its membership at one height, seen by address. *)
Definition get_vm (d : db) := (validators d, members d).
Definition set_vm (s : gmap string validator_row * gmap (Z * string) member_row) (d : db) :=
  set_members s.2 (set_validators s.1 d).
#[export] Instance lens_vm : Lens get_vm set_vm.
Proof. constructor; intros; repeat match goal with d : db |- _ => destruct d end; try reflexivity. by destruct s. Qed.
#[export] Program Instance vm_store (h : Z) :
  KeyedStore (gmap string validator_row * gmap (Z * string) member_row) string
    (option validator_row * option member_row) :=
  {| at_key a s := (s.1 !! a, s.2 !! (h, a));
     put a f s := (partial_alter (fun _ => (f (s.1 !! a, s.2 !! (h, a))).1) a s.1,
                   partial_alter (fun _ => (f (s.1 !! a, s.2 !! (h, a))).2) (h, a) s.2) |}.
Next Obligation. intros. simpl. rewrite !lookup_partial_alter_eq. by destruct (f _). Qed.
Next Obligation. intros. simpl. rewrite !lookup_partial_alter_ne; [done| |done]. congruence. Qed.
Next Obligation.
  intros h k f [a b] Hf. simpl in *. rewrite Hf. simpl. f_equal; by apply partial_alter_same.
Qed.

Definition vm_written (h : Z) (iv : nat * validator)
    (o o' : option validator_row * option member_row) : Prop :=
  is_str (v_address iv.2) = true /\
  (exists row, o'.1 = Some row /\ vr_first_seen row <= h <= vr_last_seen row /\
     match o.1 with
     | Some old => vr_key row = vr_key old /\ vr_first_seen row <= vr_first_seen old /\ vr_last_seen old <= vr_last_seen row
     | None => py_eq (VStr (vr_key row).1) (key_type_param iv.2) && py_eq (VStr (vr_key row).2) (key_value_param iv.2) = true
     end) /\
  kept_or (fun r => mr_columns r = member_expected iv.1 iv.2) o.2 o'.2.

Definition seen_row (h : Z) (key : string * string) (o : option validator_row) : validator_row :=
  match o with
  | Some old => Build_validator_row (vr_key old) (Z.min (vr_first_seen old) h) (Z.max (vr_last_seen old) h)
  | None => Build_validator_row key h h
  end.
Lemma seen_row_idem h key o : seen_row h key (Some (seen_row h key o)) = seen_row h key o.
Proof. destruct o as [[? ? ?]|]; unfold seen_row; simpl; f_equal; lia. Qed.

Lemma upsert_validator_Ok h d v d' : upsert_validator h d v = Ok d' ->
  exists a kind value, text_not_null (v_address v) = Ok a /\ text_not_null (key_type_param v) = Ok kind /\
    text_not_null (key_value_param v) = Ok value /\
    d' = set_validators (<[a := seen_row h (kind, value) (validators d !! a)]> (validators d)) d /\
    forall d2, validators d2 !! a = Some (seen_row h (kind, value) (validators d !! a)) ->
      upsert_validator h d2 v = Ok d2.
Proof.
  intros Hu. unfold upsert_validator in *.
  apply bind_Ok in Hu as (a & H1 & Hu). apply bind_Ok in Hu as (kind & H2 & Hu).
  apply bind_Ok in Hu as (value & H3 & Hu). cbn zeta in Hu. apply bind_Ok in Hu as ([] & H4 & Hu).
  exists a, kind, value. do 3 (split; [done|]).
  assert (Hw : d' = set_validators (<[a := seen_row h (kind, value) (validators d !! a)]> (validators d)) d /\
    pg_check (RowValidator a (seen_row h (kind, value) (validators d !! a))) = Ok tt).
  { destruct (validators d !! a) as [old|].
    - apply bind_Ok in Hu as ([] & Hc & Hu). by apply Ok_inj in Hu as <-.
    - destruct (existsb _ _); [done|]. by apply Ok_inj in Hu as <-. }
  destruct Hw as [-> Hc]. split; [done|]. intros d2 Hd2.
  run_step H1. run_step H2. run_step H3. cbn zeta. run_step H4. rewrite Hd2.
  change (Build_validator_row _ _ _) with (seen_row h (kind, value) (Some (seen_row h (kind, value) (validators d !! a)))).
  rewrite seen_row_idem. run_step Hc. rewrite insert_id by done. by rewrite lens_id.
Qed.

Lemma insert_member_Ok h d iv d' : insert_member h d iv = Ok d' ->
  exists a raw, let row := Build_member_row (member_expected iv.1 iv.2) raw in
    text_not_null (v_address iv.2) = Ok a /\
    d' = set_members (put (h, a) (fun o => Some (default row o)) (members d)) d /\
    forall d2, is_Some (members d2 !! (h, a)) -> insert_member h d2 iv = Ok d2.
Proof.
  intros Hu. unfold insert_member in *.
  apply bind_Ok in Hu as (a & H1 & Hu). apply bind_Ok in Hu as (raw & H2 & Hu). cbn zeta in Hu.
  apply bind_Ok in Hu as ([] & H3 & Hu). exists a, raw. cbn zeta. split; [done|]. rewrite put_default. split.
  - destruct (members d !! (h, a)); apply Ok_inj in Hu as <-; [by destruct d|done].
  - intros d2 [x Hx]. run_step H1. run_step H2. cbn zeta. run_step H3. by rewrite Hx.
Qed.

Lemma upsert_vm_step h iv d d' : upsert_validator_and_member h d iv = Ok d' ->
  @row_step _ _ _ _ get_vm set_vm (vm_store h) (upsert_validator_and_member h)
    (fun iv => str_of_val (v_address iv.2)) (vm_written h) iv d d'.
Proof.
  unfold upsert_validator_and_member. intros (d1 & Hv & Hm)%bind_Ok.
  apply upsert_validator_Ok in Hv as (a & kind & value & H1 & H2 & H3 & -> & Hre1).
  apply insert_member_Ok in Hm as (a' & raw & H1' & -> & Hre2). rewrite H1 in H1'. apply Ok_inj in H1' as <-.
  pose proof (text_not_null_Ok _ _ H1) as Ha. unfold row_step, vm_written. rewrite Ha.
  change (str_of_val (VStr a)) with a. set (row := Build_member_row _ raw) in *.
  exists (fun o => (Some (seen_row h (kind, value) o.1), Some (default row o.2))).
  change (at_key a (get_vm d)) with (validators d !! a, members d !! (h, a)). cbn [fst snd]. split_and!.
  - change (set_vm _ d) with (set_members (partial_alter (fun _ => Some (default row (members d !! (h, a)))) (h, a) (members d))
      (set_validators (<[a := seen_row h (kind, value) (validators d !! a)]> (validators d)) d)).
    by rewrite (partial_alter_const (fun o => Some (default row o))).
  - done.
  - exists (seen_row h (kind, value) (validators d !! a)). split; [done|].
    destruct (validators d !! a) as [old|]; simpl; [split; [lia|split; [done|lia]]|]. split; [lia|].
    rewrite (text_not_null_Ok _ _ H2), (text_not_null_Ok _ _ H3). simpl. by rewrite !String.eqb_refl.
  - unfold kept_or. destruct (members d !! (h, a)); [done|]. by exists row.
  - intros d2 Hd2. change (at_key a (get_vm d2)) with (validators d2 !! a, members d2 !! (h, a)) in Hd2.
    injection Hd2 as Hd2 Hd3. run_step (Hre1 d2 Hd2). apply Hre2. by rewrite Hd3.
Qed.

(** *** Catalog *)
Definition aggregate_row (height : Z) (time : val) (a : PathAggregate) (o : option catalog_row) : catalog_row :=
  match o with
  | Some row => merge_row row (proposed_row height time a)
  | None => proposed_row height time a
  end.

Lemma pos_ltb_irrefl p : pos_ltb p p = false.
Proof. unfold pos_ltb. rewrite !Z.ltb_irrefl. by rewrite andb_false_r. Qed.
Lemma pos_ltb_le p q : pos_ltb p q = true -> (p.1 <=? q.1) = true.
Proof. unfold pos_ltb. intros Hpq. lia. Qed.

Lemma merge_row_idem row ex : merge_row (merge_row row ex) ex = merge_row row ex.
Proof.
  destruct row as [k1 s1 dr1 dp1 f1 l1 la1 c1 sc1 fc1 uc1 lc1 rp1].
  destruct ex as [k2 s2 dr2 dp2 f2 l2 la2 c2 sc2 fc2 uc2 lc2 rp2]. unfold merge_row. cbn. f_equal.
  - destruct dp1 as [p|], dp2 as [q|]; try done; rewrite ?pos_ltb_irrefl; try done.
    destruct (pos_ltb q p) eqn:E; [|by rewrite E]. by rewrite pos_ltb_irrefl.
  - destruct dp1 as [p|], dp2 as [q|]; try done; rewrite ?pos_ltb_irrefl; try done.
    destruct (pos_ltb q p) eqn:E; [|by rewrite E]. by rewrite pos_ltb_irrefl.
  - destruct f1, f2; try done; f_equal; lia.
  - destruct l2 as [q|]; [|done]. destruct l1 as [p|]; [|by rewrite pos_ltb_irrefl].
    destruct (pos_ltb p q) eqn:E; [by rewrite pos_ltb_irrefl|by rewrite E].
  - destruct l2 as [q|]; [|done]. destruct l1 as [p|]; [|by rewrite Z.leb_refl].
    destruct (pos_ltb p q) eqn:E; [|by destruct (p.1 <=? q.1)].
    by rewrite Z.leb_refl, (pos_ltb_le _ _ E).
  - destruct lc2 as [h|]; [|lia]. destruct (default 0 lc1 <? h) eqn:E; simpl; [rewrite Z.ltb_irrefl|rewrite E]; lia.
  - destruct lc2 as [h|]; [|lia]. destruct (default 0 lc1 <? h) eqn:E; simpl; [rewrite Z.ltb_irrefl|rewrite E]; lia.
  - destruct lc2 as [h|]; [|lia]. destruct (default 0 lc1 <? h) eqn:E; simpl; [rewrite Z.ltb_irrefl|rewrite E]; lia.
  - destruct lc2 as [h|]; [|lia]. destruct (default 0 lc1 <? h) eqn:E; simpl; [rewrite Z.ltb_irrefl|rewrite E]; lia.
  - destruct lc2 as [h|]; [|done]. destruct (default 0 lc1 <? h) eqn:E; simpl; [rewrite Z.ltb_irrefl|rewrite E]; done.
Qed.

Lemma aggregate_row_idem h time a o :
  aggregate_row h time a (Some (aggregate_row h time a o)) = aggregate_row h time a o.
Proof.
  destruct o as [row|]; [apply merge_row_idem|]. unfold aggregate_row, merge_row, proposed_row.
  destruct a as [? ? ? dep dpr la cc sc fc uc]. cbn.
  destruct (negb (cc =? 0)); destruct dep, la; simpl; rewrite ?pos_ltb_irrefl, ?Z.leb_refl, ?Z.ltb_irrefl; simpl;
    f_equal; try lia; f_equal; lia.
Qed.

Definition aggregate_written (h : Z) (a : PathAggregate) (o o' : option catalog_row) : Prop :=
  exists time, o' = Some (aggregate_row h time a o).

Lemma upsert_aggregate_step chain h time a d d' : upsert_aggregate chain h time d a = Ok d' ->
  row_step catalog set_catalog (upsert_aggregate chain h time) (fun a => (chain, pa_path a))
    (aggregate_written h) a d d'.
Proof.
  unfold upsert_aggregate. intros Hu. apply bind_Ok in Hu as (t & H1 & Hu). cbn zeta in Hu.
  apply bind_Ok in Hu as ([] & H2 & Hu). apply bind_Ok in Hu as ([] & H3 & Hu). apply Ok_inj in Hu as <-.
  set (k := (chain, pa_path a)) in *. change (match catalog d !! k with Some row => _ | None => _ end)
    with (aggregate_row h t a (catalog d !! k)) in *.
  exists (fun o => Some (aggregate_row h t a o)). fold k.
  change (at_key k (catalog d)) with (catalog d !! k). split_and!.
  - f_equal. change (put k _ _) with (partial_alter (fun o => Some (aggregate_row h t a o)) k (catalog d)).
    by rewrite <- partial_alter_const.
  - by exists t.
  - intros d2 Hd2. change (at_key k (catalog d2)) with (catalog d2 !! k) in Hd2.
    run_step H1. cbn zeta. fold k. run_step H2. rewrite Hd2.
    change (merge_row (aggregate_row h t a (catalog d !! k)) (proposed_row h t a))
      with (aggregate_row h t a (Some (aggregate_row h t a (catalog d !! k)))).
    rewrite aggregate_row_idem. run_step H3. rewrite insert_id by done. by destruct d2.
Qed.

(** *** Realm calls *)
Definition tx_calls (t : parsed_tx) : list (Z * RealmCallRecord) :=
  match stored_summary t with
  | Ok summary => map (fun c => (px_index t, c)) (extract_realm_calls summary)
  | Raise _ => []
  end.
Definition height_calls (p : ParsedHeight) : list (Z * RealmCallRecord) := flat_map tx_calls (ph_transactions p).

Lemma stored_summary_total t : exists v, stored_summary t = Ok v.
Proof.
  unfold stored_summary, normalize_summary.
  destruct (normalize_record_total (px_payload_summary t)
    (if bool_decide (px_decode_status t = "invalid_base64") then "invalid" else "unparsed")) as [s Hs].
  exists (summary_val s). by rewrite Hs.
Qed.

Lemma tx_calls_fold chain h s t :
  insert_transaction_calls chain h s t =
  foldM_res (fun s ic => insert_realm_call chain h ic.1 s ic.2) s (tx_calls t).
Proof.
  unfold insert_transaction_calls, tx_calls. destruct (stored_summary_total t) as [v ->].
  cbn [mbind res_bind]. by rewrite foldM_res_map.
Qed.

Lemma calls_flat chain h s txs :
  foldM_res (insert_transaction_calls chain h) s txs =
  foldM_res (fun s ic => insert_realm_call chain h ic.1 s ic.2) s (flat_map tx_calls txs).
Proof.
  revert s. induction txs as [|t txs IH]; intros s; [done|]. cbn [foldM_res flat_map].
  rewrite foldM_res_app, tx_calls_fold. destruct (foldM_res _ s _); [apply IH|done].
Qed.

(** The rows of a table that are not of this chain and height. *)
Definition elsewhere {A} (chain : string) (h : Z) (m : gmap (string * Z * Z * nat) A) : Prop :=
  forall i j, m !! (chain, h, i, j) = None.

(** The rows the loop inserts, in order. *)
Definition add_calls (chain : string) (h : Z) (m : gmap (string * Z * Z * nat) RealmCallRecord)
    (l : list (Z * RealmCallRecord)) : gmap (string * Z * Z * nat) RealmCallRecord :=
  fold_left (fun m ic => <[call_key chain h ic.1 ic.2 := ic.2]> m) l m.
Definition call_position (ic : Z * RealmCallRecord) : Z * nat := (ic.1, rc_message_index ic.2).

Lemma call_step chain h ic pos n N b d s' :
  elsewhere chain h b -> (forall i j, is_Some (N !! (chain, h, i, j)) <-> (i, j) ∈ pos) ->
  insert_realm_call chain h ic.1 (pos, n, set_realm_calls (N ∪ b) d) ic.2 = Ok s' ->
  ~ (call_position ic ∈ pos) /\
  (forall i j, is_Some ((<[call_key chain h ic.1 ic.2 := ic.2]> N) !! (chain, h, i, j)) <-> (i, j) ∈ (call_position ic :: pos)) /\
  forall b2 d2, elsewhere chain h b2 ->
    insert_realm_call chain h (ic.1) (pos, n, set_realm_calls (N ∪ b2) d2) (ic.2) =
    Ok (call_position ic :: pos, n + 1, set_realm_calls (<[call_key chain h ic.1 ic.2 := ic.2]> N ∪ b2) d2).
Proof.
  intros Hb HN. unfold insert_realm_call. fold (call_position ic). case_bool_decide as Hin; [by intros [=]|].
  intros Hs. split; [done|]. split.
  { intros i j. rewrite elem_of_cons. destruct (decide ((i, j) = call_position ic)) as [Heq|Hne].
    - rewrite Heq. unfold call_position in Heq. injection Heq as -> ->. unfold call_key.
      rewrite lookup_insert_eq. split; [by left|eauto].
    - rewrite lookup_insert_ne; [rewrite HN; naive_solver|]. unfold call_key. intros [= <- <-]. by apply Hne. }
  intros b2 d2 Hb2. apply bind_Ok in Hs as ([] & Hc & _). run_step Hc. rewrite bool_decide_eq_false_2.
  - f_equal. f_equal. unfold set_realm_calls. cbn. f_equal. by rewrite insert_union_l.
  - cbn [realm_calls set_realm_calls]. unfold call_key. rewrite lookup_union_is_Some. rewrite Hb2, HN.
    intros [Hp|[x Hx]]; [|done]. by apply Hin.
Qed.

Lemma calls_fold chain h l pos n N b d s' :
  elsewhere chain h b -> (forall i j, is_Some (N !! (chain, h, i, j)) <-> (i, j) ∈ pos) ->
  foldM_res (fun s ic => insert_realm_call chain h ic.1 s ic.2) (pos, n, set_realm_calls (N ∪ b) d) l = Ok s' ->
  NoDup (map call_position l) /\ (forall x, x ∈ map call_position l -> x ∉ pos) /\
  forall b2 d2, elsewhere chain h b2 -> exists pos',
    length pos' = (length l + length pos)%nat /\
    foldM_res (fun s ic => insert_realm_call chain h ic.1 s ic.2) (pos, n, set_realm_calls (N ∪ b2) d2) l =
    Ok (pos', n + Z.of_nat (length l), set_realm_calls (add_calls chain h N l ∪ b2) d2).
Proof.
  intros Hb. revert pos n N. induction l as [|ic l IH]; intros pos n N HN Hl.
  - split; [constructor|]. split; [intros x Hx; by apply elem_of_nil in Hx|]. intros b2 d2 _.
    exists pos. split; [done|]. simpl. by rewrite Z.add_0_r.
  - cbn [foldM_res] in Hl. apply bind_Ok in Hl as (s1 & H1 & Hl).
    destruct (call_step _ _ _ _ _ _ _ _ _ Hb HN H1) as (Hfresh & HN' & Hrun).
    rewrite (Hrun b d Hb) in H1. apply Ok_inj in H1 as <-.
    destruct (IH _ _ _ HN' Hl) as (Hnd & Hout & Hall). split_and!.
    + cbn [map]. constructor; [|done]. intros Hin. apply (Hout _ Hin). by left.
    + intros x Hx. cbn [map] in Hx. apply elem_of_cons in Hx as [->|Hx]; [done|].
      intros Hp. apply (Hout _ Hx). by right.
    + intros b2 d2 Hb2. destruct (Hall b2 d2 Hb2) as (pos' & Hlen & Hr). exists pos'.
      split; [rewrite Hlen; simpl; lia|]. cbn [foldM_res]. run_step (Hrun b2 d2 Hb2). rewrite Hr.
      by replace (n + 1 + Z.of_nat (length l)) with (n + Z.of_nat (length (ic :: l))) by (simpl; lia).
Qed.

Lemma elsewhere_delete chain h d : elsewhere chain h (realm_calls (delete_realm_calls chain h d)).
Proof. intros i j. apply map_lookup_filter_None. right. intros x _ Hx. by apply Hx. Qed.

(** The whole replacement, and its rerun. *)
Lemma replace_realm_calls_Ok p chain d d' : replace_realm_calls_for_height p chain d = Ok d' ->
  let h := ph_height p in let N := add_calls chain h ∅ (height_calls p) in
  NoDup (map call_position (height_calls p)) /\
  forall d2, replace_realm_calls_for_height p chain d2 =
    Ok (set_realm_calls (N ∪ realm_calls (delete_realm_calls chain h d2)) d2).
Proof.
  intros Hr h N. unfold replace_realm_calls_for_height in *. rewrite calls_flat in Hr. fold (height_calls p) in Hr.
  apply bind_Ok in Hr as (s & Hs & Hr).
  assert (Hstart : forall d, delete_realm_calls chain (ph_height p) d =
    set_realm_calls (∅ ∪ realm_calls (delete_realm_calls chain (ph_height p) d)) d).
  { intros e. rewrite (left_id_L ∅ (∪)). reflexivity. }
  rewrite Hstart in Hs.
  destruct (calls_fold chain (ph_height p) _ [] 0 ∅ _ d _ (elsewhere_delete chain (ph_height p) d)
    ltac:(intros i j; rewrite lookup_empty, elem_of_nil; split; [by intros [? ?]|done]) Hs) as (Hnd & _ & Hall).
  split; [done|]. intros d2. rewrite calls_flat, Hstart. fold (height_calls p).
  destruct (Hall _ d2 (elsewhere_delete chain (ph_height p) d2)) as (pos' & Hlen & ->). cbn [mbind res_bind].
  rewrite (proj2 (Z.eqb_eq _ _)); [done|]. rewrite Hlen. simpl. lia.
Qed.

Lemma add_calls_lookup chain h l N k : NoDup (map call_position l) ->
  (forall ic, ic ∈ l -> N !! call_key chain h ic.1 ic.2 = None) ->
  forall c, add_calls chain h N l !! k = Some c <-> N !! k = Some c \/ exists ic, ic ∈ l /\ k = call_key chain h ic.1 ic.2 /\ c = ic.2.
Proof.
  revert N. induction l as [|ic l IH]; intros N Hnd HN c; cbn [add_calls fold_left].
  - split; [by left|]. intros [Hc|(ic & Hic & _)]; [done|]. by apply elem_of_nil in Hic.
  - cbn [map] in Hnd. apply NoDup_cons in Hnd as [Hfresh Hnd].
    change (fold_left _ l ?M) with (add_calls chain h M l). rewrite IH; [|done|].
    + rewrite lookup_insert_Some. setoid_rewrite elem_of_cons. split.
      * intros [[[<- <-]|[Hne Hk]]|(jc & Hj & Hk)]; [right; exists ic; eauto|by left|right; exists jc; eauto].
      * intros [Hk|(jc & [->|Hj] & -> & ->)]; [|left; left; done|right; eauto].
        left. right. split; [|done]. intros <-. rewrite (HN ic) in Hk by (by left). done.
    + intros jc Hj. rewrite lookup_insert_ne; [apply HN; by right|]. unfold call_key. intros [= H1 H2].
      apply Hfresh. unfold call_position. rewrite H1, H2. by apply (list_elem_of_fmap_2 call_position) in Hj.
Qed.

(** ** The whole transaction *)

(** The intermediate tables of a cursor run that does not raise. *)
Record cursor_run (p : ParsedHeight) (chain : string) (tip : Z) (ep : option Z) (d d' : db) (cp : option Z)
    (d1 d2 d3 d4 d5 d6 d7 d8 d9 : db) (cv av : coverage_result) : Prop := {
  run_checkpoint : get_checkpoint_cursor chain d = Ok cp;
  run_sequence : verify_checkpoint_sequence (ph_height p) cp = Ok tt;
  run_conflicts : verify_finalized_conflicts (lock_realm_call_index d) p = Ok tt;
  run_block : upsert_block p (lock_realm_call_index d) = Ok d1;
  run_txs : foldM_res (upsert_transaction (ph_height p)) d1 (ph_transactions p) = Ok d2;
  run_results : foldM_res (upsert_result (ph_height p) ep) d2 (ph_execution_results p) = Ok d3;
  run_calls : replace_realm_calls_for_height p chain d3 = Ok d4;
  run_catalog : upsert_realm_catalog p chain d4 = Ok d5;
  run_call_coverage : advance_realm_call_coverage chain (ph_height p) (bool_decide (cp = None)) d5 = Ok (d6, cv);
  run_activity : advance_realm_activity_coverage chain (ph_height p) d6 = Ok (d7, av);
  run_vm : upsert_validators_and_members p d7 = Ok d8;
  run_signatures : upsert_signatures p d8 = Ok d9;
  run_advance : advance_checkpoint (ph_height p) cp chain tip ep d9 = Ok d'
}.

Lemma write_cursor_run p chain tip ep d d' : write_height_cursor p chain tip ep d = Ok d' <->
  exists cp d1 d2 d3 d4 d5 d6 d7 d8 d9 cv av, cursor_run p chain tip ep d d' cp d1 d2 d3 d4 d5 d6 d7 d8 d9 cv av.
Proof.
  unfold write_height_cursor, upsert_transactions. split.
  - intros Hw. apply bind_Ok in Hw as (cp & H1 & Hw). apply bind_Ok in Hw as ([] & H2 & Hw). cbn zeta in Hw.
    apply bind_Ok in Hw as ([] & H3 & Hw). apply bind_Ok in Hw as (d1 & H4 & Hw).
    apply bind_Ok in Hw as (d3 & H5 & Hw). apply bind_Ok in H5 as (d2 & H5 & H6).
    apply bind_Ok in Hw as (d4 & H7 & Hw). apply bind_Ok in Hw as (d5 & H8 & Hw).
    apply bind_Ok in Hw as ([d6 cv] & H9 & Hw). apply bind_Ok in Hw as ([d7 av] & H10 & Hw).
    apply bind_Ok in Hw as (d8 & H11 & Hw). apply bind_Ok in Hw as (d9 & H12 & Hw).
    exists cp, d1, d2, d3, d4, d5, d6, d7, d8, d9, cv, av. by constructor.
  - intros (cp & d1 & d2 & d3 & d4 & d5 & d6 & d7 & d8 & d9 & cv & av & []).
    run_step run_checkpoint0. run_step run_sequence0. cbn zeta. run_step run_conflicts0. run_step run_block0.
    run_step run_txs0. run_step run_results0. run_step run_calls0. run_step run_catalog0.
    run_step run_call_coverage0. run_step run_activity0. run_step run_vm0. by run_step run_signatures0.
Qed.

(** The coverage steps and the checkpoint, as table updates. *)
Definition covered (chain : string) (h : Z) (init : bool) (o : option (option Z * option Z)) : option (option Z * option Z) :=
  match o with
  | None => if init then Some (Some h, Some h) else None
  | Some (Some f, Some t) => Some (Some f, Some (Z.max t h))
  | Some x => Some x
  end.
Lemma call_coverage_Ok chain h init d d' cv : advance_realm_call_coverage chain h init d = Ok (d', cv) ->
  d' = set_call_state (partial_alter (covered chain h init) chain (call_state d)) d /\ 1 <= h /\
  (forall f t, call_state d !! chain = Some (Some f, Some t) -> h <= t + 1) /\
  (forall d2, call_state d2 !! chain = covered chain h init (call_state d !! chain) ->
     advance_realm_call_coverage chain h false d2 =
       Ok (d2, match covered chain h init (call_state d !! chain) with
               | Some (Some _, Some t) => Build_coverage_result (Some t) (Some t) false
               | _ => Build_coverage_result None None false end)).
Proof.
  unfold advance_realm_call_coverage. intros ([] & Ha & Hc)%bind_Ok. rewrite Ha. cbn [mbind res_bind].
  unfold coverage_arguments in Ha. apply bind_Ok in Ha as ([] & _ & Ha%require_Ok). apply Z.leb_le in Ha.
  destruct (call_state d !! chain) as [[[f|] [t|]]|] eqn:E; try done.
  - assert (Hr : d' = set_call_state (<[chain := (Some f, Some (Z.max t h))]> (call_state d)) d /\ h <= t + 1).
    { destruct (h <=? t) eqn:Eh.
      - apply Ok_inj in Hc as [= <- <-]. rewrite Z.max_l by lia. rewrite insert_id by done. split; [by destruct d|lia].
      - destruct (h =? t + 1) eqn:En; [|done]. cbn [negb] in Hc. apply bind_Ok in Hc as ([] & _ & Hc).
        apply Ok_inj in Hc as [= <- <-]. rewrite Z.max_r by lia. split; [done|lia]. }
    destruct Hr as [-> Hle]. split_and!.
    + rewrite <- partial_alter_const, E. done.
    + done.
    + by intros ? ? [= <- <-].
    + intros d2 Hd2. simpl in Hd2. rewrite Hd2. by rewrite (proj2 (Z.leb_le _ _)) by lia.
  - assert (Hr : d' = set_call_state (partial_alter (covered chain h init) chain (call_state d)) d).
    { rewrite <- partial_alter_const, E. unfold covered. destruct init.
      - apply bind_Ok in Hc as ([] & _ & Hc). by apply Ok_inj in Hc as [= <- <-].
      - apply Ok_inj in Hc as [= <- <-]. rewrite partial_alter_same by (by rewrite E); by destruct d. }
    split_and!; [done|done|done|]. intros d2 Hd2. rewrite Hd2. unfold covered.
    destruct init; [|done]. by rewrite Z.leb_refl.
Qed.

Lemma activity_coverage_Ok chain h d d' cv : advance_realm_activity_coverage chain h d = Ok (d', cv) ->
  d' = set_activity_state (partial_alter (covered chain h false) chain (activity_state d)) d /\
  (forall f t, activity_state d !! chain = Some (Some f, Some t) -> h <= t + 1) /\
  (forall d2, activity_state d2 !! chain = covered chain h false (activity_state d !! chain) ->
     exists cv2, advance_realm_activity_coverage chain h d2 = Ok (d2, cv2)).
Proof.
  unfold advance_realm_activity_coverage. intros ([] & Ha & Hc)%bind_Ok. rewrite Ha. cbn [mbind res_bind].
  destruct (activity_state d !! chain) as [[[f|] [t|]]|] eqn:E; try done.
  - assert (Hr : d' = set_activity_state (<[chain := (Some f, Some (Z.max t h))]> (activity_state d)) d /\ h <= t + 1).
    { destruct (h <=? t) eqn:Eh.
      - apply Ok_inj in Hc as [= <- <-]. rewrite Z.max_l by lia. rewrite insert_id by done. split; [by destruct d|lia].
      - destruct (h =? t + 1) eqn:En; [|done]. cbn [negb] in Hc.
        apply Ok_inj in Hc as [= <- <-]. rewrite Z.max_r by lia. split; [done|lia]. }
    destruct Hr as [-> Hle]. split_and!.
    + rewrite <- partial_alter_const, E. done.
    + by intros ? ? [= <- <-].
    + intros d2 Hd2. simpl in Hd2. rewrite Hd2. rewrite (proj2 (Z.leb_le _ _)) by lia. eauto.
  - apply Ok_inj in Hc as [= <- <-]. split_and!; [|done|].
    + rewrite <- partial_alter_const, E. simpl. rewrite partial_alter_same by (by rewrite E); by destruct d.
    + intros d2 Hd2. simpl in Hd2. rewrite Hd2. eauto.
  - apply Ok_inj in Hc as [= <- <-]. split_and!; [|done|].
    + rewrite <- partial_alter_const, E. simpl. rewrite partial_alter_same by (by rewrite E); by destruct d.
    + intros d2 Hd2. simpl in Hd2. rewrite Hd2. eauto.
Qed.

Definition advanced (h : Z) (chain : string) (tip : Z) (ep : option Z) (o : option state_row) : option state_row :=
  match o with
  | None => Some (Build_state_row chain h tip ep)
  | Some r => if h <=? st_last_finalized r then Some r
              else Some (Build_state_row (st_chain r) (Z.max (st_last_finalized r) h) tip ep)
  end.
Lemma advance_checkpoint_Ok h chain tip ep d d' cp : get_checkpoint_cursor chain d = Ok cp ->
  advance_checkpoint h cp chain tip ep d = Ok d' -> d' = set_state (advanced h chain tip ep (state d)) d.
Proof.
  unfold get_checkpoint_cursor, advance_checkpoint, advanced.
  destruct (state d) as [r|] eqn:E.
  - case_bool_decide; [|done]. intros [= <-]. destruct (h <=? st_last_finalized r).
    + intros [= <-]. destruct d; simpl in *. by rewrite E.
    + intros Ha. apply bind_Ok in Ha as ([] & _ & Ha). cbn zeta in Ha. apply bind_Ok in Ha as ([] & _ & Ha).
      apply bind_Ok in Ha as ([] & _ & Ha). by apply Ok_inj in Ha as <-.
  - intros [= <-] Ha. apply bind_Ok in Ha as ([] & _ & Ha). cbn zeta in Ha. apply bind_Ok in Ha as ([] & _ & Ha).
    apply bind_Ok in Ha as ([] & _ & Ha). by apply Ok_inj in Ha as <-.
Qed.

Definition kept {R} (o o' : option R) : Prop := forall r, o = Some r -> o' = Some r.
#[export] Instance kept_preorder R : PreOrder (@kept R).
Proof. split; [by intros o r|]. intros a b c Hab Hbc r Hr. by apply Hbc, Hab. Qed.
Lemma kept_or_kept {R} (Q : R -> Prop) o o' : kept_or Q o o' -> kept o o'.
Proof. unfold kept_or, kept. destruct o; naive_solver. Qed.

(** The transaction row keeps all but its summary. *)
Definition tx_kept (o o' : option tx_row * option (gset participant_row)) : Prop :=
  forall r, o.1 = Some r -> exists r', o'.1 = Some r' /\ tr_columns r' = tr_columns r /\
    tr_decoded_bytes r' = tr_decoded_bytes r.
#[export] Instance tx_kept_preorder : PreOrder tx_kept.
Proof.
  split; [intros o r Hr; eauto|]. intros a b c Hab Hbc r Hr. destruct (Hab _ Hr) as (r1 & H1 & E1 & E2).
  destruct (Hbc _ H1) as (r2 & H2 & E3 & E4). exists r2. split; [done|]. split; congruence.
Qed.
Lemma tx_written_kept t o o' : tx_written t o o' -> tx_kept o o'.
Proof. intros (row & s & st & H1 & _ & _ & _ & _ & H2) r Hr. rewrite Hr in H2. destruct H2. eauto. Qed.

Definition vm_kept (o o' : option validator_row * option member_row) : Prop :=
  (forall r, o.1 = Some r -> exists r', o'.1 = Some r' /\ vr_key r' = vr_key r /\
     vr_first_seen r' <= vr_first_seen r /\ vr_last_seen r <= vr_last_seen r') /\ kept o.2 o'.2.
#[export] Instance vm_kept_preorder : PreOrder vm_kept.
Proof.
  split; [intros o; split; [intros r Hr; exists r; split; [done|split; [done|lia]]|done]|].
  intros a b c [Hab Kab] [Hbc Kbc]. split; [|by transitivity b.2]. intros r Hr.
  destruct (Hab _ Hr) as (r1 & H1 & E1 & E2 & E3). destruct (Hbc _ H1) as (r2 & H2 & E4 & E5 & E6).
  exists r2. split; [done|]. split; [congruence|lia].
Qed.
Lemma vm_written_kept h iv o o' : vm_written h iv o o' -> vm_kept o o'.
Proof.
  intros (_ & (row & H1 & _ & H2) & H3). split; [|by eapply kept_or_kept]. intros r Hr. rewrite Hr in H2.
  exists row. naive_solver.
Qed.

(** What a successful cursor run did to each table. *)
Record tables_after (p : ParsedHeight) (chain : string) (tip : Z) (ep : option Z) (d d' : db) : Prop := {
  ta_cp : exists cp, get_checkpoint_cursor chain d = Ok cp /\ verify_checkpoint_sequence (ph_height p) cp = Ok tt;
  ta_agrees : verify_finalized_conflicts d p = Ok tt;
  ta_blocks : exists f, blocks d' = put (ph_height p) f (blocks d) /\
    block_written p (blocks d !! ph_height p) (f (blocks d !! ph_height p));
  ta_txs_out : forall k, k ∉ map (fun t => (ph_height p, px_index t)) (ph_transactions p) ->
    at_key k (get_txs d') = at_key k (get_txs d);
  ta_txs_mono : forall k, tx_kept (at_key k (get_txs d)) (at_key k (get_txs d'));
  ta_txs_in : forall t, t ∈ ph_transactions p -> is_Some (transactions d' !! (ph_height p, px_index t));
  ta_results_out : forall k, k ∉ map (fun r => (ph_height p, er_tx_index r)) (ph_execution_results p) ->
    results d' !! k = results d !! k;
  ta_results_mono : forall k, kept (results d !! k) (results d' !! k);
  ta_results_in : forall r, r ∈ ph_execution_results p -> is_Some (results d' !! (ph_height p, er_tx_index r));
  ta_results_fk : forall k, is_Some (results d' !! k) -> is_Some (results d !! k) \/ is_Some (transactions d' !! k);
  ta_hash : blocks d !! ph_height p = None -> forall k r, blocks d !! k = Some r ->
    br_hash_base64 r <> b_hash_base64 (ph_block p) /\ br_hash_hex r <> b_hash_hex (ph_block p);
  ta_vm_in : forall iv, iv ∈ enumerate (ph_validators p) -> is_Some (validators d' !! str_of_val (v_address iv.2));
  ta_signatures_fk : forall k, is_Some (signatures d' !! k) -> is_Some (signatures d !! k) \/ is_Some (members d' !! k);
  ta_calls : realm_calls d' = add_calls chain (ph_height p) ∅ (height_calls p)
    ∪ realm_calls (delete_realm_calls chain (ph_height p) d);
  ta_calls_nodup : NoDup (map call_position (height_calls p));
  ta_call_state : exists init, call_state d' = partial_alter (covered chain (ph_height p) init) chain (call_state d) /\
    init = bool_decide (state d = None);
  ta_call_next : forall f t, call_state d !! chain = Some (Some f, Some t) -> ph_height p <= t + 1;
  ta_positive : 1 <= ph_height p;
  ta_activity : activity_state d' = partial_alter (covered chain (ph_height p) false) chain (activity_state d);
  ta_activity_next : forall f t, activity_state d !! chain = Some (Some f, Some t) -> ph_height p <= t + 1;
  ta_vm_out : forall a, a ∉ map (fun iv => str_of_val (v_address iv.2)) (enumerate (ph_validators p)) ->
    at_key (KeyedStore := vm_store (ph_height p)) a (get_vm d') = at_key (KeyedStore := vm_store (ph_height p)) a (get_vm d);
  ta_vm_mono : forall a, vm_kept (at_key (KeyedStore := vm_store (ph_height p)) a (get_vm d))
                                 (at_key (KeyedStore := vm_store (ph_height p)) a (get_vm d'));
  ta_members_other : forall k, k.1 <> ph_height p -> members d' !! k = members d !! k;
  ta_signatures_out : forall k, k ∉ map (fun s => (ph_height p, str_of_val (sg_signing_address s))) (ph_signatures p) ->
    signatures d' !! k = signatures d !! k;
  ta_signatures_mono : forall k, kept (signatures d !! k) (signatures d' !! k);
  ta_state : state d' = advanced (ph_height p) chain tip ep (state d)
}.

Lemma verify_lock d p : verify_finalized_conflicts (lock_realm_call_index d) p = verify_finalized_conflicts d p.
Proof. reflexivity. Qed.

Lemma insert_members_other h l d d' : foldM_res (upsert_validator_and_member h) d l = Ok d' ->
  forall k, k.1 <> h -> members d' !! k = members d !! k.
Proof.
  intros Hf k Hk. revert Hf. apply (foldM_res_inv (fun e => members e !! k = members d !! k)); [done|].
  intros s iv s' _ Hs (d1 & Hv & Hm)%bind_Ok. rewrite <- Hs.
  apply upsert_validator_Ok in Hv as (? & ? & ? & _ & _ & _ & -> & _).
  apply insert_member_Ok in Hm as (a & raw & _ & -> & _). cbn. apply lookup_partial_alter_ne.
  intros <-. by apply Hk.
Qed.

Lemma upsert_realm_catalog_Ok p chain d d' : upsert_realm_catalog p chain d = Ok d' ->
  exists entries, mapM_res (catalog_entry (ph_execution_results p)) (ph_transactions p) = Ok entries /\
    1 <= ph_height p /\
    foldM_res (upsert_aggregate chain (ph_height p) (b_time (ph_block p))) d (aggregate_block entries) = Ok d'.
Proof.
  unfold upsert_realm_catalog, upsert_transaction_catalog_aggregates. intros (entries & He & Hu)%bind_Ok.
  apply bind_Ok in Hu as ([] & Hh & Hu). apply require_Ok in Hh. exists entries. split; [done|]. split; [lia|done].
Qed.

(** Inserted results and signatures satisfy their foreign keys. *)
Lemma results_fk h ep l d d' : foldM_res (upsert_result h ep) d l = Ok d' ->
  transactions d' = transactions d /\
  forall k, is_Some (results d' !! k) -> is_Some (results d !! k) \/ is_Some (transactions d' !! k).
Proof.
  apply (foldM_res_inv (fun e => transactions e = transactions d /\
    forall k, is_Some (results e !! k) -> is_Some (results d !! k) \/ is_Some (transactions e !! k))); [by split; [|left]|].
  intros s r s' _ [Ht Hs] Hu. unfold upsert_result in Hu. repeat (apply bind_Ok in Hu as (? & _ & Hu); cbn zeta in Hu).
  destruct (results s !! (h, er_tx_index r)) eqn:E; [by apply Ok_inj in Hu as <-|].
  case_bool_decide as Hf; [|done]. apply Ok_inj in Hu as <-. split; [done|]. intros k. cbn [results set_results transactions].
  destruct (decide (k = (h, er_tx_index r))) as [->|Hne]; [by right|]. rewrite lookup_insert_ne by done. apply Hs.
Qed.
Lemma signatures_fk h l d d' : foldM_res (insert_signature h) d l = Ok d' ->
  members d' = members d /\
  forall k, is_Some (signatures d' !! k) -> is_Some (signatures d !! k) \/ is_Some (members d' !! k).
Proof.
  apply (foldM_res_inv (fun e => members e = members d /\
    forall k, is_Some (signatures e !! k) -> is_Some (signatures d !! k) \/ is_Some (members e !! k))); [by split; [|left]|].
  intros s r s' _ [Ht Hs] Hu. unfold insert_signature in Hu. apply bind_Ok in Hu as (a & _ & Hu).
  repeat (apply bind_Ok in Hu as (? & _ & Hu); cbn zeta in Hu).
  destruct (signatures s !! (h, a)) eqn:E; [by apply Ok_inj in Hu as <-|].
  case_bool_decide as Hf; [|done]. apply Ok_inj in Hu as <-. split; [done|]. intros k. cbn [signatures set_signatures members].
  destruct (decide (k = (h, a))) as [->|Hne]; [by right|]. rewrite lookup_insert_ne by done. apply Hs.
Qed.
Lemma upsert_block_unique p d d' : upsert_block p d = Ok d' -> blocks d !! ph_height p = None ->
  forall k r, blocks d !! k = Some r ->
    br_hash_base64 r <> b_hash_base64 (ph_block p) /\ br_hash_hex r <> b_hash_hex (ph_block p).
Proof.
  unfold upsert_block. intros Hu Hn k r Hk. cbn zeta in Hu.
  apply bind_Ok in Hu as (b64 & H1%text_column_Ok & Hu). apply bind_Ok in Hu as (hx & H2%text_column_Ok & Hu).
  do 4 apply bind_Ok in Hu as (? & _ & Hu). rewrite Hn in Hu. subst.
  destruct (existsb _ _) eqn:E; [done|]. rewrite <- not_true_iff_false, existsb_exists in E.
  assert (Hin : In (k, r) (map_to_list (blocks d))) by (by apply list_elem_of_In, elem_of_map_to_list).
  split; intros Heq; apply E; exists (k, r); (split; [done|]); apply orb_true_intro; [left|right];
    by apply bool_decide_eq_true.
Qed.

Definition any_change (o o' : option catalog_row) : Prop := True.
#[export] Instance any_change_preorder : PreOrder any_change.
Proof. by split. Qed.

End rows.

(** Compute the tables of nested updates. *)
Ltac tables H := cbv beta iota delta [blocks transactions participants results realm_calls catalog call_state activity_state validators
  members signatures state xact_locks set_blocks set_transactions set_participants set_results set_realm_calls
  set_catalog set_call_state set_activity_state set_validators set_members set_signatures set_state set_xact_locks
  get_txs set_txs get_vm set_vm lock_realm_call_index delete_realm_calls fst snd] in H.

Section transaction.
Context `{PyRuntime} `{PL : PostgresLaws}.

Lemma cursor_tables p chain tip ep d d' :
  write_height_cursor p chain tip ep d = Ok d' -> tables_after p chain tip ep d d'.
Proof.
  destruct d as [B T Pa R C Cat Cs As V M S St L]. intros (cp & d1 & d2 & d3 & d4 & d5 & d6 & d7 & d8 & d9 & cv & av & [])%write_cursor_run.
  rewrite verify_lock in run_conflicts0. pose proof (upsert_block_unique _ _ _ run_block0) as Bhash. apply upsert_block_step in run_block0 as (f & E1 & Hb & _).
  tables Bhash. tables E1. tables Hb. subst d1.
  apply (fold_rows_mono get_txs set_txs _ _ _ (upsert_transaction_step (ph_height p)) tx_kept) in run_txs0
    as (sT & E2 & Tout & Tmono & Tin); [|apply tx_written_kept]. tables E2. tables Tout. tables Tmono. subst d2.
  destruct (results_fk _ _ _ _ _ run_results0) as [_ Rfk].
  apply (fold_rows_mono results set_results _ _ _ (upsert_result_step (ph_height p) ep) kept) in run_results0
    as (sR & E3 & Rout & Rmono & Rin); [|intros r; apply kept_or_kept]. tables E3. subst d3. tables Rfk. tables Rout. tables Rmono.
  destruct (replace_realm_calls_Ok _ _ _ _ run_calls0) as [Cnd Crun]. rewrite Crun in run_calls0.
  apply Ok_inj in run_calls0. clear Crun. tables run_calls0. subst d4.
  apply upsert_realm_catalog_Ok in run_catalog0 as (entries & _ & _ & Hcat).
  apply (fold_rows_mono catalog set_catalog _ _ _ (upsert_aggregate_step chain (ph_height p) (b_time (ph_block p)))
    any_change) in Hcat as (sC & E5 & _); [|done].
  tables E5. subst d5.
  apply call_coverage_Ok in run_call_coverage0 as (E6 & Hpos & Hnext & _).
  tables Hnext. tables E6. subst d6.
  apply activity_coverage_Ok in run_activity0 as (E7 & Anext & _). tables Anext. tables E7. subst d7.
  unfold upsert_validators_and_members in run_vm0. pose proof (insert_members_other _ _ _ _ run_vm0) as Mother.
  apply (fold_rows_mono get_vm set_vm (H0 := vm_store (ph_height p)) _ _ _ (upsert_vm_step (ph_height p)) vm_kept) in run_vm0
    as (sV & E8 & Vout & Vmono & Vin); [|apply vm_written_kept]. tables E8. subst d8. tables Mother. tables Vout. tables Vmono.
  destruct (signatures_fk _ _ _ _ run_signatures0) as [_ Sfk].
  apply (fold_rows_mono signatures set_signatures _ _ _ (insert_signature_step (ph_height p)) kept) in run_signatures0
    as (sS & E9 & Sout & Smono & Sin); [|intros s o o' [_ Hk]; by eapply kept_or_kept].
  tables E9. subst d9. tables Sfk. tables Sout. tables Smono.
  apply advance_checkpoint_Ok in run_advance0; [|exact run_checkpoint0]. tables run_advance0. subst d'.
  constructor; [by exists cp|exact run_conflicts0|by exists f|exact Tout|exact Tmono| |exact Rout|exact Rmono| |exact Rfk
    |exact Bhash| |exact Sfk|reflexivity|exact Cnd| |exact Hnext|exact Hpos|reflexivity|exact Anext|exact Vout|exact Vmono
    |exact Mother|exact Sout|exact Smono|reflexivity].
  - intros t Ht. destruct (Tin t Ht) as (o & o' & (row & ? & ? & Hr & _) & Hk).
    destruct (Hk _ Hr) as (r' & Hr' & _). by exists r'.
  - intros r Hr. destruct (Rin r Hr) as (o & o' & Hw & Hk). unfold result_written, kept_or in Hw.
    destruct o as [row|]; [|destruct Hw as (row & Hw & _)]; exists row; by apply Hk.
  - intros iv Hiv. destruct (Vin iv Hiv) as (o & o' & (_ & (row & Hr & _) & _) & [Hk _]).
    destruct (Hk _ Hr) as (r' & Hr' & _). by exists r'.
  - exists (bool_decide (cp = None)). split; [reflexivity|]. clear -run_checkpoint0.
    unfold get_checkpoint_cursor in run_checkpoint0. tables run_checkpoint0.
    cbn [state]. destruct St as [r|]; [|by simplify_eq].
    apply bool_decide_ext. case_bool_decide; naive_solver.
Qed.
End transaction.
