(* ===== verification/Finalized.v ===== *)
(** * What the height transaction guarantees

    Theorems about [write_height] of Database.v: finalized rows are never
    changed, the indexed heights have no gap and satisfy the keys of
    src/database/schema.sql, a height that disagrees with what is stored is
    refused, and writing a height again changes nothing. *)
From Stdlib Require Import ZArith NArith Lia Ascii String SpecFloat.
From stdpp Require Import base gmap sets list strings sorting.
From S2P Require Import Prelude PyStr PyVal Codec InspectRpc Summary Participants Parsers RealmCatalog Database.
Open Scope Z_scope.

(** ** Finalized data does not change *)
Record finalized_kept (chain : string) (h : Z) (d d' : db) : Prop := {
  fk_blocks : forall k, kept (blocks d !! k) (blocks d' !! k);
  fk_txs : forall k, tx_kept (at_key k (get_txs d)) (at_key k (get_txs d'));
  fk_results : forall k, kept (results d !! k) (results d' !! k);
  fk_members : forall k, kept (members d !! k) (members d' !! k);
  fk_signatures : forall k, kept (signatures d !! k) (signatures d' !! k);
  fk_validators : forall a r, validators d !! a = Some r -> exists r', validators d' !! a = Some r' /\
    vr_key r' = vr_key r /\ vr_first_seen r' <= vr_first_seen r /\ vr_last_seen r <= vr_last_seen r';
  fk_other_blocks : forall k, k <> h -> blocks d' !! k = blocks d !! k;
  fk_other_txs : forall k, k.1 <> h -> at_key k (get_txs d') = at_key k (get_txs d);
  fk_other_results : forall k, k.1 <> h -> results d' !! k = results d !! k;
  fk_other_members : forall k, k.1 <> h -> members d' !! k = members d !! k;
  fk_other_signatures : forall k, k.1 <> h -> signatures d' !! k = signatures d !! k;
  fk_other_calls : forall c k i j, c <> chain \/ k <> h -> realm_calls d' !! (c, k, i, j) = realm_calls d !! (c, k, i, j);
  fk_state : forall s, state d = Some s -> exists s', state d' = Some s' /\ st_chain s' = st_chain s /\
    st_last_finalized s <= st_last_finalized s' <= st_last_finalized s + 1
}.

Lemma finalized_kept_refl chain h d : finalized_kept chain h d d.
Proof.
  constructor; try done.
  - intros a r Hr. exists r. split_and!; (done || lia).
  - intros s Hs. exists s. split_and!; (done || lia).
Qed.

Lemma not_in_height {A B} (h : Z) (f : A -> B) (l : list A) (k : Z * B) :
  k.1 <> h -> k ∉ map (fun x => (h, f x)) l.
Proof. intros Hk Hin. apply list_elem_of_fmap in Hin as (x & -> & _). by apply Hk. Qed.

Section written.
Context `{PyRuntime} `{PL : PostgresLaws}.

Lemma add_calls_other chain h c k i j l N : c <> chain \/ k <> h ->
  add_calls chain h N l !! (c, k, i, j) = N !! (c, k, i, j).
Proof.
  intros Hne. revert N. induction l as [|ic l IH]; intros N; [done|]. cbn [add_calls fold_left].
  change (fold_left _ l ?M) with (add_calls chain h M l). rewrite IH. apply lookup_insert_ne.
  unfold call_key. intros [= -> ->]. by destruct Hne.
Qed.
Lemma delete_calls_other chain h c k i j d : c <> chain \/ k <> h ->
  realm_calls (delete_realm_calls chain h d) !! (c, k, i, j) = realm_calls d !! (c, k, i, j).
Proof.
  intros Hne. unfold delete_realm_calls. cbn [realm_calls set_realm_calls]. apply option_eq. intros x.
  rewrite map_lookup_filter_Some. cbn. split; [by intros [? _]|]. intros Hx. split; [done|]. intros [-> ->]. by destruct Hne.
Qed.

Lemma advanced_next p chain tip ep d d' s : tables_after p chain tip ep d d' -> state d = Some s ->
  ph_height p <= st_last_finalized s + 1 /\ st_chain s = chain.
Proof.
  intros [(cp & Hcp & Hseq) _ _ _ _ _ _ _ _ _ _ _ _ _ _ _ _ _ _ _ _ _ _ _ _ _] Hs.
  unfold get_checkpoint_cursor in Hcp. rewrite Hs in Hcp. case_bool_decide; [|done]. injection Hcp as <-.
  simpl in Hseq. apply raise_if_Ok in Hseq. split; [lia|done].
Qed.

Lemma tables_kept p chain tip ep d d' : tables_after p chain tip ep d d' -> finalized_kept chain (ph_height p) d d'.
Proof.
  intros HT. constructor.
  - destruct (ta_blocks _ _ _ _ _ _ HT) as (f & -> & Hw). intros k. destruct (decide (k = ph_height p)) as [->|Hne].
    + rewrite lookup_put. by eapply kept_or_kept.
    + by rewrite lookup_put_ne.
  - apply (ta_txs_mono _ _ _ _ _ _ HT).
  - apply (ta_results_mono _ _ _ _ _ _ HT).
  - intros [k a]. destruct (decide (k = ph_height p)) as [->|Hne].
    + apply (ta_vm_mono _ _ _ _ _ _ HT a).
    + by rewrite (ta_members_other _ _ _ _ _ _ HT).
  - apply (ta_signatures_mono _ _ _ _ _ _ HT).
  - intros a. apply (ta_vm_mono _ _ _ _ _ _ HT a).
  - destruct (ta_blocks _ _ _ _ _ _ HT) as (f & -> & Hw). intros k Hne. by apply lookup_put_ne.
  - intros k Hk. apply (ta_txs_out _ _ _ _ _ _ HT). by apply not_in_height.
  - intros k Hk. apply (ta_results_out _ _ _ _ _ _ HT). by apply not_in_height.
  - apply (ta_members_other _ _ _ _ _ _ HT).
  - intros k Hk. apply (ta_signatures_out _ _ _ _ _ _ HT). by apply not_in_height.
  - intros c k i j Hne. rewrite (ta_calls _ _ _ _ _ _ HT). rewrite lookup_union_r.
    + by apply delete_calls_other.
    + by rewrite add_calls_other.
  - intros s Hs. rewrite (ta_state _ _ _ _ _ _ HT), Hs. destruct (advanced_next _ _ _ _ _ _ _ HT Hs) as [Hn _].
    unfold advanced. destruct (_ <=? _) eqn:E; eexists; (split; [done|]); (split; [done|]); simpl; lia.
Qed.

Lemma write_height_Ok p chain tip ep d d' : write_height p chain tip ep d = (Ok tt, d') ->
  exists e, write_height_cursor p chain tip ep d = Ok e /\ d' = set_xact_locks ∅ e.
Proof. unfold write_height. destruct (write_height_cursor _ _ _ _ _) as [e|]; [|done]. intros [= <-]. eauto. Qed.

(** C4. Finalized data is immutable.  Whatever [write_height] is given and
    however it ends, every stored block, execution result, validator-set member
    and signature is still there unchanged, every transaction keeps its bytes,
    hash and status, every validator keeps its key while its seen range only
    grows, rows of other heights are untouched, and the checkpoint never goes
    back and advances by at most one. *)
Theorem write_height_immutable p chain tip ep d :
  finalized_kept chain (ph_height p) d (write_height p chain tip ep d).2.
Proof.
  unfold write_height. destruct (write_height_cursor p chain tip ep d) as [d'|e] eqn:E; [|apply finalized_kept_refl].
  apply cursor_tables, tables_kept in E. destruct E. by constructor.
Qed.

(** ** What a successful write agrees with *)
Lemma elem_of_at_height {K A} `{Countable K} (h : Z) (m : gmap (Z * K) A) x :
  x ∈ at_height h m <-> is_Some (m !! (h, x)).
Proof.
  unfold at_height. rewrite list_elem_of_fmap. setoid_rewrite list_elem_of_In. setoid_rewrite filter_In.
  setoid_rewrite in_map_iff. split.
  - intros ([k y] & -> & ([[k' y'] v] & Hk & Hin) & Hh). simpl in *. injection Hk as -> ->. apply Z.eqb_eq in Hh as ->.
    exists v. by apply elem_of_map_to_list, list_elem_of_In.
  - intros [v Hv]. exists (h, x). split; [done|]. split; [|apply Z.eqb_refl]. exists (h, x, v). split; [done|].
    by apply list_elem_of_In, elem_of_map_to_list.
Qed.

Lemma same_set_spec a b : same_set a b = true <->
  (forall x, x ∈ a -> exists y, y ∈ b /\ py_eq x y = true) /\ (forall y, y ∈ b -> exists x, x ∈ a /\ py_eq y x = true).
Proof.
  unfold same_set. rewrite andb_true_iff, !forallb_forall. setoid_rewrite existsb_exists.
  setoid_rewrite list_elem_of_In. done.
Qed.
Lemma py_eq_VInt i j : py_eq (VInt i) (VInt j) = true <-> i = j.
Proof. cbn. by rewrite Z.eqb_eq. Qed.
Lemma py_eq_VStr_l s v : py_eq (VStr s) v = true <-> v = VStr s.
Proof.
  destruct v; simpl; try (split; [done|naive_solver]). rewrite String.eqb_eq. split; [by intros ->|by intros [= ->]].
Qed.

Lemma same_strs l vs : same_set (map VStr l) vs = true ->
  (forall a, a ∈ l <-> VStr a ∈ vs) /\ forall v, v ∈ vs -> is_str v = true.
Proof.
  intros [H1 H2]%same_set_spec. split.
  - intros a. split.
    + intros Ha. destruct (H1 (VStr a)) as (y & Hy & ->%py_eq_VStr_l); [by apply list_elem_of_fmap_2|done].
    + intros Ha. destruct (H2 _ Ha) as (x & (b & -> & Hb)%list_elem_of_fmap & [= <-]%py_eq_VStr_l). done.
  - intros v Hv. destruct (H2 _ Hv) as (x & (b & -> & Hb)%list_elem_of_fmap & ->%py_eq_str). done.
Qed.
Lemma same_ints l k : same_set (map VInt l) (map VInt k) = true <-> forall i, i ∈ l <-> i ∈ k.
Proof.
  rewrite same_set_spec. split.
  - intros [H1 H2] i. split.
    + intros Hi. destruct (H1 (VInt i)) as (y & (j & -> & Hj)%list_elem_of_fmap & ->%py_eq_VInt); [by apply list_elem_of_fmap_2|done].
    + intros Hi. destruct (H2 (VInt i)) as (y & (j & -> & Hj)%list_elem_of_fmap & ->%py_eq_VInt); [by apply list_elem_of_fmap_2|done].
  - intros Heq. split; intros y (i & -> & Hi)%list_elem_of_fmap; exists (VInt i);
      (split; [apply list_elem_of_fmap_2; by apply Heq|by apply py_eq_VInt]).
Qed.

Record stored_agrees (d : db) (p : ParsedHeight) : Prop := {
  sa_block : forall r, blocks d !! ph_height p = Some r ->
    br_hash_base64 r = b_hash_base64 (ph_block p) /\ br_hash_hex r = b_hash_hex (ph_block p);
  sa_tx : forall t r, t ∈ ph_transactions p -> transactions d !! (ph_height p, px_index t) = Some r ->
    tr_columns r = tx_expected t;
  sa_result : forall r row, r ∈ ph_execution_results p -> results d !! (ph_height p, er_tx_index r) = Some row ->
    result_agrees row r = true;
  sa_validator : forall v a r, v ∈ ph_validators p -> v_address v = VStr a -> validators d !! a = Some r ->
    key_type_param v = VStr (vr_key r).1 /\ key_value_param v = VStr (vr_key r).2;
  sa_member : forall i v a r, (i, v) ∈ enumerate (ph_validators p) -> v_address v = VStr a ->
    members d !! (ph_height p, a) = Some r -> mr_columns r = member_expected i v;
  sa_signature : forall s a r, s ∈ ph_signatures p -> sg_signing_address s = VStr a ->
    signatures d !! (ph_height p, a) = Some r -> ss_columns r = signature_expected s;
  sa_tx_set : is_Some (blocks d !! ph_height p) -> forall i,
    is_Some (transactions d !! (ph_height p, i)) <-> i ∈ map px_index (ph_transactions p);
  sa_member_set : is_Some (blocks d !! ph_height p) -> forall a,
    is_Some (members d !! (ph_height p, a)) <-> VStr a ∈ map v_address (ph_validators p);
  sa_signature_set : is_Some (blocks d !! ph_height p) -> forall a,
    is_Some (signatures d !! (ph_height p, a)) <-> VStr a ∈ map sg_signing_address (ph_signatures p)
}.

Lemma by_address_str {A} (find : string -> option A) a (row : option A) :
  by_address find (VStr a) = Ok row -> row = find a.
Proof.
  unfold by_address. intros (o & Ho%pg_text_stored & [= <-])%bind_Ok. destruct o; [|done]. by injection Ho as <-.
Qed.

Lemma verify_agrees d p : verify_finalized_conflicts d p = Ok tt -> stored_agrees d p.
Proof.
  unfold verify_finalized_conflicts, verify_transaction_conflicts, verify_execution_result_conflicts,
    verify_validator_conflicts, verify_member_conflicts, verify_signature_conflicts. intros (ex & Hb & Hv)%bind_Ok. apply bind_Ok in Hv as ([] & Hk & Hv).
  apply bind_Ok in Hv as ([] & Ht%foldM_res_unit & Hv). apply bind_Ok in Hv as ([] & Hr%foldM_res_unit & Hv).
  apply bind_Ok in Hv as ([] & Ha%foldM_res_unit & Hv). apply bind_Ok in Hv as ([] & Hm%foldM_res_unit & Hs%foldM_res_unit).
  rewrite Forall_forall in Ht; rewrite Forall_forall in Hr; rewrite Forall_forall in Ha;
    rewrite Forall_forall in Hm; rewrite Forall_forall in Hs.
  assert (Hsets : is_Some (blocks d !! ph_height p) -> verify_child_key_sets d p true = Ok tt).
  { intros [r Hr']. unfold verify_block_conflict in Hb. rewrite Hr' in Hb.
    destruct (_ && _); [|done]. by injection Hb as <-. }
  clear Hk. constructor.
  - intros r Hrow. unfold verify_block_conflict in Hb. rewrite Hrow in Hb.
    destruct (_ && _) eqn:E; [|done]. apply andb_prop in E as [E1%bool_decide_eq_true E2%bool_decide_eq_true]. done.
  - intros t r Hin Hrow. specialize (Ht t Hin). unfold verify_transaction in Ht. rewrite Hrow in Ht.
    by apply require_Ok, bool_decide_eq_true in Ht.
  - intros r row Hin Hrow. specialize (Hr r Hin). unfold verify_result in Hr. rewrite Hrow in Hr. by apply require_Ok in Hr.
  - intros v a r Hin Hadr Hrow. specialize (Ha v Hin). unfold verify_validator in Ha.
    apply bind_Ok in Ha as (row & Hrow' & Ha). rewrite Hadr in Hrow'. apply by_address_str in Hrow' as ->. rewrite Hrow in Ha.
    apply require_Ok, andb_prop in Ha as [E1%py_eq_VStr_l E2%py_eq_VStr_l]. done.
  - intros i v a r Hin Hadr Hrow. specialize (Hm _ Hin). unfold verify_member in Hm.
    apply bind_Ok in Hm as (row & Hrow' & Hm). simpl in *. rewrite Hadr in Hrow'. apply by_address_str in Hrow' as ->.
    rewrite Hrow in Hm. by apply require_Ok, bool_decide_eq_true in Hm.
  - intros s a r Hin Hadr Hrow. specialize (Hs _ Hin). unfold verify_signature in Hs.
    apply bind_Ok in Hs as (row & Hrow' & Hs). rewrite Hadr in Hrow'. apply by_address_str in Hrow' as ->.
    rewrite Hrow in Hs. by apply require_Ok, bool_decide_eq_true in Hs.
  - intros Hx i. specialize (Hsets Hx). apply bind_Ok in Hsets as (u & Hset%require_Ok & _).
    rewrite <- (map_map px_index VInt), same_ints in Hset. rewrite <- elem_of_at_height. apply Hset.
  - intros Hx a. specialize (Hsets Hx). apply bind_Ok in Hsets as (u & _ & Hset). apply bind_Ok in Hset as (vs & Hvs & Hset).
    apply bind_Ok in Hset as (u2 & Hset%require_Ok & _). unfold val_set in Hvs. destruct (forallb _ _); [|done].
    injection Hvs as <-. rewrite <- elem_of_at_height. by apply same_strs.
  - intros Hx a. specialize (Hsets Hx). apply bind_Ok in Hsets as (u & _ & Hset). apply bind_Ok in Hset as (vs & Hvs & Hset).
    apply bind_Ok in Hset as (u2 & _ & Hset). apply bind_Ok in Hset as (ss & Hss & Hset%require_Ok).
    unfold val_set in Hss. destruct (forallb _ (map sg_signing_address _)); [|done].
    injection Hss as <-. rewrite <- elem_of_at_height. by apply same_strs.
Qed.

Lemma write_agrees p chain tip ep d d' : write_height p chain tip ep d = (Ok tt, d') -> stored_agrees d p.
Proof.
  intros (e & He & _)%write_height_Ok. apply cursor_tables in He. apply verify_agrees, (ta_agrees _ _ _ _ _ _ He).
Qed.

(** C5. A height that disagrees with finalized data is refused: when
    [write_height] succeeds, the stored block at that height (if any) has the
    same hashes, its stored transactions, members and signatures are exactly
    the incoming ones, and every row already stored for an incoming
    transaction, result, validator, member or signature carries the same
    values. *)
Theorem write_height_agrees p chain tip ep d d' :
  write_height p chain tip ep d = (Ok tt, d') -> stored_agrees d p.
Proof. apply write_agrees. Qed.

(** A block whose hash differs from the finalized one raises
    FinalizedDataConflict and leaves the database as it was. *)
Theorem write_height_conflict p chain tip ep d r cp :
  get_checkpoint_cursor chain d = Ok cp -> verify_checkpoint_sequence (ph_height p) cp = Ok tt ->
  blocks d !! ph_height p = Some r -> br_hash_hex r <> b_hash_hex (ph_block p) ->
  write_height p chain tip ep d = (Raise (FinalizedDataConflict "Conflicting"), d).
Proof.
  intros Hcp Hseq Hr Hne. unfold write_height, write_height_cursor. run_step Hcp. run_step Hseq.
  cbn zeta. rewrite verify_lock. unfold verify_finalized_conflicts, verify_block_conflict. rewrite Hr.
  rewrite (bool_decide_eq_false_2 (br_hash_hex r = _)) by done. by rewrite andb_false_r.
Qed.

(** ** Every database the indexer can reach *)
Inductive reachable (chain : string) : db -> Prop :=
| reachable_empty : reachable chain empty_db
| reachable_write d p tip ep : reachable chain d -> reachable chain (write_height p chain tip ep d).2.

(** No gap between the first indexed height and the checkpoint, the call
    coverage range is exactly that interval, nothing is stored above the
    checkpoint, foreign and unique keys hold. *)
Record indexed_ok (chain : string) (d : db) : Prop := {
  ix_state : match state d with
             | None => blocks d = ∅ /\ call_state d !! chain = None
             | Some s => st_chain s = chain /\ exists first,
                 1 <= first <= st_last_finalized s /\
                 (forall h, first <= h <= st_last_finalized s -> is_Some (blocks d !! h)) /\
                 (forall h, is_Some (blocks d !! h) -> 1 <= h <= st_last_finalized s) /\
                 call_state d !! chain = Some (Some first, Some (st_last_finalized s))
             end;
  ix_txs : forall k, is_Some (transactions d !! k) -> is_Some (blocks d !! k.1);
  ix_participants : forall k, is_Some (participants d !! k) -> is_Some (transactions d !! k);
  ix_results : forall k, is_Some (results d !! k) -> is_Some (transactions d !! k);
  ix_calls : forall c h i j, is_Some (realm_calls d !! (c, h, i, j)) -> is_Some (transactions d !! (h, i));
  ix_members : forall k, is_Some (members d !! k) -> is_Some (blocks d !! k.1) /\ is_Some (validators d !! k.2);
  ix_signatures : forall k, is_Some (signatures d !! k) -> is_Some (members d !! k);
  ix_hash : forall h k r q, blocks d !! h = Some r -> blocks d !! k = Some q ->
    br_hash_base64 r = br_hash_base64 q \/ br_hash_hex r = br_hash_hex q -> h = k
}.

Section step.
Context (p : ParsedHeight) (chain : string) (tip : Z) (ep : option Z) (d d' : db).
Context (HT : tables_after p chain tip ep d d') (HI : indexed_ok chain d).
#[local] Abbreviation h := (ph_height p).

Lemma block_present : is_Some (blocks d' !! h).
Proof.
  destruct (ta_blocks _ _ _ _ _ _ HT) as (f & -> & Hw). rewrite lookup_put. unfold block_written, kept_or in Hw.
  destruct (blocks d !! h); [rewrite Hw; eauto|]. destruct Hw as (r & -> & _). eauto.
Qed.
Lemma blocks_grow k : is_Some (blocks d !! k) -> is_Some (blocks d' !! k).
Proof. intros [r Hr]. exists r. by apply (fk_blocks _ _ _ _ (tables_kept _ _ _ _ _ _ HT)). Qed.
Lemma blocks_new k : is_Some (blocks d' !! k) -> k = h \/ is_Some (blocks d !! k).
Proof.
  destruct (decide (k = h)) as [->|Hne]; [by left|]. rewrite (fk_other_blocks _ _ _ _ (tables_kept _ _ _ _ _ _ HT)) by done.
  by right.
Qed.
Lemma txs_grow k : is_Some (transactions d !! k) -> is_Some (transactions d' !! k).
Proof. intros [r Hr]. destruct (ta_txs_mono _ _ _ _ _ _ HT k r Hr) as (r' & Hr' & _). by exists r'. Qed.

Lemma tx_in_or k : k ∈ map (fun t => (h, px_index t)) (ph_transactions p) -> is_Some (transactions d' !! k) /\ k.1 = h.
Proof. intros (t & -> & Ht)%list_elem_of_fmap. split; [by apply (ta_txs_in _ _ _ _ _ _ HT)|done]. Qed.
Lemma tx_out k : k ∉ map (fun t => (h, px_index t)) (ph_transactions p) ->
  transactions d' !! k = transactions d !! k /\ participants d' !! k = participants d !! k.
Proof. intros Hk. pose proof (ta_txs_out _ _ _ _ _ _ HT k Hk) as Heq. by injection Heq. Qed.

Lemma step_calls c k i j : is_Some (realm_calls d' !! (c, k, i, j)) -> is_Some (transactions d' !! (k, i)).
Proof.
  rewrite (ta_calls _ _ _ _ _ _ HT), lookup_union_is_Some. intros [[x Hx]|[x Hx]].
  - apply add_calls_lookup in Hx as [Hx|(ic & Hic & Hk & _)]; [by rewrite lookup_empty in Hx| |by apply (ta_calls_nodup _ _ _ _ _ _ HT)|].
    + injection Hk as -> -> -> _. unfold height_calls in Hic. apply list_elem_of_In, in_flat_map in Hic as (t & Ht & Hic).
      unfold tx_calls in Hic. destruct (stored_summary t); [|done]. apply in_map_iff in Hic as (cl & <- & _).
      apply (ta_txs_in _ _ _ _ _ _ HT). by apply list_elem_of_In.
    + intros ic _. apply lookup_empty.
  - apply map_lookup_filter_Some in Hx as [Hx _]. apply txs_grow. apply (ix_calls _ _ HI c k i j). by exists x.
Qed.

Lemma step_state : match state d' with
  | None => blocks d' = ∅ /\ call_state d' !! chain = None
  | Some s => st_chain s = chain /\ exists first,
      1 <= first <= st_last_finalized s /\
      (forall k, first <= k <= st_last_finalized s -> is_Some (blocks d' !! k)) /\
      (forall k, is_Some (blocks d' !! k) -> 1 <= k <= st_last_finalized s) /\
      call_state d' !! chain = Some (Some first, Some (st_last_finalized s))
  end.
Proof.
  pose proof (ix_state _ _ HI) as Hs. pose proof (ta_positive _ _ _ _ _ _ HT) as Hpos.
  rewrite (ta_state _ _ _ _ _ _ HT). destruct (ta_call_state _ _ _ _ _ _ HT) as (init & Hcs & Hinit).
  assert (Hc : call_state d' !! chain = covered chain h init (call_state d !! chain)).
  { rewrite Hcs. apply lookup_partial_alter_eq. }
  rewrite Hc. clear Hcs Hc. subst init. destruct (state d) as [s|] eqn:Es.
  - destruct Hs as (Hch & first & Hf & Hin & Hall & Hcov). rewrite Hcov.
    destruct (advanced_next _ _ _ _ _ _ _ HT Es) as [Hn _]. simpl covered.
    assert (Hgoal : forall l, l = Z.max (st_last_finalized s) h -> exists f, 1 <= f <= l /\
      (forall k, f <= k <= l -> is_Some (blocks d' !! k)) /\ (forall k, is_Some (blocks d' !! k) -> 1 <= k <= l) /\
      Some (Some first, Some (Z.max (st_last_finalized s) h)) = Some (Some f, Some l)).
    { intros l ->. exists first. split_and!; [lia|lia| | |done].
      - intros k Hk. destruct (decide (k = h)) as [->|]; [apply block_present|]. apply blocks_grow, Hin. lia.
      - intros k [->|Hk]%blocks_new; [lia|]. specialize (Hall k Hk). lia. }
    unfold advanced. destruct (h <=? st_last_finalized s) eqn:E; simpl; (split; [done|]); apply Hgoal; lia.
  - destruct Hs as [Hb Hcov]. rewrite Hcov. simpl. split; [done|]. exists h. split_and!; [lia|lia| | |done].
    + intros k Hk. assert (k = h) as -> by lia. apply block_present.
    + intros k [->|Hk]%blocks_new; [lia|]. rewrite Hb, lookup_empty in Hk. by destruct Hk.
Qed.

Lemma step_hash k1 k2 r q : blocks d' !! k1 = Some r -> blocks d' !! k2 = Some q ->
  br_hash_base64 r = br_hash_base64 q \/ br_hash_hex r = br_hash_hex q -> k1 = k2.
Proof.
  destruct (ta_blocks _ _ _ _ _ _ HT) as (f & Hb & Hw). unfold block_written, kept_or in Hw.
  pose proof (ta_hash _ _ _ _ _ _ HT) as Hu. rewrite Hb. destruct (blocks d !! h) as [o|] eqn:E.
  - rewrite put_id by (simpl; rewrite E; done). apply (ix_hash _ _ HI).
  - destruct Hw as (w & Hw & H1 & H2). specialize (Hu eq_refl).
    destruct (decide (k1 = h)) as [->|N1], (decide (k2 = h)) as [->|N2]; try done;
      rewrite ?lookup_put, ?lookup_put_ne, ?E, ?Hw by done.
    + intros [= <-] Hq Heq. destruct (Hu _ _ Hq) as [U1 U2]. rewrite H1, H2 in Heq. naive_solver.
    + intros Hr [= <-] Heq. destruct (Hu _ _ Hr) as [U1 U2]. rewrite H1, H2 in Heq. naive_solver.
    + apply (ix_hash _ _ HI).
Qed.

Lemma step_indexed : indexed_ok chain d'.
Proof.
  constructor.
  - apply step_state.
  - intros k. destruct (decide (k ∈ map (fun t => (h, px_index t)) (ph_transactions p))) as [Hk|Hk].
    + intros _. rewrite (proj2 (tx_in_or _ Hk)). apply block_present.
    + rewrite (proj1 (tx_out _ Hk)). intros Ht. by apply blocks_grow, (ix_txs _ _ HI).
  - intros k. destruct (decide (k ∈ map (fun t => (h, px_index t)) (ph_transactions p))) as [Hk|Hk].
    + intros _. apply (tx_in_or _ Hk).
    + destruct (tx_out _ Hk) as [-> ->]. apply (ix_participants _ _ HI).
  - intros k [Hk|Hk]%(ta_results_fk _ _ _ _ _ _ HT); [|done]. by apply txs_grow, (ix_results _ _ HI).
  - apply step_calls.
  - intros [k a] Hk. destruct (decide (k = h)) as [->|Hne].
    + split; [apply block_present|].
      destruct (decide (a ∈ map (fun iv : nat * validator => str_of_val (v_address iv.2)) (enumerate (ph_validators p)))) as [Ha|Ha].
      * apply list_elem_of_fmap in Ha as (iv & -> & Hiv). by apply (ta_vm_in _ _ _ _ _ _ HT).
      * pose proof (ta_vm_out _ _ _ _ _ _ HT a Ha) as Heq. injection Heq as Hv Hm. cbn in *. rewrite Hm in Hk. rewrite Hv.
        apply (ix_members _ _ HI _ Hk).
    + rewrite (ta_members_other _ _ _ _ _ _ HT) in Hk by done. destruct (ix_members _ _ HI _ Hk) as [Hb [r Hr]].
      split; [by apply blocks_grow|]. destruct (proj1 (ta_vm_mono _ _ _ _ _ _ HT a) r Hr) as (r' & Hr' & _). by exists r'.
  - intros k [Hk|Hk]%(ta_signatures_fk _ _ _ _ _ _ HT); [|done]. destruct (ix_signatures _ _ HI _ Hk) as [r Hr].
    exists r. by apply (fk_members _ _ _ _ (tables_kept _ _ _ _ _ _ HT)).
  - apply step_hash.
Qed.
End step.

Lemma reachable_indexed chain d : reachable chain d -> indexed_ok chain d.
Proof.
  induction 1 as [|d p tip ep _ IH].
  - constructor; simpl; try done.
    all: intros *; rewrite lookup_empty; intros [? [=]].
  - unfold write_height. destruct (write_height_cursor p chain tip ep d) as [e|] eqn:E; [|done].
    apply cursor_tables in E. destruct (step_indexed _ _ _ _ _ _ E IH). by constructor.
Qed.

(** C2. The index has no gaps: in every database the indexer can produce from
    an empty one, all heights from the first indexed one to the checkpoint are
    stored and none above it, the realm-call coverage range is exactly that
    interval, every transaction, participant, result, call, member and
    signature row has the rows it refers to, and no two heights share a block
    hash. *)
Theorem checkpoint_no_gaps chain d : reachable chain d -> indexed_ok chain d.
Proof. apply reachable_indexed. Qed.

(** ** What is stored, and writing it again *)
Record distinct_keys (p : ParsedHeight) : Prop := {
  dk_txs : NoDup (map px_index (ph_transactions p));
  dk_results : NoDup (map er_tx_index (ph_execution_results p));
  dk_members : NoDup (map (fun v => str_of_val (v_address v)) (ph_validators p));
  dk_signatures : NoDup (map (fun s => str_of_val (sg_signing_address s)) (ph_signatures p))
}.

Lemma NoDup_height {A B} (h : B) (f : A -> Z) (l : list A) : NoDup (map f l) -> NoDup (map (fun x => (h, f x)) l).
Proof.
  intros Hn. rewrite <- (map_map f (fun y => (h, y))). apply NoDup_fmap_2; [|done]. by intros x y [= ->].
Qed.
Lemma NoDup_key {A B} (h : B) (f : A -> string) (l : list A) : NoDup (map f l) -> NoDup (map (fun x => (h, f x)) l).
Proof.
  intros Hn. rewrite <- (map_map f (fun y => (h, y))). apply NoDup_fmap_2; [|done]. by intros x y [= ->].
Qed.
Lemma enumerate_keys {A B} (f : A -> B) (l : list A) : map (fun ix => f ix.2) (enumerate l) = map f l.
Proof. rewrite <- (map_map snd f). f_equal. apply (enumerate_snd l). Qed.

(** The rows of the height after a write, and that every statement of the
    write leaves tables that agree with these as they are. *)
Record stored_rows (p : ParsedHeight) (chain : string) (ep : option Z) (d d' : db) : Prop := {
  sr_txs : forall t, t ∈ ph_transactions p ->
    tx_written t (at_key (ph_height p, px_index t) (get_txs d)) (at_key (ph_height p, px_index t) (get_txs d'));
  sr_results : forall r, r ∈ ph_execution_results p ->
    result_written r (results d !! (ph_height p, er_tx_index r)) (results d' !! (ph_height p, er_tx_index r));
  sr_vm : forall iv, iv ∈ enumerate (ph_validators p) ->
    let a := str_of_val (v_address iv.2) in
    vm_written (ph_height p) iv (validators d !! a, members d !! (ph_height p, a))
      (validators d' !! a, members d' !! (ph_height p, a));
  sr_signatures : forall s, s ∈ ph_signatures p ->
    signature_written s (signatures d !! (ph_height p, str_of_val (sg_signing_address s)))
      (signatures d' !! (ph_height p, str_of_val (sg_signing_address s)));
  sr_block_again : forall e, blocks e = blocks d' -> upsert_block p e = Ok e;
  sr_txs_again : forall e, get_txs e = get_txs d' ->
    foldM_res (upsert_transaction (ph_height p)) e (ph_transactions p) = Ok e;
  sr_results_again : forall e, results e = results d' ->
    foldM_res (upsert_result (ph_height p) ep) e (ph_execution_results p) = Ok e;
  sr_catalog_again : forall e, catalog e = catalog d' -> upsert_realm_catalog p chain e = Ok e;
  sr_calls_again : forall e, replace_realm_calls_for_height p chain e =
    Ok (set_realm_calls (add_calls chain (ph_height p) ∅ (height_calls p)
                           ∪ realm_calls (delete_realm_calls chain (ph_height p) e)) e);
  sr_call_coverage_again : forall e, call_state e = call_state d' ->
    exists cv, advance_realm_call_coverage chain (ph_height p) false e = Ok (e, cv);
  sr_activity_again : forall e, activity_state e = activity_state d' ->
    exists cv, advance_realm_activity_coverage chain (ph_height p) e = Ok (e, cv);
  sr_vm_again : forall e, get_vm e = get_vm d' -> upsert_validators_and_members p e = Ok e;
  sr_signatures_again : forall e, signatures e = signatures d' -> upsert_signatures p e = Ok e
}.

Lemma cursor_stored p chain tip ep d d' : distinct_keys p ->
  write_height_cursor p chain tip ep d = Ok d' -> stored_rows p chain ep d d'.
Proof.
  intros HK. destruct d as [B T Pa R C Cat Cs As V M S St L].
  intros (cp & d1 & d2 & d3 & d4 & d5 & d6 & d7 & d8 & d9 & cv & av & [])%write_cursor_run.
  destruct HK as [Kt Kr Kv Ks]. apply upsert_block_step in run_block as (f & E1 & _ & Bre). tables E1. subst d1.
  apply (fold_rows get_txs set_txs _ _ _ (upsert_transaction_step (ph_height p))) in run_txs
    as (sT & E2 & _ & Tin); [|by apply NoDup_height]. tables E2. subst d2.
  apply (fold_rows results set_results _ _ _ (upsert_result_step (ph_height p) ep)) in run_results
    as (sR & E3 & _ & Rin); [|by apply NoDup_height]. tables E3. subst d3.
  destruct (replace_realm_calls_Ok _ _ _ _ run_calls) as [Cnd Crun]. rewrite Crun in run_calls.
  apply Ok_inj in run_calls. tables run_calls. subst d4.
  apply upsert_realm_catalog_Ok in run_catalog as (entries & Hent & Hh & Hcat).
  apply (fold_rows catalog set_catalog _ _ _ (upsert_aggregate_step chain (ph_height p) (b_time (ph_block p)))) in Hcat
    as (sC & E5 & _ & Cin); [|apply NoDup_key, aggregate_block_facts]. tables E5. subst d5.
  apply call_coverage_Ok in run_call_coverage as (E6 & _ & _ & CSre). tables E6. subst d6.
  apply activity_coverage_Ok in run_activity as (E7 & _ & ASre). tables E7. subst d7.
  unfold upsert_validators_and_members in run_vm.
  apply (fold_rows get_vm set_vm (H0 := vm_store (ph_height p)) _ _ _ (upsert_vm_step (ph_height p))) in run_vm
    as (sV & E8 & _ & Vin); [|by rewrite (enumerate_keys (fun v => str_of_val (v_address v)))]. tables E8. subst d8.
  apply (fold_rows signatures set_signatures _ _ _ (insert_signature_step (ph_height p))) in run_signatures
    as (sS & E9 & _ & Sin); [|by apply NoDup_key]. tables E9. subst d9.
  apply advance_checkpoint_Ok in run_advance; [|exact run_checkpoint]. tables run_advance. subst d'.
  constructor.
  - intros t Ht. exact (proj1 (Tin t Ht)).
  - intros r Hr. exact (proj1 (Rin r Hr)).
  - intros iv Hiv. exact (proj1 (Vin iv Hiv)).
  - intros s Hs. exact (proj1 (Sin s Hs)).
  - intros e He. apply Bre. rewrite He. apply lookup_partial_alter_eq.
  - intros e He. apply foldM_res_same. intros t Ht. apply (proj2 (Tin t Ht)). by rewrite He.
  - intros e He. apply foldM_res_same. intros r Hr. apply (proj2 (Rin r Hr)). by rewrite He.
  - intros e He. unfold upsert_realm_catalog, upsert_transaction_catalog_aggregates. run_step Hent.
    rewrite (proj2 (Z.leb_le _ _) Hh). cbn [require mbind res_bind]. apply foldM_res_same. intros a Ha.
    apply (proj2 (Cin a Ha)). by rewrite He.
  - apply Crun.
  - intros e He. eexists. apply CSre. rewrite He. apply lookup_partial_alter_eq.
  - intros e He. apply ASre. rewrite He. apply lookup_partial_alter_eq.
  - intros e He. apply foldM_res_same. intros iv Hiv. apply (proj2 (Vin iv Hiv)). by rewrite He.
  - intros e He. apply foldM_res_same. intros s Hs. apply (proj2 (Sin s Hs)). by rewrite He.
Qed.

Lemma same_strs_intro l vs : (forall a, a ∈ l <-> VStr a ∈ vs) -> (forall v, v ∈ vs -> is_str v = true) ->
  val_set vs = Ok vs /\ same_set (map VStr l) vs = true.
Proof.
  intros Heq Hstr. split.
  - unfold val_set. rewrite (proj2 (forallb_forall _ _)); [done|]. intros v Hv%list_elem_of_In. specialize (Hstr v Hv). by destruct v.
  - apply same_set_spec. split.
    + intros y (a & -> & Ha)%list_elem_of_fmap. exists (VStr a). split; [by apply Heq|]. by apply py_eq_VStr_l.
    + intros v Hv. pose proof (Hstr v Hv) as Hs. destruct v as [| | | |a| |]; try done. exists (VStr a).
      split; [|by apply py_eq_VStr_l]. apply list_elem_of_fmap_2. by apply Heq.
Qed.
Lemma elem_of_enumerate {A} (l : list A) x : x ∈ l -> exists i, (i, x) ∈ enumerate l.
Proof.
  intros [i Hi]%list_elem_of_lookup. exists i. apply list_elem_of_lookup. exists i. by apply enumerate_lookup.
Qed.
Lemma enumerate_elem {A} (l : list A) ix : ix ∈ enumerate l -> ix.2 ∈ l.
Proof. intros [i Hi]%list_elem_of_lookup. apply enumerate_lookup in Hi as [_ Hi]. by apply list_elem_of_lookup_2 in Hi. Qed.

Section again.
Context (p : ParsedHeight) (chain : string) (tip : Z) (ep : option Z) (d d' : db).
Context (HT : tables_after p chain tip ep d d') (HR : stored_rows p chain ep d d') (HI : indexed_ok chain d).
Context (Hjson : forall r, r ∈ ph_execution_results p -> json_stable (er_events r) /\ json_stable (er_raw_result r)).
#[local] Abbreviation h := (ph_height p).

Lemma agrees_before : stored_agrees d p.
Proof. apply verify_agrees, (ta_agrees _ _ _ _ _ _ HT). Qed.

Lemma member_str v : v ∈ ph_validators p -> v_address v = VStr (str_of_val (v_address v)).
Proof.
  intros [i Hi]%elem_of_enumerate. destruct (sr_vm _ _ _ _ _ HR _ Hi) as [Hs _]. simpl in Hs. by destruct (v_address v).
Qed.
Lemma signer_str s : s ∈ ph_signatures p -> sg_signing_address s = VStr (str_of_val (sg_signing_address s)).
Proof. intros Hs. destruct (sr_signatures _ _ _ _ _ HR _ Hs) as [Ha _]. by destruct (sg_signing_address s). Qed.

Lemma tx_set_after i : i ∈ at_height h (transactions d') <-> i ∈ map px_index (ph_transactions p).
Proof.
  rewrite elem_of_at_height. split.
  - intros Hi. destruct (decide ((h, i) ∈ map (fun t => (h, px_index t)) (ph_transactions p))) as [Hk|Hk].
    + apply list_elem_of_fmap in Hk as (t & [= ->] & Ht). by apply (list_elem_of_fmap_2 px_index).
    + pose proof (ta_txs_out _ _ _ _ _ _ HT _ Hk) as Heq. injection Heq as Heq _. cbn in Heq. rewrite Heq in Hi.
      apply (sa_tx_set _ _ agrees_before); [|done]. apply (ix_txs _ _ HI _ Hi).
  - intros (t & -> & Ht)%list_elem_of_fmap. by apply (ta_txs_in _ _ _ _ _ _ HT).
Qed.
Lemma member_after v : v ∈ ph_validators p -> is_Some (members d' !! (h, str_of_val (v_address v))).
Proof.
  intros [i Hi]%elem_of_enumerate. destruct (sr_vm _ _ _ _ _ HR _ Hi) as (_ & _ & Hk). simpl in Hk. unfold kept_or in Hk.
  destruct (members d !! _) as [r|]; [by exists r|]. destruct Hk as (r & Hk & _). by exists r.
Qed.
Lemma signature_after s : s ∈ ph_signatures p -> is_Some (signatures d' !! (h, str_of_val (sg_signing_address s))).
Proof.
  intros Hs. destruct (sr_signatures _ _ _ _ _ HR _ Hs) as (_ & Hk). unfold kept_or in Hk.
  destruct (signatures d !! _) as [r|]; [by exists r|]. destruct Hk as (r & Hk & _). by exists r.
Qed.
Lemma member_set_after a : a ∈ at_height h (members d') <-> VStr a ∈ map v_address (ph_validators p).
Proof.
  rewrite elem_of_at_height. split.
  - intros Ha. destruct (decide (a ∈ map (fun iv : nat * validator => str_of_val (v_address iv.2)) (enumerate (ph_validators p)))) as [Hk|Hk].
    + apply list_elem_of_fmap in Hk as (iv & -> & Hv%enumerate_elem). rewrite <- (member_str _ Hv).
      by apply (list_elem_of_fmap_2 v_address).
    + pose proof (ta_vm_out _ _ _ _ _ _ HT _ Hk) as Heq. injection Heq as _ Heq. cbn in Heq. rewrite Heq in Ha.
      apply (sa_member_set _ _ agrees_before); [|done]. apply (ix_members _ _ HI _ Ha).
  - intros (v & Hv & Hin)%list_elem_of_fmap. replace a with (str_of_val (v_address v)) by (by rewrite <- Hv). by apply member_after.
Qed.
Lemma signature_set_after a : a ∈ at_height h (signatures d') <-> VStr a ∈ map sg_signing_address (ph_signatures p).
Proof.
  rewrite elem_of_at_height. split.
  - intros Ha. destruct (decide ((h, a) ∈ map (fun s => (h, str_of_val (sg_signing_address s))) (ph_signatures p))) as [Hk|Hk].
    + apply list_elem_of_fmap in Hk as (s & [= ->] & Hs). rewrite <- (signer_str _ Hs).
      by apply (list_elem_of_fmap_2 sg_signing_address).
    + rewrite (ta_signatures_out _ _ _ _ _ _ HT _ Hk) in Ha. apply (sa_signature_set _ _ agrees_before); [|done].
      apply (ix_members _ _ HI (h, a)), (ix_signatures _ _ HI _ Ha).
  - intros (s & Hs & Hin)%list_elem_of_fmap. replace a with (str_of_val (sg_signing_address s)) by (by rewrite <- Hs).
    by apply signature_after.
Qed.

Lemma key_sets_again : verify_child_key_sets d' p true = Ok tt.
Proof.
  unfold verify_child_key_sets. cbn [negb]. rewrite <- (map_map px_index VInt).
  rewrite (proj2 (same_ints _ _) tx_set_after). cbn [require mbind res_bind].
  destruct (same_strs_intro _ _ member_set_after) as [-> Hm].
  { intros v (x & -> & Hx)%list_elem_of_fmap. by rewrite (member_str x Hx). }
  cbn [mbind res_bind]. rewrite Hm. cbn [require].
  destruct (same_strs_intro _ _ signature_set_after) as [-> Hs].
  { intros v (x & -> & Hx)%list_elem_of_fmap. by rewrite (signer_str x Hx). }
  cbn [mbind res_bind]. by rewrite Hs.
Qed.

Lemma by_address_again {A} (f g : string -> option A) v o : by_address f v = Ok o -> v = VStr (str_of_val v) ->
  by_address g v = Ok (g (str_of_val v)).
Proof.
  intros Hf Hv. unfold by_address in *. rewrite Hv in *. apply bind_Ok in Hf as (t & Ht & _). rewrite Ht.
  apply pg_text_stored in Ht. destruct t; [|done]. by injection Ht as <-.
Qed.

Lemma verify_parts : verify_transaction_conflicts d' p = Ok tt /\ verify_execution_result_conflicts d' p = Ok tt.
Proof.
  split; apply foldM_res_unit, Forall_forall.
  - intros t Ht. unfold verify_transaction. destruct (sr_txs _ _ _ _ _ HR t Ht) as (row & ? & ? & Hrow & _ & _ & _ & _ & Hold).
    cbn in Hrow, Hold. rewrite Hrow. replace (tr_columns row) with (tx_expected t); [by rewrite bool_decide_eq_true_2|].
    destruct (transactions d !! (h, px_index t)) as [old|] eqn:E; destruct Hold as [-> _]; [|done].
    symmetry. by apply (sa_tx _ _ agrees_before).
  - intros r Hr. unfold verify_result. pose proof (sr_results _ _ _ _ _ HR r Hr) as Hw. unfold result_written, kept_or in Hw.
    destruct (results d !! (h, er_tx_index r)) as [old|] eqn:E.
    + rewrite Hw. by rewrite (sa_result _ _ agrees_before r old Hr E).
    + destruct Hw as (row & -> & Hag). destruct (Hjson r Hr) as [Hev Hraw]. by rewrite (Hag Hev Hraw).
Qed.

Lemma verify_validators_again : verify_validator_conflicts d p = Ok tt -> verify_validator_conflicts d' p = Ok tt.
Proof.
  intros Hv. apply foldM_res_unit in Hv. rewrite Forall_forall in Hv. apply foldM_res_unit, Forall_forall. intros v Hin.
  specialize (Hv v Hin). unfold verify_validator in *. apply bind_Ok in Hv as (row & Hrow & _).
  rewrite (by_address_again _ (fun a => validators d' !! a) _ _ Hrow (member_str v Hin)). cbn [mbind res_bind].
  destruct (elem_of_enumerate _ _ Hin) as [i Hi]. destruct (sr_vm _ _ _ _ _ HR _ Hi) as (_ & (vr & Hvr & _ & Hkey) & _).
  cbn [fst snd] in Hvr, Hkey. rewrite Hvr. destruct (validators d !! str_of_val (v_address v)) as [old|] eqn:E.
  - destruct Hkey as [-> _]. destruct (sa_validator _ _ agrees_before v _ _ Hin (member_str v Hin) E) as [-> ->].
    cbn. by rewrite !String.eqb_refl.
  - by rewrite Hkey.
Qed.
Lemma verify_members_again : verify_member_conflicts d p = Ok tt -> verify_member_conflicts d' p = Ok tt.
Proof.
  intros Hv. apply foldM_res_unit in Hv. rewrite Forall_forall in Hv. apply foldM_res_unit, Forall_forall. intros iv Hin.
  specialize (Hv iv Hin). unfold verify_member in *. apply bind_Ok in Hv as (row & Hrow & _).
  pose proof (enumerate_elem _ _ Hin) as Hv2.
  rewrite (by_address_again _ (fun a => members d' !! (h, a)) _ _ Hrow (member_str _ Hv2)). cbn [mbind res_bind].
  destruct (sr_vm _ _ _ _ _ HR _ Hin) as (_ & _ & Hk). cbn in Hk. unfold kept_or in Hk.
  destruct (members d !! (h, str_of_val (v_address iv.2))) as [old|] eqn:E.
  - rewrite Hk. destruct iv as [i v]. rewrite (sa_member _ _ agrees_before i v _ _ Hin (member_str _ Hv2) E).
    by rewrite bool_decide_eq_true_2.
  - destruct Hk as (r & -> & ->). by rewrite bool_decide_eq_true_2.
Qed.
Lemma verify_signatures_again : verify_signature_conflicts d p = Ok tt -> verify_signature_conflicts d' p = Ok tt.
Proof.
  intros Hv. apply foldM_res_unit in Hv. rewrite Forall_forall in Hv. apply foldM_res_unit, Forall_forall. intros s Hin.
  specialize (Hv s Hin). unfold verify_signature in *. apply bind_Ok in Hv as (row & Hrow & _).
  rewrite (by_address_again _ (fun a => signatures d' !! (h, a)) _ _ Hrow (signer_str _ Hin)). cbn [mbind res_bind].
  destruct (sr_signatures _ _ _ _ _ HR _ Hin) as (_ & Hk). unfold kept_or in Hk.
  destruct (signatures d !! (h, str_of_val (sg_signing_address s))) as [old|] eqn:E.
  - rewrite Hk. rewrite (sa_signature _ _ agrees_before s _ _ Hin (signer_str _ Hin) E). by rewrite bool_decide_eq_true_2.
  - destruct Hk as (r & -> & ->). by rewrite bool_decide_eq_true_2.
Qed.

Lemma block_again : verify_block_conflict d' p = Ok true.
Proof.
  unfold verify_block_conflict. destruct (ta_blocks _ _ _ _ _ _ HT) as (f & -> & Hw). rewrite lookup_put.
  unfold block_written, kept_or in Hw. destruct (blocks d !! h) as [r|] eqn:E.
  - rewrite Hw. destruct (sa_block _ _ agrees_before r E) as [-> ->]. by rewrite !bool_decide_eq_true_2.
  - destruct Hw as (r & -> & -> & ->). by rewrite !bool_decide_eq_true_2.
Qed.

Lemma verify_again : verify_finalized_conflicts d' p = Ok tt.
Proof.
  pose proof (ta_agrees _ _ _ _ _ _ HT) as Hv. unfold verify_finalized_conflicts in *.
  rewrite block_again. cbn [mbind res_bind]. rewrite key_sets_again. cbn [mbind res_bind].
  destruct verify_parts as [-> ->]. cbn [mbind res_bind].
  do 4 apply bind_Ok in Hv as (? & _ & Hv). apply bind_Ok in Hv as ([] & Hval & Hv).
  apply bind_Ok in Hv as ([] & Hmem & Hsig). rewrite (verify_validators_again Hval). cbn [mbind res_bind].
  rewrite (verify_members_again Hmem). by apply verify_signatures_again.
Qed.
End again.

Lemma calls_deleted_again chain h l d e : realm_calls e =
    add_calls chain h ∅ l ∪ realm_calls (delete_realm_calls chain h d) -> NoDup (map call_position l) ->
  add_calls chain h ∅ l ∪ realm_calls (delete_realm_calls chain h e) = realm_calls e.
Proof.
  intros He Hn. unfold delete_realm_calls at 1. cbn [realm_calls set_realm_calls]. rewrite He.
  apply map_eq. intros [[[c k] i] j]. apply option_eq. intros x. rewrite !lookup_union_Some_raw.
  rewrite map_lookup_filter_Some, lookup_union_Some_raw. cbn [fst snd]. split.
  - intros [Ha|[Hna [[Ha|[_ Hd]] _]]]; [by left|congruence|by right].
  - intros [Ha|[Hna Hd]]; [by left|]. right. split; [done|]. split; [by right|].
    apply map_lookup_filter_Some in Hd as [_ Hd]. done.
Qed.

Lemma checkpoint_after p chain tip ep d d' : tables_after p chain tip ep d d' ->
  exists c, get_checkpoint_cursor chain d' = Ok (Some c) /\ ph_height p <= c.
Proof.
  intros HT. unfold get_checkpoint_cursor. rewrite (ta_state _ _ _ _ _ _ HT). unfold advanced.
  destruct (state d) as [s|] eqn:E.
  - destruct (advanced_next _ _ _ _ _ _ _ HT E) as [Hn Hc].
    destruct (_ <=? _) eqn:El; simpl; rewrite bool_decide_eq_true_2 by done; eexists; (split; [done|lia]).
  - simpl. rewrite bool_decide_eq_true_2 by done. eexists; (split; [done|lia]).
Qed.

Lemma verify_locks l d p : verify_finalized_conflicts (set_xact_locks l d) p = verify_finalized_conflicts d p.
Proof. reflexivity. Qed.

Lemma cursor_again p chain tip tip' ep d d' : tables_after p chain tip ep d d' -> stored_rows p chain ep d d' ->
  indexed_ok chain d ->
  (forall r, r ∈ ph_execution_results p -> json_stable (er_events r) /\ json_stable (er_raw_result r)) ->
  let e := set_xact_locks ∅ d' in
  write_height_cursor p chain tip' ep e = Ok (lock_realm_call_index e).
Proof.
  intros HT HR HI Hj e. destruct (checkpoint_after _ _ _ _ _ _ HT) as (c & Hc & Hle).
  assert (Hl : get_checkpoint_cursor chain e = Ok (Some c)) by exact Hc.
  unfold write_height_cursor. run_step Hl. unfold verify_checkpoint_sequence, raise_if.
  rewrite (proj2 (Z.ltb_ge _ _)) by lia. cbn [mbind res_bind]. cbn zeta. rewrite verify_lock.
  rewrite (verify_locks ∅ d' p : verify_finalized_conflicts e p = _). run_step (verify_again p chain tip ep d d' HT HR HI Hj).
  run_step (sr_block_again _ _ _ _ _ HR (lock_realm_call_index e) eq_refl). unfold upsert_transactions.
  run_step (sr_txs_again _ _ _ _ _ HR (lock_realm_call_index e) eq_refl).
  run_step (sr_results_again _ _ _ _ _ HR (lock_realm_call_index e) eq_refl).
  run_step (sr_calls_again _ _ _ _ _ HR (lock_realm_call_index e)).
  rewrite (calls_deleted_again chain (ph_height p) (height_calls p) d);
    [|exact (ta_calls _ _ _ _ _ _ HT)|exact (ta_calls_nodup _ _ _ _ _ _ HT)].
  change (set_realm_calls (realm_calls (lock_realm_call_index e)) (lock_realm_call_index e)) with (lock_realm_call_index e).
  run_step (sr_catalog_again _ _ _ _ _ HR (lock_realm_call_index e) eq_refl).
  rewrite bool_decide_eq_false_2 by done.
  destruct (sr_call_coverage_again _ _ _ _ _ HR (lock_realm_call_index e) eq_refl) as [cv ->]. cbn [mbind res_bind].
  destruct (sr_activity_again _ _ _ _ _ HR (lock_realm_call_index e) eq_refl) as [av ->]. cbn [mbind res_bind].
  run_step (sr_vm_again _ _ _ _ _ HR (lock_realm_call_index e) eq_refl).
  run_step (sr_signatures_again _ _ _ _ _ HR (lock_realm_call_index e) eq_refl).
  unfold advance_checkpoint. by rewrite (proj2 (Z.leb_le _ _)) by lia.
Qed.


(** A successful write stores the height: the block with its hashes, each
    transaction with its summary and exactly the participants of that summary,
    each result, the members and signatures as received, and as realm calls of
    that chain and height exactly the calls of the normalized summaries. *)
Theorem write_height_stores p chain tip ep d d' : distinct_keys p ->
  write_height p chain tip ep d = (Ok tt, d') ->
  (exists r, blocks d' !! ph_height p = Some r /\ br_hash_hex r = b_hash_hex (ph_block p)) /\
  (forall t, t ∈ ph_transactions p -> exists row summary,
     transactions d' !! (ph_height p, px_index t) = Some row /\ tr_columns row = tx_expected t /\
     stored_summary t = Ok summary /\ json_column summary = Ok (tr_payload_summary row) /\
     participants d' !! (ph_height p, px_index t) = participant_rows summary) /\
  (forall r, r ∈ ph_execution_results p -> is_Some (results d' !! (ph_height p, er_tx_index r))) /\
  (forall s, s ∈ ph_signatures p -> exists row,
     signatures d' !! (ph_height p, str_of_val (sg_signing_address s)) = Some row /\ ss_columns row = signature_expected s) /\
  (forall i j c, realm_calls d' !! (chain, ph_height p, i, j) = Some c <->
     (i, c) ∈ height_calls p /\ rc_message_index c = j).
Proof.
  intros Hk (e & He & ->)%write_height_Ok. pose proof (cursor_tables _ _ _ _ _ _ He) as HT.
  pose proof (cursor_stored _ _ _ _ _ _ Hk He) as HR. pose proof (agrees_before _ _ _ _ _ _ HT) as Ha. split_and!.
  - pose proof (block_again _ _ _ _ _ _ HT) as Hb. unfold verify_block_conflict in Hb.
    cbn [blocks set_xact_locks]. destruct (blocks e !! ph_height p) as [r|]; [|done]. exists r. split; [done|].
    destruct (_ && _) eqn:E; [|done]. by apply andb_prop in E as [_ E%bool_decide_eq_true].
  - intros t Ht. destruct (sr_txs _ _ _ _ _ HR t Ht) as (row & sm & st & H1 & H2 & H3 & <- & H5 & H6).
    exists row, sm. split_and!; try done. cbn in H6. destruct (transactions d !! _) as [old|] eqn:E; [|by destruct H6].
    destruct H6 as [-> _]. by apply (sa_tx _ _ Ha).
  - apply (ta_results_in _ _ _ _ _ _ HT).
  - intros s Hs. destruct (sr_signatures _ _ _ _ _ HR s Hs) as (Hstr & Hw). unfold kept_or in Hw.
    destruct (signatures d !! _) as [old|] eqn:E; [|by destruct Hw as (r & ? & ?); exists r].
    exists old. split; [done|]. apply (sa_signature _ _ Ha s _ _ Hs (signer_str _ _ _ _ _ HR s Hs) E).
  - intros i j c. cbn [realm_calls set_xact_locks]. rewrite (ta_calls _ _ _ _ _ _ HT), lookup_union_l.
    2: { apply elsewhere_delete. }
    rewrite add_calls_lookup by (first [apply (ta_calls_nodup _ _ _ _ _ _ HT)|intros; apply lookup_empty]).
    rewrite lookup_empty. split.
    + intros [?|(ic & Hic & [= -> ->] & ->)]; [done|]. by destruct ic.
    + intros [Hic <-]. right. by exists (i, c).
Qed.
End written.

(** ** Concrete runs *)

(** The height of these runs, parsed from answers with one validator. *)
Definition demo_height : ParsedHeight := Eval vm_compute in
  match (@parse_height ascii_runtime unit no_decoder 12 (demo_block 12 5 4 [VStr "AAAA"]) (demo_results 12)
           (demo_commit 12 5 [demo_precommit "g1a" 5]) (demo_validators 12 ["g1a"]) (Some tt)).1 with
  | Ok p => p
  | Raise _ => Build_ParsedHeight 0 (Build_block "" "" None VNone VNone 0 []) [] [] [] [] VNone
  end.
Definition demo_raw_result : val :=
  match ph_execution_results demo_height with r :: _ => er_raw_result r | [] => VNone end.
Definition demo_raw_text : string := Eval vm_compute in
  match @json_dumps ascii_runtime json_default demo_raw_result with Ok t => t | Raise _ => "" end.

(** A server that stores text as given and every JSON document as text, except
    the execution result of the demo height, which it reads back as it was. *)
Definition demo_postgres : Postgres := {|
  pg_text v := match v with VStr s => Ok (Some s) | VNone => Ok None | _ => Raise IntegrityError end;
  pg_jsonb s := Ok (if String.eqb s demo_raw_text then demo_raw_result else VStr s);
  pg_timestamp v := Ok v;
  pg_check _ := Ok tt
|}.
Lemma demo_laws : @PostgresLaws demo_postgres.
Proof. constructor. intros v o. destruct v; simpl; try done; by intros [= <-]. Qed.

#[local] Existing Instance ascii_runtime.
#[local] Existing Instance demo_postgres.
Definition demo_db : db := (write_height demo_height "dev" 20 None empty_db).2.

Lemma demo_written : write_height demo_height "dev" 20 None empty_db = (Ok tt, demo_db).
Proof. vm_compute. reflexivity. Qed.
Lemma demo_reachable : reachable "dev" demo_db.
Proof. apply (reachable_write "dev" empty_db). constructor. Qed.
Lemma demo_distinct : distinct_keys demo_height.
Proof. constructor; vm_compute; repeat constructor; by intros ?%elem_of_nil. Qed.
Lemma demo_stable r : r ∈ ph_execution_results demo_height -> json_stable (er_events r) /\ json_stable (er_raw_result r).
Proof.
  intros Hr. apply list_elem_of_singleton in Hr as ->. split; intros j Hj; vm_compute in Hj; injection Hj as <-; done.
Qed.

(** Another height's hash for the same height. *)
Definition demo_fork : ParsedHeight :=
  let b := ph_block demo_height in
  Build_ParsedHeight 12 (Build_block "BA==" "04" (b_height b) (b_time b) (b_proposer_address b) (b_tx_count b)
    (b_transactions b)) (ph_transactions demo_height) (ph_execution_results demo_height) (ph_validators demo_height)
    (ph_signatures demo_height) VNone.

Lemma write_height_immutable_witness :
  exists r, blocks (write_height demo_fork "dev" 20 None demo_db).2 !! 12 = Some r /\ br_hash_hex r <> "04".
Proof.
  destruct (blocks demo_db !! 12) as [r|] eqn:E; [|by vm_compute in E].
  exists r. split.
  - apply (fk_blocks _ _ _ _ (@write_height_immutable ascii_runtime demo_postgres demo_laws demo_fork "dev" 20 None demo_db)), E.
  - vm_compute in E. injection E as <-. done.
Defined.

Lemma write_height_agrees_witness : stored_agrees demo_db demo_height.
Proof.
  eapply (@write_height_agrees ascii_runtime demo_postgres demo_laws demo_height "dev" 20 None demo_db).
  vm_compute. reflexivity.
Defined.

Lemma write_height_conflict_witness :
  write_height demo_fork "dev" 20 None demo_db = (Raise (FinalizedDataConflict "Conflicting"), demo_db).
Proof.
  destruct (blocks demo_db !! 12) as [r|] eqn:E; [|by vm_compute in E].
  apply (@write_height_conflict ascii_runtime demo_postgres demo_fork "dev" 20 None demo_db r (Some 12));
    [vm_compute; reflexivity|reflexivity|exact E|].
  vm_compute in E. injection E as <-. done.
Defined.

Lemma checkpoint_no_gaps_witness : indexed_ok "dev" demo_db /\ is_Some (state demo_db).
Proof.
  split; [|vm_compute; eauto].
  apply (@checkpoint_no_gaps ascii_runtime demo_postgres demo_laws "dev" demo_db demo_reachable).
Defined.


Lemma write_height_stores_witness : exists r, blocks demo_db !! 12 = Some r /\ br_hash_hex r = b_hash_hex (ph_block demo_height).
Proof.
  exact (proj1 (@write_height_stores ascii_runtime demo_postgres demo_laws demo_height "dev" 20 None empty_db demo_db
    demo_distinct demo_written)).
Defined.
