(* ===== verification/CatalogTotals.v ===== *)
(** * The realm catalog over a chain's history

    [upsert_transaction_catalog_aggregates] of Database.v folds one block's
    aggregates into the catalog rows with CASE expressions on heights.  Here
    the rows it leaves after any sequence of blocks of increasing height are
    compared with the events of those blocks: nothing is counted twice or
    lost, and the first, last and deployment positions are the true ones. *)
From Stdlib Require Import ZArith NArith Lia Ascii String SpecFloat.
From stdpp Require Import base gmap sets list strings sorting.
From S2P Require Import Prelude PyStr PyVal Codec InspectRpc Summary Participants Parsers RealmCatalog Database.
Open Scope Z_scope.

(** A block as the catalog sees it: height, time, transactions. *)
Definition catalog_block : Type := Z * val * list tx_entry.
Definition cb_height (b : catalog_block) : Z := b.1.1.

(** The observations of a path with the height they were made at. *)
Definition hevent : Type := Z * event.
Definition block_hevents (q : string) (b : catalog_block) : list hevent :=
  map (fun e => (cb_height b, e)) (events_of q (block_events b.2)).
Definition history_events (q : string) (hist : list catalog_block) : list hevent :=
  concat (map (block_hevents q) hist).
Definition hpos (e : hevent) : Z * Z := (e.1, ev_tx e.2).
Definition pos_le (a b : Z * Z) : Prop := a.1 < b.1 \/ (a.1 = b.1 /\ a.2 <= b.2).
Definition hcount (f : event -> bool) (es : list hevent) : Z := count f (map snd es).

(** What a catalog row says about the path's whole history. *)
Record row_totals (es : list hevent) (row : catalog_row) : Prop := {
  rt_calls : cr_calls row = hcount is_call es;
  rt_success : cr_success row = hcount (fun e => is_call e && has_status "success" e) es;
  rt_failed : cr_failed row = hcount (fun e => is_call e && has_status "failed" e) es;
  rt_unknown : cr_unknown row = hcount (fun e => is_call e && negb (has_status "success" e || has_status "failed" e)) es;
  rt_first : exists f, cr_first_seen row = Some f /\ (exists e, e ∈ es /\ e.1 = f) /\ forall e, e ∈ es -> f <= e.1;
  rt_deploy : match cr_deploy row with
              | None => forall e, e ∈ es -> is_deployment e.2 = false
              | Some p => (exists e, e ∈ es /\ is_deployment e.2 = true /\ hpos e = p /\ ob_sender e.2.2 = cr_deployer row) /\
                  forall e, e ∈ es -> is_deployment e.2 = true -> pos_le p (hpos e)
              end;
  rt_last : match cr_last row with
            | None => forall e, e ∈ es -> is_call e.2 = false
            | Some p => (exists e, e ∈ es /\ is_call e.2 = true /\ hpos e = p) /\
                forall e, e ∈ es -> is_call e.2 = true -> pos_le (hpos e) p
            end;
  rt_counted : cr_last_counted row = fst <$> cr_last row
}.

(** The per-block part of the catalog write, for a sequence of blocks. *)
Definition index_catalog `{Postgres} (chain : string) (hist : list catalog_block) (d : db) : res db :=
  foldM_res (fun d b => upsert_transaction_catalog_aggregates chain (cb_height b) b.1.2 (aggregate_block b.2) d) d hist.

Lemma hcount_app f a b : hcount f (a ++ b) = hcount f a + hcount f b.
Proof. unfold hcount, count. rewrite map_app, List.filter_app, length_app, Nat2Z.inj_add. reflexivity. Qed.
Lemma hcount_block f q b : hcount f (block_hevents q b) = count f (events_of q (block_events b.2)).
Proof. unfold hcount, block_hevents. by rewrite map_map, map_id. Qed.
Lemma elem_of_block_hevents q b e : e ∈ block_hevents q b <-> e.1 = cb_height b /\ e.2 ∈ events_of q (block_events b.2).
Proof.
  unfold block_hevents. rewrite list_elem_of_fmap. split.
  - by intros (x & -> & Hx).
  - intros [H1 H2]. exists e.2. split; [|done]. destruct e; simpl in *; by subst.
Qed.
Lemma count_zero f es : count f es = 0 <-> forall e, e ∈ es -> f e = false.
Proof.
  unfold count. split.
  - intros Hc e He. destruct (f e) eqn:E; [|done].
    assert (Hin : In e (List.filter f es)) by (apply filter_In; split; [by apply list_elem_of_In|done]).
    destruct (List.filter f es); [by destruct Hin|]. cbn [length] in Hc. lia.
  - intros Hf. destruct (List.filter f es) as [|x l] eqn:E; [done|].
    assert (Hin : In x (List.filter f es)) by (rewrite E; by left). apply filter_In in Hin as [Hx Hfx].
    rewrite Hf in Hfx; [done|]. by apply list_elem_of_In.
Qed.
Lemma count_nonneg f es : 0 <= count f es.
Proof. unfold count. lia. Qed.

(** The call part of an aggregate. *)
Lemma called_last es a : path_summary es a ->
  (pa_call_count a =? 0) = false <-> exists l, pa_last_activity_tx_index a = Some l.
Proof.
  intros (_ & _ & Hl & _ & _ & _ & Hc). rewrite Z.eqb_neq, Hc, count_zero. unfold last_ok in Hl.
  destruct (pa_last_activity_tx_index a) as [l|]; split.
  - intros _. by exists l.
  - intros _ Hno. destruct Hl as [(e & He & Hce & _) _]. by rewrite (Hno e He) in Hce.
  - by intros Hc0.
  - by intros [l [=]].
Qed.

(** The first row of a path. *)
Lemma proposed_totals h time a q b : cb_height b = h -> path_summary (events_of q (block_events b.2)) a ->
  row_totals (block_hevents q b) (proposed_row h time a).
Proof.
  intros Hh Hs. pose proof (called_last _ _ Hs) as Hcall. destruct Hs as (Hf & Hd & Hl & H1 & H2 & H3 & H4).
  constructor; rewrite ?hcount_block; try done.
  - exists h. split; [done|]. destruct Hf as [(e & He & _) _]. split.
    + exists (h, e). split; [|done]. by apply elem_of_block_hevents.
    + intros e' [-> _]%elem_of_block_hevents. by subst.
  - simpl. unfold deploy_ok in Hd. destruct (pa_deploy_tx_index a) as [i|]; simpl.
    + destruct Hd as [(e & He & Hde & Hi & Hse) Hmin]. split.
      * exists (h, e). split_and!; try done; [by apply elem_of_block_hevents|]. unfold hpos. simpl. by rewrite Hi.
      * intros e' [He1 He2]%elem_of_block_hevents Hd'. right. unfold hpos. simpl. split; [congruence|by apply Hmin].
    + intros e' [_ He2]%elem_of_block_hevents. by apply Hd.
  - simpl. unfold last_ok in Hl. destruct (pa_call_count a =? 0) eqn:E; simpl.
    + intros e' [_ He2]%elem_of_block_hevents. apply Z.eqb_eq in E. rewrite H4 in E. by apply (proj1 (count_zero _ _) E).
    + destruct (proj1 Hcall eq_refl) as [l Hl']. rewrite Hl' in *. simpl. destruct Hl as [(e & He & Hce & Hi) Hmax]. split.
      * exists (h, e). split_and!; try done; [by apply elem_of_block_hevents|]. unfold hpos. simpl. by rewrite Hi.
      * intros e' [He1 He2]%elem_of_block_hevents Hd'. right. unfold hpos. simpl. split; [congruence|by apply Hmax].
  - simpl. destruct (pa_call_count a =? 0) eqn:E; simpl; [done|]. destruct (proj1 Hcall eq_refl) as [l ->]. done.
Qed.

(** Folding a later block into a row. *)
Section merge.
Context (h : Z) (time : val) (a : PathAggregate) (q : string) (b : catalog_block) (es : list hevent) (row : catalog_row).
Context (Hh : cb_height b = h) (Hpos : 1 <= h) (Hs : path_summary (events_of q (block_events b.2)) a)
  (Hrow : row_totals es row) (Hlt : forall e, e ∈ es -> e.1 < h).
#[local] Abbreviation ex := (proposed_row h time a).
#[local] Abbreviation new := (block_hevents q b).

Lemma merge_counted :
  match cr_last_counted ex with None => false | Some k => default 0 (cr_last_counted row) <? k end =
  negb (pa_call_count a =? 0).
Proof.
  simpl. destruct (pa_call_count a =? 0); simpl; [done|]. apply Z.ltb_lt. rewrite (rt_counted _ _ Hrow).
  pose proof (rt_last _ _ Hrow) as Hl. destruct (cr_last row) as [p|]; simpl; [|lia].
  destruct Hl as [(e & He & _ & <-) _]. by apply Hlt.
Qed.

Lemma no_calls : pa_call_count a = 0 ->
  pa_successful_call_count a = 0 /\ pa_failed_call_count a = 0 /\ pa_unknown_result_call_count a = 0.
Proof.
  destruct Hs as (_ & _ & _ & -> & -> & -> & ->). rewrite count_split.
  pose proof (count_nonneg (fun e => is_call e && has_status "success" e) (events_of q (block_events b.2))).
  pose proof (count_nonneg (fun e => is_call e && has_status "failed" e) (events_of q (block_events b.2))).
  pose proof (count_nonneg (fun e => is_call e && negb (has_status "success" e || has_status "failed" e)) (events_of q (block_events b.2))).
  lia.
Qed.

Lemma new_later e : e ∈ new -> e.1 = h.
Proof. intros [-> _]%elem_of_block_hevents. done. Qed.

Lemma merge_deploy (Hex : row_totals new ex) :
  let r := merge_row row ex in
  match cr_deploy r with
  | None => forall e, e ∈ es ++ new -> is_deployment e.2 = false
  | Some p => (exists e, e ∈ es ++ new /\ is_deployment e.2 = true /\ hpos e = p /\ ob_sender e.2.2 = cr_deployer r) /\
      forall e, e ∈ es ++ new -> is_deployment e.2 = true -> pos_le p (hpos e)
  end.
Proof.
  pose proof (rt_deploy _ _ Hrow) as Ho. pose proof (rt_deploy _ _ Hex) as Hn. unfold merge_row. cbv zeta.
  cbn [cr_deploy cr_deployer]. destruct (cr_deploy row) as [p|] eqn:Ep.
  - destruct Ho as [(e & He & Hd & Hp & Hsd) Hmin].
    assert (Hnot : match cr_deploy ex with Some p0 => pos_ltb p0 p | None => false end = false).
    { destruct (cr_deploy ex) as [p0|]; [|done]. destruct Hn as [(e0 & He0 & _ & <- & _) _].
      apply new_later in He0. specialize (Hlt e He). unfold pos_ltb, hpos. subst p. simpl. lia. }
    rewrite Hnot. split.
    + exists e. split_and!; try done. apply elem_of_app. by left.
    + intros e' [He'|He']%elem_of_app Hd'; [by apply Hmin|]. apply new_later in He'. specialize (Hlt e He).
      left. unfold hpos. subst p. simpl. lia.
  - destruct (cr_deploy ex) as [p|].
    + destruct Hn as [(e & He & Hd & Hp & Hsd) Hmin]. split.
      * exists e. split_and!; try done. apply elem_of_app. by right.
      * intros e' [He'|He']%elem_of_app Hd'; [by rewrite Ho in Hd'|]. by apply Hmin.
    + intros e [He|He]%elem_of_app; [by apply Ho|by apply Hn].
Qed.

Lemma merge_last (Hex : row_totals new ex) :
  let r := merge_row row ex in
  match cr_last r with
  | None => forall e, e ∈ es ++ new -> is_call e.2 = false
  | Some p => (exists e, e ∈ es ++ new /\ is_call e.2 = true /\ hpos e = p) /\
      forall e, e ∈ es ++ new -> is_call e.2 = true -> pos_le (hpos e) p
  end /\ cr_last r = match cr_last ex with Some p => Some p | None => cr_last row end.
Proof.
  pose proof (rt_last _ _ Hrow) as Ho. pose proof (rt_last _ _ Hex) as Hn. unfold merge_row. cbv zeta. cbn [cr_last].
  destruct (cr_last ex) as [p0|] eqn:Ex.
  - destruct Hn as [(e0 & He0 & Hc0 & Hp0) Hmax].
    assert (Hyes : match cr_last row with None => true | Some p => pos_ltb p p0 end = true).
    { destruct (cr_last row) as [p|]; [|done]. destruct Ho as [(e & He & _ & <-) _].
      apply new_later in He0. specialize (Hlt e He). unfold pos_ltb, hpos. subst p0. simpl. lia. }
    rewrite Hyes. split; [|done]. split.
    + exists e0. split_and!; try done. apply elem_of_app. by right.
    + intros e' [He'|He']%elem_of_app Hd'; [|by apply Hmax]. apply new_later in He0. specialize (Hlt e' He').
      left. unfold hpos. subst p0. simpl. lia.
  - split; [|done]. destruct (cr_last row) as [p|].
    + destruct Ho as [(e & He & Hc & Hp) Hmax]. split.
      * exists e. split_and!; try done. apply elem_of_app. by left.
      * intros e' [He'|He']%elem_of_app Hd'; [by apply Hmax|by rewrite Hn in Hd'].
    + intros e [He|He]%elem_of_app; [by apply Ho|by apply Hn].
Qed.

Lemma merge_first (Hex : row_totals new ex) : exists f, cr_first_seen (merge_row row ex) = Some f /\
  (exists e, e ∈ es ++ new /\ e.1 = f) /\ forall e, e ∈ es ++ new -> f <= e.1.
Proof.
  destruct (rt_first _ _ Hrow) as (f & Hf & (e & He & Hef) & Hmin). unfold merge_row. cbn [cr_first_seen]. rewrite Hf.
  simpl. specialize (Hlt e He). exists f. split; [f_equal; lia|]. split.
  - exists e. split; [|done]. apply elem_of_app. by left.
  - intros e' [He'|He']%elem_of_app; [by apply Hmin|]. apply new_later in He'. lia.
Qed.

Lemma merge_totals : row_totals (es ++ new) (merge_row row ex).
Proof.
  pose proof (proposed_totals h time a q b Hh Hs) as Hex. destruct (merge_last Hex) as [Hl1 Hl2].
  pose proof merge_counted as Hcnt.
  assert (Hadd : forall x y f, x = hcount f es -> y = hcount f new -> (pa_call_count a = 0 -> y = 0) ->
    x + (if negb (pa_call_count a =? 0) then y else 0) = hcount f (es ++ new)).
  { intros x y f -> -> H0. rewrite hcount_app. destruct (Z.eqb_spec (pa_call_count a) 0) as [E|E]; simpl; [|done].
    by rewrite (H0 E). }
  constructor.
  - unfold merge_row. cbn [cr_calls]. rewrite Hcnt. apply Hadd; [apply Hrow|apply Hex|done].
  - unfold merge_row. cbn [cr_success]. rewrite Hcnt. apply Hadd; [apply Hrow|apply Hex|apply no_calls].
  - unfold merge_row. cbn [cr_failed]. rewrite Hcnt. apply Hadd; [apply Hrow|apply Hex|apply no_calls].
  - unfold merge_row. cbn [cr_unknown]. rewrite Hcnt. apply Hadd; [apply Hrow|apply Hex|apply no_calls].
  - by apply merge_first.
  - by apply merge_deploy.
  - exact Hl1.
  - rewrite Hl2. unfold merge_row. cbn [cr_last_counted]. rewrite Hcnt.
    pose proof (rt_counted _ _ Hex) as Hce. pose proof (rt_counted _ _ Hrow) as Hcr.
    destruct (pa_call_count a =? 0) eqn:E; simpl in Hce |- *; rewrite ?E in *; simpl in *; [done|].
    by destruct (pa_last_activity_tx_index a).
Qed.
End merge.

(** ** Any sequence of blocks *)
Lemma aggregate_of q txs : events_of q (block_events txs) <> [] ->
  exists a, a ∈ aggregate_block txs /\ pa_path a = q.
Proof.
  intros Hq. destruct (aggregate_block_facts txs) as (_ & _ & Hp & _). apply Hp in Hq.
  apply list_elem_of_fmap in Hq as (a & -> & Ha). by exists a.
Qed.

Definition catalog_matches (chain : string) (d : db) (hist : list catalog_block) : Prop :=
  forall q, match catalog d !! (chain, q) with
            | None => history_events q hist = []
            | Some row => row_totals (history_events q hist) row
            end.

Lemma history_events_snoc q hist b : history_events q (hist ++ [b]) = history_events q hist ++ block_hevents q b.
Proof. unfold history_events. rewrite map_app, concat_app. simpl. by rewrite app_nil_r. Qed.
Lemma block_hevents_nil q b : events_of q (block_events b.2) = [] -> block_hevents q b = [].
Proof. unfold block_hevents. by intros ->. Qed.

Section history.
Context `{Postgres}.

Lemma index_block chain hist b d d' :
  catalog_matches chain d hist -> (forall c, c ∈ hist -> cb_height c < cb_height b) ->
  upsert_transaction_catalog_aggregates chain (cb_height b) b.1.2 (aggregate_block b.2) d = Ok d' ->
  catalog_matches chain d' (hist ++ [b]).
Proof.
  intros Hm Hlt Hu. unfold upsert_transaction_catalog_aggregates in Hu. apply bind_Ok in Hu as ([] & Hh%require_Ok & Hu).
  destruct (aggregate_block_facts b.2) as (_ & Hnd & _ & Hsum).
  apply (fold_rows catalog set_catalog _ _ _ (upsert_aggregate_step chain (cb_height b) b.1.2)) in Hu
    as (s & -> & Hout & Hin); [|rewrite <- (map_map pa_path (fun y => (chain, y))); apply NoDup_fmap_2; [by intros ? ? [= ->]|done]].
  intros q. cbn [catalog set_catalog]. rewrite history_events_snoc.
  destruct (events_of q (block_events b.2)) as [|e es] eqn:E.
  - rewrite (block_hevents_nil _ _ E), app_nil_r. change (s !! (chain, q)) with (at_key (chain, q) s).
    rewrite Hout; [apply Hm|]. intros (a & [= ->] & Ha)%list_elem_of_fmap.
    destruct (aggregate_block_facts b.2) as (_ & _ & Hp & _). apply (proj1 (Hp (pa_path a))); [|done].
    by apply list_elem_of_fmap_2.
  - destruct (aggregate_of q b.2) as (a & Ha & <-); [by rewrite E|]. destruct (Hin a Ha) as [(time & Hrow) _].
    change (s !! (chain, pa_path a)) with (at_key (chain, pa_path a) s). rewrite Hrow.
    specialize (Hm (pa_path a)). change (at_key (chain, pa_path a) (catalog d)) with (catalog d !! (chain, pa_path a)).
    destruct (catalog d !! (chain, pa_path a)) as [row|]; simpl.
    + eapply merge_totals; [done|lia|by apply Hsum|exact Hm|]. intros x Hx. unfold history_events in Hx.
      apply list_elem_of_In, in_concat in Hx as (l & Hl & Hx). apply in_map_iff in Hl as (c & <- & Hc).
      apply list_elem_of_In, elem_of_block_hevents in Hx as [-> _]. apply Hlt. by apply list_elem_of_In.
    + rewrite Hm. by apply proposed_totals; [|apply Hsum].
Qed.

(** C6. Indexing the catalog block by block counts everything once: after any
    sequence of blocks of increasing height, a path has a row exactly when it
    was observed, the row's call counts are the numbers of successful, failed
    and unknown calls in all those blocks, the first-seen height is the least
    one, and the deployment and last-activity positions are the first
    deployment and the last call of the chain's history. *)
Theorem catalog_totals chain hist d : StronglySorted Z.lt (map cb_height hist) ->
  index_catalog chain hist empty_db = Ok d -> catalog_matches chain d hist.
Proof.
  unfold index_catalog. revert d. induction hist as [|b hist IH] using rev_ind; intros d.
  - intros _ [= <-]. intros q. cbn [catalog empty_db]. by rewrite lookup_empty.
  - intros Hs. rewrite map_app in Hs. apply StronglySorted_app in Hs as (Hlt & Hs & _).
    rewrite foldM_res_app. intros (d1 & H1 & H2)%bind_Ok. cbn [foldM_res] in H2. apply bind_Ok in H2 as (d2 & H2 & [= <-]).
    eapply index_block; [by apply IH| |exact H2]. intros c Hc. apply Hlt; [by apply list_elem_of_fmap_2|by left].
Qed.
End history.

(** A deployment, then a failed call two blocks later. *)
Definition demo_message (kind : string) : val :=
  VDict [("type", VStr kind); ("package_path", VStr "gno.land/r/demo"); ("package_path_complete", VBool true)].
Definition demo_observed (kind : string) : val :=
  VDict [("parse_status", VStr "parsed"); ("messages", VList [demo_message kind])].
Definition demo_history : list catalog_block :=
  [(5, VStr "t5", [(0, demo_observed "gno.vm.MsgAddPackage", Some "success")]);
   (7, VStr "t7", [(0, VNone, None); (1, demo_observed "gno.vm.MsgCall", Some "failed")])].
Definition accepting_postgres : Postgres := {|
  pg_text v := match v with VStr s => Ok (Some s) | VNone => Ok None | _ => Raise IntegrityError end;
  pg_jsonb s := Ok (VStr s); pg_timestamp v := Ok v; pg_check _ := Ok tt |}.
Lemma catalog_totals_witness : exists d row, @index_catalog accepting_postgres "dev" demo_history empty_db = Ok d /\
  catalog d !! ("dev", "gno.land/r/demo") = Some row /\
  row_totals (history_events "gno.land/r/demo" demo_history) row /\ cr_failed row = 1 /\ cr_deploy row = Some (5, 0).
Proof.
  eexists _, _. split; [vm_compute; reflexivity|]. split; [vm_compute; reflexivity|]. split; [|by split].
  pose proof (@catalog_totals accepting_postgres "dev" demo_history _
    ltac:(repeat constructor) ltac:(vm_compute; reflexivity) "gno.land/r/demo") as Hm.
  exact Hm.
Defined.
