(* ===== verification/Endpoints.v ===== *)
(** * indexer/database.py: persisted RPC endpoint health and selection

    The tables [rpc_endpoints] and [rpc_endpoint_checks] and the functions that
    record a probe cycle, select an endpoint and record a runtime failure, with
    the unique keys of src/database/schema.sql (one row per URL, one selected
    endpoint per chain) as failures of the statements that would break them. *)
From Stdlib Require Import ZArith NArith Lia Ascii String SpecFloat.
From stdpp Require Import base gmap sets list strings sorting.
From S2P Require Import Prelude PyStr PyVal Codec InspectRpc Rpc.
Open Scope Z_scope.

(** A row of [rpc_endpoints]; its key is the URL. *)
Record endpoint := {
  en_id : Z;
  en_chain : string;
  en_enabled : bool;
  en_selected : bool;
  en_height : option Z;
  en_lag : option Z;
  en_catching_up : val;
  en_healthy : bool;
  en_error : option string;
  en_latency_ms : option Z
}.

(** A row of [rpc_endpoint_checks]. *)
Record endpoint_check := {
  ck_endpoint : Z;
  ck_chain : string;
  ck_height : option Z;
  ck_lag : option Z;
  ck_catching_up : val;
  ck_healthy : bool;
  ck_selected : bool;
  ck_switch_reason : option string;
  ck_error : option string
}.

(** The tables; [next_id] is the identity sequence of [rpc_endpoints]. *)
Record edb := {
  endpoints : gmap string endpoint;
  checks : list endpoint_check;
  next_id : Z
}.
Definition empty_edb : edb := Build_edb ∅ [] 1.

(** ** Durations *)
Definition f_of_val (v : val) : res float :=
  match v with
  | VFloat f => Ok f
  | VInt z => let f := f_of_Z z in if isfinite f then Ok f else Raise OverflowError
  | _ => Raise TypeError
  end.
Definition half : float := f_div (f_of_Z 1) (f_of_Z 2).
(** [math.floor(x)] of a float *)
Definition math_floor (f : float) : res Z :=
  match f with
  | S754_nan => Raise (ValueError "cannot convert float NaN to integer")
  | S754_infinity _ => Raise OverflowError
  | _ => Ok (f_floor f)
  end.
Definition response_seconds_to_latency_ms (value : val) : res (option Z) :=
  match value with
  | VInt _ | VFloat _ =>
      seconds ← f_of_val value;
      if negb (isfinite seconds) || f_ltb seconds f_zero then Ok None
      else ms ← math_floor (f_add (f_mul seconds (f_of_Z 1000)) half);
           Ok (Some (Z.min ms 30000))
  | _ => Ok None
  end.
Definition probe_latency_ms (p : probe) : res (option Z) :=
  response_seconds_to_latency_ms (match pr_response_seconds p with Some f => VFloat f | None => VNone end).

(** ** Statements *)
Definition with_flags (enabled selected : bool) (e : endpoint) : endpoint :=
  Build_endpoint (en_id e) (en_chain e) enabled selected (en_height e) (en_lag e) (en_catching_up e)
    (en_healthy e) (en_error e) (en_latency_ms e).
(** The observed columns, from a probe. *)
Definition with_observation (enabled selected : bool) (p : probe) (latency : option Z) (e : endpoint) : endpoint :=
  Build_endpoint (en_id e) (en_chain e) enabled selected (pr_latest_height p) (pr_observed_lag p) (pr_catching_up p)
    (pr_healthy p) (pr_error_message p) latency.

Definition set_endpoints (m : gmap string endpoint) (d : edb) : edb := Build_edb m (checks d) (next_id d).

(** [UPDATE rpc_endpoints SET ... WHERE <cond>] *)
Definition update_endpoints (cond : string -> endpoint -> bool) (f : endpoint -> endpoint) (d : edb) : edb :=
  set_endpoints (map_imap (fun url e => Some (if cond url e then f e else e)) (endpoints d)) d.

Definition deselect_chain (chain_id : string) : edb -> edb :=
  update_endpoints (fun _ e => String.eqb (en_chain e) chain_id && en_selected e) (fun e => with_flags (en_enabled e) false e).
Definition disable_others (chain_id : string) (configured_urls : list string) : edb -> edb :=
  update_endpoints (fun url e => String.eqb (en_chain e) chain_id && negb (in_strs url configured_urls))
    (with_flags false false).

Definition selected_rows (chain_id : string) (d : edb) : list (string * endpoint) :=
  List.filter (fun ue => String.eqb (en_chain ue.2) chain_id && en_selected ue.2) (map_to_list (endpoints d)).
Definition current_selected_endpoint_id (chain_id : string) (d : edb) : option Z :=
  match selected_rows chain_id d with
  | ue :: _ => Some (en_id ue.2)
  | [] => None
  end.

(** The row [INSERT INTO rpc_endpoints] proposes ([selected] is always false). *)
Definition new_endpoint (id : Z) (chain_id : string) (p : probe) (latency : option Z) : endpoint :=
  Build_endpoint id chain_id true false (pr_latest_height p) (pr_observed_lag p) (pr_catching_up p)
    (pr_healthy p) (pr_error_message p) latency.

(** [_upsert_rpc_endpoint(cursor, chain_id, probe, selected=False)]: the row's
    id; the identity sequence advances for every proposed row. *)
Definition upsert_rpc_endpoint (chain_id : string) (p : probe) (d : edb) : res (Z * edb) :=
  let existing := endpoints d !! pr_url p in
  _ ← raise_if (match existing with Some e => negb (String.eqb (en_chain e) chain_id) | None => false end)
        (ChainIdentityError "Existing RPC URL belongs to another chain_id");
  latency ← probe_latency_ms p;
  let row := match existing with
             | Some e => with_observation true (en_selected e) p latency e
             | None => new_endpoint (next_id d) chain_id p latency
             end in
  Ok (en_id row, Build_edb (<[pr_url p := row]> (endpoints d)) (checks d) (next_id d + 1)).

(** [_mark_rpc_endpoint_selected]: the partial unique index refuses a second
    selected endpoint of one chain. *)
Definition mark_rpc_endpoint_selected (id : Z) (p : probe) (d : edb) : res edb :=
  latency ← probe_latency_ms p;
  let d' := update_endpoints (fun _ e => Z.eqb (en_id e) id) (fun e => with_observation (en_enabled e) true p latency e) d in
  if existsb (fun ue => Z.eqb (en_id ue.2) id && (1 <? Z.of_nat (length (selected_rows (en_chain ue.2) d'))))
       (map_to_list (endpoints d'))
  then Raise IntegrityError else Ok d'.

Definition insert_rpc_endpoint_check (id : Z) (chain_id : string) (p : probe) (switch_reason : option string)
    (d : edb) : edb :=
  Build_edb (endpoints d)
    (checks d ++ [Build_endpoint_check id chain_id (pr_latest_height p) (pr_observed_lag p) (pr_catching_up p)
                    (pr_healthy p) (pr_selected p) switch_reason (pr_error_message p)])
    (next_id d).

(** ** One probe cycle *)

(** [endpoint_ids[probe.url] = _upsert_rpc_endpoint(...)] for every probe. *)
Definition upsert_probe (chain_id : string) (s : list (string * Z) * edb) (p : probe) : res (list (string * Z) * edb) :=
  '(id, d) ← upsert_rpc_endpoint chain_id p s.2;
  Ok (dict_set (pr_url p) id s.1, d).
(** [endpoint_ids[url]] *)
Definition endpoint_id (ids : list (string * Z)) (url : string) : res Z :=
  match dict_get url ids with Some id => Ok id | None => Raise KeyError end.

Definition insert_probe_check (chain_id : string) (ids : list (string * Z)) (switch_reason : option string)
    (d : edb) (p : probe) : res edb :=
  id ← endpoint_id ids (pr_url p);
  Ok (insert_rpc_endpoint_check id chain_id p (if pr_selected p then switch_reason else None) d).

Definition record_rpc_probe_cycle_cursor (chain_id : string) (probes : list probe) (d : edb)
    : res (option Z * edb) :=
  let selected_probe := List.find pr_selected probes in
  let d := disable_others chain_id (map pr_url probes) d in
  let previous_selected_id := current_selected_endpoint_id chain_id d in
  '(endpoint_ids, d) ← foldM_res (upsert_probe chain_id) ([], d) probes;
  selected_endpoint_id ← (match selected_probe with
                          | Some p => Some <$> endpoint_id endpoint_ids (pr_url p)
                          | None => Ok None
                          end);
  let switch_reason := match selected_endpoint_id, previous_selected_id with
                       | Some id, Some old => if Z.eqb old id then None else Some "RPC endpoint switch"
                       | _, _ => None
                       end in
  d ← (match selected_probe, selected_endpoint_id with
       | Some p, Some id => mark_rpc_endpoint_selected id p (deselect_chain chain_id d)
       | _, _ => Ok d
       end);
  d ← foldM_res (insert_probe_check chain_id endpoint_ids switch_reason) d probes;
  Ok (selected_endpoint_id, d).

(** ** Selection and failure during a cycle *)
Definition select_rpc_endpoint_cursor (chain_id : string) (p : probe) (reason : string) (d : edb) : res (Z * edb) :=
  '(id, d) ← upsert_rpc_endpoint chain_id p d;
  if bool_decide (current_selected_endpoint_id chain_id d = Some id) then
    d ← mark_rpc_endpoint_selected id p d;
    Ok (id, d)
  else
    d ← mark_rpc_endpoint_selected id p (deselect_chain chain_id d);
    Ok (id, insert_rpc_endpoint_check id chain_id (with_selected true p) (Some (py_take 80 reason)) d).

(** The probe with [healthy=False, selected=False, error_message=reason[:80]]. *)
Definition failed_runtime_probe (p : probe) (reason : string) : probe :=
  Probe (pr_url p) false false (pr_chain_id p) (pr_latest_height p) (pr_observed_lag p) (pr_catching_up p)
    (Some (py_take 80 reason)) (pr_client p) (pr_status_payload p) (pr_response_seconds p).

Definition record_rpc_runtime_failure_cursor (chain_id : string) (p : probe) (reason : string) (d : edb)
    : res (Z * bool * edb) :=
  let current_id := current_selected_endpoint_id chain_id d in
  let failed := failed_runtime_probe p reason in
  '(id, d) ← upsert_rpc_endpoint chain_id failed d;
  latency ← probe_latency_ms p;
  let d := update_endpoints (fun _ e => Z.eqb (en_id e) id)
             (fun e => Build_endpoint (en_id e) (en_chain e) true false (en_height e) (en_lag e) (en_catching_up e)
                         false (Some (py_take 80 reason)) latency) d in
  Ok (id, bool_decide (current_id = Some id), insert_rpc_endpoint_check id chain_id failed None d).

(** ** The methods of [PostgresDatabase]

    [self.selected_rpc_endpoint_id], and what a commit answers. *)
Record pg_database := { pg_selected : option Z; pg_tables : edb }.

Definition record_rpc_probe_cycle (chain_id : string) (probes : list probe) (commit : res unit) (s : pg_database)
    : res unit * pg_database :=
  match record_rpc_probe_cycle_cursor chain_id probes (pg_tables s) with
  | Raise e => (Raise e, s)
  | Ok (id, d) => match commit with
                  | Ok _ => (Ok tt, Build_pg_database id d)
                  | Raise e => (Raise e, Build_pg_database id (pg_tables s))
                  end
  end.
Definition select_rpc_endpoint (chain_id : string) (p : probe) (reason : string) (commit : res unit) (s : pg_database)
    : res unit * pg_database :=
  match select_rpc_endpoint_cursor chain_id p reason (pg_tables s) with
  | Raise e => (Raise e, s)
  | Ok (id, d) => match commit with
                  | Ok _ => (Ok tt, Build_pg_database (Some id) d)
                  | Raise e => (Raise e, s)
                  end
  end.
Definition record_rpc_runtime_failure (chain_id : string) (p : probe) (reason : string) (commit : res unit)
    (s : pg_database) : res unit * pg_database :=
  match record_rpc_runtime_failure_cursor chain_id p reason (pg_tables s) with
  | Raise e => (Raise e, s)
  | Ok (_, was_selected, d) =>
      match commit with
      | Ok _ => (Ok tt, Build_pg_database (if was_selected then None else pg_selected s) d)
      | Raise e => (Raise e, s)
      end
  end.
(** [get_selected_rpc_url] *)
Definition get_selected_rpc_url (chain_id : string) (d : edb) : option string :=
  match List.filter (fun ue => en_enabled ue.2) (selected_rows chain_id d) with
  | ue :: _ => Some ue.1
  | [] => None
  end.

(** ** Invariant *)
Record endpoints_ok (d : edb) : Prop := {
  eo_ids : forall u v e f, endpoints d !! u = Some e -> endpoints d !! v = Some f -> en_id e = en_id f -> u = v;
  eo_fresh : forall u e, endpoints d !! u = Some e -> en_id e < next_id d;
  eo_one : forall u v e f, endpoints d !! u = Some e -> endpoints d !! v = Some f ->
    en_selected e = true -> en_selected f = true -> en_chain e = en_chain f -> u = v;
  eo_enabled : forall u e, endpoints d !! u = Some e -> en_selected e = true -> en_enabled e = true
}.

Lemma update_lookup cond f d u :
  endpoints (update_endpoints cond f d) !! u = (fun e => if cond u e then f e else e) <$> endpoints d !! u.
Proof. cbn [endpoints update_endpoints set_endpoints]. rewrite map_lookup_imap. by destruct (endpoints d !! u). Qed.
Lemma update_Some cond f d u e : endpoints (update_endpoints cond f d) !! u = Some e <->
  exists e0, endpoints d !! u = Some e0 /\ e = if cond u e0 then f e0 else e0.
Proof. rewrite update_lookup. destruct (endpoints d !! u); naive_solver. Qed.

Lemma elem_of_selected_rows chain d u e : (u, e) ∈ selected_rows chain d <->
  endpoints d !! u = Some e /\ en_chain e = chain /\ en_selected e = true.
Proof.
  unfold selected_rows. rewrite list_elem_of_In, filter_In, <- list_elem_of_In, elem_of_map_to_list. cbn [fst snd].
  rewrite andb_true_iff, String.eqb_eq. naive_solver.
Qed.
Lemma NoDup_selected_rows chain d : NoDup (selected_rows chain d).
Proof.
  unfold selected_rows. apply NoDup_ListNoDup, List.NoDup_filter, NoDup_ListNoDup, NoDup_map_to_list.
Qed.

Lemma selected_rows_one chain d : endpoints_ok d -> (length (selected_rows chain d) <= 1)%nat.
Proof.
  intros Hok. pose proof (NoDup_selected_rows chain d) as Hnd.
  destruct (selected_rows chain d) as [|[u e] [|[v f] l]] eqn:E; simpl; try lia. exfalso.
  assert (Hu : (u, e) ∈ selected_rows chain d) by (rewrite E; by left).
  assert (Hv : (v, f) ∈ selected_rows chain d) by (rewrite E; right; by left).
  apply elem_of_selected_rows in Hu as (Hu & Cu & Su). apply elem_of_selected_rows in Hv as (Hv & Cv & Sv).
  assert (u = v) as -> by (eapply (eo_one _ Hok); eauto; congruence).
  rewrite Hu in Hv. injection Hv as ->. apply NoDup_cons in Hnd as [Hnot _]. apply Hnot. by left.
Qed.

Lemma current_selected_Some chain d id : current_selected_endpoint_id chain d = Some id ->
  exists u e, endpoints d !! u = Some e /\ en_chain e = chain /\ en_selected e = true /\ en_id e = id.
Proof.
  unfold current_selected_endpoint_id. destruct (selected_rows chain d) as [|[u e] l] eqn:E; [done|]. intros [= <-].
  exists u, e. assert (Hu : (u, e) ∈ selected_rows chain d) by (rewrite E; by left).
  apply elem_of_selected_rows in Hu. naive_solver.
Qed.

(** Clearing flags keeps the invariant. *)
Lemma update_ok cond f d : endpoints_ok d ->
  (forall e, en_id (f e) = en_id e /\ en_chain (f e) = en_chain e) ->
  (forall u e, endpoints d !! u = Some e -> cond u e = true -> en_selected (f e) = true ->
     en_selected e = true /\ en_enabled (f e) = true) ->
  endpoints_ok (update_endpoints cond f d).
Proof.
  intros Hok Hid Hsel.
  assert (Hkey : forall u e, en_id (if cond u e then f e else e) = en_id e /\ en_chain (if cond u e then f e else e) = en_chain e).
  { intros u e. destruct (cond u e); [apply Hid|done]. }
  assert (Hs : forall u e, endpoints d !! u = Some e -> en_selected (if cond u e then f e else e) = true ->
    en_selected e = true /\ en_enabled (if cond u e then f e else e) = true).
  { intros u e He Hse. destruct (cond u e) eqn:E; [by apply (Hsel u)|]. split; [done|]. by apply (eo_enabled _ Hok u). }
  constructor.
  - intros u v e g (e0 & He & ->)%update_Some (g0 & Hg & ->)%update_Some.
    rewrite (proj1 (Hkey u e0)), (proj1 (Hkey v g0)). by apply (eo_ids _ Hok).
  - intros u e (e0 & He & ->)%update_Some. rewrite (proj1 (Hkey u e0)). apply (eo_fresh _ Hok _ _ He).
  - intros u v e g (e0 & He & ->)%update_Some (g0 & Hg & ->)%update_Some [S1 _]%(Hs u e0 He) [S2 _]%(Hs v g0 Hg).
    rewrite (proj2 (Hkey u e0)), (proj2 (Hkey v g0)). by apply (eo_one _ Hok).
  - intros u e (e0 & He & ->)%update_Some [_ Hen]%(Hs u e0 He). done.
Qed.

(** One upsert: its row, and what stays. *)
Record upserted (chain : string) (p : probe) (id : Z) (d d' : edb) (row : endpoint) : Prop := {
  up_endpoints : endpoints d' = <[pr_url p := row]> (endpoints d);
  up_id : en_id row = id;
  up_chain : en_chain row = chain;
  up_enabled : en_enabled row = true;
  up_selected : en_selected row = match endpoints d !! pr_url p with Some e => en_selected e | None => false end;
  up_old : forall e, endpoints d !! pr_url p = Some e -> en_id e = id /\ en_chain e = chain;
  up_checks : checks d' = checks d;
  up_health : en_healthy row = pr_healthy p
}.

Lemma upsert_Ok chain p d id d' : upsert_rpc_endpoint chain p d = Ok (id, d') ->
  exists row, upserted chain p id d d' row /\ next_id d' = next_id d + 1 /\
    (endpoints d !! pr_url p = None -> id = next_id d).
Proof.
  unfold upsert_rpc_endpoint. intros Hu. apply bind_Ok in Hu as ([] & Hc & Hu). apply raise_if_Ok in Hc.
  apply bind_Ok in Hu as (lat & _ & Hu). apply Ok_inj in Hu as [= <- <-].
  destruct (endpoints d !! pr_url p) as [e|] eqn:E.
  - apply negb_false_iff, String.eqb_eq in Hc. exists (with_observation true (en_selected e) p lat e).
    split; [|done]. constructor; rewrite ?E; try done. by intros ? [= <-].
  - exists (new_endpoint (next_id d) chain p lat). split; [|done]. constructor; try done; by rewrite ?E.
Qed.

Lemma upsert_ok chain p d id d' : endpoints_ok d -> upsert_rpc_endpoint chain p d = Ok (id, d') -> endpoints_ok d'.
Proof.
  intros Hok (row & Hu & Hn & Hfresh)%upsert_Ok. destruct Hu as [He Hid Hch Hen Hsel Hold _ _].
  assert (Hother : forall v g, v <> pr_url p -> endpoints d' !! v = Some g -> endpoints d !! v = Some g).
  { intros v g Hne. by rewrite He, lookup_insert_ne. }
  assert (Hself : forall g, endpoints d' !! pr_url p = Some g -> g = row).
  { intros g. rewrite He, lookup_insert_eq. by intros [= <-]. }
  assert (Hidne : forall v g, v <> pr_url p -> endpoints d !! v = Some g -> en_id g <> en_id row).
  { intros v g Hne Hg. rewrite Hid. destruct (endpoints d !! pr_url p) as [e|] eqn:E.
    - destruct (Hold e eq_refl) as [<- _]. intros Heq. apply Hne. by eapply (eo_ids _ Hok).
    - rewrite (Hfresh eq_refl). pose proof (eo_fresh _ Hok _ _ Hg). lia. }
  constructor.
  - intros u v e g Hu Hv Heq. destruct (decide (u = pr_url p)) as [->|Nu], (decide (v = pr_url p)) as [->|Nv]; try done.
    + apply Hself in Hu as ->. apply Hother in Hv; [|done]. exfalso. by apply (Hidne _ _ Nv Hv).
    + apply Hself in Hv as ->. apply Hother in Hu; [|done]. exfalso. by apply (Hidne _ _ Nu Hu).
    + eapply (eo_ids _ Hok); [by apply Hother|by apply Hother|done].
  - intros u e Hu. rewrite Hn. destruct (decide (u = pr_url p)) as [->|Nu].
    + apply Hself in Hu as ->. rewrite Hid. destruct (endpoints d !! pr_url p) as [e0|] eqn:E.
      * destruct (Hold e0 eq_refl) as [<- _]. pose proof (eo_fresh _ Hok _ _ E). lia.
      * rewrite (Hfresh eq_refl). lia.
    + apply Hother in Hu; [|done]. pose proof (eo_fresh _ Hok _ _ Hu). lia.
  - assert (Hrow : forall v g, v <> pr_url p -> endpoints d !! v = Some g -> en_selected g = true ->
      en_chain g = en_chain row -> en_selected row = false).
    { intros v g Nv Hg Sg Cg. rewrite Hsel. destruct (endpoints d !! pr_url p) as [e|] eqn:E; [|done].
      destruct (en_selected e) eqn:Se; [|done]. exfalso. apply Nv. apply (eo_one _ Hok v (pr_url p) g e Hg E Sg Se).
      rewrite Cg, Hch. symmetry. by apply Hold. }
    intros u v e g Hu Hv Se Sg Hc. destruct (decide (u = pr_url p)) as [->|Nu], (decide (v = pr_url p)) as [->|Nv]; try done.
    + apply Hself in Hu as ->. apply Hother in Hv; [|done]. by rewrite (Hrow v g) in Se.
    + apply Hself in Hv as ->. apply Hother in Hu; [|done]. by rewrite (Hrow u e) in Sg.
    + eapply (eo_one _ Hok); [by apply Hother|by apply Hother|done|done|done].
  - intros u e Hu. destruct (decide (u = pr_url p)) as [->|Nu]; [by apply Hself in Hu as ->|].
    apply Hother in Hu; [|done]. by apply (eo_enabled _ Hok u).
Qed.

(** ** Selecting one endpoint *)
Section mark.
Context (d : edb) (url : string) (row : endpoint) (p : probe) (lat : option Z).
Context (Hok : endpoints_ok d) (Hrow : endpoints d !! url = Some row) (Hen : en_enabled row = true).
Context (Hone : forall u e, endpoints d !! u = Some e -> en_chain e = en_chain row -> en_selected e = true -> u = url).
Context (Hlat : probe_latency_ms p = Ok lat).
#[local] Abbreviation marked :=
  (update_endpoints (fun _ e => Z.eqb (en_id e) (en_id row)) (fun e => with_observation (en_enabled e) true p lat e) d).

Lemma marked_self : endpoints marked !! url = Some (with_observation true true p lat row).
Proof. rewrite update_lookup, Hrow. simpl. by rewrite Z.eqb_refl, Hen. Qed.
Lemma marked_other u : u <> url -> endpoints marked !! u = endpoints d !! u.
Proof.
  intros Hne. rewrite update_lookup. destruct (endpoints d !! u) as [e|] eqn:E; [|done]. simpl.
  destruct (Z.eqb_spec (en_id e) (en_id row)) as [Heq|]; [|done]. destruct Hne. by eapply (eo_ids _ Hok).
Qed.

Lemma marked_ok : endpoints_ok marked.
Proof.
  pose proof marked_self as Hself. pose proof marked_other as Hother.
  assert (Hget : forall u e, endpoints marked !! u = Some e ->
    (u = url /\ e = with_observation true true p lat row) \/ (u <> url /\ endpoints d !! u = Some e)).
  { intros u e He. destruct (decide (u = url)) as [->|Hne].
    - rewrite Hself in He. injection He as <-. by left.
    - rewrite Hother in He by done. by right. }
  constructor.
  - intros u v e f [[-> ->]|[Nu He]]%Hget [[-> ->]|[Nv Hf]]%Hget; simpl; try done.
    + intros Heq. destruct Nv. by eapply (eo_ids _ Hok); [exact Hf|exact Hrow|].
    + intros Heq. destruct Nu. by eapply (eo_ids _ Hok).
    + by apply (eo_ids _ Hok).
  - intros u e [[-> ->]|[Nu He]]%Hget; simpl; by apply (eo_fresh _ Hok _ _ ltac:(eassumption)).
  - intros u v e f [[-> ->]|[Nu He]]%Hget [[-> ->]|[Nv Hf]]%Hget Se Sf; simpl; try done.
    + intros Heq. destruct Nv. by eapply Hone.
    + intros Heq. destruct Nu. by eapply Hone.
    + by apply (eo_one _ Hok).
  - intros u e [[-> ->]|[Nu He]]%Hget; [done|]. by apply (eo_enabled _ Hok u).
Qed.

Lemma mark_Ok : mark_rpc_endpoint_selected (en_id row) p d = Ok marked.
Proof.
  unfold mark_rpc_endpoint_selected. rewrite Hlat. cbn [mbind res_bind]. cbv zeta.
  destruct (existsb _ _) eqn:E; [|done]. apply existsb_exists in E as ([u e] & _ & E).
  apply andb_prop in E as [_ E%Z.ltb_lt]. pose proof (selected_rows_one (en_chain (u, e).2) _ marked_ok). lia.
Qed.
End mark.

(** Clearing the chain's selection leaves nothing to conflict with. *)
Lemma deselected chain d url row : endpoints_ok d -> endpoints d !! url = Some row -> en_chain row = chain ->
  en_enabled row = true ->
  endpoints_ok (deselect_chain chain d) /\
  exists r, endpoints (deselect_chain chain d) !! url = Some r /\ en_id r = en_id row /\ en_chain r = chain /\
    en_enabled r = true /\
    forall u g, endpoints (deselect_chain chain d) !! u = Some g -> en_chain g = en_chain r -> en_selected g = true -> u = url.
Proof.
  intros Hok Hrow Hc Hen. split; [apply update_ok; [done|done|]; by intros u g _ _ [=]|].
  assert (Hr : exists r, endpoints (deselect_chain chain d) !! url = Some r /\ en_id r = en_id row /\ en_chain r = chain /\
    en_enabled r = true).
  { unfold deselect_chain. rewrite update_lookup, Hrow. simpl. rewrite Hc, String.eqb_refl. simpl. destruct (en_selected row); eauto. }
  destruct Hr as (r & Hr & Hi & Hrc & He). exists r. split_and!; try done. intros u g (g0 & Hg & ->)%update_Some. rewrite Hrc.
  destruct (String.eqb_spec (en_chain g0) chain), (en_selected g0) eqn:Es; simpl; congruence.
Qed.

(** ** The cycle's upserts *)
Lemma upserts_run chain l ids d : endpoints_ok d ->
  Forall (fun p => is_Ok (probe_latency_ms p) = true) l ->
  (forall p e, p ∈ l -> endpoints d !! pr_url p = Some e -> en_chain e = chain) ->
  exists ids' d', foldM_res (upsert_probe chain) (ids, d) l = Ok (ids', d') /\ endpoints_ok d' /\
    checks d' = checks d /\
    (forall u, u ∉ map pr_url l -> endpoints d' !! u = endpoints d !! u /\ dict_get u ids' = dict_get u ids) /\
    (forall u, u ∈ map pr_url l -> exists e, endpoints d' !! u = Some e /\ dict_get u ids' = Some (en_id e) /\
       en_chain e = chain /\ en_enabled e = true).
Proof.
  revert ids d. induction l as [|p l IH]; intros ids d Hok Hlat Hch.
  - exists ids, d. split_and!; try done. intros u Hu. by apply elem_of_nil in Hu.
  - apply Forall_cons in Hlat as [Hp Hlat]. destruct (probe_latency_ms p) as [lat|e] eqn:El; [|done].
    assert (Hup : exists id d1, upsert_rpc_endpoint chain p d = Ok (id, d1)).
    { unfold upsert_rpc_endpoint. rewrite El. destruct (endpoints d !! pr_url p) as [e|] eqn:E.
      - rewrite (Hch p e ltac:(by left) E), String.eqb_refl. simpl. eauto.
      - simpl. eauto. }
    destruct Hup as (id & d1 & Hup). pose proof (upsert_ok _ _ _ _ _ Hok Hup) as Hok1.
    destruct (upsert_Ok _ _ _ _ _ Hup) as (row & [He Hid Hc Hen _ _ Hck _] & _ & _).
    destruct (IH (dict_set (pr_url p) id ids) d1 Hok1 Hlat) as (ids' & d' & Hrun & Hok' & Hck' & Hout & Hin).
    { intros q e Hq. rewrite He. intros [[_ <-]|[_ Hq']]%lookup_insert_Some; [done|]. apply (Hch q); [by right|done]. }
    assert (Hhead : upsert_probe chain (ids, d) p = Ok (dict_set (pr_url p) id ids, d1)).
    { unfold upsert_probe. cbn [fst snd]. by rewrite Hup. }
    exists ids', d'. cbn [foldM_res]. rewrite Hhead. cbn [mbind res_bind].
    split_and!; [done|done|by rewrite Hck'| |].
    + intros u [Hne Hu]%not_elem_of_cons. destruct (Hout u Hu) as [-> ->]. rewrite He, lookup_insert_ne by done.
      split; [done|]. by apply dict_get_set_ne.
    + intros u Hu. destruct (decide (u ∈ map pr_url l)) as [Hl|Hl]; [by apply Hin|].
      apply elem_of_cons in Hu as [->|Hu]; [|done]. destruct (Hout _ Hl) as [-> ->].
      exists row. rewrite He, lookup_insert_eq, dict_get_set, Hid. done.
Qed.

Lemma checks_run chain ids reason l d : (forall p, p ∈ l -> exists id, dict_get (pr_url p) ids = Some id) ->
  exists cs, foldM_res (insert_probe_check chain ids reason) d l =
      Ok (Build_edb (endpoints d) (checks d ++ cs) (next_id d)) /\
    map ck_selected cs = map pr_selected l /\ map ck_healthy cs = map pr_healthy l.
Proof.
  revert d. induction l as [|p l IH]; intros d Hids.
  - exists []. cbn. rewrite app_nil_r. split; [by destruct d|done].
  - destruct (Hids p ltac:(by left)) as [id Hid]. cbn [foldM_res].
    assert (Hhead : insert_probe_check chain ids reason d p =
      Ok (insert_rpc_endpoint_check id chain p (if pr_selected p then reason else None) d)).
    { unfold insert_probe_check, endpoint_id. by rewrite Hid. }
    rewrite Hhead. cbn [mbind res_bind].
    destruct (IH (insert_rpc_endpoint_check id chain p (if pr_selected p then reason else None) d)
      ltac:(intros q Hq; apply Hids; by right)) as (cs & -> & Hs & Hh).
    eexists (_ :: cs). simpl. rewrite <- app_assoc. simpl. split; [done|]. by rewrite Hs, Hh.
Qed.

(** ** A recorded probe cycle *)
Record cycle_recorded (chain : string) (probes : list probe) (d : edb) (id : option Z) (d' : edb) : Prop := {
  cy_ok : endpoints_ok d';
  cy_others : forall u e, en_chain e <> chain -> endpoints d' !! u = Some e <-> endpoints d !! u = Some e;
  cy_enabled : forall u e, endpoints d' !! u = Some e -> en_chain e = chain ->
    (en_enabled e = true <-> u ∈ map pr_url probes);
  cy_stored : forall p, p ∈ probes -> is_Some (endpoints d' !! pr_url p);
  cy_selected : match List.find pr_selected probes with
                | Some p => exists e, endpoints d' !! pr_url p = Some e /\ id = Some (en_id e) /\ en_chain e = chain /\
                    forall u f, endpoints d' !! u = Some f -> en_chain f = chain -> (en_selected f = true <-> u = pr_url p)
                | None => id = None
                end;
  cy_checks : exists cs, checks d' = checks d ++ cs /\ map ck_selected cs = map pr_selected probes /\
    map ck_healthy cs = map pr_healthy probes
}.

Lemma with_flags_id a b e : en_id (with_flags a b e) = en_id e /\ en_chain (with_flags a b e) = en_chain e.
Proof. done. Qed.

Section cycle.
Context (chain : string) (probes : list probe) (d : edb).
Context (Hok : endpoints_ok d) (Hlat : Forall (fun p => is_Ok (probe_latency_ms p) = true) probes).
Context (Hch : forall p e, p ∈ probes -> endpoints d !! pr_url p = Some e -> en_chain e = chain).
#[local] Abbreviation d1 := (disable_others chain (map pr_url probes) d).

Lemma disable_lookup u : endpoints d1 !! u =
  (fun e => if String.eqb (en_chain e) chain && negb (in_strs u (map pr_url probes)) then with_flags false false e else e)
    <$> endpoints d !! u.
Proof. apply update_lookup. Qed.
Lemma disabled_ok : endpoints_ok d1.
Proof. apply update_ok; [done|done|]. by intros u e _ _ [=]. Qed.

Lemma upserts_after : exists ids d2, foldM_res (upsert_probe chain) ([], d1) probes = Ok (ids, d2) /\
  endpoints_ok d2 /\ checks d2 = checks d /\
  (forall u, u ∉ map pr_url probes -> endpoints d2 !! u = endpoints d1 !! u) /\
  (forall u, u ∈ map pr_url probes -> exists e, endpoints d2 !! u = Some e /\ dict_get u ids = Some (en_id e) /\
     en_chain e = chain /\ en_enabled e = true).
Proof.
  destruct (upserts_run chain probes [] d1 disabled_ok Hlat) as (ids & d2 & H1 & H2 & H3 & H4 & H5).
  - intros p e Hp. rewrite disable_lookup. destruct (endpoints d !! pr_url p) as [e0|] eqn:E; [|done]. intros [= <-].
    rewrite <- (Hch p e0 Hp E). by destruct (_ && _).
  - exists ids, d2. split_and!; try done. intros u Hu. by apply H4.
Qed.

(** Rows of other chains, and which rows are enabled, once the configured
    endpoints are upserted; selection flags do not matter for either. *)
Lemma upserted_rows d2 :
  (forall u, u ∉ map pr_url probes -> endpoints d2 !! u = endpoints d1 !! u) ->
  (forall u, u ∈ map pr_url probes -> exists e, endpoints d2 !! u = Some e /\ en_chain e = chain /\ en_enabled e = true) ->
  (forall u e, en_chain e <> chain -> endpoints d2 !! u = Some e <-> endpoints d !! u = Some e) /\
  (forall u e, endpoints d2 !! u = Some e -> en_chain e = chain -> (en_enabled e = true <-> u ∈ map pr_url probes)).
Proof.
  intros Hout Hin. split.
  - intros u e Hne. destruct (decide (u ∈ map pr_url probes)) as [Hu|Hu].
    + destruct (Hin u Hu) as (e2 & He2 & Hc & _). rewrite He2. split; [by intros [= ->]|]. intros He.
      apply list_elem_of_fmap in Hu as (p & -> & Hp). by rewrite (Hch p e Hp He) in Hne.
    + rewrite (Hout u Hu), disable_lookup. destruct (endpoints d !! u) as [e0|]; [|done]. simpl. split.
      * intros [= <-]. destruct (String.eqb_spec (en_chain e0) chain) as [Heq|]; [|done].
        exfalso. apply Hne. by destruct (negb _).
      * intros [= ->]. destruct (String.eqb_spec (en_chain e) chain); done.
  - intros u e He Hc. destruct (decide (u ∈ map pr_url probes)) as [Hu|Hu].
    + destruct (Hin u Hu) as (e2 & He2 & _ & Hen). rewrite He2 in He. injection He as <-. by rewrite Hen.
    + rewrite (Hout u Hu), disable_lookup in He. destruct (endpoints d !! u) as [e0|]; [|done]. injection He as <-.
      assert (Hs : in_strs u (map pr_url probes) = false) by (apply not_true_iff_false; by rewrite in_strs_spec).
      rewrite Hs in *. destruct (String.eqb_spec (en_chain e0) chain) as [Heq|Hne']; simpl in *; [|done].
      split; [done|]. by intros Hu'.
Qed.

Lemma find_selected p : List.find pr_selected probes = Some p -> p ∈ probes.
Proof. intros [Hp _]%find_some. by apply list_elem_of_In. Qed.

(** The selection of the cycle's selected endpoint among the upserted rows. *)
Lemma select_after d2 p e : endpoints_ok d2 -> endpoints d2 !! pr_url p = Some e -> en_chain e = chain ->
  en_enabled e = true -> p ∈ probes ->
  exists d3, mark_rpc_endpoint_selected (en_id e) p (deselect_chain chain d2) = Ok d3 /\ endpoints_ok d3 /\
    checks d3 = checks d2 /\
    (exists e3, endpoints d3 !! pr_url p = Some e3 /\ en_id e3 = en_id e /\ en_chain e3 = chain) /\
    (forall u, exists f, endpoints d3 !! u = f <$> endpoints d2 !! u /\
       forall g, endpoints d2 !! u = Some g -> en_chain (f g) = en_chain g /\ en_enabled (f g) = en_enabled g /\
         (en_chain g <> chain -> f g = g) /\ (en_chain g = chain -> (en_selected (f g) = true <-> u = pr_url p))).
Proof.
  intros Hok2 He Hc Hen Hp. rewrite Forall_forall in Hlat. specialize (Hlat p Hp).
  destruct (probe_latency_ms p) as [lat|] eqn:El; [|done].
  destruct (deselected _ _ _ _ Hok2 He Hc Hen) as (Hdok & row & Hrow & Hid & Hrc & Hre & Hone). rewrite <- Hid.
  pose proof (mark_Ok _ _ _ _ _ Hdok Hrow Hre Hone El) as Hm. eexists. split; [exact Hm|].
  split_and!; [by eapply marked_ok|done| |].
  - eexists. split; [by eapply marked_self|]. done.
  - intros u. eexists (fun g => let g' := if String.eqb (en_chain g) chain && en_selected g then with_flags (en_enabled g) false g else g in
      if Z.eqb (en_id g') (en_id row) then with_observation (en_enabled g') true p lat g' else g').
    split; [rewrite update_lookup; unfold deselect_chain; rewrite update_lookup; by destruct (endpoints d2 !! u)|].
    intros g Hg. cbv zeta. set (g' := if String.eqb (en_chain g) chain && en_selected g then _ else g).
    assert (Hg' : en_id g' = en_id g /\ en_chain g' = en_chain g /\ en_enabled g' = en_enabled g /\
      (en_chain g <> chain -> g' = g) /\ (en_chain g = chain -> en_selected g' = false)).
    { unfold g'. destruct (String.eqb_spec (en_chain g) chain), (en_selected g) eqn:Es; simpl; naive_solver. }
    destruct Hg' as (G1 & G2 & G3 & G4 & G5). rewrite G1, Hid.
    destruct (Z.eqb_spec (en_id g) (en_id e)) as [Heq|Hne].
    + assert (u = pr_url p) as -> by (by eapply (eo_ids _ Hok2)). rewrite He in Hg. injection Hg as ->. simpl.
      split_and!; try done.
    + split_and!; try done. intros Hgc. rewrite (G5 Hgc). split; [done|]. intros ->. rewrite He in Hg. by injection Hg as ->.
Qed.

Lemma cycle_facts : exists id d', record_rpc_probe_cycle_cursor chain probes d = Ok (id, d') /\
  cycle_recorded chain probes d id d'.
Proof.
  destruct upserts_after as (ids & d2 & Hrun & Hok2 & Hck & Hout & Hin).
  destruct (upserted_rows d2 Hout) as [Hother Hen]; [intros u Hu; destruct (Hin u Hu) as (e & ? & ? & ? & ?); by exists e|].
  assert (Hids : forall p, p ∈ probes -> exists id, dict_get (pr_url p) ids = Some id).
  { intros p Hp. destruct (Hin (pr_url p)) as (e & _ & Hd & _); [by apply list_elem_of_fmap_2|eauto]. }
  unfold record_rpc_probe_cycle_cursor. cbv zeta. rewrite Hrun. cbn [mbind res_bind].
  destruct (List.find pr_selected probes) as [p|] eqn:Ef.
  - pose proof (find_selected p Ef) as Hp. destruct (Hin (pr_url p)) as (e & He & Hd & Hc & He1); [by apply list_elem_of_fmap_2|].
    unfold endpoint_id. rewrite Hd. cbn [fmap res_fmap mbind res_bind].
    destruct (select_after d2 p e Hok2 He Hc He1 Hp) as (d3 & Hm & Hok3 & Hck3 & (e3 & He3 & Hid3 & Hc3) & Hall).
    rewrite Hm. cbn [mbind res_bind]. edestruct (checks_run chain ids) as (cs & Hcs & Hs & Hh); [exact Hids|]. rewrite Hcs.
    eexists _, _. split; [done|]. constructor.
    + by destruct Hok3; constructor.
    + intros u f Hne. rewrite <- (Hother u f Hne). destruct (Hall u) as (g & Hg & Hgs). cbn [endpoints]. rewrite Hg.
      destruct (endpoints d2 !! u) as [x|] eqn:Ex; [|done]. destruct (Hgs x eq_refl) as (G1 & _ & G3 & _). simpl. split.
      * intros [= <-]. rewrite G1 in Hne. by rewrite (G3 Hne).
      * intros [= ->]. by rewrite (G3 Hne).
    + intros u f Hf Hfc. destruct (Hall u) as (g & Hg & Hgs). cbn [endpoints] in Hf. rewrite Hg in Hf.
      destruct (endpoints d2 !! u) as [x|] eqn:Ex; [|done]. destruct (Hgs x eq_refl) as (G1 & G2 & _). injection Hf as <-.
      rewrite G2. apply (Hen u x Ex). congruence.
    + intros q Hq. destruct (Hin (pr_url q)) as (x & Hx & _); [by apply list_elem_of_fmap_2|].
      destruct (Hall (pr_url q)) as (g & Hg & _). cbn [endpoints]. rewrite Hg, Hx. by eexists.
    + rewrite Ef. exists e3. cbn [endpoints]. split_and!; [done|by rewrite Hid3|done|]. intros u f Hf Hfc.
      destruct (Hall u) as (g & Hg & Hgs). rewrite Hg in Hf. destruct (endpoints d2 !! u) as [x|] eqn:Ex; [|done].
      destruct (Hgs x eq_refl) as (G1 & _ & _ & G4). injection Hf as <-. apply G4. congruence.
    + exists cs. cbn [checks]. by rewrite Hck3, Hck.
  - cbn [fmap res_fmap mbind res_bind]. edestruct (checks_run chain ids) as (cs & Hcs & Hs & Hh); [exact Hids|]. rewrite Hcs.
    eexists _, _. split; [done|]. constructor; cbn [endpoints checks].
    + by destruct Hok2; constructor.
    + exact Hother.
    + exact Hen.
    + intros q Hq. destruct (Hin (pr_url q)) as (x & Hx & _); [by apply list_elem_of_fmap_2|]. by exists x.
    + by rewrite Ef.
    + exists cs. by rewrite Hck.
Qed.
End cycle.


(** ** Runtime failures, selection during a cycle, durations *)
Lemma upsert_selected_in_chain chain p d id d' : endpoints_ok d -> upsert_rpc_endpoint chain p d = Ok (id, d') ->
  exists row, endpoints d' !! pr_url p = Some row /\ en_id row = id /\ en_chain row = chain /\ en_enabled row = true /\
    endpoints_ok d' /\ endpoints d' = <[pr_url p := row]> (endpoints d) /\
    (forall u e, u <> pr_url p -> endpoints d' !! u = Some e -> endpoints d !! u = Some e).
Proof.
  intros Hok Hu. pose proof (upsert_ok _ _ _ _ _ Hok Hu) as Hok'. destruct (upsert_Ok _ _ _ _ _ Hu) as (row & [He Hid Hc Hen _ _ _ _] & _).
  exists row. rewrite He, lookup_insert_eq. split_and!; try done. intros u e Hne. by rewrite lookup_insert_ne.
Qed.

Lemma selected_visible chain url d e : endpoints_ok d -> endpoints d !! url = Some e -> en_chain e = chain ->
  en_selected e = true ->
  current_selected_endpoint_id chain d = Some (en_id e) /\ get_selected_rpc_url chain d = Some url.
Proof.
  intros Hok He Hec Hes. assert (Hin : (url, e) ∈ selected_rows chain d) by by apply elem_of_selected_rows.
  pose proof (selected_rows_one chain d Hok) as Hone. unfold current_selected_endpoint_id, get_selected_rpc_url.
  destruct (selected_rows chain d) as [|ue [|]]; simpl in Hone; [by apply elem_of_nil in Hin| |lia].
  apply list_elem_of_singleton in Hin as <-. simpl. by rewrite (eo_enabled _ Hok _ _ He Hes).
Qed.

(** Selecting an endpoint moves the selection: afterwards the probe's
    endpoint is the chain's only selected one, enabled, and the returned id is
    its id. *)
Theorem select_rpc_endpoint_moves chain p reason d id d' :
  endpoints_ok d -> select_rpc_endpoint_cursor chain p reason d = Ok (id, d') ->
  endpoints_ok d' /\ current_selected_endpoint_id chain d' = Some id /\ get_selected_rpc_url chain d' = Some (pr_url p).
Proof.
  intros Hok Hs. unfold select_rpc_endpoint_cursor in Hs. apply bind_Ok in Hs as ([id0 d1] & Hu & Hs).
  pose proof (upsert_selected_in_chain _ _ _ _ _ Hok Hu) as (row & Hrow & Hid & Hc & Hen & Hok1 & _).
  assert (Hlat : exists lat, probe_latency_ms p = Ok lat).
  { unfold upsert_rpc_endpoint in Hu. apply bind_Ok in Hu as (? & _ & Hu). apply bind_Ok in Hu as (lat & Hl & _). eauto. }
  destruct Hlat as [lat Hl].
  pose proof (selected_visible chain (pr_url p)) as Hfin.
  destruct (bool_decide _) eqn:Ecur.
  - apply bool_decide_eq_true in Ecur. apply current_selected_Some in Ecur as (u & e & He & Hec & Hes & Hei).
    assert (u = pr_url p) as -> by (eapply (eo_ids _ Hok1); [exact He|exact Hrow|congruence]).
    rewrite Hrow in He. injection He as <-.
    assert (Hone : forall v f, endpoints d1 !! v = Some f -> en_chain f = en_chain row -> en_selected f = true -> v = pr_url p).
    { intros v f Hf Hcf Hsf. by eapply (eo_one _ Hok1). }
    subst id0. rewrite (mark_Ok _ _ _ _ _ Hok1 Hrow Hen Hone Hl) in Hs. apply Ok_inj in Hs as [= <- <-].
    pose proof (marked_ok _ _ _ p lat Hok1 Hrow Hen Hone) as Hok3. split; [exact Hok3|].
    by apply (Hfin _ _ Hok3 (marked_self _ _ _ p lat Hrow Hen)).
  - apply bind_Ok in Hs as (d3 & Hm & Hs). apply Ok_inj in Hs as [= <- <-].
    destruct (deselected _ _ _ _ Hok1 Hrow Hc Hen) as (Hdok & r' & Hr' & Hi' & Hc' & He' & Hone).
    assert (id0 = en_id r') as -> by congruence.
    rewrite (mark_Ok _ _ _ _ _ Hdok Hr' He' Hone Hl) in Hm. apply Ok_inj in Hm as <-.
    pose proof (marked_ok _ _ _ p lat Hdok Hr' He' Hone) as Hok3. split; [by destruct Hok3; constructor|].
    by apply (Hfin _ _ Hok3 (marked_self _ _ _ p lat Hr' He')).
Qed.

(** The sign of the duration arithmetic. *)
Definition nonneg (f : float) : bool :=
  match f with
  | S754_zero _ | S754_infinity false | S754_finite false _ _ | S754_nan => true
  | _ => false
  end.
Lemma round_aux_nonneg m e l : nonneg (binary_round_aux 53 1024 false m e l) = true.
Proof.
  unfold binary_round_aux. destruct (shr_fexp _ _ _ _ _) as [r1 e1]. destruct (shr_fexp _ _ _ _ _) as [r2 e2].
  destruct (shr_m r2); try done. by destruct (_ <=? _).
Qed.
Lemma round_nonneg m e : nonneg (binary_round 53 1024 false m e) = true.
Proof. unfold binary_round. case_match. apply round_aux_nonneg. Qed.
Lemma f_mul_nonneg a k : nonneg a = true -> nonneg (f_mul a (S754_finite false k 0)) = true.
Proof. destruct a as [[]|[]| |[] m e]; try done. intros _. apply round_aux_nonneg. Qed.
Lemma f_add_nonneg a m e : nonneg a = true -> nonneg (f_add a (S754_finite false m e)) = true.
Proof. destruct a as [[]|[]| |[] k j]; try done. intros _. apply round_nonneg. Qed.
Lemma floor_nonneg f z : nonneg f = true -> math_floor f = Ok z -> 0 <= z.
Proof.
  destruct f as [[]|[]| |[] m e]; try done; simpl; try (by intros _ [= <-]). intros _ [= <-].
  destruct (0 <=? e) eqn:E; [apply Z.mul_nonneg_nonneg; [lia|by apply Z.pow_nonneg]|].
  apply Z.div_pos; [lia|apply Z.pow_pos_nonneg; lia].
Qed.
Lemma thousand_mul a : nonneg a = true -> nonneg (f_mul a (f_of_Z 1000)) = true.
Proof.
  intros Ha. assert (exists m e, f_of_Z 1000 = S754_finite false m e) as (m & e & ->) by (vm_compute; eauto).
  destruct a as [[]|[]| |[] k j]; try done. apply round_aux_nonneg.
Qed.
Lemma add_half a : nonneg a = true -> nonneg (f_add a half) = true.
Proof.
  intros Ha. assert (exists m e, half = S754_finite false m e) as (m & e & ->) by (vm_compute; eauto). by apply f_add_nonneg.
Qed.

(** A stored latency is between 0 and 30000 milliseconds, the range of its
    column, and a duration that is negative, infinite or not a number is
    stored as NULL. *)
Theorem latency_ms_bounds value r : response_seconds_to_latency_ms value = Ok r ->
  (forall ms, r = Some ms -> 0 <= ms <= 30000) /\
  (forall f, value = VFloat f -> isfinite f = false \/ f_ltb f f_zero = true -> r = None).
Proof.
  unfold response_seconds_to_latency_ms. intros Hr. split.
  - intros ms ->. assert (Hs : exists s, f_of_val value = Ok s /\ isfinite s = true /\ f_ltb s f_zero = false /\
      exists z, math_floor (f_add (f_mul s (f_of_Z 1000)) half) = Ok z /\ ms = Z.min z 30000).
    { destruct value; try done; apply bind_Ok in Hr as (s & Hs & Hr); exists s; (split; [done|]);
        destruct (isfinite s), (f_ltb s f_zero); try done; simpl in Hr;
        apply bind_Ok in Hr as (k & Hk & [= <-]); eauto. }
    destruct Hs as (s & _ & Hf & Hl & z & Hz & ->). enough (0 <= z) by lia. eapply floor_nonneg; [|exact Hz].
    apply add_half, thousand_mul. destruct s as [[]|[]| |[] m e]; done.
  - intros f -> Hf. simpl in Hr. destruct Hf as [Hf|Hf]; rewrite Hf in Hr; simpl in Hr; [congruence|].
    destruct (isfinite f); simpl in Hr; congruence.
Qed.

(** ** Concrete cycles *)
Definition demo_probe (url : string) (selected : bool) (height : Z) : probe :=
  Probe url true selected (VStr "dev") (Some height) (Some 0) (VBool false) None None None (Some (f_of_Z 1)).
Definition demo_probes : list probe := [demo_probe "http://a" false 11; demo_probe "http://b" true 12].

Lemma empty_ok : endpoints_ok empty_edb.
Proof. constructor; intros *; rewrite ?lookup_empty; done. Qed.


Definition demo_endpoints : edb :=
  match record_rpc_probe_cycle_cursor "dev" demo_probes empty_edb with Ok (_, d) => d | Raise _ => empty_edb end.
Lemma demo_endpoints_ok : endpoints_ok demo_endpoints.
Proof.
  destruct (cycle_facts "dev" demo_probes empty_edb empty_ok) as (id & d & Hr & Hc); [by repeat constructor| |].
  - intros p e _. simpl. by rewrite lookup_empty.
  - unfold demo_endpoints. rewrite Hr. apply Hc.
Qed.

Lemma select_rpc_endpoint_moves_witness : exists id d,
  select_rpc_endpoint_cursor "dev" (demo_probe "http://a" false 13) "failover" demo_endpoints = Ok (id, d) /\
  get_selected_rpc_url "dev" demo_endpoints = Some "http://b" /\ get_selected_rpc_url "dev" d = Some "http://a".
Proof.
  eexists _, _. split; [vm_compute; reflexivity|]. split; [vm_compute; reflexivity|].
  refine (proj2 (proj2 (select_rpc_endpoint_moves "dev" (demo_probe "http://a" false 13) "failover" demo_endpoints _ _
    demo_endpoints_ok _))). vm_compute; reflexivity.
Defined.

Lemma latency_ms_bounds_witness : response_seconds_to_latency_ms (VInt 45) = Ok (Some 30000) /\ 0 <= 30000 <= 30000.
Proof.
  assert (Hr : response_seconds_to_latency_ms (VInt 45) = Ok (Some 30000)) by (vm_compute; reflexivity).
  split; [exact Hr|]. exact (proj1 (latency_ms_bounds _ _ Hr) 30000 eq_refl).
Defined.
