(* ===== verification/Blake2.v ===== *)
(** * hashlib.blake2b

    The unkeyed BLAKE2b of RFC 7693 with digest length and personalisation,
    which the advisory-lock key of src/indexer/runner.py uses.  Words are
    integers modulo 2^64. *)
From Stdlib Require Import ZArith NArith Lia Ascii String.
From stdpp Require Import base list strings.
From S2P Require Import Prelude PyStr Codec.
Open Scope Z_scope.

Definition w64 (z : Z) : Z := z mod 2 ^ 64.
Definition rotr64 (n x : Z) : Z := w64 (Z.lor (Z.shiftr x n) (Z.shiftl x (64 - n))).

(** ** Little-endian words *)
Definition le_word (l : list ascii) : Z := foldr (fun a acc => byte_Z a + 256 * acc) 0 l.
Definition le_bytes (n : nat) (z : Z) : list ascii :=
  map (fun i => Z_byte (Z.shiftr z (8 * Z.of_nat i) mod 256)) (seq 0 n).

(** ** The compression function *)
Definition blake_iv : list Z :=
  [0x6A09E667F3BCC908; 0xBB67AE8584CAA73B; 0x3C6EF372FE94F82B; 0xA54FF53A5F1D36F1;
   0x510E527FADE682D1; 0x9B05688C2B3E6C1F; 0x1F83D9ABFB41BD6B; 0x5BE0CD19137E2179].
Definition blake_sigma : list (list nat) :=
  [[0; 1; 2; 3; 4; 5; 6; 7; 8; 9; 10; 11; 12; 13; 14; 15];
   [14; 10; 4; 8; 9; 15; 13; 6; 1; 12; 0; 2; 11; 7; 5; 3];
   [11; 8; 12; 0; 5; 2; 15; 13; 10; 14; 3; 6; 7; 1; 9; 4];
   [7; 9; 3; 1; 13; 12; 11; 14; 2; 6; 5; 10; 4; 0; 15; 8];
   [9; 0; 5; 7; 2; 4; 10; 15; 14; 1; 11; 12; 6; 8; 3; 13];
   [2; 12; 6; 10; 0; 11; 8; 3; 4; 13; 7; 5; 15; 14; 1; 9];
   [12; 5; 1; 15; 14; 13; 4; 10; 0; 7; 6; 3; 9; 2; 8; 11];
   [13; 11; 7; 14; 12; 1; 3; 9; 5; 0; 15; 4; 8; 6; 2; 10];
   [6; 15; 14; 9; 11; 3; 0; 8; 12; 2; 13; 7; 1; 4; 10; 5];
   [10; 2; 8; 4; 7; 6; 1; 5; 15; 11; 9; 14; 3; 12; 13; 0];
   [0; 1; 2; 3; 4; 5; 6; 7; 8; 9; 10; 11; 12; 13; 14; 15];
   [14; 10; 4; 8; 9; 15; 13; 6; 1; 12; 0; 2; 11; 7; 5; 3]]%nat.
Definition blake_lanes : list (nat * nat * nat * nat) :=
  [(0, 4, 8, 12); (1, 5, 9, 13); (2, 6, 10, 14); (3, 7, 11, 15);
   (0, 5, 10, 15); (1, 6, 11, 12); (2, 7, 8, 13); (3, 4, 9, 14)]%nat.

Definition word_at (v : list Z) (i : nat) : Z := nth i v 0.
Definition blake_mix (v : list Z) (lane : nat * nat * nat * nat) (x y : Z) : list Z :=
  let '(a, b, c, d) := lane in
  let v := <[a := w64 (word_at v a + word_at v b + x)]> v in
  let v := <[d := rotr64 32 (Z.lxor (word_at v d) (word_at v a))]> v in
  let v := <[c := w64 (word_at v c + word_at v d)]> v in
  let v := <[b := rotr64 24 (Z.lxor (word_at v b) (word_at v c))]> v in
  let v := <[a := w64 (word_at v a + word_at v b + y)]> v in
  let v := <[d := rotr64 16 (Z.lxor (word_at v d) (word_at v a))]> v in
  let v := <[c := w64 (word_at v c + word_at v d)]> v in
  <[b := rotr64 63 (Z.lxor (word_at v b) (word_at v c))]> v.
Definition blake_round (m : list Z) (v : list Z) (s : list nat) : list Z :=
  foldl (fun v il => blake_mix v il.2 (word_at m (nth (2 * il.1) s 0%nat)) (word_at m (nth (2 * il.1 + 1) s 0%nat)))
    v (enumerate blake_lanes).
(** One block: [t] bytes were consumed, [last] marks the final block. *)
Definition blake_compress (h : list Z) (block : list ascii) (t : Z) (last : bool) : list Z :=
  let m := map le_word (chunks 16 8 block) in
  let iv := <[4%nat := Z.lxor (word_at blake_iv 4) t]> blake_iv in
  let iv := if last then <[6%nat := Z.lxor (word_at blake_iv 6) (2 ^ 64 - 1)]> iv else iv in
  let v := foldl (blake_round m) (h ++ iv) blake_sigma in
  imap (fun i x => Z.lxor x (Z.lxor (word_at v i) (word_at v (i + 8)))) h.

(** ** The hash *)
Definition blake_pad (l : bytes) : bytes := l ++ replicate (128 - length l) zero.
Fixpoint blake_blocks (h : list Z) (t total : Z) (blocks : list bytes) : list Z :=
  match blocks with
  | [] => h
  | [b] => blake_compress h (blake_pad b) total true
  | b :: rest => blake_blocks (blake_compress h b (t + 128) false) (t + 128) total rest
  end.
Definition blake_parameters (digest_size : Z) (person : bytes) : list Z :=
  let p := person ++ replicate (16 - length person) zero in
  [digest_size + 0x01010000; 0; 0; 0; 0; 0; le_word (take 8 p); le_word (drop 8 p)].
(** [hashlib.blake2b(l, digest_size=n, person=person).digest()] *)
Definition blake2b (l : bytes) (digest_size : nat) (person : bytes) : bytes :=
  let h := zip_with Z.lxor blake_iv (blake_parameters (Z.of_nat digest_size) person) in
  let blocks := match l with [] => [[]] | _ => chunks (length l) 128 l end in
  take digest_size (flat_map (le_bytes 8) (blake_blocks h 0 (Z.of_nat (length l)) blocks)).

(** The test vector of RFC 7693, appendix A (its first eight bytes). *)
Example blake2b_abc :
  bytes_hex (take 8 (blake2b (list_of_string "abc") 64 [])) = "ba80a53f981c4d0d".
Proof. vm_compute. reflexivity. Qed.

Lemma length_le_bytes n z : length (le_bytes n z) = n.
Proof. unfold le_bytes. by rewrite length_map, length_seq. Qed.
Lemma length_blake_compress h b t last : length (blake_compress h b t last) = length h.
Proof. apply length_imap. Qed.
Lemma length_blake_blocks h t n bs : length (blake_blocks h t n bs) = length h.
Proof.
  revert h t. induction bs as [|b bs IH]; intros h t; [done|].
  destruct bs as [|b' bs]; [apply length_blake_compress|].
  etransitivity; [apply (IH (blake_compress h b (t + 128) false) (t + 128))|apply length_blake_compress].
Qed.
Lemma blake2b_length l n person : (n <= 64)%nat -> length (blake2b l n person) = n.
Proof.
  intros Hn. unfold blake2b. rewrite length_take.
  assert (Hl : forall hs, length (flat_map (le_bytes 8) hs) = (8 * length hs)%nat).
  { induction hs as [|x hs IH]; [done|]. cbn [flat_map]. rewrite length_app, IH, length_le_bytes. cbn [length]. lia. }
  rewrite Hl, length_blake_blocks, length_zip_with. change (length blake_iv) with 8%nat. change (length (blake_parameters _ _)) with 8%nat. lia.
Qed.
