(* ===== verification/Selection.v ===== *)
(** * indexer/runner.py: endpoint selection state, configuration, lock key

    The process-local hysteresis that decides in which order a cycle tries
    its candidate endpoints ([order_indexer_candidates],
    [record_selection_success]), the validation of the run's configuration
    and the key of the advisory lock.  Positions in the candidate list stand
    for object identity: the probes of one cycle are distinct objects. *)
From Stdlib Require Import ZArith NArith Lia Ascii String SpecFloat.
From stdpp Require Import base gmap sets list strings sorting.
From S2P Require Import Prelude PyStr PyVal Codec Blake2 InspectRpc Rpc.
Open Scope Z_scope.

(** ** Stopping *)

(** [class StopController]; [requested] is also the state of its event. *)
Record StopController := { requested : bool; stop_reason : option string }.
Definition request_stop (reason : string) (s : StopController) : StopController :=
  Build_StopController true (Some reason).

(** ** Configuration *)

(** [class ContinuousConfig] *)
Record ContinuousConfig := {
  start_height : option Z;
  batch_size : Z;
  poll_interval_seconds : Z;
  error_backoff_seconds : Z;
  max_backoff_seconds : Z;
  hard_max_heights : Z;
  once : bool;
  max_cycles : option Z
}.

Definition positive_fields (c : ContinuousConfig) : list (string * Z) :=
  [("batch_size", batch_size c); ("poll_interval_seconds", poll_interval_seconds c);
   ("error_backoff_seconds", error_backoff_seconds c); ("max_backoff_seconds", max_backoff_seconds c);
   ("hard_max_heights", hard_max_heights c)].
Definition validate_continuous_config (c : ContinuousConfig) : res unit :=
  _ ← foldM_res (fun _ nv => raise_if (nv.2 <? 1) (FatalIndexerError (nv.1 ++ " must be positive"))) tt (positive_fields c);
  _ ← raise_if (hard_max_heights c <? batch_size c)
        (FatalIndexerError "batch_size must be <= INDEXER_HARD_MAX_HEIGHTS");
  _ ← raise_if (match start_height c with Some h => h <? 1 | None => false end)
        (FatalIndexerError "start_height must be positive");
  _ ← raise_if (match max_cycles c with Some n => n <? 1 | None => false end)
        (FatalIndexerError "max_cycles must be positive");
  raise_if (max_backoff_seconds c <? error_backoff_seconds c)
    (FatalIndexerError "error_backoff_seconds must be <= max_backoff_seconds").

Record config_ok (c : ContinuousConfig) : Prop := {
  co_batch : 1 <= batch_size c <= hard_max_heights c;
  co_poll : 1 <= poll_interval_seconds c;
  co_backoff : 1 <= error_backoff_seconds c <= max_backoff_seconds c;
  co_start : forall h, start_height c = Some h -> 1 <= h;
  co_cycles : forall n, max_cycles c = Some n -> 1 <= n
}.

(** ** The advisory-lock key *)
Definition int_from_big_endian (b : bytes) : Z := foldl (fun acc a => acc * 256 + byte_Z a) 0 b.
Definition advisory_lock_key (chain_id : string) : Z :=
  let digest := blake2b (list_of_string chain_id) 8 (list_of_string "utsa-gno") in
  let value := int_from_big_endian digest in
  if 2 ^ 63 <=? value then value - 2 ^ 64 else value.

(** ** Hysteresis *)

(** [class RpcSelectionState] *)
Record RpcSelectionState := {
  selected_url : option string;
  candidate_url : option string;
  candidate_streak : Z
}.
Definition initial_selection_state : RpcSelectionState := Build_RpcSelectionState None None 0.

(** 0.050 and 0.25 *)
Definition RPC_HYSTERESIS_MIN_IMPROVEMENT_SECONDS : float := f_div (f_of_Z 1) (f_of_Z 20).
Definition RPC_HYSTERESIS_MIN_RELATIVE_IMPROVEMENT : float := f_div (f_of_Z 1) (f_of_Z 4).
Definition RPC_HYSTERESIS_CONFIRMATION_CYCLES : Z := 3.

Definition valid_latency (value : option float) : bool :=
  match value with
  | Some f => isfinite f && f_leb f_zero f
  | None => false
  end.

(** The improvement test, once both latencies are valid. *)
Definition improvement_qualifies (selected candidate : float) : bool :=
  let improvement := f_sub selected candidate in
  let relative := if f_truthy selected then f_div improvement selected else f_zero in
  f_leb RPC_HYSTERESIS_MIN_IMPROVEMENT_SECONDS improvement
  && f_leb RPC_HYSTERESIS_MIN_RELATIVE_IMPROVEMENT relative.

Definition clear_candidate (state : RpcSelectionState) : RpcSelectionState :=
  Build_RpcSelectionState (selected_url state) None 0.

(** The first probe with the URL, and the other probes. *)
Fixpoint take_url (url : option string) (l : list probe) : option (probe * list probe) :=
  match l with
  | [] => None
  | p :: l' =>
      if bool_decide (url = Some (pr_url p)) then Some (p, l')
      else match take_url url l' with
           | Some (q, rest) => Some (q, p :: rest)
           | None => None
           end
  end.

Definition order_indexer_candidates (candidates : list probe) (state : RpcSelectionState)
    : list probe * string * RpcSelectionState :=
  match take_url (selected_url state) candidates with
  | None =>
      (candidates,
       match selected_url state with Some _ => "selected_unavailable" | None => "initial_selection" end,
       clear_candidate state)
  | Some (selected, []) => ([selected], "initial_selection", clear_candidate state)
  | Some (selected, (candidate :: rest) as alternatives) =>
      let stay := (selected :: alternatives, "initial_selection", clear_candidate state) in
      match pr_response_seconds selected, pr_response_seconds candidate with
      | Some ls, Some lc =>
          if valid_latency (Some ls) && valid_latency (Some lc) then
            if improvement_qualifies ls lc then
              let streak := if bool_decide (candidate_url state = Some (pr_url candidate))
                            then candidate_streak state + 1 else 1 in
              let state' := Build_RpcSelectionState (selected_url state) (Some (pr_url candidate)) streak in
              if streak <? RPC_HYSTERESIS_CONFIRMATION_CYCLES
              then (selected :: alternatives, "initial_selection", state')
              else (candidate :: selected :: rest, "latency_hysteresis", state')
            else stay
          else stay
      | _, _ => stay
      end
  end.

Definition record_selection_success (successful_url : string) (fallback_occurred : bool) (state : RpcSelectionState)
    : RpcSelectionState :=
  let adopted := negb (bool_decide (Some successful_url = selected_url state)) in
  let selected := if adopted then Some successful_url else selected_url state in
  if adopted || fallback_occurred then Build_RpcSelectionState selected None 0
  else Build_RpcSelectionState selected (candidate_url state) (candidate_streak state).

(** ** Properties *)

(** [validate_continuous_config] accepts exactly the well-formed
    configurations: every bound at least one, the batch within the hard limit,
    the first backoff within the maximum, and an optional start height and
    cycle limit of at least one; otherwise it raises FatalIndexerError. *)
Lemma validate_config_full c :
  (validate_continuous_config c = Ok tt <-> config_ok c) /\
  raises isinstance_FatalIndexerError (validate_continuous_config c).
Proof.
  unfold validate_continuous_config. split.
  - split.
    + intros Hv. inv_res. destruct a. apply foldM_res_unit in Ha. unfold positive_fields in Ha.
      repeat (apply Forall_cons in Ha as [?%raise_if_Ok Ha]; cbn [snd] in * ).
      constructor; try lia.
      * intros h Hh. rewrite Hh in Ha1. lia.
      * intros n Hn. rewrite Hn in Ha2. lia.
    + intros [Hb Hp Ho Hs Hc].
      rewrite (proj2 (foldM_res_unit (fun nv : string * Z => raise_if (nv.2 <? 1) _) (positive_fields c) tt)); cycle 1.
      { unfold positive_fields. repeat (apply Forall_cons; split; [apply raise_if_Ok; cbn [snd]; lia|]). by apply Forall_nil. }
      cbn [mbind res_bind]. repeat (apply bind_Ok; exists tt; split; [apply raise_if_Ok|]); [lia| | |apply raise_if_Ok; lia].
      * destruct (start_height c) as [h|]; [|done]. specialize (Hs h eq_refl). lia.
      * destruct (max_cycles c) as [n|]; [|done]. specialize (Hc n eq_refl). lia.
  - solve_raises.
Qed.
Lemma validate_config_iff c : validate_continuous_config c = Ok tt <-> config_ok c.
Proof. apply validate_config_full. Qed.

Lemma int_from_big_endian_range b : 0 <= int_from_big_endian b < 256 ^ Z.of_nat (length b).
Proof.
  unfold int_from_big_endian. induction b as [|a b IH] using rev_ind; [simpl; lia|].
  rewrite foldl_app, length_app. cbn [foldl length]. rewrite Nat2Z.inj_add, Z.pow_add_r by lia.
  assert (0 <= byte_Z a < 256) by apply byte_Z_range. simpl Z.of_nat. lia.
Qed.

(** The advisory-lock key is a signed 64-bit integer, the type PostgreSQL's
    [pg_try_advisory_lock] takes, for every chain id. *)
Theorem advisory_lock_key_range chain_id : - 2 ^ 63 <= advisory_lock_key chain_id < 2 ^ 63.
Proof.
  unfold advisory_lock_key.
  pose proof (int_from_big_endian_range (blake2b (list_of_string chain_id) 8 (list_of_string "utsa-gno"))) as Hr.
  rewrite blake2b_length in Hr by lia. change (256 ^ Z.of_nat 8) with (2 ^ 64) in Hr.
  destruct (2 ^ 63 <=? _) eqn:E; lia.
Qed.

Example advisory_lock_key_dev : advisory_lock_key "dev" = -2631599664742831117.
Proof. vm_compute. reflexivity. Qed.

(** *** Hysteresis *)
Lemma take_url_spec url l p rest : take_url url l = Some (p, rest) ->
  url = Some (pr_url p) /\ exists l1 l2, l = l1 ++ p :: l2 /\ rest = l1 ++ l2.
Proof.
  revert p rest. induction l as [|q l IH]; intros p rest; simpl; [done|]. case_bool_decide as Hq.
  - intros [= <- <-]. split; [done|]. by exists [], l.
  - destruct (take_url url l) as [[p' rest']|]; [|done]. intros [= <- <-].
    destruct (IH p' rest' eq_refl) as (Hu & l1 & l2 & -> & ->). split; [done|]. by exists (q :: l1), l2.
Qed.
Lemma take_url_perm url l p rest : take_url url l = Some (p, rest) -> p :: rest ≡ₚ l.
Proof. intros (_ & l1 & l2 & -> & ->)%take_url_spec. apply Permutation_middle. Qed.

(** The URL of the alternative that qualifies against the selected endpoint. *)
Definition qualifying (url : option string) (candidates : list probe) : option string :=
  match take_url url candidates with
  | Some (s, c :: _) =>
      match pr_response_seconds s, pr_response_seconds c with
      | Some ls, Some lc => if valid_latency (Some ls) && valid_latency (Some lc) && improvement_qualifies ls lc
                            then Some (pr_url c) else None
      | _, _ => None
      end
  | _ => None
  end.
Definition next_streak (url : string) (state : RpcSelectionState) : Z :=
  if bool_decide (candidate_url state = Some url) then candidate_streak state + 1 else 1.

(** The ordering's effect on the state, and when it switches. *)
Lemma order_cases candidates state l reason state' :
  order_indexer_candidates candidates state = (l, reason, state') ->
  l ≡ₚ candidates /\ selected_url state' = selected_url state /\
  match qualifying (selected_url state) candidates with
  | None => candidate_url state' = None /\ candidate_streak state' = 0 /\ reason <> "latency_hysteresis"
  | Some u =>
      candidate_url state' = Some u /\ candidate_streak state' = next_streak u state /\
      (reason = "latency_hysteresis" <-> 3 <= next_streak u state)
  end /\
  match take_url (selected_url state) candidates with
  | None => l = candidates
  | Some (s, rest) =>
      if String.eqb reason "latency_hysteresis"
      then exists c rest', rest = c :: rest' /\ l = c :: s :: rest' /\ qualifying (selected_url state) candidates = Some (pr_url c)
      else l = s :: rest
  end.
Proof.
  unfold order_indexer_candidates, qualifying, next_streak.
  destruct (take_url (selected_url state) candidates) as [[s [|c rest]]|] eqn:E; cycle 2.
  { intros [= <- <- <-]. split_and!; try done. by destruct (selected_url state). }
  { intros [= <- <- <-]. split_and!; try done. by apply (take_url_perm _ _ _ _ E). }
  apply take_url_perm in E.
  destruct (pr_response_seconds s) as [ls|], (pr_response_seconds c) as [lc|];
    try (intros [= <- <- <-]; by split_and!).
  destruct (valid_latency (Some ls) && valid_latency (Some lc)); cbn [andb]; [|intros [= <- <- <-]; by split_and!].
  destruct (improvement_qualifies ls lc); [|intros [= <- <- <-]; by split_and!].
  cbv zeta. unfold RPC_HYSTERESIS_CONFIRMATION_CYCLES.
  destruct (_ <? 3) eqn:E3; intros [= <- <- <-]; cbn [selected_url candidate_url candidate_streak]; split_and!; try done.
  - split; [done|lia].
  - rewrite <- E. by constructor.
  - split; [lia|done].
  - by exists c, rest.
Qed.

(** Ordering the candidates loses none and adds none; the order is the
    given one when the selected endpoint is not among them, and otherwise the
    selected endpoint comes first unless the hysteresis switches, in which
    case exactly one other endpoint, whose latency qualifies, comes before it. *)
Lemma order_indexer_candidates_ok candidates state :
  let '(l, reason, state') := order_indexer_candidates candidates state in
  l ≡ₚ candidates /\ selected_url state' = selected_url state /\
  match take_url (selected_url state) candidates with
  | None => l = candidates
  | Some (s, rest) =>
      if String.eqb reason "latency_hysteresis"
      then exists c rest', rest = c :: rest' /\ l = c :: s :: rest' /\ qualifying (selected_url state) candidates = Some (pr_url c)
      else l = s :: rest
  end.
Proof.
  destruct (order_indexer_candidates candidates state) as [[l reason] state'] eqn:E.
  apply order_cases in E as (H1 & H2 & _ & H3). by split_and!.
Qed.

(** What the runner does to the state between two orderings. *)
Inductive selection_event : Type :=
| Ordered (candidates : list probe)
| Succeeded (url : string) (fallback : bool)
| Rejected.
Definition selection_step (state : RpcSelectionState) (e : selection_event) : RpcSelectionState :=
  match e with
  | Ordered candidates => (order_indexer_candidates candidates state).2
  | Succeeded url fallback => record_selection_success url fallback state
  | Rejected => clear_candidate state
  end.
(** The state after a history, most recent event first. *)
Fixpoint selection_after (persisted : option string) (history : list selection_event) : RpcSelectionState :=
  match history with
  | [] => Build_RpcSelectionState persisted None 0
  | e :: earlier => selection_step (selection_after persisted earlier) e
  end.
(** How many orderings in a row, up to now, found the same endpoint [c]
    qualifying against [u], with nothing but successes of [u] in between. *)
Fixpoint confirmations (u c : string) (history : list selection_event) : Z :=
  match history with
  | Ordered candidates :: earlier =>
      if bool_decide (qualifying (Some u) candidates = Some c) then 1 + confirmations u c earlier else 0
  | Succeeded url false :: earlier => if String.eqb url u then confirmations u c earlier else 0
  | _ => 0
  end.

Lemma confirmations_nonneg u c h : 0 <= confirmations u c h.
Proof. induction h as [|[cs|url []|] h IH]; simpl; try lia; case_match; lia. Qed.
Lemma qualifying_selected url cs c : qualifying url cs = Some c -> exists u, url = Some u.
Proof.
  unfold qualifying. destruct (take_url url cs) as [[s rest]|] eqn:E; [|done].
  apply take_url_spec in E as [-> _]. eauto.
Qed.

Lemma streak_confirmed persisted h :
  let s := selection_after persisted h in
  (candidate_url s = None -> candidate_streak s = 0) /\
  forall c, candidate_url s = Some c -> exists u, selected_url s = Some u /\ candidate_streak s <= confirmations u c h.
Proof.
  induction h as [|e h [IH0 IH]]; [done|]. cbn [selection_after]. cbv zeta.
  set (s := selection_after persisted h) in *. destruct e as [cs|url fb|]; cbn [selection_step]; [| |done].
  - destruct (order_indexer_candidates cs s) as [[l r] s'] eqn:E. cbn [snd].
    apply order_cases in E as (_ & Hsel & Hq & _).
    destruct (qualifying (selected_url s) cs) as [c|] eqn:Eq; [|by destruct Hq as (-> & -> & _)].
    destruct Hq as (-> & -> & _). split; [done|]. intros c' [= <-].
    destruct (qualifying_selected _ _ _ Eq) as [u Hu]. exists u. split; [congruence|]. cbn [confirmations].
    rewrite <- Hu, Eq, bool_decide_eq_true_2 by done. unfold next_streak. case_bool_decide as Hc.
    + destruct (IH c Hc) as (u' & Hu' & Hle). assert (u' = u) as -> by congruence. lia.
    + pose proof (confirmations_nonneg u c h). lia.
  - unfold record_selection_success. case_bool_decide as Hurl; cbn [negb orb]; [|done].
    destruct fb; [done|]. cbn [candidate_url candidate_streak selected_url]. split; [done|].
    intros c Hc. destruct (IH c Hc) as (u & Hu & Hle). exists u. split; [done|]. cbn [confirmations].
    assert (url = u) as -> by congruence. by rewrite String.eqb_refl.
Qed.

(** The runner never leaves a working endpoint on a single fast
    measurement: whatever orderings, successes and rejections came before, a
    latency switch to an endpoint happens only when the last three orderings
    all found that same endpoint at least 50 ms and 25 % faster than the
    selected one, uninterrupted by a failure or another selection. *)
Theorem hysteresis_switch_confirmed persisted history candidates l state' :
  order_indexer_candidates candidates (selection_after persisted history) = (l, "latency_hysteresis", state') ->
  exists u c s rest, selected_url (selection_after persisted history) = Some u /\
    l = c :: s :: rest /\ pr_url s = u /\ 3 <= confirmations u (pr_url c) (Ordered candidates :: history).
Proof.
  intros Ho. pose proof (order_cases _ _ _ _ _ Ho) as (_ & Hsel & Hq & Hl). set (s := selection_after persisted history) in *.
  destruct (take_url (selected_url s) candidates) as [[p rest]|] eqn:Et; cycle 1.
  { unfold qualifying in Hq. rewrite Et in Hq. by destruct Hq as (_ & _ & []). }
  destruct Hl as (c & rest' & -> & -> & Eq). rewrite Eq in Hq. destruct Hq as (Hc & Hstreak & Hthree).
  apply take_url_spec in Et as [Hu _]. exists (pr_url p), c, p, rest'. split_and!; try done.
  destruct (streak_confirmed persisted (Ordered candidates :: history)) as [_ Hconf].
  cbn [selection_after selection_step] in Hconf. fold s in Hconf. rewrite Ho in Hconf. cbn [snd] in Hconf.
  destruct (Hconf _ Hc) as (u & Hu' & Hle). assert (u = pr_url p) as -> by congruence. rewrite Hstreak in Hle.
  assert (3 <= next_streak (pr_url c) s) by by apply Hthree. lia.
Qed.

(** Three cycles in which [http://b] answers in 0.1 s and the selected
    [http://a] in 0.3 s. *)
Definition timed_probe (url : string) (tenths : Z) : probe :=
  Probe url true false (VStr "dev") (Some 12) (Some 0) (VBool false) None (Some (Client url false)) (Some VNone)
    (Some (f_div (f_of_Z tenths) (f_of_Z 10))).
Definition demo_candidates : list probe := [timed_probe "http://b" 1; timed_probe "http://a" 3].
Definition demo_history : list selection_event :=
  [Succeeded "http://a" false; Ordered demo_candidates; Succeeded "http://a" false; Ordered demo_candidates].

Lemma hysteresis_switch_confirmed_witness : exists l state',
  order_indexer_candidates demo_candidates (selection_after (Some "http://a") demo_history) = (l, "latency_hysteresis", state') /\
  exists u c s rest, selected_url (selection_after (Some "http://a") demo_history) = Some u /\
    l = c :: s :: rest /\ pr_url s = u /\ 3 <= confirmations u (pr_url c) (Ordered demo_candidates :: demo_history).
Proof.
  eexists _, _. split; [vm_compute; reflexivity|].
  eapply (hysteresis_switch_confirmed (Some "http://a") demo_history demo_candidates). vm_compute. reflexivity.
Defined.
