(* ===== verification/Runner.v ===== *)
(** * indexer/runner.py: one indexing cycle and the continuous loop

    The runner is written against the interface [Indexer], the calls it makes:
    the methods of [PostgresDatabase], the RPC requests, the lock's PostgreSQL
    session, the stop controller and the waiter.  [IndexerLaws] is what it
    needs them to promise; Indexed.v implements the interface with the
    database model and proves the laws.  Logging, and the sanitized URLs that
    are only logged, are not modelled. *)
From Stdlib Require Import ZArith NArith Lia Ascii String SpecFloat.
From stdpp Require Import base gmap sets list strings sorting.
From S2P Require Import Prelude PyStr PyVal Codec InspectRpc Rpc Summary Parsers Database Selection.
Open Scope Z_scope.

(** ** The interface

    [W] is everything outside the runner.  A call returns its result or the
    exception it raises, and the world after it; a signal handler may have
    run during the call. *)
Class Indexer (W C : Type) := {
  stop_of : W -> StopController;
  event_wait : Z -> W -> bool * W;
  (* every endpoint's status and the time it took *)
  rpc_statuses : W -> (string -> res val) * (string -> float) * W;
  (* what the client of one endpoint answers to the requests of one step *)
  rpc_answers : string -> W -> (string -> Z -> res val) * W;
  (* PostgresDatabase *)
  get_checkpoint : string -> W -> res (option Z) * W;
  get_checkpoint_anchor : string -> W -> res (option CheckpointAnchor) * W;
  get_selected_rpc_url : string -> W -> res (option string) * W;
  record_rpc_probe_cycle : string -> list probe -> W -> res unit * W;
  select_rpc_endpoint : string -> probe -> string -> W -> res unit * W;
  record_rpc_runtime_failure : string -> probe -> string -> W -> res unit * W;
  write_height : ParsedHeight -> string -> Z -> W -> res unit * W;
  (* psycopg, for the connection that holds the lock *)
  connect : W -> res C * W;
  try_advisory_lock : C -> Z -> W -> res bool * W;
  connection_closed : C -> W -> bool;
  select_1 : C -> W -> res unit * W;
  advisory_unlock : C -> Z -> W -> res unit * W;
  close_connection : C -> W -> res unit * W
}.

(** ** Errors *)
Definition isinstance_TransientIndexerError (e : exc) : bool :=
  match e with TransientIndexerError _ => true | _ => false end.
Definition isinstance_AdvisoryLockHeld (e : exc) : bool :=
  match e with AdvisoryLockHeld _ => true | _ => false end.
(** [FinalizedDataConflict], [ChainIdentityError] and their message. *)
Definition conflict_message (e : exc) : option string :=
  match e with FinalizedDataConflict m | ChainIdentityError m => Some m | _ => None end.
Definition is_transient_error (e : exc) : bool :=
  if isinstance_RpcError e || isinstance_TransientIndexerError e || isinstance_OSError e then true
  else if bool_decide (is_Some (conflict_message e)) then false
  else if isinstance_DatabaseError e then false
  else match e with OperationalError | InterfaceError => true | _ => false end.
(** [except (RpcError, OSError)] *)
Definition endpoint_error (e : exc) : bool := isinstance_RpcError e || isinstance_OSError e.

Definition endpoint_failure_reason (e : exc) : string :=
  match e with
  | RpcContinuityError reason => py_take 80 reason
  | _ => if isinstance_TimeoutError e then "timeout"
         else if isinstance_OSError e then "transport_error"
         else if isinstance_RpcError e then "rpc_error"
         else "malformed_payload"
  end.

(** [class CycleResult] *)
Record CycleResult := {
  processed : list Z;
  checkpoint_before : option Z;
  checkpoint_after : option Z;
  finalized_tip : option Z;
  planned_start : option Z;
  planned_end : option Z
}.

Section runner.
Context `{PyRuntime} {W C D : Type} `{Indexer W C} `{TransactionDecoder D}.

(** ** State

    The world, the lock's connection ([AdvisoryLock.connection]), the
    selection state and the transaction decoder. *)
Record state := State {
  world : W;
  connection : option C;
  selection : option RpcSelectionState;
  decoder : option D
}.
Definition set_world (w : W) (s : state) : state := State w (connection s) (selection s) (decoder s).
Definition set_connection (c : option C) (s : state) : state := State (world s) c (selection s) (decoder s).
Definition set_decoder (d : option D) (s : state) : state := State (world s) (connection s) (selection s) d.
(** A change of the selection state, where there is one. *)
Definition on_selection (f : RpcSelectionState -> RpcSelectionState) (s : state) : state :=
  State (world s) (connection s) (f <$> selection s) (decoder s).

(** A step: a result or an exception, and the state after it. *)
Definition step (A : Type) : Type := state -> res A * state.
Definition ret {A} (a : A) : step A := fun s => (Ok a, s).
Definition fail {A} (e : exc) : step A := fun s => (Raise e, s).
Definition bind {A B} (m : step A) (f : A -> step B) : step B :=
  fun s => match m s with (Ok a, s') => f a s' | (Raise e, s') => (Raise e, s') end.
Definition lift {A} (m : res A) : step A := fun s => (m, s).
Definition modify (f : state -> state) : step unit := fun s => (Ok tt, f s).
(** A call of the interface. *)
Definition call {A} (op : W -> res A * W) : step A :=
  fun s => let '(r, w) := op (world s) in (r, set_world w s).
Definition answers (url : string) : step (string -> Z -> res val) :=
  fun s => let '(get, w) := rpc_answers url (world s) in (Ok get, set_world w s).
Definition stopped (s : state) : bool := requested (stop_of (world s)).
#[local] Notation "'let*' p := m 'in' k" := (bind m (fun p => k))
  (at level 10, p strict pattern, m at level 200, k at level 200).

(** [StopController.wait] *)
Definition stop_aware_wait (seconds : Z) : step bool :=
  fun s => if stopped s then (Ok true, s)
           else let '(b, w) := event_wait seconds (world s) in (Ok b, set_world w s).

(** ** The advisory lock *)
Definition close_connection_best_effort (c : C) : step unit :=
  fun s => (Ok tt, (call (close_connection c) s).2).
Definition lock_close (key : Z) : step unit := fun s =>
  match connection s with
  | None => (Ok tt, s)
  | Some c =>
      let s := set_connection None s in
      let s := (call (advisory_unlock c key) s).2 in
      close_connection_best_effort c s
  end.
Definition lock_acquire (key : Z) : step unit := fun s =>
  let s := match connection s with Some _ => (lock_close key s).2 | None => s end in
  bind (call connect) (fun c s =>
    match call (try_advisory_lock c key) s with
    | (Ok true, s) => (Ok tt, set_connection (Some c) s)
    | (Ok false, s) =>
        (Raise (AdvisoryLockHeld "continuous indexer advisory lock is already held"),
         set_connection None (close_connection_best_effort c s).2)
    | (Raise e, s) => (Raise e, set_connection None (close_connection_best_effort c s).2)
    end) s.
Definition lock_lost : exc := AdvisoryLockLost "continuous indexer advisory lock session is not live".
Definition lock_ensure_alive : step unit := fun s =>
  match connection s with
  | None => (Raise lock_lost, s)
  | Some c =>
      if connection_closed c (world s) then (Raise lock_lost, s)
      else let '(r, s') := call (select_1 c) s in
           (match r with Ok _ => Ok tt | Raise _ => Raise lock_lost end, s')
  end.

(** ** One cycle *)
Definition candidate_probes (probes : list probe) (required_height : Z) : list probe :=
  List.filter (fun p => match pr_latest_height p with Some h => required_height - 1 <=? h | None => false end)
    (suitable_rpc_probes probes).
(** [probe.latest_height - 1]; the height of a candidate is an integer. *)
Definition tip_of (p : probe) : Z := default 0 (pr_latest_height p) - 1.
Definition highest_tip (candidates : list probe) : Z :=
  match map tip_of candidates with t :: ts => max_list t ts | [] => 0 end.

Definition activate_candidate (chain_id : string) (p : probe) (anchor : option CheckpointAnchor) (reason : string) : step unit :=
  let* _ := match anchor with
       | Some a => let* get := answers (pr_url p) in lift (verify_checkpoint_anchor get (an_height a) (an_block_hash_hex a))
       | None => ret tt
       end in
  call (select_rpc_endpoint chain_id p reason).

(** [reject(probe, exc)], without the set of excluded URLs. *)
Definition reject (chain_id : string) (p : probe) (e : exc) : step string :=
  let reason := endpoint_failure_reason e in
  let* _ := modify (on_selection clear_candidate) in
  let* _ := call (record_rpc_runtime_failure chain_id p reason) in
  ret reason.

(** The candidates in the order the cycle tries them. *)
Definition order_candidates (candidates : list probe) : step (list probe * string) := fun s =>
  match selection s with
  | None => (Ok (candidates, "initial_selection"), s)
  | Some st =>
      let '(l, reason, st') := order_indexer_candidates candidates st in
      (Ok (l, reason), on_selection (fun _ => st') s)
  end.

(** *** Nothing to index: confirm an endpoint that agrees with the checkpoint *)
Fixpoint confirm_loop (chain_id : string) (anchor : option CheckpointAnchor) (checkpoint : option Z)
    (selection_reason : string) (first fallback_occurred : bool) (candidates : list probe) : step CycleResult :=
  match candidates with
  | [] => fail (RpcError "All RPC endpoints failed checkpoint continuity")
  | p :: rest => fun s =>
      let reason := if first then selection_reason else "selected_unavailable" in
      match activate_candidate chain_id p anchor reason s with
      | (Ok _, s) =>
          (Ok (Build_CycleResult [] checkpoint checkpoint (Some (tip_of p)) None None),
           on_selection (record_selection_success (pr_url p) fallback_occurred) s)
      | (Raise e, s) =>
          if endpoint_error e then
            bind (reject chain_id p e) (fun _ =>
              confirm_loop chain_id anchor checkpoint selection_reason false true rest) s
          else (Raise e, s)
      end
  end.

(** *** Indexing a range of heights *)

(** The variables of the height loop.  [active] is the position of the active
    candidate; the pending URL and reason are set together. *)
Record locals := Locals {
  excluded_urls : list string;
  activated_urls : list string;
  active : option nat;
  expected_parent : option string;
  pending : option (string * string)
}.
Definition add_activated (url : string) (v : locals) : locals :=
  Locals (excluded_urls v) (url :: activated_urls v) (active v) (expected_parent v) (pending v).
Definition set_failed (url : string) (reason : string) (v : locals) : locals :=
  Locals (url :: excluded_urls v) (activated_urls v) (active v) (expected_parent v) (Some (url, reason)).
Definition set_done (i : nat) (block_hash : string) (v : locals) : locals :=
  Locals (excluded_urls v) (activated_urls v) (Some i) (Some block_hash) None.
Definition start_height_locals (v : locals) : locals :=
  Locals (excluded_urls v) (activated_urls v) None (expected_parent v) (pending v).

(** [pending_reason or (selection_reason if probe is candidates[0] else ...)] *)
Definition activation_reason (v : locals) (selection_reason : string) (i : nat) : string :=
  let own := if Nat.eqb i 0 then selection_reason else "selected_unavailable" in
  match pending v with
  | Some (_, reason) => if String.eqb reason "" then own else reason
  | None => own
  end.
Definition current_anchor (height : Z) (v : locals) : option CheckpointAnchor :=
  Build_CheckpointAnchor (height - 1) <$> expected_parent v.

Definition activate (chain_id selection_reason : string) (height : Z) (i : nat) (p : probe) (v : locals) : step locals :=
  if in_strs (pr_url p) (activated_urls v) then ret v
  else let* _ := activate_candidate chain_id p (current_anchor height v) (activation_reason v selection_reason i) in
       ret (add_activated (pr_url p) v).

Definition parse_fetched (height : Z) (payloads : val * val * val * val) : step ParsedHeight := fun s =>
  let '(block, results, commit, validators) := payloads in
  let '(r, dec) := parse_height height block results commit validators (decoder s) in
  (r, set_decoder dec s).

(** Fetch, check, parse and store one height with one endpoint: its hash. *)
Definition index_height (chain_id : string) (height : Z) (p : probe) (v : locals) : step string :=
  let* get := answers (pr_url p) in
  let* payloads := lift (fetch_height get height) in
  let block_payload := payloads.1.1.1 in
  let* block_hash := lift (match expected_parent v with
                      | Some h => verify_parent_continuity block_payload h
                      | None => canonical_block_hash_hex block_payload
                      end) in
  let* parsed := parse_fetched height payloads in
  let* _ := call (write_height parsed chain_id (tip_of p)) in
  let* _ := modify (on_selection (record_selection_success (pr_url p) (bool_decide (is_Some (pending v))))) in
  ret block_hash.

(** One iteration of [for probe in ordered]: the try body and its handler.
    [None] is the caught failure, whose bookkeeping is in the locals. *)
Definition try_probe (chain_id selection_reason : string) (height : Z) (i : nat) (p : probe) (v : locals)
    : step (option exc * locals) := fun s =>
  let rejected v e s := bind (reject chain_id p e) (fun reason => ret (Some e, set_failed (pr_url p) reason v)) s in
  match activate chain_id selection_reason height i p v s with
  | (Raise e, s) => if endpoint_error e then rejected v e s else (Raise e, s)
  | (Ok v, s) =>
      match index_height chain_id height p v s with
      | (Ok block_hash, s) => (Ok (None, set_done i block_hash v), s)
      | (Raise e, s) => if endpoint_error e then rejected v e s else (Raise e, s)
      end
  end.

Definition skipped (height : Z) (p : probe) (v : locals) : bool :=
  in_strs (pr_url p) (excluded_urls v) || (tip_of p <? height).

(** The attempts, counted, and the last failure. *)
Fixpoint try_probes (chain_id selection_reason : string) (height : Z) (attempts : Z) (last : option exc)
    (ordered : list (nat * probe)) (v : locals) : step (Z * option exc * locals) :=
  match ordered with
  | [] => ret (attempts, last, v)
  | (i, p) :: rest =>
      if skipped height p v then try_probes chain_id selection_reason height attempts last rest v
      else let* (failure, v) := try_probe chain_id selection_reason height i p v in
           match failure with
           | Some e => try_probes chain_id selection_reason height (attempts + 1) (Some e) rest v
           | None => ret (attempts + 1, last, v)
           end
  end.

(** [([active] if active is not None else []) + [p for p in candidates if p is not active]] *)
Definition try_order (candidates : list probe) (v : locals) : list (nat * probe) :=
  match active v with
  | Some k => List.filter (fun ip => Nat.eqb ip.1 k) (enumerate candidates)
              ++ List.filter (fun ip => negb (Nat.eqb ip.1 k)) (enumerate candidates)
  | None => enumerate candidates
  end.

Definition one_height (chain_id selection_reason : string) (candidates : list probe) (height : Z) (v : locals)
    : step locals :=
  let* (attempts, last, v') := try_probes chain_id selection_reason height 0 None (try_order candidates v)
                             (start_height_locals v) in
  match active v' with
  | Some _ => ret v'
  | None => match last with
            | Some e => if attempts =? 1 then fail e else fail (RpcError "All RPC candidates failed at height")
            | None => fail (RpcError "All RPC candidates failed at height")
            end
  end.

(** [for height in range(next_height, planned_end + 1)]: the heights processed. *)
Fixpoint height_loop (chain_id selection_reason : string) (candidates : list probe) (heights : list Z) (v : locals)
    : step (list Z * locals) :=
  match heights with
  | [] => ret ([], v)
  | height :: rest => fun s =>
      if stopped s then (Ok ([], v), s)
      else bind (one_height chain_id selection_reason candidates height v) (fun v =>
             bind (height_loop chain_id selection_reason candidates rest v) (fun r =>
               ret (height :: r.1, r.2))) s
  end.

Definition active_tip (candidates : list probe) (v : locals) : option Z :=
  i ← active v; p ← candidates !! i; Some (tip_of p).

Definition index_range (chain_id : string) (config : ContinuousConfig) (anchor : option CheckpointAnchor)
    (checkpoint : option Z) (next_height : Z) (candidates : list probe) : step CycleResult :=
  let* (candidates, selection_reason) := order_candidates (List.filter (fun p => next_height <=? tip_of p) candidates) in
  let planned_end := Z.min (highest_tip candidates) (next_height + batch_size config - 1) in
  let* (processed, v) := height_loop chain_id selection_reason candidates
                       (seqZ next_height (planned_end + 1 - next_height))
                       (Locals [] [] None (an_block_hash_hex <$> anchor) None) in
  let* checkpoint_after := call (get_checkpoint chain_id) in
  ret (Build_CycleResult processed checkpoint checkpoint_after (active_tip candidates v) (Some next_height) (Some planned_end)).

Definition confirm_range (chain_id : string) (anchor : option CheckpointAnchor) (checkpoint : option Z)
    (candidates : list probe) : step CycleResult :=
  let* (candidates, selection_reason) := order_candidates candidates in
  confirm_loop chain_id anchor checkpoint selection_reason true false candidates.

Definition probe_step (rpc_urls : list string) (chain_id : string) (max_height_lag : Z) : step (list probe) := fun s =>
  let '(status_get, elapsed, w) := rpc_statuses (world s) in
  (probe_rpc_endpoints rpc_urls chain_id max_height_lag status_get elapsed, set_world w s).

Definition run_cycle (chain_id : string) (rpc_urls : list string) (max_height_lag : Z) (config : ContinuousConfig)
    : step CycleResult :=
  let* anchor := call (get_checkpoint_anchor chain_id) in
  let* checkpoint := match anchor with
                | Some a => ret (Some (an_height a))
                | None => call (get_checkpoint chain_id)
                end in
  match checkpoint, start_height config with
  | None, None => fail (FatalIndexerError "--start-height or INDEXER_START_HEIGHT is required for an empty database")
  | _, _ =>
      let* probes := probe_step rpc_urls chain_id max_height_lag in
      let* _ := call (record_rpc_probe_cycle chain_id (map (with_selected false) probes)) in
      let next_height := match checkpoint with Some c => c + 1 | None => default 0 (start_height config) end in
      let candidates := candidate_probes probes next_height in
      match candidates with
      | [] => fail (RpcError "All RPC endpoints are rejected or unavailable")
      | _ => if highest_tip candidates <? next_height
             then confirm_range chain_id anchor checkpoint candidates
             else index_range chain_id config anchor checkpoint next_height candidates
      end
  end.

(** ** The continuous loop

    [while] loops take fuel; [None] means it ran out, which
    [run_continuous_terminates] excludes. *)
Definition loop (A : Type) : Type := state -> option (res A * state).

Definition next_backoff (config : ContinuousConfig) (backoff : Z) : Z :=
  Z.min (max_backoff_seconds config) (backoff * 2).
Definition reached (limit : option Z) (n : Z) : bool :=
  match limit with Some m => m <=? n | None => false end.

Fixpoint acquire_lock_with_backoff (fuel : nat) (key : Z) (config : ContinuousConfig) (attempts backoff : Z) : loop bool :=
  fun s =>
  match fuel with
  | O => None
  | S fuel =>
      if stopped s then Some (Ok false, s) else
      match lock_acquire key s with
      | (Ok _, s) => Some (Ok true, s)
      | (Raise e, s) =>
          if isinstance_AdvisoryLockHeld e || negb (is_transient_error e) then Some (Raise e, s)
          else if once config || reached (max_cycles config) (attempts + 1) then Some (Ok false, s)
          else match stop_aware_wait backoff s with
               | (Ok true, s) => Some (Ok false, s)
               | (Ok false, s) => acquire_lock_with_backoff fuel key config (attempts + 1) (next_backoff config backoff) s
               | (Raise e, s) => Some (Raise e, s)
               end
      end
  end.

Fixpoint load_rpc_selection_state (fuel : nat) (chain_id : string) (config : ContinuousConfig) (backoff : Z)
    : loop (option RpcSelectionState) :=
  fun s =>
  match fuel with
  | O => None
  | S fuel =>
      if stopped s then Some (Ok None, s) else
      match lock_ensure_alive s with
      | (Raise e, s) => Some (Raise e, s)
      | (Ok _, s) =>
          match call (get_selected_rpc_url chain_id) s with
          | (Ok url, s) =>
              let '(r, s) := lock_ensure_alive s in
              Some ((fun _ => Some (Build_RpcSelectionState url None 0)) <$> r, s)
          | (Raise e, s) =>
              if negb (is_transient_error e) then Some (Raise e, s)
              else if once config then Some (Ok None, s)
              else match stop_aware_wait backoff s with
                   | (Ok true, s) => Some (Ok None, s)
                   | (Ok false, s) => load_rpc_selection_state fuel chain_id config (next_backoff config backoff) s
                   | (Raise e, s) => Some (Raise e, s)
                   end
          end
      end
  end.

(** [_safe_checkpoint] is only logged; its query is still made. *)
Definition safe_checkpoint (chain_id : string) (s : state) : state := (call (get_checkpoint chain_id) s).2.

(** How the main loop ends: [return 1], or a [break] with its counters. *)
Inductive loop_end : Type :=
| Returned
| Broke (attempted_cycles successful_cycles : Z).

Section main.
Context (chain_id : string) (rpc_urls : list string) (max_height_lag : Z) (config : ContinuousConfig).

Fixpoint main_loop (fuel : nat) (cycle successful_cycles backoff : Z) : loop loop_end := fun s =>
  match fuel with
  | O => None
  | S fuel =>
      if stopped s || reached (max_cycles config) cycle then Some (Ok (Broke cycle successful_cycles), s) else
      match lock_ensure_alive s with
      | (Raise e, s) => Some (Raise e, s)
      | (Ok _, s) =>
          let cycle := cycle + 1 in
          match run_cycle chain_id rpc_urls max_height_lag config s with
          | (Raise e, s) =>
              match conflict_message e with
              | Some m => Some (Raise (FatalIndexerError m), s)
              | None =>
                  if negb (is_transient_error e) then Some (Raise e, s) else
                  let s := safe_checkpoint chain_id s in
                  if once config then Some (Ok Returned, s)
                  else if reached (max_cycles config) cycle then Some (Ok (Broke cycle successful_cycles), s)
                  else
                    let '(stopped_now, s) := if stopped s then (Ok false, s) else stop_aware_wait backoff s in
                    match stopped_now with
                    | Ok true => Some (Ok (Broke cycle successful_cycles), s)
                    | Ok false => main_loop fuel cycle successful_cycles (next_backoff config backoff) s
                    | Raise e => Some (Raise e, s)
                    end
              end
          | (Ok result, s) =>
              let successful_cycles := successful_cycles + 1 in
              let backoff := match processed result with [] => backoff | _ => error_backoff_seconds config end in
              if once config || stopped s then Some (Ok (Broke cycle successful_cycles), s)
              else match processed result with
                   | _ :: _ => main_loop fuel cycle successful_cycles backoff s
                   | [] =>
                       if reached (max_cycles config) cycle then Some (Ok (Broke cycle successful_cycles), s)
                       else match stop_aware_wait (poll_interval_seconds config) s with
                            | (Ok true, s) => Some (Ok (Broke cycle successful_cycles), s)
                            | (Ok false, s) => main_loop fuel cycle successful_cycles backoff s
                            | (Raise e, s) => Some (Raise e, s)
                            end
                   end
          end
      end
  end.

(** The body of the try statement: the exit code. *)
Definition run_locked (fuel : nat) : loop Z := fun s =>
  match acquire_lock_with_backoff fuel (advisory_lock_key chain_id) config 0 (error_backoff_seconds config) s with
  | None => None
  | Some (Raise e, s) => Some (Raise e, s)
  | Some (Ok false, s) => Some (Ok 1, s)
  | Some (Ok true, s) =>
      match load_rpc_selection_state fuel chain_id config (error_backoff_seconds config) s with
      | None => None
      | Some (Raise e, s) => Some (Raise e, s)
      | Some (Ok None, s) => Some (Ok 1, s)
      | Some (Ok (Some st), s) =>
          match main_loop fuel 0 0 (error_backoff_seconds config) (State (world s) (connection s) (Some st) (decoder s)) with
          | None => None
          | Some (Raise e, s) => Some (Raise e, s)
          | Some (Ok Returned, s) => Some (Ok 1, s)
          | Some (Ok (Broke attempted successful), s) =>
              let s := safe_checkpoint chain_id s in
              Some (Ok (if negb (attempted =? 0) && (successful =? 0) then 1 else 0), s)
          end
      end
  end.

(** [run_continuous]: an invalid configuration raises; every other exception
    is logged and becomes exit code 1; the lock is closed in the end. *)
Definition run_continuous (fuel : nat) : loop Z := fun s =>
  match validate_continuous_config config with
  | Raise e => Some (Raise e, s)
  | Ok _ =>
      if bool_decide (rpc_urls = []) then Some (Ok 1, s) else
      match run_locked fuel s with
      | None => None
      | Some (r, s) =>
          Some (Ok (match r with Ok code => code | Raise _ => 1 end), (lock_close (advisory_lock_key chain_id) s).2)
      end
  end.
End main.
End runner.
