(* ===== verification/RunnerSafety.v ===== *)
(** * The runner against its interface: what reaches the database

    [IndexerLaws] states what the runner relies on; the theorems here hold
    for every implementation of it, whatever the endpoints answer, whichever
    calls fail and whenever a stop is requested. *)
From Stdlib Require Import ZArith NArith Lia Ascii String SpecFloat.
From stdpp Require Import base gmap sets list strings sorting.
From S2P Require Import Prelude PyStr PyVal Codec InspectRpc Rpc Summary Parsers Database Selection Runner.
Open Scope Z_scope.

(** ** The laws of the interface *)

(** What the finalized part of the database shows for one chain: the
    committed writes with the finalized tip each was made under, oldest first,
    the anchor and the checkpoint. *)
Record observation := {
  ob_history : list (ParsedHeight * Z);
  ob_anchor : option CheckpointAnchor;
  ob_checkpoint : option Z
}.
Definition anchor_of (p : ParsedHeight) : CheckpointAnchor :=
  Build_CheckpointAnchor (ph_height p) (b_hash_hex (ph_block p)).
(** A committed write of the height after the anchor moves the anchor to it
    (the stored hash is read back only if it is 64 hexadecimal digits). *)
Definition committed (p : ParsedHeight) (tip : Z) (o o' : observation) : Prop :=
  ob_history o' = ob_history o ++ [(p, tip)] /\
  (is_hash_hex (b_hash_hex (ph_block p)) = true ->
   match ob_anchor o with Some a => ph_height p = an_height a + 1 | None => ob_checkpoint o = None end ->
   ob_anchor o' = Some (anchor_of p) /\ ob_checkpoint o' = Some (ph_height p)).

(** What no call takes back: a stop request, and an invariant of the world. *)
Definition stays {W C} `{Indexer W C} (invariant : W -> Prop) (w w' : W) : Prop :=
  (requested (stop_of w) = true -> requested (stop_of w') = true) /\ (invariant w -> invariant w').
Lemma stays_refl {W C} `{Indexer W C} (invariant : W -> Prop) w : stays invariant w w.
Proof. by split. Qed.
Lemma stays_trans {W C} `{Indexer W C} (invariant : W -> Prop) w1 w2 w3 :
  stays invariant w1 w2 -> stays invariant w2 w3 -> stays invariant w1 w3.
Proof. intros [A1 A2] [B1 B2]. split; auto. Qed.

Definition quiet {W C} `{Indexer W C} (observe : W -> observation) (invariant : W -> Prop) (w w' : W) : Prop :=
  observe w' = observe w /\ stays invariant w w'.

(** Only [write_height] changes what is finalized, and a write that raises an
    error the runner attributes to the endpoint has committed nothing. *)
Class IndexerLaws {W C} `{Indexer W C} (chain_id : string) := {
  observe : W -> observation;
  invariant : W -> Prop;
  law_wait n w : quiet observe invariant w (event_wait n w).2;
  law_statuses w : quiet observe invariant w (rpc_statuses w).2;
  law_answers url w : quiet observe invariant w (rpc_answers url w).2;
  law_get_checkpoint w : quiet observe invariant w (get_checkpoint chain_id w).2;
  law_get_anchor w : quiet observe invariant w (get_checkpoint_anchor chain_id w).2;
  law_get_selected w : quiet observe invariant w (get_selected_rpc_url chain_id w).2;
  law_record_cycle ps w : quiet observe invariant w (record_rpc_probe_cycle chain_id ps w).2;
  law_select p r w : quiet observe invariant w (select_rpc_endpoint chain_id p r w).2;
  law_failure p r w : quiet observe invariant w (record_rpc_runtime_failure chain_id p r w).2;
  law_connect w : quiet observe invariant w (connect w).2;
  law_try_lock c k w : quiet observe invariant w (try_advisory_lock c k w).2;
  law_select_1 c w : quiet observe invariant w (select_1 c w).2;
  law_unlock c k w : quiet observe invariant w (advisory_unlock c k w).2;
  law_close c w : quiet observe invariant w (close_connection c w).2;
  law_anchor w a : (get_checkpoint_anchor chain_id w).1 = Ok a ->
    a = ob_anchor (observe w) /\ ob_checkpoint (observe w) = an_height <$> a;
  law_checkpoint w c : (get_checkpoint chain_id w).1 = Ok c -> c = ob_checkpoint (observe w);
  law_write p tip w :
    let '(r, w') := write_height p chain_id tip w in
    stays invariant w w' /\
    match r with
    | Ok _ => committed p tip (observe w) (observe w')
    | Raise e => observe w' = observe w \/ (committed p tip (observe w) (observe w') /\ endpoint_error e = false)
    end
}.

(** ** Chains of committed heights *)

(** The block carries its own hash, and was final when it was written. *)
Definition finalized_block (pt : ParsedHeight * Z) : Prop :=
  ph_height pt.1 <= pt.2 /\ canonical_block_hash_hex (ph_raw_block pt.1) = Ok (b_hash_hex (ph_block pt.1)).
(** [p] is the first height of an empty database, or the block after the
    anchor, naming the anchor's hash as its parent. *)
Definition follows `{PyRuntime} (start : option Z) (a : option CheckpointAnchor) (p : ParsedHeight) : Prop :=
  match a with
  | None => start = Some (ph_height p)
  | Some a => ph_height p = an_height a + 1 /\
      parent_block_hash_hex (ph_raw_block p) = Ok (py_upper (an_block_hash_hex a))
  end.
Fixpoint linked `{PyRuntime} (start : option Z) (a : option CheckpointAnchor) (l : list (ParsedHeight * Z)) : Prop :=
  match l with
  | [] => True
  | pt :: l' => finalized_block pt /\ follows start a pt.1 /\ linked start (Some (anchor_of pt.1)) l'
  end.
Definition last_anchor (a : option CheckpointAnchor) (l : list (ParsedHeight * Z)) : option CheckpointAnchor :=
  match last l with Some pt => Some (anchor_of pt.1) | None => a end.
Definition heights_of (l : list (ParsedHeight * Z)) : list Z := map (fun pt => ph_height pt.1) l.

Section linked.
Context `{PyRuntime} (start : option Z).

Lemma last_anchor_app a l k : last_anchor a (l ++ k) = last_anchor (last_anchor a l) k.
Proof. unfold last_anchor. rewrite last_app. by destruct (last k). Qed.
Lemma linked_app a l k : linked start a (l ++ k) <-> linked start a l /\ linked start (last_anchor a l) k.
Proof.
  revert a. induction l as [|pt l IH]; intros a; [simpl; naive_solver|].
  cbn [app linked]. rewrite IH. replace (last_anchor a (pt :: l)) with (last_anchor (Some (anchor_of pt.1)) l).
  - naive_solver.
  - unfold last_anchor. rewrite last_cons. by destruct (last l).
Qed.

(** From one observation to another by committing [l]. *)
Record extends (o o' : observation) (l : list (ParsedHeight * Z)) : Prop := {
  ex_history : ob_history o' = ob_history o ++ l;
  ex_linked : linked start (ob_anchor o) l;
  ex_same : l = [] -> o' = o;
  ex_anchor : l <> [] -> ob_anchor o' = last_anchor (ob_anchor o) l;
  ex_checkpoint : l <> [] -> ob_checkpoint o' = an_height <$> ob_anchor o'
}.

Lemma extends_refl o : extends o o [].
Proof. constructor; try done. by rewrite app_nil_r. Qed.
Lemma extends_trans o1 o2 o3 l k : extends o1 o2 l -> extends o2 o3 k -> extends o1 o3 (l ++ k).
Proof.
  intros [A1 A2 A3 A4 A5] [B1 B2 B3 B4 B5].
  assert (Ha : ob_anchor o2 = last_anchor (ob_anchor o1) l).
  { destruct l; [by rewrite A3|by apply A4]. }
  constructor.
  - by rewrite B1, A1, app_assoc.
  - apply linked_app. by rewrite <- Ha.
  - intros [-> ->]%app_nil. by rewrite B3, A3.
  - intros Hne. rewrite last_anchor_app, <- Ha. destruct k as [|x k]; [|by apply B4]. by rewrite B3.
  - intros Hne. destruct k as [|x k]; [|by apply B5]. rewrite B3 by done. apply A5. by intros ->.
Qed.

Lemma committed_extends p tip o o' : committed p tip o o' -> finalized_block (p, tip) ->
  follows start (ob_anchor o) p -> (ob_anchor o = None -> ob_checkpoint o = None) -> extends o o' [(p, tip)].
Proof.
  intros [Hh Hm] Hf Hl Hn. destruct Hm as [Ha Hc].
  { destruct Hf as [_ Hc]. apply canonical_block_hash_hex_Ok in Hc as (v & b & _ & (t & _ & _ & _ & Hlen) & Heq).
    simpl in Heq. rewrite Heq. by apply hex_upper_hash. }
  { unfold follows in Hl. destruct (ob_anchor o); [by destruct Hl|by apply Hn]. }
  constructor; try done. intros _. by rewrite Ha, Hc.
Qed.
End linked.

(** The hash the runner compares and the hash it stores are the same. *)
Lemma parsed_hash `{PyRuntime} {D} `{TransactionDecoder D} height bp rp cp vp (dec dec' : option D) p h :
  canonical_block_hash_hex bp = Ok h -> parse_height height bp rp cp vp dec = (Ok p, dec') ->
  ph_height p = height /\ ph_raw_block p = bp /\ b_hash_hex (ph_block p) = h.
Proof.
  intros Hh Hp. apply canonical_block_hash_hex_Ok in Hh as (v & b & Hv & (s & -> & _ & Hb & _) & ->).
  unfold block_hash_field in Hv. apply bind_Ok in Hv as (r & Hr & Hv). apply bind_Ok in Hv as (m & Hm & Hv).
  apply bind_Ok in Hv as (i & Hi & Hs). destruct (parse_height_facts _ _ _ _ _ _ _ _ _ Hr Hp) as (Hok & b' & Hb' & Hhex & _).
  split; [apply Hok|]. split.
  - unfold parse_height in Hp. destruct (parse_height_block bp dec) as [pb d1]. injection Hp as Hp _. inv_res. done.
  - apply parse_block_Ok in Hb' as (data & _ & _ & _ & _ & hb & Hd & _ & _ & _ & _ & _ & (m' & i' & Hm' & Hi' & Hs') & Hdec & Heq).
    unfold result in Hd. destruct bp as [| | | | | |bp]; try done. destruct r as [| | | | | |r]; try done.
    destruct m as [| | | | | |m]; try done. destruct i as [| | | | | |i]; try done. simpl in *.
    destruct (dict_get "result" bp); [|done]. injection Hr as ->. simpl in Hd. injection Hd as <-. simpl in *.
    destruct (dict_get "block_meta" r); [|done]. injection Hm as ->. injection Hm' as <-. simpl in *.
    destruct (dict_get "block_id" m); [|done]. injection Hi as ->. injection Hi' as <-. simpl in *.
    destruct (dict_get "hash" i); [|done]. injection Hs as ->. injection Hs' as ->. rewrite Hhex, Heq. congruence.
Qed.

(** ** Steps that leave the finalized part alone *)
Section steps.
Context `{PyRuntime} {W C D : Type} `{Indexer W C} `{TransactionDecoder D} (chain_id : string).
Context {laws : IndexerLaws chain_id}.
#[local] Abbreviation state := (@state W C D).
#[local] Abbreviation observed s := (observe (world s)).

#[local] Abbreviation quiet_from := (quiet observe invariant).
Lemma quiet_from_refl w : quiet_from w w.
Proof. split; [done|apply stays_refl]. Qed.
Lemma quiet_from_trans w1 w2 w3 : quiet_from w1 w2 -> quiet_from w2 w3 -> quiet_from w1 w3.
Proof. intros [A1 A2] [B1 B2]. split; [congruence|]. by eapply stays_trans. Qed.

Definition quiet_step {A} (m : @step W C D A) : Prop := forall s, quiet_from (world s) (world (m s).2).

Lemma quiet_ret {A} (a : A) : quiet_step (ret a).
Proof. intros s. apply quiet_from_refl. Qed.
Lemma quiet_fail {A} e : quiet_step (A:=A) (fail e).
Proof. intros s. apply quiet_from_refl. Qed.
Lemma quiet_lift {A} (m : res A) : quiet_step (lift m).
Proof. intros s. apply quiet_from_refl. Qed.
Lemma quiet_on_selection f : quiet_step (modify (on_selection f)).
Proof. intros s. apply quiet_from_refl. Qed.
Lemma quiet_bind {A B} (m : @step W C D A) (f : A -> step B) :
  quiet_step m -> (forall a, quiet_step (f a)) -> quiet_step (bind m f).
Proof.
  intros Hm Hf s. unfold bind. specialize (Hm s). destruct (m s) as [[a|e] s1]; [|done].
  eapply quiet_from_trans; [exact Hm|apply Hf].
Qed.
Lemma quiet_call {A} (op : W -> res A * W) : (forall w, quiet_from w (op w).2) -> quiet_step (call op).
Proof. intros Hop s. unfold call. specialize (Hop (world s)). by destruct (op (world s)). Qed.
Lemma quiet_answers url : quiet_step (answers url).
Proof. intros s. unfold answers. pose proof (law_answers url (world s)) as Hl. by destruct (rpc_answers url (world s)). Qed.
Lemma quiet_wait n : quiet_step (stop_aware_wait n).
Proof.
  intros s. unfold stop_aware_wait. destruct (stopped s); [apply quiet_from_refl|].
  pose proof (law_wait n (world s)) as Hl. by destruct (event_wait n (world s)).
Qed.
Lemma quiet_probe urls lag : quiet_step (probe_step urls chain_id lag).
Proof.
  intros s. unfold probe_step. pose proof (law_statuses (world s)) as Hl.
  destruct (rpc_statuses (world s)) as [[g e] w]. exact Hl.
Qed.
Lemma quiet_parse height payloads : quiet_step (parse_fetched height payloads).
Proof.
  intros s. unfold parse_fetched. destruct payloads as [[[b r] c] v].
  destruct (parse_height height b r c v (decoder s)). apply quiet_from_refl.
Qed.
Lemma quiet_order candidates : quiet_step (order_candidates candidates).
Proof.
  intros s. unfold order_candidates. destruct (selection s); [|apply quiet_from_refl].
  destruct (order_indexer_candidates candidates r) as [[l reason] st]. apply quiet_from_refl.
Qed.

Create HintDb quiet.
#[local] Hint Resolve quiet_ret quiet_fail quiet_lift quiet_on_selection quiet_answers quiet_wait quiet_probe quiet_parse
  quiet_order law_get_checkpoint law_get_anchor law_get_selected law_record_cycle law_select law_failure law_connect
  law_try_lock law_select_1 law_unlock law_close : quiet.
#[local] Hint Extern 2 (quiet_step (call _)) => (apply quiet_call; intros ?) : quiet.
#[local] Hint Extern 2 (quiet_step (bind _ _)) => (apply quiet_bind; [|intros ?]) : quiet.

Lemma quiet_activate_candidate p anchor reason : quiet_step (activate_candidate chain_id p anchor reason).
Proof. unfold activate_candidate. destruct anchor; auto 8 with quiet. Qed.
Lemma quiet_reject p e : quiet_step (reject chain_id p e).
Proof. unfold reject. auto 8 with quiet. Qed.
#[local] Hint Resolve quiet_activate_candidate quiet_reject : quiet.
Lemma quiet_activate reason height i p v : quiet_step (activate chain_id reason height i p v).
Proof. unfold activate. destruct (in_strs _ _); auto 8 with quiet. Qed.

Lemma quiet_confirm anchor cp reason first fb l : quiet_step (confirm_loop chain_id anchor cp reason first fb l).
Proof.
  revert first fb. induction l as [|p l IH]; intros first fb; cbn [confirm_loop]; [auto with quiet|]. intros s.
  pose proof (quiet_activate_candidate p anchor (if first then reason else "selected_unavailable") s) as Ha.
  destruct (activate_candidate _ _ _ _ s) as [[u|e] s1]; [exact Ha|]. destruct (endpoint_error e); [|exact Ha].
  eapply quiet_from_trans; [exact Ha|]. apply (quiet_bind (reject chain_id p e)); [auto with quiet|]. intros ?. apply IH.
Qed.
#[local] Hint Resolve quiet_activate quiet_confirm : quiet.

(** *** The lock *)
Lemma quiet_close_best_effort c : quiet_step (close_connection_best_effort c).
Proof. intros s. unfold close_connection_best_effort. apply (quiet_call (close_connection c)). auto with quiet. Qed.
Lemma quiet_lock_close key : quiet_step (lock_close key).
Proof.
  intros s. unfold lock_close. destruct (connection s) as [c|]; [|apply quiet_from_refl]. cbv zeta.
  eapply quiet_from_trans; [|apply quiet_close_best_effort].
  apply (quiet_call (advisory_unlock c key) (law_unlock c key) (set_connection None s)).
Qed.
Lemma quiet_lock_acquire key : quiet_step (lock_acquire key).
Proof.
  intros s. unfold lock_acquire. cbv zeta.
  assert (Hs : quiet_from (world s) (world (match connection s with Some _ => (lock_close key s).2 | None => s end))).
  { destruct (connection s); [apply quiet_lock_close|apply quiet_from_refl]. }
  eapply quiet_from_trans; [exact Hs|]. apply quiet_bind; [auto with quiet|]. intros c s1.
  pose proof (quiet_call (try_advisory_lock c key) (law_try_lock c key) s1) as Ht.
  destruct (call (try_advisory_lock c key) s1) as [[[]|e] s2]; cbn [snd] in *; [exact Ht|..];
    (eapply quiet_from_trans; [exact Ht|apply (quiet_close_best_effort c s2)]).
Qed.
Lemma quiet_ensure_alive : quiet_step lock_ensure_alive.
Proof.
  intros s. unfold lock_ensure_alive. destruct (connection s) as [c|]; [|apply quiet_from_refl].
  destruct (connection_closed c (world s)); [apply quiet_from_refl|].
  pose proof (quiet_call (select_1 c) (law_select_1 c) s) as Ht. by destruct (call (select_1 c) s).
Qed.

(** ** Indexing heights *)
Section heights.
Context (start : option Z).

(** The locals agree with what is stored: the next height to write follows
    the anchor they expect. *)
Definition at_height (height : Z) (v : locals) (o : observation) : Prop :=
  ob_anchor o = current_anchor height v /\ (ob_anchor o = None -> ob_checkpoint o = None /\ start = Some height).

Lemma lift_bind {A B} (m : res A) (f : A -> @step W C D B) s :
  bind (lift m) f s = match m with Ok a => f a s | Raise e => (Raise e, s) end.
Proof. by destruct m. Qed.

Lemma verify_parent_Ok payload expected h : verify_parent_continuity payload expected = Ok h ->
  parent_block_hash_hex payload = Ok (py_upper expected) /\ canonical_block_hash_hex payload = Ok h.
Proof.
  unfold verify_parent_continuity. intros (a & Ha & (u & Hr%require_Ok & Hc)%bind_Ok)%bind_Ok.
  apply String.eqb_eq in Hr as ->. done.
Qed.

(** What one attempt at a height leaves. *)
Definition attempt_post {A} (height : Z) (r : res A) (s s' : state) (next : A -> observation -> Prop) : Prop :=
  stays invariant (world s) (world s') /\
  match r with
  | Ok a => exists pt, extends start (observed s) (observed s') [pt] /\ ph_height pt.1 = height /\ next a (observed s')
  | Raise e => (exists l, extends start (observed s) (observed s') l) /\ (endpoint_error e = true -> observed s' = observed s)
  end.

Lemma attempt_quiet {A} height e (s s' : state) (next : A -> observation -> Prop) :
  quiet_from (world s) (world s') -> attempt_post height (Raise e) s s' next.
Proof. intros [Ho Hs]. split; [done|]. split; [|done]. exists []. rewrite Ho. apply extends_refl. Qed.

Lemma index_height_post height p v s : at_height height v (observed s) -> height <= tip_of p ->
  let '(r, s') := index_height chain_id height p v s in
  attempt_post height r s s' (fun h o => forall i, at_height (height + 1) (set_done i h v) o).
Proof.
  intros [Hanchor Hnone] Htip. unfold index_height.
  pose proof (quiet_answers (pr_url p) s) as Hq. unfold bind at 1.
  destruct (answers (pr_url p) s) as [[get|e] s1]; cbn [snd] in Hq; [|by apply attempt_quiet].
  rewrite lift_bind. destruct (fetch_height get height) as [payloads|e]; [|by apply attempt_quiet]. cbv zeta.
  rewrite lift_bind.
  destruct (match expected_parent v with Some h => verify_parent_continuity _ h | None => _ end) as [bh|e] eqn:Ebh;
    [|by apply attempt_quiet].
  assert (Hbh : canonical_block_hash_hex payloads.1.1.1 = Ok bh /\
    match expected_parent v with Some h => parent_block_hash_hex payloads.1.1.1 = Ok (py_upper h) | None => True end).
  { destruct (expected_parent v); [|done]. by apply verify_parent_Ok in Ebh as [? ?]. }
  clear Ebh. destruct Hbh as [Hcanon Hparent].
  unfold bind at 1. unfold parse_fetched. destruct payloads as [[[bp rp] cp] vp]. cbn [fst] in *.
  destruct (parse_height height bp rp cp vp (decoder s1)) as [[parsed|e] dec] eqn:Ep; [|by apply attempt_quiet].
  destruct (parsed_hash _ _ _ _ _ _ _ _ _ Hcanon Ep) as (Hh & Hraw & Hhash).
  unfold bind at 1, call. cbn [world set_decoder]. pose proof (law_write parsed (tip_of p) (world s1)) as Hw.
  destruct Hq as [Hobs Hstop].
  assert (Hfin : finalized_block (parsed, tip_of p)). { split; [simpl; lia|]. simpl. by rewrite Hraw, Hhash. }
  assert (Hfol : follows start (ob_anchor (observed s)) parsed).
  { unfold follows. rewrite Hanchor. unfold current_anchor in *. destruct (expected_parent v) as [h|]; simpl in *.
    - split; [lia|by rewrite Hraw].
    - rewrite Hh. by apply Hnone. }
  assert (Hext : forall w, committed parsed (tip_of p) (observed s) (observe w) ->
    extends start (observed s) (observe w) [(parsed, tip_of p)]).
  { intros w Hc. eapply committed_extends; [exact Hc|done|done|]. intros Hn. by apply Hnone. }
  destruct (write_height parsed chain_id (tip_of p) (world s1)) as [[[]|e] w']; rewrite Hobs in Hw.
  - destruct Hw as [Hst Hc]. split; [by eapply stays_trans|]. cbn [modify ret world on_selection set_world].
    unfold bind, modify, ret. cbn [world on_selection set_world]. exists (parsed, tip_of p). split; [by apply Hext|]. split; [done|].
    intros i. destruct (Hext _ Hc) as [_ _ _ Ha _]. split.
    + rewrite Ha by done. unfold last_anchor, current_anchor, anchor_of. simpl. do 2 f_equal; [lia|done].
    + by rewrite Ha.
  - destruct Hw as [Hst Hc]. split; [by eapply stays_trans|]. cbn [world set_world]. destruct Hc as [Hc|[Hc He]].
    + split; [|done]. exists []. rewrite Hc. apply extends_refl.
    + split; [by eexists; apply Hext|]. congruence.
Qed.

(** A caught failure changes nothing but the bookkeeping. *)
Definition failed_like (v v' : locals) : Prop := expected_parent v' = expected_parent v /\ active v' = active v.

Lemma attempt_after {A} height (r : res A) (s s1 s' : state) next :
  quiet_from (world s) (world s1) -> attempt_post height r s1 s' next -> attempt_post height r s s' next.
Proof.
  intros [Ho Hs] [Hst Hr]. rewrite Ho in Hr. split; [|done]. by eapply stays_trans.
Qed.

Lemma at_height_like height v v' o : failed_like v v' -> at_height height v o -> at_height height v' o.
Proof. intros [Hp _]. unfold at_height, current_anchor. by rewrite Hp. Qed.

Definition probe_post (height : Z) (v : locals) (r : res (option exc * locals)) (s s' : state) : Prop :=
  match r with
  | Ok (Some _, v') => quiet_from (world s) (world s') /\ failed_like v v'
  | Ok (None, v') => attempt_post height (Ok v') s s' (at_height (height + 1)) /\ is_Some (active v')
  | Raise e => attempt_post height (Raise (A:=locals) e) s s' (at_height (height + 1))
  end.

Lemma rejected_post height p e v v0 s : failed_like v0 v ->
  let '(r, s') := bind (reject chain_id p e) (fun reason => ret (Some e, set_failed (pr_url p) reason v)) s in
  probe_post height v0 r s s'.
Proof.
  intros Hv. pose proof (quiet_reject p e s) as Hq. unfold bind.
  destruct (reject chain_id p e s) as [[reason|e'] s1]; [|by apply attempt_quiet]. split; [exact Hq|]. exact Hv.
Qed.

Lemma probe_after height v r (s s1 s' : state) :
  quiet_from (world s) (world s1) -> probe_post height v r s1 s' -> probe_post height v r s s'.
Proof.
  intros Hq. destruct r as [[[e|] v']|e]; simpl.
  - intros [Hq' Hv]. split; [by eapply quiet_from_trans|done].
  - intros [Ha Hv]. split; [by eapply attempt_after|done].
  - by apply attempt_after.
Qed.

Lemma activate_like reason height i p v (s : state) v' s' :
  activate chain_id reason height i p v s = (Ok v', s') -> failed_like v v'.
Proof.
  unfold activate. destruct (in_strs _ _); [by intros [= <- _]|]. unfold bind.
  destruct (activate_candidate _ _ _ _ s) as [[]]; [by intros [= <- _]|done].
Qed.

Lemma try_probe_post reason height i p v s : at_height height v (observed s) -> height <= tip_of p ->
  let '(r, s') := try_probe chain_id reason height i p v s in probe_post height v r s s'.
Proof.
  intros Hat Htip. unfold try_probe. pose proof (quiet_activate reason height i p v s) as Hq.
  destruct (activate chain_id reason height i p v s) as [[v1|e] s1] eqn:Ea; cbn [snd] in Hq.
  - apply activate_like in Ea. assert (Hat1 : at_height height v1 (observed s1)).
    { destruct Hq as [-> _]. by eapply at_height_like. }
    pose proof (index_height_post height p v1 s1 Hat1 Htip) as Hi.
    destruct (index_height chain_id height p v1 s1) as [[bh|e] s2].
    + apply (attempt_after _ _ _ _ _ _ Hq) in Hi. destruct Hi as [Hst (pt & Hx & Hh & Hnext)].
      split; [|by eexists]. split; [done|]. exists pt. split_and!; auto.
    + destruct (endpoint_error e) eqn:Ee.
      * destruct Hi as [Hst [_ Hobs]]. specialize (Hobs Ee).
        pose proof (rejected_post height p e v1 v s2 Ea) as Hr.
        destruct (bind (reject chain_id p e) _ s2) as [r s3].
        eapply probe_after; [|exact Hr]. eapply quiet_from_trans; [exact Hq|]. by split.
      * apply (attempt_after _ _ _ _ _ _ Hq) in Hi as [Hst [Hx _]]. split; [done|]. split; [done|congruence].
  - destruct (endpoint_error e) eqn:Ee; [|by apply attempt_quiet].
    pose proof (rejected_post height p e v v s1 ltac:(done)) as Hr.
    destruct (bind (reject chain_id p e) _ s1) as [r s3]. by eapply probe_after.
Qed.

Definition tries_post (height : Z) (r : res (Z * option exc * locals)) (s s' : state) : Prop :=
  match r with
  | Ok (_, last, v') =>
      if bool_decide (is_Some (active v')) then attempt_post height (Ok v') s s' (at_height (height + 1))
      else quiet_from (world s) (world s') /\ (forall e, last = Some e -> endpoint_error e = true)
  | Raise e => attempt_post height (Raise (A:=locals) e) s s' (at_height (height + 1))
  end.

Lemma tries_after height r (s s1 s' : state) :
  quiet_from (world s) (world s1) -> tries_post height r s1 s' -> tries_post height r s s'.
Proof.
  intros Hq. destruct r as [[[n last] v']|e]; simpl; [|by apply attempt_after].
  case_bool_decide; [by apply attempt_after|]. intros [Hq' Hl]. split; [by eapply quiet_from_trans|done].
Qed.

(** Only an error attributed to the endpoint is a caught failure. *)
Lemma try_probe_caught reason height i p v (s : state) e v' s' :
  try_probe chain_id reason height i p v s = (Ok (Some e, v'), s') -> endpoint_error e = true.
Proof.
  assert (Hrej : forall e0 v0 s0, bind (reject chain_id p e0) (fun reason => ret (Some e0, set_failed (pr_url p) reason v0)) s0
    = (Ok (Some e, v'), s') -> e0 = e).
  { intros e0 v0 s0. unfold bind. destruct (reject chain_id p e0 s0) as [[] s1]; [|done]. by intros [= -> _ _]. }
  unfold try_probe. destruct (activate _ _ _ _ _ _ s) as [[v1|e1] s1].
  - destruct (index_height chain_id height p v1 s1) as [[bh|e2] s2]; [done|].
    destruct (endpoint_error e2) eqn:Ee; [|done]. by intros ->%Hrej.
  - destruct (endpoint_error e1) eqn:Ee; [|done]. by intros ->%Hrej.
Qed.

Lemma try_probes_post reason height n last l v s : at_height height v (observed s) -> active v = None ->
  (forall e, last = Some e -> endpoint_error e = true) ->
  let '(r, s') := try_probes chain_id reason height n last l v s in tries_post height r s s'.
Proof.
  revert n last v s. induction l as [|[i p] l IH]; intros n last v s Hat Hact Hlast; cbn [try_probes].
  { unfold ret, tries_post. rewrite bool_decide_eq_false_2 by (rewrite Hact; by intros [? ?]).
    split; [apply quiet_from_refl|done]. }
  destruct (skipped height p v) eqn:Esk; [by apply IH|]. apply orb_false_iff in Esk as [_ Htip%Z.ltb_ge].
  pose proof (try_probe_post reason height i p v s Hat Htip) as Hp. unfold bind.
  pose proof (try_probe_caught reason height i p v s) as Hc.
  destruct (try_probe chain_id reason height i p v s) as [[[[e|] v']|e] s1]; cbn [probe_post] in Hp.
  - destruct Hp as [Hq Hv].
    assert (Hat1 : at_height height v' (observed s1)). { destruct Hq as [-> _]. by eapply at_height_like. }
    specialize (IH (n + 1) (Some e) v' s1 Hat1 ltac:(rewrite (proj2 Hv); done)).
    destruct (try_probes chain_id reason height (n + 1) (Some e) l v' s1) as [r s2].
    eapply tries_after; [exact Hq|]. apply IH. intros e' [= <-]. by eapply Hc.
  - destruct Hp as [Ha Hv]. unfold ret, tries_post. by rewrite bool_decide_eq_true_2.
  - exact Hp.
Qed.

Lemma one_height_post reason candidates height v s : at_height height v (observed s) ->
  let '(r, s') := one_height chain_id reason candidates height v s in
  attempt_post height r s s' (at_height (height + 1)).
Proof.
  intros Hat. unfold one_height, bind.
  pose proof (try_probes_post reason height 0 None (try_order candidates v) (start_height_locals v) s Hat eq_refl ltac:(done)) as Hp.
  destruct (try_probes _ _ _ _ _ _ _ s) as [[[[n last] v']|e] s1]; cbn [tries_post] in Hp; [|exact Hp].
  destruct (active v') as [i|] eqn:Ea; simpl in Hp; [exact Hp|]. destruct Hp as [Hq Hl].
  destruct last as [e|]; [destruct (n =? 1)|]; by apply attempt_quiet.
Qed.

(** *** A range of heights *)
Definition consecutive (first : Z) (l : list (ParsedHeight * Z)) : Prop := heights_of l = seqZ first (Z.of_nat (length l)).

Lemma height_loop_post reason candidates n first v s : at_height first v (observed s) ->
  let '(r, s') := height_loop chain_id reason candidates (seqZ first n) v s in
  stays invariant (world s) (world s') /\
  exists l, extends start (observed s) (observed s') l /\
  match r with
  | Ok (hs, v') => hs = heights_of l /\ hs `prefix_of` seqZ first n /\ (hs = seqZ first n \/ stopped s' = true)
  | Raise _ => True
  end.
Proof.
  remember (Z.to_nat n) as k eqn:Ek. revert n first v s Ek. induction k as [|k IH]; intros n first v s Ek Hat.
  - rewrite seqZ_nil by lia. cbn. split; [apply stays_refl|]. exists []. split; [apply extends_refl|]. by split_and!; [|apply prefix_nil|left].
  - rewrite seqZ_cons by lia. cbn [height_loop]. destruct (stopped s) eqn:Est.
    + split; [apply stays_refl|]. exists []. split; [apply extends_refl|]. split_and!; [done|apply prefix_nil|by right].
    + pose proof (one_height_post reason candidates first v s Hat) as Ho. unfold bind at 1.
      destruct (one_height chain_id reason candidates first v s) as [[v1|e] s1].
      * destruct Ho as [Hst (pt & Hx & Hh & Hnext)].
        specialize (IH (Z.pred n) (first + 1) v1 s1 ltac:(lia) Hnext). unfold bind. replace (first + 1) with (Z.succ first) in IH by lia.
        destruct (height_loop _ _ _ _ v1 s1) as [[[hs v2]|e] s2]; destruct IH as (Hst2 & l & Hx2 & Hdone);
          (split; [by eapply stays_trans|]); exists (pt :: l);
          (split; [by apply (extends_trans start _ _ _ [pt] l Hx)|]); [|done]. cbn [fst snd].
        destruct Hdone as (-> & Hpre & Hall). split_and!.
        -- by rewrite <- Hh.
        -- by apply prefix_cons.
        -- destruct Hall as [->|]; [by left|by right].
      * destruct Ho as [Hst [[l Hx] _]]. split; [done|]. by exists l.
Qed.
End heights.

(** ** One cycle *)
Lemma highest_tip_ge p l : p ∈ l -> tip_of p <= highest_tip l.
Proof.
  unfold highest_tip. destruct l as [|q l]; [by intros ?%elem_of_nil|]. cbn [map]. intros Hp. apply max_list_ge.
  apply elem_of_cons in Hp as [->|Hp]; [by left|]. right. by apply list_elem_of_fmap_2.
Qed.
Lemma highest_tip_in l : l <> [] -> exists p, p ∈ l /\ tip_of p = highest_tip l.
Proof.
  unfold highest_tip. destruct l as [|q l]; [done|]. intros _. cbn [map].
  destruct (max_list_in (tip_of q) (map tip_of l)) as [Hm|Hm].
  - exists q. split; [by left|]. by rewrite Hm.
  - apply list_elem_of_fmap in Hm as (p & Hm & Hp). exists p. split; [by right|done].
Qed.

Lemma order_candidates_Ok candidates (s : state) : exists l reason s',
  order_candidates candidates s = (Ok (l, reason), s') /\ l ≡ₚ candidates /\ world s' = world s.
Proof.
  unfold order_candidates. destruct (selection s) as [st|]; [|by eexists _, _, _].
  destruct (order_indexer_candidates candidates st) as [[l reason] st'] eqn:E. apply order_cases in E as (Hp & _).
  by eexists _, _, _.
Qed.

(** What a cycle leaves, and what its result says about it. *)
Record cycle_result_ok (config : ContinuousConfig) (o o' : observation) (stop : bool) (l : list (ParsedHeight * Z))
    (r : CycleResult) : Prop := {
  cr_processed : processed r = heights_of l;
  cr_before : checkpoint_before r = ob_checkpoint o;
  cr_after : checkpoint_after r = ob_checkpoint o';
  cr_range : match planned_start r, planned_end r with
             | None, None => l = []
             | Some first, Some final =>
                 Some first = match ob_checkpoint o with Some c => Some (c + 1) | None => start_height config end /\
                 (1 <= batch_size config -> first <= final) /\ final <= first + batch_size config - 1 /\
                 processed r `prefix_of` seqZ first (final + 1 - first) /\
                 (processed r = seqZ first (final + 1 - first) \/ stop = true)
             | _, _ => False
             end
}.
Definition cycle_post (config : ContinuousConfig) (r : res CycleResult) (s s' : state) : Prop :=
  stays invariant (world s) (world s') /\
  exists l, extends (start_height config) (observed s) (observed s') l /\
    forall result, r = Ok result -> cycle_result_ok config (observed s) (observed s') (stopped s') l result.

Lemma cycle_quiet config e (s s' : state) : quiet_from (world s) (world s') -> cycle_post config (Raise e) s s'.
Proof. intros [Ho Hs]. split; [done|]. exists []. rewrite Ho. split; [apply extends_refl|done]. Qed.
Lemma cycle_after config r (s s1 s' : state) :
  quiet_from (world s) (world s1) -> cycle_post config r s1 s' -> cycle_post config r s s'.
Proof. intros [Ho Hs] [Hst Hl]. rewrite Ho in Hl. split; [|done]. by eapply stays_trans. Qed.

Lemma confirm_loop_result anchor cp reason first fb l (s : state) r s' :
  confirm_loop chain_id anchor cp reason first fb l s = (Ok r, s') ->
  exists tip, r = Build_CycleResult [] cp cp tip None None.
Proof.
  revert first fb s. induction l as [|p l IH]; intros first fb s; cbn [confirm_loop]; [done|].
  destruct (activate_candidate _ _ _ _ s) as [[u|e] s1]; [intros [= <- _]; eauto|].
  destruct (endpoint_error e); [|done]. unfold bind. destruct (reject chain_id p e s1) as [[] s2]; [apply IH|done].
Qed.

Lemma confirm_range_post config anchor cp candidates s : cp = ob_checkpoint (observed s) ->
  let '(r, s') := confirm_range chain_id anchor cp candidates s in cycle_post config r s s'.
Proof.
  intros Hcp. unfold confirm_range.
  destruct (order_candidates_Ok candidates s) as (l & reason & s1 & Ho & _ & Hw). unfold bind at 1. rewrite Ho.
  pose proof (quiet_confirm anchor cp reason true false l s1) as Hq.
  pose proof (confirm_loop_result anchor cp reason true false l s1) as Hr.
  destruct (confirm_loop _ _ _ _ _ _ _ s1) as [[r|e] s2]; cbn [snd] in Hq; rewrite Hw in Hq; [|by apply cycle_quiet].
  destruct (Hr _ _ eq_refl) as [tip ->]. destruct Hq as [Hobs Hst]. split; [done|]. exists [].
  rewrite Hobs. split; [apply extends_refl|]. intros result [= <-]. by constructor.
Qed.

Lemma index_range_post config anchor cp next candidates s :
  candidates <> [] -> next <= highest_tip candidates ->
  anchor = ob_anchor (observed s) -> cp = ob_checkpoint (observed s) -> ob_checkpoint (observed s) = an_height <$> anchor ->
  Some next = match cp with Some c => Some (c + 1) | None => start_height config end ->
  let '(r, s') := index_range chain_id config anchor cp next candidates s in cycle_post config r s s'.
Proof.
  intros Hne Htip Han Hcp Hcpa Hnext. unfold index_range.
  destruct (order_candidates_Ok (List.filter (fun p => next <=? tip_of p) candidates) s) as (l & reason & s1 & Ho & Hperm & Hw).
  unfold bind at 1. rewrite Ho. cbv beta iota zeta.
  set (last_height := Z.min (highest_tip l) (next + batch_size config - 1)).
  assert (Hhigh : next <= highest_tip l).
  { destruct (highest_tip_in candidates Hne) as (p & Hp & Heq). transitivity (tip_of p); [lia|]. apply highest_tip_ge.
    rewrite Hperm. apply list_elem_of_In, List.filter_In. split; [by apply list_elem_of_In|lia]. }
  assert (Hat : at_height (start_height config) next (Locals [] [] None (an_block_hash_hex <$> anchor) None) (observed s1)).
  { rewrite Hw. unfold at_height, current_anchor. cbn [expected_parent]. rewrite <- Han. split.
    - destruct anchor as [[h x]|]; [|done]. simpl in *. rewrite Hcpa in Hcp. subst cp. do 2 f_equal. injection Hnext. lia.
    - intros Hn. rewrite Hcpa, Hn. split; [done|]. rewrite Hcpa, Hn in Hcp. by subst cp. }
  pose proof (height_loop_post (start_height config) reason l (last_height + 1 - next) next _ s1 Hat) as Hl.
  unfold bind. destruct (height_loop _ _ _ _ _ s1) as [[[hs v]|e] s2]; rewrite Hw in Hl; destruct Hl as (Hst & k & Hx & Hk);
    [|by split; [|exists k]].
  destruct Hk as (-> & Hpre & Hall). unfold call.
  pose proof (law_get_checkpoint (world s2)) as [Hobs Hst2]. pose proof (law_checkpoint (world s2)) as Hc.
  destruct (get_checkpoint chain_id (world s2)) as [[c|e] w] eqn:Eg; cbn [fst snd] in *; unfold ret; cbn [world set_world].
  - split; [by eapply stays_trans|]. exists k. unfold set_world. cbn [world]. rewrite Hobs. split; [done|]. intros result [= <-].
    constructor; try done; cbn [checkpoint_after planned_start planned_end processed].
    + by apply Hc.
    + split_and!; [by rewrite <- Hcp|lia|lia|done|]. destruct Hall as [|Hs]; [by left|]. right. by apply Hst2.
  - split; [by eapply stays_trans|]. exists k. unfold set_world. cbn [world]. by rewrite Hobs.
Qed.

Lemma run_cycle_post urls lag config s :
  let '(r, s') := run_cycle chain_id urls lag config s in cycle_post config r s s'.
Proof.
  unfold run_cycle. unfold bind at 1.
  pose proof (quiet_call (get_checkpoint_anchor chain_id) law_get_anchor s) as Hq1.
  pose proof (law_anchor (world s)) as Ha. unfold call in *.
  destruct (get_checkpoint_anchor chain_id (world s)) as [[anchor|e] w1]; cbn [fst snd] in *; [|by apply cycle_quiet].
  destruct (Ha anchor eq_refl) as [Han Hcpa]. clear Ha.
  assert (Hcp : exists cp s2, (match anchor with Some a => ret (Some (an_height a)) | None => call (get_checkpoint chain_id) end)
      (set_world w1 s) = (cp, s2) /\ quiet_from (world s) (world s2) /\ (forall c, cp = Ok c -> c = ob_checkpoint (observed s))).
  { destruct anchor as [a|]; [eexists _, _; split; [done|]; split; [exact Hq1|]; intros c [= <-]; by rewrite Hcpa|]. unfold call.
    pose proof (law_get_checkpoint (world (set_world w1 s))) as Hq2. pose proof (law_checkpoint (world (set_world w1 s))) as Hc.
    destruct (get_checkpoint chain_id _) as [c w2]. eexists _, _. split; [done|]. split; [by eapply quiet_from_trans|].
    intros c' ->. rewrite (Hc c' eq_refl). by destruct Hq1 as [-> _]. }
  unfold bind at 1. destruct Hcp as (cp & s2 & Hrun & Hq2 & Hcp). unfold call in Hrun. rewrite Hrun. clear Hrun.
  destruct cp as [cp|e]; [|by apply cycle_quiet]. specialize (Hcp cp eq_refl).
  assert (Hnone : match cp, start_height config with None, None => true | _, _ => false end = true \/
    exists next, Some next = match cp with Some c => Some (c + 1) | None => start_height config end /\
      next = match cp with Some c => c + 1 | None => default 0 (start_height config) end).
  { destruct cp, (start_height config); eauto. }
  assert (Hgoal : forall next, Some next = match cp with Some c => Some (c + 1) | None => start_height config end ->
    next = match cp with Some c => c + 1 | None => default 0 (start_height config) end ->
    let '(r, s') := bind (probe_step urls chain_id lag) (fun probes =>
      bind (call (record_rpc_probe_cycle chain_id (map (with_selected false) probes))) (fun _ =>
      let next_height := match cp with Some c => c + 1 | None => default 0 (start_height config) end in
      let candidates := candidate_probes probes next_height in
      match candidates with
      | [] => fail (RpcError "All RPC endpoints are rejected or unavailable")
      | _ => if highest_tip candidates <? next_height then confirm_range chain_id anchor cp candidates
             else index_range chain_id config anchor cp next_height candidates
      end)) s2 in cycle_post config r s s').
  { intros next Hnext Heq. rewrite <- Heq. cbv zeta. unfold bind at 1. pose proof (quiet_probe urls lag s2) as Hq3.
    destruct (probe_step urls chain_id lag s2) as [[probes|e] s3]; cbn [snd] in Hq3;
      [|apply cycle_quiet; by eapply quiet_from_trans].
    unfold bind at 1. pose proof (quiet_call (record_rpc_probe_cycle chain_id (map (with_selected false) probes))
      (law_record_cycle _) s3) as Hq4.
    destruct (call _ s3) as [[u|e] s4]; cbn [snd] in Hq4;
      [|apply cycle_quiet; do 2 (eapply quiet_from_trans; [eassumption|]); done].
    assert (Hq : quiet_from (world s) (world s4)) by (do 2 (eapply quiet_from_trans; [eassumption|]); done).
    pose proof Hq as [Hobs _].
    destruct (candidate_probes probes next) as [|c cs] eqn:Ec; [by apply cycle_quiet|].
    destruct (highest_tip (c :: cs) <? next) eqn:Et.
    - pose proof (confirm_range_post config anchor cp (c :: cs) s4 ltac:(congruence)) as Hr.
      destruct (confirm_range _ _ _ _ s4). by eapply cycle_after.
    - pose proof (index_range_post config anchor cp next (c :: cs) s4 ltac:(done) ltac:(lia) ltac:(congruence)
        ltac:(congruence) ltac:(congruence) Hnext) as Hr.
      destruct (index_range _ _ _ _ _ _ s4). by eapply cycle_after. }
  destruct Hnone as [Hn|(next & Hn & Heq)].
  - destruct cp, (start_height config); try done. by apply cycle_quiet.
  - specialize (Hgoal next Hn Heq). by destruct cp, (start_height config).
Qed.

(** ** The continuous loop *)
Section continuous.
Context (urls : list string) (lag : Z) (config : ContinuousConfig).
#[local] Abbreviation start := (start_height config).

Definition extends_some (s s' : state) : Prop :=
  (exists l, extends start (observed s) (observed s') l) /\ (invariant (world s) -> invariant (world s')).
Lemma extends_some_quiet s s' : quiet_from (world s) (world s') -> extends_some s s'.
Proof. intros [Ho [_ Hi]]. split; [|done]. exists []. rewrite Ho. apply extends_refl. Qed.
Lemma extends_some_trans s1 s2 s3 : extends_some s1 s2 -> extends_some s2 s3 -> extends_some s1 s3.
Proof. intros [[l Hl] Hi] [[k Hk] Hj]. split; [|auto]. exists (l ++ k). by eapply extends_trans. Qed.
Lemma extends_after s1 s2 s3 : quiet_from (world s1) (world s2) -> extends_some s2 s3 -> extends_some s1 s3.
Proof. intros Hq. apply extends_some_trans. by apply extends_some_quiet. Qed.

Lemma acquire_quiet fuel key attempts backoff (s : state) r s' :
  acquire_lock_with_backoff fuel key config attempts backoff s = Some (r, s') -> quiet_from (world s) (world s').
Proof.
  revert attempts backoff s. induction fuel as [|fuel IH]; intros attempts backoff s; cbn [acquire_lock_with_backoff]; [done|].
  destruct (stopped s); [intros [= _ <-]; apply quiet_from_refl|].
  pose proof (quiet_lock_acquire key s) as Hq. destruct (lock_acquire key s) as [[u|e] s1]; cbn [snd] in Hq; [by intros [= _ <-]|].
  destruct (_ || _); [by intros [= _ <-]|]. destruct (_ || _); [by intros [= _ <-]|].
  pose proof (quiet_wait backoff s1) as Hq2. destruct (stop_aware_wait backoff s1) as [[[]|e'] s2]; cbn [snd] in Hq2.
  - intros [= _ <-]. by eapply quiet_from_trans.
  - intros Hr. do 2 (eapply quiet_from_trans; [eassumption|]). by eapply IH.
  - intros [= _ <-]. by eapply quiet_from_trans.
Qed.

Lemma load_quiet fuel backoff (s : state) r s' :
  load_rpc_selection_state fuel chain_id config backoff s = Some (r, s') -> quiet_from (world s) (world s').
Proof.
  revert backoff s. induction fuel as [|fuel IH]; intros backoff s; cbn [load_rpc_selection_state]; [done|].
  destruct (stopped s); [intros [= _ <-]; apply quiet_from_refl|].
  pose proof (quiet_ensure_alive s) as Hq. destruct (lock_ensure_alive s) as [[u|e] s1]; cbn [snd] in Hq; [|by intros [= _ <-]].
  pose proof (quiet_call (get_selected_rpc_url chain_id) law_get_selected s1) as Hq1.
  destruct (call (get_selected_rpc_url chain_id) s1) as [[url|e] s2]; cbn [snd] in Hq1.
  - pose proof (quiet_ensure_alive s2) as Hq2. destruct (lock_ensure_alive s2) as [x s3]; cbn [snd] in Hq2. intros [= _ <-].
    do 2 (eapply quiet_from_trans; [eassumption|]). done.
  - assert (Hq2 : quiet_from (world s) (world s2)) by (by eapply quiet_from_trans).
    destruct (negb _); [by intros [= _ <-]|]. destruct (once config); [by intros [= _ <-]|].
    pose proof (quiet_wait backoff s2) as Hq3. destruct (stop_aware_wait backoff s2) as [[[]|e'] s3]; cbn [snd] in Hq3.
    + intros [= _ <-]. by eapply quiet_from_trans.
    + intros Hr. do 2 (eapply quiet_from_trans; [eassumption|]). by eapply IH.
    + intros [= _ <-]. by eapply quiet_from_trans.
Qed.

Lemma safe_checkpoint_quiet (s : state) : quiet_from (world s) (world (safe_checkpoint chain_id s)).
Proof. apply (quiet_call (get_checkpoint chain_id) law_get_checkpoint). Qed.

Lemma main_loop_extends fuel cycle good backoff (s : state) r s' :
  main_loop chain_id urls lag config fuel cycle good backoff s = Some (r, s') -> extends_some s s'.
Proof.
  revert cycle good backoff s. induction fuel as [|fuel IH]; intros cycle good backoff s; cbn [main_loop]; [done|].
  destruct (_ || _); [intros [= _ <-]; by apply extends_some_quiet, quiet_from_refl|].
  pose proof (quiet_ensure_alive s) as Hq. destruct (lock_ensure_alive s) as [[u|e] s1]; cbn [snd] in Hq;
    [|intros [= _ <-]; by apply extends_some_quiet].
  pose proof (run_cycle_post urls lag config s1) as Hc.
  destruct (run_cycle chain_id urls lag config s1) as [[result|e] s2]; destruct Hc as ((_ & Hinv) & l & Hl & _);
    assert (Hs2 : extends_some s s2) by (eapply extends_after; [exact Hq|split; [by exists l|exact Hinv]]).
  - destruct (_ || _); [by intros [= _ <-]|]. destruct (processed result) as [|h hs].
    + destruct (reached _ _); [by intros [= _ <-]|]. pose proof (quiet_wait (poll_interval_seconds config) s2) as Hw.
      destruct (stop_aware_wait _ s2) as [[[]|e'] s3]; cbn [snd] in Hw; apply extends_some_quiet in Hw.
      * intros [= _ <-]. by eapply extends_some_trans.
      * intros Hr%IH. do 2 (eapply extends_some_trans; [eassumption|]). done.
      * intros [= _ <-]. by eapply extends_some_trans.
    + intros Hr%IH. by eapply extends_some_trans.
  - destruct (conflict_message e); [by intros [= _ <-]|]. destruct (negb _); [by intros [= _ <-]|]. cbv zeta.
    pose proof (safe_checkpoint_quiet s2) as Hc%extends_some_quiet.
    assert (Hs3 : extends_some s (safe_checkpoint chain_id s2)) by (by eapply extends_some_trans).
    destruct (once config); [by intros [= _ <-]|]. destruct (reached _ _); [by intros [= _ <-]|].
    assert (Hw : extends_some (safe_checkpoint chain_id s2)
      (if stopped (safe_checkpoint chain_id s2) then (Ok false, safe_checkpoint chain_id s2)
       else stop_aware_wait backoff (safe_checkpoint chain_id s2)).2).
    { destruct (stopped _); [apply extends_some_quiet, quiet_from_refl|apply extends_some_quiet, quiet_wait]. }
    destruct (if stopped _ then _ else _) as [[[]|e'] s4]; cbn [snd] in Hw.
    + intros [= _ <-]. by eapply extends_some_trans.
    + intros Hr%IH. do 2 (eapply extends_some_trans; [eassumption|]). done.
    + intros [= _ <-]. by eapply extends_some_trans.
Qed.

Lemma run_locked_extends fuel (s : state) r s' :
  run_locked chain_id urls lag config fuel s = Some (r, s') -> extends_some s s'.
Proof.
  unfold run_locked. destruct (acquire_lock_with_backoff _ _ _ _ _ s) as [[r1 s1]|] eqn:E1; [|done].
  apply acquire_quiet in E1. destruct r1 as [[]|e]; [|intros [= _ <-]; by apply extends_some_quiet..].
  destruct (load_rpc_selection_state _ _ _ _ s1) as [[r2 s2]|] eqn:E2; [|done].
  apply load_quiet in E2. assert (Hq : quiet_from (world s) (world s2)) by (by eapply quiet_from_trans).
  destruct r2 as [[st|]|e]; [|intros [= _ <-]; by apply extends_some_quiet..].
  destruct (main_loop _ _ _ _ _ _ _ _ _) as [[r3 s3]|] eqn:E3; [|done]. apply main_loop_extends in E3.
  assert (Hx : extends_some s s3) by (eapply extends_after; [exact Hq|exact E3]).
  destruct r3 as [[|a g]|e]; intros [= _ <-]; try done.
  eapply extends_some_trans; [exact Hx|]. apply extends_some_quiet, safe_checkpoint_quiet.
Qed.

Lemma run_continuous_extends fuel (s : state) r s' :
  run_continuous chain_id urls lag config fuel s = Some (r, s') -> extends_some s s'.
Proof.
  unfold run_continuous. destruct (validate_continuous_config config) as [u|e];
    [|intros [= _ <-]; apply extends_some_quiet, quiet_from_refl].
  case_bool_decide; [intros [= _ <-]; apply extends_some_quiet, quiet_from_refl|].
  destruct (run_locked _ _ _ _ _ s) as [[r1 s1]|] eqn:E; [|done]. intros [= _ <-]. apply run_locked_extends in E.
  eapply extends_some_trans; [exact E|]. apply extends_some_quiet, quiet_lock_close.
Qed.
End continuous.
End steps.

(** ** Termination *)
Section termination.
Context `{PyRuntime} {W C D : Type} `{Indexer W C} `{TransactionDecoder D}.
Context (chain_id : string) (urls : list string) (lag : Z) (config : ContinuousConfig).
#[local] Abbreviation state := (@state W C D).

(** [--once] or [--max-cycles]; the read of the persisted selection retries
    transient failures without counting them, so a cycle limit bounds the run
    only if that read fails for good when it fails. *)
Definition bounded_run : Prop :=
  once config = true \/
  (is_Some (max_cycles config) /\
   forall w e, (get_selected_rpc_url chain_id w).1 = Raise e -> is_transient_error e = false).
Definition cycles_bound : Z := default 0 (max_cycles config).

Lemma reached_below n : is_Some (max_cycles config) -> reached (max_cycles config) n = false -> n < cycles_bound.
Proof. unfold reached, cycles_bound. intros [m ->]. simpl. lia. Qed.

Lemma acquire_terminates fuel key attempts backoff (s : state) : bounded_run ->
  (Z.to_nat (cycles_bound - attempts) < fuel)%nat ->
  is_Some (acquire_lock_with_backoff fuel key config attempts backoff s).
Proof.
  intros Hb. revert attempts backoff s. induction fuel as [|fuel IH]; intros attempts backoff s Hf; [lia|].
  cbn [acquire_lock_with_backoff]. destruct (stopped s); [eauto|]. destruct (lock_acquire key s) as [[u|e] s1]; [eauto|].
  destruct (_ || negb _); [eauto|]. destruct (once config) eqn:Eo; [eauto|]. destruct Hb as [?|[Hm _]]; [congruence|].
  cbn [orb]. destruct (reached _ _) eqn:Er; [eauto|]. apply reached_below in Er; [|done].
  destruct (stop_aware_wait backoff s1) as [[[]|] s2]; [eauto| |eauto]. apply IH. lia.
Qed.

Lemma load_terminates fuel backoff (s : state) : bounded_run -> (0 < fuel)%nat ->
  is_Some (load_rpc_selection_state fuel chain_id config backoff s).
Proof.
  intros Hb Hf. destruct fuel as [|fuel]; [lia|]. cbn [load_rpc_selection_state]. destruct (stopped s); [eauto|].
  destruct (lock_ensure_alive s) as [[u|e] s1]; [|eauto]. unfold call.
  destruct (get_selected_rpc_url chain_id (world s1)) as [[url|e] w] eqn:Eg.
  - destruct (lock_ensure_alive _). eauto.
  - destruct Hb as [->|[_ Hr]]; [destruct (negb _); eauto|]. rewrite (Hr (world s1) e) by (by rewrite Eg). eauto.
Qed.

Lemma main_terminates fuel cycle good backoff (s : state) : bounded_run ->
  (Z.to_nat (cycles_bound - cycle) < fuel)%nat ->
  is_Some (main_loop chain_id urls lag config fuel cycle good backoff s).
Proof.
  intros Hb. revert cycle good backoff s. induction fuel as [|fuel IH]; intros cycle good backoff s Hf; [lia|].
  cbn [main_loop]. destruct (stopped s); [eauto|]. cbn [orb]. destruct (reached _ cycle) eqn:Er; [eauto|].
  destruct (lock_ensure_alive s) as [[u|e] s1]; [|eauto].
  assert (Hnext : once config = false -> forall good' backoff' (s' : state),
    is_Some (main_loop chain_id urls lag config fuel (cycle + 1) good' backoff' s')).
  { intros Ho good' backoff' s'. destruct Hb as [?|[Hm _]]; [congruence|]. apply reached_below in Er; [|done]. apply IH. lia. }
  destruct (run_cycle chain_id urls lag config s1) as [[result|e] s2].
  - destruct (once config) eqn:Eo; [eauto|]. specialize (Hnext eq_refl). destruct (stopped s2); [eauto|]. cbn [orb]. destruct (processed result).
    + destruct (reached _ (cycle + 1)); [eauto|]. destruct (stop_aware_wait _ s2) as [[[]|] s3]; [eauto|apply Hnext|eauto].
    + apply Hnext.
  - destruct (conflict_message e); [eauto|]. destruct (negb _); [eauto|]. cbv zeta.
    destruct (once config) eqn:Eo; [eauto|]. specialize (Hnext eq_refl). destruct (reached _ (cycle + 1)); [eauto|].
    destruct (if stopped _ then _ else _) as [[[]|] s4]; [eauto|apply Hnext|eauto].
Qed.

Lemma run_locked_terminates fuel (s : state) : bounded_run -> (Z.to_nat cycles_bound < fuel)%nat ->
  is_Some (run_locked chain_id urls lag config fuel s).
Proof.
  intros Hb Hf. unfold run_locked.
  destruct (acquire_terminates fuel (advisory_lock_key chain_id) 0 (error_backoff_seconds config) s Hb ltac:(lia)) as [[r1 s1] ->].
  destruct r1 as [[]|e]; [|eauto|eauto].
  destruct (load_terminates fuel (error_backoff_seconds config) s1 Hb ltac:(lia)) as [[r2 s2] ->].
  destruct r2 as [[st|]|e]; [|eauto|eauto].
  destruct (main_terminates fuel 0 0 (error_backoff_seconds config) (State (world s2) (connection s2) (Some st) (decoder s2))
    Hb ltac:(lia)) as [[r3 s3] ->].
  destruct r3 as [[|a g]|e]; eauto.
Qed.

Lemma exit_code fuel (s s' : state) code : run_locked chain_id urls lag config fuel s = Some (Ok code, s') ->
  code = 0 \/ code = 1.
Proof.
  unfold run_locked. destruct (acquire_lock_with_backoff _ _ _ _ _ s) as [[[[]|e] s1]|]; try done; [|intros [= <- _]; by right].
  destruct (load_rpc_selection_state _ _ _ _ s1) as [[[[st|]|e] s2]|]; try done; [|intros [= <- _]; by right].
  destruct (main_loop _ _ _ _ _ _ _ _ _) as [[[[|a g]|e] s3]|]; try done; [intros [= <- _]; by right|].
  destruct (negb _ && _); intros [= <- _]; auto.
Qed.

Lemma lock_close_released key (s : state) : connection (lock_close key s).2 = None.
Proof.
  unfold lock_close. destruct (connection s) as [c|] eqn:E; [|done]. cbv zeta. unfold close_connection_best_effort, call.
  destruct (advisory_unlock c key _) as [r w]. cbn [snd]. destruct (close_connection c _) as [r2 w2]. done.
Qed.
End termination.


(** Only a verified chain reaches the database: however many cycles
    [run_continuous] runs and however it ends, the heights it commits follow
    each other from the checkpoint (or from the configured start height of an
    empty database), each names the hash stored for the previous one as its
    parent, carries the hash that is stored for it, and was below the tip of
    the endpoint it came from. *)
Lemma run_continuous_linked `{PyRuntime} {W C D} `{Indexer W C} `{TransactionDecoder D} chain_id
    `{!IndexerLaws chain_id} urls lag config fuel (s s' : @state W C D) r :
  run_continuous chain_id urls lag config fuel s = Some (r, s') ->
  exists l, ob_history (observe (world s')) = ob_history (observe (world s)) ++ l /\
    linked (start_height config) (ob_anchor (observe (world s))) l /\
    (l <> [] -> ob_anchor (observe (world s')) = last_anchor (ob_anchor (observe (world s))) l).
Proof. intros Hr. destruct (run_continuous_extends chain_id urls lag config fuel s r s' Hr) as [[l [X1 X2 _ X4 _]] _]. by exists l. Qed.

