(* ===== verification/Indexed.v ===== *)
(** * The indexer over its database

    The interface of Runner.v implemented with the database model: the
    methods of [PostgresDatabase] are transactions of Database.v and
    Endpoints.v that a connection failure or a failing commit can undo, and
    everything else (network, signals, the lock's session) is an environment
    that answers as it likes.  The laws of [IndexerLaws] are proved here, so
    the runner's theorems hold for the whole program, together with the
    invariants of the stored data. *)
From Stdlib Require Import ZArith NArith Lia Ascii String SpecFloat.
From stdpp Require Import base gmap sets list strings sorting.
From S2P Require Import Prelude PyStr PyVal Codec InspectRpc Rpc Summary Parsers Database Finalized Endpoints Selection Runner RunnerSafety.
Open Scope Z_scope.

(** What a commit does; an [Unacknowledged] one happened, but the connection
    was lost before the answer. *)
Inductive commit_outcome : Type :=
| Committed
| RolledBack (e : exc)
| Unacknowledged (e : exc).

Class Environment (E C : Type) := {
  env_stop : E -> StopController;
  env_wait : Z -> E -> bool * E;
  env_statuses : E -> (string -> res val) * (string -> float) * E;
  env_answers : string -> E -> (string -> Z -> res val) * E;
  env_connect : E -> res unit * E;
  env_commit : E -> commit_outcome * E;
  env_session : E -> res C * E;
  env_try_lock : C -> Z -> E -> res bool * E;
  env_closed : C -> E -> bool;
  env_select_1 : C -> E -> res unit * E;
  env_unlock : C -> Z -> E -> res unit * E;
  env_close : C -> E -> res unit * E
}.

(** A stop request is never taken back ([StopController] has no reset), and
    psycopg's errors are neither [OSError]s nor [RpcError]s. *)
Class EnvironmentLaws {E C} `{Environment E C} := {
  env_stays (e e' : E) : Prop := requested (env_stop e) = true -> requested (env_stop e') = true;
  env_wait_stays n e : env_stays e (env_wait n e).2;
  env_statuses_stays e : env_stays e (env_statuses e).2;
  env_answers_stays u e : env_stays e (env_answers u e).2;
  env_connect_stays e : env_stays e (env_connect e).2;
  env_commit_stays e : env_stays e (env_commit e).2;
  env_session_stays e : env_stays e (env_session e).2;
  env_try_lock_stays c k e : env_stays e (env_try_lock c k e).2;
  env_select_1_stays c e : env_stays e (env_select_1 c e).2;
  env_unlock_stays c k e : env_stays e (env_unlock c k e).2;
  env_close_stays c e : env_stays e (env_close c e).2;
  env_commit_error e x : (env_commit e).1 = Unacknowledged x -> endpoint_error x = false
}.

(** The program's world: the tables, the endpoint tables with the cached
    selection, the environment, and (for the theorems only) the log of the
    committed heights. *)
Record World (E : Type) := MkWorld {
  tables : db;
  rpc_tables : pg_database;
  env : E;
  log : list (ParsedHeight * Z)
}.
Arguments MkWorld {E} tables rpc_tables env log.
Arguments tables {E} w.
Arguments rpc_tables {E} w.
Arguments env {E} w.
Arguments log {E} w.

Section indexed.
Context `{PyRuntime} `{Postgres} {E C : Type} `{Environment E C}.
#[local] Abbreviation world := (World E).

Definition set_env (e : E) (w : world) : world := MkWorld (tables w) (rpc_tables w) e (log w).
(** A call that only concerns the environment. *)
Definition outside {A} (op : E -> A * E) (w : world) : A * world :=
  let '(a, e) := op (env w) in (a, set_env e w).

(** [with self.connect() as connection, connection.cursor() as cursor:] around
    a query: leaving the block commits, and that can fail too. *)
Definition query {A} (cursor : db * edb -> res A) (w : world) : res A * world :=
  match outside env_connect w with
  | (Raise e, w) => (Raise e, w)
  | (Ok _, w) =>
      match cursor (tables w, pg_tables (rpc_tables w)) with
      | Raise e => (Raise e, w)
      | Ok a => match outside env_commit w with
                | (Committed, w) => (Ok a, w)
                | (RolledBack e, w) | (Unacknowledged e, w) => (Raise e, w)
                end
      end
  end.

(** The methods that write the endpoint tables; an unacknowledged commit
    leaves the new tables with the object as after a failure. *)
Definition endpoint_method (method : res unit -> pg_database -> res unit * pg_database) (w : world) : res unit * world :=
  match outside env_connect w with
  | (Raise e, w) => (Raise e, w)
  | (Ok _, w) =>
      let '(outcome, w) := outside env_commit w in
      let '(r, pg) :=
        match outcome with
        | Committed => method (Ok tt) (rpc_tables w)
        | RolledBack e => method (Raise e) (rpc_tables w)
        | Unacknowledged e =>
            let '(r, pg) := method (Raise e) (rpc_tables w) in
            (r, Build_pg_database (pg_selected pg) (pg_tables (method (Ok tt) (rpc_tables w)).2))
        end in
      (r, MkWorld (tables w) pg (env w) (log w))
  end.

(** [PostgresDatabase.write_height] *)
Definition write_method (p : ParsedHeight) (chain_id : string) (tip : Z) (w : world) : res unit * world :=
  match outside env_connect w with
  | (Raise e, w) => (Raise e, w)
  | (Ok _, w) =>
      match Database.write_height p chain_id tip (pg_selected (rpc_tables w)) (tables w) with
      | (Raise e, _) => (Raise e, w)
      | (Ok _, d) =>
          let w' w := MkWorld d (rpc_tables w) (env w) (log w ++ [(p, tip)]) in
          match outside env_commit w with
          | (Committed, w) => (Ok tt, w' w)
          | (RolledBack e, w) => (Raise e, w)
          | (Unacknowledged e, w) => (Raise e, w' w)
          end
      end
  end.

#[export] Instance indexed : Indexer world C := {|
  stop_of w := env_stop (env w);
  event_wait n := outside (env_wait n);
  rpc_statuses := outside env_statuses;
  rpc_answers url := outside (env_answers url);
  get_checkpoint chain_id := query (fun d => get_checkpoint_cursor chain_id d.1);
  get_checkpoint_anchor chain_id := query (fun d => get_checkpoint_anchor_cursor chain_id d.1);
  get_selected_rpc_url chain_id := query (fun d => Ok (Endpoints.get_selected_rpc_url chain_id d.2));
  record_rpc_probe_cycle chain_id probes := endpoint_method (Endpoints.record_rpc_probe_cycle chain_id probes);
  select_rpc_endpoint chain_id p reason := endpoint_method (Endpoints.select_rpc_endpoint chain_id p reason);
  record_rpc_runtime_failure chain_id p reason := endpoint_method (Endpoints.record_rpc_runtime_failure chain_id p reason);
  write_height := write_method;
  connect := outside env_session;
  try_advisory_lock c k := outside (env_try_lock c k);
  connection_closed c w := env_closed c (env w);
  select_1 c := outside (env_select_1 c);
  advisory_unlock c k := outside (env_unlock c k);
  close_connection c := outside (env_close c)
|}.

(** ** The laws *)
Context `{!PostgresLaws} `{!EnvironmentLaws (E:=E)} (chain_id : string).

Definition observe_world (w : world) : observation :=
  Build_observation (log w)
    (match get_checkpoint_anchor_cursor chain_id (tables w) with Ok a => a | Raise _ => None end)
    (match get_checkpoint_cursor chain_id (tables w) with Ok c => c | Raise _ => None end).

(** [same_tables w w']: nothing finalized changed on the way. *)
Definition same_tables (w w' : world) : Prop :=
  tables w' = tables w /\ log w' = log w /\ env_stays (env w) (env w').
Definition tables_reachable (w : world) : Prop := reachable chain_id (tables w).
Lemma same_tables_quiet w w' : same_tables w w' -> quiet observe_world tables_reachable w w'.
Proof.
  intros (Ht & Hl & Hs). split; [|split; [exact Hs|]]; unfold observe_world, tables_reachable; by rewrite Ht, ?Hl.
Qed.
Lemma same_tables_trans w1 w2 w3 : same_tables w1 w2 -> same_tables w2 w3 -> same_tables w1 w3.
Proof. intros (A & B & Hs) (A' & B' & Hs'). split_and!; [congruence|congruence|]. intros Hr. by apply Hs', Hs. Qed.

Lemma outside_same {A} (op : E -> A * E) w : env_stays (env w) (op (env w)).2 -> same_tables w (outside op w).2.
Proof. unfold outside. destruct (op (env w)) as [a e]. done. Qed.
Lemma query_same {A} (cursor : db * edb -> res A) w : same_tables w (query cursor w).2.
Proof.
  unfold query. pose proof (outside_same env_connect w (env_connect_stays _)) as Hc.
  destruct (outside env_connect w) as [[u|e] w1]; cbn [snd] in *; [|exact Hc].
  destruct (cursor _) as [a|e]; [|exact Hc]. pose proof (outside_same env_commit w1 (env_commit_stays _)) as Hm.
  destruct (outside env_commit w1) as [[|e|e] w2]; cbn [snd] in *; by eapply same_tables_trans.
Qed.
Lemma query_Ok {A} (cursor : db * edb -> res A) w a : (query cursor w).1 = Ok a -> exists d, cursor (tables w, d) = Ok a.
Proof.
  unfold query. pose proof (outside_same env_connect w (env_connect_stays _)) as (Ht & _).
  destruct (outside env_connect w) as [[u|e] w1]; cbn [snd fst] in *; [|done]. rewrite Ht.
  destruct (cursor _) as [a'|e] eqn:Ec; [|done]. destruct (outside env_commit w1) as [[|e|e] w2]; cbn [fst]; try done.
  intros [= <-]. eauto.
Qed.
Lemma endpoint_same method w : same_tables w (endpoint_method method w).2.
Proof.
  unfold endpoint_method. pose proof (outside_same env_connect w (env_connect_stays _)) as Hc.
  destruct (outside env_connect w) as [[u|e] w1]; cbn [snd] in *; [|exact Hc].
  pose proof (outside_same env_commit w1 (env_commit_stays _)) as Hm.
  destruct (outside env_commit w1) as [outcome w2]; cbn [snd] in *.
  destruct (match outcome with Committed => _ | RolledBack _ => _ | Unacknowledged _ => _ end) as [r pg].
  apply (same_tables_trans w w1); [exact Hc|]. exact Hm.
Qed.

(** A write of the height after the checkpoint, as the runner reads it back. *)
Lemma write_observed p tip ep d d' :
  Database.write_height p chain_id tip ep d = (Ok tt, d') -> is_hash_hex (b_hash_hex (ph_block p)) = true ->
  match (match get_checkpoint_anchor_cursor chain_id d with Ok a => a | Raise _ => None end) with
  | Some a => ph_height p = an_height a + 1
  | None => (match get_checkpoint_cursor chain_id d with Ok c => c | Raise _ => None end) = None
  end ->
  get_checkpoint_anchor_cursor chain_id d' = Ok (Some (anchor_of p)) /\
  get_checkpoint_cursor chain_id d' = Ok (Some (ph_height p)).
Proof.
  intros Hw Hhex Hnext. pose proof (write_agrees _ _ _ _ _ _ Hw) as Hagree.
  apply write_height_Ok in Hw as (e & He & ->). apply cursor_tables in He.
  assert (Hblock : exists r, blocks e !! ph_height p = Some r /\ br_hash_hex r = b_hash_hex (ph_block p)).
  { destruct (ta_blocks _ _ _ _ _ _ He) as (f & -> & Hf). rewrite lookup_put. unfold block_written, kept_or in Hf.
    destruct (blocks d !! ph_height p) as [r|] eqn:Er; [|destruct Hf as (r & ? & _ & ?); by exists r].
    exists r. split; [done|]. by apply (sa_block _ _ Hagree). }
  assert (Hstate : exists row, Database.state e = Some row /\ st_chain row = chain_id /\ st_last_finalized row = ph_height p).
  { rewrite (ta_state _ _ _ _ _ _ He). unfold get_checkpoint_anchor_cursor, get_checkpoint_cursor in Hnext. unfold advanced.
    destruct (Database.state d) as [row|] eqn:Ed; [|by eexists].
    destruct (advanced_next _ _ _ _ _ _ _ He Ed) as [_ Hc]. rewrite bool_decide_eq_true_2 in Hnext by done.
    assert (Hh : ph_height p = st_last_finalized row + 1).
    { destruct (blocks d !! st_last_finalized row) as [b|]; [|done]. by destruct (is_hash_hex (br_hash_hex b)). }
    replace (ph_height p <=? st_last_finalized row) with false by lia. eexists. split; [done|]. split; [done|]. simpl. lia. }
  destruct Hblock as (r & Hr & Hrh), Hstate as (row & Hs & Hc & Hl).
  unfold get_checkpoint_anchor_cursor, get_checkpoint_cursor.
  replace (Database.state (set_xact_locks ∅ e)) with (Some row) by by rewrite <- Hs.
  rewrite bool_decide_eq_true_2 by done. rewrite Hl.
  change (blocks (set_xact_locks ∅ e)) with (blocks e). by rewrite Hr, Hrh, Hhex.
Qed.

Lemma write_law p tip w : let '(r, w') := write_method p chain_id tip w in
  stays tables_reachable w w' /\
  match r with
  | Ok _ => committed p tip (observe_world w) (observe_world w')
  | Raise e => observe_world w' = observe_world w \/
               (committed p tip (observe_world w) (observe_world w') /\ endpoint_error e = false)
  end.
Proof.
  unfold write_method. pose proof (outside_same env_connect w (env_connect_stays _)) as (Ht1 & Hl1 & Hs1).
  destruct (outside env_connect w) as [[u|e] w1]; cbn [snd] in *; cycle 1.
  { split; [by split; unfold tables_reachable; rewrite ?Ht1|]. left. unfold observe_world. by rewrite Ht1, Hl1. }
  destruct (Database.write_height p chain_id tip _ (tables w1)) as [[[]|e] d] eqn:Ew; cycle 1.
  { split; [by split; unfold tables_reachable; rewrite ?Ht1|]. left. unfold observe_world. by rewrite Ht1, Hl1. }
  pose proof (env_commit_error (env w1)) as Herr.
  pose proof (outside_same env_commit w1 (env_commit_stays _)) as (Ht2 & Hl2 & Hs2).
  assert (Hcommit : forall e1, committed p tip (observe_world w) (observe_world (MkWorld d (rpc_tables w1) e1 (log w1 ++ [(p, tip)])))).
  { intros e1. rewrite Ht1 in Ew. split; [by rewrite Hl1|]. intros Hhex Hnext.
    destruct (write_observed _ _ _ _ _ Ew Hhex Hnext) as [Ha Hc]. unfold observe_world. cbn [tables ob_anchor ob_checkpoint].
    by rewrite Ha, Hc. }
  unfold outside in *. destruct (env_commit (env w1)) as [outcome e1]. cbn [fst snd] in *.
  assert (Hst : env_stays (env w) e1) by (intros Hr; by apply Hs2, Hs1).
  assert (Hreach : tables_reachable w -> reachable chain_id d).
  { unfold tables_reachable. rewrite <- Ht1. intros Hr.
    replace d with (Database.write_height p chain_id tip (pg_selected (rpc_tables w1)) (tables w1)).2 by by rewrite Ew.
    by constructor. }
  destruct outcome as [|e|e]; cbn [set_env rpc_tables log].
  - split; [by split|]. apply Hcommit.
  - split; [split; [exact Hst|]; unfold tables_reachable, set_env; cbn [tables]; by rewrite Ht1|]. left. unfold observe_world, set_env. cbn [tables log]. by rewrite Ht1, Hl1.
  - split; [by split|]. right. split; [apply Hcommit|]. by apply Herr.
Qed.

#[export] Instance indexed_laws : IndexerLaws chain_id.
Proof.
  refine {| observe := observe_world; invariant := tables_reachable |}; intros;
    try (apply same_tables_quiet; first [apply outside_same|apply query_same|apply endpoint_same];
         first [apply env_wait_stays|apply env_statuses_stays|apply env_answers_stays|apply env_session_stays
               |apply env_try_lock_stays|apply env_select_1_stays|apply env_unlock_stays|apply env_close_stays]).
  - apply query_Ok in H3 as (d & Hd). cbn [fst] in Hd. unfold observe_world. rewrite Hd. split; [done|].
    unfold get_checkpoint_anchor_cursor, get_checkpoint_cursor in *. cbn [ob_checkpoint].
    destruct (Database.state (tables w)) as [row|]; [|by injection Hd as <-]. case_bool_decide; [|done].
    destruct (blocks (tables w) !! _) as [b|]; [|done]. destruct (is_hash_hex _); [|done]. by injection Hd as <-.
  - apply query_Ok in H3 as (d & Hd). cbn [fst] in Hd. unfold observe_world. by rewrite Hd.
  - apply write_law.
Defined.
End indexed.

(** ** The whole program *)

(** C1. From any database the indexer itself produced, [run_continuous], for
    however many cycles, whatever the endpoints answer, whichever connection,
    commit or lock call fails and whenever it is told to stop, leaves a
    database that is still complete and consistent (no gap up to the
    checkpoint, every row with the rows it refers to); the heights it
    committed are consecutive from the checkpoint or the configured start
    height, each links to its predecessor by parent hash, carries its own hash
    and was final on the endpoint that served it; and the new checkpoint is
    the last of them. *)
Theorem indexer_consistent `{PyRuntime} `{Postgres} `{!PostgresLaws} {E C D} `{Environment E C} `{TransactionDecoder D}
    `{!EnvironmentLaws (E:=E)} chain_id urls lag config fuel (s s' : @state (World E) C D) r :
  reachable chain_id (tables (world s)) ->
  run_continuous chain_id urls lag config fuel s = Some (r, s') ->
  indexed_ok chain_id (tables (world s')) /\
  exists l, log (world s') = log (world s) ++ l /\
    linked (start_height config) (ob_anchor (observe_world chain_id (world s))) l /\
    (l <> [] -> get_checkpoint_cursor chain_id (tables (world s')) = Ok (ph_height <$> last l.*1)).
Proof.
  intros Hreach Hr. destruct (run_continuous_extends chain_id urls lag config fuel s r s' Hr) as [[l [X1 X2 _ X4 X5]] Hinv].
  split; [by apply reachable_indexed, Hinv|]. exists l. split; [exact X1|]. split; [exact X2|]. intros Hne.
  specialize (X4 Hne). specialize (X5 Hne). rewrite X4 in X5. unfold last_anchor in X5. rewrite fmap_last.
  destruct (last l) as [pt|] eqn:El; [|by apply last_None in El].
  cbn [observe indexed_laws ob_checkpoint observe_world fmap option_fmap option_map anchor_of an_height] in *.
  destruct (get_checkpoint_cursor chain_id _) as [c|e]; [by rewrite X5|done].
Qed.

(** ** A concrete run

    [http://a] is on a fork, [http://b] serves the chain up to height 13. *)
Section demo.
#[local] Existing Instance ascii_runtime.
#[local] Existing Instance no_decoder.

Definition serve (url method : string) (h : Z) : res val :=
  if String.eqb method "block" then Ok (demo_block h h (if String.eqb url "http://a" then 99 else h - 1) [VStr "AAAA"])
  else if String.eqb method "block_results" then Ok (demo_results h)
  else if String.eqb method "commit" then Ok (demo_commit h h [demo_precommit "g1a" h])
  else if String.eqb method "validators" then Ok (demo_validators h ["g1a"])
  else Raise (RpcError "no such method").

#[export] Instance demo_environment : Environment unit unit := {|
  env_stop _ := Build_StopController false None;
  env_wait _ e := (false, e);
  env_statuses e := (fun _ => Ok (demo_status "dev" 13), fun url => if String.eqb url "http://a" then f_zero else f_of_Z 1, e);
  env_answers url e := (serve url, e);
  env_connect e := (Ok tt, e);
  env_commit e := (Committed, e);
  env_session e := (Ok tt, e);
  env_try_lock _ _ e := (Ok true, e);
  env_closed _ _ := false;
  env_select_1 _ e := (Ok tt, e);
  env_unlock _ _ e := (Ok tt, e);
  env_close _ e := (Ok tt, e)
|}.
#[export] Instance demo_environment_laws : EnvironmentLaws (E:=unit).
Proof. constructor; intros; try done. Qed.

Definition text_postgres : Postgres := {|
  pg_text v := match v with VStr s => Ok (Some s) | VNone => Ok None | _ => Raise IntegrityError end;
  pg_jsonb s := Ok (VStr s);
  pg_timestamp v := Ok v;
  pg_check _ := Ok tt
|}.
Lemma text_postgres_laws : @PostgresLaws text_postgres.
Proof. constructor. intros v o. destruct v; simpl; try done; by intros [= <-]. Qed.
#[local] Existing Instance text_postgres.
#[local] Existing Instance text_postgres_laws.

Definition demo_config : ContinuousConfig := Build_ContinuousConfig (Some 11) 5 1 1 8 100 false (Some 2).
Definition demo_start : @state (World unit) unit unit :=
  State (MkWorld empty_db (Build_pg_database None empty_edb) tt []) None None (Some tt).
Definition demo_end : option (res Z * @state (World unit) unit unit) :=
  run_continuous "dev" ["http://a"; "http://b"] 10 demo_config 4 demo_start.

Definition demo_finished : res Z * @state (World unit) unit unit := Eval vm_compute in default (Ok 9, demo_start) demo_end.
Lemma demo_runs : run_continuous "dev" ["http://a"; "http://b"] 10 demo_config 4 demo_start = Some demo_finished.
Proof. vm_compute. reflexivity. Qed.

Lemma indexer_consistent_witness :
  heights_of (log (world demo_finished.2)) = [11; 12] /\ indexed_ok "dev" (tables (world demo_finished.2)) /\
  exists l, log (world demo_finished.2) = l /\ linked (Some 11) None l.
Proof.
  split; [reflexivity|].
  destruct (indexer_consistent "dev" ["http://a"; "http://b"] 10 demo_config 4 demo_start demo_finished.2 (Ok 0)
    (reachable_empty "dev") demo_runs) as (Hok & l & Hl & Hlinked & _).
  split; [exact Hok|]. exists l. split; [exact Hl|exact Hlinked].
Defined.

Lemma demo_bounded : bounded_run (W:=World unit) (C:=unit) "dev" demo_config.
Proof. right. split; [by eexists|]. intros w e. by vm_compute. Qed.
Lemma demo_config_ok : config_ok demo_config.
Proof. constructor; simpl; try lia; intros ? [= <-]; lia. Qed.


Definition demo_cycle : res CycleResult * @state (World unit) unit unit := Eval vm_compute in
  run_cycle "dev" ["http://a"; "http://b"] 10 demo_config demo_start.
Lemma demo_cycle_runs : run_cycle "dev" ["http://a"; "http://b"] 10 demo_config demo_start = demo_cycle.
Proof. vm_compute. reflexivity. Qed.
Definition demo_cycle_result : CycleResult := Build_CycleResult [11; 12] None (Some 12) (Some 12) (Some 11) (Some 12).

End demo.
