(* ===== verification/Valopers.v ===== *)
(** * indexer/valopers_parser.py, valopers_source.py, valopers_snapshot.py

    The rendered Valopers registry: the parsers of its list and detail pages,
    the qrender request and response, the pager, and the collection of one
    complete snapshot at a pinned height.  The regular expressions are
    deterministic (every repeated class excludes the character that follows
    it), so they are written as left-to-right scanners. *)
From Stdlib Require Import ZArith NArith Lia Ascii String.
From stdpp Require Import base gmap sets list strings sorting.
From S2P Require Import Prelude Query PyStr PyVal Codec InspectRpc.
Open Scope Z_scope.

Definition nl : string := String (Z_byte 10) EmptyString.

(** ** Scanners *)
Fixpoint strip_prefix (p s : string) : option string :=
  match p, s with
  | EmptyString, _ => Some s
  | String a p', String b s' => if bool_decide (a = b) then strip_prefix p' s' else None
  | String _ _, EmptyString => None
  end.
Fixpoint span (p : ascii -> bool) (s : string) : string * string :=
  match s with
  | EmptyString => (EmptyString, EmptyString)
  | String c s' => if p c then let '(a, b) := span p s' in (String c a, b) else (EmptyString, s)
  end.
Fixpoint split_at (n : nat) (s : string) : string * string :=
  match n, s with
  | S n', String c s' => let '(a, b) := split_at n' s' in (String c a, b)
  | _, _ => (EmptyString, s)
  end.
(** [s.lstrip()] *)
Definition py_lstrip (s : string) : string := str_concat (drop_while is_space_char (chars s)).
(** [s.split(sep)] for a separator of any length; [skip] bytes of the current
    separator are still to be passed over. *)
Fixpoint split_on (sep : string) (skip : nat) (cur s : string) : list string :=
  match s with
  | EmptyString => [cur]
  | String c s' =>
      match skip with
      | S k => split_on sep k cur s'
      | O => if String.prefix sep s then cur :: split_on sep (String.length sep - 1) EmptyString s'
             else split_on sep 0 (cur +:+ String c EmptyString) s'
      end
  end.

Definition between (lo hi : ascii) (a : ascii) : bool := (byte_Z lo <=? byte_Z a) && (byte_Z a <=? byte_Z hi).
(** [[A-Za-z0-9]] *)
Definition is_alnum (a : ascii) : bool := between "A" "Z" a || between "a" "z" a || between "0" "9" a.
(** [[023456789ac-hj-np-z]] *)
Definition is_bech32 (a : ascii) : bool :=
  bool_decide (a = "0"%char) || between "2" "9" a || bool_decide (a = "a"%char) || between "c" "h" a || between "j" "n" a
  || between "p" "z" a.
(** [[^\r\n]] and [[^\]\r\n]] *)
Definition no_newline (a : ascii) : bool := negb ((byte_Z a =? 10) || (byte_Z a =? 13)).
Definition no_bracket (a : ascii) : bool := no_newline a && negb (bool_decide (a = "]"%char)).

(** ** Patterns *)
Definition MAX_RENDER_CHARS : Z := 1024 * 1024.
Definition MAX_RENDER_BYTES : Z := 1024 * 1024.
Definition MAX_DESCRIPTION_BYTES : Z := 2048.
Definition MIN_SIGNING_PUBKEY_LENGTH : Z := 91.
Definition MAX_SIGNING_PUBKEY_LENGTH : Z := 256.

(** [_MONIKER_RE]: 1 to 32 characters, the first and the last alphanumeric. *)
Definition moniker_char (a : ascii) : bool :=
  is_alnum a || bool_decide (a = " "%char) || bool_decide (a = "_"%char) || bool_decide (a = "-"%char).
Definition moniker_re (s : string) : bool :=
  match list_of_string s with
  | [] => false
  | a :: l => is_alnum a && (Nat.leb (length l) 31)
              && match last l with Some z => is_alnum z && forallb moniker_char l | None => true end
  end.
(** [_ADDRESS_RE] *)
Definition address_re (s : string) : bool :=
  match strip_prefix "g1" s with
  | Some r => Nat.eqb (String.length r) 38 && str_forallb is_bech32 r
  | None => false
  end.
(** [_GPUB_RE] *)
Definition gpub_re (s : string) : bool :=
  match strip_prefix "gpub1" s with
  | Some r => negb (String.eqb r "") && str_forallb is_bech32 r
  | None => false
  end.
(** An address group: the next 40 characters. *)
Definition take_address (s : string) : option (string * string) :=
  let '(a, rest) := split_at 40 s in if address_re a then Some (a, rest) else None.
Definition nonempty_span (p : ascii -> bool) (s : string) : option (string * string) :=
  let '(a, rest) := span p s in if String.eqb a "" then None else Some (a, rest).

(** [_ENTRY_RE]: moniker, detail and profile address. *)
Definition entry_re (line : string) : option (string * string * string) :=
  s ← strip_prefix " * [" line;
  '(moniker, s) ← nonempty_span no_bracket s;
  s ← strip_prefix "](/r/gnops/valopers:" s;
  '(detail, s) ← take_address s;
  s ← strip_prefix ") - [profile](/r/demo/profile:u/" s;
  '(profile, s) ← take_address s;
  if String.eqb s ")" then Some (moniker, detail, profile) else None.

(** [_DETAIL_TAIL_RE] at one position. *)
Record detail_tail := {
  dt_operator : string;
  dt_signing : string;
  dt_pubkey : string;
  dt_server : string;
  dt_profile : string
}.
Definition detail_tail_at (s : string) : option detail_tail :=
  s ← strip_prefix (nl +:+ nl +:+ "- Operator Address: ") s;
  '(operator, s) ← take_address s;
  s ← strip_prefix (nl +:+ "- Signing Address: ") s;
  '(signing, s) ← take_address s;
  s ← strip_prefix (nl +:+ "- Signing PubKey: ") s;
  '(pubkey, s) ← nonempty_span no_newline s;
  s ← strip_prefix (nl +:+ "- Server Type: ") s;
  '(server, s) ← nonempty_span no_newline s;
  s ← strip_prefix (nl +:+ nl +:+ "[Profile link](/r/demo/profile:u/") s;
  '(profile, s) ← take_address s;
  s ← strip_prefix ")" s;
  if String.eqb s "" || String.eqb s nl then Some (Build_detail_tail operator signing pubkey server profile) else None.
(** [_DETAIL_TAIL_RE.search]: the text before the first match, and the match. *)
Fixpoint detail_tail_search (s : string) : option (string * detail_tail) :=
  match detail_tail_at s with
  | Some t => Some (EmptyString, t)
  | None => match s with
            | EmptyString => None
            | String c s' => p ← detail_tail_search s'; Some (String c p.1, p.2)
            end
  end.

(** ** The list page *)
Record ValoperListEntry := { ve_moniker : string; ve_operator_address : string }.
Record ValoperProfile := {
  vp_moniker : string;
  vp_description : string;
  vp_operator_address : string;
  vp_signing_address : string;
  vp_signing_pubkey : string;
  vp_server_type : string;
  vp_profile_path : string
}.
#[global] Instance ValoperProfile_eq_dec : EqDecision ValoperProfile.
Proof. solve_decision. Defined.

Definition bytes_len (s : string) : Z := Z.of_nat (String.length s).
Definition validate_render (rendered_text : string) : res unit :=
  raise_if ((MAX_RENDER_CHARS <? py_len rendered_text) || (MAX_RENDER_BYTES <? bytes_len rendered_text))
    (ValueError "Valopers render exceeds the input size limit").
Definition validate_moniker (moniker : string) : res unit :=
  require (moniker_re moniker) (ValueError "Invalid Valoper moniker").

Definition looks_like_list_entry (line : string) : bool :=
  if py_contains "/r/gnops/valopers:" line || py_contains "/r/demo/profile:u/" line then true
  else let normalized := py_lstrip line in startswith "* [" normalized && py_contains " - [" normalized.

(** One line: the entries so far and the operators seen. *)
Definition list_line (s : list ValoperListEntry * list string) (line : string)
    : res (list ValoperListEntry * list string) :=
  let '(entries, seen) := s in
  match entry_re line with
  | None => if looks_like_list_entry line then Raise (ValueError "Malformed Valopers list entry") else Ok (entries, seen)
  | Some (moniker, operator, profile) =>
      _ ← validate_moniker moniker;
      _ ← require (String.eqb profile operator) (ValueError "Valopers entry addresses do not match");
      _ ← raise_if (in_strs operator seen) (ValueError "Duplicate Valoper operator address");
      Ok (entries ++ [Build_ValoperListEntry moniker operator], operator :: seen)
  end.
Definition meaningful_lines (text : string) : list string :=
  List.filter (fun line => negb (String.eqb (py_strip line) "")) (py_splitlines text).

Definition parse_valopers_list (rendered_text : string) : res (list ValoperListEntry) :=
  _ ← validate_render rendered_text;
  '(entries, _) ← foldM_res list_line ([], []) (py_splitlines rendered_text);
  match entries with
  | [] =>
      match last (meaningful_lines rendered_text) with
      | Some l => if String.eqb l "No valopers to display." then Ok []
                  else Raise (ValueError "Valopers list contains no canonical entries")
      | None => Raise (ValueError "Valopers list contains no canonical entries")
      end
  | _ => Ok entries
  end.

(** ** The detail page *)
Definition SERVER_TYPES : list string := ["cloud"; "on-prem"; "data-center"].
Definition detail_prefix : string := "Valoper's details:" +:+ nl +:+ "## ".

Definition parse_valoper_detail (rendered_text : string) : res ValoperProfile :=
  _ ← validate_render rendered_text;
  match strip_prefix detail_prefix rendered_text with
  | None => Raise (ValueError "Invalid Valoper detail document prefix")
  | Some rest =>
      let '(moniker, body) := span (fun a => negb (byte_Z a =? 10)) rest in
      if String.eqb body "" then Raise (ValueError "Missing Valoper detail body") else
      _ ← validate_moniker moniker;
      match detail_tail_search body with
      | None => Raise (ValueError "Malformed Valoper detail field block")
      | Some (before, tail) =>
          (* [before] starts with the heading's newline, unless the block does *)
          let description := String.substring 1 (String.length before) before in
          _ ← raise_if (String.eqb description "") (ValueError "Valoper description must not be empty");
          _ ← raise_if (MAX_DESCRIPTION_BYTES <? bytes_len description)
                (ValueError "Valoper description exceeds the size limit");
          _ ← require (address_re (dt_operator tail) && address_re (dt_signing tail)) (ValueError "Invalid Valoper address");
          _ ← require ((MIN_SIGNING_PUBKEY_LENGTH <=? py_len (dt_pubkey tail))
                       && (py_len (dt_pubkey tail) <=? MAX_SIGNING_PUBKEY_LENGTH) && gpub_re (dt_pubkey tail))
                (ValueError "Invalid Valoper signing public key");
          _ ← require (in_strs (dt_server tail) SERVER_TYPES) (ValueError "Invalid Valoper server type");
          _ ← require (String.eqb (dt_profile tail) (dt_operator tail))
                (ValueError "Valoper profile address does not match operator address");
          Ok (Build_ValoperProfile moniker description (dt_operator tail) (dt_signing tail) (dt_pubkey tail)
                (dt_server tail) ("/r/demo/profile:u/" +:+ dt_operator tail))
      end
  end.

(** ** The qrender query *)
Definition VALOPERS_RENDER_PREFIX : string := "gno.land/r/gnops/valopers:".
Definition MAX_DECODED_RESPONSE_BYTES : Z := 1024 * 1024.
Definition MAX_ENCODED_RESPONSE_CHARS : Z := 4 * ((MAX_DECODED_RESPONSE_BYTES + 2) / 3).
Definition MAX_PREVIEW_CHARS : Z := 160.
Definition MAX_PAGE_NUMBER : Z := 1000000.

Definition is_ascii_digit (a : ascii) : bool := between "0" "9" a.
(** [[1-9][0-9]*], as a whole text and as the next token. *)
Definition take_positive (s : string) : option (string * string) :=
  let '(d, rest) := span is_ascii_digit s in
  match d with String c _ => if bool_decide (c = "0"%char) then None else Some (d, rest) | EmptyString => None end.
Definition positive_re (s : string) : bool :=
  match take_positive s with Some (_, rest) => String.eqb rest "" | None => false end.

Definition build_root_render_data : string := VALOPERS_RENDER_PREFIX.
Definition build_page_render_data (page_query : string) : res string :=
  let e := RpcError "Page query must have the form ?page=N, where N is 1-1000000" in
  match strip_prefix "?page=" page_query with
  | Some digits =>
      if positive_re digits then
        n ← py_int_str digits;
        _ ← raise_if (MAX_PAGE_NUMBER <? n) e;
        Ok (VALOPERS_RENDER_PREFIX +:+ page_query)
      else Raise e
  | None => Raise e
  end.
Definition build_detail_render_data (operator_address : string) : res string :=
  _ ← require (address_re operator_address) (RpcError "Operator address must be a 40-character lowercase g1 Bech32 address");
  Ok (VALOPERS_RENDER_PREFIX +:+ operator_address).
Definition build_qrender_params (render_data : string) (source_height : Z) : res (list (string * val)) :=
  _ ← raise_if (source_height <? 1) (RpcError "Pinned source height must be a positive integer");
  let encoded_data := b64encode (list_of_string render_data) in
  Ok [("path", VStr (json_string true "vm/qrender")); ("data", VStr (json_string true encoded_data));
      ("height", VInt source_height); ("prove", VStr "false")].

Record ValopersRenderResult := {
  rr_query_kind : string;
  rr_source_height : Z;
  rr_response_height : option Z;
  rr_decoded_byte_count : Z;
  rr_sha256 : string;
  rr_preview : string;
  rr_decoded_text : string
}.

(** [format(z, "04x")] *)
Fixpoint hex_lower (fuel : nat) (z : Z) : string :=
  match fuel with
  | O => EmptyString
  | S f => if z =? 0 then EmptyString else hex_lower f (z / 16) +:+ String (hex_digit (z mod 16)) EmptyString
  end.
Definition hex_04 (z : Z) : string := if z <? 65536 then hex4 z else hex_lower 8 z.
Section source.
Context `{UnicodeData}.

Definition preview_replacement (g : string) : string :=
  let c := code_point g in
  if c =? 10 then backslash +:+ "n" else if c =? 13 then backslash +:+ "r" else if c =? 9 then backslash +:+ "t"
  else if category_C c then backslash +:+ "u" +:+ hex_04 c else g.
Fixpoint preview_loop (cs : list string) (remaining : Z) : string :=
  match cs with
  | [] => EmptyString
  | g :: rest =>
      if remaining <=? 0 then EmptyString
      else let r := preview_replacement g in
           py_take remaining r +:+ preview_loop rest (remaining - Z.min (py_len r) remaining)
  end.
Definition bounded_preview (decoded : string) (max_chars : Z) : res string :=
  _ ← raise_if (max_chars <? 0) (ValueError "max_chars must not be negative");
  Ok (preview_loop (chars decoded) max_chars).

(** [_RESPONSE_HEIGHT_RE] *)
Definition response_height_re (s : string) : bool := String.eqb s "0" || positive_re s.

Definition decode_qrender_response (payload : val) (query_kind : string) (source_height : Z) : res ValopersRenderResult :=
  let result := match payload with VDict p => dget p "result" | _ => VNone end in
  let response := match result with VDict r => dget r "response" | _ => VNone end in
  match response with
  | VDict response =>
      match dget response "Height" with
      | VStr raw_height =>
          _ ← require (response_height_re raw_height) (RpcError "Malformed qrender response: invalid result.response.Height");
          parsed_height ← py_int_str raw_height;
          let response_height := if parsed_height =? 0 then None else Some parsed_height in
          _ ← raise_if (match response_height with Some h => negb (h =? source_height) | None => false end)
                (RpcError "Qrender response height mismatch");
          match dget response "ResponseBase" with
          | VDict base =>
              _ ← raise_if (negb (dict_has "Error" base) || negb (py_in_tuple (dget base "Error") [VNone; VStr ""]))
                    (RpcError "Qrender ABCI response reported an error");
              match dget base "Data" with
              | VStr encoded =>
                  _ ← raise_if (String.eqb encoded "")
                        (RpcError "Malformed qrender response: missing result.response.ResponseBase.Data");
                  _ ← raise_if (MAX_ENCODED_RESPONSE_CHARS <? py_len encoded)
                        (RpcError "Qrender response exceeds encoded response size limit");
                  decoded ← except_as (b64decode encoded) isinstance_ValueError
                              (RpcError "Malformed qrender response: invalid base64 in result.response.ResponseBase.Data");
                  let n := Z.of_nat (length decoded) in
                  _ ← raise_if (MAX_DECODED_RESPONSE_BYTES <? n) (RpcError "Qrender response exceeds decoded response size limit");
                  match utf8_decode decoded with
                  | None => Raise (RpcError "Malformed qrender response: decoded result.response.ResponseBase.Data is not UTF-8")
                  | Some text =>
                      preview ← bounded_preview text MAX_PREVIEW_CHARS;
                      Ok (Build_ValopersRenderResult query_kind source_height response_height n
                            (bytes_hex (sha256 decoded)) preview text)
                  end
              | _ => Raise (RpcError "Malformed qrender response: missing result.response.ResponseBase.Data")
              end
          | _ => Raise (RpcError "Malformed qrender response: missing result.response.ResponseBase")
          end
      | _ => Raise (RpcError "Malformed qrender response: invalid result.response.Height")
      end
  | _ => Raise (RpcError "Malformed qrender response: missing result.response")
  end.
End source.

(** ** The pager *)
(** [_PAGER_CURRENT_RE] and [_PAGER_LINK_RE]: the numbers, as texts. *)
Definition pager_current_re (token : string) : option string :=
  s ← strip_prefix "**" token;
  '(n, s) ← take_positive s;
  if String.eqb s "**" then Some n else None.
Definition pager_link_re (token : string) : option (string * string) :=
  s ← strip_prefix "[" token;
  '(label, s) ← take_positive s;
  s ← strip_prefix "](?page=" s;
  '(target, s) ← take_positive s;
  if String.eqb s ")" then Some (label, target) else None.

Definition pager_token (s : list Z * list Z) (token : string) : res (list Z * list Z) :=
  let '(current_pages, linked_pages) := s in
  match pager_current_re token with
  | Some n => n ← py_int_str n; Ok (current_pages ++ [n], linked_pages)
  | None =>
      match pager_link_re token with
      | Some (label, target) =>
          label ← py_int_str label;
          target ← py_int_str target;
          _ ← raise_if (negb (label =? target) || existsb (Z.eqb target) linked_pages)
                (RpcError "Invalid Valopers pager link");
          Ok (current_pages, target :: linked_pages)
      | None => if String.eqb token "…" then Ok (current_pages, linked_pages)
                else Raise (RpcError "Malformed Valopers pager")
      end
  end.

Definition entry_line (e : ValoperListEntry) : string :=
  " * [" +:+ ve_moniker e +:+ "](/r/gnops/valopers:" +:+ ve_operator_address e +:+ ") - "
  +:+ "[profile](/r/demo/profile:u/" +:+ ve_operator_address e +:+ ")".

Definition parse_pager_state (rendered_text : string) (requested_page : Z) (entries : list ValoperListEntry) : res bool :=
  match last (meaningful_lines rendered_text) with
  | None => Raise StopIteration
  | Some final_line =>
      let tokens :=
        '(current_pages, linked_pages) ← foldM_res pager_token ([], []) (split_on " | " 0 EmptyString final_line);
        _ ← require (bool_decide (current_pages = [requested_page]))
              (RpcError "Valopers pager current page does not match the request");
        Ok (existsb (fun page => requested_page <? page) linked_pages) in
      match last entries with
      | Some e => if String.eqb final_line (entry_line e)
                  then if requested_page =? 1 then Ok false else Raise (RpcError "Later Valopers page is missing its pager")
                  else tokens
      | None => tokens
      end
  end.

(** ** Collecting a snapshot *)
Definition VALOPERS_PAGE_SIZE : Z := 50.
Definition MAX_VALOPERS_PAGES : Z := 20.
Definition MAX_VALOPERS_PROFILES : Z := 1000.
Definition VALOPERS_FETCH_ATTEMPTS : nat := 3.

Record ValopersSnapshot := {
  vs_source_height : Z;
  vs_page_count : Z;
  vs_profiles : list ValoperProfile
}.

(** The registry's client: [client.get("abci_query", **params)] may fail
    differently each time; [W] is its state. *)
Class RegistryClient (W : Type) := { abci_query_get : list (string * val) -> W -> res val * W }.

Section snapshot.
Context `{UnicodeData} {W : Type} `{RegistryClient W}.

#[local] Abbreviation query := (query (W:=W)).
#[local] Notation "'let*' p := m 'in' k" := (and_then m (fun p => k))
  (at level 10, p strict pattern, m at level 200, k at level 200).

(** [attempts] of the bounded retries are left. *)
Fixpoint fetch_attempts (params : list (string * val)) (attempts : nat) : query val :=
  match attempts with
  | O => pure (Raise (RpcError "Valopers qrender request failed after bounded retries"))
  | S n => fun w =>
      match abci_query_get params w with
      | (Raise e, w') => if isinstance_RpcError e then fetch_attempts params n w' else (Raise e, w')
      | r => r
      end
  end.
Definition fetch_with_retry (render_data query_kind : string) (source_height : Z) : query ValopersRenderResult :=
  let* params := pure (build_qrender_params render_data source_height) in
  let* payload := fetch_attempts params VALOPERS_FETCH_ATTEMPTS in
  pure (decode_qrender_response payload query_kind source_height).

(** The accumulated pages of [_collect_list]. *)
Record pages := Pages {
  pg_entries : list ValoperListEntry;
  pg_operators : list string;
  pg_sequences : list (list string);
  pg_sets : list (list string)
}.
Definition same_members (l k : list string) : bool := forallb (fun x => in_strs x k) l && forallb (fun x => in_strs x l) k.

(** The checks on one page, and the page added. *)
Definition add_page (page : list ValoperListEntry) (s : pages) : res pages :=
  _ ← raise_if (VALOPERS_PAGE_SIZE <? Z.of_nat (length page)) (RpcError "Valopers page exceeds the page-size limit");
  let operators := map ve_operator_address page in
  _ ← raise_if (existsb (fun q => bool_decide (q = operators)) (pg_sequences s) || existsb (same_members operators) (pg_sets s))
        (RpcError "Valopers list page repeats earlier contents");
  _ ← raise_if (existsb (fun o => in_strs o (pg_operators s)) operators)
        (RpcError "Duplicate Valoper operator address across pages");
  let entries := pg_entries s ++ page in
  _ ← raise_if (MAX_VALOPERS_PROFILES <? Z.of_nat (length entries)) (RpcError "Valopers registry exceeds the profile limit");
  Ok (Pages entries (operators ++ pg_operators s) (operators :: pg_sequences s) (operators :: pg_sets s)).

Fixpoint collect_pages (source_height : Z) (page_numbers : list Z) (s : pages) : query (list ValoperListEntry * Z) :=
  match page_numbers with
  | [] => pure (Raise (RpcError "Valopers registry pagination did not terminate"))
  | page_number :: rest =>
      let* render_data := pure (if page_number =? 1 then Ok build_root_render_data
                           else build_page_render_data ("?page=" +:+ str_of_Z page_number)) in
      let* rendered := fetch_with_retry render_data (if page_number =? 1 then "root" else "page") source_height in
      let* page := pure (parse_valopers_list (rr_decoded_text rendered)) in
      match page with
      | [] => if page_number =? 1 then pure (Ok (pg_entries s, 0))
              else pure (Raise (RpcError "Canonical empty Valopers registry is valid only at the root"))
      | _ =>
          let* has_next := pure (parse_pager_state (rr_decoded_text rendered) page_number page) in
          let* s := pure (add_page page s) in
          if negb has_next then pure (Ok (pg_entries s, page_number))
          else if page_number =? MAX_VALOPERS_PAGES then pure (Raise (RpcError "Valopers registry exceeds the page limit"))
          else collect_pages source_height rest s
      end
  end.
Definition collect_list (source_height : Z) : query (list ValoperListEntry * Z) :=
  collect_pages source_height (seqZ 1 MAX_VALOPERS_PAGES) (Pages [] [] [] []).

(** One entry's profile, checked against the entry and the profiles so far. *)
Definition add_profile (entry : ValoperListEntry) (profile : ValoperProfile) (profiles : list ValoperProfile)
    : res (list ValoperProfile) :=
  _ ← require (String.eqb (vp_operator_address profile) (ve_operator_address entry))
        (RpcError "Valoper detail operator does not match its list entry");
  _ ← require (String.eqb (vp_moniker profile) (ve_moniker entry))
        (RpcError "Valoper detail moniker does not match its list entry");
  _ ← raise_if (in_strs (vp_signing_address profile) (map vp_signing_address profiles))
        (RpcError "Duplicate Valoper signing address");
  _ ← raise_if (in_strs (vp_signing_pubkey profile) (map vp_signing_pubkey profiles))
        (RpcError "Duplicate Valoper signing public key");
  Ok (profiles ++ [profile]).
Fixpoint collect_profiles (source_height : Z) (entries : list ValoperListEntry) (profiles : list ValoperProfile)
    : query (list ValoperProfile) :=
  match entries with
  | [] => pure (Ok profiles)
  | entry :: rest =>
      let* render_data := pure (build_detail_render_data (ve_operator_address entry)) in
      let* rendered := fetch_with_retry render_data "detail" source_height in
      let* profile := pure (parse_valoper_detail (rr_decoded_text rendered)) in
      let* profiles := pure (add_profile entry profile profiles) in
      collect_profiles source_height rest profiles
  end.

Definition collect_valopers_snapshot (source_height : Z) : query ValopersSnapshot :=
  let* _ := pure (raise_if (source_height <? 1) (RpcError "Pinned source height must be a positive integer")) in
  let* (entries, page_count) := collect_list source_height in
  let* profiles := collect_profiles source_height entries [] in
  let* _ := pure (require (Nat.eqb (length profiles) (length entries)) (RpcError "Valopers profile count does not match the list")) in
  pure (Ok (Build_ValopersSnapshot source_height page_count profiles)).
End snapshot.

(** ** Properties *)
Record entry_ok (e : ValoperListEntry) : Prop := {
  eo_moniker : moniker_re (ve_moniker e) = true;
  eo_operator : address_re (ve_operator_address e) = true
}.
Record profile_ok (p : ValoperProfile) : Prop := {
  po_moniker : moniker_re (vp_moniker p) = true;
  po_description : 1 <= bytes_len (vp_description p) <= MAX_DESCRIPTION_BYTES;
  po_operator : address_re (vp_operator_address p) = true;
  po_signing : address_re (vp_signing_address p) = true;
  po_pubkey : gpub_re (vp_signing_pubkey p) = true;
  po_pubkey_length : MIN_SIGNING_PUBKEY_LENGTH <= py_len (vp_signing_pubkey p) <= MAX_SIGNING_PUBKEY_LENGTH;
  po_server : vp_server_type p ∈ SERVER_TYPES;
  po_path : vp_profile_path p = "/r/demo/profile:u/" +:+ vp_operator_address p
}.
(** What a collected snapshot promises to the code that stores it. *)
Record snapshot_ok (s : ValopersSnapshot) : Prop := {
  so_height : 1 <= vs_source_height s;
  so_pages : 0 <= vs_page_count s <= MAX_VALOPERS_PAGES;
  so_count : Z.of_nat (length (vs_profiles s)) <= MAX_VALOPERS_PROFILES;
  so_empty : vs_profiles s = [] <-> vs_page_count s = 0;
  so_profiles : Forall profile_ok (vs_profiles s);
  so_operators : NoDup (map vp_operator_address (vs_profiles s));
  so_signing : NoDup (map vp_signing_address (vs_profiles s));
  so_pubkeys : NoDup (map vp_signing_pubkey (vs_profiles s))
}.

Lemma in_strs_false s l : in_strs s l = false <-> s ∉ l.
Proof. rewrite <- in_strs_spec. by destruct (in_strs s l). Qed.
Lemma NoDup_snoc {A} (x : A) l : NoDup (l ++ [x]) <-> NoDup l /\ x ∉ l.
Proof. rewrite NoDup_app. setoid_rewrite list_elem_of_singleton. split; [naive_solver|]. intros [H1 H2]. split_and!; [done|congruence|apply NoDup_singleton]. Qed.

Lemma take_address_ok s a rest : take_address s = Some (a, rest) -> address_re a = true.
Proof. unfold take_address. destruct (split_at 40 s) as [b r]. destruct (address_re b) eqn:E; [|done]. by intros [= <- _]. Qed.
Lemma entry_re_address line m d p : entry_re line = Some (m, d, p) -> address_re d = true.
Proof.
  unfold entry_re. intros H. apply bind_Some in H as (s1 & _ & H). apply bind_Some in H as ([m' s2] & _ & H).
  apply bind_Some in H as (s3 & _ & H). apply bind_Some in H as ([d' s4] & Hd & H).
  apply bind_Some in H as (s5 & _ & H). apply bind_Some in H as ([p' s6] & _ & H).
  destruct (String.eqb s6 ")"); [|done]. injection H as <- <- <-. by eapply take_address_ok.
Qed.

(** The list loop keeps the entries valid, their operators distinct and seen. *)
Definition list_inv (s : list ValoperListEntry * list string) : Prop :=
  Forall entry_ok s.1 /\ NoDup (map ve_operator_address s.1) /\ (forall o, o ∈ s.2 <-> o ∈ map ve_operator_address s.1).
Lemma list_line_inv s line s' : list_inv s -> list_line s line = Ok s' -> list_inv s'.
Proof.
  destruct s as [es seen]. intros (H1 & H2 & H3). unfold list_line.
  destruct (entry_re line) as [[[m d] p]|] eqn:E; [|by destruct (looks_like_list_entry line); [|intros [= <-]]].
  intros Hl. apply bind_Ok in Hl as (? & Hm%require_Ok & Hl). apply bind_Ok in Hl as (? & _ & Hl).
  apply bind_Ok in Hl as (? & Hs%raise_if_Ok & Hl). apply Ok_inj in Hl as <-. apply in_strs_false in Hs. unfold list_inv. cbn [fst snd] in *.
  split_and!.
  - apply Forall_app. split; [done|]. repeat constructor; [done|]. by eapply entry_re_address.
  - rewrite map_app. apply NoDup_snoc. split; [done|]. by rewrite <- H3.
  - intros o. rewrite map_app, elem_of_cons, elem_of_app, H3. cbn [map ve_operator_address]. rewrite list_elem_of_singleton. naive_solver.
Qed.
Lemma parse_valopers_list_ok text es : parse_valopers_list text = Ok es ->
  Forall entry_ok es /\ NoDup (map ve_operator_address es).
Proof.
  unfold parse_valopers_list. intros H. apply bind_Ok in H as (? & _ & H). apply bind_Ok in H as ([entries seen] & Hf & H).
  assert (Hinv : list_inv (entries, seen)).
  { eapply (foldM_res_inv list_inv); [| |exact Hf]; [|intros; by eapply list_line_inv].
    split_and!; [by constructor|by constructor|]. intros o. split; intros ?%elem_of_nil; done. }
  destruct entries as [|e entries].
  - destruct (last _); [|done]. destruct (String.eqb _ _); [|done]. apply Ok_inj in H as <-. split; constructor.
  - apply Ok_inj in H as <-. by destruct Hinv as (? & ? & _).
Qed.

Lemma parse_valoper_detail_ok text p : parse_valoper_detail text = Ok p -> profile_ok p.
Proof.
  unfold parse_valoper_detail. intros H. apply bind_Ok in H as (? & _ & H).
  destruct (strip_prefix detail_prefix text) as [rest|]; [|done]. destruct (span _ rest) as [moniker body].
  destruct (String.eqb body ""); [done|]. apply bind_Ok in H as (? & Hm%require_Ok & H).
  destruct (detail_tail_search body) as [[before tail]|]; [|done]. cbv zeta in H.
  apply bind_Ok in H as (? & Hd1%raise_if_Ok & H). apply bind_Ok in H as (? & Hd2%raise_if_Ok & H).
  apply bind_Ok in H as (? & Ha%require_Ok & H). apply bind_Ok in H as (? & Hp%require_Ok & H).
  apply bind_Ok in H as (? & Hs%require_Ok & H). apply bind_Ok in H as (? & Hpr%require_Ok & H). apply Ok_inj in H as <-.
  apply andb_prop in Ha as [Ho Hsg]. apply andb_prop in Hp as [[Hp1 Hp2]%andb_prop Hp3].
  constructor; cbn [vp_moniker vp_description vp_operator_address vp_signing_address vp_signing_pubkey vp_server_type vp_profile_path]; try done.
  - unfold bytes_len in *. apply String.eqb_neq in Hd1. split; [|lia]. destruct (String.substring _ _ _); [done|]. simpl. lia.
  - lia.
  - by apply in_strs_spec.
Qed.

Section snapshot_proofs.
Context `{UnicodeData} {W : Type} `{RegistryClient W}.

Record pages_inv (s : pages) : Prop := {
  pi_entries : Forall entry_ok (pg_entries s);
  pi_nodup : NoDup (map ve_operator_address (pg_entries s));
  pi_seen : forall o, o ∈ pg_operators s <-> o ∈ map ve_operator_address (pg_entries s);
  pi_count : Z.of_nat (length (pg_entries s)) <= MAX_VALOPERS_PROFILES
}.

Lemma add_page_inv page s s' : pages_inv s -> Forall entry_ok page -> NoDup (map ve_operator_address page) ->
  add_page page s = Ok s' -> pages_inv s' /\ pg_entries s' = pg_entries s ++ page.
Proof.
  intros [H1 H2 H3 H4] Hp Hn. unfold add_page. intros Ha. apply bind_Ok in Ha as (? & _ & Ha). cbv zeta in Ha.
  apply bind_Ok in Ha as (? & _ & Ha). apply bind_Ok in Ha as (? & Hd%raise_if_Ok & Ha).
  apply bind_Ok in Ha as (? & Hc%raise_if_Ok & Ha). apply Ok_inj in Ha as <-. split; [|done].
  assert (Hdis : forall o, o ∈ map ve_operator_address page -> o ∉ map ve_operator_address (pg_entries s)).
  { intros o Ho Hs. apply (not_true_iff_false _) in Hd. apply Hd. apply existsb_exists. exists o.
    split; [by apply list_elem_of_In|]. apply in_strs_spec. by rewrite H3. }
  constructor; cbn [pg_entries pg_operators].
  - by apply Forall_app.
  - rewrite map_app. apply NoDup_app. split_and!; try done. intros o Ho Hp'. by apply (Hdis o).
  - intros o. rewrite map_app, !elem_of_app, H3. naive_solver.
  - lia.
Qed.

Lemma collect_pages_ok h ps s w es n w' : pages_inv s ->
  (forall k, k ∈ ps -> 1 <= k <= MAX_VALOPERS_PAGES) -> (head ps = Some 1 \/ pg_entries s <> []) ->
  (head ps = Some 1 -> pg_entries s = []) -> (forall k, k ∈ tail ps -> k <> 1) ->
  collect_pages h ps s w = (Ok (es, n), w') ->
  Forall entry_ok es /\ NoDup (map ve_operator_address es) /\ Z.of_nat (length es) <= MAX_VALOPERS_PROFILES /\
  0 <= n <= MAX_VALOPERS_PAGES /\ (es = [] <-> n = 0).
Proof.
  revert s w. induction ps as [|k ps IH]; intros s w Hinv Hps Hfirst Hempty Htail Hc; cbn [collect_pages] in Hc; [done|].
  next_pure Hc rd Hrd. next Hc rendered Hrend. next_pure Hc page Hpage. apply parse_valopers_list_ok in Hpage as [Hp Hn].
  destruct page as [|e page].
  - destruct (k =? 1) eqn:Ek; [|done]. apply pure_Ok in Hc as [[= <- <-] _]. apply Z.eqb_eq in Ek as ->.
    specialize (Hempty eq_refl). destruct Hinv. unfold MAX_VALOPERS_PAGES. split_and!; try done; lia.
  - next_pure Hc has_next Hnext. next_pure Hc s' Hs'. destruct (add_page_inv _ _ _ Hinv Hp Hn Hs') as [Hinv' Heq].
    assert (Hne : pg_entries s' <> []) by (rewrite Heq; by destruct (pg_entries s)).
    pose proof (Hps k ltac:(by left)) as Hk. destruct has_next; simpl in Hc; cycle 1.
    { apply pure_Ok in Hc as [[= <- <-] _]. destruct Hinv'. split_and!; try done; [lia|lia|]. split; [done|lia]. }
    destruct (k =? MAX_VALOPERS_PAGES); [done|]. eapply (IH s'); [exact Hinv'| |by right| | |exact Hc].
    + intros j Hj. apply Hps. by right.
    + intros Hh. destruct ps as [|k' ps]; [done|]. injection Hh as ->. exfalso. by apply (Htail 1); [left|].
    + intros j Hj. apply Htail. destruct ps; [done|]. by right.
Qed.

Lemma collect_list_ok h w es n w' : collect_list h w = (Ok (es, n), w') ->
  Forall entry_ok es /\ NoDup (map ve_operator_address es) /\ Z.of_nat (length es) <= MAX_VALOPERS_PROFILES /\
  0 <= n <= MAX_VALOPERS_PAGES /\ (es = [] <-> n = 0).
Proof.
  apply collect_pages_ok; try done.
  - constructor; try done; constructor.
  - intros k. rewrite elem_of_seqZ. unfold MAX_VALOPERS_PAGES. lia.
  - by left.
  - change (tail (seqZ 1 MAX_VALOPERS_PAGES)) with (seqZ 2 19). intros k. rewrite elem_of_seqZ. lia.
Qed.

(** The profiles follow the entries, with distinct keys. *)
Record profiles_inv (entries : list ValoperListEntry) (ps : list ValoperProfile) : Prop := {
  pf_ok : Forall profile_ok ps;
  pf_operators : map vp_operator_address ps = map ve_operator_address entries;
  pf_signing : NoDup (map vp_signing_address ps);
  pf_pubkeys : NoDup (map vp_signing_pubkey ps)
}.

Lemma collect_profiles_ok h before todo ps w ps' w' : profiles_inv before ps ->
  collect_profiles h todo ps w = (Ok ps', w') -> profiles_inv (before ++ todo) ps'.
Proof.
  revert before ps w. induction todo as [|e todo IH]; intros before ps w Hinv Hc; cbn [collect_profiles] in Hc.
  { apply pure_Ok in Hc as [[= <-] _]. by rewrite app_nil_r. }
  next_pure Hc rd Hrd. next Hc rendered Hrend. next_pure Hc p Hp. next_pure Hc qs Hqs.
  apply parse_valoper_detail_ok in Hp. destruct Hinv as [H1 H2 H3 H4].
  unfold add_profile in Hqs. apply bind_Ok in Hqs as (? & Ho%require_Ok & Hqs). apply bind_Ok in Hqs as (? & _ & Hqs).
  apply bind_Ok in Hqs as (? & Hs%raise_if_Ok & Hqs). apply bind_Ok in Hqs as (? & Hk%raise_if_Ok & Hqs). apply Ok_inj in Hqs as <-.
  apply String.eqb_eq in Ho. apply in_strs_false in Hs, Hk.
  replace (before ++ e :: todo) with ((before ++ [e]) ++ todo) by by rewrite <- app_assoc.
  eapply IH; [|exact Hc]. constructor.
  - apply Forall_app. split; [done|]. by apply Forall_singleton.
  - rewrite !map_app, H2. cbn [map]. by rewrite Ho.
  - rewrite map_app. by apply NoDup_snoc.
  - rewrite map_app. by apply NoDup_snoc.
Qed.

Lemma collected_ok h w s w' : collect_valopers_snapshot h w = (Ok s, w') -> vs_source_height s = h /\ snapshot_ok s.
Proof.
  unfold collect_valopers_snapshot. intros Hc. next_pure Hc u Hh. apply raise_if_Ok in Hh.
  next Hc en Hl. destruct en as [entries n]. next Hc ps Hp. next_pure Hc u2 Hlen. apply pure_Ok in Hc as [[= <-] _].
  apply collect_list_ok in Hl as (H1 & H2 & H3 & H4 & H5).
  apply (collect_profiles_ok h [] entries []) in Hp; [|by constructor; [constructor|..|constructor|constructor]].
  destruct Hp as [P1 P2 P3 P4]. apply require_Ok, Nat.eqb_eq in Hlen. simpl in P2. split; [done|].
  constructor; cbn [vs_source_height vs_page_count vs_profiles]; try done; [lia|lia| |by rewrite P2].
  rewrite <- H5. split; intros ->; [by destruct entries|by destruct ps].
Qed.
End snapshot_proofs.
