(* ===== verification/ValopersStore.v ===== *)
(** * indexer/valopers_persistence.py: the stored Valopers snapshot

    The tables [valoper_profiles] and [valopers_snapshot_state] with the
    constraints of src/database/schema.sql, the transaction that replaces the
    snapshot, and its refinement of a store that holds one snapshot and only
    ever moves to a higher source height. *)
From Stdlib Require Import ZArith NArith Lia Ascii String.
From stdpp Require Import base gmap sets list strings sorting.
From S2P Require Import Prelude PyStr PyVal Codec InspectRpc Valopers.
Open Scope Z_scope.

(** ** Tables *)

(** operator_address, moniker, description, server_type, signing_address,
    signing_pubkey: the order of [_profile_tuple]. *)
Definition profile_tuple : Type := string * string * string * string * string * string.
(** A row of [valoper_profiles]: with source_height and list_position. *)
Definition profile_row : Type := profile_tuple * Z * Z.
(** The [default] row of [valopers_snapshot_state]: chain_id, source_height,
    page_count, profile_count. *)
Definition snapshot_state : Type := string * Z * Z * Z.

Record store := Store {
  profile_rows : list profile_row;
  snapshot_row : option snapshot_state;
  indexer_chain : option string          (* indexer_state.chain_id *)
}.

Definition t_operator (t : profile_tuple) : string := let '(o, _, _, _, _, _) := t in o.
Definition t_signing (t : profile_tuple) : string := let '(_, _, _, _, s, _) := t in s.
Definition t_pubkey (t : profile_tuple) : string := let '(_, _, _, _, _, k) := t in k.

(** PostgreSQL text holds no NUL character. *)
Definition no_nul (s : string) : bool := str_forallb (fun a => negb (byte_Z a =? 0)) s.
Definition bigint (z : Z) : bool := (- 2 ^ 63 <=? z) && (z <? 2 ^ 63).
Definition between_Z (lo hi z : Z) : bool := (lo <=? z) && (z <=? hi).
(** The CHECK constraints of [valoper_profiles]. *)
Definition profile_checks (r : profile_row) : bool :=
  let '((operator, moniker, description, server, signing, pubkey), height, position) := r in
  (1 <=? height) && (0 <=? position)
  && between_Z 1 32 (py_len moniker) && between_Z 1 2048 (bytes_len description)
  && in_strs server SERVER_TYPES && address_re operator && address_re signing
  && gpub_re pubkey && between_Z 91 256 (bytes_len pubkey).
(** The CHECK constraints of [valopers_snapshot_state]. *)
Definition state_checks (s : snapshot_state) : bool :=
  let '(chain, height, pages, count) := s in
  (1 <=? height) && between_Z 0 20 pages && between_Z 0 1000 count
  && (((count =? 0) && (pages =? 0)) || ((0 <? count) && (1 <=? pages))).

(** [INSERT INTO valoper_profiles] *)
Definition insert_profile (rows : list profile_row) (r : profile_row) : res (list profile_row) :=
  let '(t, height, position) := r in
  let '(operator, moniker, description, server, signing, pubkey) := t in
  _ ← require (forallb no_nul [operator; moniker; description; server; signing; pubkey] && bigint height) DataError;
  _ ← require (profile_checks r) IntegrityError;
  _ ← raise_if (existsb (fun q : profile_row => String.eqb (t_operator q.1.1) operator || String.eqb (t_signing q.1.1) signing
                                  || String.eqb (t_pubkey q.1.1) pubkey) rows) IntegrityError;
  Ok (rows ++ [r]).
(** [INSERT INTO valopers_snapshot_state ... ON CONFLICT (state_key) DO UPDATE] *)
Definition upsert_state (s : snapshot_state) : res snapshot_state :=
  _ ← require (no_nul s.1.1.1 && bigint s.1.1.2) DataError;
  _ ← require (state_checks s) IntegrityError;
  Ok s.

(** [ORDER BY list_position] *)
Definition by_position (rows : list profile_row) : list profile_row :=
  sort_by (fun a b => a.2 <=? b.2) rows.

(** ** The transaction *)
Record ValopersPersistenceResult := {
  pr_action : string;
  pr_source_height : Z;
  pr_page_count : Z;
  pr_profile_count : Z
}.

Definition tuple_of (p : ValoperProfile) : profile_tuple :=
  (vp_operator_address p, vp_moniker p, vp_description p, vp_server_type p, vp_signing_address p, vp_signing_pubkey p).

Definition distinct (l : list string) : bool := Nat.eqb (length l) (length (dedup l)).
Definition validate_valopers_snapshot (snapshot : ValopersSnapshot) (chain_id : string) : res (list profile_tuple) :=
  let count := Z.of_nat (length (vs_profiles snapshot)) in
  _ ← raise_if (String.eqb (py_strip chain_id) "") (ValopersPersistenceError "chain_id must be a non-empty string");
  _ ← raise_if (vs_source_height snapshot <? 1) (ValopersPersistenceError "source_height must be a positive integer");
  _ ← require (between_Z 0 MAX_VALOPERS_PAGES (vs_page_count snapshot))
        (ValopersPersistenceError "page_count is outside the supported bounds");
  _ ← raise_if (MAX_VALOPERS_PROFILES <? count) (ValopersPersistenceError "profiles must be a bounded tuple");
  _ ← raise_if (((count =? 0) && negb (vs_page_count snapshot =? 0)) || ((0 <? count) && (vs_page_count snapshot <? 1)))
        (ValopersPersistenceError "profile and page counts are inconsistent");
  let rows := map tuple_of (vs_profiles snapshot) in
  _ ← require (forallb (fun f => distinct (map f rows)) [t_operator; t_signing; t_pubkey])
        (ValopersPersistenceError "Valoper identities must be unique");
  Ok rows.

Definition validate_stored_state (state : option snapshot_state) (rows : list profile_row) : res unit :=
  match state with
  | None => raise_if (match rows with [] => false | _ => true end)
              (ValopersStoredStateError "profiles exist without snapshot state")
  | Some (chain, height, pages, count) =>
      let valid_metadata :=
        negb (String.eqb (py_strip chain) "") && (1 <=? height) && between_Z 0 MAX_VALOPERS_PAGES pages
        && between_Z 0 MAX_VALOPERS_PROFILES count
        && (((count =? 0) && (pages =? 0)) || ((0 <? count) && (1 <=? pages))) in
      require (valid_metadata && (Z.of_nat (length rows) =? count) && forallb (fun r => r.1.2 =? height) rows
               && bool_decide (map snd rows = seqZ 0 count))
        (ValopersStoredStateError "stored Valopers snapshot is inconsistent")
  end.

(** The rows a snapshot is stored as. *)
Definition rows_of (height : Z) (tuples : list profile_tuple) : list profile_row :=
  imap (fun i t => (t, height, Z.of_nat i)) tuples.

Definition verify_written_snapshot (snapshot : ValopersSnapshot) (chain_id : string) (incoming : list profile_tuple)
    (d : store) : res unit :=
  _ ← require (bool_decide (snapshot_row d
                = Some (chain_id, vs_source_height snapshot, vs_page_count snapshot, Z.of_nat (length incoming))))
        (ValopersPersistenceError "written snapshot state verification failed");
  require (bool_decide (by_position (profile_rows d) = rows_of (vs_source_height snapshot) incoming))
    (ValopersPersistenceError "written snapshot profile verification failed").

Definition result_of (action : string) (snapshot : ValopersSnapshot) (incoming : list profile_tuple)
    : ValopersPersistenceResult :=
  Build_ValopersPersistenceResult action (vs_source_height snapshot) (vs_page_count snapshot) (Z.of_nat (length incoming)).

(** What the stored snapshot says about an incoming one: [Some tt] stops with
    [unchanged], [None] goes on to replace it. *)
Definition compare_stored (snapshot : ValopersSnapshot) (chain_id : string) (incoming : list profile_tuple)
    (state : option snapshot_state) (stored_rows : list profile_row) : res (option unit) :=
  match state with
  | None => Ok None
  | Some (stored_chain, stored_height, stored_pages, stored_count) =>
      _ ← require (String.eqb stored_chain chain_id) (ValopersChainIdentityError "stored snapshot belongs to another chain");
      _ ← raise_if (vs_source_height snapshot <? stored_height) (StaleValopersSnapshot "incoming snapshot is stale");
      if vs_source_height snapshot =? stored_height then
        if (vs_page_count snapshot =? stored_pages) && (Z.of_nat (length incoming) =? stored_count)
           && bool_decide (incoming = map (fun r => r.1.1) stored_rows)
        then Ok (Some tt)
        else Raise (ValopersSnapshotConflict "same-height Valopers snapshots differ")
      else Ok None
  end.

Definition replace_valopers_snapshot_cursor (snapshot : ValopersSnapshot) (chain_id : string) (d : store)
    : res (ValopersPersistenceResult * store) :=
  incoming ← validate_valopers_snapshot snapshot chain_id;
  _ ← raise_if (match indexer_chain d with
                | Some c => String.eqb (py_strip c) "" || negb (String.eqb c chain_id)
                | None => false
                end) (ValopersChainIdentityError "indexer state belongs to another chain");
  let state := snapshot_row d in
  let stored_rows := by_position (profile_rows d) in
  _ ← validate_stored_state state stored_rows;
  same ← compare_stored snapshot chain_id incoming state stored_rows;
  match same with
  | Some _ => Ok (result_of "unchanged" snapshot incoming, d)
  | None =>
      rows ← foldM_res insert_profile [] (rows_of (vs_source_height snapshot) incoming);
      row ← upsert_state (chain_id, vs_source_height snapshot, vs_page_count snapshot, Z.of_nat (length incoming));
      let d' := Store rows (Some row) (indexer_chain d) in
      _ ← verify_written_snapshot snapshot chain_id incoming d';
      Ok (result_of "applied" snapshot incoming, d')
  end.

(** [PostgresDatabase.replace_valopers_snapshot]: rolled back when it raises. *)
Definition replace_valopers_snapshot (snapshot : ValopersSnapshot) (chain_id : string) (d : store)
    : res ValopersPersistenceResult * store :=
  match replace_valopers_snapshot_cursor snapshot chain_id d with
  | Ok (r, d') => (Ok r, d')
  | Raise e => (Raise e, d)
  end.

(** ** The abstract store: one current snapshot *)
Record current := Current { cu_chain : string; cu_height : Z; cu_pages : Z; cu_tuples : list profile_tuple }.

Definition abstract_replace (snapshot : ValopersSnapshot) (chain_id : string) (indexer : option string)
    (a : option current) : res (string * option current) :=
  let tuples := map tuple_of (vs_profiles snapshot) in
  let next := Some (Current chain_id (vs_source_height snapshot) (vs_page_count snapshot) tuples) in
  if bool_decide (indexer <> None /\ indexer <> Some chain_id)
  then Raise (ValopersChainIdentityError "indexer state belongs to another chain") else
  match a with
  | None => Ok ("applied", next)
  | Some c =>
      if negb (String.eqb (cu_chain c) chain_id) then Raise (ValopersChainIdentityError "stored snapshot belongs to another chain")
      else if vs_source_height snapshot <? cu_height c then Raise (StaleValopersSnapshot "incoming snapshot is stale")
      else if cu_height c <? vs_source_height snapshot then Ok ("applied", next)
      else if (vs_page_count snapshot =? cu_pages c) && bool_decide (tuples = cu_tuples c) then Ok ("unchanged", a)
      else Raise (ValopersSnapshotConflict "same-height Valopers snapshots differ")
  end.

Record current_ok (c : current) : Prop := {
  cc_chain : String.eqb (py_strip (cu_chain c)) "" = false;
  cc_height : 1 <= cu_height c;
  cc_pages : 0 <= cu_pages c <= 20;
  cc_count : Z.of_nat (length (cu_tuples c)) <= 1000;
  cc_empty : cu_tuples c = [] <-> cu_pages c = 0
}.
Definition holds (d : store) (a : option current) : Prop :=
  match a with
  | None => profile_rows d = [] /\ snapshot_row d = None
  | Some c => current_ok c /\ by_position (profile_rows d) = rows_of (cu_height c) (cu_tuples c) /\
      snapshot_row d = Some (cu_chain c, cu_height c, cu_pages c, Z.of_nat (length (cu_tuples c)))
  end.
(** What the parser does not guarantee: PostgreSQL can represent the values. *)
Definition storable (snapshot : ValopersSnapshot) (chain_id : string) : Prop :=
  no_nul chain_id = true /\ String.eqb (py_strip chain_id) "" = false /\ vs_source_height snapshot < 2 ^ 63 /\
  Forall (fun p => no_nul (vp_description p) = true) (vs_profiles snapshot).

(** *** Rows *)
Lemma rows_of_fst h ts : map (fun r => r.1.1) (rows_of h ts) = ts.
Proof.
  unfold rows_of. apply list_eq. intros i. rewrite list_lookup_fmap, list_lookup_imap. by destruct (ts !! i).
Qed.
Lemma rows_of_height h ts : forallb (fun r => r.1.2 =? h) (rows_of h ts) = true.
Proof.
  apply forallb_forall. intros r [i Hi]%list_elem_of_In%list_elem_of_lookup. unfold rows_of in Hi.
  rewrite list_lookup_imap in Hi. destruct (ts !! i); [|done]. injection Hi as <-. simpl. lia.
Qed.
Lemma rows_of_length h ts : length (rows_of h ts) = length ts.
Proof. apply length_imap. Qed.
Lemma rows_of_positions h ts : map snd (rows_of h ts) = seqZ 0 (Z.of_nat (length ts)).
Proof.
  unfold rows_of. apply list_eq. intros i. rewrite list_lookup_fmap, list_lookup_imap.
  destruct (ts !! i) eqn:E; simpl.
  - apply lookup_lt_Some in E. symmetry. apply lookup_seqZ; lia.
  - apply lookup_ge_None in E. symmetry. apply lookup_ge_None_2. rewrite length_seqZ. lia.
Qed.

Lemma rows_of_snoc h ts t : rows_of h (ts ++ [t]) = rows_of h ts ++ [(t, h, Z.of_nat (length ts))].
Proof. unfold rows_of. rewrite imap_app. simpl. by rewrite Nat.add_0_r. Qed.

(** Rows inserted in order are read back in order. *)
Lemma insert_by_last {A} (le : A -> A -> bool) x l : (forall y, y ∈ l -> le x y = true) -> insert_by le x l = x :: l.
Proof. destruct l as [|y l]; [done|]. intros Hle. simpl. by rewrite (Hle y) by left. Qed.
Lemma rows_of_sorted h ts : by_position (rows_of h ts) = rows_of h ts.
Proof.
  unfold by_position, rows_of.
  assert (Hgen : forall k, sort_by (fun a b => a.2 <=? b.2) (imap (fun i t => (t, h, Z.of_nat (k + i))) ts)
    = imap (fun i t => (t, h, Z.of_nat (k + i))) ts).
  { induction ts as [|t ts IH]; intros k; [done|]. cbn [imap]. unfold compose.
    change (imap (fun x t => (t, h, Z.of_nat (k + S x))) ts) with (imap (fun x t => (t, h, Z.of_nat (k + S x)%nat)) ts).
    rewrite (imap_ext (fun x t => (t, h, Z.of_nat (k + S x))) (fun x t => (t, h, Z.of_nat (S k + x)))) by (intros; do 2 f_equal; lia).
    unfold sort_by in *. cbn [foldr]. rewrite (IH (S k)). apply insert_by_last.
    intros r [i Hi]%list_elem_of_lookup. rewrite list_lookup_imap in Hi. destruct (ts !! i); [|done].
    change (Some (p, h, Z.of_nat (S k + i)) = Some r) in Hi. injection Hi as <-. apply Z.leb_le, Nat2Z.inj_le. lia. }
  apply (Hgen 0%nat).
Qed.

(** *** Texts the patterns accept *)
Lemma strip_prefix_app p s r : strip_prefix p s = Some r -> s = p +:+ r.
Proof.
  revert s. induction p as [|a p IH]; intros s; simpl; [by intros [= <-]|]. destruct s as [|b s]; [done|].
  case_bool_decide as Hab; [|done]. subst. intros Hs. by rewrite (IH _ Hs).
Qed.
(** The characters of addresses and keys. *)
Definition plain (a : ascii) : bool := negb (byte_Z a =? 0) && is_ascii_byte a.
Lemma bech32_plain a : is_bech32 a = true -> plain a = true.
Proof. destruct a as [[] [] [] [] [] [] [] []]; vm_compute; done. Qed.
Lemma moniker_plain a : moniker_char a = true -> plain a = true.
Proof. destruct a as [[] [] [] [] [] [] [] []]; vm_compute; done. Qed.
Lemma alnum_plain a : is_alnum a = true -> plain a = true.
Proof. destruct a as [[] [] [] [] [] [] [] []]; vm_compute; done. Qed.
Lemma plain_no_nul s : str_forallb plain s = true -> no_nul s = true.
Proof. apply str_forallb_impl. by intros a [Ha _]%andb_prop. Qed.
Lemma plain_ascii s : str_forallb plain s = true -> is_ascii s = true.
Proof. apply str_forallb_impl. by intros a [_ Ha]%andb_prop. Qed.

Lemma address_plain s : address_re s = true -> str_forallb plain s = true.
Proof.
  unfold address_re. destruct (strip_prefix "g1" s) as [r|] eqn:E; [|done]. apply strip_prefix_app in E as ->.
  intros [_ Hr]%andb_prop. rewrite str_forallb_app. apply andb_true_intro. split; [done|].
  eapply str_forallb_impl; [apply bech32_plain|done].
Qed.
Lemma gpub_plain s : gpub_re s = true -> str_forallb plain s = true.
Proof.
  unfold gpub_re. destruct (strip_prefix "gpub1" s) as [r|] eqn:E; [|done]. apply strip_prefix_app in E as ->.
  intros [_ Hr]%andb_prop. rewrite str_forallb_app. apply andb_true_intro. split; [done|].
  eapply str_forallb_impl; [apply bech32_plain|done].
Qed.
Lemma str_forallb_list p s : str_forallb p s = forallb p (list_of_string s).
Proof. induction s as [|a s IH]; [done|]. simpl. by rewrite IH. Qed.
Lemma moniker_plain_all s : moniker_re s = true -> str_forallb plain s = true /\ (1 <= String.length s <= 32)%nat.
Proof.
  unfold moniker_re. intros H. assert (Hlen : String.length s = length (list_of_string s)).
  { clear H. induction s as [|a s IH]; [done|]. simpl. by rewrite IH. }
  rewrite str_forallb_list, Hlen. destruct (list_of_string s) as [|a l]; [done|]. cbn [length forallb].
  apply andb_prop in H as [[Ha Hl%Nat.leb_le]%andb_prop Hz]. split; [|lia].
  rewrite (alnum_plain a Ha). simpl. destruct (last l) as [z|] eqn:E; [|by apply last_None in E as ->].
  apply andb_prop in Hz as [_ Hz]. rewrite forallb_forall in *. intros x Hx. by apply moniker_plain, Hz.
Qed.

(** A collected profile violates no constraint of its table. *)
Lemma profile_insertable p h i : profile_ok p -> no_nul (vp_description p) = true -> 1 <= h < 2 ^ 63 -> 0 <= i ->
  forallb no_nul [vp_operator_address p; vp_moniker p; vp_description p; vp_server_type p; vp_signing_address p;
    vp_signing_pubkey p] && bigint h = true /\ profile_checks (tuple_of p, h, i) = true.
Proof.
  intros [Hm Hd Ho Hs Hk Hkl Hsv _] Hnul Hh Hi. destruct (moniker_plain_all _ Hm) as [Hmp Hml].
  pose proof (address_plain _ Ho) as Hop. pose proof (address_plain _ Hs) as Hsp. pose proof (gpub_plain _ Hk) as Hkp.
  assert (Hsn : no_nul (vp_server_type p) = true).
  { clear -Hsv. apply list_elem_of_In in Hsv. by destruct Hsv as [<-|[<-|[<-|[]]]]. }
  split.
  - cbn [forallb]. rewrite (plain_no_nul _ Hop), (plain_no_nul _ Hmp), Hnul, Hsn, (plain_no_nul _ Hsp), (plain_no_nul _ Hkp).
    unfold bigint. cbn [andb]. lia.
  - unfold profile_checks, tuple_of, between_Z, bytes_len in *. apply in_strs_spec in Hsv. rewrite Hsv, Ho, Hs, Hk.
    rewrite (py_len_ascii _ (plain_ascii _ Hmp)). rewrite (py_len_ascii _ (plain_ascii _ Hkp)) in Hkl.
    unfold MAX_DESCRIPTION_BYTES, MIN_SIGNING_PUBKEY_LENGTH, MAX_SIGNING_PUBKEY_LENGTH in *. rewrite !andb_true_r. lia.
Qed.

Lemma insert_tuple (rows : list profile_row) p h i : insert_profile rows (tuple_of p, h, i) =
  (_ ← require (forallb no_nul [vp_operator_address p; vp_moniker p; vp_description p; vp_server_type p;
                  vp_signing_address p; vp_signing_pubkey p] && bigint h) DataError;
   _ ← require (profile_checks (tuple_of p, h, i)) IntegrityError;
   _ ← raise_if (existsb (fun q : profile_row => String.eqb (t_operator q.1.1) (vp_operator_address p)
                     || String.eqb (t_signing q.1.1) (vp_signing_address p)
                     || String.eqb (t_pubkey q.1.1) (vp_signing_pubkey p)) rows) IntegrityError;
   Ok (rows ++ [(tuple_of p, h, i)])).
Proof. reflexivity. Qed.

(** *** The checks *)
Lemma counts_consistent {A} (l : list A) pages : 0 <= pages -> (l = [] <-> pages = 0) ->
  let count := Z.of_nat (length l) in ((count =? 0) && (pages =? 0)) || ((0 <? count) && (1 <=? pages)) = true.
Proof.
  intros Hp Hl. cbv zeta. destruct l as [|x l].
  - by rewrite (proj1 Hl).
  - assert (pages <> 0) by (intros E; by apply Hl in E). cbn [length].
    apply orb_true_intro. right. apply andb_true_intro. split; [apply Z.ltb_lt|]; lia.
Qed.
Lemma distinct_NoDup l : NoDup l -> distinct l = true.
Proof.
  intros Hl. apply Nat.eqb_eq, Permutation_length, NoDup_Permutation; [done|apply NoDup_dedup|].
  intros x. by rewrite elem_of_dedup.
Qed.

Section replace.
Context (snapshot : ValopersSnapshot) (chain : string).
Context (Hok : snapshot_ok snapshot) (Hst : storable snapshot chain).
#[local] Abbreviation tuples := (map tuple_of (vs_profiles snapshot)).
#[local] Abbreviation h := (vs_source_height snapshot).

Lemma validated : validate_valopers_snapshot snapshot chain = Ok tuples.
Proof.
  destruct Hok as [H1 H2 H3 H4 _ H6 H7 H8]. destruct Hst as (_ & Hc & _ & _).
  unfold validate_valopers_snapshot. rewrite Hc. cbn [raise_if mbind res_bind].
  replace (h <? 1) with false by lia. cbn [raise_if mbind res_bind].
  replace (between_Z 0 MAX_VALOPERS_PAGES (vs_page_count snapshot)) with true by (unfold between_Z; lia).
  cbn [require mbind res_bind]. replace (MAX_VALOPERS_PROFILES <? Z.of_nat (length (vs_profiles snapshot))) with false by lia.
  cbn [raise_if mbind res_bind].
  replace (_ || _) with false; cycle 1.
  { symmetry. destruct (vs_profiles snapshot) as [|p ps]; simpl length in *.
    - rewrite (proj1 H4) by done. done.
    - assert (vs_page_count snapshot <> 0) by (intros E; by apply H4 in E).
      replace (vs_page_count snapshot <? 1) with false by lia. rewrite (proj2 (Z.eqb_neq (Z.of_nat (S (length ps))) 0)) by lia.
      by rewrite andb_false_r. }
  cbn [raise_if mbind res_bind]. cbv zeta.
  assert (Hd : forall (f : profile_tuple -> string) g, (forall p, f (tuple_of p) = g p) -> NoDup (map g (vs_profiles snapshot)) ->
    distinct (map f tuples) = true).
  { intros f g Hfg Hn. apply distinct_NoDup. rewrite map_map. by rewrite (map_ext _ g). }
  cbn [forallb]. rewrite (Hd _ vp_operator_address), (Hd _ vp_signing_address), (Hd _ vp_signing_pubkey); done.
Qed.

Lemma inserted_rows : foldM_res insert_profile [] (rows_of h tuples) = Ok (rows_of h tuples).
Proof.
  destruct Hok as [H1 _ _ _ H5 H6 H7 H8]. destruct Hst as (_ & _ & Hh & Hn).
  assert (Hgen : forall ps, ps `prefix_of` vs_profiles snapshot ->
    foldM_res insert_profile [] (rows_of h (map tuple_of ps)) = Ok (rows_of h (map tuple_of ps))); [|by apply Hgen].
  intros ps. induction ps as [|p ps IH] using rev_ind; [done|]. intros Hpre.
  assert (Hps : ps `prefix_of` vs_profiles snapshot) by (etrans; [|exact Hpre]; by apply prefix_app_r).
  rewrite map_app. cbn [map]. rewrite rows_of_snoc, foldM_res_app, (IH Hps). cbn [mbind res_bind foldM_res].
  assert (Hin : p ∈ vs_profiles snapshot).
  { destruct Hpre as [k ->]. rewrite !elem_of_app, list_elem_of_singleton. naive_solver. }
  assert (Hpok : profile_ok p) by by eapply Forall_forall in H5.
  assert (Hpn : no_nul (vp_description p) = true).
  { rewrite Forall_forall in Hn. by apply Hn. }
  generalize (Nat2Z.is_nonneg (length (map tuple_of ps))). generalize (Z.of_nat (length (map tuple_of ps))). intros i Hi.
  destruct (profile_insertable p h i Hpok Hpn ltac:(lia) Hi) as [Ht Hc].
  assert (Hfresh : existsb (fun q : profile_row => String.eqb (t_operator q.1.1) (vp_operator_address p)
      || String.eqb (t_signing q.1.1) (vp_signing_address p) || String.eqb (t_pubkey q.1.1) (vp_signing_pubkey p))
      (rows_of h (map tuple_of ps)) = false).
  { apply not_true_iff_false. rewrite existsb_exists. intros (q & Hq & He).
    assert (Hqt : q.1.1 ∈ map tuple_of ps).
    { rewrite <- (rows_of_fst h (map tuple_of ps)). apply list_elem_of_In, in_map_iff. by exists q. }
    apply list_elem_of_In, in_map_iff in Hqt as (p' & Hp' & Hin'). rewrite <- Hp' in He. cbn in He.
    assert (Hnot : forall f : ValoperProfile -> string, NoDup (map f (vs_profiles snapshot)) -> f p' <> f p).
    { intros f Hf Heq. destruct Hpre as [k Hk]. rewrite Hk, !map_app in Hf. apply NoDup_app in Hf as [Hf _].
      apply NoDup_app in Hf as (_ & Hf & _). apply (Hf (f p')); [by apply list_elem_of_In, in_map|]. rewrite Heq. by left. }
    apply orb_prop in He as [[He|He]%orb_prop|He]; apply String.eqb_eq in He; [by apply (Hnot _ H6)|by apply (Hnot _ H7)|by apply (Hnot _ H8)]. }
  rewrite insert_tuple, Ht. cbn [require mbind res_bind]. rewrite Hc. cbn [require mbind res_bind]. by rewrite Hfresh.
Qed.

Lemma next_current_ok : current_ok (Current chain h (vs_page_count snapshot) tuples).
Proof.
  destruct Hok as [H1 H2 H3 H4 _ _ _ _]. destruct Hst as (_ & Hc & _ & _).
  constructor; cbn [cu_chain cu_height cu_pages cu_tuples]; try done.
  - rewrite length_map. unfold MAX_VALOPERS_PROFILES in H3. lia.
  - rewrite <- H4. split; [by destruct (vs_profiles snapshot)|by intros ->].
Qed.

Lemma state_upserted : upsert_state (chain, h, vs_page_count snapshot, Z.of_nat (length tuples))
  = Ok (chain, h, vs_page_count snapshot, Z.of_nat (length tuples)).
Proof.
  destruct next_current_ok as [_ C2 C3 C4 C5]. destruct Hst as (Hn & _ & Hh & _). cbn in C2, C3, C4, C5.
  unfold upsert_state. cbn [fst snd]. rewrite Hn. unfold bigint. replace (- 2 ^ 63 <=? h) with true by lia.
  replace (h <? 2 ^ 63) with true by lia. cbn [andb require mbind res_bind].
  replace (state_checks _) with true; [done|]. symmetry. unfold state_checks, between_Z.
  rewrite (counts_consistent tuples) by (done || lia). lia.
Qed.

Lemma stored_state_ok d a : holds d a -> validate_stored_state (snapshot_row d) (by_position (profile_rows d)) = Ok tt.
Proof.
  destruct a as [c|]; cbn [holds]; [|by intros [-> ->]]. intros ([C1 C2 C3 C4 C5] & Hr & ->). rewrite Hr.
  unfold validate_stored_state. rewrite rows_of_length, rows_of_height, rows_of_positions, Z.eqb_refl.
  rewrite bool_decide_eq_true_2 by done. rewrite C1. rewrite !andb_true_r. unfold between_Z, MAX_VALOPERS_PAGES, MAX_VALOPERS_PROFILES.
  apply require_Ok. rewrite (counts_consistent (cu_tuples c)) by (done || lia). cbn [negb]. lia.
Qed.

(** The replacement itself. *)
Lemma replaced d : exists d', holds d' (Some (Current chain h (vs_page_count snapshot) tuples)) /\
  (rows ← foldM_res insert_profile [] (rows_of h tuples);
   row ← upsert_state (chain, h, vs_page_count snapshot, Z.of_nat (length tuples));
   let d' := Store rows (Some row) (indexer_chain d) in
   _ ← verify_written_snapshot snapshot chain tuples d';
   Ok (result_of "applied" snapshot tuples, d')) = Ok (result_of "applied" snapshot tuples, d').
Proof.
  exists (Store (rows_of h tuples) (Some (chain, h, vs_page_count snapshot, Z.of_nat (length tuples))) (indexer_chain d)).
  split; [split; [apply next_current_ok|]; split; [apply rows_of_sorted|done]|].
  rewrite inserted_rows. cbn [mbind res_bind]. rewrite state_upserted. cbn [mbind res_bind]. cbv zeta.
  unfold verify_written_snapshot. cbn [snapshot_row profile_rows]. rewrite rows_of_sorted.
  by rewrite !bool_decide_eq_true_2.
Qed.

Lemma compared d c : holds d (Some c) ->
  compare_stored snapshot chain tuples (snapshot_row d) (by_position (profile_rows d)) =
  if negb (String.eqb (cu_chain c) chain) then Raise (ValopersChainIdentityError "stored snapshot belongs to another chain")
  else if h <? cu_height c then Raise (StaleValopersSnapshot "incoming snapshot is stale")
  else if cu_height c <? h then Ok None
  else if (vs_page_count snapshot =? cu_pages c) && bool_decide (tuples = cu_tuples c) then Ok (Some tt)
  else Raise (ValopersSnapshotConflict "same-height Valopers snapshots differ").
Proof.
  intros (_ & Hr & ->). unfold compare_stored. rewrite Hr, rows_of_fst.
  destruct (String.eqb (cu_chain c) chain); cbn [negb require mbind res_bind]; [|done].
  destruct (h <? cu_height c) eqn:E1; cbn [raise_if mbind res_bind]; [done|].
  destruct (cu_height c <? h) eqn:E2; [by replace (h =? cu_height c) with false by lia|].
  replace (h =? cu_height c) with true by lia. destruct (vs_page_count snapshot =? cu_pages c); [|done]. cbn [andb].
  case_bool_decide as Ht; [|by rewrite andb_false_r]. by rewrite Ht, Z.eqb_refl.
Qed.

Lemma replace_refines d a : holds d a ->
  match abstract_replace snapshot chain (indexer_chain d) a with
  | Raise e => replace_valopers_snapshot snapshot chain d = (Raise e, d)
  | Ok (action, a') => exists d', holds d' a' /\
      replace_valopers_snapshot snapshot chain d = (Ok (result_of action snapshot tuples), d')
  end.
Proof.
  intros Hd. unfold abstract_replace, replace_valopers_snapshot, replace_valopers_snapshot_cursor.
  rewrite validated. cbn [mbind res_bind]. cbv zeta.
  assert (Hidx : (match indexer_chain d with
                  | Some c => String.eqb (py_strip c) "" || negb (String.eqb c chain) | None => false end)
    = bool_decide (indexer_chain d <> None /\ indexer_chain d <> Some chain)).
  { destruct (indexer_chain d) as [c|]; [|by rewrite bool_decide_eq_false_2 by (by intros [])].
    destruct (String.eqb_spec c chain) as [->|Hne].
    - rewrite bool_decide_eq_false_2 by (by intros [_ []]). destruct Hst as (_ & -> & _). done.
    - rewrite bool_decide_eq_true_2 by (split; congruence). by rewrite orb_true_r. }
  rewrite Hidx. destruct (bool_decide _); cbn [raise_if mbind res_bind]; [done|].
  rewrite (stored_state_ok d a Hd). cbn [mbind res_bind]. pose proof (replaced d) as (d' & Hd' & Hrun). cbv zeta in Hrun.
  destruct a as [c|].
  - rewrite (compared d c Hd). destruct (negb _); cbn [mbind res_bind]; [done|].
    destruct (h <? cu_height c); cbn [mbind res_bind]; [done|].
    destruct (cu_height c <? h); cbn [mbind res_bind]; [exists d'; by rewrite Hrun|].
    destruct (_ && _); cbn [mbind res_bind]; [by exists d|done].
  - destruct Hd as [_ ->]. cbn [compare_stored mbind res_bind]. exists d'. by rewrite Hrun.
Qed.
End replace.

(** C33. Replacing the Valopers snapshot implements a store that holds one
    current snapshot: for every collected snapshot PostgreSQL can represent,
    the transaction refuses another chain, an older height and a different
    snapshot of the same height, reports an identical one as unchanged, and
    otherwise makes the new snapshot, in its order, exactly what is stored;
    no constraint of the tables is violated and a refusal changes nothing. *)
Theorem replace_valopers_refines `{UnicodeData} {W} `{RegistryClient W} height w snapshot w' chain d a :
  collect_valopers_snapshot height w = (Ok snapshot, w') -> storable snapshot chain -> holds d a ->
  match abstract_replace snapshot chain (indexer_chain d) a with
  | Raise e => replace_valopers_snapshot snapshot chain d = (Raise e, d)
  | Ok (action, a') => exists d', holds d' a' /\
      replace_valopers_snapshot snapshot chain d
      = (Ok (result_of action snapshot (map tuple_of (vs_profiles snapshot))), d')
  end.
Proof. intros [_ Hok]%collected_ok Hs Hd. by apply replace_refines. Qed.

(** ** A registry of one operator *)
Definition demo_address (c : ascii) : string := "g1" +:+ string_of_list (replicate 38 c).
Definition demo_pubkey : string := "gpub1" +:+ string_of_list (replicate 86 "q"%char).
Definition demo_entry : ValoperListEntry := Build_ValoperListEntry "node one" (demo_address "q").
Definition demo_detail (description : string) : string :=
  detail_prefix +:+ "node one" +:+ nl +:+ description +:+ nl +:+ nl +:+ "- Operator Address: " +:+ demo_address "q"
  +:+ nl +:+ "- Signing Address: " +:+ demo_address "p" +:+ nl +:+ "- Signing PubKey: " +:+ demo_pubkey
  +:+ nl +:+ "- Server Type: cloud" +:+ nl +:+ nl +:+ "[Profile link](/r/demo/profile:u/" +:+ demo_address "q" +:+ ")" +:+ nl.
Definition demo_answer (text : string) : val :=
  VDict [("result", VDict [("response", VDict [("Height", VStr "0");
    ("ResponseBase", VDict [("Error", VNone); ("Data", VStr (b64encode (list_of_string text)))])])])].
Definition demo_unicode : UnicodeData := {| category_C := fun c => c <? 32 |}.
Definition demo_registry : RegistryClient unit := {|
  abci_query_get params w :=
    (Ok (demo_answer
           (if bool_decide (dict_get "data" params
                            = Some (VStr (json_string true (b64encode (list_of_string build_root_render_data)))))
            then "Valopers" +:+ nl +:+ entry_line demo_entry +:+ nl else demo_detail "A node.")), w)
|}.
#[local] Existing Instance demo_unicode.
#[local] Existing Instance demo_registry.

Definition demo_profile : ValoperProfile :=
  Build_ValoperProfile "node one" "A node." (demo_address "q") (demo_address "p") demo_pubkey "cloud"
    ("/r/demo/profile:u/" +:+ demo_address "q").
Definition demo_snapshot : ValopersSnapshot := Build_ValopersSnapshot 7 1 [demo_profile].
Definition demo_store : store := Store [] None (Some "dev").

Lemma replace_valopers_refines_witness : exists d',
  replace_valopers_snapshot demo_snapshot "dev" demo_store
    = (Ok (Build_ValopersPersistenceResult "applied" 7 1 1), d') /\
  holds d' (Some (Current "dev" 7 1 [tuple_of demo_profile])).
Proof.
  assert (Hc : collect_valopers_snapshot 7 tt = (Ok demo_snapshot, tt)) by (vm_compute; reflexivity).
  assert (Hs : storable demo_snapshot "dev") by (split_and!; [done|done|done|by repeat constructor]).
  destruct (replace_valopers_refines 7 tt demo_snapshot tt "dev" demo_store None Hc Hs (conj eq_refl eq_refl)) as (d' & Hd & Hr).
  exists d'. split; [exact Hr|exact Hd].
Defined.

(** A description may contain a NUL character, which the parser accepts and
    PostgreSQL does not: the whole snapshot then cannot be stored. *)
Definition nul_description : string := "A" +:+ String zero "node.".
Lemma nul_description_blocks : exists p,
  parse_valoper_detail (demo_detail nul_description) = Ok p /\
  replace_valopers_snapshot (Build_ValopersSnapshot 7 1 [p]) "dev" demo_store = (Raise DataError, demo_store).
Proof. eexists. split; vm_compute; reflexivity. Qed.
