(* ===== verification/Json.v ===== *)
(** * json.loads

    The standard decoder on the bytes of a document, as
    indexer/transaction_decoder.py calls it: the encoding is detected and
    decoded with the surrogatepass handler, then one value is scanned and
    nothing but white space may follow.  A decoded text is kept in UTF-8, with
    three bytes for a surrogate that stands alone.  The interpreter's stack
    bounds the nesting ([scan_depth]); a document nested deeper raises
    RecursionError.  Errors of the reader are [json_error] and
    [unicode_error], which the program catches together; an integer longer
    than the digit limit is another ValueError, which it does not. *)
From Stdlib Require Import ZArith NArith Lia Ascii String SpecFloat.
From stdpp Require Import base gmap sets list strings sorting.
From S2P Require Import Prelude PyStr PyVal Codec.
Open Scope Z_scope.

Class JsonStack := { scan_depth : nat }.

Definition json_error : exc := ValueError "json.JSONDecodeError".
Definition unicode_error : exc := ValueError "UnicodeDecodeError".
(** [except (UnicodeDecodeError, json.JSONDecodeError)] *)
Definition is_json_error (e : exc) : bool := bool_decide (e = json_error) || bool_decide (e = unicode_error).

(** ** Text encodings *)
Definition utf8_char (c : Z) : list ascii :=
  map Z_byte
    (if c <? 128 then [c]
     else if c <? 2048 then [192 + c / 64; 128 + c mod 64]
     else if c <? 65536 then [224 + c / 4096; 128 + c / 64 mod 64; 128 + c mod 64]
     else [240 + c / 262144; 128 + c / 4096 mod 64; 128 + c / 64 mod 64; 128 + c mod 64]).
Definition is_high (c : Z) : bool := (55296 <=? c) && (c <=? 56319).
Definition is_low (c : Z) : bool := (56320 <=? c) && (c <=? 57343).
Definition join_surrogates (c d : Z) : Z := 65536 + (c - 55296) * 1024 + (d - 56320).

(** UTF-8 with surrogates allowed: an encoded surrogate counts as a character. *)
Fixpoint hide_surrogates (l : list ascii) : list ascii :=
  match l with
  | a :: (b :: ((c :: r) as l2)) as l1 =>
      if byte_in 237 237 a && byte_in 160 191 b && is_cont c then "?"%char :: hide_surrogates r
      else a :: hide_surrogates l1
  | _ => l
  end.
Definition decode_utf8 (l : bytes) : option (list ascii) := if utf8_valid (hide_surrogates l) then Some l else None.

(** Code units of [n] bytes; [None] when bytes are left over. *)
Definition unit_value (big : bool) (l : list ascii) : Z := word_of (if big then l else reverse l).
Fixpoint units (big : bool) (n fuel : nat) (l : list ascii) : option (list Z) :=
  match fuel, l with
  | _, [] => Some []
  | O, _ => None
  | S fuel, _ => if Nat.ltb (length l) n then None else cons (unit_value big (take n l)) <$> units big n fuel (drop n l)
  end.
Fixpoint join_pairs (l : list Z) : list Z :=
  match l with
  | c :: ((d :: r) as l1) => if is_high c && is_low d then join_surrogates c d :: join_pairs r else c :: join_pairs l1
  | _ => l
  end.
Definition encode (l : list Z) : list ascii := concat (map utf8_char l).
Definition decode_utf16 (big : bool) (l : bytes) : option (list ascii) :=
  (fun u => encode (join_pairs u)) <$> units big 2 (length l) l.
Definition decode_utf32 (big : bool) (l : bytes) : option (list ascii) :=
  u ← units big 4 (length l) l; if forallb (fun c => c <=? 1114111) u then Some (encode u) else None.

(** [json.detect_encoding] and the decoding it selects. *)
Definition decode_document (l : bytes) : option (list ascii) :=
  match map byte_Z l with
  | 0 :: 0 :: 254 :: 255 :: _ => decode_utf32 true (drop 4 l)
  | 255 :: 254 :: 0 :: 0 :: _ => decode_utf32 false (drop 4 l)
  | 254 :: 255 :: _ => decode_utf16 true (drop 2 l)
  | 255 :: 254 :: _ => decode_utf16 false (drop 2 l)
  | 239 :: 187 :: 191 :: _ => decode_utf8 (drop 3 l)
  | 0 :: b :: _ :: _ :: _ => if b =? 0 then decode_utf32 true l else decode_utf16 true l
  | _ :: 0 :: c :: d :: _ => if (c =? 0) && (d =? 0) then decode_utf32 false l else decode_utf16 false l
  | [0; _] => decode_utf16 true l
  | [_; 0] => decode_utf16 false l
  | _ => decode_utf8 l
  end.

(** ** Tokens *)
Definition is_byte (z : Z) (a : ascii) : bool := byte_Z a =? z.
Definition json_space (a : ascii) : bool := is_byte 32 a || is_byte 9 a || is_byte 10 a || is_byte 13 a.
Definition skip (l : list ascii) : list ascii := drop_while json_space l.
Definition is_digit (a : ascii) : bool := bool_decide (is_Some (ascii_digit a)).
Definition digits_of (l : list ascii) : Z := digits_value (map (fun a => default 0 (ascii_digit a)) l).
Fixpoint span_list (p : ascii -> bool) (l : list ascii) : list ascii * list ascii :=
  match l with
  | a :: r => if p a then let '(x, y) := span_list p r in (a :: x, y) else ([], l)
  | [] => ([], [])
  end.
Fixpoint strip_list (p l : list ascii) : option (list ascii) :=
  match p, l with
  | [], _ => Some l
  | a :: p, b :: l => if bool_decide (a = b) then strip_list p l else None
  | _ :: _, [] => None
  end.
Definition starts (p : string) (l : list ascii) : option (list ascii) := strip_list (list_of_string p) l.

Definition hex_word (a b c d : ascii) : option Z :=
  w ← hex_value a; x ← hex_value b; y ← hex_value c; z ← hex_value d; Some (((w * 16 + x) * 16 + y) * 16 + z).
Definition simple_escape (a : ascii) : option ascii :=
  let z := byte_Z a in
  if (z =? 34) || (z =? 92) || (z =? 47) then Some a
  else if z =? 98 then Some (Z_byte 8)
  else if z =? 102 then Some (Z_byte 12)
  else if z =? 110 then Some (Z_byte 10)
  else if z =? 114 then Some (Z_byte 13)
  else if z =? 116 then Some (Z_byte 9)
  else None.
Definition prepend (s : list ascii) (m : res (list ascii * list ascii)) : res (list ascii * list ascii) :=
  (fun p => (s ++ p.1, p.2)) <$> m.

(** The text after an opening quote, and what follows its closing quote. *)
Fixpoint scan_string (l : list ascii) : res (list ascii * list ascii) :=
  match l with
  | [] => Raise json_error
  | a :: r =>
      if is_byte 34 a then Ok ([], r)
      else if byte_Z a <? 32 then Raise json_error
      else if negb (is_byte 92 a) then prepend [a] (scan_string r)
      else match r with
           | [] => Raise json_error
           | e :: r1 =>
               if negb (is_byte 117 e) then
                 match simple_escape e with Some c => prepend [c] (scan_string r1) | None => Raise json_error end
               else match r1 with
                    | h1 :: h2 :: h3 :: h4 :: r2 =>
                        match hex_word h1 h2 h3 h4 with
                        | None => Raise json_error
                        | Some c =>
                            match r2 with
                            | b :: u :: k1 :: k2 :: k3 :: k4 :: r3 =>
                                if is_high c && is_byte 92 b && is_byte 117 u then
                                  match hex_word k1 k2 k3 k4 with
                                  | None => Raise json_error
                                  | Some d => if is_low d then prepend (utf8_char (join_surrogates c d)) (scan_string r3)
                                              else prepend (utf8_char c) (scan_string r2)
                                  end
                                else prepend (utf8_char c) (scan_string r2)
                            | _ => prepend (utf8_char c) (scan_string r2)
                            end
                        end
                    | _ => Raise json_error
                    end
           end
  end.

(** The float nearest to [m * 10 ^ e], whose numeral has [n] digits. *)
Definition decimal_float (negative : bool) (m : Z) (e : Z) (n : Z) : float :=
  match m with
  | Z.pos p =>
      if 310 <? e then S754_infinity negative
      else if e + n <? -330 then S754_zero negative
      else if 0 <=? e then binary_normalize 53 1024 ((if negative then - m else m) * 10 ^ e) 0 negative
      else f_div (S754_finite negative p 0) (S754_finite false (Z.to_pos (10 ^ (- e))) 0)
  | _ => S754_zero negative
  end.

(** The fraction and exponent of a number, each taken only when complete. *)
Definition scan_fraction (l : list ascii) : list ascii * list ascii :=
  match l with
  | a :: r => if is_byte 46 a then match span_list is_digit r with ([], _) => ([], l) | p => p end else ([], l)
  | [] => ([], [])
  end.
Definition scan_exponent (l : list ascii) : option Z * list ascii :=
  match l with
  | a :: r =>
      if is_byte 101 a || is_byte 69 a then
        let '(minus, r) := match r with
                           | b :: r' => if is_byte 45 b then (true, r') else if is_byte 43 b then (false, r') else (false, r)
                           | [] => (false, [])
                           end in
        match span_list is_digit r with
        | ([], _) => (None, l)
        | (ds, r') => (Some (if minus then - digits_of ds else digits_of ds), r')
        end
      else (None, l)
  | [] => (None, [])
  end.
Definition scan_number (l : list ascii) : res (val * list ascii) :=
  let '(negative, l) := match l with a :: r => if is_byte 45 a then (true, r) else (false, l) | [] => (false, l) end in
  let '(ds, r) := match l with
                  | a :: r => if is_byte 48 a then ([a], r) else span_list is_digit l
                  | [] => ([], [])
                  end in
  match ds with
  | [] => Raise json_error
  | _ :: _ =>
      let '(frac, r1) := scan_fraction r in
      let '(exponent, r2) := scan_exponent r1 in
      match frac, exponent with
      | [], None =>
          if MAX_STR_DIGITS <? Z.of_nat (length ds) then Raise bad_int
          else Ok (VInt (if negative then - digits_of ds else digits_of ds), r2)
      | _, _ =>
          let n := Z.of_nat (length ds + length frac) in
          Ok (VFloat (decimal_float negative (digits_of (ds ++ frac)) (default 0 exponent - Z.of_nat (length frac)) n), r2)
      end
  end.

(** ** Values *)
Section containers.
Variable value : list ascii -> res (val * list ascii).

(** The items of an array, from the first, through its closing bracket. *)
Fixpoint scan_items (fuel : nat) (l : list ascii) : res (list val * list ascii) :=
  match fuel with
  | O => Raise json_error
  | S fuel =>
      p ← value l;
      match skip p.2 with
      | a :: r => if is_byte 93 a then Ok ([p.1], r)
                  else if is_byte 44 a then q ← scan_items fuel (skip r); Ok (p.1 :: q.1, q.2)
                  else Raise json_error
      | [] => Raise json_error
      end
  end.
Definition scan_array (l : list ascii) : res (val * list ascii) :=
  match skip l with
  | a :: r => if is_byte 93 a then Ok (VList [], r)
              else p ← scan_items (S (length r)) (skip l); Ok (VList p.1, p.2)
  | [] => Raise json_error
  end.

(** The members of an object, from the first key, added to [acc]. *)
Fixpoint scan_members (fuel : nat) (l : list ascii) (acc : list (string * val)) : res (list (string * val) * list ascii) :=
  match fuel, l with
  | S fuel, a :: r =>
      if negb (is_byte 34 a) then Raise json_error else
      k ← scan_string r;
      match skip k.2 with
      | b :: r1 =>
          if negb (is_byte 58 b) then Raise json_error else
          p ← value (skip r1);
          let acc := dict_set (string_of_list k.1) p.1 acc in
          match skip p.2 with
          | c :: r2 => if is_byte 125 c then Ok (acc, r2)
                       else if is_byte 44 c then scan_members fuel (skip r2) acc
                       else Raise json_error
          | [] => Raise json_error
          end
      | [] => Raise json_error
      end
  | _, _ => Raise json_error
  end.
Definition scan_object (l : list ascii) : res (val * list ascii) :=
  match skip l with
  | a :: r => if is_byte 125 a then Ok (VDict [], r)
              else p ← scan_members (S (length r)) (skip l) []; Ok (VDict p.1, p.2)
  | [] => Raise json_error
  end.
End containers.

Definition constants : list (string * val) :=
  [("null", VNone); ("true", VBool true); ("false", VBool false); ("NaN", VFloat S754_nan);
   ("Infinity", VFloat (S754_infinity false)); ("-Infinity", VFloat (S754_infinity true))].
Fixpoint scan_constant (cs : list (string * val)) (l : list ascii) : option (val * list ascii) :=
  match cs with
  | [] => None
  | (name, v) :: cs => match starts name l with Some r => Some (v, r) | None => scan_constant cs l end
  end.

(** [scan_once], with room for [depth] nested containers; [nonfinite] is
    [parse_constant], which is called for NaN and the infinities. *)
Definition read_constant (nonfinite : val -> res val) (v : val) : res val :=
  match v with VFloat _ => nonfinite v | _ => Ok v end.
Fixpoint scan_once (nonfinite : val -> res val) (depth : nat) (l : list ascii) : res (val * list ascii) :=
  match l with
  | [] => Raise json_error
  | a :: r =>
      if is_byte 34 a then p ← scan_string r; Ok (VStr (string_of_list p.1), p.2)
      else if is_byte 123 a || is_byte 91 a then
        match depth with
        | O => Raise RecursionError
        | S depth => if is_byte 123 a then scan_object (scan_once nonfinite depth) r else scan_array (scan_once nonfinite depth) r
        end
      else match scan_constant constants l with
           | Some p => v ← read_constant nonfinite p.1; Ok (v, p.2)
           | None => scan_number l
           end
  end.

(** [json.loads(document, parse_constant=nonfinite)] of bytes *)
Definition json_loads_with `{JsonStack} (nonfinite : val -> res val) (document : bytes) : res val :=
  match decode_document document with
  | None => Raise unicode_error
  | Some l =>
      p ← scan_once nonfinite scan_depth (skip l);
      match skip p.2 with [] => Ok p.1 | _ => Raise json_error end
  end.
(** [json.loads(document)] *)
Definition json_loads `{JsonStack} (document : bytes) : res val := json_loads_with Ok document.

(** [json.loads(text, parse_constant=nonfinite)] of a str: no encoding to
    detect, and a byte-order mark is refused. *)
Definition json_loads_str `{JsonStack} (nonfinite : val -> res val) (text : string) : res val :=
  if startswith (string_of_list (utf8_char 65279)) text then Raise json_error else
  p ← scan_once nonfinite scan_depth (skip (list_of_string text));
  match skip p.2 with [] => Ok p.1 | _ => Raise json_error end.

(** ** The fuel of the loops is enough

    Every token consumes input, so an array or object of [n] characters has
    fewer than [n] items and the bound [S (length r)] of [scan_array] and
    [scan_object] is never reached: more fuel changes nothing. *)
Definition consumes {A} (m : res (A * list ascii)) (l : list ascii) : Prop :=
  forall p, m = Ok p -> (length p.2 < length l)%nat.
Lemma consumes_Raise {A} e l : consumes (A:=A) (Raise e) l.
Proof. done. Qed.
Lemma length_skip l : (length (skip l) <= length l)%nat.
Proof. apply sublist_length, drop_while_sublist. Qed.
Lemma span_list_length p l : (length (span_list p l).1 + length (span_list p l).2 = length l)%nat.
Proof. induction l as [|a l IH]; [done|]. simpl. destruct (p a); [|done]. destruct (span_list p l). simpl in *. lia. Qed.
Lemma strip_list_length p l r : strip_list p l = Some r -> length l = (length p + length r)%nat.
Proof.
  revert l. induction p as [|a p IH]; intros l; simpl; [by destruct l; intros [= <-]|].
  destruct l as [|b l]; [done|]. case_bool_decide; [|done]. intros Hs%IH. simpl. lia.
Qed.
Lemma scan_string_consumes n l : (length l <= n)%nat -> consumes (scan_string l) l.
Proof.
  revert l. induction n as [|n IH]; intros [|a r] Hn; try done; [simpl in Hn; lia|].
  assert (Hp : forall s m k, consumes m k -> (length k <= length r)%nat -> consumes (prepend s m) (a :: r)).
  { intros s m k Hm Hk p. unfold prepend. destruct m as [q|]; [|done]. intros [= <-]. specialize (Hm q eq_refl). simpl. lia. }
  cbn [scan_string].
  destruct (is_byte 34 a); [intros p [= <-]; simpl; lia|].
  destruct (_ <? 32); [done|]. simpl in Hn.
  destruct (negb (is_byte 92 a)); [apply (Hp _ _ r); [apply IH; lia|lia]|].
  destruct r as [|e r1]; [done|]. simpl in *.
  destruct (negb _).
  { destruct (simple_escape e); [|done]. apply (Hp _ _ r1); [apply IH; lia|lia]. }
  destruct r1 as [|h1 [|h2 [|h3 [|h4 r2]]]]; try done. destruct (hex_word _ _ _ _); [|done]. simpl in *.
  assert (H2 : forall s, consumes (prepend s (scan_string r2)) (a :: e :: h1 :: h2 :: h3 :: h4 :: r2)).
  { intros s. apply (Hp _ _ r2); [apply IH|]; simpl; lia. }
  destruct r2 as [|b [|u [|k1 [|k2 [|k3 [|k4 r3]]]]]]; try apply H2.
  destruct (is_high z && _ && _); [|apply H2]. destruct (hex_word _ _ _ _); [|done].
  destruct (is_low _); [|apply H2]. apply (Hp _ _ r3); [apply IH|]; simpl in *; lia.
Qed.
Lemma scan_fraction_length l : (length (scan_fraction l).2 <= length l)%nat.
Proof.
  destruct l as [|a r]; simpl; [done|]. destruct (is_byte 46 a); [|done].
  pose proof (span_list_length is_digit r) as Hl. destruct (span_list is_digit r) as [[|d ds] r']; simpl in *; lia.
Qed.
Lemma scan_exponent_length l : (length (scan_exponent l).2 <= length l)%nat.
Proof.
  destruct l as [|a r]; simpl; [done|]. destruct (_ || _); [|done].
  set (q := match r with [] => _ | b :: r' => _ end).
  assert (Hq : (length q.2 <= length r)%nat).
  { subst q. destruct r as [|b r']; [done|]. destruct (is_byte 45 b); [simpl; lia|]. destruct (is_byte 43 b); simpl; lia. }
  destruct q as [minus r0]. simpl in Hq. pose proof (span_list_length is_digit r0) as Hl.
  destruct (span_list is_digit r0) as [[|d ds] r']; simpl in *; lia.
Qed.
Lemma scan_number_consumes l : consumes (scan_number l) l.
Proof.
  unfold scan_number.
  set (p := match l with [] => _ | _ => _ end).
  assert (Hp : (length p.2 <= length l)%nat) by (subst p; destruct l as [|a r]; [done|]; case_match; simpl; lia).
  destruct p as [neg l0]. simpl in Hp.
  set (q := match l0 with [] => _ | _ => _ end).
  assert (Hq : (length q.1 + length q.2 = length l0)%nat).
  { subst q. destruct l0 as [|a r]; [done|]. case_match; [simpl; lia|]. apply span_list_length. }
  destruct q as [[|d ds] r]; [done|]. simpl in Hq.
  pose proof (scan_fraction_length r) as H1. destruct (scan_fraction r) as [frac r1].
  pose proof (scan_exponent_length r1) as H2. destruct (scan_exponent r1) as [ex r2]. simpl in *.
  intros p. repeat case_match; try done; intros [= <-]; simpl; lia.
Qed.
Lemma scan_constant_consumes cs l p : Forall (fun c : string * val => c.1 <> "") cs ->
  scan_constant cs l = Some p -> (length p.2 < length l)%nat.
Proof.
  induction 1 as [|[name v] cs Hn _ IH]; simpl; [done|].
  destruct (starts name l) as [r|] eqn:E; [|done]. intros [= <-]. apply strip_list_length in E. simpl in *.
  destruct name as [|c name]; [done|]. simpl in E. lia.
Qed.
Lemma constants_nonempty : Forall (fun c : string * val => c.1 <> "") constants.
Proof. by repeat constructor. Qed.

Section fuel.
Variable value : list ascii -> res (val * list ascii).
Hypothesis value_consumes : forall l, consumes (value l) l.

Lemma scan_items_consumes fuel l : consumes (scan_items value fuel l) l.
Proof.
  revert l. induction fuel as [|fuel IH]; intros l p; simpl; [done|].
  destruct (value l) as [q|] eqn:Hv; simpl; [|done]. pose proof (value_consumes l q Hv) as Hq.
  pose proof (length_skip q.2) as Hs. destruct (skip q.2) as [|a r]; [done|]. simpl in Hs.
  destruct (is_byte 93 a); [intros [= <-]; simpl; lia|]. destruct (is_byte 44 a); [|done].
  pose proof (length_skip r) as Hr.
  destruct (scan_items value fuel (skip r)) as [w|] eqn:Hi; simpl; [|done]. specialize (IH _ _ Hi).
  intros [= <-]. simpl. lia.
Qed.
Lemma scan_items_fuel fuel l : (length l < fuel)%nat -> scan_items value (S fuel) l = scan_items value fuel l.
Proof.
  revert l. induction fuel as [|fuel IH]; intros l Hl; [lia|].
  cbn [scan_items]. destruct (value l) as [q|] eqn:Hv; cbn [mbind res_bind]; [|done].
  pose proof (value_consumes l q Hv) as Hq. pose proof (length_skip q.2) as Hs.
  destruct (skip q.2) as [|a r]; [done|]. simpl in Hs. destruct (is_byte 93 a); [done|]. destruct (is_byte 44 a); [|done].
  pose proof (length_skip r). rewrite <-IH by lia. done.
Qed.
Lemma scan_members_consumes fuel l acc : consumes (scan_members value fuel l acc) l.
Proof.
  revert l acc. induction fuel as [|fuel IH]; intros l acc p; simpl; [done|].
  destruct l as [|a r]; [done|]. destruct (negb _); [done|].
  destruct (scan_string r) as [k|] eqn:Hk; cbn [mbind res_bind]; [|done].
  pose proof (scan_string_consumes _ r (le_n _) k Hk) as Hk'. pose proof (length_skip k.2) as Hs.
  destruct (skip k.2) as [|b r1]; [done|]. destruct (negb _); [done|]. simpl in Hs. pose proof (length_skip r1) as Hs1.
  destruct (value (skip r1)) as [q|] eqn:Hv; cbn [mbind res_bind]; [|done].
  pose proof (value_consumes _ q Hv) as Hq. pose proof (length_skip q.2) as Hs2.
  destruct (skip q.2) as [|c r2]; [done|]. simpl in Hs2. destruct (is_byte 125 c); [intros [= <-]; simpl; lia|].
  destruct (is_byte 44 c); [|done]. intros Hi%IH. pose proof (length_skip r2). simpl. lia.
Qed.
Lemma scan_members_fuel fuel l acc : (length l < fuel)%nat -> scan_members value (S fuel) l acc = scan_members value fuel l acc.
Proof.
  revert l acc. induction fuel as [|fuel IH]; intros l acc Hl; [lia|]. destruct l as [|a r]; [done|].
  cbn [scan_members]. destruct (negb _); [done|].
  destruct (scan_string r) as [k|] eqn:Hk; cbn [mbind res_bind]; [|done].
  pose proof (scan_string_consumes _ r (le_n _) k Hk) as Hk'. pose proof (length_skip k.2) as Hs.
  destruct (skip k.2) as [|b r1]; [done|]. destruct (negb _); [done|]. simpl in Hs, Hl. pose proof (length_skip r1) as Hs1.
  destruct (value (skip r1)) as [q|] eqn:Hv; cbn [mbind res_bind]; [|done].
  pose proof (value_consumes _ q Hv) as Hq. pose proof (length_skip q.2) as Hs2. cbn zeta.
  destruct (skip q.2) as [|c r2]; [done|]. simpl in Hs2. destruct (is_byte 125 c); [done|]. destruct (is_byte 44 c); [|done].
  pose proof (length_skip r2). by rewrite <-IH by lia.
Qed.
Lemma scan_array_consumes l : consumes (scan_array value l) l.
Proof.
  unfold scan_array. pose proof (length_skip l) as Hl. intros p. destruct (skip l) as [|a r]; [done|]. simpl in Hl.
  destruct (is_byte 93 a); [intros [= <-]; simpl; lia|].
  destruct (scan_items value _ _) as [q|] eqn:Hq; cbn [mbind res_bind]; [|done].
  apply scan_items_consumes in Hq. intros [= <-]. simpl in *. lia.
Qed.
Lemma scan_object_consumes l : consumes (scan_object value l) l.
Proof.
  unfold scan_object. pose proof (length_skip l) as Hl. intros p. destruct (skip l) as [|a r]; [done|]. simpl in Hl.
  destruct (is_byte 125 a); [intros [= <-]; simpl; lia|].
  destruct (scan_members value _ _ _) as [q|] eqn:Hq; cbn [mbind res_bind]; [|done].
  apply scan_members_consumes in Hq. intros [= <-]. simpl in *. lia.
Qed.
End fuel.

Lemma scan_constant_consumed nonfinite l q :
  scan_constant constants l = Some q -> consumes (v ← read_constant nonfinite q.1; Ok (v, q.2)) l.
Proof.
  intros Hc p Hp. inv_res. eapply (scan_constant_consumes constants l q); [apply constants_nonempty|done].
Qed.
Lemma scan_once_consumes nonfinite depth l : consumes (scan_once nonfinite depth l) l.
Proof.
  revert l. induction depth as [|depth IH]; intros [|a r] p; try done; cbn [scan_once];
    (destruct (is_byte 34 a);
     [destruct (scan_string r) as [q|] eqn:Hq; cbn [mbind res_bind]; [|done];
      pose proof (scan_string_consumes _ r (le_n _) q Hq); intros [= <-]; simpl; lia|]).
  - destruct (_ || _); [done|]. destruct (scan_constant constants _) eqn:Hc; [by apply scan_constant_consumed|apply scan_number_consumes].
  - destruct (is_byte 123 a) eqn:H1; cbn [orb].
    { intros Hp%scan_object_consumes; [simpl; lia|done]. }
    destruct (is_byte 91 a).
    { intros Hp%scan_array_consumes; [simpl; lia|done]. }
    destruct (scan_constant constants _) eqn:Hc; [by apply scan_constant_consumed|apply scan_number_consumes].
Qed.

(** ** Digits *)
Lemma digits_value_bound ds : Forall (fun d => 0 <= d < 10) ds -> forall acc, 0 <= acc ->
  0 <= foldl (fun acc d => acc * 10 + d) acc ds < (acc + 1) * 10 ^ Z.of_nat (length ds).
Proof.
  induction 1 as [|d ds Hd _ IH]; intros acc Hacc; cbn [foldl length]; [lia|].
  specialize (IH (acc * 10 + d) ltac:(lia)). rewrite Nat2Z.inj_succ, Z.pow_succ_r by lia.
  pose proof (Z.pow_pos_nonneg 10 (Z.of_nat (length ds))). nia.
Qed.
Lemma digits_of_range l : 0 <= digits_of l < 10 ^ Z.of_nat (length l).
Proof.
  unfold digits_of, digits_value. set (ds := map _ _).
  assert (Hds : Forall (fun d => 0 <= d < 10) ds).
  { apply Forall_forall. intros d (a & -> & Ha)%list_elem_of_fmap. unfold ascii_digit. case_match eqn:E; simpl; lia. }
  pose proof (digits_value_bound ds Hds 0 ltac:(lia)). subst ds. rewrite length_map in *. lia.
Qed.
Lemma ascii_digit_char d : 0 <= d < 10 -> ascii_digit (digit_char d) = Some d.
Proof.
  intros Hd. unfold ascii_digit, digit_char. rewrite byte_Z_byte by lia.
  rewrite (proj2 (Z.leb_le 48 (48 + d))), (proj2 (Z.leb_le (48 + d) 57)) by lia. simpl. f_equal. lia.
Qed.
Lemma digits_of_digits ds : Forall (fun d => 0 <= d < 10) ds -> digits_of (map digit_char ds) = digits_value ds.
Proof.
  intros Hds. unfold digits_of. f_equal. rewrite map_map. induction Hds as [|d ds Hd _ IH]; [done|].
  simpl. rewrite ascii_digit_char by done. by f_equal.
Qed.
Lemma span_digits ds r : Forall (fun d => 0 <= d < 10) ds -> match r with a :: _ => is_digit a = false | [] => True end ->
  span_list is_digit (map digit_char ds ++ r) = (map digit_char ds, r).
Proof.
  intros Hds Hr. induction Hds as [|d ds Hd _ IH]; simpl.
  - destruct r as [|a r]; [done|]. simpl. by rewrite Hr.
  - unfold is_digit at 1. rewrite ascii_digit_char by done. rewrite bool_decide_eq_true_2 by done. by rewrite IH.
Qed.
Lemma starts_app p r : starts p (list_of_string p ++ r) = Some r.
Proof.
  unfold starts. generalize (list_of_string p). intros l. induction l as [|a l IH]; [done|]. simpl.
  by rewrite bool_decide_eq_true_2.
Qed.

(** ** What json.loads raises: an error of the document, or the nesting *)
Definition is_json_failure (e : exc) : bool := isinstance_ValueError e || match e with RecursionError => true | _ => false end.
#[local] Abbreviation fails m := (raises is_json_failure m).
Lemma prepend_fails s m : fails m -> fails (prepend s m).
Proof. intros Hm. unfold prepend. destruct m; [done|exact Hm]. Qed.
Lemma scan_string_fails l : fails (scan_string l).
Proof.
  assert (forall n l, (length l <= n)%nat -> fails (scan_string l)) as Hn; [|by apply (Hn (length l))].
  clear l. induction n as [|n IH]; intros [|a r] Hl; try done; [cbn in Hl; lia|]. cbn in Hl.
  cbn [scan_string]. destruct (is_byte 34 a); [done|]. destruct (_ <? 32); [done|].
  destruct (negb (is_byte 92 a)); [apply prepend_fails, IH; lia|]. destruct r as [|e r1]; [done|]. cbn in Hl.
  destruct (negb (is_byte 117 e)); [destruct (simple_escape e); [apply prepend_fails, IH; lia|done]|].
  destruct r1 as [|h1 [|h2 [|h3 [|h4 r2]]]]; try done. destruct (hex_word _ _ _ _) as [c|]; [|done]. cbn in Hl.
  assert (fails (prepend (utf8_char c) (scan_string r2))) as H2 by (apply prepend_fails, IH; lia).
  destruct r2 as [|b [|u [|k1 [|k2 [|k3 [|k4 r3]]]]]]; try done.
  destruct (_ && _ && _); [|done]. destruct (hex_word _ _ _ _); [|done]. destruct (is_low _); [|done].
  apply prepend_fails, IH. cbn in Hl. lia.
Qed.
Lemma scan_number_fails l : fails (scan_number l).
Proof.
  unfold scan_number. destruct (match l with [] => _ | _ => _ end) as [negative l']. destruct (match l' with [] => _ | _ => _ end) as [[|d ds] r]; [done|].
  destruct (scan_fraction r) as [frac r1]. destruct (scan_exponent r1) as [ex r2].
  destruct frac, ex; try done. by destruct (_ <? _).
Qed.
Section containers_fail.
Variable value : list ascii -> res (val * list ascii).
Hypothesis value_fails : forall l, fails (value l).
Lemma scan_items_fails fuel l : fails (scan_items value fuel l).
Proof.
  revert l. induction fuel as [|fuel IH]; intros l; [done|]. cbn [scan_items]. apply raises_bind; [apply value_fails|]. intros p _.
  destruct (skip p.2) as [|a r]; [done|]. destruct (is_byte 93 a); [done|]. destruct (is_byte 44 a); [|done].
  by apply raises_bind.
Qed.
Lemma scan_members_fails fuel l acc : fails (scan_members value fuel l acc).
Proof.
  revert l acc. induction fuel as [|fuel IH]; intros [|a r] acc; try done. cbn [scan_members]. destruct (negb _); [done|].
  apply raises_bind; [apply scan_string_fails|]. intros k _. destruct (skip k.2) as [|b r1]; [done|]. destruct (negb _); [done|].
  apply raises_bind; [apply value_fails|]. intros p _. destruct (skip p.2) as [|c r2]; [done|].
  destruct (is_byte 125 c); [done|]. by destruct (is_byte 44 c).
Qed.
End containers_fail.
Lemma scan_once_fails nonfinite depth l : (forall v, fails (nonfinite v)) -> fails (scan_once nonfinite depth l).
Proof.
  intros Hn. revert l. induction depth as [|depth IH]; intros [|a r]; try done; cbn [scan_once];
    (destruct (is_byte 34 a); [apply raises_bind; [apply scan_string_fails|done]|]);
    (destruct (is_byte 123 a || is_byte 91 a); [try done|
       destruct (scan_constant _ _) as [p|]; [|apply scan_number_fails];
       apply raises_bind; [unfold read_constant; destruct p.1; try done; apply Hn|done]]).
  destruct (is_byte 123 a); [unfold scan_object|unfold scan_array];
    (destruct (skip r) as [|b r1]; [done|]; destruct (is_byte _ b); [done|]; apply raises_bind; [|done]).
  - by apply scan_members_fails.
  - by apply scan_items_fails.
Qed.
Lemma json_loads_with_fails `{JsonStack} nonfinite document : (forall v, fails (nonfinite v)) -> fails (json_loads_with nonfinite document).
Proof.
  intros Hn. unfold json_loads_with. destruct (decode_document document); [|done].
  apply raises_bind; [by apply scan_once_fails|]. intros p _. by destruct (skip p.2).
Qed.
Lemma json_loads_str_fails `{JsonStack} nonfinite text : (forall v, fails (nonfinite v)) -> fails (json_loads_str nonfinite text).
Proof.
  intros Hn. unfold json_loads_str. destruct (startswith _ _); [done|]. apply raises_bind; [by apply scan_once_fails|].
  intros p _. by destruct (skip p.2).
Qed.
