(* ===== verification/Decoder.v ===== *)
(** * indexer/transaction_decoder.py: the supervised transaction decoder

    [JsonlTransactionDecoder] keeps a child process that decodes one
    transaction per line.  The operating system (the clock, the process and
    its pipes) is the interface [Supervisor]; the object's mutable attributes
    and the outside world are the [state] every method threads.  A method
    returns a result or the exception it raises; the two loops over the pipes
    take fuel and [None] means it ran out, which [decode_typed] excludes.
    Logging is not modelled. *)
From Stdlib Require Import ZArith NArith Lia Ascii String SpecFloat.
From stdpp Require Import base gmap sets list strings sorting.
From S2P Require Import Prelude PyStr PyVal Codec Json Summary Parsers.
Open Scope Z_scope.

Definition MAX_REQUEST_BYTES : Z := 8 * 1024 * 1024.
Definition MAX_DECODED_BYTES : Z := 4 * 1024 * 1024.
Definition MAX_RESPONSE_BYTES : Z := 32 * 1024.
Definition SAFE_ERROR_CODES : list val :=
  map VStr ["invalid_base64"; "input_too_large"; "amino_decode_failed"; "invalid_request"; "missing_tx_base64"].
Definition SAFE_PATH : string := "/usr/local/sbin:/usr/local/bin:/usr/sbin:/usr/bin:/sbin:/bin".

(** ** The operating system *)
Inductive pipe := stdin | stdout | stderr.
Class Supervisor (W P : Type) := {
  monotonic : W -> res float * W;
  environ_path : W -> option string;
  popen : list string -> list (string * string) -> W -> res P * W;
  (* [process.stdin is not None] *)
  has_pipe : P -> pipe -> bool;
  set_nonblocking : P -> pipe -> W -> res unit * W;
  poll : P -> W -> res (option Z) * W;
  (* a selector with the one descriptor registered, until the timeout *)
  select : P -> pipe -> float -> W -> res bool * W;
  os_write : P -> bytes -> W -> res Z * W;
  os_read : P -> Z -> W -> res bytes * W;
  pipe_close : P -> pipe -> W -> res unit * W;
  terminate : P -> W -> res unit * W;
  kill : P -> W -> res unit * W;
  wait_exit : P -> float -> W -> res unit * W
}.

(** [class TransactionDecoderConfig] of indexer/config.py *)
Record TransactionDecoderConfig := {
  dc_enabled : bool;
  dc_executable_path : string;
  dc_expected_chain_family : string;
  dc_timeout_seconds : float;
  dc_restart_backoff_seconds : float
}.

(** [_child_environment()], given [os.environ.get("PATH")]. *)
Definition child_environment (path : option string) : list (string * string) :=
  let path := default SAFE_PATH path in
  let path := if String.eqb path "" || (4096 <? py_len path) || negb (str_forallb (fun a => negb (byte_Z a =? 0)) path)
              then SAFE_PATH else path in
  [("PATH", path); ("LANG", "C.UTF-8"); ("LC_ALL", "C.UTF-8")].

(** ** The response *)
Section response.
Context `{PyRuntime} `{JsonStack}.

Definition failure (reason : string) : exc := DecoderFailure reason "protocol_failure".
(** [_validate_response]: no summary, or the normalized one. *)
Definition validate_response (family : string) (line : bytes) (request_id : string) : res (option summary) :=
  response ← except_as (json_loads line) is_json_error (failure "malformed_json");
  match response with
  | VDict d =>
      _ ← require (py_eq (dget d "protocol_version") (VInt 1)) (failure "protocol_version");
      _ ← require (py_eq (dget d "id") (VStr request_id)) (failure "response_id_mismatch");
      match dget d "ok" with
      | VBool false =>
          let code := dget d "error_code" in
          safe ← py_in_set code SAFE_ERROR_CODES;
          if safe : bool then Ok None
          else Raise (failure (if py_eq code (VStr "internal_error") then "internal_error" else "unexpected_error_code"))
      | VBool true =>
          match dict_get "summary" d with
          | None => Raise (failure "missing_summary")
          | Some candidate =>
              s ← normalize_record candidate "unparsed";
              size ← summary_size_bytes (summary_val s);
              if negb (SCHEMA_VERSION =? 1) || negb (String.eqb (sm_chain_family s) family)
                 || negb (in_strs (sm_parse_status s) ["parsed"; "unsupported"]) || (MAX_SUMMARY_BYTES <? size)
              then Raise (failure "invalid_summary") else Ok (Some s)
          end
      | _ => Raise (failure "missing_ok")
      end
  | _ => Raise (failure "response_not_object")
  end.
End response.

(** ** The object *)
Section decoder.
Context `{PyRuntime} `{JsonStack} {W P : Type} `{Supervisor W P}.

Record JsonlTransactionDecoder := Jsonl {
  command : list string;
  expected_chain_family : string;
  timeout_seconds : float;
  restart_backoff_seconds : float;
  process : option P;
  response_buffer : bytes;
  request_number : Z;
  retry_at : float
}.
(** The object [__init__] builds. *)
Definition new_decoder (command : list string) (family : string) (timeout backoff : float) : JsonlTransactionDecoder :=
  Jsonl command family timeout backoff None [] 0 f_zero.
Definition build_transaction_decoder (config : TransactionDecoderConfig) : option JsonlTransactionDecoder :=
  if dc_enabled config
  then Some (new_decoder [dc_executable_path config] (dc_expected_chain_family config)
               (dc_timeout_seconds config) (dc_restart_backoff_seconds config))
  else None.

Definition state : Type := JsonlTransactionDecoder * W.
Definition step (A : Type) : Type := state -> option (res A * state).
Definition ret {A} (m : res A) : step A := fun s => Some (m, s).
Definition bind {A B} (m : step A) (f : A -> step B) : step B := fun s =>
  match m s with
  | Some (Ok a, s) => f a s
  | Some (Raise e, s) => Some (Raise e, s)
  | None => None
  end.
(** [try: m except Exception as e: h(e)] *)
Definition handle {A} (m : step A) (h : exc -> step A) : step A := fun s =>
  match m s with
  | Some (Ok a, s) => Some (Ok a, s)
  | Some (Raise e, s) => h e s
  | None => None
  end.
Definition get {A} (f : JsonlTransactionDecoder -> A) : step A := fun s => Some (Ok (f s.1), s).
Definition modify (f : JsonlTransactionDecoder -> JsonlTransactionDecoder) : step unit := fun s => Some (Ok tt, (f s.1, s.2)).
Definition call {A} (op : W -> res A * W) : step A := fun s => let '(r, w) := op s.2 in Some (r, (s.1, w)).
#[local] Notation "'let*' p := m 'in' k" := (bind m (fun p => k))
  (at level 10, p strict pattern, m at level 200, k at level 200).

Definition set_process (p : option P) (d : JsonlTransactionDecoder) : JsonlTransactionDecoder :=
  Jsonl (command d) (expected_chain_family d) (timeout_seconds d) (restart_backoff_seconds d) p (response_buffer d)
    (request_number d) (retry_at d).
Definition set_buffer (b : bytes) (d : JsonlTransactionDecoder) : JsonlTransactionDecoder :=
  Jsonl (command d) (expected_chain_family d) (timeout_seconds d) (restart_backoff_seconds d) (process d) b
    (request_number d) (retry_at d).
Definition next_request (d : JsonlTransactionDecoder) : JsonlTransactionDecoder :=
  Jsonl (command d) (expected_chain_family d) (timeout_seconds d) (restart_backoff_seconds d) (process d) (response_buffer d)
    (request_number d + 1) (retry_at d).
Definition set_retry_at (t : float) (d : JsonlTransactionDecoder) : JsonlTransactionDecoder :=
  Jsonl (command d) (expected_chain_family d) (timeout_seconds d) (restart_backoff_seconds d) (process d) (response_buffer d)
    (request_number d) t.

(** ** The process and its pipes *)
Definition unavailable (reason : string) : exc := DecoderFailure reason "unavailable".
Definition ensure_process : step P :=
  let* current := get process in
  match current with
  | Some p =>
      let* status := call (poll p) in
      match status with Some _ => ret (Raise (unavailable "process_exit")) | None => ret (Ok p) end
  | None =>
      let* command := get command in
      let* p := handle (fun s => call (popen command (child_environment (environ_path s.2))) s)
                  (fun _ => ret (Raise (unavailable "start_failed"))) in
      let* _ := modify (set_process (Some p)) in
      if negb (has_pipe p stdin) || negb (has_pipe p stdout) then ret (Raise (unavailable "missing_pipe")) else
      let* _ := call (set_nonblocking p stdin) in
      let* _ := call (set_nonblocking p stdout) in
      ret (Ok p)
  end.

Definition wait (p : P) (fd : pipe) (deadline : float) : step unit :=
  let* now := call monotonic in
  let remaining := f_sub deadline now in
  if f_leb remaining f_zero then ret (Raise (unavailable "timeout")) else
  let* ready := call (select p fd remaining) in
  ret (if ready then Ok tt else Raise (unavailable "timeout")).

(** What a system call on a non-blocking pipe gives: [None] to try again, and
    any other OSError is the failure [reason]. *)
Definition nonblocking {A} (op : W -> res A * W) (reason : string) : step (option A) :=
  handle (let* a := call op in ret (Ok (Some a)))
    (fun e => match e with
              | BlockingIOError => ret (Ok None)
              | _ => ret (Raise (if isinstance_OSError e then unavailable reason else e))
              end).

(** [_write], from an offset: [data] is what is left of the request. *)
Fixpoint write (fuel : nat) (p : P) (data : bytes) (deadline : float) : step unit :=
  match data, fuel with
  | [], _ => ret (Ok tt)
  | _, O => fun _ => None
  | _, S fuel =>
      let* _ := wait p stdin deadline in
      let* written := nonblocking (os_write p data) "broken_pipe" in
      match written with
      | None => write fuel p data deadline
      | Some n => if n <=? 0 then ret (Raise (unavailable "broken_pipe"))
                  else write fuel p (drop (Z.to_nat n) data) deadline
      end
  end.

(** [bytearray.find] of a newline. *)
Fixpoint find_newline (l : bytes) : option nat :=
  match l with
  | [] => None
  | a :: r => if is_byte 10 a then Some 0%nat else S <$> find_newline r
  end.
Fixpoint read_line (fuel : nat) (p : P) (deadline : float) : step bytes :=
  let* buffer := get response_buffer in
  match find_newline buffer with
  | Some newline =>
      if MAX_RESPONSE_BYTES <? Z.of_nat newline then ret (Raise (failure "response_too_large")) else
      let* _ := modify (set_buffer (drop (S newline) buffer)) in
      ret (Ok (take newline buffer))
  | None =>
      if MAX_RESPONSE_BYTES <? Z.of_nat (length buffer) then ret (Raise (failure "response_too_large")) else
      match fuel with
      | O => fun _ => None
      | S fuel =>
          let* _ := wait p stdout deadline in
          let* chunk := nonblocking (os_read p 8192) "read_error" in
          match chunk with
          | None => read_line fuel p deadline
          | Some [] => ret (Raise (unavailable "eof"))
          | Some chunk => let* _ := modify (set_buffer (buffer ++ chunk)) in read_line fuel p deadline
          end
      end
  end.

(** [try: m except Exception: pass] *)
Definition best_effort (m : step unit) : step unit := handle m (fun _ => ret (Ok tt)).
(** [process.poll() is None], taken as true when it raises. *)
Definition alive (p : P) : step bool :=
  handle (let* status := call (poll p) in ret (Ok (bool_decide (status = None)))) (fun _ => ret (Ok true)).
Definition quarter : float := f_div (f_of_Z 1) (f_of_Z 4).
Definition stop_with (p : P) (signal : P -> W -> res unit * W) : step unit :=
  let* a := alive p in
  if a : bool then
    let* _ := best_effort (call (signal p)) in best_effort (call (wait_exit p quarter))
  else ret (Ok tt).
Definition close_pipe (p : P) (fd : pipe) : step unit :=
  if has_pipe p fd then best_effort (call (pipe_close p fd)) else ret (Ok tt).
Definition close : step unit :=
  let* current := get process in
  let* _ := modify (set_process None) in
  let* _ := modify (set_buffer []) in
  match current with
  | None => ret (Ok tt)
  | Some p =>
      let* _ := close_pipe p stdin in
      let* _ := stop_with p terminate in
      let* _ := stop_with p kill in
      let* _ := close_pipe p stdin in
      let* _ := close_pipe p stdout in
      close_pipe p stderr
  end.

(** [_fail], without the log message that holds the reason. *)
Definition fail : step unit :=
  let* _ := close in
  let* now := call monotonic in
  let* backoff := get restart_backoff_seconds in
  modify (set_retry_at (f_add now backoff)).

(** ** One request *)
Definition request_id (d : JsonlTransactionDecoder) : string := "tx-" +:+ str_of_Z (request_number d + 1).
Definition request_opts : json_opts := Build_json_opts false true "," ":" false.
(** The request line; [None] when it cannot be encoded. *)
Definition encode_request (id : string) (tx_base64 : string) : option bytes :=
  match json_dumps request_opts (VDict [("id", VStr id); ("tx_base64", VStr tx_base64)]) with
  | Ok text => if utf8_valid (list_of_string text) then Some (list_of_string text ++ [Z_byte 10]) else None
  | Raise _ => None
  end.

Definition exchange (fuel : nat) (request : bytes) (id : string) : step (option summary) :=
  let* p := ensure_process in
  let* now := call monotonic in
  let* timeout := get timeout_seconds in
  let deadline := f_add now timeout in
  let* _ := write fuel p request deadline in
  let* line := read_line fuel p deadline in
  let* family := get expected_chain_family in
  ret (validate_response family line id).

Definition decode_record (fuel : nat) (tx_base64 decoded_byte_length : val) : step (option summary) :=
  match tx_base64, decoded_byte_length with
  | VStr tx, VInt len =>
      if negb ((0 <=? len) && (len <=? MAX_DECODED_BYTES)) then ret (Ok None) else
      let* waiting := handle (let* now := call monotonic in let* at_ := get retry_at in ret (Ok (f_ltb now at_)))
                        (fun _ => ret (Ok true)) in
      if waiting : bool then ret (Ok None) else
      if MAX_REQUEST_BYTES <? py_len tx then ret (Ok None) else
      let* id := get request_id in
      match encode_request id tx with
      | None => ret (Ok None)
      | Some request =>
          if MAX_REQUEST_BYTES <? Z.of_nat (length request) then ret (Ok None) else
          let* _ := modify next_request in
          handle (exchange fuel request id) (fun _ => let* _ := fail in ret (Ok None))
      end
  | _, _ => ret (Ok None)
  end.
(** [decode(tx_base64, decoded_byte_length)]: the summary as a dict. *)
Definition decode (fuel : nat) (tx_base64 decoded_byte_length : val) : step (option val) :=
  let* s := decode_record fuel tx_base64 decoded_byte_length in ret (Ok (summary_val <$> s)).
End decoder.
