(* ===== verification/DecoderSafety.v ===== *)
(** * The supervised decoder: termination, type and resynchronisation

    [runs m s Q] says that the step [m] ends in state [s] and its result and
    final state satisfy [Q].  [SupervisorLaws] is what termination needs of
    the operating system: a ready descriptor turns out not to be ready
    (BlockingIOError) only finitely often. *)
From Stdlib Require Import ZArith NArith Lia Ascii String SpecFloat.
From stdpp Require Import base gmap sets list strings sorting.
From S2P Require Import Prelude PyStr PyVal Codec Json Summary Parsers Decoder.
Open Scope Z_scope.

Class SupervisorLaws (W P : Type) `{Supervisor W P} := {
  spurious : W -> nat;
  monotonic_calm w : (spurious (monotonic w).2 <= spurious w)%nat;
  poll_calm p w : (spurious (poll p w).2 <= spurious w)%nat;
  popen_calm c e w : (spurious (popen c e w).2 <= spurious w)%nat;
  set_nonblocking_calm p fd w : (spurious (set_nonblocking p fd w).2 <= spurious w)%nat;
  select_calm p fd t w : (spurious (select p fd t w).2 <= spurious w)%nat;
  write_calm p data w : (spurious (os_write p data w).2 <= spurious w)%nat;
  read_calm p n w : (spurious (os_read p n w).2 <= spurious w)%nat;
  write_blocked p data w w' : os_write p data w = (Raise BlockingIOError, w') -> (spurious w' < spurious w)%nat;
  read_blocked p n w w' : os_read p n w = (Raise BlockingIOError, w') -> (spurious w' < spurious w)%nat
}.

Section safety.
Context `{PyRuntime} `{JsonStack} {W P : Type} `{SupervisorLaws W P}.
Local Abbreviation object := (JsonlTransactionDecoder (P:=P)).
Local Abbreviation state := (Decoder.state (W:=W) (P:=P)).
Implicit Types s : state.
#[local] Arguments Z.to_nat : simpl never.
#[local] Opaque MAX_RESPONSE_BYTES.

(** ** Running a step *)
Definition runs {A} (m : step (W:=W) (P:=P) A) (s : state) (Q : res A -> state -> Prop) : Prop :=
  match m s with Some (r, s') => Q r s' | None => False end.
Lemma runs_mono {A} (m : step A) s (Q Q' : res A -> state -> Prop) :
  runs m s Q -> (forall r s', Q r s' -> Q' r s') -> runs m s Q'.
Proof. unfold runs. destruct (m s) as [[r s']|]; auto. Qed.
Lemma runs_ret {A} (r : res A) s (Q : res A -> state -> Prop) : Q r s -> runs (ret r) s Q.
Proof. done. Qed.
Lemma runs_bind {A B} (m : step A) (f : A -> step B) s Q :
  runs m s (fun r s' => match r with Ok a => runs (f a) s' Q | Raise e => Q (Raise e) s' end) -> runs (bind m f) s Q.
Proof. unfold runs, bind. by destruct (m s) as [[[a|e] s']|]. Qed.
Lemma runs_handle {A} (m : step A) h s Q :
  runs m s (fun r s' => match r with Ok a => Q (Ok a) s' | Raise e => runs (h e) s' Q end) -> runs (handle m h) s Q.
Proof. unfold runs, handle. by destruct (m s) as [[[a|e] s']|]. Qed.
Lemma runs_get {A} (f : object -> A) s (Q : res A -> state -> Prop) : Q (Ok (f s.1)) s -> runs (get f) s Q.
Proof. done. Qed.
Lemma runs_modify f s (Q : res unit -> state -> Prop) : Q (Ok tt) (f s.1, s.2) -> runs (modify f) s Q.
Proof. done. Qed.
Lemma runs_call {A} (op : W -> res A * W) s (Q : res A -> state -> Prop) :
  Q (op s.2).1 (s.1, (op s.2).2) -> runs (call op) s Q.
Proof. unfold runs, call. by destruct (op s.2). Qed.
(** A system call whose result does not matter. *)
Lemma runs_any {A} (op : W -> res A * W) s (Q : res A -> state -> Prop) :
  (forall r w, Q r (s.1, w)) -> runs (call op) s Q.
Proof. intros HQ. apply runs_call, HQ. Qed.
Lemma runs_calm {A} (op : W -> res A * W) s (Q : res A -> state -> Prop) :
  (spurious (op s.2).2 <= spurious s.2)%nat ->
  (forall r w, (spurious w <= spurious s.2)%nat -> Q r (s.1, w)) -> runs (call op) s Q.
Proof. intros Hc HQ. by apply runs_call, HQ. Qed.

(** ** The pipes *)
Lemma runs_wait p fd deadline s Q :
  (forall r w, (spurious w <= spurious s.2)%nat -> Q r (s.1, w)) -> runs (wait p fd deadline) s Q.
Proof.
  intros HQ. apply runs_bind, runs_calm; [apply monotonic_calm|]. intros [now|e] w Hw; [|by apply HQ].
  cbn zeta. destruct (f_leb _ _); [by apply runs_ret, HQ|].
  apply runs_bind, runs_calm; [apply select_calm|]. intros [[]|e] w' Hw'; simpl in Hw'; apply HQ; lia.
Qed.
Lemma runs_nonblocking {A} (op : W -> res A * W) reason s Q :
  (spurious (op s.2).2 <= spurious s.2)%nat ->
  (forall w, op s.2 = (Raise BlockingIOError, w) -> (spurious w < spurious s.2)%nat) ->
  (forall r w, (spurious w <= spurious s.2)%nat -> (r = Ok None -> spurious w < spurious s.2)%nat ->
     (forall e, r = Raise e -> e <> BlockingIOError) -> Q r (s.1, w)) ->
  runs (nonblocking op reason) s Q.
Proof.
  intros Hc Hb HQ. apply runs_handle, runs_bind, runs_call. destruct (op s.2) as [[a|e] w] eqn:Ho; simpl in *.
  - apply runs_ret, HQ; try done.
  - destruct e; apply runs_ret, HQ; intros; simplify_eq; try done; by apply Hb.
Qed.
Lemma runs_write fuel p data deadline s Q :
  (length data + spurious s.2 <= fuel)%nat ->
  (forall r w, (spurious w <= spurious s.2)%nat -> Q r (s.1, w)) -> runs (write fuel p data deadline) s Q.
Proof.
  revert data s. induction fuel as [|fuel IH]; intros [|a data] s Hf HQ; cbn [write];
    try (destruct s; by apply HQ); [simpl in Hf; lia|].
  apply runs_bind, runs_wait. intros [[]|e] w Hw; [|by apply HQ].
  apply runs_bind, runs_nonblocking; [apply write_calm|intros w' Hw'; by eapply write_blocked|].
  intros [[n|]|e] w' Hle Hlt _; simpl in *; [|apply IH|by apply HQ; lia].
  - destruct (Z.leb_spec n 0); [by apply runs_ret, HQ; lia|]. apply IH.
    + rewrite length_drop. simpl in *. lia.
    + intros r w'' Hw''. apply HQ. simpl in *. lia.
  - specialize (Hlt eq_refl). simpl. lia.
  - intros r w'' Hw''. apply HQ. simpl in *. lia.
Qed.

(** A complete response line. *)
Definition response_line (line : bytes) : Prop :=
  Forall (fun a => is_byte 10 a = false) line /\ Z.of_nat (length line) <= MAX_RESPONSE_BYTES.
Lemma find_newline_take l n : find_newline l = Some n ->
  Forall (fun a => is_byte 10 a = false) (take n l) /\ length (take n l) = n.
Proof.
  revert n. induction l as [|a l IH]; intros n; simpl; [done|].
  destruct (is_byte 10 a) eqn:Ha; [by intros [= <-]|].
  destruct (find_newline l) as [m|]; [|done]. intros [= <-]. destruct (IH m eq_refl) as [Hl1 Hl2].
  simpl. split; [by constructor|lia].
Qed.
Lemma runs_read_line fuel p deadline s Q :
  (spurious s.2 + (Z.to_nat MAX_RESPONSE_BYTES + 1 - length (response_buffer s.1)) <= fuel)%nat ->
  (forall r b w, (forall line, r = Ok line -> response_line line) -> Q r (set_buffer b s.1, w)) ->
  runs (read_line fuel p deadline) s Q.
Proof.
  intros Hf HQ. assert (HQ' : forall e d w b, d = set_buffer b s.1 -> Q (Raise e) (d, w)) by (intros; subst; by apply HQ).
  assert (Hself : s.1 = set_buffer (response_buffer s.1) s.1) by (by destruct s as [[] ?]).
  revert s Hf HQ HQ' Hself. induction fuel as [|fuel IH]; intros s Hf HQ HQ' Hself; cbn [read_line]; apply runs_bind, runs_get.
  all: destruct (find_newline (response_buffer s.1)) as [n|] eqn:Hn.
  1,3: destruct (Z.ltb_spec MAX_RESPONSE_BYTES (Z.of_nat n)); [destruct s; eapply HQ'; exact Hself|];
    apply runs_bind, runs_modify, runs_ret, HQ; intros line [= <-];
    destruct (find_newline_take _ _ Hn) as [Hl1 Hl2]; split; [done|lia].
  all: destruct (Z.ltb_spec MAX_RESPONSE_BYTES (Z.of_nat (length (response_buffer s.1)))); [destruct s; eapply HQ'; exact Hself|].
  { lia. }
  apply runs_bind, runs_wait. intros [[]|e] w Hw; [|eapply HQ'; exact Hself].
  apply runs_bind, runs_nonblocking; [apply read_calm|intros w' Hw'; by eapply read_blocked|].
  intros [[chunk|]|e] w' Hle Hlt _; simpl in *; [| |eapply HQ'; exact Hself].
  - destruct chunk as [|c chunk]; [eapply HQ'; exact Hself|].
    apply runs_bind, runs_modify. apply IH; simpl; try done.
    rewrite length_app. simpl. lia.
  - specialize (Hlt eq_refl). apply IH; simpl; try done. lia.
Qed.

(** ** Starting and stopping the process *)
Lemma runs_ensure_process s Q :
  (forall p w, (spurious w <= spurious s.2)%nat -> Q (Ok p) (set_process (Some p) s.1, w)) ->
  (forall e o w, Q (Raise e) (set_process o s.1, w)) ->
  runs ensure_process s Q.
Proof.
  intros HOk HRaise. assert (Hself : s.1 = set_process (process s.1) s.1) by (by destruct s as [[] ?]).
  apply runs_bind, runs_get. destruct (process s.1) as [p|] eqn:Hp.
  - apply runs_bind, runs_calm; [apply poll_calm|].
    intros [[code|]|e] w Hw; [apply runs_ret| |]; rewrite Hself; [apply HRaise|by apply HOk|apply HRaise].
  - apply runs_bind, runs_get, runs_bind, runs_handle. unfold runs at 1.
    pose proof (runs_calm (popen (command s.1) (child_environment (environ_path s.2))) s) as Hc. unfold runs in Hc.
    apply Hc; [apply popen_calm|]. intros [p|e] w Hw; [|apply runs_ret; rewrite Hself; apply HRaise].
    apply runs_bind, runs_modify. simpl.
    destruct (negb _ || negb _); [apply runs_ret, HRaise|].
    apply runs_bind, runs_calm; [apply set_nonblocking_calm|]. intros [[]|e] w' Hw'; [|apply HRaise].
    apply runs_bind, runs_calm; [apply set_nonblocking_calm|]. intros [[]|e] w'' Hw''; [|apply HRaise].
    apply runs_ret, HOk. simpl in *. lia.
Qed.
Lemma runs_best_effort (op : W -> res unit * W) s (Q : res unit -> state -> Prop) :
  (forall w, Q (Ok tt) (s.1, w)) -> runs (best_effort (call op)) s Q.
Proof. intros HQ. apply runs_handle, runs_any. intros [[]|e] w; [apply HQ|apply runs_ret, HQ]. Qed.
Lemma runs_close_pipe p fd s (Q : res unit -> state -> Prop) :
  (forall w, Q (Ok tt) (s.1, w)) -> runs (close_pipe p fd) s Q.
Proof. intros HQ. unfold close_pipe. destruct (has_pipe p fd); [by apply runs_best_effort|]. destruct s. apply HQ. Qed.
Lemma runs_stop_with p signal s (Q : res unit -> state -> Prop) :
  (forall w, Q (Ok tt) (s.1, w)) -> runs (stop_with p signal) s Q.
Proof.
  intros HQ. apply runs_bind, runs_handle, runs_bind, runs_any.
  assert (Hstop : forall w, runs (bind (best_effort (call (signal p))) (fun _ => best_effort (call (wait_exit p quarter)))) (s.1, w) Q).
  { intros w. apply runs_bind, runs_best_effort. intros w'. apply runs_best_effort. apply HQ. }
  intros [[code|]|e] w; apply runs_ret; simpl; [apply runs_ret, HQ|apply Hstop..].
Qed.
Lemma runs_close s (Q : res unit -> state -> Prop) :
  (forall w, Q (Ok tt) (set_buffer [] (set_process None s.1), w)) -> runs close s Q.
Proof.
  intros HQ. do 2 (apply runs_bind, runs_get || apply runs_bind, runs_modify). apply runs_bind, runs_modify. simpl.
  destruct (process s.1) as [p|]; [|apply runs_ret, HQ].
  apply runs_bind, runs_close_pipe. intros w1. apply runs_bind, runs_stop_with. intros w2.
  apply runs_bind, runs_stop_with. intros w3. apply runs_bind, runs_close_pipe. intros w4.
  apply runs_bind, runs_close_pipe. intros w5. by apply runs_close_pipe.
Qed.
Lemma runs_fail s (Q : res unit -> state -> Prop) :
  (forall now w, Q (Ok tt) (set_retry_at (f_add now (restart_backoff_seconds s.1)) (set_buffer [] (set_process None s.1)), w)) ->
  (forall e w, (exists w0 w1, monotonic w0 = (Raise e, w1)) -> Q (Raise e) (set_buffer [] (set_process None s.1), w)) ->
  runs fail s Q.
Proof.
  intros HOk HRaise. apply runs_bind, runs_close. intros w. apply runs_bind, runs_call. simpl.
  destruct (monotonic w) as [[now|e] w'] eqn:Hm; simpl; [|apply HRaise; eauto].
  apply runs_bind, runs_get, runs_modify. apply HOk.
Qed.

(** ** One request *)
Definition reset (d : object) : object := set_buffer [] (set_process None (next_request d)).
(** The answer [a] was the line of this request, and the process goes on. *)
Definition answered (d : object) (a : option summary) (d' : object) : Prop :=
  exists p line b, d' = set_buffer b (set_process (Some p) (next_request d)) /\ response_line line /\
    validate_response (expected_chain_family d) line (request_id d) = Ok a.
(** How a request can end: not sent, answered, or given up, the back-off
    starting at the time the clock shows. *)
Definition request_outcome (d : object) (r : res (option summary)) (d' : object) : Prop :=
  (r = Ok None /\ d' = d) \/
  (exists a, r = Ok a /\ answered d a d') \/
  (r = Ok None /\ exists now, d' = set_retry_at (f_add now (restart_backoff_seconds d)) (reset d)) \/
  (exists e w w', r = Raise e /\ monotonic w = (Raise e, w') /\ d' = reset d).

Definition request_length (tx : val) (d : object) : nat :=
  match tx with
  | VStr t => match encode_request (request_id d) t with Some r => length r | None => 0%nat end
  | _ => 0%nat
  end.
Definition enough_fuel (tx : val) (s : state) : nat :=
  (spurious s.2 + request_length tx s.1 + Z.to_nat MAX_RESPONSE_BYTES + 1)%nat.

Lemma runs_exchange fuel request id s Q :
  (length request + spurious s.2 + Z.to_nat MAX_RESPONSE_BYTES + 1 <= fuel)%nat ->
  (forall a p line b w, response_line line -> validate_response (expected_chain_family s.1) line id = Ok a ->
     Q (Ok a) (set_buffer b (set_process (Some p) s.1), w)) ->
  (forall e o b w, Q (Raise e) (set_buffer b (set_process o s.1), w)) ->
  runs (exchange fuel request id) s Q.
Proof.
  intros Hf HOk HRaise.
  assert (HR : forall e o w, Q (Raise e) (set_process o s.1, w)).
  { intros e o w. pose proof (HRaise e o (response_buffer s.1) w) as Hr. by destruct s as [[] ?]. }
  apply runs_bind, runs_ensure_process; [|apply HR]. intros p w Hw.
  apply runs_bind, runs_calm; [apply monotonic_calm|]. intros [now|e] w1 Hw1; [|apply HR].
  apply runs_bind, runs_get. cbn zeta. apply runs_bind, runs_write; simpl in *; [lia|]. intros [[]|e] w2 Hw2; [|apply HR].
  apply runs_bind, runs_read_line; simpl in *; [lia|]. intros [line|e] b w3 Hl; [|apply HRaise].
  apply runs_bind, runs_get, runs_ret. simpl.
  destruct (validate_response _ _ _) eqn:Hv; [|apply HRaise]. apply (HOk a p line); [by apply Hl|done].
Qed.
Lemma runs_decode_record fuel tx len s :
  (enough_fuel tx s <= fuel)%nat ->
  runs (decode_record fuel tx len) s (fun r s' => request_outcome s.1 r s'.1).
Proof.
  unfold decode_record, enough_fuel. intros Hf.
  assert (Hno : forall w, request_outcome s.1 (Ok None) (s.1, w).1) by (by left).
  assert (Hs : request_outcome s.1 (Ok None) s.1) by (by left).
  destruct tx; try (by apply runs_ret). destruct len; try (by apply runs_ret).
  destruct (negb _); [by apply runs_ret|].
  apply runs_bind, runs_handle, runs_bind, runs_calm; [apply monotonic_calm|].
  intros [now|e] w Hw; [|by apply runs_ret, runs_ret]. apply runs_bind, runs_get, runs_ret.
  destruct (f_ltb _ _); [by apply runs_ret|]. destruct (_ <? _); [by apply runs_ret|].
  apply runs_bind, runs_get. cbn [fst]. simpl in Hf.
  destruct (encode_request _ _) as [request|] eqn:Hr; [|by apply runs_ret].
  destruct (_ <? _); [by apply runs_ret|]. apply runs_bind, runs_modify. simpl.
  apply runs_handle, runs_exchange; simpl.
  - lia.
  - intros a p line b w' Hl Hv. right. left. exists a. split; [done|]. by exists p, line, b.
  - intros e o b w'. apply runs_bind, runs_fail; simpl.
    + intros now' w''. apply runs_ret. right. right. left. split; [done|]. by exists now'.
    + intros e' w'' (w0 & w1 & Hm). do 3 right. by exists e', w0, w1.
Qed.

(** An accepted answer is a bounded summary of the expected chain family. *)
Definition summary_typed (family : string) (sm : summary) : Prop :=
  summary_ok sm /\ sm_chain_family sm = family /\ sm_parse_status sm ∈ ["parsed"; "unsupported"].
Lemma normalize_record_ok v f sm : normalize_record v f = Ok sm -> summary_ok sm.
Proof.
  unfold normalize_record. destruct (normalize_body v) as [sm'|e] eqn:E.
  - intros [= <-]. by apply (normalize_body_Ok v).
  - case_match; [|done]. intros [= <-]. apply generic_record_ok.
Qed.
Lemma validate_response_typed family line id sm :
  validate_response family line id = Ok (Some sm) -> summary_typed family sm.
Proof.
  unfold validate_response. intros (response & _ & Hv)%bind_Ok. destruct response; try done.
  apply bind_Ok in Hv as (_ & _ & Hv). apply bind_Ok in Hv as (_ & _ & Hv).
  destruct (dget d "ok") as [|[]| | | | |]; try done.
  - destruct (dict_get "summary" d) as [c|]; [|done].
    apply bind_Ok in Hv as (sm' & Hn & Hv). apply bind_Ok in Hv as (size & Hsz & Hv).
    destruct (_ || _) eqn:Hb; [done|]. injection Hv as ->.
    apply orb_false_elim in Hb as [Hb _]. apply orb_false_elim in Hb as [Hb Hs]. apply orb_false_elim in Hb as [_ Hb].
    split; [by eapply normalize_record_ok|]. split; [by apply String.eqb_eq, negb_false_iff|].
    by apply in_strs_spec, negb_false_iff.
  - apply bind_Ok in Hv as (safe & _ & Hv). by destruct safe.
Qed.

(** Bytes are only buffered for a live process. *)
Definition idle (d : object) : Prop := process d = None -> response_buffer d = [].


(** [decode] returns for every input and every behaviour of the child:
    nothing, or a summary of schema 1 that satisfies every bound of the
    normalizer, for the expected chain family and with the status parsed or
    unsupported; it raises only when the clock does. *)
Theorem decode_typed fuel tx len s : (enough_fuel tx s <= fuel)%nat ->
  (forall w e, (monotonic w).1 <> Raise e) ->
  exists r s', decode fuel tx len s = Some (Ok r, s') /\
    (r = None \/ exists sm, r = Some (summary_val sm) /\ summary_typed (expected_chain_family s.1) sm).
Proof.
  intros Hf Hclock. pose proof (runs_decode_record fuel tx len s Hf) as Hr. unfold runs in Hr.
  unfold decode, bind. destruct (decode_record _ _ _ _) as [[r s']|]; [|done].
  destruct Hr as [(-> & _)|[([sm|] & -> & p & line & b & _ & _ & Hv)|[(-> & _)|(e & w & w' & _ & Hm & _)]]]; simpl;
    try (eexists _, s'; split; [done|by left]).
  - eexists _, s'. split; [done|]. right. exists sm. split; [done|]. by eapply validate_response_typed.
  - exfalso. apply (Hclock w e). by rewrite Hm.
Qed.

(** The decoder the height parser calls. *)
#[global] Instance jsonl_decoder : TransactionDecoder state := {|
  Parsers.decode raw len s :=
    match decode (enough_fuel (VStr raw) s) (VStr raw) (VInt len) s with Some p => p | None => (Ok None, s) end
|}.
End safety.

(** ** A concrete child: it answers the first request after one spurious wake-up *)
Definition demo_summary_value : val :=
  VDict [("schema_version", VInt 1); ("parse_status", VStr "parsed"); ("chain_family", VStr "gno");
         ("message_count", VInt 0); ("messages_truncated", VBool false);
         ("primary", VDict [("type", VStr "vm.MsgCall"); ("category", VStr "realm"); ("action", VStr "call");
                            ("label", VStr "Call")]);
         ("messages", VList [])].
Definition demo_answer_line (id : string) : bytes :=
  match json_dumps (H:=ascii_runtime) request_opts
          (VDict [("protocol_version", VInt 1); ("id", VStr id); ("ok", VBool true); ("summary", demo_summary_value)]) with
  | Ok text => list_of_string text ++ [Z_byte 10]
  | Raise _ => []
  end.
Definition demo_world : Type := bytes * nat.
#[local] Existing Instance ascii_runtime.
#[local] Instance demo_stack : JsonStack := {| scan_depth := 10 |}.
#[local] Instance demo_supervisor : Supervisor demo_world unit := {|
  monotonic w := (Ok f_zero, w);
  environ_path w := None;
  popen c e w := (Ok tt, w);
  has_pipe p fd := match fd with stderr => false | _ => true end;
  set_nonblocking p fd w := (Ok tt, w);
  poll p w := (Ok None, w);
  select p fd t w := (Ok true, w);
  os_write p data w := match w.2 with
                       | S n => (Raise BlockingIOError, (w.1, n))
                       | O => (Ok (Z.of_nat (length data)), (demo_answer_line "tx-1", O))
                       end;
  os_read p n w := (Ok w.1, ([], w.2));
  pipe_close p fd w := (Ok tt, w);
  terminate p w := (Ok tt, w);
  kill p w := (Ok tt, w);
  wait_exit p t w := (Ok tt, w)
|}.
#[local] Instance demo_supervisor_laws : SupervisorLaws demo_world unit.
Proof.
  refine {| spurious w := w.2 |}; try (intros; simpl; lia); try done.
  - intros p data [w [|n]]; simpl; lia.
  - intros p data [w [|n]] w'; simpl; [done|]. intros [= <-]. simpl. lia.
Defined.
Definition demo_state : Decoder.state (W:=demo_world) (P:=unit) :=
  (new_decoder ["/opt/decoder"] "gno" (f_of_Z 2) (f_of_Z 30), ([], 1%nat)).
Definition demo_raw : val := VStr "AA==".

Lemma demo_fuel : (enough_fuel demo_raw demo_state <= enough_fuel demo_raw demo_state)%nat.
Proof. lia. Qed.
Lemma demo_answered : exists sm s',
  decode_record 40000 demo_raw (VInt 1) demo_state = Some (Ok (Some sm), s') /\ sm_label sm = "Call".
Proof. eexists _, _. split; [vm_compute; reflexivity|reflexivity]. Qed.

Lemma decode_typed_witness : exists r s',
  decode (enough_fuel demo_raw demo_state) demo_raw (VInt 1) demo_state = Some (Ok r, s') /\
  (r = None \/ exists sm, r = Some (summary_val sm) /\ summary_typed "gno" sm).
Proof. apply (decode_typed _ demo_raw (VInt 1) demo_state); [apply demo_fuel|done]. Defined.
