(* ===== verification/Service.v ===== *)
(** * indexer/service.py: the bounded one-shot indexer

    [plan_range] checks an explicit range against the checkpoint, the
    finalized tip and the hard limit; [service_run] is [IndexerService.run] over the
    runner's interface: it fetches, parses and writes the planned heights in
    order with one endpoint. *)
From Stdlib Require Import ZArith NArith Lia Ascii String SpecFloat.
From stdpp Require Import base gmap sets list strings sorting.
From S2P Require Import Prelude PyStr PyVal Codec InspectRpc Rpc Summary Parsers Database Finalized Endpoints Selection Runner RunnerSafety Indexed.
Open Scope Z_scope.

Definition DEFAULT_MAX_HEIGHTS : Z := 10.

Record RangePlan := {
  rp_start_height : Z;
  rp_end_height : Z;
  rp_count : Z;
  rp_finalized_tip : Z;
  rp_dry_run : bool
}.
Record RunSummary := {
  rs_plan : RangePlan;
  rs_processed : list Z;
  rs_dry_run : bool
}.

Definition plan_range (checkpoint start_height end_height max_heights : option Z) (finalized_tip hard_max : Z)
    (dry_run : bool) : res RangePlan :=
  start ← match checkpoint, start_height with
          | None, None => Raise (ValueError "--start-height is required for an empty database")
          | Some c, Some s => if c + 1 <? s then Raise (ValueError "--start-height would skip checkpoint") else Ok s
          | None, Some s => Ok s
          | Some c, None => Ok (c + 1)
          end;
  _ ← raise_if (start <? 1) (ValueError "start height must be positive");
  let limit := default DEFAULT_MAX_HEIGHTS max_heights in
  _ ← raise_if (limit <? 1) (ValueError "max heights must be positive");
  let planned_end := start + limit - 1 in
  let end_ := default planned_end end_height in
  _ ← raise_if (end_ <? start) (ValueError "end height must be >= start height");
  let count := end_ - start + 1 in
  _ ← raise_if (hard_max <? count) (ValueError "requested range has too many heights");
  _ ← raise_if (finalized_tip <? end_) (ValueError "requested end height is above finalized_tip");
  Ok (Build_RangePlan start end_ count finalized_tip dry_run).

(** [IndexerService(...)]: the client is given by its endpoint's URL; the
    transaction decoder is part of the state. *)
Record IndexerService := {
  sv_rpc_url : string;
  sv_chain_id : string;
  sv_finalized_tip : Z;
  sv_probes : list probe
}.

Section service.
Context `{PyRuntime} {W C D : Type} `{Indexer W C} `{TransactionDecoder D}.
Local Abbreviation step := (step (W:=W) (C:=C) (D:=D)).
#[local] Notation "'let*' p := m 'in' k" := (bind m (fun p => k))
  (at level 10, p strict pattern, m at level 200, k at level 200).

Definition service_height (sv : IndexerService) (dry_run : bool) (fail_after_parse_height : option Z) (height : Z) : step unit :=
  let* get := answers (sv_rpc_url sv) in
  let* payloads := lift (fetch_height get height) in
  let* parsed := parse_fetched height payloads in
  if bool_decide (fail_after_parse_height = Some height) then fail (RuntimeError "injected failure after parse")
  else if dry_run then ret tt
  else call (write_height parsed (sv_chain_id sv) (sv_finalized_tip sv)).
(** The loop over the planned heights, with the height expected next. *)
Fixpoint service_loop (sv : IndexerService) (dry_run : bool) (fail_after : option Z) (heights : list Z) (expected : Z)
    : step (list Z) :=
  match heights with
  | [] => ret []
  | height :: rest =>
      if negb (height =? expected) then fail (RpcError "non-sequential height plan") else
      let* _ := service_height sv dry_run fail_after height in
      let* processed := service_loop sv dry_run fail_after rest (expected + 1) in
      ret (height :: processed)
  end.
Definition service_run (sv : IndexerService) (plan : RangePlan) (fail_after : option Z) : step RunSummary :=
  let* _ := (if negb (rp_dry_run plan) && negb (Nat.eqb (length (sv_probes sv)) 0)
             then call (record_rpc_probe_cycle (sv_chain_id sv) (sv_probes sv)) else ret tt) in
  let* processed := service_loop sv (rp_dry_run plan) fail_after
                      (seqZ (rp_start_height plan) (rp_end_height plan + 1 - rp_start_height plan)) (rp_start_height plan) in
  ret (Build_RunSummary plan processed (rp_dry_run plan)).
End service.

(** ** Properties *)

(** What an accepted plan is. *)
Record plan_ok (checkpoint : option Z) (hard_max : Z) (plan : RangePlan) : Prop := {
  po_start : 1 <= rp_start_height plan;
  po_order : rp_start_height plan <= rp_end_height plan <= rp_finalized_tip plan;
  po_count : rp_count plan = rp_end_height plan + 1 - rp_start_height plan /\ rp_count plan <= hard_max;
  po_next : forall c, checkpoint = Some c -> rp_start_height plan <= c + 1
}.
Lemma plan_range_ok cp start en limit tip hard dry plan :
  plan_range cp start en limit tip hard dry = Ok plan -> plan_ok cp hard plan /\ rp_finalized_tip plan = tip.
Proof.
  unfold plan_range. intros (st & Hst & Hp)%bind_Ok. cbv zeta in Hp. inv_res. split; [|done].
  split; cbn; try lia.
  intros c ->. destruct start as [s0|]; [|injection Hst; lia].
  destruct (_ <? s0) eqn:Hlt; [done|]. injection Hst as <-. lia.
Qed.
Definition planned (plan : RangePlan) : list Z := seqZ (rp_start_height plan) (rp_end_height plan + 1 - rp_start_height plan).

Section properties.
Context `{PyRuntime} {W C D : Type} `{Indexer W C} `{TransactionDecoder D} (sv : IndexerService).
Context {laws : IndexerLaws (sv_chain_id sv)}.
#[local] Abbreviation history s := (ob_history (observe (world s))).
Local Abbreviation state := (state (W:=W) (C:=C) (D:=D)).

(** The committed writes of a run, all made under the plan's finalized tip. *)
Definition wrote (s s' : state) (ps : list ParsedHeight) : Prop :=
  history s' = history s ++ map (fun p => (p, sv_finalized_tip sv)) ps.
Lemma wrote_nil s s' : observe (world s') = observe (world s) -> wrote s s' [].
Proof. unfold wrote. intros ->. by rewrite app_nil_r. Qed.
Lemma wrote_trans s s1 s2 ps qs : wrote s s1 ps -> wrote s1 s2 qs -> wrote s s2 (ps ++ qs).
Proof. unfold wrote. intros H3 ->. by rewrite H3, map_app, app_assoc. Qed.

Lemma parsed_height height payloads (s s' : state) p :
  parse_fetched height payloads s = (Ok p, s') -> ph_height p = height /\ world s' = world s.
Proof.
  unfold parse_fetched. destruct payloads as [[[bp rp] cp] vp].
  destruct (parse_height height bp rp cp vp (decoder s)) as [r dec] eqn:E. intros [= -> <-]. split; [|done].
  unfold parse_height in E. destruct (parse_height_block bp _) as [pb d1]. injection E as E _. inv_res. done.
Qed.

Lemma service_height_post dry fail_after height (s : state) :
  let '(r, s') := service_height sv dry fail_after height s in
  exists ps, wrote s s' ps /\ map ph_height ps `prefix_of` [height] /\ (dry = true -> ps = []) /\
    (r = Ok tt -> dry = false -> map ph_height ps = [height]).
Proof.
  assert (Hno : forall e (s' : state), observe (world s') = observe (world s) ->
    exists ps, wrote s s' ps /\ map ph_height ps `prefix_of` [height] /\ (dry = true -> ps = []) /\
      (Raise e = Ok tt -> dry = false -> map ph_height ps = [height])).
  { intros e s' Ho. exists []. split; [by apply wrote_nil|]. split; [apply prefix_nil|]. done. }
  unfold service_height. pose proof (quiet_answers (laws:=laws) (sv_chain_id sv) (sv_rpc_url sv) s) as [Hq _]. unfold bind at 1.
  destruct (answers _ s) as [[get|e] s1]; cbn [snd] in Hq; [|by apply Hno].
  rewrite lift_bind. destruct (fetch_height get height) as [payloads|e]; [|by apply Hno].
  unfold bind at 1. destruct (parse_fetched height payloads s1) as [[parsed|e] s2] eqn:Ep.
  2: { apply Hno. unfold parse_fetched in Ep. destruct payloads as [[[? ?] ?] ?].
       destruct (parse_height _ _ _ _ _ _). by injection Ep as _ <-. }
  destruct (parsed_height _ _ _ _ _ Ep) as [Hh Hw]. rewrite <-Hw in Hq.
  case_bool_decide; [by apply Hno|]. destruct dry.
  { exists []. split; [by apply wrote_nil|]. split; [apply prefix_nil|]. done. }
  unfold call. pose proof (law_write parsed (sv_finalized_tip sv) (world s2)) as Hl.
  destruct (write_height _ _ _ _) as [r w']. destruct Hl as [_ Hl].
  assert (Hc : committed parsed (sv_finalized_tip sv) (observe (world s2)) (observe w') ->
    exists ps, wrote s (set_world w' s2) ps /\ map ph_height ps `prefix_of` [height] /\ (false = true -> ps = []) /\
      (r = Ok tt -> false = false -> map ph_height ps = [height])).
  { intros [Hc _]. exists [parsed]. unfold wrote. simpl. rewrite Hc, Hq, Hh. done. }
  destruct r as [[]|e]; [by apply Hc|]. destruct Hl as [Hl|[Hl _]]; [|by apply Hc].
  apply Hno. simpl. congruence.
Qed.

Lemma service_loop_post dry fail_after n start (s : state) :
  let '(r, s') := service_loop sv dry fail_after (seqZ start (Z.of_nat n)) start s in
  exists ps, wrote s s' ps /\ map ph_height ps `prefix_of` seqZ start (Z.of_nat n) /\ (dry = true -> ps = []) /\
    (forall done_, r = Ok done_ -> done_ = seqZ start (Z.of_nat n) /\
       (dry = false -> map ph_height ps = seqZ start (Z.of_nat n))).
Proof.
  revert start s. induction n as [|n IH]; intros start s.
  { exists []. split; [by apply wrote_nil|]. split; [done|]. split; [done|]. by intros d [= <-]. }
  rewrite Nat2Z.inj_succ, seqZ_cons by lia. replace (Z.pred (Z.succ (Z.of_nat n))) with (Z.of_nat n) by lia.
  cbn [service_loop]. rewrite Z.eqb_refl. cbn [negb]. unfold bind at 1.
  pose proof (service_height_post dry fail_after start s) as Hh.
  destruct (service_height sv dry fail_after start s) as [[[]|e] s1]; destruct Hh as (ps & Hw & Hp & Hd & Hok).
  2: { exists ps. split; [done|]. split; [|done]. etrans; [exact Hp|]. apply prefix_cons, prefix_nil. }
  unfold bind at 1. replace (Z.succ start) with (start + 1) by lia. specialize (IH (start + 1) s1).
  destruct (service_loop _ _ _ _ _ s1) as [r s2]. destruct IH as (qs & Hw' & Hp' & Hd' & Hok').
  assert (Hdry : dry = true -> ps ++ qs = []) by (intros Ht; by rewrite Hd, Hd').
  assert (Hpre : map ph_height (ps ++ qs) `prefix_of` start :: seqZ (start + 1) (Z.of_nat n)).
  { destruct dry; [rewrite Hdry by done; apply prefix_nil|]. rewrite map_app, Hok by done. by apply prefix_cons. }
  destruct r as [processed|e]; (exists (ps ++ qs); split; [by eapply wrote_trans|]; split; [done|]; split; [done|]); [|done].
  intros d [= <-]. destruct (Hok' processed eq_refl) as [-> Hall]. split; [done|]. intros Hf. by rewrite map_app, Hok, Hall.
Qed.

(** A planned one-shot run writes the planned heights in order and nothing
    else: the plan is within the hard limit and the finalized tip, starts at
    height one or above and not beyond the height after the checkpoint; what
    the run commits, however it ends, is a prefix of the plan's heights, in
    order; a run that succeeds has processed and, unless it is a dry run,
    committed every one of them; and a dry run commits nothing. *)
Theorem service_run_planned cp start en limit hard dry plan (s : state) :
  plan_range cp start en limit (sv_finalized_tip sv) hard dry = Ok plan ->
  plan_ok cp hard plan /\
  let '(r, s') := service_run sv plan None s in
  exists ps, wrote s s' ps /\ map ph_height ps `prefix_of` planned plan /\ (rp_dry_run plan = true -> ps = []) /\
    (forall summary, r = Ok summary -> rs_processed summary = planned plan /\
       (rp_dry_run plan = false -> map ph_height ps = planned plan)).
Proof.
  intros Hp. apply plan_range_ok in Hp as [Hok _]. split; [done|]. destruct Hok as [_ Ho _ _].
  unfold service_run, planned. set (n := rp_end_height plan + 1 - rp_start_height plan).
  replace n with (Z.of_nat (Z.to_nat n)) by lia. unfold bind at 1.
  set (m := if _ && _ then _ else _).
  assert (Hm : observe (world (m s).2) = observe (world s)).
  { subst m. destruct (_ && _); [|done]. unfold call. pose proof (law_record_cycle (sv_probes sv) (world s)) as [Hq _].
    by destruct (record_rpc_probe_cycle _ _ _). }
  destruct (m s) as [[u|e] s1]; cbn [snd] in Hm.
  2: { exists []. split; [by apply wrote_nil|]. split; [apply prefix_nil|]. done. }
  unfold bind at 1. pose proof (service_loop_post (rp_dry_run plan) None (Z.to_nat n) (rp_start_height plan) s1) as Hl.
  destruct (service_loop _ _ _ _ _ s1) as [r s2]. destruct Hl as (ps & Hw & Hpre & Hd & Hall).
  assert (Hw' : wrote s s2 ps) by (unfold wrote in *; by rewrite Hw, Hm).
  destruct r as [processed|e]; exists ps; (split; [done|]; split; [done|]; split; [done|]); [|done].
  intros summary [= <-]. destruct (Hall processed eq_refl) as [-> Hf]. done.
Qed.
End properties.

(** ** A concrete run over the database model *)
#[local] Existing Instance ascii_runtime.
#[local] Existing Instance no_decoder.
#[local] Existing Instance text_postgres.
#[local] Existing Instance text_postgres_laws.
Definition demo_service : IndexerService := Build_IndexerService "http://b" "dev" 12 [].
Definition demo_plan : RangePlan := Build_RangePlan 11 12 2 12 false.
Definition demo_service_end : res RunSummary * @Runner.state (World unit) unit unit :=
  Eval vm_compute in service_run demo_service demo_plan None demo_start.
Lemma demo_service_runs : service_run demo_service demo_plan None demo_start = demo_service_end.
Proof. vm_compute. reflexivity. Qed.
Lemma service_run_planned_witness :
  plan_ok None 100 demo_plan /\ exists ps,
    wrote (C:=unit) (D:=unit) demo_service (laws:=indexed_laws "dev") demo_start demo_service_end.2 ps /\ map ph_height ps = [11; 12].
Proof.
  destruct (service_run_planned (C:=unit) demo_service (laws:=indexed_laws "dev") None (Some 11) (Some 12) None 100 false demo_plan
    demo_start eq_refl) as [Hok Hr].
  split; [exact Hok|]. rewrite demo_service_runs in Hr. destruct Hr as (ps & Hw & _ & _ & Hall).
  exists ps. split; [exact Hw|]. destruct (Hall (Build_RunSummary demo_plan [11; 12] false) eq_refl) as [_ Hp]. by apply Hp.
Defined.
