(* ===== verification/PyFloat.v ===== *)
(** * float(text) and Decimal(text)

    The numerals of Python's [float] and of [decimal.Decimal]: an optional
    sign, digits with at most one point, and an optional exponent, or a word
    for infinity and not-a-number.  Non-ASCII decimal digits and spaces count
    as their ASCII forms, as in [int]. *)
From Stdlib Require Import ZArith NArith Lia Ascii String SpecFloat.
From stdpp Require Import base gmap sets list strings sorting.
From S2P Require Import Prelude PyStr PyVal Codec Json.
Open Scope Z_scope.

(** A numeral: sign, digits as an integer, power of ten, number of digits. *)
Record numeral := Numeral { nm_negative : bool; nm_digits : Z; nm_exponent : Z; nm_length : Z }.

Definition take_sign (l : list ascii) : bool * list ascii :=
  match l with
  | a :: r => if is_byte 45 a then (true, r) else if is_byte 43 a then (false, r) else (false, l)
  | [] => (false, [])
  end.
Definition take_point (l : list ascii) : list ascii * list ascii :=
  match l with a :: r => if is_byte 46 a then span_list is_digit r else ([], l) | [] => ([], []) end.
(** The exponent and the end of the text. *)
Definition take_exponent (l : list ascii) : option Z :=
  match l with
  | [] => Some 0
  | a :: r =>
      if is_byte 101 a || is_byte 69 a then
        let '(negative, r) := take_sign r in
        match span_list is_digit r with
        | ((_ :: _) as ds, []) => Some (if negative then - digits_of ds else digits_of ds)
        | _ => None
        end
      else None
  end.
Definition scan_decimal (l : list ascii) : option numeral :=
  let '(negative, l) := take_sign l in
  let '(ip, r) := span_list is_digit l in
  let '(fp, r) := take_point r in
  match ip ++ fp with
  | [] => None
  | ds => e ← take_exponent r; Some (Numeral negative (digits_of ds) (e - Z.of_nat (length fp)) (Z.of_nat (length ds)))
  end.

(** Underscores stand between digits and are dropped. *)
Fixpoint drop_underscores (after_digit : bool) (l : list ascii) : option (list ascii) :=
  match l with
  | [] => Some []
  | a :: r =>
      if is_byte 95 a then
        match r with b :: _ => if after_digit && is_digit b then drop_underscores false r else None | [] => None end
      else cons a <$> drop_underscores (is_digit a) r
  end.

Definition bad_float : exc := ValueError "could not convert string to float".
Definition special_float (l : list ascii) : option float :=
  let '(negative, l) := take_sign l in
  let word := string_of_list (map ascii_lower l) in
  if String.eqb word "inf" || String.eqb word "infinity" then Some (S754_infinity negative)
  else if String.eqb word "nan" then Some S754_nan
  else None.
(** [float(s)] *)
Definition py_float_str (s : string) : res float :=
  let l := map int_char (chars s) in
  let l := reverse (drop_while c_isspace (reverse (drop_while c_isspace l))) in
  match special_float l with
  | Some f => Ok f
  | None =>
      match drop_underscores false l ≫= scan_decimal with
      | Some n => Ok (decimal_float (nm_negative n) (nm_digits n) (nm_exponent n) (nm_length n))
      | None => Raise bad_float
      end
  end.

(** A finite decimal in the range 0..100, rounded half up to [k] digits after
    the point, as an integer multiple of the last digit. *)
Definition decimal_in_0_100 (n : numeral) : bool :=
  negb (nm_negative n && (0 <? nm_digits n)) &&
  (if 0 <=? nm_exponent n then nm_digits n * 10 ^ nm_exponent n <=? 100
   else nm_digits n <=? 100 * 10 ^ (- nm_exponent n)).
Definition quantize (k : Z) (n : numeral) : Z :=
  let e := nm_exponent n + k in
  if 0 <=? e then nm_digits n * 10 ^ e else (2 * nm_digits n + 10 ^ (- e)) / (2 * 10 ^ (- e)).

Lemma digits_of_nonneg l : 0 <= digits_of l.
Proof.
  unfold digits_of, digits_value.
  assert (Hacc : forall acc, 0 <= acc -> 0 <= foldl (fun acc d => acc * 10 + d) acc (map (fun a => default 0 (ascii_digit a)) l)).
  { induction l as [|a l IH]; intros acc Hacc; [done|]. simpl. apply IH. unfold ascii_digit. case_match eqn:E; simpl; [|lia].
    pose proof (byte_Z_range a). lia. }
  by apply Hacc.
Qed.
Lemma scan_decimal_nonneg l n : scan_decimal l = Some n -> 0 <= nm_digits n.
Proof.
  unfold scan_decimal. destruct (take_sign l) as [neg l']. destruct (span_list is_digit l') as [ip r].
  destruct (take_point r) as [fp r']. destruct (ip ++ fp) as [|d ds] eqn:E; [done|].
  intros (e & _ & [= <-])%bind_Some. apply digits_of_nonneg.
Qed.
(** Rounding keeps a percentage a percentage. *)
Lemma quantize_range k n : 0 <= k -> 0 <= nm_digits n -> decimal_in_0_100 n = true -> 0 <= quantize k n <= 100 * 10 ^ k.
Proof.
  intros Hk Hn. unfold decimal_in_0_100, quantize. intros [_ Hr]%andb_prop.
  assert (Hp : 0 < 10 ^ k) by (apply Z.pow_pos_nonneg; lia).
  destruct (Z.leb_spec 0 (nm_exponent n)) as [He|He].
  - rewrite (proj2 (Z.leb_le 0 (nm_exponent n + k))) by lia. apply Z.leb_le in Hr.
    rewrite Z.pow_add_r by lia. pose proof (Z.pow_pos_nonneg 10 (nm_exponent n)). nia.
  - apply Z.leb_le in Hr. destruct (Z.leb_spec 0 (nm_exponent n + k)) as [Hd|Hd].
    + assert (Hq : 10 ^ k = 10 ^ (- nm_exponent n) * 10 ^ (nm_exponent n + k)) by (rewrite <-Z.pow_add_r by lia; f_equal; lia).
      pose proof (Z.pow_pos_nonneg 10 (nm_exponent n + k)). rewrite Hq. nia.
    + assert (Hq : 10 ^ (- nm_exponent n) = 10 ^ k * 10 ^ (- (nm_exponent n + k))) by (rewrite <-Z.pow_add_r by lia; f_equal; lia).
      rewrite Hq in Hr. set (d := 10 ^ (- (nm_exponent n + k))) in *. assert (0 < d) by (apply Z.pow_pos_nonneg; lia).
      split; [apply Z.div_pos; lia|]. apply Z.lt_succ_r, Z.div_lt_upper_bound; nia.
Qed.
