(* ===== verification/Scan.v ===== *)
(** * Scanners over the characters of a text

    Regular expressions are written as scanners: a literal, a class, a
    repetition takes characters off the front of the list.  [re_lower] is the
    case folding of Python's [re.I] restricted to ASCII pattern letters. *)
From Stdlib Require Import ZArith NArith Lia Ascii String.
From stdpp Require Import base list strings.
From S2P Require Import Prelude PyStr.
Open Scope Z_scope.

(** The ASCII letter a pattern letter is compared with under [re.I]. *)
Definition re_lower (g : string) : ascii :=
  let c := code_point g in
  if c <? 128 then ascii_lower (Z_byte c)
  else if c =? 383 then "s"%char
  else if c =? 8490 then "k"%char
  else if (c =? 304) || (c =? 305) then "i"%char
  else zero.
Fixpoint ci_prefix (pat : list ascii) (l : list string) : option (list string * list string) :=
  match pat, l with
  | [], _ => Some ([], l)
  | a :: pat, g :: l => if bool_decide (re_lower g = a) then p ← ci_prefix pat l; Some (g :: p.1, p.2) else None
  | _ :: _, [] => None
  end.
(** A literal, given in lower case: the text it matches and what follows. *)
Definition ci (pat : string) (l : list string) : option (string * list string) :=
  p ← ci_prefix (list_of_string pat) l; Some (str_concat p.1, p.2).
Definition ci_full (pat : string) (l : list string) : bool := match ci pat l with Some (_, []) => true | _ => false end.
Fixpoint ci_contains (pat : string) (l : list string) : bool :=
  match ci pat l with
  | Some _ => true
  | None => match l with [] => false | _ :: r => ci_contains pat r end
  end.
Fixpoint span_chars (p : string -> bool) (l : list string) : list string * list string :=
  match l with
  | g :: r => if p g then let '(a, b) := span_chars p r in (g :: a, b) else ([], l)
  | [] => ([], [])
  end.
Definition spaces (l : list string) : list string := drop_while is_space_char l.
(** [\s+] *)
Definition spaces1 (l : list string) : option (list string) :=
  match l with g :: r => if is_space_char g then Some (spaces r) else None | [] => None end.
Definition char_is (c : ascii) (g : string) : bool := String.eqb g (String c EmptyString).
Definition char_digit (g : string) : bool := match code_point g with c => (48 <=? c) && (c <=? 57) end.
Definition take_char (c : ascii) (l : list string) : option (list string) :=
  match l with g :: r => if char_is c g then Some r else None | [] => None end.
(** A literal as it is. *)
Fixpoint take_literal (pat : list ascii) (l : list string) : option (list string) :=
  match pat, l with
  | [], _ => Some l
  | c :: pat, g :: l => if char_is c g then take_literal pat l else None
  | _ :: _, [] => None
  end.
Definition literal (pat : string) (l : list string) : option (list string) := take_literal (list_of_string pat) l.
(** [[A-Za-z_]] and [[A-Za-z0-9_]] *)
Definition letter_char (g : string) : bool :=
  match code_point g with c => ((65 <=? c) && (c <=? 90)) || ((97 <=? c) && (c <=? 122)) || (c =? 95) end.
Definition ident_char (g : string) : bool := letter_char g || char_digit g.
Definition identifier (l : list string) : option (list string) :=
  match l with g :: r => if letter_char g then Some (drop_while ident_char r) else None | [] => None end.
