(* ===== verification/Lines.v ===== *)
(** * Valid UTF-8, its characters and its lines

    The characters of a valid text are valid texts themselves
    ([utf8_chars]); str.splitlines cuts a text into lines without line breaks
    whose sizes add up to at most the size of the text, and non-empty lines
    joined with a newline are split into the same lines. *)
From Stdlib Require Import ZArith NArith Lia Ascii String.
From stdpp Require Import base list strings.
From S2P Require Import Prelude PyStr Codec.
Open Scope Z_scope.

Definition utf8 (s : string) : bool := utf8_valid (list_of_string s).
Definition text_size (s : string) : Z := Z.of_nat (String.length s).

Lemma list_of_string_app a b : list_of_string (a +:+ b) = list_of_string a ++ list_of_string b.
Proof. induction a as [|c a IH]; [done|]. cbn. by f_equal. Qed.
Lemma utf8_valid_ascii l : forallb is_ascii_byte l = true -> utf8_valid l = true.
Proof.
  induction l as [|a l IH]; [done|]. simpl. intros [Ha Hl]%andb_prop.
  assert (byte_in 0 127 a = true) as ->; [|by apply IH].
  unfold byte_in. pose proof (byte_Z_range a). unfold is_ascii_byte in Ha. lia.
Qed.

(** ** The first character of a valid text *)
Definition good_group (g : list ascii) : Prop :=
  match g with a :: t => is_cont a = false /\ forallb is_cont t = true | [] => False end /\
  forall r, utf8_valid (g ++ r) = utf8_valid r.
Ltac byte_ranges :=
  repeat match goal with
  | H : _ && _ = true |- _ => apply andb_prop in H as [? ?]
  | H : byte_in _ _ _ = true |- _ => unfold byte_in in H
  end; unfold is_cont in *.
Lemma first_group l : utf8_valid l = true -> l <> [] -> exists g r, l = g ++ r /\ good_group g /\ utf8_valid r = true.
Proof.
  destruct l as [|a l1]; [done|]. intros Hv _. cbn [utf8_valid] in Hv.
  destruct (byte_in 0 127 a) eqn:A1.
  { exists [a], l1. split_and!; [done| |done]. split; [split; [byte_ranges; lia|done]|]. intros r. cbn. by rewrite A1. }
  destruct l1 as [|b l2]; [done|]. destruct (byte_in 194 223 a) eqn:A2.
  { apply andb_prop in Hv as [Hb Hv]. exists [a; b], l2. split_and!; [done| |done].
    split; [split; [byte_ranges; lia|by cbn; rewrite Hb]|]. intros r. cbn. by rewrite A1, A2, Hb. }
  destruct l2 as [|c l3]; [done|].
  assert (three : is_cont b = true -> is_cont c = true -> utf8_valid l3 = true -> is_cont a = false ->
    (forall r, utf8_valid ([a; b; c] ++ r) = utf8_valid r) ->
    exists g r, a :: b :: c :: l3 = g ++ r /\ good_group g /\ utf8_valid r = true).
  { intros Hb Hc Hl Ha Hr. exists [a; b; c], l3. split_and!; [done| |done]. split; [split; [done|by cbn; rewrite Hb, Hc]|done]. }
  destruct (byte_in 224 224 a) eqn:A3.
  { apply andb_prop in Hv as [[Hb Hc]%andb_prop Hv]. apply three; [byte_ranges; lia|done|done|byte_ranges; lia|].
    intros r. cbn. by rewrite A1, A2, A3, Hb, Hc. }
  destruct (byte_in 237 237 a) eqn:A4.
  { apply andb_prop in Hv as [[Hb Hc]%andb_prop Hv]. apply three; [byte_ranges; lia|done|done|byte_ranges; lia|].
    intros r. cbn. by rewrite A1, A2, A3, A4, Hb, Hc. }
  destruct (byte_in 225 239 a) eqn:A5.
  { apply andb_prop in Hv as [[Hb Hc]%andb_prop Hv]. apply three; [done|done|done|byte_ranges; lia|].
    intros r. cbn. by rewrite A1, A2, A3, A4, A5, Hb, Hc. }
  destruct l3 as [|d l4]; [done|].
  assert (four : is_cont b = true -> is_cont c = true -> is_cont d = true -> utf8_valid l4 = true -> is_cont a = false ->
    (forall r, utf8_valid ([a; b; c; d] ++ r) = utf8_valid r) ->
    exists g r, a :: b :: c :: d :: l4 = g ++ r /\ good_group g /\ utf8_valid r = true).
  { intros Hb Hc Hd Hl Ha Hr. exists [a; b; c; d], l4. split_and!; [done| |done].
    split; [split; [done|by cbn; rewrite Hb, Hc, Hd]|done]. }
  destruct (byte_in 240 240 a) eqn:A6.
  { apply andb_prop in Hv as [[[Hb Hc]%andb_prop Hd]%andb_prop Hv]. apply four; [byte_ranges; lia|done..|byte_ranges; lia|].
    intros r. cbn. by rewrite A1, A2, A3, A4, A5, A6, Hb, Hc, Hd. }
  destruct (byte_in 241 243 a) eqn:A7.
  { apply andb_prop in Hv as [[[Hb Hc]%andb_prop Hd]%andb_prop Hv]. apply four; [done..|byte_ranges; lia|].
    intros r. cbn. by rewrite A1, A2, A3, A4, A5, A6, A7, Hb, Hc, Hd. }
  destruct (byte_in 244 244 a) eqn:A8; [|done].
  apply andb_prop in Hv as [[[Hb Hc]%andb_prop Hd]%andb_prop Hv]. apply four; [byte_ranges; lia|done..|byte_ranges; lia|].
  intros r. cbn. by rewrite A1, A2, A3, A4, A5, A6, A7, A8, Hb, Hc, Hd.
Qed.

(** ** A valid text is its valid characters *)
Definition utf8_group (g : string) : Prop := good_group (list_of_string g).
Lemma utf8_group_string g : good_group g -> utf8_group (string_of_list g).
Proof. unfold utf8_group. by rewrite list_of_string_of_list. Qed.
Lemma utf8_group_group g : utf8_group g -> char_group g = true /\ lead_group g = true.
Proof.
  destruct g as [|c t]; [by intros [[] _]|]. intros [[Hc Ht] _]. cbn in *. rewrite Hc. split; [|done].
  change (String.list_ascii_of_string t) with (list_of_string t) in Ht. rewrite <-Ht, <-(string_of_list_of_string t) at 1.
  by rewrite str_forallb_of_list.
Qed.
Lemma utf8_groups_ok l : Forall utf8_group l -> groups_ok l.
Proof.
  intros Hl. assert (Forall (fun g => lead_group g = true) l) as Hlead by (eapply Forall_impl; [exact Hl|]; intros g Hg; by apply utf8_group_group).
  split; [eapply Forall_impl; [exact Hl|]; intros g Hg; by apply utf8_group_group|].
  destruct l; [done|]. by apply Forall_cons in Hlead as [_ ?].
Qed.
Lemma string_of_list_app a b : string_of_list (a ++ b) = string_of_list a +:+ string_of_list b.
Proof. induction a as [|c a IH]; [done|]. cbn. by f_equal. Qed.
Lemma utf8_chars s : utf8 s = true -> Forall utf8_group (chars s).
Proof.
  unfold utf8. rewrite <-(string_of_list_of_string s) at 2. generalize (list_of_string s). clear s. intros l.
  remember (length l) as n eqn:Hn. assert (length l <= n)%nat as Hl by lia. clear Hn. revert l Hl.
  induction n as [|n IH]; intros l Hl Hv; [destruct l; [constructor|simpl in Hl; lia]|].
  destruct l as [|a l']; [constructor|]. destruct (first_group (a :: l') Hv ltac:(done)) as (g & r & E & Hg & Hr).
  rewrite E, string_of_list_app. assert (length r <= n)%nat as Hlen.
  { destruct g as [|x g]; [by destruct Hg as [[] _]|]. apply (f_equal length) in E. rewrite length_app in E. simpl in E, Hl. lia. }
  specialize (IH r Hlen Hr). apply utf8_group_string in Hg. pose proof (utf8_group_group _ Hg) as [Hc Hlead].
  rewrite chars_app_group; [by constructor|done|]. destruct IH as [|h t Hh _]; [done|by apply utf8_group_group].
Qed.
Lemma utf8_app a b : utf8_group a -> utf8 (a +:+ b) = utf8 b.
Proof. intros [_ Ha]. unfold utf8. by rewrite list_of_string_app, Ha. Qed.
Lemma utf8_concat l : Forall utf8_group l -> utf8 (str_concat l) = true /\ chars (str_concat l) = l.
Proof.
  intros Hl. split; [|by apply chars_concat, utf8_groups_ok].
  induction Hl as [|g l Hg _ IH]; [done|]. cbn [str_concat]. by rewrite utf8_app.
Qed.

(** ** Lines *)
Definition no_break (g : string) : Prop := is_linebreak g = false.
(** A line: valid characters, no line break. *)
Definition line_groups (k : list string) : Prop := Forall utf8_group k /\ Forall no_break k.
Definition is_line (s : string) : Prop := exists k, s = str_concat k /\ line_groups k.
Lemma str_concat_app a b : str_concat (a ++ b) = str_concat a +:+ str_concat b.
Proof. induction a as [|g a IH]; [done|]. cbn. by rewrite IH, str_app_assoc. Qed.
Definition lines_size (l : list string) : Z := foldr (fun s n => text_size s + 1 + n) 0 l.
Lemma text_size_app a b : text_size (a +:+ b) = text_size a + text_size b.
Proof. unfold text_size. rewrite str_length_app. lia. Qed.
Lemma utf8_group_size g : utf8_group g -> 1 <= text_size g.
Proof. destruct g as [|c t]; [by intros [[] _]|]. intros _. unfold text_size. simpl. lia. Qed.

Lemma lines_aux_ok n l cs : (length l <= n)%nat -> Forall utf8_group l -> line_groups cs ->
  Forall is_line (lines_aux (str_concat cs) l)
  /\ lines_size (lines_aux (str_concat cs) l) <= text_size (str_concat cs) + text_size (str_concat l) + 1.
Proof.
  revert l cs. induction n as [|n IH]; intros [|g l] cs Hn Hl Hcs; cbn [lines_aux]; try (simpl in Hn; lia).
  1-2: case_bool_decide as E; [by rewrite E|]; split; [by apply Forall_singleton; exists cs|].
  1-2: unfold lines_size; cbn [foldr str_concat]; change (text_size EmptyString) with 0; lia.
  simpl in Hn. apply Forall_cons in Hl as [Hg Hl]. pose proof (utf8_group_size g Hg) as Hs.
  cbn [str_concat]. rewrite text_size_app. destruct (is_linebreak g) eqn:Hb.
  - assert (Hline : is_line (str_concat cs)) by by exists cs.
    assert (Hrec : forall k, (length k <= n)%nat -> Forall utf8_group k -> text_size (str_concat k) <= text_size (str_concat l) ->
      Forall is_line (str_concat cs :: lines_aux EmptyString k) /\
      lines_size (str_concat cs :: lines_aux EmptyString k) <= text_size (str_concat cs) + (text_size g + text_size (str_concat l)) + 1).
    { intros k Hk Hu Hle. destruct (IH k [] Hk Hu) as [IH1 IH2]; [done|]. cbn [str_concat] in *.
      split; [by constructor|]. cbn [lines_size foldr] in *. unfold lines_size in IH2. change (text_size EmptyString) with 0 in IH2. lia. }
    destruct l as [|h l'].
    + apply (Hrec []); [simpl; lia|done|done].
    + destruct (_ && _); [|apply Hrec; [simpl in *; lia|done|lia]]. apply Forall_cons in Hl as [Hh Hl]. simpl in Hn.
      apply Hrec; [lia|done|]. cbn [str_concat]. rewrite text_size_app. pose proof (utf8_group_size h Hh). lia.
  - replace (str_concat cs +:+ g) with (str_concat (cs ++ [g])) by (rewrite str_concat_app; cbn; by rewrite str_app_nil_r).
    destruct Hcs as [H1 H2]. destruct (IH l (cs ++ [g])) as [IH1 IH2]; [lia|done| |].
    { split; apply Forall_app; split; auto; by apply Forall_singleton. }
    split; [done|]. enough (text_size (str_concat (cs ++ [g])) = text_size (str_concat cs) + text_size g) by lia.
    rewrite str_concat_app, text_size_app. cbn [str_concat]. by rewrite str_app_nil_r.
Qed.
Lemma splitlines_ok s : utf8 s = true ->
  Forall is_line (py_splitlines s) /\ lines_size (py_splitlines s) <= text_size s + 1.
Proof.
  intros Hs%utf8_chars. destruct (lines_aux_ok _ (chars s) [] (le_n _) Hs ltac:(by split)) as [H1 H2].
  rewrite str_concat_chars in H2. split; [done|]. by change (text_size (str_concat [])) with 0 in H2; rewrite Z.add_0_l in H2.
Qed.

(** *** Joined lines *)
Definition newline : string := String (Z_byte 10) EmptyString.
Lemma newline_group : utf8_group newline.
Proof. by repeat split. Qed.
Lemma lines_aux_line k l cs : Forall no_break k -> lines_aux (str_concat cs) (k ++ l) = lines_aux (str_concat (cs ++ k)) l.
Proof.
  intros Hk. revert cs. induction Hk as [|g k Hg _ IH]; intros cs; [by rewrite app_nil_r|].
  cbn [app lines_aux]. unfold no_break in Hg. rewrite Hg.
  replace (str_concat cs +:+ g) with (str_concat (cs ++ [g])) by (rewrite str_concat_app; cbn; by rewrite str_app_nil_r).
  by rewrite IH, <-app_assoc.
Qed.
Lemma join_groups l : Forall is_line l -> exists gs, Forall utf8_group gs /\ py_join newline l = str_concat gs /\
  (Forall (fun s => s <> EmptyString) l -> lines_aux EmptyString gs = l).
Proof.
  induction 1 as [|s l (k & -> & Hk & Hb) _ (gs & Hgs & Hj & Hl)]; [by exists []|].
  destruct l as [|t l].
  - exists k. split_and!; [done|done|]. intros [Hne _]%Forall_cons.
    rewrite <-(app_nil_r k) at 1. change EmptyString with (str_concat []) at 1. rewrite lines_aux_line by done. cbn.
    by rewrite bool_decide_eq_false_2.
  - exists (k ++ newline :: gs). split_and!.
    + apply Forall_app. split; [done|]. constructor; [apply newline_group|done].
    + rewrite str_concat_app. cbn [str_concat]. rewrite <-Hj. done.
    + intros [Hne Hne']%Forall_cons. change EmptyString with (str_concat []) at 1. rewrite lines_aux_line by done.
      cbn [app lines_aux]. change (is_linebreak newline) with true. cbn iota.
      specialize (Hl Hne'). destruct gs as [|h gs'] eqn:E; [by cbn in Hl|].
      change (code_point newline =? 13) with false. cbn [andb]. by rewrite Hl.
Qed.
(** Non-empty lines joined and split again. *)
Lemma splitlines_join l : Forall is_line l -> Forall (fun s => s <> EmptyString) l ->
  utf8 (py_join newline l) = true /\ py_splitlines (py_join newline l) = l.
Proof.
  intros Hl Hne. destruct (join_groups l Hl) as (gs & Hgs & -> & He). destruct (utf8_concat gs Hgs) as [Hu Hc].
  split; [done|]. unfold py_splitlines. rewrite Hc. by apply He.
Qed.
Lemma join_size s l : text_size (py_join newline (s :: l)) + 1 = lines_size (s :: l).
Proof.
  revert s. induction l as [|t l IH]; intros s.
  - unfold lines_size. cbn [py_join foldr]. lia.
  - change (py_join newline (s :: t :: l)) with (s +:+ newline +:+ py_join newline (t :: l)).
    change (lines_size (s :: t :: l)) with (text_size s + 1 + lines_size (t :: l)).
    rewrite !text_size_app, <-IH. change (text_size newline) with 1. lia.
Qed.

(** ** Bytes of lines *)
Lemma utf8_group_bytes g : utf8_group g -> (exists c, g = String c EmptyString) \/ str_forallb (fun a => negb (is_ascii_byte a)) g = true.
Proof.
  destruct g as [|c t]; [by intros [[] _]|]. intros [[Hc Ht] Hr]. destruct t as [|d t]; [left; by exists c|]. right.
  cbn in Ht. apply andb_prop in Ht as [Hd Ht]. cbn [str_forallb].
  assert (is_ascii_byte c = false) as Ha.
  { apply not_true_iff_false. intros Hc1. specialize (Hr []). rewrite app_nil_r in Hr.
    change (list_of_string (String c (String d t))) with (c :: d :: list_of_string t) in Hr. cbn [utf8_valid] in Hr.
    assert (byte_in 0 127 c = true) as Hb by (unfold byte_in, is_ascii_byte in *; pose proof (byte_Z_range c); lia).
    rewrite Hb in Hr. unfold is_cont in Hd. destruct (list_of_string t) as [|e [|f t']];
      cbn [utf8_valid] in Hr; repeat (case_match; try (unfold byte_in in *; lia); try done). }
  assert (is_ascii_byte d = false) as Hda by (unfold is_cont, is_ascii_byte in *; lia). rewrite Ha, Hda. cbn.
  change (String.list_ascii_of_string t) with (list_of_string t) in Ht. rewrite <-(string_of_list_of_string t), str_forallb_of_list.
  apply forallb_forall. intros x Hx. rewrite forallb_forall in Ht. specialize (Ht x Hx). unfold is_cont, is_ascii_byte in *. lia.
Qed.
(** A line has no byte that is a line break. *)
Definition not_byte (c a : ascii) : bool := negb (bool_decide (a = c)).
Lemma line_no_byte c s : is_ascii_byte c = true -> is_linebreak (String c EmptyString) = true -> is_line s ->
  str_forallb (not_byte c) s = true.
Proof.
  intros Hc Hb (k & -> & Hk & Hn). induction Hk as [|g k Hg _ IH]; [done|]. apply Forall_cons in Hn as [Hg' Hn].
  cbn [str_concat]. rewrite str_forallb_app, (IH Hn), andb_true_r. destruct (utf8_group_bytes g Hg) as [[d ->]|Hd].
  - cbn. unfold not_byte. rewrite bool_decide_eq_false_2; [done|]. intros ->. unfold no_break in Hg'. congruence.
  - eapply str_forallb_impl; [|exact Hd]. intros a Ha. unfold not_byte. rewrite bool_decide_eq_false_2; [done|].
    intros ->. by rewrite Hc in Ha.
Qed.
Lemma contains_inv p s : py_contains p s = true -> exists a b, s = a +:+ p +:+ b.
Proof.
  assert (forall p s, String.prefix p s = true -> exists b, s = p +:+ b) as Hp.
  { intros p'. induction p' as [|c p' IH]; intros s' Hs; [by exists s'|]. destruct s' as [|d s']; [done|]. cbn in Hs.
    destruct (ascii_dec c d) as [->|]; [|done]. destruct (IH _ Hs) as [b ->]. by exists b. }
  induction s as [|c s IH]; cbn [py_contains].
  - rewrite orb_false_r. intros [b Hb]%Hp. by exists EmptyString, b.
  - intros [[b Hb]%Hp|(a & b & ->)%IH]%orb_prop; [by exists EmptyString, b|by exists (String c a), b].
Qed.

(** A text has at most as many lines as bytes. *)
Lemma lines_aux_count n l cs : (length l <= n)%nat -> Forall utf8_group l ->
  Z.of_nat (length (lines_aux cs l)) <= text_size cs + text_size (str_concat l).
Proof.
  revert l cs. induction n as [|n IH]; intros [|g l] cs Hn Hl; cbn [lines_aux str_concat]; try (simpl in Hn; lia).
  1-2: case_bool_decide as E; [subst; simpl; unfold text_size; lia|]; destruct cs; [done|]; unfold text_size; simpl; lia.
  simpl in Hn. apply Forall_cons in Hl as [Hg Hl]. pose proof (utf8_group_size g Hg) as Hs. rewrite text_size_app.
  destruct (is_linebreak g).
  - assert (Hrec : forall k, (length k <= n)%nat -> Forall utf8_group k -> text_size (str_concat k) <= text_size (str_concat l) ->
      Z.of_nat (length (cs :: lines_aux EmptyString k)) <= text_size cs + (text_size g + text_size (str_concat l))).
    { intros k Hk Hu Hle. specialize (IH k EmptyString Hk Hu). change (text_size EmptyString) with 0 in IH. cbn [length].
      unfold text_size in *. lia. }
    destruct l as [|h l'].
    + apply (Hrec []); [simpl; lia|done|done].
    + destruct (_ && _); [|apply Hrec; [simpl in *; lia|done|lia]]. apply Forall_cons in Hl as [Hh Hl]. simpl in Hn.
      apply Hrec; [lia|done|]. cbn [str_concat]. rewrite text_size_app. pose proof (utf8_group_size h Hh). lia.
  - specialize (IH l (cs +:+ g) ltac:(lia) Hl). rewrite text_size_app in IH. lia.
Qed.
Lemma splitlines_count s : utf8 s = true -> Z.of_nat (length (py_splitlines s)) <= text_size s.
Proof.
  intros Hs%utf8_chars. pose proof (lines_aux_count _ (chars s) EmptyString (le_n _) Hs) as Hc.
  rewrite str_concat_chars in Hc. exact Hc.
Qed.
