(* ===== verification/Governance.v ===== *)
(** * governance/gno.py: GovDAO renders and their discovery

    The parsers of the rendered proposal list, proposal detail and vote list,
    and the bounded traversal that discovers them at one height.  The regular
    expressions are case-insensitive and are written as scanners over the
    characters of a stripped line (Scan.v).  The client is the
    interface [GovernanceClient]; the case folding and the word characters of
    non-ASCII text are the class [UnicodeText].  The [raw_sink] callback of the
    inspection script is not modelled. *)
From Stdlib Require Import ZArith NArith Lia Ascii String SpecFloat.
From stdpp Require Import base gmap sets list strings sorting.
From S2P Require Import Prelude Query PyStr PyVal Codec Json PyFloat Scan Valopers.
Open Scope Z_scope.

Definition MAX_GOVERNANCE_PAGES : nat := 100.
Definition MAX_GOVERNANCE_PROPOSALS : nat := 1000.
Definition MAX_RENDER_BYTES : Z := 1024 * 1024.
Definition MAX_TOTAL_RAW_BYTES : Z := 16 * 1024 * 1024.
Definition MAX_TEXT_CHARS : Z := 100000.
Definition MAX_WARNINGS : nat := 50.

Class UnicodeText := {
  casefold_char : string -> string;
  is_word_char : string -> bool
}.

Record GovernanceSource := {
  gs_chain_id : string;
  gs_rpc_url : string;
  gs_observed_height : Z;
  gs_realm_path : string
}.
Record GovernanceProposalSummary := {
  sp_proposal_id : Z;
  sp_title : string;
  sp_author_display : option string;
  sp_author_address : option string;
  sp_status : string;
  sp_eligible_tiers : list string;
  sp_parse_warnings : list string
}.
Record GovernanceVote := {
  gv_voter_display : string;
  gv_voter_address : option string;
  gv_option : string;
  gv_tier : string;
  gv_voting_power : string
}.
Record GovernanceProposalDetail := {
  gp_proposal_id : Z;
  gp_title : string;
  gp_author_display : option string;
  gp_author_address : option string;
  gp_status : string;
  gp_eligible_tiers : list string;
  gp_description : string;
  gp_executor_text : option string;
  gp_executor_creation_realm : option string;
  gp_rejection_reason : option string;
  gp_yes_percent : option float;
  gp_no_percent : option float;
  gp_abstain_percent : option float;
  gp_detail_parse_status : string;
  gp_votes_parse_status : string;
  gp_votes : list GovernanceVote;
  gp_parse_warnings : list string
}.
Record GovernanceDiscovery := {
  gd_source : GovernanceSource;
  gd_complete : bool;
  gd_page_count : Z;
  gd_proposals : list GovernanceProposalDetail;
  gd_warnings : list string;
  gd_raw_renders : list (string * string)
}.
Record GovernanceListDiscovery := {
  gl_source : GovernanceSource;
  gl_complete : bool;
  gl_page_count : Z;
  gl_proposals : list GovernanceProposalSummary;
  gl_warnings : list string;
  gl_raw_renders : list (string * string)
}.
#[global] Instance GovernanceSource_eq_dec : EqDecision GovernanceSource.
Proof. solve_decision. Defined.
#[global] Instance GovernanceProposalSummary_eq_dec : EqDecision GovernanceProposalSummary.
Proof. solve_decision. Defined.

Definition proposal_key (id : Z) : string := "proposal/" +:+ str_of_Z id.
(** [proposal_raw_renders]: the detail and vote renders of one proposal. *)
Definition proposal_raw_renders (d : GovernanceDiscovery) (id : Z) : option string * option string :=
  (dict_get (proposal_key id) (gd_raw_renders d), dict_get (proposal_key id +:+ "/votes") (gd_raw_renders d)).

(** ** Text *)

(** [.replace("\r\n", "\n").replace("\r", "\n")] *)
Fixpoint unify_newlines (s : string) : string :=
  match s with
  | EmptyString => EmptyString
  | String a r =>
      if byte_Z a =? 13 then
        String (Z_byte 10)
          (match r with String b r' => if byte_Z b =? 10 then unify_newlines r' else unify_newlines r | EmptyString => EmptyString end)
      else String a (unify_newlines r)
  end.
Definition remove_nul (s : string) : string := replace_char zero EmptyString s.
Definition text (value : string) (limit : Z) : string := py_take limit (py_strip (remove_nul (unify_newlines value))).

(** [_MARKDOWN_ESCAPABLE] *)
Definition markdown_escapable (g : string) : bool :=
  existsb (fun a => String.eqb g (String a EmptyString)) (list_of_string (backslash +:+ "`*_{}[]()#+-.!|>~")).
Fixpoint unescape (l : list string) : list string :=
  match l with
  | g :: r => if String.eqb g backslash
              then match r with h :: r' => if markdown_escapable h then h :: unescape r' else g :: unescape r | [] => [g] end
              else g :: unescape r
  | [] => []
  end.
Definition unescape_markdown_text (value : string) : string := text (str_concat (unescape (chars (text value 1000)))) 1000.

Definition non_empty (s : string) : option string := if String.eqb s "" then None else Some s.

(** [(?:[-*]\s+)?] before a literal letter. *)
Definition optional_bullet (l : list string) : list string :=
  match l with
  | g :: r => if char_is "-" g || char_is "*" g then default l (spaces1 r) else l
  | [] => []
  end.
Definition rstrip_chars (l : list string) : list string := reverse (spaces (reverse l)).

(** [_HEADER]: the digits of the ID and the title. *)
Definition header_end (l : list string) : bool :=
  forallb is_space_char l ||
  match take_char "]" l ≫= take_char "(" with
  | Some r => match (span_chars (fun g => negb (char_is ")" g)) r).2 with
              | _ :: r => forallb is_space_char r
              | [] => false
              end
  | None => false
  end.
(** The shortest title of at least one character. *)
Fixpoint header_title (l : list string) : option string :=
  match l with
  | [] => None
  | g :: r => if header_end r then Some g else t ← header_title r; Some (g +:+ t)
  end.
Definition header_re (line : string) : option (string * string) :=
  r ← take_char "#" (chars line) ≫= take_char "#";
  r ← spaces1 (default r (take_char "#" r));
  let r := default r (take_char "[" r) in
  '(_, r) ← ci "prop" r;
  r ← spaces1 r ≫= take_char "#";
  let '(digits, r) := span_chars char_digit r in
  r ← take_char "-" (spaces r);
  title ← header_title (spaces r);
  match digits with [] => None | _ => Some (str_concat digits, title) end.

Fixpoint first_of {A} (f : string -> option A) (l : list string) : option A :=
  match l with
  | [] => None
  | x :: l' => match f x with Some a => Some a | None => first_of f l' end
  end.
Definition colon_value (l : list string) : option string :=
  r ← take_char ":" l; Some (str_concat (rstrip_chars (spaces r))).
(** [_LIST_FIELD]: the name and the value. *)
Definition list_field_re (line : string) : option (string * string) :=
  let l := optional_bullet (chars line) in
  first_of (fun name => '(found, r) ← ci name l; v ← colon_value r; Some (found, v))
    ["author"; "status"; "tiers eligible to vote"].
Definition options : list string := ["yes"; "no"; "abstain"].
(** [_PERCENT] *)
Definition percent_re (line : string) : option (string * string) :=
  let l := optional_bullet (chars line) in
  first_of (fun name => '(found, r) ← ci name l; r ← spaces1 r; '(_, r) ← ci "percent" r; v ← colon_value r; Some (found, v)) options.
(** [^(?:[-*]\s+)?REASON:\s*(.* )$] *)
Definition reason_re (line : string) : option string :=
  '(_, r) ← ci "reason" (optional_bullet (chars line)); r ← take_char ":" r; Some (str_concat (spaces r)).
(** [\s+([^()]+)]: the spaces leave one character when nothing else is there. *)
Definition spaced_group (l : list string) : option (string * list string) :=
  let '(inner, r) := span_chars (fun g => negb (char_is "(" g || char_is ")" g)) l in
  match spaces1 inner with
  | None => None
  | Some [] => match inner with
               | _ :: _ :: _ => g ← last inner; Some (g, r)
               | _ => None
               end
  | Some body => Some (str_concat body, r)
  end.
(** [_VOTE_GROUP]: option, tier and power. *)
Definition vote_group_re (line : string) : option (string * string * string) :=
  let l := chars line in
  first_of (fun name =>
    '(found, r) ← ci name l; r ← spaces1 r; '(_, r) ← ci "from" r; r ← spaces1 r;
    let '(tier, r) := span_chars (fun g => negb (is_space_char g)) r in
    r ← spaces1 r ≫= take_char "("; '(_, r) ← ci "vppm" r;
    '(power, r) ← spaced_group r; r ← take_char ")" r ≫= take_char ":";
    match tier with
    | [] => None
    | _ => if forallb is_space_char r then Some (found, str_concat tier, power) else None
    end) options.
(** [#\s+Proposal\s+#[0-9]+\s+-\s+Vote List] *)
Definition vote_title_re (line : string) : bool :=
  match (r ← take_char "#" (chars line) ≫= spaces1; '(_, r) ← ci "proposal" r; r ← spaces1 r ≫= take_char "#";
         let '(digits, r) := span_chars char_digit r in
         r ← spaces1 r ≫= take_char "-"; r ← spaces1 r;
         match digits with [] => None | _ => Some r end) with
  | Some r => ci_full "vote list" r
  | None => false
  end.
(** [(?:No one voted yet\.?|No votes\.?|No vote has been cast\.?)] *)
Definition no_votes_re (line : string) : bool :=
  existsb (fun s => ci_full s (chars line) || ci_full (s +:+ ".") (chars line))
    ["no one voted yet"; "no votes"; "no vote has been cast"].

(** [_LINK.findall]: the targets of the links, in order; [skip] characters of
    the current link are still to be passed over. *)
Definition link_at (l : list string) : option (string * nat) :=
  r ← take_char "[" l;
  let '(label, r) := span_chars (fun g => negb (char_is "]" g)) r in
  r ← take_char "]" r ≫= take_char "(";
  let '(target, r) := span_chars (fun g => negb (char_is ")" g)) r in
  _ ← take_char ")" r;
  match target with [] => None | _ => Some (str_concat target, (length label + length target + 3)%nat) end.
Fixpoint find_links (skip : nat) (l : list string) : list string :=
  match l with
  | [] => []
  | _ :: r =>
      match skip with
      | S k => find_links k r
      | O => match link_at l with Some (t, k) => t :: find_links k r | None => find_links 0 r end
      end
  end.

(** [_ADDRESS.search] *)
Section words.
Context `{UnicodeText}.
Definition word_char (g : string) : bool :=
  let c := code_point g in
  if c <? 128 then is_alnum (Z_byte c) || (c =? 95) else is_word_char g.
Definition ends_word (l : list string) : bool := match l with g :: _ => negb (word_char g) | [] => true end.
Definition address_at (l : list string) : option string :=
  let a := str_concat (take 40 l) in
  if address_re a && ends_word (drop 40 l) then Some a else None.
Fixpoint find_address (at_boundary : bool) (l : list string) : option string :=
  match l with
  | [] => None
  | g :: r =>
      match (if at_boundary then address_at l else None) with
      | Some a => Some a
      | None => find_address (negb (word_char g)) r
      end
  end.
Definition casefold (s : string) : string :=
  str_concat (map (fun g => if code_point g <? 128 then str_map ascii_lower g else casefold_char g) (chars s)).

(** [_display]: what is shown and the address in it. *)
Definition display (value : string) : option string * option string :=
  let value := text value 1000 in
  let link := (r ← take_char "[" (chars value);
               let '(label, r) := span_chars (fun g => negb (char_is "]" g)) r in
               r ← take_char "]" r ≫= take_char "(";
               let '(target, r) := span_chars (fun g => negb (char_is ")" g)) r in
               r ← take_char ")" r;
               match label, target, r with _ :: _, _ :: _, [] => Some (str_concat label) | _, _, _ => None end) in
  (non_empty (text (default value link) 1000), find_address true (chars value)).
End words.

(** ** Renders *)
Section renders.
Context `{PyRuntime} `{UnicodeText}.

Definition parse_error (msg : string) : exc := GovernanceParseError msg.
Definition validate_size (render : string) : res unit :=
  raise_if (MAX_RENDER_BYTES <? bytes_len render) (parse_error "Governance render exceeds size limit").
Definition lines (render : string) : res (list string) :=
  _ ← validate_size render; Ok (py_split (Z_byte 10) (unify_newlines render)).
Definition tiers (value : string) : list string :=
  map (fun part => py_upper (py_strip part))
    (List.filter (fun part => negb (String.eqb (py_strip part) "")) (py_split "," value)).
(** [_list_status] *)
Definition list_status (value : string) : string * option string :=
  let status := py_upper (py_strip value) in
  if in_strs status ["ACTIVE"; "ACCEPTED"; "REJECTED"] then (status, None)
  else ("UNKNOWN", Some ("Unknown governance status: " +:+ text value 100)).

(** Each header with the lines up to the next one. *)
Fixpoint segments (ls : list string) : list string * list (string * string * list string) :=
  match ls with
  | [] => ([], [])
  | line :: rest =>
      let '(body, segs) := segments rest in
      match header_re (py_strip line) with
      | Some m => ([], (m, body) :: segs)
      | None => (line :: body, segs)
      end
  end.
Definition field_values (ls : list string) : list (string * string) :=
  foldl (fun values line => match list_field_re (py_strip line) with
                            | Some (name, v) => dict_set (py_lower name) v values
                            | None => values
                            end) [] ls.
(** One proposal of the list, and its warning. *)
Definition list_proposal (segment : string * string * list string) : res (GovernanceProposalSummary * list string) :=
  let '(id, title, body) := segment in
  let values := field_values body in
  match dict_get "status" values with
  | None => Raise (parse_error "Proposal has no status")
  | Some raw =>
      let '(status, warning) := list_status raw in
      let ws := match warning with Some w => [w] | None => [] end in
      let '(author, address) := display (default "" (dict_get "author" values)) in
      let ts := tiers (default "" (dict_get "tiers eligible to vote" values)) in
      id ← py_int_str id;
      Ok (Build_GovernanceProposalSummary id (unescape_markdown_text title) author address status ts ws, ws)
  end.
Definition find_summary (id : Z) (l : list GovernanceProposalSummary) : option GovernanceProposalSummary :=
  List.find (fun p => sp_proposal_id p =? id) l.
(** [seen[p.proposal_id] = p] after the check for conflicting duplicates. *)
Definition add_summary (seen : list GovernanceProposalSummary) (p : GovernanceProposalSummary)
    : res (list GovernanceProposalSummary) :=
  match find_summary (sp_proposal_id p) seen with
  | Some old => if bool_decide (old = p) then Ok seen else Raise (parse_error "Conflicting duplicate proposal ID")
  | None => Ok (seen ++ [p])
  end.
Definition parse_proposal_list (render : string) : res (list GovernanceProposalSummary * list string) :=
  ls ← lines render;
  parsed ← mapM_res list_proposal (segments ls).2;
  seen ← foldM_res add_summary [] (map fst parsed);
  Ok (seen, take MAX_WARNINGS (concat (map snd parsed))).

Fixpoint keep_first (l : list string) (seen : list string) : list string :=
  match l with
  | [] => []
  | x :: l => if in_strs x seen then keep_first l seen else x :: keep_first l (x :: seen)
  end.
Definition page_target (realm target : string) : option string :=
  let target := py_strip target in
  let target := default target (strip_prefix (realm +:+ ":") target) in
  n ← strip_prefix "?page=" target;
  if positive_re n then Some (if String.eqb n "1" then "" else "?page=" +:+ n) else None.
Definition pager_paths (render realm : string) : res (list string) :=
  _ ← validate_size render; Ok (keep_first (omap (page_target realm) (find_links 0 (chars render))) []).

(** *** Proposal details *)
Fixpoint find_index (p : string -> bool) (l : list string) : option nat :=
  match l with [] => None | x :: r => if p x then Some 0%nat else S <$> find_index p r end.
(** First index of [[lo, hi)] with [p], and last. *)
Definition first_in (p : string -> bool) (lo hi : nat) (l : list string) : option nat :=
  i ← find_index p (take (hi - lo) (drop lo l)); Some (lo + i)%nat.
Definition last_in (p : string -> bool) (lo hi : nat) (l : list string) : option nat :=
  i ← find_index p (reverse (take (hi - lo) (drop lo l))); Some (Nat.min hi (length l) - 1 - i)%nat.
Definition slice (lo hi : nat) (l : list string) : list string := take (hi - lo) (drop lo l).
Definition is_line (s line : string) : bool := String.eqb (py_strip line) s.
Definition blank_or_field (line : string) : bool :=
  String.eqb (py_strip line) "" || bool_decide (is_Some (list_field_re (py_strip line))).

Record sections := Sections {
  sec_stats : option nat;
  sec_separator : option nat;
  sec_stats_end : nat;
  sec_metadata : option nat;
  sec_body_start : nat;
  sec_body_end : nat
}.
Definition find_sections (ls : list string) (header : nat) : sections :=
  let n := length ls in
  let stats := last_in (fun l => String.eqb (casefold (py_strip l)) "### stats") (S header) n ls in
  let separator := i ← stats; last_in (is_line "---") (S header) i ls in
  let stats_end := match stats with
                   | Some i => default n (first_in (fun l => is_line "---" l ||
                                 bool_decide (is_Some (ci "[detailed voting list]" (chars (py_strip l))))) (S i) n ls)
                   | None => n
                   end in
  let metadata := first_in (is_line "This proposal contains the following metadata:") (S header) n ls in
  let body_start := default n (first_in (fun l => negb (blank_or_field l)) (S header) n ls) in
  let body_end := match metadata, separator, stats with
                  | Some i, _, _ => i
                  | None, Some i, _ => i
                  | None, None, Some i => i
                  | None, None, None => n
                  end in
  Sections stats separator stats_end metadata body_start body_end.

Definition first_author (ls : list string) : option string * option string :=
  match first_of (fun line => '(name, v) ← list_field_re (py_strip line);
                              if String.eqb (py_lower name) "author" then Some v else None) ls with
  | Some v => display v
  | None => (None, None)
  end.
(** The executor text and its creation realm. *)
Definition executor_prefix : string := "Executor created in:".
Definition executor_of (ls : list string) : option string * option string :=
  let '(kept, realm) := foldl (fun acc line =>
      if startswith executor_prefix (py_strip line)
      then (acc.1, non_empty (text (match py_split1 ":" (py_strip line) with Some p => p.2 | None => "" end) 1000))
      else (acc.1 ++ [line], acc.2)) ([], None) ls in
  (non_empty (text (py_join nl kept) MAX_TEXT_CHARS), realm).
Definition stats_status (stats_text : string) : string :=
  let l := chars stats_text in
  if ci_contains "proposal has been accepted" l then "ACCEPTED"
  else if ci_contains "proposal has been denied" l then "REJECTED"
  else if ci_contains "proposal is open for votes" l then "ACTIVE"
  else "UNKNOWN".

(** What the statistics lines add: warnings, tiers, reason, percentages. *)
Record stats := Stats {
  st_warnings : list string;
  st_tiers : list string;
  st_reason : option string;
  st_percentages : list (string * float)
}.
Definition parse_percent (raw : string) : float :=
  match reverse (list_of_string raw) with
  | a :: r => if is_byte 37 a
              then match py_float_str (py_strip (string_of_list (reverse r))) with Ok f => f | Raise _ => S754_nan end
              else S754_nan
  | [] => S754_nan
  end.
Definition percent_ok (f : float) : bool := isfinite f && f_leb f_zero f && f_leb f (f_of_Z 100).
Definition stats_line (s : stats) (line : string) : stats :=
  let stripped := py_strip line in
  let s := match list_field_re stripped with
           | Some (name, v) => if String.eqb (py_lower name) "tiers eligible to vote"
                               then Stats (st_warnings s) (tiers v) (st_reason s) (st_percentages s) else s
           | None => s
           end in
  let s := match reason_re stripped with
           | Some r => Stats (st_warnings s) (st_tiers s) (non_empty (text r 10000)) (st_percentages s)
           | None => s
           end in
  match percent_re stripped with
  | Some (name, raw) =>
      let f := parse_percent raw in
      if percent_ok f then Stats (st_warnings s) (st_tiers s) (st_reason s) (dict_set (py_upper name) f (st_percentages s))
      else Stats (st_warnings s ++ ["Invalid " +:+ py_upper name +:+ " percentage"]) (st_tiers s) (st_reason s) (st_percentages s)
  | None => s
  end.

(** The dict [parse_detail] returns. *)
Record detail := Detail {
  pd_title : string;
  pd_author : option string * option string;
  pd_status : string;
  pd_tiers : list string;
  pd_description : string;
  pd_executor_text : option string;
  pd_executor_realm : option string;
  pd_reason : option string;
  pd_yes : option float;
  pd_no : option float;
  pd_abstain : option float;
  pd_parse_status : string;
  pd_warnings : list string
}.
Definition parse_detail (render : string) (requested_id : Z) : res detail :=
  ls ← lines render;
  match find_index (fun l => bool_decide (is_Some (header_re (py_strip l)))) ls with
  | None => Raise (parse_error "Proposal detail has no ID/title")
  | Some header =>
      let '(id, title) := default ("", "") (header_re (py_strip (default "" (ls !! header)))) in
      id ← py_int_str id;
      _ ← require (id =? requested_id) (parse_error "Proposal detail ID does not match requested ID");
      let sec := find_sections ls header in
      let stats_lines := match sec_stats sec with Some i => slice (S i) (sec_stats_end sec) ls | None => [] end in
      let description := text (py_join nl (slice (sec_body_start sec) (sec_body_end sec) ls)) MAX_TEXT_CHARS in
      let '(executor, realm) :=
        match sec_metadata sec with
        | Some m => let metadata_end := match sec_separator sec with Some i => if Nat.ltb m i then i else length ls | None => length ls end in
                    executor_of (slice (S m) metadata_end ls)
        | None => (None, None)
        end in
      let status := stats_status (py_join nl stats_lines) in
      let unknown := String.eqb status "UNKNOWN" in
      let st := foldl stats_line
                  (Stats (if unknown then ["Official proposal status section was not recognized"] else []) [] None []) stats_lines in
      Ok (Detail (unescape_markdown_text title) (first_author (drop (S header) ls)) status (st_tiers st) description
            executor realm (st_reason st) (dict_get "YES" (st_percentages st)) (dict_get "NO" (st_percentages st))
            (dict_get "ABSTAIN" (st_percentages st)) (if unknown then "partial" else "parsed")
            (take MAX_WARNINGS (st_warnings st)))
  end.

(** *** Votes *)
Record vote_scan := VoteScan {
  vs_votes : list GovernanceVote;
  vs_group : option (string * string * string);
  vs_invalid : bool
}.
Definition vote_line (s : vote_scan) (line : string) : vote_scan :=
  let stripped := py_strip line in
  if String.eqb stripped "" || vote_title_re stripped then s else
  match vote_group_re stripped with
  | Some (name, tier, power) => VoteScan (vs_votes s) (Some (py_upper name, text tier 100, text power 100)) (vs_invalid s)
  | None =>
      let failed := VoteScan (vs_votes s) (vs_group s) true in
      match (match strip_prefix "- " stripped with Some v => Some v | None => strip_prefix "* " stripped end), vs_group s with
      | Some voter, Some (name, tier, power) =>
          let '(shown, address) := display (py_strip voter) in
          match shown with
          | Some shown => VoteScan (vs_votes s ++ [Build_GovernanceVote shown address name tier power]) (vs_group s) (vs_invalid s)
          | None => failed
          end
      | _, _ => failed
      end
  end.
Definition parse_votes (render : string) : res (string * list GovernanceVote * list string) :=
  ls ← lines render;
  let content := List.filter (fun l => negb (String.eqb l "") && negb (vote_title_re l)) (map py_strip ls) in
  if match content with [l] => no_votes_re l | _ => false end then Ok ("empty", [], []) else
  let s := foldl vote_line (VoteScan [] None false) ls in
  if negb (Nat.eqb (length (vs_votes s)) 0) && negb (vs_invalid s) then Ok ("parsed", vs_votes s, [])
  else Ok ("unparsed", [], ["Votes render format was not recognized"]).
End renders.

(** ** Discovery

    [client.abci_query(path, data, height)]: the text or the exception, and the
    client's state after the request. *)
Class GovernanceClient (W : Type) := { gov_query : string -> string -> Z -> W -> res string * W }.

Section discovery.
Context `{PyRuntime} `{UnicodeText} {W : Type} `{GovernanceClient W}.
#[local] Notation "'let*' p := m 'in' k" := (and_then m (fun p => k))
  (at level 10, p strict pattern, m at level 200, k at level 200).

Definition fetch_render (source : GovernanceSource) (path : string) : query (W:=W) string :=
  let* render := gov_query "vm/qrender" (gs_realm_path source +:+ ":" +:+ path) (gs_observed_height source) in
  let* _ := pure (validate_size render) in pure (Ok render).
Definition total_bytes (raw : list (string * string)) : Z := foldr (fun kv acc => bytes_len kv.2 + acc) 0 raw.
Definition too_large : exc := GovernanceParseError "Captured raw renders exceed total size limit".

(** The state of the list traversal. *)
Record traversal := Traversal {
  tr_visited : list string;
  tr_complete : bool;
  tr_warnings : list string;
  tr_summaries : list GovernanceProposalSummary;
  tr_raw : list (string * string);
  tr_raw_bytes : Z
}.
Definition page_name (path : string) : string := "list/" +:+ (if String.eqb path "" then "root" else path).
(** One page: its render is stored, its proposals merged; the pages it links. *)
Definition visit_page (source : GovernanceSource) (max_proposals : nat) (capture_raw : bool) (path : string) (t : traversal)
    : query (W:=W) (list string * traversal) :=
  let* render := fetch_render source path in
  let* (raw, raw_bytes) := pure
       (if capture_raw then
          let n := tr_raw_bytes t + bytes_len render in
          if MAX_TOTAL_RAW_BYTES <? n then Raise too_large else Ok (dict_set (page_name path) render (tr_raw t), n)
        else Ok (tr_raw t, tr_raw_bytes t)) in
  let* (parsed, page_warnings) := pure (parse_proposal_list render) in
  let* summaries := pure (foldM_res add_summary (tr_summaries t) parsed) in
  let* _ := pure (raise_if (Nat.ltb max_proposals (length summaries)) (parse_error "Governance proposal limit exceeded")) in
  let* pages := pure (pager_paths render (gs_realm_path source)) in
  let unrecognized := Nat.eqb (length pages) 0 && String.eqb path "" && Nat.leb 5 (length parsed) in
  let visited := path :: tr_visited t in
  let warnings := tr_warnings t ++ page_warnings
                  ++ (if unrecognized then ["Pagination format was not recognized; list may be incomplete"] else []) in
  pure (Ok (List.filter (fun page => negb (in_strs page visited)) pages,
            Traversal visited (tr_complete t && negb unrecognized) warnings summaries raw raw_bytes)).

(** The queue, with [budget] more pages to fetch. *)
Fixpoint visit_pages (source : GovernanceSource) (max_proposals : nat) (capture_raw : bool) (budget : nat)
    : list string -> traversal -> query (W:=W) traversal :=
  fix from_queue (queue : list string) (t : traversal) : query traversal :=
    match queue with
    | [] => pure (Ok t)
    | path :: queue' =>
        if in_strs path (tr_visited t) then from_queue queue' t else
        match budget with
        | O => pure (Ok (Traversal (tr_visited t) false (tr_warnings t ++ ["Governance page limit reached"]) (tr_summaries t)
                           (tr_raw t) (tr_raw_bytes t)))
        | S budget =>
            let* (pages, t) := visit_page source max_proposals capture_raw path t in
            visit_pages source max_proposals capture_raw budget (queue' ++ pages) t
        end
    end.

Definition limits_ok (max_pages max_proposals : nat) : bool :=
  Nat.leb 1 max_pages && Nat.leb max_pages MAX_GOVERNANCE_PAGES && Nat.leb 1 max_proposals
  && Nat.leb max_proposals MAX_GOVERNANCE_PROPOSALS.
(** [sorted(summaries, reverse=True)] *)
Definition latest_first (l : list GovernanceProposalSummary) : list GovernanceProposalSummary :=
  sort_by (fun a b => sp_proposal_id b <=? sp_proposal_id a) l.
Definition discover_governance_list (source : GovernanceSource) (max_pages max_proposals : nat) (capture_raw : bool)
    : query (W:=W) GovernanceListDiscovery :=
  let* _ := pure (require (limits_ok max_pages max_proposals) (parse_error "Discovery limits exceed hard safety limits")) in
  let* t := visit_pages source max_proposals capture_raw max_pages [""] (Traversal [] true [] [] [] 0) in
  pure (Ok (Build_GovernanceListDiscovery source (tr_complete t) (Z.of_nat (length (tr_visited t)))
              (latest_first (tr_summaries t)) (take MAX_WARNINGS (tr_warnings t)) (tr_raw t))).

(** [fetch] of one proposal's renders. *)
Definition fetch_proposal (source : GovernanceSource) (capture_raw : bool) (name path : string) (raw : list (string * string))
    : query (W:=W) (string * list (string * string)) :=
  let* render := fetch_render source path in
  pure (if capture_raw then
          if MAX_TOTAL_RAW_BYTES <? total_bytes raw + bytes_len render then Raise too_large
          else Ok (render, dict_set name render raw)
        else Ok (render, raw)).

(** The proposal of the detail and vote renders, completed from the list. *)
Definition merge_detail (summary : GovernanceProposalSummary) (d : detail) (vote_status : string) (votes : list GovernanceVote)
    (vote_warnings : list string) : GovernanceProposalDetail :=
  let unknown := String.eqb (pd_status d) "UNKNOWN" in
  let no_tiers := Nat.eqb (length (pd_tiers d)) 0 in
  let no_author := bool_decide ((pd_author d).1 = None) in
  let warnings := pd_warnings d ++ vote_warnings
    ++ (if String.eqb (casefold (unescape_markdown_text (sp_title summary))) (casefold (unescape_markdown_text (pd_title d)))
        then [] else ["Proposal title differs between list and detail renders"])
    ++ (if negb unknown && negb (String.eqb (sp_status summary) "UNKNOWN") && negb (String.eqb (sp_status summary) (pd_status d))
        then ["Proposal status differs between list and detail renders"] else [])
    ++ (if negb no_tiers && negb (Nat.eqb (length (sp_eligible_tiers summary)) 0)
           && negb (bool_decide (sp_eligible_tiers summary = pd_tiers d))
        then ["Eligible tiers differ between list and detail renders"] else []) in
  Build_GovernanceProposalDetail (sp_proposal_id summary) (pd_title d)
    (if no_author then sp_author_display summary else (pd_author d).1)
    (if no_author then sp_author_address summary else (pd_author d).2)
    (if unknown then sp_status summary else pd_status d)
    (if no_tiers then sp_eligible_tiers summary else pd_tiers d)
    (pd_description d) (pd_executor_text d) (pd_executor_realm d) (pd_reason d) (pd_yes d) (pd_no d) (pd_abstain d)
    (pd_parse_status d) vote_status votes (take MAX_WARNINGS warnings).
Definition discover_governance_proposal (source : GovernanceSource) (summary : GovernanceProposalSummary) (capture_raw : bool)
    : query (W:=W) GovernanceDiscovery :=
  let id := sp_proposal_id summary in
  let* (render, raw) := fetch_proposal source capture_raw (proposal_key id) (str_of_Z id) [] in
  let* d := pure (parse_detail render id) in
  let* (render, raw) := fetch_proposal source capture_raw (proposal_key id +:+ "/votes") (str_of_Z id +:+ "/votes") raw in
  let* (vote_status, votes, vote_warnings) := pure (parse_votes render) in
  pure (Ok (Build_GovernanceDiscovery source true 0 [merge_detail summary d vote_status votes vote_warnings] [] raw)).

(** [raw.update(found)] *)
Definition dict_update {A} (d new : list (string * A)) : list (string * A) := foldl (fun d kv => dict_set kv.1 kv.2 d) d new.
Fixpoint discover_details (source : GovernanceSource) (capture_raw : bool) (summaries : list GovernanceProposalSummary)
    (details : list GovernanceProposalDetail) (raw : list (string * string))
    : query (W:=W) (list GovernanceProposalDetail * list (string * string)) :=
  match summaries with
  | [] => pure (Ok (details, raw))
  | summary :: rest =>
      let* found := discover_governance_proposal source summary capture_raw in
      let raw := dict_update raw (gd_raw_renders found) in
      let* _ := pure (raise_if (MAX_TOTAL_RAW_BYTES <? total_bytes raw) too_large) in
      discover_details source capture_raw rest (details ++ gd_proposals found) raw
  end.
Definition discover_governance (source : GovernanceSource) (max_pages max_proposals : nat) (proposal_id : option Z)
    (capture_raw : bool) : query (W:=W) GovernanceDiscovery :=
  match proposal_id with
  | Some id => discover_governance_proposal source
                 (Build_GovernanceProposalSummary id ("Proposal #" +:+ str_of_Z id) None None "UNKNOWN" [] []) capture_raw
  | None =>
      let* listed := discover_governance_list source max_pages max_proposals capture_raw in
      let* (details, raw) := discover_details source capture_raw (gl_proposals listed) [] (gl_raw_renders listed) in
      pure (Ok (Build_GovernanceDiscovery source (gl_complete listed) (gl_page_count listed) details
                  (take MAX_WARNINGS (gl_warnings listed)) raw))
  end.
End discovery.
