(* ===== verification/GovernanceStore.v ===== *)
(** * indexer/governance_persistence.py: the stored governance snapshots

    The three governance tables of database/schema.sql with their keys, CHECK
    constraints and type conversions, the validation of a discovery, and the
    two transactions that store one: a complete snapshot, and a list with the
    proposals that needed a refresh.  A percentage is an integer number of
    ten-thousandths and a voting power an integer.  Isinstance tests of values
    whose type is fixed here, and the time columns the server fills with
    now(), are not modelled. *)
From Stdlib Require Import ZArith NArith Lia Ascii String SpecFloat.
From stdpp Require Import base gmap sets list strings sorting.
From S2P Require Import Prelude PyStr PyVal Codec Json PyFloat Valopers ValopersStore Governance.
Open Scope Z_scope.

Definition STATUSES : list string := ["ACTIVE"; "ACCEPTED"; "REJECTED"; "UNKNOWN"].
Definition DETAIL_STATUSES : list string := ["parsed"; "partial"].
Definition VOTE_STATUSES : list string := ["parsed"; "empty"; "unparsed"].
Definition OPTIONS : list string := ["YES"; "NO"; "ABSTAIN"].
(** [new in _TRANSITIONS.get(old, set())] *)
Definition transition (old new : string) : bool :=
  (String.eqb old "ACTIVE" && in_strs new ["ACCEPTED"; "REJECTED"])
  || (String.eqb old "UNKNOWN" && in_strs new ["ACTIVE"; "ACCEPTED"; "REJECTED"]).
Definition power_re (s : string) : bool :=
  str_forallb is_ascii_digit s && Nat.leb 1 (String.length s) && Nat.leb (String.length s) 78.

Record GovernancePersistenceResult := {
  ga_action : string;
  ga_source_height : Z;
  ga_page_count : Z;
  ga_proposal_count : Z;
  ga_vote_count : Z;
  ga_inserted_proposals : Z;
  ga_updated_proposals : Z
}.

(** ** The tables *)

(** The columns of governance_proposals a snapshot determines. *)
Record proposal_data := {
  pc_title : string;
  pc_author_display : option string;
  pc_author_address : option string;
  pc_status : string;
  pc_tiers : list string;
  pc_description : string;
  pc_executor_text : option string;
  pc_executor_realm : option string;
  pc_reason : option string;
  pc_yes : option Z;
  pc_no : option Z;
  pc_abstain : option Z;
  pc_detail_status : string;
  pc_votes_status : string;
  pc_warnings : list string;
  pc_raw_detail : string;
  pc_raw_votes : string
}.
Record vote_data := {
  vc_display : string;
  vc_address : option string;
  vc_option : string;
  vc_tier : string;
  vc_power : Z
}.
(** A row: its data with the heights it was first and last observed at. *)
Record observed (A : Type) := Observed { ob_data : A; ob_first : Z; ob_last : Z }.
Arguments Observed {A}.
Arguments ob_data {A}.
Arguments ob_first {A}.
Arguments ob_last {A}.
(** Source height, page count, proposal count, first and latest proposal. *)
Definition metadata : Type := Z * Z * option Z * option Z.
Definition sync_state : Type := Z * metadata.

Definition realm_key : Type := string * string.
Record gstore := GStore {
  gt_proposals : gmap (realm_key * Z) (observed proposal_data);
  gt_votes : gmap (realm_key * Z * string) (observed vote_data);
  gt_sync : gmap realm_key sync_state;
  gt_indexer : option string
}.
#[global] Instance proposal_data_eq_dec : EqDecision proposal_data.
Proof. solve_decision. Defined.
#[global] Instance vote_data_eq_dec : EqDecision vote_data.
Proof. solve_decision. Defined.
Definition set_proposals (t : gmap (realm_key * Z) (observed proposal_data)) (d : gstore) : gstore :=
  GStore t (gt_votes d) (gt_sync d) (gt_indexer d).
Definition set_votes (t : gmap (realm_key * Z * string) (observed vote_data)) (d : gstore) : gstore :=
  GStore (gt_proposals d) t (gt_sync d) (gt_indexer d).
Definition set_sync (t : gmap realm_key sync_state) (d : gstore) : gstore :=
  GStore (gt_proposals d) (gt_votes d) t (gt_indexer d).

(** *** Constraints *)
Definition all_opt {A} (p : A -> bool) (o : option A) : bool := match o with Some a => p a | None => true end.
Definition char_length (lo hi : Z) (s : string) : bool := between_Z lo hi (py_len s).
Definition percent_range (o : option Z) : bool := all_opt (between_Z 0 1000000) o.
(** What a value must be for its column type: text without U+0000, bigint. *)
Definition proposal_types (k : realm_key) (id : Z) (p : proposal_data) : bool :=
  forallb no_nul ([k.1; k.2; pc_title p; pc_status p; pc_description p; pc_detail_status p; pc_votes_status p; pc_raw_detail p;
                   pc_raw_votes p] ++ pc_tiers p ++ pc_warnings p)
  && forallb (all_opt no_nul) [pc_author_display p; pc_author_address p; pc_executor_text p; pc_executor_realm p; pc_reason p]
  && bigint id.
Definition proposal_checks (k : realm_key) (id : Z) (p : proposal_data) : bool :=
  char_length 1 128 k.1 && char_length 1 512 k.2 && (0 <=? id) && char_length 1 1000 (pc_title p)
  && all_opt (char_length 0 1000) (pc_author_display p) && all_opt address_re (pc_author_address p)
  && in_strs (pc_status p) STATUSES && char_length 0 100000 (pc_description p)
  && all_opt (char_length 0 100000) (pc_executor_text p) && all_opt (char_length 0 1000) (pc_executor_realm p)
  && all_opt (char_length 0 10000) (pc_reason p) && percent_range (pc_yes p) && percent_range (pc_no p)
  && percent_range (pc_abstain p) && in_strs (pc_detail_status p) DETAIL_STATUSES
  && in_strs (pc_votes_status p) VOTE_STATUSES && (bytes_len (pc_raw_detail p) <=? 1048576)
  && (bytes_len (pc_raw_votes p) <=? 1048576).
Definition vote_types (k : realm_key) (id : Z) (key : string) (v : vote_data) : bool :=
  forallb no_nul [k.1; k.2; key; vc_display v; vc_option v; vc_tier v] && all_opt no_nul (vc_address v) && bigint id
  && (Z.abs (vc_power v) <? 10 ^ 78).
Definition vote_checks (key : string) (v : vote_data) : bool :=
  char_length 1 1100 key && char_length 1 1000 (vc_display v) && all_opt address_re (vc_address v)
  && in_strs (vc_option v) OPTIONS && char_length 1 64 (vc_tier v) && (0 <=? vc_power v).
Definition heights_check {A} (r : observed A) : bool := (1 <=? ob_first r) && (ob_first r <=? ob_last r).

(** *** Statements *)
(** INSERT ... ON CONFLICT DO UPDATE: the first observation is kept. *)
Definition upsert_observed {A} (height : Z) (a : A) (existing : option (observed A)) : observed A :=
  Observed a (match existing with Some r => ob_first r | None => height end) height.
Definition upsert_proposal (k : realm_key) (height : Z) (id : Z) (p : proposal_data) (d : gstore) : res gstore :=
  _ ← require (proposal_types k id p && bigint height) DataError;
  let row := upsert_observed height p (gt_proposals d !! (k, id)) in
  _ ← require (proposal_checks k id p && heights_check row) IntegrityError;
  Ok (set_proposals (<[(k, id) := row]> (gt_proposals d)) d).
(** DELETE the votes of one proposal whose key is not in [keys]. *)
Definition delete_votes (k : realm_key) (id : Z) (keys : list string) (d : gstore) : gstore :=
  set_votes (filter (fun kv => ~ (kv.1.1 = (k, id) /\ in_strs kv.1.2 keys = false)) (gt_votes d)) d.
Definition upsert_vote (k : realm_key) (height : Z) (id : Z) (d : gstore) (kv : string * vote_data) : res gstore :=
  _ ← require (vote_types k id kv.1 kv.2 && bigint height) DataError;
  let row := upsert_observed height kv.2 (gt_votes d !! (k, id, kv.1)) in
  _ ← require (vote_checks kv.1 kv.2 && heights_check row) IntegrityError;
  _ ← require (bool_decide (is_Some (gt_proposals d !! (k, id)))) IntegrityError;
  Ok (set_votes (<[(k, id, kv.1) := row]> (gt_votes d)) d).
Definition sync_checks (k : realm_key) (s : sync_state) : bool :=
  let '(height, (pages, count, first, latest)) := s in
  char_length 1 128 k.1 && char_length 1 512 k.2 && (1 <=? height) && between_Z 1 100 pages && between_Z 0 1000 count
  && match first, latest with
     | None, None => count =? 0
     | Some f, Some l => (0 <? count) && (0 <=? f) && (f <=? l)
     | _, _ => false
     end.
Definition upsert_sync (k : realm_key) (s : sync_state) (d : gstore) : res gstore :=
  let '(height, (pages, count, first, latest)) := s in
  _ ← require (no_nul k.1 && no_nul k.2 && bigint height && all_opt bigint first && all_opt bigint latest) DataError;
  _ ← require (sync_checks k s) IntegrityError;
  Ok (set_sync (<[k := s]> (gt_sync d)) d).

(** ** Validation of a discovery *)
Section normalize.
Context `{PyRuntime} `{UnicodeText}.

Definition persistence_error (msg : string) : exc := GovernancePersistenceError msg.
(** [_bounded_text] *)
Definition bounded_text (maximum : Z) (s : string) : bool := py_len s <=? maximum.
Definition bounded_nonempty (maximum : Z) (s : string) : bool := negb (String.eqb s "") && bounded_text maximum s.

(** [s.split()] *)
Fixpoint words_aux (cur : string) (l : list string) : list string :=
  match l with
  | [] => match cur with EmptyString => [] | _ => [cur] end
  | g :: r => if is_space_char g then match cur with EmptyString => words_aux EmptyString r | _ => cur :: words_aux EmptyString r end
              else words_aux (cur +:+ g) r
  end.
Definition words (s : string) : list string := words_aux EmptyString (chars s).
Definition voter_key (shown : string) (address : option string) : string :=
  match address with
  | Some a => if String.eqb a "" then "display:" +:+ casefold (py_join " " (words shown)) else "address:" +:+ py_lower a
  | None => "display:" +:+ casefold (py_join " " (words shown))
  end.
(** [_percentage] *)
Definition percentage (value : option float) : res (option Z) :=
  match value with
  | None => Ok None
  | Some f =>
      match (if isfinite f then scan_decimal (list_of_string (rt_float_repr f)) else None) with
      | Some n => if decimal_in_0_100 n then Ok (Some (quantize 4 n)) else Raise (persistence_error "invalid percentage")
      | None => Raise (persistence_error "invalid percentage")
      end
  end.

(** [_NormalizedProposal], split by column: the ID, the columns, the votes. *)
Record normalized := Normalized {
  nz_id : Z;
  nz_data : proposal_data;
  nz_votes : list (string * vote_data)
}.
Definition check (b : bool) (msg : string) : res unit := require b (persistence_error msg).
Definition stripped (s : string) : bool := String.eqb (py_strip s) s.

Definition normalize_vote (votes : list (string * vote_data)) (v : GovernanceVote) : res (list (string * vote_data)) :=
  _ ← check (negb (Nat.eqb (length (words (gv_voter_display v))) 0) && bounded_text 1000 (gv_voter_display v)) "invalid voter display";
  _ ← check (all_opt address_re (gv_voter_address v)) "invalid voter address";
  _ ← check (in_strs (gv_option v) OPTIONS) "invalid vote option";
  _ ← check (negb (String.eqb (py_strip (gv_tier v)) "") && stripped (gv_tier v) && bounded_text 64 (gv_tier v)) "invalid vote tier";
  _ ← check (power_re (gv_voting_power v)) "invalid voting power";
  let key := voter_key (gv_voter_display v) (gv_voter_address v) in
  _ ← check (bounded_nonempty 1100 key && negb (in_strs key (map fst votes))) "duplicate or invalid voter key";
  Ok (votes ++ [(key, Build_vote_data (gv_voter_display v) (gv_voter_address v) (gv_option v) (gv_tier v)
                        (digits_of (list_of_string (gv_voting_power v))))]).

Definition normalize_proposal (discovery : GovernanceDiscovery) (acc : list normalized) (p : GovernanceProposalDetail)
    : res (list normalized) :=
  let id := gp_proposal_id p in
  _ ← check (0 <=? id) "invalid proposal ID";
  _ ← check (negb (existsb (fun n => nz_id n =? id) acc)) "duplicate proposal ID";
  _ ← check (bounded_nonempty 1000 (gp_title p)) "invalid proposal title";
  _ ← check (all_opt (bounded_text 1000) (gp_author_display p)) "invalid proposal author display";
  _ ← check (all_opt address_re (gp_author_address p)) "invalid proposal author address";
  _ ← check (in_strs (gp_status p) STATUSES) "invalid proposal status";
  _ ← check (forallb (fun t => bounded_nonempty 64 t && stripped t) (gp_eligible_tiers p)) "invalid eligible tier";
  _ ← check (bounded_text MAX_TEXT_CHARS (gp_description p)) "invalid proposal description";
  _ ← check (all_opt (bounded_text MAX_TEXT_CHARS) (gp_executor_text p)) "invalid executor text";
  _ ← check (all_opt (bounded_text 1000) (gp_executor_creation_realm p)) "invalid executor realm";
  _ ← check (all_opt (bounded_text 10000) (gp_rejection_reason p)) "invalid rejection reason";
  yes ← percentage (gp_yes_percent p); no ← percentage (gp_no_percent p); abstain ← percentage (gp_abstain_percent p);
  _ ← check (in_strs (gp_detail_parse_status p) DETAIL_STATUSES) "invalid detail parse status";
  _ ← check (in_strs (gp_votes_parse_status p) VOTE_STATUSES) "invalid votes parse status";
  _ ← raise_if (String.eqb (gp_votes_parse_status p) "unparsed")
        (IncompleteGovernanceSnapshot "unparsed votes make the snapshot incomplete");
  _ ← check (Nat.leb (length (gp_parse_warnings p)) MAX_WARNINGS && forallb (bounded_text 1000) (gp_parse_warnings p))
        "invalid parse warnings";
  match proposal_raw_renders discovery id with
  | (Some raw_detail, Some raw_votes) =>
      _ ← check (negb (String.eqb (gp_votes_parse_status p) "empty" && negb (Nat.eqb (length (gp_votes p)) 0)))
            "empty vote status contains votes";
      _ ← check (negb (String.eqb (gp_votes_parse_status p) "parsed" && Nat.eqb (length (gp_votes p)) 0))
            "parsed vote status requires votes";
      votes ← foldM_res normalize_vote [] (gp_votes p);
      Ok (acc ++ [Normalized id
            (Build_proposal_data (gp_title p) (gp_author_display p) (gp_author_address p) (gp_status p) (gp_eligible_tiers p)
               (gp_description p) (gp_executor_text p) (gp_executor_creation_realm p) (gp_rejection_reason p) yes no abstain
               (gp_detail_parse_status p) (gp_votes_parse_status p) (gp_parse_warnings p) raw_detail raw_votes)
            (sort_by (fun a b => str_leb a.1 b.1) votes)])
  | _ => Raise (persistence_error "proposal raw renders are missing")
  end.

Definition chain_mismatch : exc := GovernanceChainIdentityError "governance source chain does not match configured chain".
Definition normalize_discovery (discovery : GovernanceDiscovery) (configured_chain_id : string) : res (list normalized) :=
  let source := gd_source discovery in
  _ ← raise_if (String.eqb configured_chain_id "") (GovernanceChainIdentityError "configured chain ID is required");
  _ ← require (gd_complete discovery) (IncompleteGovernanceSnapshot "only a complete full discovery may be persisted");
  _ ← check (bounded_nonempty 128 (gs_chain_id source)) "invalid source chain ID";
  _ ← require (String.eqb (gs_chain_id source) configured_chain_id) chain_mismatch;
  _ ← check (bounded_nonempty 512 (gs_realm_path source)) "invalid governance realm";
  _ ← check (1 <=? gs_observed_height source) "invalid governance source height";
  _ ← check (between_Z 1 (Z.of_nat MAX_GOVERNANCE_PAGES) (gd_page_count discovery))
        "complete discovery must include at least one bounded list page";
  _ ← check (Nat.leb (length (gd_proposals discovery)) MAX_GOVERNANCE_PROPOSALS) "invalid proposal collection";
  _ ← check (forallb (fun kv => bytes_len kv.2 <=? MAX_RENDER_BYTES) (gd_raw_renders discovery)) "raw render exceeds limit";
  _ ← check (total_bytes (gd_raw_renders discovery) <=? MAX_TOTAL_RAW_BYTES) "raw renders exceed total limit";
  rows ← foldM_res (normalize_proposal discovery) [] (gd_proposals discovery);
  Ok (sort_by (fun a b => nz_id a <=? nz_id b) rows).
End normalize.

(** ** Reading and checking what is stored *)
Section store.
Context `{PyRuntime} `{UnicodeText}.

Definition stored_error (msg : string) : exc := GovernanceStoredStateError msg.
Definition stored_proposal : Type := Z * observed proposal_data.
Definition stored_vote : Type := Z * string * observed vote_data.
(** The rows of a table whose key [pick] accepts, by the key it gives. *)
Definition pick_rows {K J A} `{Countable K} (pick : K -> option J) (t : gmap K A) : list (J * A) :=
  omap (fun kv => j ← pick kv.1; Some (j, kv.2)) (map_to_list t).
Definition proposal_in (k : realm_key) (x : realm_key * Z) : option Z := if bool_decide (x.1 = k) then Some x.2 else None.
Definition vote_in (k : realm_key) (x : realm_key * Z * string) : option (Z * string) :=
  if bool_decide (x.1.1 = k) then Some (x.1.2, x.2) else None.
Definition key_leb (a b : Z * string) : bool := (a.1 <? b.1) || ((a.1 =? b.1) && str_leb a.2 b.2).
Definition vote_leb (a b : stored_vote) : bool := key_leb a.1 b.1.
(** The rows of one realm, by ID, and by ID and voter key. *)
Definition realm_proposals (k : realm_key) (d : gstore) : list stored_proposal :=
  sort_by (fun a b => a.1 <=? b.1) (pick_rows (proposal_in k) (gt_proposals d)).
Definition realm_votes (k : realm_key) (d : gstore) : list stored_vote :=
  sort_by vote_leb (pick_rows (vote_in k) (gt_votes d)).

Definition votes_of (votes : list stored_vote) (id : Z) : list stored_vote := List.filter (fun v => v.1.1 =? id) votes.
Definition valid_state (s : sync_state) (proposals : list stored_proposal) : bool :=
  let '(height, (pages, count, first, latest)) := s in
  (1 <=? height) && between_Z 1 (Z.of_nat MAX_GOVERNANCE_PAGES) pages && between_Z 0 (Z.of_nat MAX_GOVERNANCE_PROPOSALS) count
  && (count =? Z.of_nat (length proposals))
  && match first, latest with
     | None, None => count =? 0
     | Some f, Some l => (0 <? count) && (0 <=? f) && (f <=? l)
                         && bool_decide (head (map fst proposals) = Some f) && bool_decide (last (map fst proposals) = Some l)
     | _, _ => false
     end.
Definition valid_heights {A} (source_height : Z) (r : observed A) : bool :=
  (1 <=? ob_first r) && (ob_first r <=? ob_last r) && (ob_last r <=? source_height).
(** The columns a snapshot determines, and a row with the votes counted. *)
Definition valid_data (p : proposal_data) : bool :=
  bounded_nonempty 1000 (pc_title p) && all_opt (bounded_text 1000) (pc_author_display p)
  && all_opt address_re (pc_author_address p) && in_strs (pc_status p) STATUSES && forallb (bounded_nonempty 64) (pc_tiers p)
  && bounded_text MAX_TEXT_CHARS (pc_description p) && all_opt (bounded_text MAX_TEXT_CHARS) (pc_executor_text p)
  && all_opt (bounded_text 1000) (pc_executor_realm p) && all_opt (bounded_text 10000) (pc_reason p)
  && percent_range (pc_yes p) && percent_range (pc_no p) && percent_range (pc_abstain p)
  && in_strs (pc_detail_status p) DETAIL_STATUSES && forallb (bounded_text 1000) (pc_warnings p)
  && (bytes_len (pc_raw_detail p) <=? MAX_RENDER_BYTES) && (bytes_len (pc_raw_votes p) <=? MAX_RENDER_BYTES).
Definition valid_vote_count (status : string) (count : nat) : bool :=
  (String.eqb status "parsed" && negb (Nat.eqb count 0)) || (String.eqb status "empty" && Nat.eqb count 0).
Definition valid_proposal (source_height : Z) (votes : list stored_vote) (row : stored_proposal) : bool :=
  let '(id, r) := row in
  (0 <=? id) && valid_data (ob_data r) && valid_vote_count (pc_votes_status (ob_data r)) (length (votes_of votes id))
  && valid_heights source_height r.
Definition raw_bytes (p : proposal_data) : Z := bytes_len (pc_raw_detail p) + bytes_len (pc_raw_votes p).
Definition sum_raw (ps : list proposal_data) : Z := foldr (fun p acc => raw_bytes p + acc) 0 ps.
Definition valid_vote_data (key : string) (v : vote_data) : bool :=
  bounded_nonempty 1100 key && bounded_nonempty 1000 (vc_display v) && all_opt address_re (vc_address v)
  && String.eqb key (voter_key (vc_display v) (vc_address v)) && in_strs (vc_option v) OPTIONS
  && bounded_nonempty 64 (vc_tier v) && (0 <=? vc_power v) && (py_len (str_of_Z (vc_power v)) <=? 78).
(** One vote row; [seen] are the keys of the rows before it. *)
Definition valid_vote (source_height : Z) (ids : list Z) (seen : list (Z * string)) (row : stored_vote) : bool :=
  let '(id, key, r) := row in
  bool_decide (id ∈ ids) && negb (bool_decide ((id, key) ∈ seen)) && valid_vote_data key (ob_data r)
  && valid_heights source_height r.

Definition loaded : Type := option sync_state * list stored_proposal * list stored_vote.
(** [_load] *)
Definition load (k : realm_key) (d : gstore) : res loaded :=
  let proposals := realm_proposals k d in
  let votes := realm_votes k d in
  match gt_sync d !! k with
  | None =>
      _ ← require (Nat.eqb (length proposals + length votes) 0) (stored_error "governance rows exist without sync state");
      Ok (None, proposals, votes)
  | Some s =>
      _ ← require (valid_state s proposals) (stored_error "stored governance sync state is inconsistent");
      _ ← foldM_res (fun _ row => require (valid_proposal s.1 votes row) (stored_error "stored governance proposal is inconsistent"))
            tt proposals;
      _ ← require (sum_raw (map (fun r => ob_data r.2) proposals) <=? MAX_TOTAL_RAW_BYTES)
            (stored_error "stored governance raw total exceeds limit");
      _ ← foldM_res (fun seen (row : stored_vote) =>
                       _ ← require (valid_vote s.1 (map fst proposals) seen row) (stored_error "stored governance vote is inconsistent");
                       Ok (seen ++ [row.1])) [] votes;
      Ok (Some s, proposals, votes)
  end.

(** [_content] and [_stored_content] *)
Definition content_data : Type := list (Z * proposal_data) * list (Z * string * vote_data).
Definition content (rows : list normalized) : content_data :=
  (map (fun n => (nz_id n, nz_data n)) rows,
   concat (map (fun n => map (fun v => (nz_id n, v.1, v.2)) (nz_votes n)) rows)).
Definition stored_content (proposals : list stored_proposal) (votes : list stored_vote) : content_data :=
  (map (fun r => (r.1, ob_data r.2)) (sort_by (fun a b => a.1 <=? b.1) proposals),
   map (fun r => (r.1, ob_data r.2)) (sort_by vote_leb votes)).

(** ** Storing a complete snapshot *)
Definition check_identity (chain : string) (d : gstore) : res unit :=
  require (match gt_indexer d with Some c => String.eqb c chain | None => true end)
    (GovernanceChainIdentityError "indexer state belongs to another chain").
Definition conflict_error (msg : string) : exc := GovernanceSnapshotConflict msg.
Definition check_transition (old : option string) (new : string) : res unit :=
  match old with
  | Some s => require (String.eqb s new || transition s new) (conflict_error "invalid governance status transition")
  | None => Ok tt
  end.
Definition find_stored (id : Z) (stored : list stored_proposal) : option (observed proposal_data) :=
  snd <$> List.find (fun r => r.1 =? id) stored.
Definition old_status (id : Z) (stored : list stored_proposal) : option string :=
  (fun r => pc_status (ob_data r)) <$> find_stored id stored.
(** One proposal with its votes. *)
Definition write_proposal (k : realm_key) (height : Z) (d : gstore) (n : normalized) : res gstore :=
  d ← upsert_proposal k height (nz_id n) (nz_data n) d;
  let keys := map fst (nz_votes n) in
  let d := match keys with
           | [] => if String.eqb (pc_votes_status (nz_data n)) "empty" then delete_votes k (nz_id n) [] d else d
           | _ => delete_votes k (nz_id n) keys d
           end in
  foldM_res (upsert_vote k height (nz_id n)) d (nz_votes n).
Definition write_checked (k : realm_key) (height : Z) (stored : list stored_proposal) (d : gstore) (n : normalized) : res gstore :=
  _ ← check_transition (old_status (nz_id n) stored) (pc_status (nz_data n));
  write_proposal k height d n.
Definition metadata_of (pages : Z) (ids : list Z) : metadata := (pages, Z.of_nat (length ids), head ids, last ids).
Definition inserted_count (stored : list stored_proposal) (rows : list normalized) : Z :=
  Z.of_nat (length (List.filter (fun n => bool_decide (find_stored (nz_id n) stored = None)) rows)).

Definition persist_governance_snapshot_cursor (discovery : GovernanceDiscovery) (configured_chain_id : string) (d : gstore)
    : res (GovernancePersistenceResult * gstore) :=
  rows ← normalize_discovery discovery configured_chain_id;
  let k := (gs_chain_id (gd_source discovery), gs_realm_path (gd_source discovery)) in
  let height := gs_observed_height (gd_source discovery) in
  _ ← check_identity k.1 d;
  '(state, stored, stored_votes) ← load k d;
  let ids := map nz_id rows in
  let meta := metadata_of (gd_page_count discovery) ids in
  let count := Z.of_nat (length rows) in
  let vote_count := Z.of_nat (length (content rows).2) in
  _ ← raise_if (match state with Some s => height <? s.1 | None => false end)
        (StaleGovernanceSnapshot "governance snapshot is stale");
  if match state with Some s => s.1 =? height | None => false end then
    if bool_decide (snd <$> state = Some meta) && bool_decide (stored_content stored stored_votes = content rows)
    then Ok (Build_GovernancePersistenceResult "unchanged" height (gd_page_count discovery) count vote_count 0 0, d)
    else Raise (conflict_error "same-height governance snapshot differs")
  else
  _ ← require (forallb (fun r => bool_decide (r.1 ∈ ids)) stored)
        (conflict_error "a stored proposal is missing from newer snapshot");
  d' ← foldM_res (write_checked k height stored) d rows;
  d' ← upsert_sync k (height, meta) d';
  '(verified_state, verified, verified_votes) ← load k d';
  _ ← check (bool_decide (verified_state = Some (height, meta))
             && bool_decide (stored_content verified verified_votes = content rows)) "post-write governance verification failed";
  let inserted := inserted_count stored rows in
  Ok (Build_GovernancePersistenceResult "applied" height (gd_page_count discovery) count vote_count inserted (count - inserted), d').

(** ** Storing a list with its refreshed proposals *)
Definition needs_refresh (old : option string) (status : string) : bool :=
  match old with
  | None => true
  | Some s => in_strs s ["ACTIVE"; "UNKNOWN"] || in_strs status ["ACTIVE"; "UNKNOWN"]
  end.
Definition select_governance_refresh_ids (summaries : list GovernanceProposalSummary) (old : Z -> option string) : list Z :=
  sort_by Z.leb (map sp_proposal_id
    (List.filter (fun s => needs_refresh (old (sp_proposal_id s)) (sp_status s)) summaries)).

(** The targets, one proposal each, keyed by their ID. *)
Definition add_target (source : GovernanceSource) (summaries : list GovernanceProposalSummary)
    (acc : list (Z * GovernanceDiscovery)) (t : GovernanceDiscovery) : res (list (Z * GovernanceDiscovery)) :=
  _ ← check (bool_decide (gd_source t = source)) "targeted discovery source mismatch";
  match gd_proposals t with
  | [p] =>
      let id := gp_proposal_id p in
      _ ← check (negb (bool_decide (id ∈ map fst acc))) "duplicate targeted discovery";
      _ ← check (bool_decide (is_Some (find_summary id summaries))) "unrelated targeted discovery";
      Ok (acc ++ [(id, t)])
  | _ => Raise (persistence_error "targeted discovery must contain exactly one proposal")
  end.
Definition summary_status (id : Z) (summaries : list GovernanceProposalSummary) : string :=
  match find_summary id summaries with Some s => sp_status s | None => "" end.
Definition normalize_target (source : GovernanceSource) (chain : string) (summaries : list GovernanceProposalSummary)
    (target : Z * GovernanceDiscovery) : res normalized :=
  let '(id, t) := target in
  rows ← normalize_discovery (Build_GovernanceDiscovery source true 1 (gd_proposals t) [] (gd_raw_renders t)) chain;
  match rows with
  | n :: _ =>
      _ ← check (nz_id n =? id) "targeted proposal ID mismatch";
      let listed := summary_status id summaries in
      _ ← check (String.eqb (pc_status (nz_data n)) listed || String.eqb listed "UNKNOWN")
            "targeted proposal status differs from list";
      Ok n
  | [] => Raise (ValueError "IndexError")
  end.
(** The raw renders kept after the replacement. *)
Definition final_raw_bytes (stored : list stored_proposal) (rows : list normalized) : Z :=
  sum_raw (map (fun r => ob_data r.2) (List.filter (fun r => negb (existsb (fun n => nz_id n =? r.1) rows)) stored))
  + sum_raw (map nz_data rows).

(** What the list of a height already stored must agree with. *)
Definition summary_agrees (stored : list stored_proposal) (s : GovernanceProposalSummary) : bool :=
  match find_stored (sp_proposal_id s) stored with
  | Some r => let p := ob_data r in
              String.eqb (sp_title s) (pc_title p) && bool_decide (sp_author_display s = pc_author_display p)
              && bool_decide (sp_author_address s = pc_author_address p) && String.eqb (sp_status s) (pc_status p)
              && bool_decide (sp_eligible_tiers s = pc_tiers p)
  | None => false
  end.
Definition target_settled (height : Z) (stored : list stored_proposal) (id : Z) : bool :=
  match find_stored id stored with
  | Some r => in_strs (pc_status (ob_data r)) ["ACCEPTED"; "REJECTED"] && (ob_last r =? height)
  | None => false
  end.
Definition same_target (stored : list stored_proposal) (votes : list stored_vote) (n : normalized) : bool :=
  match find_stored (nz_id n) stored with
  | Some r => bool_decide (stored_content [(nz_id n, r)] (votes_of votes (nz_id n)) = content [n])
  | None => false
  end.
Definition same_height (height : Z) (meta : metadata) (stored_meta : metadata) (summaries : list GovernanceProposalSummary)
    (stored : list stored_proposal) (votes : list stored_vote) (required : list Z) (rows : list normalized) : res unit :=
  let targets := map nz_id rows in
  _ ← require (bool_decide (stored_meta = meta)) (conflict_error "same-height governance list differs");
  _ ← require (forallb (summary_agrees stored) summaries) (conflict_error "same-height governance list summary differs");
  _ ← require (forallb (fun id => bool_decide (id ∈ targets)) required)
        (conflict_error "selected proposal is missing targeted discovery");
  _ ← require (forallb (fun id => bool_decide (id ∈ required) || target_settled height stored id) targets)
        (conflict_error "unrelated targeted discovery");
  require (forallb (same_target stored votes) rows) (conflict_error "same-height targeted content differs").

Definition write_incremental (k : realm_key) (height : Z) (d : gstore) (n : normalized) : res gstore :=
  d ← upsert_proposal k height (nz_id n) (nz_data n) d;
  foldM_res (upsert_vote k height (nz_id n)) (delete_votes k (nz_id n) (map fst (nz_votes n)) d) (nz_votes n).

Definition validate_list (listed : GovernanceListDiscovery) (configured_chain_id : string) : res unit :=
  let source := gl_source listed in
  _ ← require (gl_complete listed) (IncompleteGovernanceSnapshot "only a complete list discovery may be persisted");
  _ ← require (String.eqb (gs_chain_id source) configured_chain_id) chain_mismatch;
  _ ← check (bounded_nonempty 512 (gs_realm_path source)) "invalid governance realm";
  _ ← check (1 <=? gs_observed_height source) "invalid governance source height";
  _ ← check (between_Z 1 (Z.of_nat MAX_GOVERNANCE_PAGES) (gl_page_count listed)) "invalid list page count";
  _ ← check (bool_decide (NoDup (map sp_proposal_id (gl_proposals listed)))) "duplicate proposal ID";
  check (Nat.leb (length (gl_proposals listed)) MAX_GOVERNANCE_PROPOSALS) "invalid proposal collection".

(** The part after the same-height case. *)
Definition apply_incremental (k : realm_key) (height : Z) (meta : metadata) (pages count : Z)
    (summaries : list GovernanceProposalSummary) (stored : list stored_proposal) (required : list Z) (rows : list normalized)
    (d : gstore) : res (GovernancePersistenceResult * gstore) :=
  _ ← foldM_res (fun _ r => check_transition (Some (pc_status (ob_data r.2))) (summary_status r.1 summaries)) tt stored;
  _ ← check (forallb (fun n => bool_decide (nz_id n ∈ required)) rows) "unrelated targeted discovery";
  _ ← check (forallb (fun id => bool_decide (id ∈ map nz_id rows)) required) "selected proposal is missing targeted discovery";
  d' ← foldM_res (write_incremental k height) d rows;
  d' ← upsert_sync k (height, meta) d';
  let inserted := inserted_count stored rows in
  Ok (Build_GovernancePersistenceResult "applied" height pages count
        (Z.of_nat (length (concat (map nz_votes rows)))) inserted (Z.of_nat (length rows) - inserted), d').

Definition persist_governance_incremental_cursor (listed : GovernanceListDiscovery) (targeted : list GovernanceDiscovery)
    (configured_chain_id : string) (d : gstore) : res (GovernancePersistenceResult * gstore) :=
  _ ← validate_list listed configured_chain_id;
  let source := gl_source listed in
  let summaries := gl_proposals listed in
  let k := (gs_chain_id source, gs_realm_path source) in
  let height := gs_observed_height source in
  _ ← check_identity k.1 d;
  '(state, stored, stored_votes) ← load k d;
  _ ← raise_if (match state with Some s => height <? s.1 | None => false end)
        (StaleGovernanceSnapshot "governance snapshot is stale");
  _ ← require (forallb (fun r => bool_decide (is_Some (find_summary r.1 summaries))) stored)
        (conflict_error "a stored proposal is missing from newer list");
  targets ← foldM_res (add_target source summaries) [] targeted;
  rows ← mapM_res (normalize_target source configured_chain_id summaries) targets;
  _ ← raise_if (MAX_TOTAL_RAW_BYTES <? final_raw_bytes stored rows)
        (IncompleteGovernanceSnapshot "final governance raw renders exceed total limit");
  let ids := sort_by Z.leb (map sp_proposal_id summaries) in
  let meta := metadata_of (gl_page_count listed) ids in
  let count := Z.of_nat (length ids) in
  let required := select_governance_refresh_ids summaries (fun id => old_status id stored) in
  match state with
  | Some (stored_height, stored_meta) =>
      if stored_height =? height then
        _ ← same_height height meta stored_meta summaries stored stored_votes required rows;
        Ok (Build_GovernancePersistenceResult "unchanged" height (gl_page_count listed) count
              (Z.of_nat (length stored_votes)) 0 0, d)
      else apply_incremental k height meta (gl_page_count listed) count summaries stored required rows d
  | None => apply_incremental k height meta (gl_page_count listed) count summaries stored required rows d
  end.
End store.
