(* ===== verification/GovernanceSafety.v ===== *)
(** * The stored governance snapshots stay readable and only move forward

    [load] refuses a store whose rows disagree, so a transaction that left
    such rows would stop every later one.  The theorems here show that no
    transaction does: what [load] accepts stays acceptable, only the realm of
    the snapshot changes, its height does not decrease, no proposal disappears
    and a status only takes the allowed transitions. *)
From Stdlib Require Import ZArith NArith Lia Ascii String SpecFloat.
From stdpp Require Import base gmap sets list strings sorting.
From S2P Require Import Prelude PyStr PyVal Codec Json PyFloat Valopers ValopersStore Governance GovernanceStore.
Open Scope Z_scope.

(** ** Tables and their listings *)
Lemma elem_of_pick_rows {K J A} `{Countable K} (pick : K -> option J) (t : gmap K A) j a :
  (j, a) ∈ pick_rows pick t <-> exists k, pick k = Some j /\ t !! k = Some a.
Proof.
  unfold pick_rows. rewrite list_elem_of_omap. split.
  - intros ([k b] & Hk & Hp). apply elem_of_map_to_list in Hk. simpl in Hp.
    destruct (pick k) as [i|] eqn:E; simpl in Hp; [|done]. injection Hp as -> ->. by exists k.
  - intros (k & Hp & Hk). exists (k, a). split; [by apply elem_of_map_to_list|]. simpl. by rewrite Hp.
Qed.
Lemma NoDup_picked {K J A} (pick : K -> option J) (l : list (K * A)) :
  (forall k k' j, pick k = Some j -> pick k' = Some j -> k = k') -> NoDup l.*1 ->
  NoDup (omap (fun kv => j ← pick kv.1; Some (j, kv.2)) l).*1.
Proof.
  intros Hinj. induction l as [|[k a] l IH]; simpl; [constructor|]. intros [Hk Hl]%NoDup_cons.
  destruct (pick k) as [j|] eqn:E; simpl; [|by apply IH]. apply NoDup_cons. split; [|by apply IH].
  intros ([j' b] & -> & Hj)%list_elem_of_fmap. apply list_elem_of_omap in Hj as ([k' b'] & Hk' & Hp). simpl in *.
  destruct (pick k') as [i|] eqn:E'; simpl in Hp; [|done]. injection Hp as -> ->. apply Hk.
  rewrite (Hinj k k' j' E E'). apply list_elem_of_fmap. by exists (k', b).
Qed.
Lemma NoDup_pick_rows {K J A} `{Countable K} (pick : K -> option J) (t : gmap K A) :
  (forall k k' j, pick k = Some j -> pick k' = Some j -> k = k') -> NoDup (pick_rows pick t).*1.
Proof. intros Hinj. apply NoDup_picked; [done|]. apply NoDup_fst_map_to_list. Qed.

Lemma proposal_in_Some k x id : proposal_in k x = Some id <-> x = (k, id).
Proof. unfold proposal_in. destruct x as [k' i]. simpl. case_bool_decide; split; try congruence; by intros [= -> ->]. Qed.
Lemma vote_in_Some k x j : vote_in k x = Some j <-> x = (k, j.1, j.2).
Proof.
  unfold vote_in. destruct x as [[k' i] key], j as [id' key']. simpl. case_bool_decide; split; try congruence;
    by intros [= -> -> ->] || by intros [= -> ->].
Qed.

Lemma elem_of_proposals k d id r : (id, r) ∈ realm_proposals k d <-> gt_proposals d !! (k, id) = Some r.
Proof.
  unfold realm_proposals. rewrite elem_of_sort_by, elem_of_pick_rows. setoid_rewrite proposal_in_Some. naive_solver.
Qed.
Lemma elem_of_votes k d j r : (j, r) ∈ realm_votes k d <-> gt_votes d !! (k, j.1, j.2) = Some r.
Proof. unfold realm_votes. rewrite elem_of_sort_by, elem_of_pick_rows. setoid_rewrite vote_in_Some. naive_solver. Qed.
Lemma NoDup_proposals k d : NoDup (realm_proposals k d).*1.
Proof.
  unfold realm_proposals. rewrite sort_by_perm. apply NoDup_pick_rows. intros x y j. rewrite !proposal_in_Some. congruence.
Qed.
Lemma NoDup_votes k d : NoDup (realm_votes k d).*1.
Proof. unfold realm_votes. rewrite sort_by_perm. apply NoDup_pick_rows. intros x y j. rewrite !vote_in_Some. congruence. Qed.

Lemma proposals_sorted k d : StronglySorted Z.le (realm_proposals k d).*1.
Proof.
  apply (StronglySorted_map (fun a b : stored_proposal => (a.1 <=? b.1) = true)); [intros x y; lia|].
  apply sort_by_sorted; [intros x y; lia|intros x y z; lia].
Qed.

(** The listing of a realm is determined by the rows of that realm. *)
Lemma key_leb_antisym a b : key_leb a b = true -> key_leb b a = true -> a = b.
Proof.
  destruct a as [i s], b as [j t]. unfold key_leb. cbn [fst snd]. rewrite !orb_true_iff, !andb_true_iff. intros Ha Hb.
  destruct Ha as [Ha|[Ha Hs]], Hb as [Hb|[Hb Ht]]; try lia. f_equal; [lia|by apply str_leb_antisym].
Qed.
Lemma key_leb_total a b : key_leb a b = true \/ key_leb b a = true.
Proof.
  destruct a as [i s], b as [j t]. unfold key_leb. cbn [fst snd]. destruct (str_leb_total s t) as [->| ->]; lia.
Qed.
Lemma key_leb_trans a b c : key_leb a b = true -> key_leb b c = true -> key_leb a c = true.
Proof.
  destruct a as [i s], b as [j t], c as [m u]. unfold key_leb. cbn [fst snd]. rewrite !orb_true_iff, !andb_true_iff.
  intros [Ha|[Ha Hs]] [Hb|[Hb Ht]]; try lia. right. split; [lia|by eapply str_leb_trans].
Qed.
Lemma votes_sorted k d : StronglySorted (fun a b : stored_vote => vote_leb a b = true) (realm_votes k d).
Proof. apply sort_by_sorted; [intros x y; apply key_leb_total|intros x y z; apply key_leb_trans]. Qed.
Lemma same_fst {J A} (l : list (J * A)) x y : NoDup l.*1 -> x ∈ l -> y ∈ l -> x.1 = y.1 -> x = y.
Proof.
  induction l as [|z l IH]; [by intros _ ?%elem_of_nil|]. intros [Hz Hnd]%NoDup_cons Hx Hy Hxy.
  apply elem_of_cons in Hx as [->|Hx]; apply elem_of_cons in Hy as [->|Hy]; [done|..|by apply IH].
  - destruct Hz. apply list_elem_of_fmap. by exists y.
  - destruct Hz. apply list_elem_of_fmap. by exists x.
Qed.
Lemma realm_proposals_ext k d d' : (forall id, gt_proposals d' !! (k, id) = gt_proposals d !! (k, id)) ->
  realm_proposals k d' = realm_proposals k d.
Proof.
  intros He. apply (sorted_unique (fun a b : stored_proposal => (a.1 <=? b.1) = true)).
  - intros x y Hx Hy Hxy Hyx. apply (same_fst (realm_proposals k d')); [apply NoDup_proposals|done..|lia].
  - apply sort_by_sorted; [intros x y; lia|intros x y z; lia].
  - apply sort_by_sorted; [intros x y; lia|intros x y z; lia].
  - apply NoDup_Permutation; [eapply NoDup_fmap_1, NoDup_proposals..|]. intros [id r]. by rewrite !elem_of_proposals, He.
Qed.
Lemma realm_votes_ext k d d' : (forall id key, gt_votes d' !! (k, id, key) = gt_votes d !! (k, id, key)) ->
  realm_votes k d' = realm_votes k d.
Proof.
  intros He. apply (sorted_unique (fun a b : stored_vote => vote_leb a b = true)); [|apply votes_sorted..|].
  - intros x y Hx Hy Hxy Hyx. apply (same_fst (realm_votes k d')); [apply NoDup_votes|done..|by apply key_leb_antisym].
  - apply NoDup_Permutation; [eapply NoDup_fmap_1, NoDup_votes..|]. intros [j r]. by rewrite !elem_of_votes, He.
Qed.

(** ** What [load] accepts *)
Section load.
Context `{PyRuntime} `{UnicodeText}.

Record realm_sound (s : sync_state) (ps : list stored_proposal) (vs : list stored_vote) : Prop := {
  rs_state : valid_state s ps = true;
  rs_proposals : forall row, row ∈ ps -> valid_proposal s.1 vs row = true;
  rs_raw : sum_raw (map (fun r => ob_data r.2) ps) <= MAX_TOTAL_RAW_BYTES;
  rs_votes : forall row, row ∈ vs -> valid_vote s.1 (map fst ps) [] row = true
}.
Lemma valid_vote_seen h ids seen row :
  valid_vote h ids seen row = true <-> valid_vote h ids [] row = true /\ row.1 ∉ seen.
Proof.
  destruct row as [[id key] r]. unfold valid_vote. rewrite !andb_true_iff.
  rewrite (bool_decide_eq_false_2 ((id, key) ∈ [])) by (by intros ?%elem_of_nil).
  rewrite (negb_true_iff (bool_decide ((id, key) ∈ seen))), bool_decide_eq_false. cbn [fst negb]. naive_solver.
Qed.
Lemma votes_fold h ids vs : NoDup vs.*1 ->
  (exists seen, foldM_res (fun seen (row : stored_vote) =>
     _ ← require (valid_vote h ids seen row) (stored_error "stored governance vote is inconsistent"); Ok (seen ++ [row.1])) [] vs = Ok seen)
  <-> (forall row, row ∈ vs -> valid_vote h ids [] row = true).
Proof.
  set (f := fun seen row => _). intros Hnd.
  assert (Hgen : forall l seen, NoDup (seen ++ l.*1) ->
    (exists out, foldM_res f seen l = Ok out) <-> (forall row, row ∈ l -> valid_vote h ids [] row = true)).
  { induction l as [|row l IH]; intros seen Hseen.
    { split; [by intros _ row ?%elem_of_nil|]. intros _. by exists seen. }
    cbn [foldM_res fmap list_fmap] in *. rewrite cons_middle, app_assoc in Hseen.
    assert (Hrow : row.1 ∉ seen).
    { apply NoDup_app in Hseen as (Hs & _ & _). apply NoDup_app in Hs as (_ & Hs & _). intros Hin. apply (Hs _ Hin). left. }
    assert (Hf : f seen row = if valid_vote h ids [] row then Ok (seen ++ [row.1])
                              else Raise (stored_error "stored governance vote is inconsistent")).
    { unfold f. destruct (valid_vote h ids seen row) eqn:E.
      - apply valid_vote_seen in E as [-> _]. done.
      - destruct (valid_vote h ids [] row) eqn:E'; [|done]. rewrite (proj2 (valid_vote_seen h ids seen row)) in E by done. done. }
    rewrite Hf. destruct (valid_vote h ids [] row) eqn:E.
    - cbn [mbind res_bind]. rewrite IH by done. split.
      + intros Hl r [->|Hr]%elem_of_cons; auto.
      + intros Hl r Hr. apply Hl. by right.
    - split; [by intros [out Ho]|]. intros Hl. rewrite (Hl row) in E by left. done. }
  apply (Hgen vs []). done.
Qed.

Lemma load_Ok k d l : load k d = Ok l <->
  l = (gt_sync d !! k, realm_proposals k d, realm_votes k d) /\
  match gt_sync d !! k with
  | None => realm_proposals k d = [] /\ realm_votes k d = []
  | Some s => realm_sound s (realm_proposals k d) (realm_votes k d)
  end.
Proof.
  unfold load. destruct (gt_sync d !! k) as [s|].
  - split.
    + intros Hl. inv_res. split; [done|]. destruct a0. apply foldM_res_unit in Ha0. rewrite Forall_forall in Ha0.
      split; [done| |lia|].
      * intros row Hrow. eapply require_Ok, (Ha0 row Hrow).
      * apply votes_fold; [apply NoDup_votes|]. by eexists.
    + intros (-> & [Hs Hp Hr Hv]). apply votes_fold in Hv as [seen Hv]; [|apply NoDup_votes].
      rewrite Hs. cbn [require mbind res_bind].
      rewrite (proj2 (foldM_res_unit (fun row => require (valid_proposal s.1 (realm_votes k d) row) _) _ tt)).
      2: { apply Forall_forall. intros row Hrow. by apply require_Ok, Hp. }
      cbn [mbind res_bind]. rewrite (proj2 (Z.leb_le _ _) Hr). cbn [require mbind res_bind]. by rewrite Hv.
  - split.
    + intros Hl. inv_res. apply Nat.eqb_eq in Ha. split; [done|]. split; apply nil_length_inv; lia.
    + intros (-> & -> & ->). done.
Qed.
End load.

(** ** What the statements write *)
Definition untouched (d d' : gstore) : Prop := gt_sync d' = gt_sync d /\ gt_indexer d' = gt_indexer d.
Lemma untouched_trans d1 d2 d3 : untouched d1 d2 -> untouched d2 d3 -> untouched d1 d3.
Proof. unfold untouched. intros [-> ->] [-> ->]. done. Qed.
Definition new_vote (height : Z) (l : list (string * vote_data)) (key : string) (old : option (observed vote_data))
    : option (observed vote_data) :=
  (fun v => upsert_observed height v old) <$> dict_get key l.

Lemma upsert_votes_after k h id l d d' : NoDup (dict_keys l) -> foldM_res (upsert_vote k h id) d l = Ok d' ->
  gt_proposals d' = gt_proposals d /\ untouched d d' /\
  forall kk i key, gt_votes d' !! (kk, i, key) =
    (if decide ((kk, i) = (k, id)) then
       match new_vote h l key (gt_votes d !! (kk, i, key)) with Some r => Some r | None => gt_votes d !! (kk, i, key) end
     else gt_votes d !! (kk, i, key)).
Proof.
  revert d. induction l as [|[key0 v] l IH]; intros d Hnd.
  { intros [= <-]. split; [done|]. split; [done|]. intros. by destruct (decide _). }
  cbn [foldM_res]. intros (d1 & Hd1 & Hl)%bind_Ok. cbn [dict_keys map fst] in Hnd. apply NoDup_cons in Hnd as [Hk Hnd].
  destruct (IH d1 Hnd Hl) as (Hp & Hu & Hv). unfold upsert_vote in Hd1. cbv zeta in Hd1. inv_res. cbn in Hp, Hu, Hv |- *.
  split; [done|]. split; [done|]. intros kk i key. rewrite Hv. unfold new_vote. cbn [dict_get].
  destruct (decide ((kk, i) = (k, id))) as [[= -> ->]|Hne].
  - destruct (String.eqb_spec key key0) as [->|Hkey].
    + rewrite (proj2 (dict_get_None key0 l)) by done. cbn. by rewrite lookup_insert_eq.
    + rewrite lookup_insert_ne by congruence. done.
  - rewrite lookup_insert_ne by congruence. done.
Qed.
Lemma deleted_votes k id keys d kk i key : gt_votes (delete_votes k id keys d) !! (kk, i, key) =
  (if decide ((kk, i) = (k, id)) then if in_strs key keys then gt_votes d !! (kk, i, key) else None else gt_votes d !! (kk, i, key)).
Proof.
  unfold delete_votes. cbn [gt_votes set_votes]. rewrite map_lookup_filter. cbn.
  destruct (gt_votes d !! (kk, i, key)) as [r|]; cbn; [|by destruct (decide _); [case_match|]].
  destruct (decide ((kk, i) = (k, id))) as [He|He]; destruct (in_strs key keys) eqn:Ek; case_guard as Hg; try done; exfalso; naive_solver.
Qed.

(** The rows of one realm after [rows] are stored at [h]. *)
Definition find_row (id : Z) (rows : list normalized) : option normalized := List.find (fun n => nz_id n =? id) rows.
Record written (k : realm_key) (h : Z) (rows : list normalized) (d d' : gstore) : Prop := {
  wr_same : untouched d d';
  wr_proposals : forall kk id, gt_proposals d' !! (kk, id) =
    match (if decide (kk = k) then find_row id rows else None) with
    | Some n => Some (upsert_observed h (nz_data n) (gt_proposals d !! (kk, id)))
    | None => gt_proposals d !! (kk, id)
    end;
  wr_votes : forall kk id key, gt_votes d' !! (kk, id, key) =
    match (if decide (kk = k) then find_row id rows else None) with
    | Some n => new_vote h (nz_votes n) key (gt_votes d !! (kk, id, key))
    | None => gt_votes d !! (kk, id, key)
    end
}.
Lemma find_row_Some id rows n : find_row id rows = Some n -> n ∈ rows /\ nz_id n = id.
Proof. intros Hf. apply find_some in Hf as [Hn Hi]. split; [by apply list_elem_of_In|lia]. Qed.
Lemma find_row_None id rows : find_row id rows = None -> id ∉ map nz_id rows.
Proof.
  intros Hf Hin. apply list_elem_of_fmap in Hin as (n & -> & Hn). apply list_elem_of_In in Hn.
  pose proof (find_none _ _ Hf n Hn) as Hc. simpl in Hc. lia.
Qed.
Lemma find_row_in n rows : NoDup (map nz_id rows) -> n ∈ rows -> find_row (nz_id n) rows = Some n.
Proof.
  induction rows as [|m rows IH]; [by intros _ ?%elem_of_nil|]. cbn [map]. intros [Hm Hnd]%NoDup_cons Hin.
  unfold find_row in *. cbn [List.find]. apply elem_of_cons in Hin as [->|Hin]; [by rewrite Z.eqb_refl|].
  destruct (Z.eqb_spec (nz_id m) (nz_id n)) as [He|_]; [|by apply IH]. destruct Hm. rewrite He. apply list_elem_of_fmap. by exists n.
Qed.

Lemma write_incremental_after k h n d d' : NoDup (dict_keys (nz_votes n)) -> write_incremental k h d n = Ok d' ->
  written k h [n] d d'.
Proof.
  intros Hnd. unfold write_incremental. intros (d1 & Hd1 & Hl)%bind_Ok. apply upsert_votes_after in Hl as (Hp & Hu & Hv); [|done].
  unfold upsert_proposal in Hd1. cbv zeta in Hd1. inv_res. cbn in Hp, Hu.
  assert (Hfind : forall kk id, (if decide (kk = k) then find_row id [n] else None) = if decide ((kk, id) = (k, nz_id n)) then Some n else None).
  { intros kk id. unfold find_row. cbn [List.find]. destruct (Z.eqb_spec (nz_id n) id) as [<-|Hne].
    - by destruct (decide (kk = k)) as [->|]; destruct (decide _); try done; congruence.
    - destruct (decide ((kk, id) = _)); [congruence|by destruct (decide _)]. }
  constructor; [done|..].
  - intros kk id. rewrite Hp, Hfind. destruct (decide _) as [[= -> ->]|Hne]; [by rewrite lookup_insert_eq|].
    by rewrite lookup_insert_ne by congruence.
  - intros kk id key. rewrite Hv, Hfind. rewrite !deleted_votes. cbn [gt_votes set_proposals].
    destruct (decide _) as [[= -> ->]|Hne]; [|done]. unfold new_vote. destruct (dict_get key (nz_votes n)) as [v|] eqn:E; cbn.
    + rewrite (proj2 (in_strs_spec key _)); [done|]. apply list_elem_of_fmap. exists (key, v). split; [done|]. by apply dict_get_In.
    + apply dict_get_None in E. destruct (in_strs key _) eqn:Es; [|done]. by apply in_strs_spec in Es.
Qed.
Lemma written_nil k h d : written k h [] d d.
Proof. constructor; [done|..]; intros; by destruct (decide _). Qed.
Lemma written_cons k h n rows d d1 d' : nz_id n ∉ map nz_id rows ->
  written k h [n] d d1 -> written k h rows d1 d' -> written k h (n :: rows) d d'.
Proof.
  intros Hn [A1 A2 A3] [B1 B2 B3]. constructor; [by eapply untouched_trans|..].
  - intros kk id. rewrite B2, A2. unfold find_row. cbn [List.find]. destruct (decide (kk = k)); [|done].
    destruct (Z.eqb_spec (nz_id n) id) as [<-|Hne]; [|done].
    destruct (List.find _ rows) as [m|] eqn:E; [|done]. apply find_row_Some in E as [Hm Hi]. destruct Hn.
    apply list_elem_of_fmap. by exists m.
  - intros kk id key. rewrite B3, A3. unfold find_row. cbn [List.find]. destruct (decide (kk = k)); [|done].
    destruct (Z.eqb_spec (nz_id n) id) as [<-|Hne]; [|done].
    destruct (List.find _ rows) as [m|] eqn:E; [|done]. apply find_row_Some in E as [Hm Hi]. destruct Hn.
    apply list_elem_of_fmap. by exists m.
Qed.
Lemma write_rows_after k h rows d d' : NoDup (map nz_id rows) -> Forall (fun n => NoDup (dict_keys (nz_votes n))) rows ->
  foldM_res (write_incremental k h) d rows = Ok d' -> written k h rows d d'.
Proof.
  revert d. induction rows as [|n rows IH]; intros d Hnd Hv.
  { intros [= <-]. apply written_nil. }
  apply Forall_cons in Hv as [Hn Hv]. cbn [map] in Hnd. apply NoDup_cons in Hnd as [Hi Hnd].
  cbn [foldM_res]. intros (d1 & Hd1 & Hl)%bind_Ok. eapply written_cons; [done|by apply write_incremental_after|by apply IH].
Qed.

(** ** What the validation of a discovery guarantees *)
Section rows.
Context `{PyRuntime} `{UnicodeText}.

Record row_ok (n : normalized) : Prop := {
  ro_id : 0 <= nz_id n;
  ro_data : valid_data (nz_data n) = true;
  ro_count : valid_vote_count (pc_votes_status (nz_data n)) (length (nz_votes n)) = true;
  ro_keys : NoDup (dict_keys (nz_votes n));
  ro_votes : forall key v, (key, v) ∈ nz_votes n -> valid_vote_data key v = true
}.

Lemma percentage_range f o : percentage f = Ok o -> percent_range o = true.
Proof.
  unfold percentage. destruct f as [f|]; [|by intros [= <-]].
  destruct (if isfinite f then _ else None) as [n|] eqn:E; [|done]. destruct (decimal_in_0_100 n) eqn:Hr; [|done].
  intros [= <-]. destruct (isfinite f); [|done]. apply scan_decimal_nonneg in E.
  pose proof (quantize_range 4 n ltac:(lia) E Hr). simpl. unfold between_Z. lia.
Qed.
Lemma power_bound s : power_re s = true ->
  0 <= digits_of (list_of_string s) /\ py_len (str_of_Z (digits_of (list_of_string s))) <= 78.
Proof.
  unfold power_re. rewrite !andb_true_iff, !Nat.leb_le. intros [[Hd Hl] Hu].
  pose proof (digits_of_range (list_of_string s)) as Hb.
  split; [lia|]. rewrite length_list_of_string in Hb. unfold str_of_Z. destruct (Z.ltb_spec (digits_of (list_of_string s)) 0); [lia|].
  apply py_len_str_of_nonneg; [lia|lia|].
  eapply Z.lt_le_trans; [apply Hb|]. apply Z.pow_le_mono_r; lia.
Qed.

Lemma normalize_vote_ok votes v votes' : normalize_vote votes v = Ok votes' ->
  NoDup (dict_keys votes) -> (forall key d, (key, d) ∈ votes -> valid_vote_data key d = true) ->
  length votes' = S (length votes) /\ NoDup (dict_keys votes') /\ (forall key d, (key, d) ∈ votes' -> valid_vote_data key d = true).
Proof.
  unfold normalize_vote, check. intros Hn Hnd Hv. cbv zeta in Hn. inv_res.
  rewrite length_app. split; [simpl; lia|]. rewrite !andb_true_iff, !negb_true_iff in *.
  destruct Ha as [Hw Hlen], Ha2 as [[Ht1 Ht2] Ht3], Ha4 as [Hk Hnew]. split.
  - unfold dict_keys. rewrite map_app. apply NoDup_app. split; [done|]. split; [|apply NoDup_singleton].
    intros x Hx ->%list_elem_of_singleton. simpl in Hx. apply in_strs_spec in Hx. congruence.
  - intros key d [Hin|Hin]%elem_of_app; [by apply Hv|]. apply list_elem_of_singleton in Hin as [= -> ->].
    unfold valid_vote_data. cbn [vc_display vc_address vc_option vc_tier vc_power].
    destruct (power_bound _ Ha3) as [Hp1 Hp2]. rewrite Hk, Ha0, String.eqb_refl, Ha1. cbn [andb].
    unfold bounded_nonempty at 2. rewrite Ht3.
    assert (Hd : bounded_nonempty 1000 (gv_voter_display v) = true).
    { unfold bounded_nonempty. rewrite Hlen, andb_true_r, negb_true_iff. destruct (String.eqb_spec (gv_voter_display v) "") as [He|]; [|done].
      rewrite He in Hw. done. }
    rewrite Hd. cbn [andb].
    destruct (String.eqb_spec (gv_tier v) "") as [He|]; [by rewrite He in Ht1|]. cbn [negb andb]. lia.
Qed.

Lemma normalize_votes_ok l votes : foldM_res normalize_vote [] l = Ok votes ->
  length votes = length l /\ NoDup (dict_keys votes) /\ (forall key d, (key, d) ∈ votes -> valid_vote_data key d = true).
Proof.
  assert (Hgen : forall acc, NoDup (dict_keys acc) -> (forall key d, (key, d) ∈ acc -> valid_vote_data key d = true) ->
    foldM_res normalize_vote acc l = Ok votes ->
    length votes = (length acc + length l)%nat /\ NoDup (dict_keys votes) /\
    (forall key d, (key, d) ∈ votes -> valid_vote_data key d = true)).
  { induction l as [|v l IH]; intros acc Hnd Hv; cbn [foldM_res].
    - intros [= <-]. split; [simpl; lia|done].
    - intros (acc' & Ha & Hl)%bind_Ok. destruct (normalize_vote_ok _ _ _ Ha Hnd Hv) as (Hlen & Hnd' & Hv').
      destruct (IH acc' Hnd' Hv' Hl) as (Hl' & ? & ?). split; [simpl; lia|done]. }
  intros Hl. apply Hgen in Hl; [done|constructor|by intros ? ? ?%elem_of_nil].
Qed.
Lemma raw_render_size discovery key render :
  forallb (fun kv => bytes_len kv.2 <=? MAX_RENDER_BYTES) (gd_raw_renders discovery) = true ->
  dict_get key (gd_raw_renders discovery) = Some render -> bytes_len render <= MAX_RENDER_BYTES.
Proof. rewrite forallb_forall. intros Hall Hk%dict_get_In%list_elem_of_In. apply Hall in Hk. simpl in Hk. lia. Qed.
Lemma normalize_proposal_ok discovery acc p acc' :
  forallb (fun kv => bytes_len kv.2 <=? MAX_RENDER_BYTES) (gd_raw_renders discovery) = true ->
  normalize_proposal discovery acc p = Ok acc' ->
  exists n, acc' = acc ++ [n] /\ row_ok n /\ (nz_id n ∉ map nz_id acc) /\ nz_id n = gp_proposal_id p /\
    pc_status (nz_data n) = gp_status p.
Proof.
  intros Hraw. unfold normalize_proposal, check. intros Hn. cbv zeta in Hn. inv_res.
  destruct (proposal_raw_renders discovery (gp_proposal_id p)) as [[rd|] [rv|]] eqn:Er; try done. inv_res.
  apply andb_prop in Ha16 as [_ Hw]. apply negb_true_iff in Ha0. injection Er as Hrd Hrv.
  eexists. split; [reflexivity|]. cbn [nz_id nz_data pc_status].
  match goal with Hf : foldM_res normalize_vote [] _ = Ok _ |- _ => destruct (normalize_votes_ok _ _ Hf) as (Hlen & Hnd & Hv) end.
  split; [|split; [|done]].
  - constructor; cbn [nz_id nz_data nz_votes pc_votes_status].
    + lia.
    + unfold valid_data. cbn [pc_title pc_author_display pc_author_address pc_status pc_tiers pc_description pc_executor_text
        pc_executor_realm pc_reason pc_yes pc_no pc_abstain pc_detail_status pc_warnings pc_raw_detail pc_raw_votes].
      rewrite Ha1, Ha2, Ha3, Ha4, Ha6, Ha7, Ha8, Ha9, Ha13, Hw.
      erewrite (percentage_range (gp_yes_percent p)), (percentage_range (gp_no_percent p)), (percentage_range (gp_abstain_percent p)) by eassumption.
      assert (Ht : forallb (bounded_nonempty 64) (gp_eligible_tiers p) = true).
      { rewrite forallb_forall in *. intros t Ht%Ha5. by apply andb_prop in Ht as [? _]. }
      rewrite Ht. cbn [andb]. apply (raw_render_size _ _ _ Hraw) in Hrd, Hrv. lia.
    + unfold valid_vote_count. rewrite length_sort_by, Hlen.
      unfold VOTE_STATUSES in Ha14. apply in_strs_spec in Ha14. rewrite !elem_of_cons, elem_of_nil in Ha14.
      destruct Ha14 as [Hs|[Hs|[Hs|[]]]]; rewrite Hs in *; [..|done]; by destruct (_ =? 0)%nat.
    + unfold dict_keys. by rewrite sort_by_perm.
    + intros key v. rewrite elem_of_sort_by. apply Hv.
  - intros (m & Hm & Hin)%list_elem_of_fmap. apply list_elem_of_In in Hin.
    match goal with He : existsb _ acc = false |- _ => rewrite <-not_true_iff_false, existsb_exists in He; apply He end.
    exists m. split; [done|]. lia.
Qed.
Lemma normalize_discovery_ok discovery chain rows : normalize_discovery discovery chain = Ok rows ->
  Forall row_ok rows /\ NoDup (map nz_id rows) /\ StronglySorted Z.le (map nz_id rows) /\
  map nz_id rows ≡ₚ map gp_proposal_id (gd_proposals discovery) /\
  1 <= gs_observed_height (gd_source discovery) /\ gs_chain_id (gd_source discovery) = chain /\
  (length rows <= MAX_GOVERNANCE_PROPOSALS)%nat /\
  between_Z 1 (Z.of_nat MAX_GOVERNANCE_PAGES) (gd_page_count discovery) = true.
Proof.
  unfold normalize_discovery, check. intros Hn. cbv zeta in Hn. inv_res.
  match goal with Hf : foldM_res (normalize_proposal discovery) [] ?l = Ok ?out |- _ =>
    assert (Hok : Forall row_ok out /\ NoDup (map nz_id out) /\ map nz_id out = map gp_proposal_id l /\ length out = length l); [|rename out into rows0] end.
  { match goal with Hf : foldM_res _ [] _ = Ok _ |- _ => revert Hf end.
    assert (Hgen : forall l acc out, Forall row_ok acc -> NoDup (map nz_id acc) ->
      foldM_res (normalize_proposal discovery) acc l = Ok out ->
      Forall row_ok out /\ NoDup (map nz_id out) /\ map nz_id out = map nz_id acc ++ map gp_proposal_id l /\
      length out = (length acc + length l)%nat).
    { induction l as [|p l IH]; intros acc out Hacc Hnd; cbn [foldM_res].
      - intros [= <-]. split; [done|]. split; [done|]. split; [by rewrite app_nil_r|simpl; lia].
      - intros (acc' & Hp & Hl)%bind_Ok. apply normalize_proposal_ok in Hp as (n & -> & Hn & Hni & Hid & _); [|done].
        apply IH in Hl as (? & ? & Hm & Hlen); cycle 1.
        + apply Forall_app. split; [done|]. by constructor.
        + rewrite map_app. apply NoDup_app. split; [done|]. split; [|apply NoDup_singleton].
          intros x Hx ->%list_elem_of_singleton. done.
        + split; [done|]. split; [done|]. rewrite Hm, map_app. cbn [map]. rewrite Hid, <-app_assoc. split; [done|].
          rewrite Hlen, length_app. simpl. lia. }
    intros Hf. destruct (Hgen _ _ _ (Forall_nil_2 _) (NoDup_nil_2) Hf) as (? & ? & ? & ?). done. }
  destruct Hok as (Hok & Hnd & Hids & Hlen).
  split. { rewrite Forall_forall in *. intros n Hn%elem_of_sort_by. by apply Hok. }
  split; [by rewrite sort_by_perm|]. split.
  { apply (StronglySorted_map (fun a b : normalized => (nz_id a <=? nz_id b) = true)); [intros x y; lia|].
    apply sort_by_sorted; [intros x y; lia|intros x y z; lia]. }
  split; [by rewrite sort_by_perm, Hids|]. split; [lia|]. split; [by apply String.eqb_eq|]. split; [|done].
  rewrite length_sort_by, Hlen. by apply Nat.leb_le.
Qed.
End rows.

(** ** The realm after its rows are written *)
Lemma NoDup_of_fst {A B} (l : list (A * B)) : NoDup l.*1 -> NoDup l.
Proof. apply NoDup_fmap_1. Qed.
Lemma sum_raw_perm ps qs : ps ≡ₚ qs -> sum_raw ps = sum_raw qs.
Proof. unfold sum_raw. induction 1; simpl; lia. Qed.
Lemma sum_raw_app ps qs : sum_raw (ps ++ qs) = sum_raw ps + sum_raw qs.
Proof. unfold sum_raw. induction ps as [|p ps IH]; simpl; [done|]. lia. Qed.
Lemma elem_of_List_filter {A} (p : A -> bool) l x : x ∈ List.filter p l <-> x ∈ l /\ p x = true.
Proof. rewrite !list_elem_of_In, filter_In. done. Qed.
Lemma NoDup_List_filter {A} (p : A -> bool) l : NoDup l -> NoDup (List.filter p l).
Proof.
  induction 1 as [|x l Hx _ IH]; simpl; [constructor|]. destruct (p x); [|done]. constructor; [|done].
  by intros [Hin _]%elem_of_List_filter.
Qed.

Section written.
Context (k : realm_key) (h : Z) (rows : list normalized) (d d' : gstore).
Context (Hw : written k h rows d d') (Hnd : NoDup (map nz_id rows)).

Definition row_after (n : normalized) : stored_proposal := (nz_id n, upsert_observed h (nz_data n) (gt_proposals d !! (k, nz_id n))).
Definition kept (r : stored_proposal) : bool := negb (existsb (fun n => nz_id n =? r.1) rows).
Lemma kept_true r : kept r = true <-> r.1 ∉ map nz_id rows.
Proof.
  unfold kept. rewrite negb_true_iff, <-not_true_iff_false, existsb_exists. split.
  - intros Hn (n & He & Hin)%list_elem_of_fmap. apply Hn. exists n. split; [by apply list_elem_of_In|]. lia.
  - intros Hn (n & Hin & He). apply Hn, list_elem_of_fmap. exists n. split; [lia|by apply list_elem_of_In].
Qed.
Lemma proposals_written : realm_proposals k d' ≡ₚ List.filter kept (realm_proposals k d) ++ map row_after rows.
Proof.
  apply NoDup_Permutation.
  - apply NoDup_of_fst, NoDup_proposals.
  - apply NoDup_app. split; [apply NoDup_List_filter, NoDup_of_fst, NoDup_proposals|]. split.
    + intros r [_ Hk%kept_true]%elem_of_List_filter (n & -> & Hn)%list_elem_of_fmap. apply Hk, list_elem_of_fmap. by exists n.
    + apply NoDup_of_fst. rewrite <-list_fmap_compose. exact Hnd.
  - intros [id r]. rewrite elem_of_proposals, elem_of_app, elem_of_List_filter, kept_true, elem_of_proposals, (wr_proposals _ _ _ _ _ Hw).
    destruct (decide (k = k)) as [_|]; [|done]. cbn [fst]. destruct (find_row id rows) as [n|] eqn:E.
    + apply find_row_Some in E as [Hn <-]. split.
      * intros [= <-]. right. apply list_elem_of_fmap. by exists n.
      * intros [[_ Hno]|(m & Hm & Hin)%list_elem_of_fmap]; [destruct Hno; apply list_elem_of_fmap; by exists n|].
        injection Hm as Hid ->. pose proof (find_row_in n rows Hnd Hn) as H1. pose proof (find_row_in m rows Hnd Hin) as H2.
        rewrite Hid in H1. congruence.
    + apply find_row_None in E. split; [by left|]. intros [[Hr _]|(m & Hm & Hin)%list_elem_of_fmap]; [done|].
      injection Hm as -> ->. destruct E. apply list_elem_of_fmap. by exists m.
Qed.
Lemma ids_written id : id ∈ (realm_proposals k d').*1 <-> id ∈ map nz_id rows \/ id ∈ (realm_proposals k d).*1.
Proof.
  rewrite proposals_written, fmap_app, elem_of_app. split.
  - intros [(r & -> & [Hr _]%elem_of_List_filter)%list_elem_of_fmap|Hr].
    + right. apply list_elem_of_fmap. by exists r.
    + left. rewrite <-list_fmap_compose in Hr. exact Hr.
  - intros [Hr|(r & -> & Hr)%list_elem_of_fmap].
    + right. rewrite <-list_fmap_compose. exact Hr.
    + destruct (decide (r.1 ∈ map nz_id rows)) as [Hin|Hout].
      * right. rewrite <-list_fmap_compose. exact Hin.
      * left. apply list_elem_of_fmap. exists r. split; [done|]. apply elem_of_List_filter. by rewrite kept_true.
Qed.
Lemma raw_written : sum_raw (map (fun r => ob_data r.2) (realm_proposals k d')) = final_raw_bytes (realm_proposals k d) rows.
Proof.
  erewrite sum_raw_perm; [|apply Permutation_map, proposals_written]. rewrite map_app, sum_raw_app. unfold final_raw_bytes. f_equal.
  by rewrite map_map.
Qed.

Lemma elem_of_votes_of k0 d0 id j r : (j, r) ∈ votes_of (realm_votes k0 d0) id <-> j.1 = id /\ gt_votes d0 !! (k0, j.1, j.2) = Some r.
Proof. unfold votes_of. rewrite elem_of_List_filter, elem_of_votes. cbn [fst]. rewrite Z.eqb_eq. naive_solver. Qed.
Lemma NoDup_votes_of k0 d0 id : NoDup (votes_of (realm_votes k0 d0) id).
Proof. apply NoDup_List_filter, NoDup_of_fst, NoDup_votes. Qed.
Lemma votes_kept id : find_row id rows = None -> length (votes_of (realm_votes k d') id) = length (votes_of (realm_votes k d) id).
Proof.
  intros Hf. apply Permutation_length, NoDup_Permutation; [apply NoDup_votes_of..|]. intros [j r].
  rewrite !elem_of_votes_of, (wr_votes _ _ _ _ _ Hw). destruct (decide (k = k)) as [_|]; [|done].
  split; intros [-> Hr]; rewrite Hf in *; done.
Qed.
Lemma votes_written n : n ∈ rows -> NoDup (dict_keys (nz_votes n)) ->
  length (votes_of (realm_votes k d') (nz_id n)) = length (nz_votes n).
Proof.
  intros Hn Hk.
  transitivity (length (map (fun v : string * vote_data =>
    ((nz_id n, v.1), upsert_observed h v.2 (gt_votes d !! (k, nz_id n, v.1)))) (nz_votes n))); [|apply length_map].
  apply Permutation_length, NoDup_Permutation; [apply NoDup_votes_of| |].
  - apply NoDup_of_fst. rewrite <-list_fmap_compose. 
    assert (Hinj : Inj (=) (=) (fun key : string => (nz_id n, key))) by (intros x y; congruence).
    apply (NoDup_fmap_2 (fun key => (nz_id n, key))) in Hk. unfold dict_keys in Hk. rewrite <-list_fmap_compose in Hk. exact Hk.
  - intros [[id key] r]. rewrite elem_of_votes_of, (wr_votes _ _ _ _ _ Hw). cbn [fst snd]. destruct (decide (k = k)) as [_|]; [|done].
    rewrite list_elem_of_fmap. split.
    + intros [-> Hr]. rewrite find_row_in in Hr by done. unfold new_vote in Hr.
      destruct (dict_get key (nz_votes n)) as [v|] eqn:E; [|done]. injection Hr as <-. exists (key, v).
      split; [done|]. by apply dict_get_In.
    + intros ([key' v] & [= -> -> ->] & Hv). split; [done|]. rewrite find_row_in by done. unfold new_vote.
      assert (He : dict_get key' (nz_votes n) = Some v).
      { clear -Hk Hv. induction (nz_votes n) as [|[j x] l IH]; [by apply elem_of_nil in Hv|]. cbn in *.
        apply NoDup_cons in Hk as [Hj Hk]. apply elem_of_cons in Hv as [[= -> ->]|Hv]; [by rewrite String.eqb_refl|].
        destruct (String.eqb_spec key' j) as [->|]; [|by apply IH]. destruct Hj. apply list_elem_of_fmap. by exists (j, v). }
      by rewrite He.
Qed.
End written.

(** ** The transactions *)
Section transactions.
Context `{PyRuntime} `{UnicodeText}.

Definition commit_sync (k : realm_key) (s : sync_state) (d : gstore) : gstore := set_sync (<[k := s]> (gt_sync d)) d.
Lemma upsert_sync_Ok k s d d' : upsert_sync k s d = Ok d' -> d' = commit_sync k s d.
Proof. unfold upsert_sync. destruct s as [h [[[p c] f] l]]. intros Hs. by inv_res. Qed.

Lemma heights_after {A} (old h : Z) (a : A) (o : option (observed A)) : 1 <= h ->
  (forall r, o = Some r -> valid_heights old r = true /\ old <= h) -> valid_heights h (upsert_observed h a o) = true.
Proof.
  unfold valid_heights, upsert_observed. intros Hh Ho. destruct o as [r|]; cbn; [|lia].
  destruct (Ho r eq_refl) as [Hr Hle]. lia.
Qed.
Lemma heights_mono {A} (old h : Z) (r : observed A) : old <= h -> valid_heights old r = true -> valid_heights h r = true.
Proof. unfold valid_heights. lia. Qed.

(** The facts of an accepted state that later writes build on. *)
Definition old_height (st : option sync_state) : Z := match st with Some s => s.1 | None => 0 end.
Record realm_facts (k : realm_key) (d : gstore) (old : Z) : Prop := {
  rf_proposals : forall id r, gt_proposals d !! (k, id) = Some r ->
    0 <= id /\ valid_data (ob_data r) = true /\
    valid_vote_count (pc_votes_status (ob_data r)) (length (votes_of (realm_votes k d) id)) = true /\ valid_heights old r = true;
  rf_votes : forall id key r, gt_votes d !! (k, id, key) = Some r ->
    is_Some (gt_proposals d !! (k, id)) /\ valid_vote_data key (ob_data r) = true /\ valid_heights old r = true
}.
Lemma load_facts k d l : load k d = Ok l -> realm_facts k d (old_height (gt_sync d !! k)).
Proof.
  intros [-> Hl]%load_Ok. destruct (gt_sync d !! k) as [s|]; cbn [old_height].
  - destruct Hl as [_ Hp _ Hv]. split.
    + intros id r Hr. apply elem_of_proposals, Hp in Hr. unfold valid_proposal in Hr. rewrite !andb_true_iff in Hr.
      destruct Hr as [[[Hi Hd] Hc] Hh]. split; [lia|]. done.
    + intros id key r Hr. apply (elem_of_votes k d (id, key)), Hv in Hr. unfold valid_vote in Hr. rewrite !andb_true_iff in Hr.
      destruct Hr as [[[Hi _] Hd] Hh]. split; [|done]. apply bool_decide_eq_true in Hi.
      apply list_elem_of_fmap in Hi as ([i p] & -> & Hp'). apply elem_of_proposals in Hp'. by eexists.
  - destruct Hl as [Hp Hv]. split.
    + intros id r Hr. apply elem_of_proposals in Hr. rewrite Hp in Hr. by apply elem_of_nil in Hr.
    + intros id key r Hr. apply (elem_of_votes k d (id, key)) in Hr. rewrite Hv in Hr. by apply elem_of_nil in Hr.
Qed.

Lemma head_least l : StronglySorted Z.le l -> forall x y, head l = Some x -> last l = Some y -> x <= y.
Proof.
  destruct 1 as [|a l Hl Ha]; intros x y; [done|]. intros [= ->] Hy. rewrite last_cons in Hy.
  destruct (last l) as [z|] eqn:E; injection Hy as <-; [|lia]. rewrite Forall_forall in Ha. apply Ha.
  by apply last_Some_elem_of.
Qed.
Lemma valid_state_intro h pages ps : 1 <= h -> between_Z 1 (Z.of_nat MAX_GOVERNANCE_PAGES) pages = true ->
  (length ps <= MAX_GOVERNANCE_PROPOSALS)%nat -> StronglySorted Z.le ps.*1 -> (forall r, r ∈ ps -> 0 <= r.1) ->
  valid_state (h, metadata_of pages ps.*1) ps = true.
Proof.
  intros Hh Hp Hlen Hs Hpos. unfold valid_state, metadata_of. rewrite length_fmap, Hp.
  rewrite (proj2 (Z.leb_le 1 h)) by done. rewrite Z.eqb_refl. unfold between_Z.
  rewrite (proj2 (Z.leb_le 0 (Z.of_nat (length ps)))) by lia.
  rewrite (proj2 (Z.leb_le (Z.of_nat (length ps)) (Z.of_nat MAX_GOVERNANCE_PROPOSALS))) by lia. cbn [andb].
  destruct (head ps.*1) as [x|] eqn:Ex.
  - assert (exists y, last ps.*1 = Some y) as [y Hy].
    { apply last_is_Some. intros He. by rewrite He in Ex. }
    rewrite Hy. pose proof (head_least _ Hs _ _ Ex Hy) as Hle.
    assert (Hx : x ∈ ps.*1) by by apply head_Some_elem_of.
    apply list_elem_of_fmap in Hx as (r & -> & Hr). pose proof (Hpos r Hr).
    change (map fst ps) with (ps.*1). rewrite Hy, Ex, !bool_decide_eq_true_2 by done.
    rewrite (proj2 (Z.leb_le 0 r.1)), (proj2 (Z.leb_le r.1 y)) by done. rewrite (proj2 (Z.ltb_lt _ _)); [done|].
    destruct ps; [by apply elem_of_nil in Hr|]. cbn [length]. lia.
  - destruct ps as [|r ps]; [done|]. done.
Qed.

(** An incremental write leaves a state [load] accepts. *)
Lemma written_load k h pages rows d d1 l :
  load k d = Ok l -> old_height (gt_sync d !! k) < h -> 1 <= h -> between_Z 1 (Z.of_nat MAX_GOVERNANCE_PAGES) pages = true ->
  Forall row_ok rows -> NoDup (map nz_id rows) -> written k h rows d d1 ->
  (length (realm_proposals k d1) <= MAX_GOVERNANCE_PROPOSALS)%nat ->
  final_raw_bytes (realm_proposals k d) rows <= MAX_TOTAL_RAW_BYTES ->
  exists l', load k (commit_sync k (h, metadata_of pages (realm_proposals k d1).*1) d1) = Ok l'.
Proof.
  intros Hload Hold Hh Hpages Hrows Hnd Hw Hlen Hraw. pose proof (load_facts _ _ _ Hload) as [Fp Fv].
  set (old := old_height (gt_sync d !! k)) in *. rewrite Forall_forall in Hrows.
  eexists. apply load_Ok. split; [reflexivity|]. cbn [commit_sync gt_sync set_sync]. rewrite lookup_insert_eq.
  change (realm_proposals k (commit_sync k _ d1)) with (realm_proposals k d1).
  change (realm_votes k (commit_sync k _ d1)) with (realm_votes k d1).
  assert (Hprop : forall id r, gt_proposals d1 !! (k, id) = Some r -> 0 <= id /\ valid_data (ob_data r) = true /\
    valid_vote_count (pc_votes_status (ob_data r)) (length (votes_of (realm_votes k d1) id)) = true /\ valid_heights h r = true).
  { intros id r. rewrite (wr_proposals _ _ _ _ _ Hw). destruct (decide (k = k)) as [_|]; [|done].
    destruct (find_row id rows) as [n|] eqn:E.
    - apply find_row_Some in E as [Hn <-]. intros [= <-]. destruct (Hrows n Hn) as [Hi Hd Hc Hk _]. cbn [ob_data upsert_observed].
      rewrite (votes_written k h rows d d1) by done. split; [done|]. split; [done|]. split; [done|].
      apply (heights_after old); [done|]. intros r Hr. destruct (Fp _ _ Hr) as (_ & _ & _ & Hv). split; [done|lia].
    - intros Hr. destruct (Fp _ _ Hr) as (Hi & Hd & Hc & Hv). rewrite (votes_kept k h rows d d1) by done.
      split; [done|]. split; [done|]. split; [done|]. eapply heights_mono; [|done]. lia. }
  split.
  - apply valid_state_intro; try done; [apply proposals_sorted|].
    intros [id r] Hr%elem_of_proposals. by apply (Hprop id r).
  - intros [id r] Hr%elem_of_proposals. destruct (Hprop _ _ Hr) as (Hi & Hd & Hc & Hv). unfold valid_proposal. cbn [fst].
    rewrite Hd, Hc, Hv. lia.
  - by rewrite (raw_written k h rows d d1).
  - intros [[id key] r] Hr. apply elem_of_votes in Hr. cbn [fst snd] in Hr. unfold valid_vote. cbn [fst].
    rewrite (bool_decide_eq_false_2 ((id, key) ∈ [])) by (by intros ?%elem_of_nil). cbn [negb]. rewrite !andb_true_iff.
    assert (Hin : is_Some (gt_proposals d1 !! (k, id)) -> bool_decide (id ∈ map fst (realm_proposals k d1)) = true).
    { intros [p Hp]. apply bool_decide_eq_true, list_elem_of_fmap. exists (id, p). split; [done|]. by apply elem_of_proposals. }
    rewrite (wr_votes _ _ _ _ _ Hw) in Hr. destruct (decide (k = k)) as [_|]; [|done].
    destruct (find_row id rows) as [n|] eqn:E.
    + unfold new_vote in Hr. destruct (dict_get key (nz_votes n)) as [v|] eqn:Ev; [|done]. injection Hr as <-.
      destruct (find_row_Some _ _ _ E) as [Hn Hi]. destruct (Hrows n Hn) as [_ _ _ _ Hv]. cbn [ob_data upsert_observed].
      split; [split; [split; [|done]|]|].
      * apply Hin. rewrite (wr_proposals _ _ _ _ _ Hw). destruct (decide (k = k)); [|done]. rewrite E. by eexists.
      * apply Hv. by apply dict_get_In.
      * apply (heights_after old); [done|]. intros r Hr. destruct (Fv _ _ _ Hr) as (_ & _ & Hv'). split; [done|lia].
    + destruct (Fv _ _ _ Hr) as (Hp & Hv & Hhh). split; [split; [split; [|done]|done]|].
      * apply Hin. rewrite (wr_proposals _ _ _ _ _ Hw). destruct (decide (k = k)); [|done]. by rewrite E.
      * eapply heights_mono; [|done]. lia.
Qed.

(** *** What a transaction does to the store *)
Definition readable (d : gstore) : Prop := forall k, exists l, load k d = Ok l.
Definition status_step (old new : string) : Prop := old = new \/ transition old new = true.
Record moves_forward (k : realm_key) (h : Z) (d d' : gstore) : Prop := {
  mv_height : old_height (gt_sync d !! k) <= h /\ fst <$> gt_sync d' !! k = Some h;
  mv_kept : forall id r, gt_proposals d !! (k, id) = Some r -> exists r', gt_proposals d' !! (k, id) = Some r' /\
    ob_first r' = ob_first r /\ ob_last r <= ob_last r' /\ status_step (pc_status (ob_data r)) (pc_status (ob_data r'));
  mv_other : forall kk, kk <> k -> gt_sync d' !! kk = gt_sync d !! kk /\
    (forall id, gt_proposals d' !! (kk, id) = gt_proposals d !! (kk, id)) /\
    (forall id key, gt_votes d' !! (kk, id, key) = gt_votes d !! (kk, id, key));
  mv_indexer : gt_indexer d' = gt_indexer d
}.
Lemma load_ext (k : realm_key) d d' : gt_sync d' !! k = gt_sync d !! k -> (forall id, gt_proposals d' !! (k, id) = gt_proposals d !! (k, id)) ->
  (forall id key, gt_votes d' !! (k, id, key) = gt_votes d !! (k, id, key)) -> load k d' = load k d.
Proof.
  intros Hs Hp Hv. unfold load. cbv zeta. rewrite (realm_proposals_ext k d d' Hp), (realm_votes_ext k d d' Hv).
  unfold sync_state in *. by rewrite Hs.
Qed.
Lemma readable_after k h d d' : moves_forward k h d d' -> readable d -> (exists l, load k d' = Ok l) -> readable d'.
Proof.
  intros Hm Hd Hk kk. destruct (decide (kk = k)) as [->|Hne]; [done|].
  destruct (mv_other _ _ _ _ Hm kk Hne) as (Hs & Hp & Hv). destruct (Hd kk) as [l Hl]. exists l. by rewrite (load_ext kk d d').
Qed.
Lemma moves_same k h d : fst <$> gt_sync d !! k = Some h -> moves_forward k h d d.
Proof.
  intros Hs. constructor; [|intros id r Hr; exists r; split_and!; [done..|by left]|done..]. split; [|done].
  destruct (gt_sync d !! k) as [s|]; [|done]. injection Hs as <-. done.
Qed.
Lemma find_stored_lookup k d id : find_stored id (realm_proposals k d) = gt_proposals d !! (k, id).
Proof.
  unfold find_stored. destruct (List.find _ _) as [[i r]|] eqn:E.
  - apply find_some in E as [Hin He]. cbn [fst] in He. apply Z.eqb_eq in He as ->. symmetry. apply elem_of_proposals.
    by apply list_elem_of_In.
  - destruct (gt_proposals d !! (k, id)) as [r|] eqn:Er; [|done]. apply elem_of_proposals, list_elem_of_In in Er.
    pose proof (find_none _ _ E _ Er) as Hc. cbn [fst] in Hc. by rewrite Z.eqb_refl in Hc.
Qed.
Lemma check_transition_Ok old new : check_transition (Some old) new = Ok tt -> status_step old new.
Proof. unfold check_transition. intros Hc%require_Ok. apply orb_prop in Hc as [Hc|Hc]; [left; by apply String.eqb_eq|by right]. Qed.

Lemma written_moves k h m rows d d1 l : load k d = Ok l -> old_height (gt_sync d !! k) <= h -> written k h rows d d1 ->
  (forall n r, n ∈ rows -> gt_proposals d !! (k, nz_id n) = Some r -> status_step (pc_status (ob_data r)) (pc_status (nz_data n))) ->
  moves_forward k h d (commit_sync k (h, m) d1).
Proof.
  intros Hl Hh Hw Hstep. pose proof (load_facts _ _ _ Hl) as [Fp _]. destruct (wr_same _ _ _ _ _ Hw) as [Hsy Hix].
  constructor; cbn [commit_sync gt_sync gt_proposals gt_votes gt_indexer set_sync].
  - by rewrite lookup_insert_eq.
  - intros id r Hr. rewrite (wr_proposals _ _ _ _ _ Hw). destruct (decide (k = k)) as [_|]; [|done].
    destruct (find_row id rows) as [n|] eqn:E; [|exists r; split_and!; [done..|by left]].
    apply find_row_Some in E as [Hn <-]. eexists. split; [reflexivity|]. rewrite Hr. cbn [upsert_observed ob_first ob_last ob_data].
    destruct (Fp _ _ Hr) as (_ & _ & _ & Hv). unfold valid_heights in Hv. split; [done|]. split; [lia|]. by apply Hstep.
  - intros kk Hne. rewrite lookup_insert_ne by done. split; [by rewrite Hsy|]. split; intros.
    + rewrite (wr_proposals _ _ _ _ _ Hw). by destruct (decide (kk = k)).
    + rewrite (wr_votes _ _ _ _ _ Hw). by destruct (decide (kk = k)).
  - done.
Qed.

(** *** A complete snapshot *)
Lemma write_proposal_row k h d n : row_ok n -> write_proposal k h d n = write_incremental k h d n.
Proof.
  intros [_ _ Hc _ _]. unfold write_proposal, write_incremental. destruct (nz_votes n) as [|v vs]; [|done].
  unfold valid_vote_count in Hc. cbn [length Nat.eqb negb andb map] in *. rewrite andb_false_r, andb_true_r in Hc. cbn [orb] in Hc.
  by rewrite Hc.
Qed.
Lemma write_checked_rows k h stored rows d d' : Forall row_ok rows -> foldM_res (write_checked k h stored) d rows = Ok d' ->
  Forall (fun n => check_transition (old_status (nz_id n) stored) (pc_status (nz_data n)) = Ok tt) rows /\
  foldM_res (write_incremental k h) d rows = Ok d'.
Proof.
  intros Hrows. revert d. induction Hrows as [|n rows Hn _ IH]; intros d; cbn [foldM_res]; [by intros [= <-]|].
  intros (d1 & Hd1 & Hl)%bind_Ok. destruct (IH d1 Hl) as [Hc Hf]. unfold write_checked in Hd1. apply bind_Ok in Hd1 as ([] & Ht & Hd1).
  split; [by constructor|]. rewrite <-write_proposal_row, Hd1 by done. done.
Qed.
Lemma row_keys rows : Forall row_ok rows -> Forall (fun n => NoDup (dict_keys (nz_votes n))) rows.
Proof. intros Hr. eapply Forall_impl; [exact Hr|]. by intros n []. Qed.

(** The two ways a transaction ends. *)
Record snapshot_stored (chain : string) (k : realm_key) (h : Z) (m : metadata) (c : content_data) (d d' : gstore) : Prop := {
  ss_moves : moves_forward k h d d';
  ss_loaded : exists ps vs, load k d' = Ok (Some (h, m), ps, vs) /\ stored_content ps vs = c
}.
Lemma snapshot_result discovery chain d r d' : persist_governance_snapshot_cursor discovery chain d = Ok (r, d') ->
  exists rows, normalize_discovery discovery chain = Ok rows /\
  let k := (gs_chain_id (gd_source discovery), gs_realm_path (gd_source discovery)) in
  snapshot_stored chain k (gs_observed_height (gd_source discovery)) (metadata_of (gd_page_count discovery) (map nz_id rows))
    (content rows) d d'.
Proof.
  unfold persist_governance_snapshot_cursor. intros (rows & Hn & Hp)%bind_Ok. exists rows. split; [done|]. cbv zeta in Hp |- *.
  set (k := (gs_chain_id _, _) : realm_key) in *. set (h := gs_observed_height _) in *. set (m := metadata_of _ _) in *.
  destruct (normalize_discovery_ok _ _ _ Hn) as (Hrows & Hnd & _).
  apply bind_Ok in Hp as (u & _ & Hp). apply bind_Ok in Hp as ([[state stored] votes] & Hl & Hp).
  pose proof (proj1 (load_Ok _ _ _) Hl) as [[= -> -> ->] _]. apply bind_Ok in Hp as (u' & Hstale & Hp).
  destruct (match _ with Some s => s.1 =? h | None => false end) eqn:Esame in Hp.
  - destruct (bool_decide _ && bool_decide _) eqn:Eb; [|discriminate Hp]. injection Hp as _ <-.
    apply andb_prop in Eb as [Hm%bool_decide_eq_true Hc%bool_decide_eq_true].
    destruct (gt_sync d !! k) as [[h0 m0]|] eqn:Es in *; [|discriminate Esame]. apply Z.eqb_eq in Esame. cbn [fst] in Esame. subst h0.
    injection Hm as ->. split; [apply moves_same; exact (f_equal (fmap fst) Es)|].
    do 2 eexists. split; [|exact Hc]. exact Hl.
  - apply bind_Ok in Hp as (u1 & _ & Hp). apply bind_Ok in Hp as (d1 & Hd1 & Hp). apply bind_Ok in Hp as (d2 & Hd2 & Hp).
    apply bind_Ok in Hp as ([[state' stored'] votes'] & Hl' & Hp). apply bind_Ok in Hp as (u2 & Hv & Hp). injection Hp as _ <-.
    apply require_Ok, andb_prop in Hv as [Hm%bool_decide_eq_true Hc%bool_decide_eq_true]. subst state'.
    apply upsert_sync_Ok in Hd2 as ->. apply write_checked_rows in Hd1 as [Ht Hd1]; [|done].
    apply write_rows_after in Hd1; [|done|by apply row_keys]. split; [|by eauto].
    eapply written_moves; [done| |done|].
    + apply raise_if_Ok in Hstale. destruct (gt_sync d !! k) as [s|]; cbn [old_height]; [lia|].
      destruct (normalize_discovery_ok _ _ _ Hn) as (_ & _ & _ & _ & Hh & _). subst h. lia.
    + intros n row Hin Hr. rewrite Forall_forall in Ht. specialize (Ht n Hin). unfold old_status in Ht.
      rewrite find_stored_lookup, Hr in Ht. by apply check_transition_Ok.
Qed.

(** *** A list with its refreshed proposals *)
Lemma find_summary_is_Some id l : is_Some (find_summary id l) <-> id ∈ map sp_proposal_id l.
Proof.
  unfold find_summary. rewrite list_elem_of_fmap. split.
  - intros [s [Hs Hi]%find_some]. exists s. split; [lia|by apply list_elem_of_In].
  - intros (s & -> & Hs%list_elem_of_In). destruct (List.find _ l) as [x|] eqn:E; [by eexists|].
    apply (find_none _ _ E) in Hs. cbn in Hs. lia.
Qed.
Lemma add_target_keys source summaries l targets : foldM_res (add_target source summaries) [] l = Ok targets ->
  NoDup (map fst targets) /\ forall id, id ∈ map fst targets -> id ∈ map sp_proposal_id summaries.
Proof.
  intros Hf. apply (foldM_res_inv (fun acc : list (Z * GovernanceDiscovery) => NoDup (map fst acc) /\
    forall id, id ∈ map fst acc -> id ∈ map sp_proposal_id summaries) _ l _ _) in Hf; [done|split; [constructor|by intros ? ?%elem_of_nil]|].
  intros acc t acc' _ [Hnd Hin]. unfold add_target, check. intros Ha. inv_res. destruct (gd_proposals t) as [|p [|]]; [done| |done].
  inv_res. rewrite map_app. cbn [map fst]. rewrite negb_true_iff, bool_decide_eq_false, !bool_decide_eq_true in *.
  split.
  - apply NoDup_app. split; [done|]. split; [|apply NoDup_singleton]. by intros x Hx ->%list_elem_of_singleton.
  - intros id [Hid|Hid]%elem_of_app; [by apply Hin|]. apply list_elem_of_singleton in Hid as ->. by apply find_summary_is_Some.
Qed.
Lemma normalize_target_ok source chain summaries id t n : normalize_target source chain summaries (id, t) = Ok n ->
  row_ok n /\ nz_id n = id /\
  (pc_status (nz_data n) = summary_status id summaries \/ summary_status id summaries = "UNKNOWN").
Proof.
  unfold normalize_target, check. intros (rows & Hn & Hr)%bind_Ok. apply normalize_discovery_ok in Hn as (Hok & _).
  destruct rows as [|m rows]; [done|]. inv_res. apply Forall_cons in Hok as [Hm _]. split; [done|]. split; [lia|].
  apply orb_prop in Ha0 as [Hs|Hs]; apply String.eqb_eq in Hs; auto.
Qed.
Lemma targets_rows source chain summaries targets rows : mapM_res (normalize_target source chain summaries) targets = Ok rows ->
  Forall row_ok rows /\ map nz_id rows = map fst targets /\
  (forall n, n ∈ rows -> pc_status (nz_data n) = summary_status (nz_id n) summaries \/ summary_status (nz_id n) summaries = "UNKNOWN").
Proof.
  intros Hm%mapM_res_Forall2. induction Hm as [|[id t] n targets rows Hn _ (Hr & Hi & Hs)].
  { split; [done|]. split; [done|]. by intros ? ?%elem_of_nil. }
  apply normalize_target_ok in Hn as (Hok & <- & Hst). split; [by constructor|]. split; [by cbn; rewrite Hi|].
  intros m [->|Hin]%elem_of_cons; auto.
Qed.
(** An UNKNOWN list status leaves every status of a target reachable. *)
Lemma status_step_listed old listed new : check_transition (Some old) listed = Ok tt -> in_strs new STATUSES = true ->
  new = listed \/ listed = "UNKNOWN" -> status_step old new.
Proof.
  intros Hc Hn [->| ->]; [by apply check_transition_Ok|]. unfold check_transition in Hc. apply require_Ok in Hc.
  assert (old = "UNKNOWN") as ->.
  { apply orb_prop in Hc as [Hc|Hc]; [by apply String.eqb_eq|]. unfold transition in Hc. cbn in Hc. by rewrite !andb_false_r in Hc. }
  unfold status_step. apply in_strs_spec in Hn. unfold STATUSES in Hn. rewrite !elem_of_cons in Hn.
  destruct Hn as [->|[->|[->|[->|[]%elem_of_nil]]]]; auto.
Qed.

Lemma elem_of_refresh summaries old id : id ∈ select_governance_refresh_ids summaries old <->
  exists s, s ∈ summaries /\ sp_proposal_id s = id /\ needs_refresh (old id) (sp_status s) = true.
Proof.
  unfold select_governance_refresh_ids. rewrite elem_of_sort_by, list_elem_of_fmap. setoid_rewrite elem_of_List_filter. split.
  - intros (s & -> & Hs & Hn). by exists s.
  - intros (s & Hs & <- & Hn). by exists s.
Qed.
Lemma new_ids k h rows d d1 summaries : written k h rows d d1 -> NoDup (map nz_id rows) -> NoDup (map sp_proposal_id summaries) ->
  let old := fun id => old_status id (realm_proposals k d) in
  (forall id, id ∈ (realm_proposals k d).*1 -> id ∈ map sp_proposal_id summaries) ->
  (forall id, id ∈ map nz_id rows <-> id ∈ select_governance_refresh_ids summaries old) ->
  (realm_proposals k d1).*1 = sort_by Z.leb (map sp_proposal_id summaries).
Proof.
  intros Hw Hnd Hns old Hst Hreq. apply (sorted_unique Z.le).
  - intros x y _ _; lia.
  - apply proposals_sorted.
  - rewrite <-(map_id (sort_by _ _)). apply (StronglySorted_map (fun x y => (x <=? y) = true)); [intros x y; lia|].
    apply sort_by_sorted; [intros x y; lia|intros x y z; lia].
  - apply NoDup_Permutation; [apply NoDup_proposals|by apply NoDup_sort_by|]. intros id.
    rewrite (ids_written k h rows d d1 Hw), elem_of_sort_by, Hreq, elem_of_refresh by done. split.
    + intros [(s & Hs & <- & _)|Hin]; [apply list_elem_of_fmap; by exists s|by apply Hst].
    + intros (s & -> & Hs)%list_elem_of_fmap. destruct (old (sp_proposal_id s)) as [o|] eqn:Eo.
      * right. unfold old, old_status in Eo. rewrite find_stored_lookup in Eo. destruct (gt_proposals d !! _) as [r|] eqn:Er; [|done].
        apply list_elem_of_fmap. exists (sp_proposal_id s, r). split; [done|]. by apply elem_of_proposals.
      * left. exists s. done.
Qed.
Lemma row_status n : row_ok n -> in_strs (pc_status (nz_data n)) STATUSES = true.
Proof. intros [_ Hd _ _ _]. unfold valid_data in Hd. rewrite !andb_true_iff in Hd. tauto. Qed.

Lemma incremental_applied k h pages count summaries required rows d r d' l :
  load k d = Ok l -> old_height (gt_sync d !! k) < h -> 1 <= h -> between_Z 1 (Z.of_nat MAX_GOVERNANCE_PAGES) pages = true ->
  NoDup (map sp_proposal_id summaries) -> (length summaries <= MAX_GOVERNANCE_PROPOSALS)%nat ->
  Forall row_ok rows -> NoDup (map nz_id rows) ->
  (forall n, n ∈ rows -> pc_status (nz_data n) = summary_status (nz_id n) summaries \/ summary_status (nz_id n) summaries = "UNKNOWN") ->
  (forall id, id ∈ (realm_proposals k d).*1 -> id ∈ map sp_proposal_id summaries) ->
  final_raw_bytes (realm_proposals k d) rows <= MAX_TOTAL_RAW_BYTES ->
  required = select_governance_refresh_ids summaries (fun id => old_status id (realm_proposals k d)) ->
  apply_incremental k h (metadata_of pages (sort_by Z.leb (map sp_proposal_id summaries))) pages count summaries
    (realm_proposals k d) required rows d = Ok (r, d') ->
  moves_forward k h d d' /\ exists l', load k d' = Ok l'.
Proof.
  intros Hl Hold Hh Hpages Hns Hlen Hrows Hnd Hstat Hst Hraw Hreq. unfold apply_incremental. intros Ha.
  apply bind_Ok in Ha as ([] & Htr & Ha). apply foldM_res_unit in Htr. rewrite Forall_forall in Htr.
  apply bind_Ok in Ha as (u1 & Hsub & Ha). apply bind_Ok in Ha as (u2 & Hsup & Ha).
  apply bind_Ok in Ha as (d1 & Hd1 & Ha). apply bind_Ok in Ha as (d2 & Hd2 & Ha). injection Ha as _ <-.
  apply upsert_sync_Ok in Hd2 as ->. apply write_rows_after in Hd1; [|done|by apply row_keys].
  assert (Hids : (realm_proposals k d1).*1 = sort_by Z.leb (map sp_proposal_id summaries)).
  { apply (new_ids k h rows d d1); try done. intros id. rewrite <-Hreq. apply require_Ok in Hsub, Hsup.
    rewrite forallb_forall in Hsub, Hsup. split.
    - intros (n & -> & Hn%list_elem_of_In)%list_elem_of_fmap. by apply Hsub, bool_decide_eq_true in Hn.
    - intros Hin%list_elem_of_In. by apply Hsup, bool_decide_eq_true in Hin. }
  split.
  - eapply written_moves; [done|lia|done|]. intros n row Hn Hr. rewrite Forall_forall in Hrows.
    apply (status_step_listed _ (summary_status (nz_id n) summaries)); [|by apply row_status, Hrows|by apply Hstat].
    apply elem_of_proposals, Htr in Hr. exact Hr.
  - rewrite <-Hids. eapply written_load; try done. transitivity (length summaries); [|done].
    apply Nat.eq_le_incl. transitivity (length ((realm_proposals k d1).*1)); [symmetry; apply length_fmap|].
    by rewrite Hids, length_sort_by, length_map.
Qed.
Lemma incremental_result listed targeted chain d r d' : persist_governance_incremental_cursor listed targeted chain d = Ok (r, d') ->
  let k := (gs_chain_id (gl_source listed), gs_realm_path (gl_source listed)) in
  moves_forward k (gs_observed_height (gl_source listed)) d d' /\ exists l, load k d' = Ok l.
Proof.
  unfold persist_governance_incremental_cursor. intros Hp. apply bind_Ok in Hp as (u0 & Hval & Hp). cbv zeta in Hp |- *.
  set (k := (gs_chain_id _, _) : realm_key) in *. set (h := gs_observed_height _) in *.
  apply bind_Ok in Hp as (u & _ & Hp). apply bind_Ok in Hp as ([[state stored] votes] & Hl & Hp).
  pose proof (proj1 (load_Ok _ _ _) Hl) as [[= -> -> ->] _]. apply bind_Ok in Hp as (u1 & Hstale & Hp).
  apply bind_Ok in Hp as (u2 & Hst & Hp). apply bind_Ok in Hp as (targets & Ht & Hp). apply bind_Ok in Hp as (rows & Hr & Hp).
  apply bind_Ok in Hp as (u3 & Hraw & Hp). apply add_target_keys in Ht as [Hnd _].
  apply targets_rows in Hr as (Hrows & Hids & Hstat). rewrite <-Hids in Hnd.
  unfold validate_list, check in Hval. cbv zeta in Hval. inv_res. rewrite bool_decide_eq_true in *.
  assert (Hst' : forall id, id ∈ (realm_proposals k d).*1 -> id ∈ map sp_proposal_id (gl_proposals listed)).
  { intros id (row & -> & Hin%list_elem_of_In)%list_elem_of_fmap. rewrite forallb_forall in Hst.
    by apply Hst, bool_decide_eq_true, find_summary_is_Some in Hin. }
  destruct (gt_sync d !! k) as [[h0 m0]|] eqn:Es in *; [destruct (h0 =? h) eqn:Eh|].
  - apply bind_Ok in Hp as (u4 & _ & Hp). injection Hp as _ <-. apply Z.eqb_eq in Eh as ->.
    split; [apply moves_same; exact (f_equal (fmap fst) Es)|by eexists].
  - eapply incremental_applied; try done; [|subst h; lia|by apply Nat.leb_le|lia]. rewrite Es. cbn in *. subst h. lia.
  - eapply incremental_applied; try done; [|subst h; lia|by apply Nat.leb_le|lia]. rewrite Es. cbn in *. subst h. lia.
Qed.

(** *** Sequences of transactions *)
Inductive store_transaction : realm_key -> Z -> gstore -> gstore -> Prop :=
| stores_snapshot discovery chain d r d' : persist_governance_snapshot_cursor discovery chain d = Ok (r, d') ->
    store_transaction (gs_chain_id (gd_source discovery), gs_realm_path (gd_source discovery))
      (gs_observed_height (gd_source discovery)) d d'
| stores_list listed targeted chain d r d' : persist_governance_incremental_cursor listed targeted chain d = Ok (r, d') ->
    store_transaction (gs_chain_id (gl_source listed), gs_realm_path (gl_source listed))
      (gs_observed_height (gl_source listed)) d d'.
Lemma transaction_safe k h d d' : readable d -> store_transaction k h d d' -> readable d' /\ moves_forward k h d d'.
Proof.
  intros Hd Ht. revert Hd. destruct Ht as [discovery chain d r d' Ht|listed targeted chain d r d' Ht]; intros Hd.
  - apply snapshot_result in Ht as (rows & _ & [Hm (ps & vs & Hl & _)]). split; [|done].
    eapply readable_after; [exact Hm|done|by eexists].
  - apply incremental_result in Ht as [Hm Hl]. split; [|done]. by eapply readable_after.
Qed.
Definition store_step (d d' : gstore) : Prop := exists k h, store_transaction k h d d'.

(** Heights do not decrease and no proposal or its first height is lost. *)
Record forward (d d' : gstore) : Prop := {
  fw_height : forall k, old_height (gt_sync d !! k) <= old_height (gt_sync d' !! k);
  fw_kept : forall k id r, gt_proposals d !! (k, id) = Some r -> exists r', gt_proposals d' !! (k, id) = Some r' /\
    ob_first r' = ob_first r /\ ob_last r <= ob_last r' /\ status_step (pc_status (ob_data r)) (pc_status (ob_data r'))
}.
Lemma transition_spec a b : transition a b = true <->
  (a = "ACTIVE" /\ (b = "ACCEPTED" \/ b = "REJECTED")) \/
  (a = "UNKNOWN" /\ (b = "ACTIVE" \/ b = "ACCEPTED" \/ b = "REJECTED")).
Proof.
  unfold transition. rewrite orb_true_iff, !andb_true_iff, !String.eqb_eq, !in_strs_spec, !elem_of_cons, elem_of_nil. naive_solver.
Qed.
Lemma status_step_trans a b c : status_step a b -> status_step b c -> status_step a c.
Proof. unfold status_step. rewrite !transition_spec. naive_solver. Qed.
Lemma forward_refl d : forward d d.
Proof. constructor; [done|]. intros k id r Hr. exists r. split_and!; [done..|by left]. Qed.
Lemma forward_trans d1 d2 d3 : forward d1 d2 -> forward d2 d3 -> forward d1 d3.
Proof.
  intros [H1 K1] [H2 K2]. constructor; [intros k; specialize (H1 k); specialize (H2 k); lia|].
  intros k id r (r2 & Hr2 & F2 & L2 & S2)%K1. apply K2 in Hr2 as (r3 & Hr3 & F3 & L3 & S3). exists r3.
  split_and!; [done|congruence|lia|by eapply status_step_trans].
Qed.
Lemma moves_forward_forward k h d d' : moves_forward k h d d' -> forward d d'.
Proof.
  intros [[Hh Hs] Hk Ho _]. constructor.
  - intros kk. destruct (decide (kk = k)) as [->|Hne]; [|by rewrite (proj1 (Ho kk Hne))].
    destruct (gt_sync d' !! k) as [s|]; [|done]. injection Hs as Hs. cbn [old_height]. lia.
  - intros kk id r Hr. destruct (decide (kk = k)) as [->|Hne]; [by apply Hk|]. exists r.
    split; [by rewrite (proj1 (proj2 (Ho kk Hne)))|]. split_and!; [done..|by left].
Qed.
Lemma steps_safe d d' : rtc store_step d d' -> readable d -> readable d' /\ forward d d'.
Proof.
  induction 1 as [d|d d1 d2 (k & h & Ht) _ IH]; intros Hd; [split; [done|apply forward_refl]|].
  apply transaction_safe in Ht as [Hd1 Hm]; [|done]. destruct (IH Hd1) as [Hd2 Hf]. split; [done|].
  eapply forward_trans; [by eapply moves_forward_forward|done].
Qed.
End transactions.

(** ** The claims *)
Section claims.
Context `{PyRuntime} `{UnicodeText}.

(** C35. Storing governance never damages the store: from a store every
    realm of which [load] accepts, any sequence of complete and incremental
    snapshots, of any realms and chains, leaves one [load] accepts; the height
    of a realm never decreases, no proposal disappears, the height it was first
    observed at never changes, the height of its last observation does not
    decrease, and its status is the same or an allowed transition of it. *)
Theorem governance_store_invariant d d' : readable d -> rtc store_step d d' -> readable d' /\ forward d d'.
Proof. intros Hd Hs. by apply steps_safe. Qed.

(** C36. A complete snapshot is stored exactly: when the transaction returns,
    the discovery was a valid one of the configured chain, what [load] reads
    back are its height, its metadata and the normalised proposals and votes,
    sorted, and nothing else; other realms and the indexer's row are untouched. *)
Theorem governance_snapshot_refines discovery chain d r d' :
  persist_governance_snapshot_cursor discovery chain d = Ok (r, d') ->
  let k := (gs_chain_id (gd_source discovery), gs_realm_path (gd_source discovery)) in
  let h := gs_observed_height (gd_source discovery) in
  exists rows ps vs, normalize_discovery discovery chain = Ok rows /\
    map nz_id rows ≡ₚ map gp_proposal_id (gd_proposals discovery) /\ StronglySorted Z.le (map nz_id rows) /\
    load k d' = Ok (Some (h, metadata_of (gd_page_count discovery) (map nz_id rows)), ps, vs) /\
    stored_content ps vs = content rows /\ moves_forward k h d d'.
Proof.
  intros Hp k h. apply snapshot_result in Hp as (rows & Hn & [Hm (ps & vs & Hl & Hc)]).
  exists rows, ps, vs. by pose proof (normalize_discovery_ok _ _ _ Hn) as (_ & _ & Hs & Hids & _).
Qed.
End claims.

(** *** A concrete snapshot *)
#[local] Existing Instance ascii_runtime.
#[local] Instance plain_text : UnicodeText := {| casefold_char c := c; is_word_char c := false |}.
Definition demo_source : GovernanceSource := Build_GovernanceSource "dev" "http://a" 40 "gno.land/r/gov/dao".
Definition demo_proposal : GovernanceProposalDetail :=
  Build_GovernanceProposalDetail 1 "Raise the fee" (Some "ann") None "ACTIVE" ["T1"] "text" None None None None None None
    "parsed" "parsed" [Build_GovernanceVote "ann" None "YES" "T1" "12"] [].
Definition demo_discovery : GovernanceDiscovery :=
  Build_GovernanceDiscovery demo_source true 1 [demo_proposal] []
    [("list/root", "# list"); (proposal_key 1, "# detail"); (proposal_key 1 +:+ "/votes", "# votes")].
Definition empty_store : gstore := GStore ∅ ∅ ∅ None.
Definition demo_stored : gstore :=
  match persist_governance_snapshot_cursor demo_discovery "dev" empty_store with Ok (_, d) => d | Raise _ => empty_store end.
Lemma demo_persisted : exists r, persist_governance_snapshot_cursor demo_discovery "dev" empty_store = Ok (r, demo_stored) /\
  ga_action r = "applied" /\ ga_inserted_proposals r = 1 /\ ga_vote_count r = 1.
Proof. eexists. split; [vm_compute; reflexivity|done]. Qed.
Lemma readable_empty : readable empty_store.
Proof. intros k. eexists. reflexivity. Qed.

Lemma governance_store_invariant_witness : readable demo_stored /\ forward empty_store demo_stored.
Proof.
  apply (governance_store_invariant empty_store demo_stored readable_empty). apply rtc_once.
  destruct demo_persisted as (r & Hr & _). do 2 eexists. apply (stores_snapshot _ _ _ _ _ Hr).
Defined.
Lemma governance_snapshot_refines_witness : exists rows ps vs, normalize_discovery demo_discovery "dev" = Ok rows /\
  map nz_id rows ≡ₚ [1] /\ StronglySorted Z.le (map nz_id rows) /\
  load ("dev", "gno.land/r/gov/dao") demo_stored = Ok (Some (40, metadata_of 1 (map nz_id rows)), ps, vs) /\
  stored_content ps vs = content rows /\ moves_forward ("dev", "gno.land/r/gov/dao") 40 empty_store demo_stored.
Proof. destruct demo_persisted as (r & Hr & _). exact (governance_snapshot_refines _ _ _ _ _ Hr). Defined.
