(* ===== verification/GovernanceUpdater.v ===== *)
(** * indexer/governance_updater.py: the continuous governance updater

    One cycle probes the endpoints and tries the suitable ones in order: it
    discovers the proposals with the ABCI client of InspectRpc.v and stores
    them in one transaction of GovernanceStore.v.  The loop chooses between
    complete and quick cycles, waits, and backs off after a failure.
    Everything outside (network, clock, connection, stop requests) is the
    interface [GovernanceEnvironment].  The updater is the only writer of the
    governance tables.  Logging, with the host names it prints, is not
    modelled. *)
From Stdlib Require Import ZArith NArith Lia Ascii String SpecFloat.
From stdpp Require Import base gmap sets list strings sorting.
From S2P Require Import Prelude Query PyStr PyVal Codec Json PyFloat InspectRpc Rpc Selection Indexed Valopers ValopersStore.
From S2P Require Import Governance GovernanceStore GovernanceSafety.
Open Scope Z_scope.

(** ** Configuration *)
Record GovernanceUpdaterConfig := {
  gu_database_url : string;
  gu_rpc_urls : list string;
  gu_chain_id : string;
  gu_realm : string;
  gu_max_height_lag : Z;
  refresh_interval_seconds : Z;
  full_reconcile_interval_seconds : Z;
  gu_error_backoff_seconds : Z;
  gu_max_backoff_seconds : Z
}.
Definition fatal (msg : string) : exc := FatalGovernanceUpdaterError msg.
Definition validate_config (c : GovernanceUpdaterConfig) : res unit :=
  _ ← raise_if (String.eqb (gu_database_url c) "") (fatal "DATABASE_URL is required");
  _ ← raise_if (negb (startswith "gno.land/r/" (gu_realm c)) || py_contains ":" (gu_realm c)) (fatal "invalid governance realm");
  _ ← raise_if (existsb (fun v => v <? 1) [refresh_interval_seconds c; full_reconcile_interval_seconds c;
                                            gu_error_backoff_seconds c; gu_max_backoff_seconds c])
        (fatal "governance intervals must be positive integers");
  _ ← raise_if (full_reconcile_interval_seconds c <? refresh_interval_seconds c)
        (fatal "refresh interval must not exceed full reconcile interval");
  raise_if (gu_max_backoff_seconds c <? gu_error_backoff_seconds c) (fatal "error backoff must not exceed max backoff").

(** ** The outside *)
Class GovernanceEnvironment (E : Type) := {
  ge_stop : E -> StopController;
  ge_wait : Z -> E -> bool * E;
  ge_clock : E -> float * E;
  ge_statuses : E -> (string -> res val) * (string -> float) * E;
  (* [client.get("abci_query", **params)] of the endpoint *)
  ge_abci : string -> list (string * val) -> E -> res val * E;
  ge_connect : E -> res unit * E;
  ge_commit : E -> commit_outcome * E
}.
Record GovernanceWorld (E : Type) := GWorld { gw_store : gstore; gw_env : E }.
Arguments GWorld {E} gw_store gw_env.
Arguments gw_store {E} _.
Arguments gw_env {E} _.

(** [except RETRYABLE_ENDPOINT_ERRORS] *)
Definition retryable (e : exc) : bool :=
  isinstance_RpcError e
  || match e with GovernanceParseError _ | IncompleteGovernanceSnapshot _ | StaleGovernanceSnapshot _ => true | _ => false end.
(** [except (GovernanceChainIdentityError, GovernanceStoredStateError): raise] *)
Definition stops_updater (e : exc) : bool :=
  match e with GovernanceChainIdentityError _ | GovernanceStoredStateError _ => true | _ => false end.

Section updater.
Context `{PyRuntime} `{UnicodeText} {E : Type} `{GovernanceEnvironment E}.
#[local] Abbreviation world := (GovernanceWorld E).
#[local] Abbreviation query := (Query.query (W:=world)).
#[local] Notation "'let*' p := m 'in' k" := (and_then m (fun p => k))
  (at level 10, p strict pattern, m at level 200, k at level 200).

Definition outside {A} (op : E -> A * E) (w : world) : A * world :=
  let '(a, e) := op (gw_env w) in (a, GWorld (gw_store w) e).
Definition stop_requested (w : world) : bool := requested (ge_stop (gw_env w)).

(** *** The database methods *)
Definition transaction {A} (cursor : gstore -> res (A * gstore)) : query A := fun w =>
  match outside ge_connect w with
  | (Raise e, w) => (Raise e, w)
  | (Ok _, w) =>
      match cursor (gw_store w) with
      | Raise e => (Raise e, w)
      | Ok (a, d) => match outside ge_commit w with
                     | (Committed, w) => (Ok a, GWorld d (gw_env w))
                     | (RolledBack e, w) => (Raise e, w)
                     | (Unacknowledged e, w) => (Raise e, GWorld d (gw_env w))
                     end
      end
  end.
Definition persist_governance_snapshot (discovery : GovernanceDiscovery) (chain_id : string) : query GovernancePersistenceResult :=
  transaction (persist_governance_snapshot_cursor discovery chain_id).
Definition persist_governance_incremental (listed : GovernanceListDiscovery) (targeted : list GovernanceDiscovery)
    (chain_id : string) : query GovernancePersistenceResult :=
  transaction (persist_governance_incremental_cursor listed targeted chain_id).
Definition governance_statuses (chain_id realm_path : string) : query (list (Z * string)) :=
  transaction (fun d => Ok (map (fun r => (r.1, pc_status (ob_data r.2))) (realm_proposals (chain_id, realm_path) d), d)).
Definition status_of (statuses : list (Z * string)) (id : Z) : option string :=
  snd <$> List.find (fun kv => kv.1 =? id) statuses.

(** *** The client of one endpoint: a refused query sends no request. *)
Definition client_query (url path data : string) (height : Z) : query string := fun w =>
  if String.eqb path "" || negb (is_Ok (abci_height_check (VInt height))) then
    (abci_query (fun _ => Raise (RpcError "request")) path (VStr data) (VInt height), w)
  else let '(answer, w) := outside (ge_abci url (abci_params path data (VInt height))) w in
       (abci_query (fun _ => answer) path (VStr data) (VInt height), w).
Definition client_of (url : string) : GovernanceClient world := {| gov_query := client_query url |}.

(** *** One cycle *)
Definition all_failed (msg : string) : exc := AllGovernanceRpcAttemptsFailed msg.
Definition source_of (config : GovernanceUpdaterConfig) (url : string) (selected : selected_rpc) : GovernanceSource :=
  Build_GovernanceSource (gu_chain_id config) (py_rstrip_char "/" url) (sr_latest_height selected) (gu_realm config).
(** [_candidates] *)
Definition candidates (config : GovernanceUpdaterConfig) : query (list selected_rpc) := fun w =>
  let '(get, elapsed, e) := ge_statuses (gw_env w) in
  let w := GWorld (gw_store w) e in
  match probe_rpc_endpoints (gu_rpc_urls config) (gu_chain_id config) (gu_max_height_lag config) get elapsed with
  | Raise x => (Raise x, w)
  | Ok probes => match suitable_rpc_candidates probes with
                 | [] => (Raise (all_failed "No suitable Governance RPC candidates"), w)
                 | cs => (Ok cs, w)
                 end
  end.
(** The [for] loop over the candidates with its [else]. *)
Fixpoint attempts {A} (attempt : selected_rpc -> query A) (cs : list selected_rpc) : query A := fun w =>
  match cs with
  | [] => (Raise (all_failed "All suitable Governance RPC attempts failed"), w)
  | c :: cs => match attempt c w with
               | (Ok a, w) => (Ok a, w)
               | (Raise e, w) => if retryable e then attempts attempt cs w else (Raise e, w)
               end
  end.

(** The body of the [try] of [run_full_cycle], the client given by its URL. *)
Definition full_attempt (config : GovernanceUpdaterConfig) (selected : selected_rpc) : query GovernancePersistenceResult :=
  match sr_client selected with
  | None => pure (Raise AttributeError)
  | Some c =>
      let url := cl_url c in
      let* discovery := discover_governance (H1:=client_of url) (source_of config url selected)
                          MAX_GOVERNANCE_PAGES MAX_GOVERNANCE_PROPOSALS None true in
      persist_governance_snapshot discovery (gu_chain_id config)
  end.
Definition run_full_cycle (config : GovernanceUpdaterConfig) : query GovernancePersistenceResult :=
  let* cs := candidates config in
  attempts (full_attempt config) cs.

(** The [for] loop over the listed proposals. *)
Fixpoint refresh_targets (url : string) (source : GovernanceSource) (selected_ids : list Z)
    (summaries : list GovernanceProposalSummary) : query (list GovernanceDiscovery) :=
  match summaries with
  | [] => pure (Ok [])
  | summary :: rest =>
      if bool_decide (sp_proposal_id summary ∈ selected_ids) then
        let* found := discover_governance_proposal (H1:=client_of url) source summary true in
        let* targeted := refresh_targets url source selected_ids rest in
        pure (Ok (found :: targeted))
      else refresh_targets url source selected_ids rest
  end.
Definition quick_attempt (config : GovernanceUpdaterConfig) (stored : list (Z * string)) (selected : selected_rpc)
    : query GovernancePersistenceResult :=
  match sr_client selected with
  | None => pure (Raise AttributeError)
  | Some c =>
      let url := cl_url c in
      let source := source_of config url selected in
      let* listed := discover_governance_list (H1:=client_of url) source MAX_GOVERNANCE_PAGES MAX_GOVERNANCE_PROPOSALS true in
      let selected_ids := select_governance_refresh_ids (gl_proposals listed) (status_of stored) in
      let* targeted := refresh_targets url source selected_ids (gl_proposals listed) in
      persist_governance_incremental listed targeted (gu_chain_id config)
  end.
Definition run_quick_cycle (config : GovernanceUpdaterConfig) : query GovernancePersistenceResult :=
  let* cs := candidates config in
  let* stored := governance_statuses (gu_chain_id config) (gu_realm config) in
  attempts (quick_attempt config stored) cs.

(** *** The loop *)
(** [StopController.wait] *)
Definition stop_wait (seconds : Z) (w : world) : world :=
  if stop_requested w then w else (outside (ge_wait seconds) w).2.
Definition full_due (config : GovernanceUpdaterConfig) (full_once : bool) (last_full : option float) (now : float) : bool :=
  full_once || match last_full with
               | None => true
               | Some t => num_leb (VInt (full_reconcile_interval_seconds config)) (VFloat (f_sub now t))
               end.
Definition reached_cycles (max_cycles : option Z) (cycles : Z) : bool :=
  match max_cycles with Some n => n <=? cycles | None => false end.

(** [None] is running out of fuel. *)
Fixpoint updater_loop (config : GovernanceUpdaterConfig) (once full_once : bool) (max_cycles : option Z) (fuel : nat)
    (cycles : Z) (last_full : option float) (backoff : Z) (w : world) : option (res Z * world) :=
  match fuel with
  | O => None
  | S fuel =>
      if stop_requested w then Some (Ok 0, w) else
      let '(now, w) := outside ge_clock w in
      let full := full_due config full_once last_full now in
      match (if full then run_full_cycle config w else run_quick_cycle config w) with
      | (Ok _, w) =>
          let '(last_full, w) := if full then let '(t, w) := outside ge_clock w in (Some t, w) else (last_full, w) in
          let cycles := cycles + 1 in
          if once || full_once || reached_cycles max_cycles cycles then Some (Ok 0, w)
          else updater_loop config once full_once max_cycles fuel cycles last_full (gu_error_backoff_seconds config)
                 (stop_wait (refresh_interval_seconds config) w)
      | (Raise e, w) =>
          if stops_updater e then Some (Raise e, w)
          else updater_loop config once full_once max_cycles fuel cycles last_full
                 (Z.min (backoff * 2) (gu_max_backoff_seconds config)) (stop_wait backoff w)
      end
  end.
Definition run_updater (config : GovernanceUpdaterConfig) (once full_once : bool) (max_cycles : option Z) (fuel : nat) (w : world)
    : option (res Z * world) :=
  match validate_config config with
  | Raise e => Some (Raise e, w)
  | Ok _ => updater_loop config once full_once max_cycles fuel 0 None (gu_error_backoff_seconds config) w
  end.
End updater.

(** ** Discovery only queries *)
Section keeps.
Context {W : Type} (R : W -> W -> Prop) `{!PreOrder R}.
#[local] Abbreviation keeps := (Query.keeps R).

Context `{PyRuntime} `{UnicodeText} `{GovernanceClient W} (Hq : forall path data h, keeps (gov_query path data h)).
#[local] Hint Resolve Hq : keeps.
Ltac keeps := repeat first [apply keeps_pure, _|solve [eauto with keeps]|apply keeps_and_then; [exact _| |intros]|case_match].

Lemma keeps_fetch source path : keeps (fetch_render source path).
Proof. unfold fetch_render. keeps. Qed.
#[local] Hint Resolve keeps_fetch : keeps.
Lemma keeps_visit_page source n raw path t : keeps (visit_page source n raw path t).
Proof. unfold visit_page. keeps. Qed.
Lemma keeps_visit_pages source n raw budget : forall queue t, keeps (visit_pages source n raw budget queue t).
Proof.
  induction budget as [|budget IHb]; induction queue as [|path queue IHq]; intros t; cbn [visit_pages]; keeps.
Qed.
#[local] Hint Resolve keeps_visit_pages : keeps.
Lemma keeps_discover_list source pages n raw : keeps (discover_governance_list source pages n raw).
Proof. unfold discover_governance_list. keeps. Qed.
Lemma keeps_discover_proposal source summary raw : keeps (discover_governance_proposal source summary raw).
Proof. unfold discover_governance_proposal, fetch_proposal. keeps. Qed.
#[local] Hint Resolve keeps_discover_list keeps_discover_proposal : keeps.
Lemma keeps_discover_details source raw l : forall details found, keeps (discover_details source raw l details found).
Proof. induction l as [|s l IH]; intros details found; cbn [discover_details]; keeps. Qed.
#[local] Hint Resolve keeps_discover_details : keeps.
Lemma keeps_discover source pages n id raw : keeps (discover_governance source pages n id raw).
Proof. unfold discover_governance. keeps. Qed.
End keeps.

(** ** What a cycle does to the store *)

(** Waiting without a stop request cannot go on for ever ([ge_patience] is how
    many more waits end without one); psycopg's errors are none of the
    retryable ones. *)
Class GovernanceEnvironmentLaws {E} `{GovernanceEnvironment E} := {
  ge_patience : E -> nat;
  law_wait n e : (ge_patience (ge_wait n e).2 <= ge_patience e)%nat /\
    (requested (ge_stop (ge_wait n e).2) = true \/ (ge_patience (ge_wait n e).2 < ge_patience e)%nat);
  law_clock e : (ge_patience (ge_clock e).2 <= ge_patience e)%nat;
  law_statuses e : (ge_patience (ge_statuses e).2 <= ge_patience e)%nat;
  law_abci url params e : (ge_patience (ge_abci url params e).2 <= ge_patience e)%nat;
  law_connect e : (ge_patience (ge_connect e).2 <= ge_patience e)%nat;
  law_commit e : (ge_patience (ge_commit e).2 <= ge_patience e)%nat;
  law_connect_error e x : (ge_connect e).1 = Raise x -> retryable x = false;
  law_commit_error e x : (ge_commit e).1 = RolledBack x \/ (ge_commit e).1 = Unacknowledged x -> retryable x = false
}.

Section cycles.
Context `{PyRuntime} `{UnicodeText} {E : Type} `{GovernanceEnvironment E} {laws : GovernanceEnvironmentLaws (E:=E)}.
#[local] Abbreviation world := (GovernanceWorld E).
#[local] Abbreviation query := (Query.query (W:=world)).

Definition quiet (w w' : world) : Prop :=
  gw_store w' = gw_store w /\ (ge_patience (gw_env w') <= ge_patience (gw_env w))%nat.
#[local] Instance quiet_preorder : PreOrder quiet.
Proof. split; [done|]. intros w1 w2 w3 [A1 A2] [B1 B2]. split; [congruence|lia]. Qed.

Lemma quiet_outside {A} (op : E -> A * E) : (forall e, (ge_patience (op e).2 <= ge_patience e)%nat) -> forall w, quiet w (outside op w).2.
Proof. intros Hop w. unfold outside. specialize (Hop (gw_env w)). destruct (op (gw_env w)) as [a e]. done. Qed.
Lemma quiet_client url path data h : keeps quiet (gov_query (GovernanceClient:=client_of url) path data h).
Proof.
  intros w. cbn [gov_query client_of]. unfold client_query. destruct (_ || _); [reflexivity|].
  pose proof (quiet_outside (ge_abci url (abci_params path data (VInt h))) (law_abci _ _) w) as Hq.
  destruct (outside _ w) as [a w']. exact Hq.
Qed.
Lemma quiet_candidates config : keeps quiet (candidates config).
Proof.
  intros w. unfold candidates. pose proof (law_statuses (gw_env w)) as Hl. destruct (ge_statuses (gw_env w)) as [[get elapsed] e].
  repeat case_match; done.
Qed.
Lemma quiet_refresh url source ids l : keeps quiet (refresh_targets url source ids l).
Proof.
  induction l as [|s l IH]; cbn [refresh_targets]; [apply keeps_pure, _|]. case_bool_decide; [|done].
  apply keeps_and_then; [apply _|eapply keeps_discover_proposal; [apply _|apply quiet_client]|]. intros found.
  apply keeps_and_then; [apply _|done|]. intros l'. apply keeps_pure, _.
Qed.

(** A transaction either happened or left the store alone. *)
Definition transacted {A} (P : A -> gstore -> gstore -> Prop) (r : res A) (w w' : world) : Prop :=
  (ge_patience (gw_env w') <= ge_patience (gw_env w))%nat /\
  match r with
  | Ok a => P a (gw_store w) (gw_store w')
  | Raise e => gw_store w' = gw_store w \/ (retryable e = false /\ exists a, P a (gw_store w) (gw_store w'))
  end.
Lemma transaction_outcome {A} (cursor : gstore -> res (A * gstore)) w r w' : transaction cursor w = (r, w') ->
  transacted (fun a d d' => cursor d = Ok (a, d')) r w w'.
Proof.
  unfold transaction, transacted. pose proof (quiet_outside ge_connect law_connect w) as [Hs Hp].
  destruct (outside ge_connect w) as [[u|e] w1]; cbn [snd] in *; [|by intros [= <- <-]; split; [|left]].
  destruct (cursor (gw_store w1)) as [[a d]|e] eqn:Ec; [|intros [= <- <-]; split; [done|by left]].
  rewrite Hs in Ec. pose proof (law_commit_error (gw_env w1)) as He. pose proof (law_commit (gw_env w1)) as Hc.
  unfold outside. destruct (ge_commit (gw_env w1)) as [out e]. cbn [fst snd] in *.
  destruct out as [|x|x]; intros [= <- <-]; cbn [gw_store gw_env]; (split; [lia|]); [done|by left|].
  right. split; [apply He; by right|by exists a].
Qed.
Lemma transacted_quiet {A} (P : A -> gstore -> gstore -> Prop) r w w1 w' : quiet w w1 -> transacted P r w1 w' -> transacted P r w w'.
Proof. unfold transacted. intros [-> Hq] [Hp Hr]. split; [lia|done]. Qed.
Lemma quiet_raises {A} (P : A -> gstore -> gstore -> Prop) e w w' : quiet w w' -> transacted P (Raise e) w w'.
Proof. intros [Hs Hp]. split; [done|by left]. Qed.

(** Queries before a transaction. *)
Lemma then_transacted {A B} (P : B -> gstore -> gstore -> Prop) (m : query A) (f : A -> query B) w r w' :
  keeps quiet m -> (forall a w1 w2, m w = (Ok a, w1) -> f a w1 = (r, w2) -> transacted P r w1 w2) ->
  and_then m f w = (r, w') -> transacted P r w w'.
Proof.
  intros Hm Hf. unfold and_then. specialize (Hm w). destruct (m w) as [[a|e] w1] eqn:Em; cbn [snd] in Hm.
  - intros Hr. eapply transacted_quiet; [done|]. by eapply Hf.
  - intros [= <- <-]. by apply quiet_raises.
Qed.
Lemma attempts_outcome {A} (P : A -> gstore -> gstore -> Prop) (attempt : selected_rpc -> query A) cs w r w' :
  (forall c w1 r w2, c ∈ cs -> attempt c w1 = (r, w2) -> transacted (P) r w1 w2) ->
  attempts attempt cs w = (r, w') -> transacted P r w w' /\
  (forall e, r = Raise e -> retryable e = true -> e = all_failed "All suitable Governance RPC attempts failed").
Proof.
  intros Ha. revert w. induction cs as [|c cs IH]; intros w; cbn [attempts].
  { intros [= <- <-]. split; [|by intros e [= <-]]. apply quiet_raises. reflexivity. }
  destruct (attempt c w) as [[a|e] w1] eqn:Ec.
  - intros [= <- <-]. split; [|done]. apply (Ha c); [by left|done].
  - apply Ha in Ec as [Hp Hs]; [|by left]. destruct (retryable e) eqn:Er.
    + intros Hr. destruct Hs as [Hs|[Hf _]]; [|done].
      destruct (IH ltac:(intros; eapply Ha; [by right|done]) w1 Hr) as [Ht He].
      split; [|done]. eapply transacted_quiet; [|done]. done.
    + intros [= <- <-]. split; [split; [done|destruct Hs as [Hs|[_ Hs]]; auto]|]. intros e' [= <-]. congruence.
Qed.

(** *** What the cycles store *)
Ltac next H a Ha :=
  let w := fresh "w" in apply and_then_Ok in H as (a & w & Ha & H).
Lemma discover_list_source `{GovernanceClient world} source pages n raw w l w' :
  discover_governance_list source pages n raw w = (Ok l, w') -> gl_source l = source.
Proof. unfold discover_governance_list. intros Hd. next Hd u Hu. next Hd t Ht. apply pure_Ok in Hd as [[= <-] _]. done. Qed.
Lemma discover_proposal_facts `{GovernanceClient world} source summary raw w t w' :
  discover_governance_proposal source summary raw w = (Ok t, w') ->
  gd_source t = source /\ map gp_proposal_id (gd_proposals t) = [sp_proposal_id summary].
Proof.
  unfold discover_governance_proposal. intros Hd. next Hd u Hu. destruct u. next Hd d Hp. next Hd v Hv. destruct v.
  next Hd x Hx. destruct x as [[vs votes] ws]. apply pure_Ok in Hd as [[= <-] _]. done.
Qed.
Lemma discover_source `{GovernanceClient world} source pages n raw w d w' :
  discover_governance source pages n None raw w = (Ok d, w') -> gd_source d = source.
Proof.
  unfold discover_governance. intros Hd. next Hd l Hl. next Hd x Hx. destruct x. apply pure_Ok in Hd as [[= <-] _]. done.
Qed.
Lemma refresh_ids url source ids l : forall w ts w', refresh_targets url source ids l w = (Ok ts, w') ->
  Forall (fun t => gd_source t = source) ts /\
  concat (map (fun t => map gp_proposal_id (gd_proposals t)) ts)
    = List.filter (fun id => bool_decide (id ∈ ids)) (map sp_proposal_id l).
Proof.
  induction l as [|s l IH]; intros w ts w'; cbn [refresh_targets]; [by intros [[= <-] _]%pure_Ok|].
  cbn [map List.filter]. case_bool_decide as Hs; [|apply IH].
  intros Hd. next Hd t Ht. next Hd ts' Hts. apply pure_Ok in Hd as [[= <-] _]. apply discover_proposal_facts in Ht as [Hsrc Hid].
  apply IH in Hts as [Hall Hids]. split; [by constructor|]. cbn [map concat]. by rewrite Hid, Hids.
Qed.

(** An endpoint of the configuration that reported the height itself. *)
Definition reported (config : GovernanceUpdaterConfig) (url : string) (h : Z) : Prop :=
  url ∈ gu_rpc_urls config /\ exists get p, pr_url p = url /\ endpoint_evidence (gu_chain_id config) get p h.
Lemma candidates_reported config w cs w' : 0 <= gu_max_height_lag config -> candidates config w = (Ok cs, w') ->
  forall c, c ∈ cs -> exists cl, sr_client c = Some cl /\ reported config (cl_url cl) (sr_latest_height c).
Proof.
  intros Hlag. unfold candidates. destruct (ge_statuses (gw_env w)) as [[get el] e].
  destruct (probe_rpc_endpoints _ _ _ _ _) as [probes|x] eqn:Ep; [|done].
  apply probe_rpc_endpoints_facts in Ep as [Hu Hh _ _ _]; [|done].
  assert (Hc : forall c, c ∈ suitable_rpc_candidates probes -> exists cl, sr_client c = Some cl /\
    reported config (cl_url cl) (sr_latest_height c)).
  { intros c (p & -> & Hp)%list_elem_of_fmap. unfold suitable_rpc_probes in Hp.
    apply list_elem_of_fmap in Hp as ([i q] & -> & Hq). rewrite elem_of_sort_by in Hq. apply elem_of_List_filter in Hq as [Hq Hs].
    cbn [snd] in *. apply (list_elem_of_fmap_2 snd) in Hq. rewrite enumerate_snd in Hq. cbn [snd] in Hq. unfold suitable in Hs. rewrite !andb_true_iff in Hs.
    destruct (Hh q Hq) as (h & l & Hhh & He & Hcl & _); [tauto|]. cbn [sr_client sr_latest_height]. exists (Client (pr_url q) false).
    split; [done|]. rewrite Hhh. cbn [default]. split; [|by exists get, q]. rewrite <-Hu. apply list_elem_of_fmap. by exists q. }
  destruct (suitable_rpc_candidates probes); [done|]. by intros [= <- _].
Qed.

Definition source_at (config : GovernanceUpdaterConfig) (url : string) (h : Z) : GovernanceSource :=
  Build_GovernanceSource (gu_chain_id config) (py_rstrip_char "/" url) h (gu_realm config).
Definition full_stored (config : GovernanceUpdaterConfig) (r : GovernancePersistenceResult) (d d' : gstore) : Prop :=
  exists url h discovery, reported config url h /\ gd_source discovery = source_at config url h /\
    persist_governance_snapshot_cursor discovery (gu_chain_id config) d = Ok (r, d').
(** The refreshed proposals are those the statuses of [d0] select. *)
Definition quick_stored (config : GovernanceUpdaterConfig) (d0 : gstore) (r : GovernancePersistenceResult) (d d' : gstore) : Prop :=
  exists url h listed targeted, reported config url h /\ gl_source listed = source_at config url h /\
    Forall (fun t => gd_source t = source_at config url h) targeted /\
    concat (map (fun t => map gp_proposal_id (gd_proposals t)) targeted) =
      List.filter (fun id => bool_decide (id ∈ select_governance_refresh_ids (gl_proposals listed)
          (fun id => old_status id (realm_proposals (gu_chain_id config, gu_realm config) d0)))) (map sp_proposal_id (gl_proposals listed)) /\
    persist_governance_incremental_cursor listed targeted (gu_chain_id config) d = Ok (r, d').

Lemma full_attempt_outcome config c w r w' :
  (exists cl, sr_client c = Some cl /\ reported config (cl_url cl) (sr_latest_height c)) ->
  full_attempt config c w = (r, w') -> transacted (full_stored config) r w w'.
Proof.
  intros (cl & Hcl & Hrep). unfold full_attempt. rewrite Hcl. apply then_transacted.
  - eapply keeps_discover; [apply _|apply quiet_client].
  - intros discovery w1 w2 Hd Ht%transaction_outcome. apply discover_source in Hd. destruct Ht as [Hp Ht]. split; [done|].
    destruct r as [a|e].
    + by exists (cl_url cl), (sr_latest_height c), discovery.
    + destruct Ht as [Ht|[He [a Ha]]]; [by left|right]. split; [done|]. exists a. by exists (cl_url cl), (sr_latest_height c), discovery.
Qed.
Lemma status_of_statuses (ps : list stored_proposal) id :
  status_of (map (fun r => (r.1, pc_status (ob_data r.2))) ps) id = old_status id ps.
Proof.
  unfold status_of, old_status, find_stored. induction ps as [|r ps IH]; [done|]. cbn [map List.find fst].
  destruct (r.1 =? id); [done|apply IH].
Qed.
Lemma quick_attempt_outcome config d0 c w r w' :
  (exists cl, sr_client c = Some cl /\ reported config (cl_url cl) (sr_latest_height c)) ->
  quick_attempt config (map (fun r => (r.1, pc_status (ob_data r.2))) (realm_proposals (gu_chain_id config, gu_realm config) d0)) c w
    = (r, w') -> transacted (quick_stored config d0) r w w'.
Proof.
  intros (cl & Hcl & Hrep). unfold quick_attempt. rewrite Hcl. apply then_transacted.
  { eapply keeps_discover_list; [apply _|apply quiet_client]. }
  intros listed w1 w2 Hl. apply then_transacted; [apply quiet_refresh|].
  intros targeted w3 w4 Ht Hp%transaction_outcome. apply discover_list_source in Hl. apply refresh_ids in Ht as [Hsrc Hids].
  assert (Hq : forall a d d', persist_governance_incremental_cursor listed targeted (gu_chain_id config) d = Ok (a, d') ->
    quick_stored config d0 a d d').
  { intros a d d' Ha. exists (cl_url cl), (sr_latest_height c), listed, targeted. split_and!; try done.
    rewrite Hids. apply List.filter_ext. intros id. apply bool_decide_ext. rewrite !elem_of_refresh. setoid_rewrite status_of_statuses. done. }
  destruct Hp as [Hp Hr]. split; [done|]. destruct r as [a|e]; [by apply Hq|].
  destruct Hr as [Hr|[He [a Ha]]]; [by left|right]. split; [done|]. exists a. by apply Hq.
Qed.

Lemma full_cycle_transacted config w r w' : 0 <= gu_max_height_lag config -> run_full_cycle config w = (r, w') ->
  transacted (full_stored config) r w w'.
Proof.
  intros Hlag. unfold run_full_cycle. apply then_transacted; [apply quiet_candidates|]. intros cs w1 w2 Hc Ha.
  eapply attempts_outcome in Ha as [Ht _]; [exact Ht|]. intros c w3 r' w4 Hin. apply full_attempt_outcome.
  by eapply candidates_reported.
Qed.
Lemma statuses_quiet chain realm w r w' : governance_statuses chain realm w = (r, w') -> quiet w w' /\
  match r with
  | Ok l => l = map (fun x => (x.1, pc_status (ob_data x.2))) (realm_proposals (chain, realm) (gw_store w))
  | Raise _ => True
  end.
Proof.
  intros [Hp Hr]%transaction_outcome. destruct r as [a|e].
  - injection Hr as <- Hs. split; [by split|done].
  - split; [|done]. split; [|done]. destruct Hr as [Hr|(_ & a & [= _ <-])]; done.
Qed.
Lemma quick_cycle_transacted config w r w' : 0 <= gu_max_height_lag config -> run_quick_cycle config w = (r, w') ->
  transacted (quick_stored config (gw_store w)) r w w'.
Proof.
  intros Hlag Hr. pose proof (quiet_candidates config w) as Hq0. revert Hr. unfold run_quick_cycle, and_then.
  destruct (candidates config w) as [[cs|e] w1] eqn:Ec; cbn [snd] in Hq0; [|intros [= <- <-]; by apply quiet_raises].
  destruct (governance_statuses _ _ w1) as [[l|e] w2] eqn:Es; apply statuses_quiet in Es as [Hq1 Hl].
  - subst l. destruct Hq0 as [Hs0 Hp0]. rewrite Hs0. intros Ha. apply (transacted_quiet _ _ w w2).
    { etrans; [split; [exact Hs0|exact Hp0]|exact Hq1]. }
    eapply attempts_outcome in Ha as [Ht _]; [exact Ht|]. intros c w3 r' w4 Hin. apply quick_attempt_outcome.
    by eapply candidates_reported.
  - intros [= <- <-]. apply quiet_raises. by etrans.
Qed.

(** Retryable errors end an attempt, not a cycle. *)
Lemma probe_rpc_endpoints_error urls chain lag get el e : probe_rpc_endpoints urls chain lag get el = Raise e ->
  isinstance_RpcError e = true.
Proof. unfold probe_rpc_endpoints. destruct urls; [by intros [= <-]|]. by destruct (healthy_heights _). Qed.
Lemma candidates_error config w e w' : candidates config w = (Raise e, w') -> isinstance_RpcError e = true.
Proof.
  unfold candidates. destruct (ge_statuses _) as [[get el] e']. destruct (probe_rpc_endpoints _ _ _ _ _) as [probes|x] eqn:Ep.
  - destruct (suitable_rpc_candidates probes); [by intros [= <- _]|done].
  - intros [= <- _]. by eapply probe_rpc_endpoints_error.
Qed.
Lemma attempts_error {A} (attempt : selected_rpc -> query A) cs w e w' :
  attempts attempt cs w = (Raise e, w') -> retryable e = true -> isinstance_RpcError e = true.
Proof.
  revert w. induction cs as [|c cs IH]; intros w; cbn [attempts]; [by intros [= <- _]|].
  destruct (attempt c w) as [[a|x] w1]; [done|]. destruct (retryable x) eqn:Ex; [apply IH|]. intros [= <- _]. congruence.
Qed.
Lemma full_cycle_error config w e w' : run_full_cycle config w = (Raise e, w') -> retryable e = true -> isinstance_RpcError e = true.
Proof.
  unfold run_full_cycle, and_then. destruct (candidates config w) as [[cs|x] w1] eqn:Ec; [apply attempts_error|].
  intros [= <- _] _. by eapply candidates_error.
Qed.
Lemma statuses_error chain realm w e w' : governance_statuses chain realm w = (Raise e, w') -> retryable e = false.
Proof.
  unfold governance_statuses, transaction, outside. pose proof (law_connect_error (gw_env w)) as Hc.
  destruct (ge_connect (gw_env w)) as [[u|x] e1]; [|intros [= <- _]; by apply Hc]. cbn [gw_store gw_env].
  pose proof (law_commit_error e1) as He. destruct (ge_commit e1) as [[|x|x] e2]; [done|..]; intros [= <- _]; apply He; auto.
Qed.
Lemma quick_cycle_error config w e w' : run_quick_cycle config w = (Raise e, w') -> retryable e = true -> isinstance_RpcError e = true.
Proof.
  unfold run_quick_cycle, and_then. destruct (candidates config w) as [[cs|x] w1] eqn:Ec.
  - destruct (governance_statuses _ _ w1) as [[l|x] w2] eqn:Es; [apply attempts_error|].
    intros [= <- _]. apply statuses_error in Es. congruence.
  - intros [= <- _] _. by eapply candidates_error.
Qed.

(** *** The loop *)
Definition advances (w w' : world) : Prop :=
  rtc store_step (gw_store w) (gw_store w') /\ (ge_patience (gw_env w') <= ge_patience (gw_env w))%nat.
#[local] Instance advances_preorder : PreOrder advances.
Proof. split; [done|]. intros w1 w2 w3 [A1 A2] [B1 B2]. split; [by etrans|lia]. Qed.
Lemma quiet_advances w w' : quiet w w' -> advances w w'.
Proof. intros [Hs Hp]. split; [by rewrite Hs|done]. Qed.
Lemma transacted_advances {A} (P : A -> gstore -> gstore -> Prop) r w w' :
  (forall a d d', P a d d' -> store_step d d') -> transacted P r w w' -> advances w w'.
Proof.
  intros HP [Hp Hr]. split; [|done]. destruct r as [a|e]; [by apply rtc_once, (HP a)|].
  destruct Hr as [->|[_ [a Ha]]]; [done|]. by apply rtc_once, (HP a).
Qed.
Lemma full_stored_step config a d d' : full_stored config a d d' -> store_step d d'.
Proof. intros (url & h & discovery & _ & _ & Hp). do 2 eexists. by eapply stores_snapshot. Qed.
Lemma quick_stored_step config d0 a d d' : quick_stored config d0 a d d' -> store_step d d'.
Proof. intros (url & h & listed & targeted & _ & _ & _ & _ & Hp). do 2 eexists. by eapply stores_list. Qed.
Lemma cycle_advances config (full : bool) w r w' : 0 <= gu_max_height_lag config ->
  (if full then run_full_cycle config w else run_quick_cycle config w) = (r, w') -> advances w w'.
Proof.
  intros Hlag. destruct full; intros Hc.
  - eapply transacted_advances; [intros a d d'; apply (full_stored_step config)|by apply full_cycle_transacted].
  - eapply transacted_advances; [intros a d d'; apply (quick_stored_step config (gw_store w))|by apply quick_cycle_transacted].
Qed.

(** Iterations that can still wait. *)
Definition waits_left (w : world) : nat := if stop_requested w then 0 else S (ge_patience (gw_env w)).
Lemma stop_wait_left n w : advances w (stop_wait n w) /\ (waits_left (stop_wait n w) <= ge_patience (gw_env w))%nat.
Proof.
  unfold stop_wait. destruct (stop_requested w) eqn:Es; [split; [reflexivity|unfold waits_left; rewrite Es; lia]|].
  unfold outside. pose proof (law_wait n (gw_env w)) as Hl. destruct (ge_wait n (gw_env w)) as [b e]. cbn [snd] in *.
  unfold waits_left, stop_requested, advances. cbn [gw_env gw_store]. destruct Hl as [Hle Hl].
  destruct (requested (ge_stop e)); (split; [by split|]); [lia|]. by destruct Hl.
Qed.

Definition updater_result (r : res Z) : Prop :=
  r = Ok 0 \/ exists e, r = Raise e /\ (stops_updater e = true \/ exists msg, e = fatal msg).
Lemma updater_loop_runs config once full_once max_cycles fuel : 0 <= gu_max_height_lag config ->
  forall cycles last_full backoff w, (waits_left w < fuel)%nat ->
  exists r w', updater_loop config once full_once max_cycles fuel cycles last_full backoff w = Some (r, w') /\
    updater_result r /\ advances w w'.
Proof.
  intros Hlag. induction fuel as [|fuel IH]; intros cycles last_full backoff w Hfuel; [lia|]. cbn [updater_loop].
  destruct (stop_requested w) eqn:Es. { do 2 eexists. split; [done|]. split; [by left|reflexivity]. }
  unfold waits_left in Hfuel. rewrite Es in Hfuel.
  pose proof (quiet_outside ge_clock law_clock w) as Hq%quiet_advances. destruct (outside ge_clock w) as [now w1]. cbn [snd] in Hq.
  set (full := full_due config full_once last_full now). destruct (if full then _ else _) as [r w2] eqn:Ec.
  apply cycle_advances in Ec; [|done]. assert (Ha : advances w w2) by (by etrans).
  assert (Hnext : forall n w3 cycles last_full backoff, advances w w3 -> exists r w',
    updater_loop config once full_once max_cycles fuel cycles last_full backoff (stop_wait n w3) = Some (r, w') /\
    updater_result r /\ advances w w').
  { intros n w3 c l b H3. destruct (stop_wait_left n w3) as [Hadv Hle]. destruct H3 as [H3 H3'].
    destruct (IH c l b (stop_wait n w3)) as (r' & w' & Hr & Hres & Hw); [lia|]. exists r', w'. split; [done|]. split; [done|].
    etrans; [split; [exact H3|exact H3']|]. by etrans. }
  destruct r as [a|e].
  - assert (exists lf w3, (if full then let '(t, w) := outside ge_clock w2 in (Some t, w) else (last_full, w2)) = (lf, w3) /\
      advances w w3) as (lf & w3 & -> & H3).
    { destruct full; [|by eauto]. pose proof (quiet_outside ge_clock law_clock w2) as Hq2%quiet_advances.
      destruct (outside ge_clock w2) as [t w3]. do 2 eexists. split; [done|]. by etrans. }
    destruct (once || full_once || _); [|by apply Hnext]. do 2 eexists. split; [done|]. split; [by left|done].
  - destruct (stops_updater e) eqn:Ee; [|by apply Hnext]. do 2 eexists. split; [done|]. split; [right; eauto|done].
Qed.
Lemma raise_if_bind_Raise {A} b x (f : unit -> res A) e : (raise_if b x ≫= f) = Raise e -> e = x \/ f tt = Raise e.
Proof. destruct b; [intros [= <-]; by left|by right]. Qed.
Lemma validate_config_error config e : validate_config config = Raise e -> exists msg, e = fatal msg.
Proof.
  unfold validate_config. intros Hv. do 4 (apply raise_if_bind_Raise in Hv as [->|Hv]; [by eexists|]).
  unfold raise_if in Hv. destruct (_ <? _); [|done]. injection Hv as <-. by eexists.
Qed.
End cycles.

(** ** The claims *)
Section claims.
Context `{PyRuntime} `{UnicodeText} {E : Type} `{GovernanceEnvironment E} {laws : GovernanceEnvironmentLaws (E:=E)}.

(** C37. The updater ends when it is asked to, and whatever it did was safe:
    with fuel for the waits that can pass before a stop request, [run_updater]
    returns 0 or raises an invalid configuration, a chain mismatch or a corrupt
    store; and from a readable store it leaves a readable one in which no
    height went back, no proposal is lost and every status moved as allowed. *)
Theorem run_updater_safe config once full_once max_cycles fuel w : 0 <= gu_max_height_lag config ->
  (S (ge_patience (gw_env w)) < fuel)%nat -> readable (gw_store w) ->
  exists r w', run_updater config once full_once max_cycles fuel w = Some (r, w') /\ updater_result r /\
    readable (gw_store w') /\ forward (gw_store w) (gw_store w').
Proof.
  intros Hlag Hfuel Hr. unfold run_updater. destruct (validate_config config) as [u|e] eqn:Ev.
  - destruct (updater_loop_runs config once full_once max_cycles fuel Hlag 0 None (gu_error_backoff_seconds config) w)
      as (r & w' & Hrun & Hres & [Hs _]).
    { unfold waits_left. destruct (stop_requested w); lia. }
    exists r, w'. split; [done|]. split; [done|]. by apply steps_safe.
  - exists (Raise e), w. split; [done|]. split; [|split; [done|apply forward_refl]].
    right. exists e. split; [done|]. right. by eapply validate_config_error.
Qed.

(** What a cycle stores and how it fails: a cycle that returns stored, in
    one transaction from the store it found, a snapshot of the configured realm
    taken at a height that a configured endpoint itself reported, a complete
    one for a full cycle and for a quick one the list with exactly the
    proposals that the stored statuses select for a refresh; a cycle that
    raises stored nothing, or was not told that its one transaction was
    committed; and an error that the candidates are retried for only surfaces
    as an [RpcError]. *)
Theorem cycle_outcome config (full : bool) w r w' : 0 <= gu_max_height_lag config ->
  (if full then run_full_cycle config w else run_quick_cycle config w) = (r, w') ->
  let stored a := (if full then full_stored config a else quick_stored config (gw_store w) a) (gw_store w) (gw_store w') in
  match r with
  | Ok a => stored a
  | Raise e => (retryable e = true -> isinstance_RpcError e = true) /\
      (gw_store w' = gw_store w \/ (retryable e = false /\ exists a, stored a))
  end.
Proof.
  intros Hlag Hc stored. subst stored. destruct full.
  - destruct (full_cycle_transacted config w r w' Hlag Hc) as [_ Ht]. destruct r as [a|e]; [done|].
    split; [by eapply full_cycle_error|done].
  - destruct (quick_cycle_transacted config w r w' Hlag Hc) as [_ Ht]. destruct r as [a|e]; [done|].
    split; [by eapply quick_cycle_error|done].
Qed.
End claims.

(** *** A concrete environment: one endpoint of two answers, and the stop
    request comes during the wait numbered by the state. *)
#[local] Existing Instance ascii_runtime.
#[local] Instance demo_text : UnicodeText := {| casefold_char c := c; is_word_char c := false |}.
Definition newline : string := String (Z_byte 10) EmptyString.
Definition demo_render (path : string) : string :=
  if String.eqb path "" then "### [Prop #1 - Raise the fee](/r/gov/dao:1)" +:+ newline +:+ "Status: ACTIVE"
  else if String.eqb path "1" then
    "## Prop #1 - Raise the fee" +:+ newline +:+ "Text." +:+ newline +:+ "### Stats" +:+ newline +:+ "- Proposal is open for votes"
  else "YES from T1 (VPPM 3):" +:+ newline +:+ "- ann".
Definition demo_answer (params : list (string * val)) : res val :=
  let asks path := match dict_get "data" params with
                   | Some (VStr s) => String.eqb s (json_string true (b64encode (list_of_string ("gno.land/r/gov/dao:" +:+ path))))
                   | _ => false
                   end in
  match List.find asks [""; "1"; "1/votes"] with
  | Some path => Ok (abci_response VNone (VStr (b64encode (list_of_string (demo_render path)))))
  | None => Raise (RpcError "unknown path")
  end.
#[local] Instance demo_environment : GovernanceEnvironment nat := {|
  ge_stop n := Build_StopController (Nat.eqb n 0) None;
  ge_wait s n := (false, Nat.pred n);
  ge_clock n := (f_zero, n);
  ge_statuses n := ((fun u => if String.eqb u "http://a" then Raise (RpcError "down") else Ok (demo_status "dev" 40)), (fun _ => f_zero), n);
  ge_abci url params n := (demo_answer params, n);
  ge_connect n := (Ok tt, n);
  ge_commit n := (Committed, n)
|}.
#[local] Instance demo_environment_laws : GovernanceEnvironmentLaws (E:=nat).
Proof. refine {| ge_patience n := n |}; try (intros; simpl; lia); [|done|by intros e x []]. intros s [|n]; simpl; [auto|lia]. Defined.
Definition demo_config : GovernanceUpdaterConfig :=
  Build_GovernanceUpdaterConfig "postgres://db" ["http://a"; "http://b"] "dev" "gno.land/r/gov/dao" 10 30 21600 5 60.
Definition demo_start : GovernanceWorld nat := GWorld empty_store 2%nat.
Lemma demo_start_readable : readable (gw_store demo_start).
Proof. apply readable_empty. Qed.
Definition demo_full_cycle : res GovernancePersistenceResult * GovernanceWorld nat := Eval vm_compute in run_full_cycle demo_config demo_start.
Lemma demo_full_cycle_runs : run_full_cycle demo_config demo_start = demo_full_cycle.
Proof. vm_compute. reflexivity. Qed.

Lemma run_updater_safe_witness : exists r w', run_updater demo_config false false None 4 demo_start = Some (r, w') /\
  updater_result r /\ readable (gw_store w') /\ forward (gw_store demo_start) (gw_store w').
Proof. apply run_updater_safe; [done|simpl; lia|apply demo_start_readable]. Defined.
Lemma cycle_outcome_witness : exists a, demo_full_cycle.1 = Ok a /\ ga_inserted_proposals a = 1 /\
  full_stored demo_config a empty_store (gw_store demo_full_cycle.2).
Proof.
  pose proof (cycle_outcome demo_config true demo_start demo_full_cycle.1 demo_full_cycle.2 ltac:(done) demo_full_cycle_runs) as Ho.
  eexists. split; [reflexivity|]. split; [reflexivity|]. exact Ho.
Defined.
