(* ===== verification/Config.v ===== *)
(** * indexer/config.py: the configuration of the processes

    Each loader reads [os.environ] after [load_dotenv] (InspectRpc.v): [dotenv]
    is the text of the .env file, [e] the environment of the process.  The
    loaders build the configuration records of Decoder.v, Selection.v and
    GovernanceUpdater.v. *)
From Stdlib Require Import ZArith NArith Lia Ascii String SpecFloat.
From stdpp Require Import base gmap sets list strings sorting.
From S2P Require Import Prelude PyStr PyVal Codec Json PyFloat InspectRpc Selection ValopersStore Decoder GovernanceUpdater.
Open Scope Z_scope.

Definition DEFAULT_HARD_MAX_HEIGHTS : Z := 100.
Definition DEFAULT_INDEXER_BATCH_SIZE : Z := 10.
Definition DEFAULT_INDEXER_POLL_INTERVAL_SECONDS : Z := 5.
Definition DEFAULT_INDEXER_ERROR_BACKOFF_SECONDS : Z := 5.
Definition DEFAULT_INDEXER_MAX_BACKOFF_SECONDS : Z := 60.
Definition DEFAULT_GOVERNANCE_REFRESH_INTERVAL_SECONDS : Z := 30.
Definition DEFAULT_GOVERNANCE_FULL_RECONCILE_INTERVAL_SECONDS : Z := 21600.
Definition DEFAULT_GOVERNANCE_ERROR_BACKOFF_SECONDS : Z := 5.
Definition DEFAULT_GOVERNANCE_MAX_BACKOFF_SECONDS : Z := 60.

Record IndexerConfig := {
  ic_database_url : string;
  ic_rpc_urls : list string;
  ic_chain_id : string;
  ic_max_height_lag : Z;
  ic_hard_max_heights : Z
}.
(** [re.fullmatch(r"[a-z][a-z0-9_-]{0,63}", s)] *)
Definition family_head (a : ascii) : bool := between_Z 97 122 (byte_Z a).
Definition family_tail (a : ascii) : bool := family_head a || is_digit a || is_byte 95 a || is_byte 45 a.
Definition family_re (s : string) : bool :=
  match s with
  | EmptyString => false
  | String a r => family_head a && str_forallb family_tail r && Nat.leb (String.length r) 63
  end.

Section loaders.
Context `{PyRuntime} (dotenv : option string) (e : env).

Definition getenv (name default : string) : string := py_strip (env_get (load_dotenv dotenv e) name default).

(** The [booleans] table. *)
Definition boolean_of (s : string) : option bool :=
  if in_strs s ["true"; "1"; "yes"; "on"] then Some true
  else if in_strs s ["false"; "0"; "no"; "off"] then Some false
  else None.
Definition isabs (path : string) : bool := startswith "/" path.
(** [lo <= f <= hi], [lo < f <= hi] for a float and integers. *)
Definition at_least (lo : Z) (f : float) : bool := num_leb (VInt lo) (VFloat f).
Definition at_most (f : float) (hi : Z) : bool := num_leb (VFloat f) (VInt hi).

Definition load_transaction_decoder_config : res TransactionDecoderConfig :=
  match boolean_of (py_lower (getenv "TRANSACTION_DECODER_ENABLED" "false")) with
  | None => Raise (ValueError "TRANSACTION_DECODER_ENABLED must be an explicit boolean")
  | Some enabled =>
      let path := getenv "TRANSACTION_DECODER_PATH" "/opt/utsa-gno-explorer/bin/gno-tx-decoder" in
      let family := getenv "TRANSACTION_DECODER_CHAIN_FAMILY" "gno" in
      _ ← raise_if (enabled && negb (isabs path)) (ValueError "TRANSACTION_DECODER_PATH must be absolute when enabled");
      _ ← require (family_re family) (ValueError "TRANSACTION_DECODER_CHAIN_FAMILY must be a bounded lowercase token");
      '(timeout, backoff) ← except_as
        (timeout ← py_float_str (getenv "TRANSACTION_DECODER_TIMEOUT_SECONDS" "2");
         backoff ← py_float_str (getenv "TRANSACTION_DECODER_RESTART_BACKOFF_SECONDS" "30");
         Ok (timeout, backoff))
        isinstance_ValueError (ValueError "transaction decoder timeout and backoff must be numbers");
      _ ← require (isfinite timeout && (negb (at_most timeout 0) && at_most timeout 30))
            (ValueError "TRANSACTION_DECODER_TIMEOUT_SECONDS must be greater than 0 and at most 30");
      _ ← require (isfinite backoff && (at_least 1 backoff && at_most backoff 3600))
            (ValueError "TRANSACTION_DECODER_RESTART_BACKOFF_SECONDS must be between 1 and 3600");
      Ok (Build_TransactionDecoderConfig enabled path family timeout backoff)
  end.

Definition configured_hard_max_heights : res Z :=
  value ← except_as (py_int_str (getenv "INDEXER_HARD_MAX_HEIGHTS" (str_of_Z DEFAULT_HARD_MAX_HEIGHTS)))
            isinstance_ValueError (ValueError "INDEXER_HARD_MAX_HEIGHTS must be an integer");
  _ ← raise_if (value <? 1) (ValueError "INDEXER_HARD_MAX_HEIGHTS must be positive");
  Ok value.

Definition load_config : res IndexerConfig :=
  max_height_lag ← configured_max_height_lag dotenv e;
  hard_max_heights ← configured_hard_max_heights;
  Ok (Build_IndexerConfig (getenv "DATABASE_URL" "") (configured_rpc_urls dotenv e) (configured_chain_id dotenv e)
        max_height_lag hard_max_heights).

Definition optional_positive_int (name : string) : res (option Z) :=
  let raw_value := getenv name "" in
  if String.eqb raw_value "" then Ok None else
  value ← except_as (py_int_str raw_value) isinstance_ValueError (ValueError (name +:+ " must be an integer"));
  _ ← raise_if (value <? 1) (ValueError (name +:+ " must be positive"));
  Ok (Some value).
Definition positive_int (name : string) (default : Z) : res Z :=
  value ← optional_positive_int name;
  Ok (match value with None => default | Some v => v end).

Definition load_continuous_config : res ContinuousConfig :=
  start_height ← optional_positive_int "INDEXER_START_HEIGHT";
  batch_size ← positive_int "INDEXER_BATCH_SIZE" DEFAULT_INDEXER_BATCH_SIZE;
  poll_interval ← positive_int "INDEXER_POLL_INTERVAL_SECONDS" DEFAULT_INDEXER_POLL_INTERVAL_SECONDS;
  error_backoff ← positive_int "INDEXER_ERROR_BACKOFF_SECONDS" DEFAULT_INDEXER_ERROR_BACKOFF_SECONDS;
  max_backoff ← positive_int "INDEXER_MAX_BACKOFF_SECONDS" DEFAULT_INDEXER_MAX_BACKOFF_SECONDS;
  hard_max_heights ← configured_hard_max_heights;
  Ok (Build_ContinuousConfig start_height batch_size poll_interval error_backoff max_backoff hard_max_heights false None).

Definition load_governance_updater_config : res GovernanceUpdaterConfig :=
  let realm := getenv "GNO_GOVERNANCE_REALM" "" in
  max_height_lag ← configured_max_height_lag dotenv e;
  refresh ← positive_int "GOVERNANCE_REFRESH_INTERVAL_SECONDS" DEFAULT_GOVERNANCE_REFRESH_INTERVAL_SECONDS;
  full ← positive_int "GOVERNANCE_FULL_RECONCILE_INTERVAL_SECONDS" DEFAULT_GOVERNANCE_FULL_RECONCILE_INTERVAL_SECONDS;
  error_backoff ← positive_int "GOVERNANCE_ERROR_BACKOFF_SECONDS" DEFAULT_GOVERNANCE_ERROR_BACKOFF_SECONDS;
  max_backoff ← positive_int "GOVERNANCE_MAX_BACKOFF_SECONDS" DEFAULT_GOVERNANCE_MAX_BACKOFF_SECONDS;
  let config := Build_GovernanceUpdaterConfig (getenv "DATABASE_URL" "") (configured_rpc_urls dotenv e)
                  (configured_chain_id dotenv e) (if String.eqb realm "" then "gno.land/r/gov/dao" else realm)
                  max_height_lag refresh full error_backoff max_backoff in
  _ ← validate_config config;
  Ok config.
End loaders.

(** ** Properties *)
Record decoder_config_ok (c : TransactionDecoderConfig) : Prop := {
  dok_path : dc_enabled c = true -> isabs (dc_executable_path c) = true;
  dok_family : family_re (dc_expected_chain_family c) = true;
  dok_timeout : isfinite (dc_timeout_seconds c) = true /\ at_most (dc_timeout_seconds c) 0 = false /\ at_most (dc_timeout_seconds c) 30 = true;
  dok_backoff : isfinite (dc_restart_backoff_seconds c) = true /\ at_least 1 (dc_restart_backoff_seconds c) = true /\
    at_most (dc_restart_backoff_seconds c) 3600 = true
}.
Record continuous_fields_ok (c : ContinuousConfig) : Prop := {
  cf_positive : Forall (fun nv => 1 <= nv.2) (positive_fields c);
  cf_start : forall h, start_height c = Some h -> 1 <= h;
  cf_unbounded : once c = false /\ max_cycles c = None
}.
Record updater_config_ok (c : GovernanceUpdaterConfig) : Prop := {
  uo_database : gu_database_url c <> "";
  uo_realm : startswith "gno.land/r/" (gu_realm c) = true /\ py_contains ":" (gu_realm c) = false;
  uo_lag : 0 <= gu_max_height_lag c;
  uo_intervals : 1 <= refresh_interval_seconds c <= full_reconcile_interval_seconds c;
  uo_backoff : 1 <= gu_error_backoff_seconds c <= gu_max_backoff_seconds c
}.
(** The exceptions of a loader. *)
Definition config_error (x : exc) : bool :=
  isinstance_ValueError x || isinstance_RpcError x || match x with FatalGovernanceUpdaterError _ => true | _ => false end.

Section facts.
Context `{PyRuntime} (dotenv : option string) (e : env).

Lemma optional_positive_int_ok name v : optional_positive_int dotenv e name = Ok (Some v) -> 1 <= v.
Proof. unfold optional_positive_int. destruct (String.eqb _ _); [done|]. intros Ho. inv_res. lia. Qed.
Lemma positive_int_ok name d v : 1 <= d -> positive_int dotenv e name d = Ok v -> 1 <= v.
Proof.
  unfold positive_int. intros Hd Hp. inv_res. destruct a as [x|]; [|done]. by apply optional_positive_int_ok in Ha.
Qed.
Lemma hard_max_ok v : configured_hard_max_heights dotenv e = Ok v -> 1 <= v.
Proof. unfold configured_hard_max_heights. intros Hv. inv_res. lia. Qed.
Lemma lag_ok v : configured_max_height_lag dotenv e = Ok v -> 0 <= v.
Proof. unfold configured_max_height_lag. destruct (py_int_str _) as [z|]; [|done]. destruct (z <? 0) eqn:Ez; [done|]. intros [= <-]. lia. Qed.
Lemma validate_config_ok c u : validate_config c = Ok u -> 0 <= gu_max_height_lag c -> updater_config_ok c.
Proof.
  unfold validate_config. intros Hv Hlag. inv_res. cbn [existsb] in Ha1. rewrite !orb_false_iff, !Z.ltb_ge in *.
  destruct Ha0 as [Hs Hc]. apply negb_false_iff in Hs. apply String.eqb_neq in Ha. constructor; try done; lia.
Qed.
End facts.

Section claims.
Context `{PyRuntime} (dotenv : option string) (e : env).

Lemma caught_ValueError {A} (m : res A) msg : raises isinstance_ValueError m ->
  raises config_error (except_as m isinstance_ValueError (ValueError msg)).
Proof. destruct m as [a|x]; cbn; [done|]. by intros ->. Qed.
Lemma py_float_str_raises s : raises isinstance_ValueError (py_float_str s).
Proof. unfold py_float_str. repeat case_match; done. Qed.
Lemma lag_raises : raises config_error (configured_max_height_lag dotenv e).
Proof. unfold configured_max_height_lag. destruct (py_int_str _) as [z|x]; [by destruct (_ <? _)|done]. Qed.
Lemma validate_config_raises c : raises config_error (validate_config c).
Proof. destruct (validate_config c) as [u|x] eqn:Ev; [done|]. apply validate_config_error in Ev as [msg ->]. done. Qed.
#[local] Hint Resolve caught_ValueError py_float_str_raises lag_raises validate_config_raises : raises.
Lemma optional_positive_int_raises name : raises config_error (optional_positive_int dotenv e name).
Proof. unfold optional_positive_int. solve_raises. Qed.
Lemma hard_max_raises : raises config_error (configured_hard_max_heights dotenv e).
Proof. unfold configured_hard_max_heights. solve_raises. Qed.
#[local] Hint Resolve optional_positive_int_raises hard_max_raises : raises.
Lemma positive_int_raises name d : raises config_error (positive_int dotenv e name d).
Proof. unfold positive_int. solve_raises. Qed.
#[local] Hint Resolve positive_int_raises : raises.
Lemma decoder_config_raises : raises config_error (load_transaction_decoder_config dotenv e).
Proof. unfold load_transaction_decoder_config. solve_raises. apply caught_ValueError. solve_raises. Qed.

(** Every configuration a process starts with is in bounds: the decoder's
    path is absolute when it is enabled, its chain family a bounded token, its
    timeout in (0, 30] and its backoff in [1, 3600]; the indexer's and the
    updater's integers are positive, the updater's realm is a realm path and
    its intervals are ordered; and a loader that refuses its environment does
    so with [ValueError], [RpcError] or the updater's fatal error only. *)
Theorem loaded_configs_ok :
  (forall c, load_transaction_decoder_config dotenv e = Ok c -> decoder_config_ok c) /\
  (forall c, load_config dotenv e = Ok c -> 0 <= ic_max_height_lag c /\ 1 <= ic_hard_max_heights c) /\
  (forall c, load_continuous_config dotenv e = Ok c -> continuous_fields_ok c) /\
  (forall c, load_governance_updater_config dotenv e = Ok c -> updater_config_ok c) /\
  raises config_error (load_transaction_decoder_config dotenv e) /\ raises config_error (load_config dotenv e) /\
  raises config_error (load_continuous_config dotenv e) /\ raises config_error (load_governance_updater_config dotenv e).
Proof.
  split_and!.
  - intros c. unfold load_transaction_decoder_config. destruct (boolean_of _) as [b|]; [|done]. intros Hl. inv_res.
    destruct a1 as [t f]. inv_res. rewrite !andb_true_iff, negb_true_iff in *.
    constructor; cbn [dc_enabled dc_executable_path dc_expected_chain_family dc_timeout_seconds dc_restart_backoff_seconds]; try done.
    intros ->. cbn in Ha. by apply negb_false_iff in Ha.
  - intros c. unfold load_config. intros Hl. inv_res. cbn. split; [by eapply lag_ok|by eapply hard_max_ok].
  - intros c. unfold load_continuous_config. intros Hl. inv_res. constructor; [|cbn; intros h ->; by eapply optional_positive_int_ok|done].
    unfold positive_fields. repeat (apply Forall_cons; split; [cbn|]); [..|done];
      first [by eapply hard_max_ok|by eapply positive_int_ok; [|eassumption]].
  - intros c. unfold load_governance_updater_config. intros Hl. inv_res. eapply validate_config_ok; [eassumption|by eapply lag_ok].
  - apply decoder_config_raises.
  - unfold load_config. solve_raises.
  - unfold load_continuous_config. solve_raises.
  - unfold load_governance_updater_config. solve_raises.
Qed.
End claims.

Definition demo_env : env := [("DATABASE_URL", " postgres://db "); ("GNO_RPC_URLS", "http://a,http://b"); ("GNO_GOVERNANCE_REALM", "")].
Definition demo_dotenv : string := "GOVERNANCE_REFRESH_INTERVAL_SECONDS=45".
Lemma loaded_configs_ok_witness : exists c, @load_governance_updater_config (Some demo_dotenv) demo_env = Ok c /\
  refresh_interval_seconds c = 45 /\ gu_max_backoff_seconds c = 60 /\ updater_config_ok c.
Proof.
  eexists. split; [vm_compute; reflexivity|]. split; [reflexivity|]. split; [reflexivity|].
  apply (proj1 (proj2 (proj2 (proj2 (@loaded_configs_ok ascii_runtime (Some demo_dotenv) demo_env))))). vm_compute. reflexivity.
Defined.
