(* ===== verification/RealmMetadata.v ===== *)
(** * indexer/realm_metadata.py: the bounded parsers of realm metadata

    File listings, Gno sources, the JSON documents of vm/qfuncs, vm/qdoc and
    vm/qpkg_json, renders and storage balances.  A payload is bytes or text
    ([payload]); a parsed document and a summary are values of PyVal.v, the
    dictionaries of the code.  The regular expressions are scanners over
    characters.  [JsonStack] is the interpreter's recursion limit inside
    json.loads. *)
From Stdlib Require Import ZArith NArith Lia Ascii String SpecFloat.
From stdpp Require Import base gmap sets list strings sorting.
From S2P Require Import Prelude PyStr PyVal Codec Json InspectRpc RealmCatalog Scan Lines.
Open Scope Z_scope.

Definition MAX_FILES : nat := 256.
Definition MAX_FILENAME_LENGTH : Z := 160.
Definition MAX_SOURCE_BYTES : Z := 1024 * 1024.
Definition MAX_SOURCE_LINES : Z := 100000.
Definition MAX_IMPORT_CANDIDATES : Z := 1000.
Definition MAX_FUNCS : Z := 1000.
Definition MAX_FUNC_NAME_LENGTH : Z := 160.
Definition MAX_QDOC_ITEMS : Z := 1000.
Definition MAX_JSON_DEPTH : Z := 24.
Definition MAX_JSON_NODES : Z := 20000.
Definition MAX_STRING_LENGTH : Z := 16384.
Definition MAX_STORAGE_DIGITS : Z := 40.

Inductive payload : Type :=
| Bytes (b : bytes)
| Text (s : string).
Definition parse_error (msg : string) : exc := MetadataParseError msg.
Definition fails {A} (msg : string) : res A := Raise (parse_error msg).
Definition check (b : bool) (msg : string) : res unit := require b (parse_error msg).
(** [len(l)] of a list. *)
Definition count {A} (l : list A) : Z := Z.of_nat (length l).
Definition unicode_encode_error : exc := ValueError "UnicodeEncodeError".
(** [s.encode("utf-8", "strict")]: a lone surrogate has no encoding. *)
Definition encode_utf8 (s : string) : res bytes :=
  if utf8_valid (list_of_string s) then Ok (list_of_string s) else Raise unicode_encode_error.

(** [_text] *)
Definition text_of (p : payload) (max_bytes : Z) : res string :=
  match p with
  | Bytes b =>
      _ ← check (count b <=? max_bytes) "oversized";
      match utf8_decode b with Some s => Ok s | None => fails "invalid_utf8" end
  | Text s =>
      raw ← encode_utf8 s;
      _ ← check (count raw <=? max_bytes) "oversized";
      Ok s
  end.

(** ** File listings *)
Definition drive_prefix (l : list string) : bool :=
  match l with
  | d :: c :: s :: _ => letter_char d && negb (char_is "_" d) && char_is ":" c && char_is "/" s
  | _ => false
  end.
Definition safe_filename (name : string) : bool :=
  let l := chars name in
  (1 <=? py_len name) && (py_len name <=? MAX_FILENAME_LENGTH)
  && negb (startswith "/" name || drive_prefix l)
  && negb (existsb (fun g => char_is (Z_byte 92) g || (code_point g <? 32) || (code_point g =? 127)) l)
  && forallb (fun part => negb (in_strs part [""; "."; ".."])) (py_split "/" name).
(** [s.endswith(p)] *)
Definition endswith (p s : string) : bool :=
  let n := (String.length s - String.length p)%nat in
  Nat.leb (String.length p) (String.length s) && String.eqb (substring n (String.length p) s) p.
Definition crlf : string := String (Z_byte 13) (String (Z_byte 10) EmptyString).

Record qfile_listing := {
  ql_file_count : Z;
  ql_gno_file_count : Z;
  ql_test_file_count : Z;
  ql_has_gnomod : bool;
  ql_filenames : list string
}.
Definition add_filename (seen : list string) (line : string) : res (list string) :=
  _ ← check (safe_filename line) "invalid_filename";
  _ ← check (negb (in_strs line seen)) "duplicate_filename";
  Ok (seen ++ [line]).
Definition parse_qfile_listing (p : payload) : res qfile_listing :=
  text ← text_of p MAX_ABCI_RESPONSE_BYTES;
  _ ← check (negb (String.eqb text "")) "empty_listing";
  _ ← check (negb (py_contains (newline +:+ newline) text || py_contains (crlf +:+ crlf) text)) "invalid_filename";
  let lines := py_splitlines text in
  _ ← check (Nat.leb (length lines) MAX_FILES) "too_many_files";
  filenames ← foldM_res add_filename [] lines;
  let gno_files := List.filter (endswith ".gno") filenames in
  Ok (Build_qfile_listing (count filenames) (count gno_files) (count (List.filter (endswith "_test.gno") gno_files))
        (in_strs "gnomod.toml" filenames) filenames).

(** ** Gno sources *)

(** The end of a line, after spaces and a comment if there is one. *)
Definition line_end (l : list string) : bool :=
  match spaces l with [] => true | r => bool_decide (is_Some (literal "//" r)) end.
Definition quote : ascii := Z_byte 34.
(** A quoted path with nothing after it but spaces and a comment. *)
Definition quoted_path (l : list string) : option string :=
  r ← take_char quote l;
  match span_chars (fun g => negb (char_is quote g)) r with
  | ((_ :: _) as path, _ :: rest) => if line_end rest then Some (str_concat path) else None
  | _ => None
  end.
(** An optional alias (a name, an underscore or a dot) before the quoted path. *)
Definition import_spec (l : list string) : option string :=
  let alias := match identifier l with Some r => Some r | None => take_char "." l end in
  quoted_path (default l (r ← alias; spaces1 r)).
Definition import_group_start (line : string) : bool :=
  match (r ← literal "import" (spaces (chars line)); r ← take_char "(" (spaces r); Some (line_end r)) with
  | Some b => b
  | None => false
  end.
Definition import_line (line : string) : option string :=
  r ← literal "import" (spaces (chars line)); r ← spaces1 r; import_spec r.
Definition import_group_item (line : string) : option string := import_spec (spaces (chars line)).

(** One line of [_import_candidates]. *)
Definition import_step (s : list string * bool) (raw_line : string) : list string * bool :=
  let '(candidates, in_group) := s in
  let line := py_strip raw_line in
  if in_group then
    if startswith ")" line then (candidates, false)
    else if String.eqb line "" || startswith "//" line then s
    else match import_group_item raw_line with Some v => (candidates ++ [v], true) | None => s end
  else if String.eqb line "" || startswith "//" line then s
  else if import_group_start raw_line then (candidates, true)
  else match import_line raw_line with Some v => (candidates ++ [v], false) | None => s end.
Definition import_candidates (text : string) : res (list string) :=
  s ← foldM_res (fun s line => let s' := import_step s line in
                                _ ← check (count s'.1 <=? MAX_IMPORT_CANDIDATES) "too_many_imports"; Ok s')
        ([], false) (py_splitlines text);
  Ok s.1.

(** [_PACKAGE_RE.search(text)]: the pattern starts at the start of a line, and
    its spaces may cross lines. *)
Definition newline_char (g : string) : bool := char_is (Z_byte 10) g.
Definition package_end (l : list string) : bool :=
  let '(ws, r) := span_chars is_space_char l in
  existsb newline_char ws || match r with [] => true | _ => bool_decide (is_Some (literal "//" r)) end.
Definition package_at (l : list string) : bool :=
  match (r ← literal "package" (spaces l); r ← spaces1 r; identifier r) with Some r => package_end r | None => false end.
Fixpoint package_search (line_start : bool) (l : list string) : bool :=
  (line_start && package_at l) || match l with [] => false | g :: r => package_search (newline_char g) r end.

Definition sha256_hex (s : string) : string := bytes_hex (sha256 (list_of_string s)).
Record source_summary := {
  ss_filename : string;
  ss_byte_count : Z;
  ss_line_count : Z;
  ss_sha256 : string;
  ss_package_declared : bool;
  ss_import_candidate_count : Z;
  ss_gno_land_imports : list string
}.
Definition summarize_source_file (filename : string) (p : payload) : res source_summary :=
  _ ← check (safe_filename filename && endswith ".gno" filename) "invalid_filename";
  text ← text_of p MAX_SOURCE_BYTES;
  let line_count := count (py_splitlines text) in
  _ ← check (line_count <=? MAX_SOURCE_LINES) "too_many_lines";
  candidates ← import_candidates text;
  let gno_imports := sort_str (remove_dups (List.filter (startswith "gno.land/") candidates)) in
  Ok (Build_source_summary filename (text_size text) line_count (sha256_hex text) (package_search true (chars text))
        (count candidates) gno_imports).

(** ** JSON documents *)
Section json.
Context `{PyRuntime} `{JsonStack}.

Definition load_json (p : payload) : res (val * Z) :=
  text ← text_of p MAX_ABCI_RESPONSE_BYTES;
  match json_loads_str (fun _ => fails "invalid_json_constant") text with
  | Ok v => Ok (v, text_size text)
  | Raise (MetadataParseError m) => fails m
  | Raise e => if isinstance_ValueError e then fails "malformed_json" else Raise e
  end.

Definition has_nul (s : string) : bool := negb (str_forallb (fun a => negb (byte_Z a =? 0)) s).
Definition valid_key (k : string) : bool := negb (has_nul k) && (py_len k <=? MAX_STRING_LENGTH).
(** [state]: the nodes seen and the greatest depth. *)
Fixpoint validate_json (v : val) (depth : Z) (state : Z * Z) : res (Z * Z) :=
  _ ← check (depth <=? MAX_JSON_DEPTH) "excessive_depth";
  let state := (state.1 + 1, Z.max state.2 depth) in
  _ ← check (state.1 <=? MAX_JSON_NODES) "excessive_nodes";
  match v with
  | VStr s =>
      _ ← check (negb (has_nul s)) "nul_character";
      _ ← check (py_len s <=? MAX_STRING_LENGTH) "string_too_long";
      Ok state
  | VFloat f => _ ← check (isfinite f) "non_finite_number"; Ok state
  | VList l => (fix items l state := match l with
                                     | [] => Ok state
                                     | x :: l => state ← validate_json x (depth + 1) state; items l state
                                     end) l state
  | VDict d => (fix members d state := match d with
                                       | [] => Ok state
                                       | (k, x) :: d => _ ← check (valid_key k) "invalid_key";
                                                        state ← validate_json x (depth + 1) state; members d state
                                       end) d state
  | _ => Ok state
  end.
Definition validate_document (v : val) : res (Z * Z) := validate_json v 0 (0, 0).

Definition is_printable (s : string) : bool := forallb (fun g => is_printable_cp (code_point g)) (chars s).
(** The fold over the functions: names, with parameters, with results,
    whether a name is repeated. *)
Definition qfuncs_state : Type := list string * Z * Z * bool.
Definition signature_field (func : list (string * val)) (field : string) : res bool :=
  let v := dget func field in
  _ ← check (is_None v || is_list v) "invalid_signature";
  match v with
  | VList items => _ ← check (forallb is_dict items) "invalid_signature_item"; Ok (negb (Nat.eqb (length items) 0))
  | _ => Ok false
  end.
Definition add_func (s : qfuncs_state) (func : val) : res qfuncs_state :=
  let '(names, with_params, with_results, duplicate) := s in
  match func with
  | VDict d =>
      match dget d "FuncName" with
      | VStr name =>
          _ ← check ((1 <=? py_len name) && (py_len name <=? MAX_FUNC_NAME_LENGTH) && is_printable name) "invalid_function_name";
          params ← signature_field d "Params";
          results ← signature_field d "Results";
          Ok (names ++ [name], with_params + Z.b2z params, with_results + Z.b2z results, duplicate || in_strs name names)
      | _ => fails "invalid_function_name"
      end
  | _ => fails "invalid_function"
  end.
Definition parse_qfuncs (p : payload) : res val :=
  '(data, _) ← load_json p;
  match data with
  | VList funcs =>
      _ ← check (count funcs <=? MAX_FUNCS) "too_many_functions";
      _ ← validate_document data;
      '(names, with_params, with_results, duplicate) ← foldM_res add_func ([], 0, 0, false) funcs;
      Ok (VDict [("function_count", VInt (count funcs)); ("function_names", VList (map VStr (take 50 names)));
                 ("functions_with_params", VInt with_params); ("functions_with_results", VInt with_results);
                 ("duplicate_names", VBool duplicate)])
  | _ => fails "wrong_top_level"
  end.

(** [_first_present] *)
Fixpoint first_present (d : list (string * val)) (keys : list string) (default : val) : val :=
  match keys with
  | [] => default
  | k :: keys => match dict_get k d with Some v => v | None => first_present d keys default end
  end.
Definition doc_collection (d : list (string * val)) (keys : list string) : res (list val) :=
  match first_present d keys (VList []) with
  | VList l => _ ← check (count l <=? MAX_QDOC_ITEMS) "invalid_doc_collection";
               _ ← check (forallb is_dict l) "invalid_doc_collection";
               Ok l
  | _ => fails "invalid_doc_collection"
  end.
Definition documented (item : val) : bool :=
  match item with
  | VDict d => match dget d "doc" with VStr s => (0 <? py_len s) && (py_len s <=? MAX_STRING_LENGTH) | _ => false end
  | _ => false
  end.
Definition parse_qdoc (p : payload) (requested_path : option string) : res val :=
  '(data, byte_count) ← load_json p;
  match data with
  | VDict d =>
      _ ← validate_document data;
      let package_path := first_present d ["package_path"; "PackagePath"; "Path"] VNone in
      _ ← check (match requested_path with
                 | Some path => is_None package_path || py_eq package_path (VStr path)
                 | None => true
                 end) "path_mismatch";
      let package_doc := first_present d ["package_doc"; "PackageDoc"; "Doc"; "doc"] (VStr "") in
      _ ← check (is_None package_doc || is_str package_doc) "invalid_package_doc";
      funcs ← doc_collection d ["funcs"; "Funcs"];
      values ← doc_collection d ["values"; "Values"];
      types ← doc_collection d ["types"; "Types"];
      Ok (VDict [("available", VBool true); ("package_doc_present", VBool (is_str package_doc && truthy package_doc));
                 ("documented_function_count", VInt (count (List.filter documented funcs)));
                 ("value_count", VInt (count values)); ("type_count", VInt (count types)); ("byte_count", VInt byte_count)])
  | _ => fails "wrong_top_level"
  end.
Definition parse_qpkg_json (p : payload) : res val :=
  '(data, byte_count) ← load_json p;
  _ ← check (is_dict data || is_list data) "wrong_top_level";
  '(nodes, max_depth) ← validate_document data;
  Ok (VDict [("available", VBool true); ("top_level_type", VStr (if is_dict data then "dict" else "list"));
             ("top_level_keys", VList (match data with VDict d => map VStr (take 50 (sort_str (dict_keys d))) | _ => [] end));
             ("byte_count", VInt byte_count); ("maximum_depth", VInt max_depth); ("node_count", VInt nodes)]).
End json.

(** ** Renders and storage *)
Record render_summary := {
  rd_byte_count : Z;
  rd_line_count : Z;
  rd_non_empty : bool;
  rd_sha256 : string
}.
Definition summarize_qrender (p : payload) : res render_summary :=
  text ← text_of p MAX_ABCI_RESPONSE_BYTES;
  Ok (Build_render_summary (text_size text) (count (py_splitlines text)) (negb (String.eqb (py_strip text) "")) (sha256_hex text)).

(** [_STORAGE_RE.fullmatch(text)] *)
Definition storage_re (text : string) : option (list ascii * list ascii) :=
  r ← starts "storage: " (list_of_string text);
  match span_list is_digit r with
  | ((_ :: _) as storage, r) =>
      r ← starts ", deposit: " r;
      match span_list is_digit r with ((_ :: _) as deposit, []) => Some (storage, deposit) | _ => None end
  | _ => None
  end.
Record storage_summary := { st_storage_bytes : Z; st_deposit_ugnot : Z }.
Definition parse_qstorage (p : payload) : res storage_summary :=
  text ← text_of p MAX_ABCI_RESPONSE_BYTES;
  match storage_re text with
  | None => fails "malformed_storage"
  | Some (storage, deposit) =>
      _ ← check ((count storage <=? MAX_STORAGE_DIGITS) && (count deposit <=? MAX_STORAGE_DIGITS)) "integer_too_large";
      Ok (Build_storage_summary (digits_of storage) (digits_of deposit))
  end.

(** ** The validated JSON documents

    [json_depth] and [json_nodes] are the depth and the number of nodes of a
    document, [json_clean] says its texts and numbers are accepted. *)
Fixpoint json_depth (v : val) : Z :=
  match v with
  | VList l => (fix go l := match l with [] => 0 | x :: l => Z.max (1 + json_depth x) (go l) end) l
  | VDict d => (fix go d := match d with [] => 0 | (_, x) :: d => Z.max (1 + json_depth x) (go d) end) d
  | _ => 0
  end.
Fixpoint json_nodes (v : val) : Z :=
  match v with
  | VList l => (fix go l := match l with [] => 1 | x :: l => json_nodes x + go l end) l
  | VDict d => (fix go d := match d with [] => 1 | (_, x) :: d => json_nodes x + go d end) d
  | _ => 1
  end.
Fixpoint json_clean (v : val) : bool :=
  match v with
  | VStr s => valid_key s
  | VFloat f => isfinite f
  | VList l => forallb json_clean l
  | VDict d => forallb (fun kv => valid_key kv.1 && json_clean kv.2) d
  | _ => true
  end.
Definition lists_depth (l : list val) : Z := foldr (fun x m => Z.max (1 + json_depth x) m) 0 l.
Definition lists_nodes (l : list val) : Z := foldr (fun x n => json_nodes x + n) 0 l.
Lemma json_depth_list l : json_depth (VList l) = lists_depth l.
Proof. unfold lists_depth. cbn [json_depth]. induction l as [|x l IH]; [done|]. by rewrite IH. Qed.
Lemma json_depth_dict d : json_depth (VDict d) = lists_depth d.*2.
Proof. unfold lists_depth. cbn [json_depth]. induction d as [|[k x] d IH]; [done|]. by rewrite IH. Qed.
Lemma json_nodes_list l : json_nodes (VList l) = 1 + lists_nodes l.
Proof. unfold lists_nodes. cbn [json_nodes]. induction l as [|x l IH]; [done|]. rewrite IH. cbn [foldr]. lia. Qed.
Lemma json_nodes_dict d : json_nodes (VDict d) = 1 + lists_nodes d.*2.
Proof. unfold lists_nodes. cbn [json_nodes]. induction d as [|[k x] d IH]; [done|]. rewrite IH. cbn [fmap list_fmap foldr snd]. lia. Qed.

(** What [validate_json] decides from a depth, a count and a greatest depth. *)
Definition accepts (clean : bool) (depth nodes : Z) (state : Z * Z) (m : res (Z * Z)) : Prop :=
  forall st, m = Ok st <-> clean = true /\ depth <= MAX_JSON_DEPTH /\ state.1 + nodes <= MAX_JSON_NODES
                           /\ st = (state.1 + nodes, Z.max state.2 depth).
Definition accepted (v : val) : Prop := 1 <= json_nodes v /\ 0 <= json_depth v /\
  forall depth state, accepts (json_clean v) (depth + json_depth v) (json_nodes v) state (validate_json v depth state).

(** The loop over the children of a node at [depth]: a pair says whether the
    key of the child is valid. *)
Definition visit (depth : Z) (s : Z * Z) (kx : bool * val) : res (Z * Z) :=
  _ ← check kx.1 "invalid_key"; validate_json kx.2 (depth + 1) s.
Lemma lists_nonneg l : Forall accepted l -> 0 <= lists_nodes l /\ 0 <= lists_depth l.
Proof. induction 1 as [|x l (Hn & _) _ [IH1 IH2]]; [done|]. unfold lists_nodes, lists_depth in *; cbn [foldr]; lia. Qed.
Lemma visit_children depth l : Forall (fun kx => accepted kx.2) l ->
  forall state, state.1 <= MAX_JSON_NODES -> depth <= MAX_JSON_DEPTH -> depth <= state.2 ->
  accepts (forallb (fun kx => kx.1 && json_clean kx.2) l) (depth + lists_depth l.*2) (lists_nodes l.*2) state
    (foldM_res (visit depth) state l).
Proof.
  intros Hl. induction Hl as [|[b x] l (Hn & Hd & Hx) Hl IH]; intros state Hs Hm Ht st.
  - cbn. rewrite !Z.add_0_r, Z.max_l by done. destruct state as [n m]. simpl in *. split; [intros [= <-]; done|intros (_ & _ & _ & ->); done].
  - assert (Forall accepted l.*2) as [Hn' Hd']%lists_nonneg by (by apply Forall_fmap).
    rewrite fmap_cons. cbn [forallb foldM_res fst snd] in *. change (lists_depth (x :: l.*2)) with (Z.max (1 + json_depth x) (lists_depth l.*2)).
    change (lists_nodes (x :: l.*2)) with (json_nodes x + lists_nodes l.*2).
    rewrite bind_Ok. unfold visit at 1. cbn [fst snd]. split.
    + intros (s1 & H1 & H2). apply bind_Ok in H1 as ([] & Hb%require_Ok & H1).
      apply Hx in H1 as (Hc & Hd1 & Hn1 & ->). apply IH in H2 as (Hcs & Hd2 & Hn2 & ->); simpl in *; [|lia..].
      rewrite Hb, Hc, Hcs. split_and!; [done|lia|lia|f_equal; lia].
    + intros (([-> Hc]%andb_prop & Hcs)%andb_prop & Hd1 & Hn1 & ->).
      exists (state.1 + json_nodes x, Z.max state.2 (depth + 1 + json_depth x)). split.
      * cbn [require check mbind res_bind]. apply Hx. split_and!; [done|lia|lia|done].
      * apply IH; simpl; [lia..|]. split_and!; [done|lia|lia|f_equal; lia].
Qed.

Definition enter (depth : Z) (state : Z * Z) (rest : Z * Z -> res (Z * Z)) : res (Z * Z) :=
  _ ← check (depth <=? MAX_JSON_DEPTH) "excessive_depth";
  _ ← check (state.1 + 1 <=? MAX_JSON_NODES) "excessive_nodes";
  rest (state.1 + 1, Z.max state.2 depth).
Lemma enter_accepts depth state rest clean d n : 0 <= d -> 1 <= n ->
  (depth <= MAX_JSON_DEPTH -> state.1 + 1 <= MAX_JSON_NODES ->
   accepts clean (depth + d) (n - 1) (state.1 + 1, Z.max state.2 depth) (rest (state.1 + 1, Z.max state.2 depth))) ->
  accepts clean (depth + d) n state (enter depth state rest).
Proof.
  intros Hd Hn Hr st. unfold enter. rewrite bind_Ok. setoid_rewrite bind_Ok. unfold check. split.
  - intros ([] & H1%require_Ok%Z.leb_le & [] & H2%require_Ok%Z.leb_le & H3). apply (Hr H1 H2) in H3 as (? & ? & ? & ->).
    simpl in *. split_and!; [done|lia|lia|f_equal; lia].
  - intros (? & ? & ? & ->). exists tt. split; [apply require_Ok; lia|]. exists tt. split; [apply require_Ok; lia|].
    apply Hr; [lia..|]. simpl. split_and!; [done|lia|lia|f_equal; lia].
Qed.
Lemma validate_leaf v depth state : match v with VList _ | VDict _ | VStr _ | VFloat _ => False | _ => True end ->
  validate_json v depth state = enter depth state Ok.
Proof. by destruct v. Qed.
Lemma validate_str s depth state :
  validate_json (VStr s) depth state
  = enter depth state (fun st => _ ← check (negb (has_nul s)) "nul_character"; _ ← check (py_len s <=? MAX_STRING_LENGTH) "string_too_long"; Ok st).
Proof. done. Qed.
Lemma validate_float f depth state :
  validate_json (VFloat f) depth state = enter depth state (fun st => _ ← check (isfinite f) "non_finite_number"; Ok st).
Proof. done. Qed.
Lemma validate_list l depth state :
  validate_json (VList l) depth state = enter depth state (fun st => foldM_res (visit depth) st (map (pair true) l)).
Proof.
  cbn [validate_json]. unfold enter. destruct (check _ _); [|done]. cbn [mbind res_bind fst snd].
  destruct (check _ _); [|done]. cbn [mbind res_bind]. generalize (state.1 + 1, Z.max state.2 depth).
  induction l as [|x l IH]; intros st; [done|]. cbn [map foldM_res visit fst snd check require mbind res_bind].
  destruct (validate_json x (depth + 1) st); [apply IH|done].
Qed.
Lemma validate_dict d depth state :
  validate_json (VDict d) depth state
  = enter depth state (fun st => foldM_res (visit depth) st (map (fun kx => (valid_key kx.1, kx.2)) d)).
Proof.
  cbn [validate_json]. unfold enter. destruct (check _ _); [|done]. cbn [mbind res_bind fst snd].
  destruct (check _ _); [|done]. cbn [mbind res_bind]. generalize (state.1 + 1, Z.max state.2 depth).
  induction d as [|[k x] d IH]; intros st; [done|]. cbn [map foldM_res fst snd].
  change (visit depth st (valid_key k, x)) with (_ ← check (valid_key k) "invalid_key"; validate_json x (depth + 1) st).
  destruct (check (valid_key k) _); [|done]. cbn [mbind res_bind]. destruct (validate_json x (depth + 1) st); [apply IH|done].
Qed.
Lemma Ok_accepts (b : bool) depth state (m : res (Z * Z)) :
  depth <= MAX_JSON_DEPTH -> state.1 <= MAX_JSON_NODES -> depth <= state.2 -> (m = Ok state <-> b = true) -> (forall st, m = Ok st -> st = state) ->
  accepts b (depth + 0) 0 state m.
Proof.
  intros Hd Hn Hm Hb Hst st. rewrite !Z.add_0_r, Z.max_l, <-surjective_pairing by done. split.
  - intros H. pose proof (Hst st H) as ->. apply Hb in H. done.
  - intros (Hb' & _ & _ & ->). by apply Hb.
Qed.
Lemma forallb_over_map {A B} (p : B -> bool) (f : A -> B) l : forallb p (map f l) = forallb (fun a => p (f a)) l.
Proof. induction l as [|a l IH]; simpl; congruence. Qed.
Lemma json_accepted v : accepted v.
Proof.
  induction v as [| | |f|s|l IH|d IH] using val_ind'.
  1-3: split_and!; [done..|intros depth state; rewrite validate_leaf by done; apply enter_accepts; [done..|];
       intros; apply Ok_accepts; simpl; [lia..|done|naive_solver]].
  - split_and!; [done..|]. intros depth state. rewrite validate_float. apply enter_accepts; [done..|].
    intros. apply Ok_accepts; simpl; [lia..| |]; unfold check; destruct (isfinite f); naive_solver.
  - split_and!; [done..|]. intros depth state. rewrite validate_str. apply enter_accepts; [done..|].
    intros. apply Ok_accepts; simpl; [lia..| |]; unfold check, valid_key; destruct (has_nul s), (_ <=? _); naive_solver.
  - destruct (lists_nonneg l IH). split_and!; [rewrite json_nodes_list; lia|rewrite json_depth_list; lia|].
    intros depth state. rewrite json_nodes_list, json_depth_list, validate_list. apply enter_accepts; [lia..|]. intros.
    pose proof (visit_children depth (map (pair true) l) ltac:(by apply Forall_map)) as Hv.
    replace ((map (pair true) l).*2) with l in Hv by (clear; induction l as [|x l IH]; simpl; [done|by f_equal]).
    rewrite forallb_over_map in Hv.
    intros st. rewrite Z.add_simpl_l. apply (Hv (_, _)); simpl; lia.
  - assert (Forall accepted d.*2) as [Hn Hd]%lists_nonneg by (by apply Forall_fmap). split_and!; [rewrite json_nodes_dict; lia|rewrite json_depth_dict; lia|].
    intros depth state. rewrite json_nodes_dict, json_depth_dict, validate_dict. apply enter_accepts; [lia..|]. intros.
    pose proof (visit_children depth (map (fun kx => (valid_key kx.1, kx.2)) d) ltac:(by apply Forall_map)) as Hv.
    replace ((map (fun kx : string * val => (valid_key kx.1, kx.2)) d).*2) with d.*2 in Hv
      by (clear; induction d as [|x d IH]; simpl; [done|by f_equal]).
    rewrite forallb_over_map in Hv.
    intros st. rewrite Z.add_simpl_l. apply (Hv (_, _)); simpl; lia.
Qed.

(** The validation of a JSON document accepts exactly the documents whose
    nesting is at most 24, whose nodes are at most 20000, and whose texts,
    keys and numbers are all allowed (no NUL, at most 16384 characters,
    finite); the walk that counts as it goes then returns the true number of
    nodes and the true depth. *)
Theorem validate_document_iff v st :
  validate_document v = Ok st <->
  json_clean v = true /\ json_depth v <= MAX_JSON_DEPTH /\ json_nodes v <= MAX_JSON_NODES /\ st = (json_nodes v, json_depth v).
Proof.
  destruct (json_accepted v) as (_ & Hd & Hv). unfold validate_document. rewrite (Hv 0 (0, 0) st). simpl.
  by rewrite Z.max_r by done.
Qed.

Definition storage_text (storage deposit : Z) : string :=
  "storage: " +:+ str_of_nonneg storage +:+ ", deposit: " +:+ str_of_nonneg deposit.
Lemma storage_text_ascii a b : 0 <= a -> 0 <= b -> encode_utf8 (storage_text a b) = Ok (list_of_string (storage_text a b)).
Proof.
  intros Ha Hb. unfold encode_utf8. rewrite utf8_valid_ascii; [done|]. rewrite <-is_ascii_list. unfold storage_text, is_ascii.
  rewrite !str_forallb_app. fold (is_ascii (str_of_nonneg a)) (is_ascii (str_of_nonneg b)).
  destruct (dec_digits_ok a Ha) as (_ & Fa & _), (dec_digits_ok b Hb) as (_ & Fb & _).
  unfold str_of_nonneg. by rewrite !digits_str_ascii.
Qed.
Lemma storage_re_text a b : 0 <= a -> 0 <= b ->
  storage_re (storage_text a b) = Some (map digit_char (dec_digits a), map digit_char (dec_digits b)).
Proof.
  intros Ha Hb. destruct (dec_digits_ok a Ha) as (_ & Hda & Hna & _), (dec_digits_ok b Hb) as (_ & Hdb & Hnb & _).
  unfold storage_re, storage_text. rewrite !list_of_string_app, starts_app. cbn [mbind option_bind].
  unfold str_of_nonneg, digits_str. rewrite !list_of_string_of_list, span_digits by done.
  destruct (map digit_char (dec_digits a)) as [|x xs] eqn:Ea; [by apply map_eq_nil in Ea|].
  rewrite starts_app. cbn [mbind option_bind].
  rewrite <-(app_nil_r (map digit_char (dec_digits b))), span_digits by done. rewrite app_nil_r.
  by destruct (map digit_char (dec_digits b)) as [|y ys] eqn:Eb; [apply map_eq_nil in Eb|].
Qed.
Lemma dec_digits_length n k : 0 <= n < 10 ^ k -> 1 <= k -> count (map digit_char (dec_digits n)) <= k.
Proof. intros Hn Hk. destruct (dec_digits_ok n ltac:(lia)) as (_ & _ & _ & Hl). unfold count. rewrite length_map. apply Hl; lia. Qed.
Lemma storage_text_size a b : 0 <= a < 10 ^ 40 -> 0 <= b < 10 ^ 40 ->
  (count (list_of_string (storage_text a b)) <=? MAX_ABCI_RESPONSE_BYTES) = true.
Proof.
  intros Ha Hb. pose proof (dec_digits_length a 40 Ha ltac:(lia)) as La. pose proof (dec_digits_length b 40 Hb ltac:(lia)) as Lb.
  apply Z.leb_le. unfold storage_text, str_of_nonneg, digits_str, count in *.
  rewrite !list_of_string_app, !list_of_string_of_list, !length_app. cbn [length list_of_string String.list_ascii_of_string].
  unfold MAX_ABCI_RESPONSE_BYTES. lia.
Qed.
Lemma parse_qstorage_bounds p s : parse_qstorage p = Ok s ->
  0 <= st_storage_bytes s < 10 ^ 40 /\ 0 <= st_deposit_ugnot s < 10 ^ 40.
Proof.
  unfold parse_qstorage, check. intros Hp. inv_res. destruct (storage_re a) as [[x y]|]; [|done].
  apply bind_Ok in Hp as (u & Hc%require_Ok & [= <-]). simpl. apply andb_true_iff in Hc as [Hx%Z.leb_le Hy%Z.leb_le]. unfold count, MAX_STORAGE_DIGITS in *.
  pose proof (digits_of_range x). pose proof (digits_of_range y).
  pose proof (Z.pow_le_mono_r 10 (Z.of_nat (length x)) 40). pose proof (Z.pow_le_mono_r 10 (Z.of_nat (length y)) 40). lia.
Qed.

(** Every pair of balances below 10^40, printed the way the chain prints
    them, is read back as that pair: no balance is truncated or misread. *)
Theorem parse_qstorage_roundtrip a b : 0 <= a < 10 ^ 40 -> 0 <= b < 10 ^ 40 ->
  parse_qstorage (Text (storage_text a b)) = Ok (Build_storage_summary a b).
Proof.
  intros Ha Hb. pose proof (dec_digits_length a 40 Ha ltac:(lia)) as La. pose proof (dec_digits_length b 40 Hb ltac:(lia)) as Lb.
  unfold parse_qstorage, text_of. rewrite storage_text_ascii by lia. cbn [mbind res_bind].
  rewrite storage_text_size by done. cbn [check require mbind res_bind].
  rewrite storage_re_text by lia. unfold check, MAX_STORAGE_DIGITS.
  rewrite (proj2 (Z.leb_le _ _) La), (proj2 (Z.leb_le _ _) Lb). cbn [andb require mbind res_bind].
  destruct (dec_digits_ok a ltac:(lia)) as (Va & Fa & _), (dec_digits_ok b ltac:(lia)) as (Vb & Fb & _).
  by rewrite !digits_of_digits, Va, Vb by done.
Qed.
Lemma parse_qstorage_roundtrip_witness :
  parse_qstorage (Text "storage: 1204, deposit: 9999999999999999999999999999999999999999")
  = Ok (Build_storage_summary 1204 (10 ^ 40 - 1)).
Proof. apply (parse_qstorage_roundtrip 1204 (10 ^ 40 - 1)); lia. Defined.

(** ** Listings *)
Lemma foldM_add_filename lines seen fs : foldM_res add_filename seen lines = Ok fs <->
  fs = seen ++ lines /\ forallb safe_filename lines = true /\ (forall x, x ∈ lines -> x ∉ seen) /\ NoDup lines.
Proof.
  revert seen. induction lines as [|x lines IH]; intros seen; cbn [foldM_res forallb].
  - rewrite app_nil_r. split; [intros [= <-]; split_and!; [done|done|set_solver|constructor]|intros (-> & _); done].
  - rewrite bind_Ok. split.
    + intros (s' & H1 & H2). unfold add_filename, check in H1. apply bind_Ok in H1 as ([] & Ha%require_Ok & H1). apply bind_Ok in H1 as ([] & Ha0%require_Ok & [= <-]).
      apply IH in H2 as (-> & Hs & Hd & Hn). apply negb_true_iff, not_true_iff_false in Ha0.
      rewrite in_strs_spec in Ha0. rewrite Ha, Hs, <-app_assoc. split_and!; [done|done| |].
      * intros y [->|Hy]%elem_of_cons; [done|]. specialize (Hd y Hy). set_solver.
      * constructor; [|done]. intros Hx. specialize (Hd x Hx). set_solver.
    + intros (-> & [Hx Hs]%andb_prop & Hd & [Hx' Hn]%NoDup_cons). exists (seen ++ [x]). split.
      * unfold add_filename, check. rewrite Hx. cbn [require mbind res_bind]. destruct (in_strs x seen) eqn:E; [|done].
        apply in_strs_spec in E. exfalso. apply (Hd x); [by left|done].
      * apply IH. split_and!; [by rewrite <-app_assoc|done| |done]. intros y Hy. specialize (Hd y). set_solver.
Qed.
Lemma safe_filename_nonempty s : safe_filename s = true -> s <> EmptyString.
Proof. by intros H ->. Qed.

Definition listing_of (filenames : list string) : qfile_listing :=
  let gno_files := List.filter (endswith ".gno") filenames in
  Build_qfile_listing (count filenames) (count gno_files) (count (List.filter (endswith "_test.gno") gno_files))
    (in_strs "gnomod.toml" filenames) filenames.
(** The file names of a listing: a few safe, distinct, non-empty lines. *)
Record good_listing (filenames : list string) : Prop := {
  gl_nonempty : filenames <> [];
  gl_few : (length filenames <= MAX_FILES)%nat;
  gl_safe : forallb safe_filename filenames = true;
  gl_distinct : NoDup filenames;
  gl_lines : Forall is_line filenames;
  gl_size : lines_size filenames <= MAX_ABCI_RESPONSE_BYTES + 1
}.
Lemma text_of_Ok p n text : text_of p n = Ok text -> utf8 text = true /\ text_size text <= n /\
  (p = Text text \/ p = Bytes (list_of_string text)).
Proof.
  unfold text_of, check, count, text_size, utf8, encode_utf8, utf8_decode. intros Hp. destruct p as [b|s].
  - apply bind_Ok in Hp as ([] & Hn%require_Ok%Z.leb_le & Hp). destruct (utf8_valid b) eqn:E; [|done]. injection Hp as <-.
    rewrite list_of_string_of_list, str_length_of_list. split_and!; [done|lia|by right].
  - destruct (utf8_valid (list_of_string s)) eqn:E; [|done]. cbn [mbind res_bind] in Hp.
    apply bind_Ok in Hp as ([] & Hn%require_Ok%Z.leb_le & [= <-]). rewrite length_list_of_string in Hn.
    split_and!; [done|lia|by left].
Qed.
Lemma text_of_Text text n : utf8 text = true -> text_size text <= n -> text_of (Text text) n = Ok text.
Proof.
  unfold text_of, utf8, encode_utf8, check, count, text_size. intros -> Hn. cbn [mbind res_bind].
  rewrite length_list_of_string, (proj2 (Z.leb_le _ _) Hn). done.
Qed.
Lemma parse_qfile_listing_good p l : parse_qfile_listing p = Ok l -> l = listing_of (ql_filenames l) /\ good_listing (ql_filenames l).
Proof.
  unfold parse_qfile_listing, check. intros Hp.
  apply bind_Ok in Hp as (text & Ht & Hp). apply bind_Ok in Hp as ([] & Hne%require_Ok & Hp).
  apply bind_Ok in Hp as ([] & Hg%require_Ok & Hp). apply bind_Ok in Hp as ([] & Hf%require_Ok & Hp).
  apply bind_Ok in Hp as (fs & Hfs & [= <-]). apply foldM_add_filename in Hfs as (-> & Hs & _ & Hn). cbn [app ql_filenames].
  split; [done|]. apply text_of_Ok in Ht as (Hu & Hsz & _). destruct (splitlines_ok text Hu) as [Hl Hls].
  constructor; [|by apply Nat.leb_le|done|done|done|lia].
  unfold py_splitlines. intros E. assert (chars text <> []) as Hc.
  { intros E'%chars_nil. by rewrite E' in Hne. }
  destruct (chars text) as [|g r] eqn:Ec; [done|]. pose proof (utf8_chars text Hu) as Hgs. rewrite Ec in Hgs.
  apply Forall_cons in Hgs as [Hg0%utf8_group_size _]. cbn [lines_aux] in E. destruct (is_linebreak g); [done|].
  cbn in E. revert E. clear -Hg0. generalize g Hg0. induction r as [|h r IH]; intros g0 Hg; cbn [lines_aux].
  - rewrite bool_decide_eq_false_2; [done|]. by intros ->.
  - destruct (is_linebreak h); [done|]. apply IH. rewrite text_size_app. unfold text_size in *. lia.
Qed.
Lemma py_split_app sep a b : py_split sep (a +:+ String sep b) = py_split sep a ++ py_split sep b.
Proof.
  unfold py_split. enough (H : forall cur, split_aux sep cur (a +:+ String sep b) = split_aux sep cur a ++ split_aux sep EmptyString b) by apply H.
  induction a as [|c a IH]; intros cur; cbn [String.append split_aux].
  - by rewrite bool_decide_eq_true_2.
  - case_bool_decide; cbn [app]; by rewrite IH.
Qed.
Lemma listing_no_gap filenames p : good_listing filenames -> (p = newline +:+ newline \/ p = crlf +:+ crlf) ->
  py_contains p (py_join newline filenames) = false.
Proof.
  intros [Hne _ Hs _ Hl _] Hp. apply not_true_iff_false. intros (a & b & E)%contains_inv.
  assert (Hbytes : forall c, is_ascii_byte c = true -> is_linebreak (String c EmptyString) = true ->
    Forall (fun s => str_forallb (not_byte c) s = true) filenames).
  { intros c Hc Hb. eapply Forall_impl; [exact Hl|]. intros s. by apply line_no_byte. }
  destruct Hp as [-> | ->].
  - assert (py_split (Z_byte 10) (py_join newline filenames) = filenames) as E'.
    { apply py_split_join; [done|]. by apply Hbytes. }
    rewrite E in E'. cbn [newline String.append] in E'. rewrite !py_split_app in E'.
    assert (EmptyString ∈ filenames) as Hin by (rewrite <-E'; set_solver).
    rewrite forallb_forall in Hs. by specialize (Hs _ (proj1 (list_elem_of_In _ _) Hin)).
  - assert (str_forallb (not_byte (Z_byte 13)) (py_join newline filenames) = true) as Hb.
    { apply str_forallb_join; [done|]. by apply Hbytes. }
    rewrite E, !str_forallb_app in Hb. cbn in Hb. by rewrite andb_false_r in Hb.
Qed.
(** The names of a listing, joined again, are the same listing. *)
Lemma parse_qfile_listing_join filenames : good_listing filenames ->
  parse_qfile_listing (Text (py_join newline filenames)) = Ok (listing_of filenames).
Proof.
  intros Hg. pose proof Hg as [Hne Hf Hs Hd Hl Hsz]. unfold parse_qfile_listing, check.
  assert (Forall (fun s => s <> EmptyString) filenames) as Hnes.
  { apply Forall_forall. intros s Hin. apply safe_filename_nonempty. rewrite forallb_forall in Hs. by apply Hs, list_elem_of_In. }
  destruct (splitlines_join filenames Hl Hnes) as [Hu Hj].
  rewrite text_of_Text; [|done|]. 2: { destruct filenames as [|s r]; [done|]. pose proof (join_size s r). lia. }
  cbn [mbind res_bind]. rewrite (listing_no_gap filenames), (listing_no_gap filenames (crlf +:+ crlf)) by auto.
  destruct (String.eqb_spec (py_join newline filenames) "") as [E|E]; [by rewrite E in Hj|].
  cbn [negb orb require mbind res_bind]. rewrite Hj, (proj2 (Nat.leb_le _ _) Hf). cbn [require mbind res_bind].
  rewrite (proj2 (foldM_add_filename filenames [] filenames)); [done|]. split_and!; [done|done|set_solver|done].
Qed.
