(* ===== verification/RealmMetadataStore.v ===== *)
(** * indexer/realm_metadata_persistence.py: the stored realm metadata

    The four metadata tables of database/schema.sql with their keys, foreign
    keys, CHECK constraints and type conversions; the fingerprint of a file
    snapshot; the preparation of a snapshot; its publication in one
    transaction; and the monotone state of a refresh run.  A time is an
    instant with a flag for a time zone.  Isinstance tests of values whose
    type is fixed here, and the columns the server fills with now(), are not
    modelled.  [JsonServer] is the conversion of a text to jsonb and back. *)
From Stdlib Require Import ZArith NArith Lia Ascii String SpecFloat.
From stdpp Require Import base gmap sets list strings sorting.
From S2P Require Import Prelude PyStr PyVal Codec Json InspectRpc Rpc RealmCatalog Endpoints ValopersStore Scan Lines RealmMetadata.
Open Scope Z_scope.

Definition MAX_SNAPSHOT_BYTES : Z := 8 * 1024 * 1024.
Definition CAPABILITY_STATUSES : list string := ["ok"; "not_applicable"; "application_error"; "rpc_error"; "invalid_response"].
Definition COLLECTION_STATUSES : list string := ["complete"; "partial"].
(** [_CHAIN_RE.fullmatch], [_SHA_RE.fullmatch] *)
Definition chain_re (s : string) : bool :=
  str_forallb (byte_in 33 126) s && Nat.leb 1 (String.length s) && Nat.leb (String.length s) 128.
Definition lower_hex (a : ascii) : bool := byte_in 48 57 a || byte_in 97 102 a.
Definition sha_re (s : string) : bool := str_forallb lower_hex s && Nat.eqb (String.length s) 64.

Record datetime := { dt_instant : Z; dt_aware : bool }.
Record MetadataFile := { mf_filename : string; mf_content : string }.
Record JsonCapability := { jc_status : string; jc_payload : option payload }.
Record RenderCapability := {
  rc_status : string;
  rc_sha256 : option string;
  rc_byte_count : option Z;
  rc_line_count : option Z;
  rc_non_empty : option bool
}.
Record StorageCapability := { sc_status : string; sc_storage_bytes : option Z; sc_deposit_ugnot : option Z }.
Record MetadataSnapshot := {
  ms_chain_id : string;
  ms_path : string;
  ms_path_kind : string;
  ms_observed_height : Z;
  ms_collection_status : string;
  ms_expected_filenames : list string;
  ms_files : list MetadataFile;
  ms_collected_at : datetime;
  ms_source_rpc_endpoint_id : option Z;
  ms_qdoc : JsonCapability;
  ms_qpkg_json : JsonCapability;
  ms_qfuncs : JsonCapability;
  ms_qrender : RenderCapability;
  ms_qstorage : StorageCapability
}.
Record PreparedJsonCapability := { pj_status : string; pj_summary : option val; pj_payload : option val }.
Record PreparedFile := {
  pf_filename : string;
  pf_content : string;
  pf_file_kind : string;
  pf_byte_count : Z;
  pf_line_count : Z;
  pf_sha256 : string;
  pf_package_declared : bool;
  pf_import_candidate_count : Z;
  pf_imports : list (string * string)
}.
Record PreparedSnapshot := {
  ps_snapshot : MetadataSnapshot;
  ps_files : list PreparedFile;
  ps_content_sha256 : string;
  ps_gno_file_count : Z;
  ps_test_file_count : Z;
  ps_has_gnomod : bool;
  ps_total_file_bytes : Z;
  ps_total_file_lines : Z;
  ps_dependency_count : Z;
  ps_qdoc : PreparedJsonCapability;
  ps_qpkg_json : PreparedJsonCapability;
  ps_qfuncs : PreparedJsonCapability
}.
Record MetadataRefreshState := {
  rs_chain_id : string;
  rs_observed_height : Z;
  rs_run_status : string;
  rs_selected_path_count : Z;
  rs_published_path_count : Z;
  rs_failed_path_count : Z;
  rs_started_at : datetime;
  rs_completed_at : option datetime;
  rs_last_successful_height : option Z;
  rs_last_successful_at : option datetime
}.
#[global] Instance datetime_eq_dec : EqDecision datetime.
Proof. solve_decision. Defined.

Definition persistence_error (msg : string) : exc := MetadataPersistenceError msg.
Definition check (b : bool) (msg : string) : res unit := require b (persistence_error msg).
(** [_strict_int] of an integer. *)
Definition strict_int (minimum : Z) (maximum : option Z) (z : Z) : bool :=
  (minimum <=? z) && match maximum with Some m => z <=? m | None => true end.
Definition all_opt {A} (p : A -> bool) (o : option A) : bool := match o with Some a => p a | None => true end.
Definition has {A} (o : option A) : bool := match o with Some _ => true | None => false end.

(** ** The fingerprint *)

(** [n.to_bytes(8, "big")] *)
Fixpoint big_endian (k : nat) (z : Z) : list ascii :=
  match k with O => [] | S k => Z_byte (z / 256 ^ Z.of_nat k mod 256) :: big_endian k z end.
Definition length_prefix (s : string) : res (list ascii) :=
  if text_size s <? 2 ^ 64 then Ok (big_endian 8 (text_size s)) else Raise OverflowError.
Definition is_unicode_error (e : exc) : bool := bool_decide (e = unicode_encode_error).
Definition encode_file (f : MetadataFile) : res (string * string) :=
  except_as (_ ← encode_utf8 (mf_filename f); _ ← encode_utf8 (mf_content f); Ok (mf_filename f, mf_content f))
    is_unicode_error (persistence_error "invalid_utf8").
(** Tuples of bytes in Python's order. *)
Definition pair_leb (a b : string * string) : bool :=
  if String.eqb a.1 b.1 then str_leb a.2 b.2 else str_leb a.1 b.1.
Definition prefixed (f : string * string) : res (list ascii) :=
  n ← length_prefix f.1; c ← length_prefix f.2; Ok (n ++ list_of_string f.1 ++ c ++ list_of_string f.2).
(** What [metadata_fingerprint] feeds to the digest. *)
Definition fingerprint_input (files : list MetadataFile) : res (list ascii) :=
  encoded ← mapM_res encode_file files; parts ← mapM_res prefixed (sort_by pair_leb encoded); Ok (concat parts).
Definition metadata_fingerprint (files : list MetadataFile) : res string :=
  input ← fingerprint_input files; Ok (bytes_hex (sha256 input)).

(** ** Preparation *)
Inductive json_name := Qdoc | Qpkg_json | Qfuncs.
Definition invalid_name (n : json_name) : string :=
  match n with Qdoc => "invalid_qdoc" | Qpkg_json => "invalid_qpkg_json" | Qfuncs => "invalid_qfuncs" end.
Definition is_MetadataParseError (e : exc) : bool := match e with MetadataParseError _ => true | _ => false end.
(** [_PATH_RE.fullmatch(path)] and no query or fragment: the kind. *)
Definition canonical_kind (path : string) : option string :=
  match path_re path with
  | Some k => if py_contains "?" path || py_contains "#" path then None
              else Some (if String.eqb k "r" then "realm" else "package")
  | None => None
  end.
(** [_canonical_import] *)
Definition canonical_import (value : string) : option (string * string) :=
  match canonical_kind value with Some kind => Some (value, kind) | None => None end.

Section prepare.
Context `{PyRuntime} `{JsonStack}.

Definition parse_capability (name : json_name) (requested_path : string) (p : payload) : res val :=
  match name with
  | Qdoc => parse_qdoc p (Some requested_path)
  | Qpkg_json => parse_qpkg_json p
  | Qfuncs => parse_qfuncs p
  end.
Definition prepare_json_capability (name : json_name) (c : JsonCapability) (requested_path : string) : res PreparedJsonCapability :=
  _ ← check (in_strs (jc_status c) CAPABILITY_STATUSES) "invalid_capability_status";
  if negb (String.eqb (jc_status c) "ok") then
    _ ← check (negb (has (jc_payload c))) "failed_capability_has_payload";
    Ok (Build_PreparedJsonCapability (jc_status c) None None)
  else
    match jc_payload c with
    | None => Raise (persistence_error "missing_success_payload")
    | Some p =>
        '(summary, document) ← except_as
          (summary ← parse_capability name requested_path p; '(document, _) ← load_json p; Ok (summary, document))
          is_MetadataParseError (persistence_error (invalid_name name));
        Ok (Build_PreparedJsonCapability (jc_status c) (Some summary) (Some document))
    end.

Definition validate_listing (s : MetadataSnapshot) : res unit :=
  let expected := ms_expected_filenames s in
  _ ← check (negb (Nat.eqb (length expected) 0)) "empty_listing";
  listing ← except_as (parse_qfile_listing (Text (py_join newline expected)))
              is_MetadataParseError (persistence_error "invalid_listing");
  _ ← check (bool_decide (ql_filenames listing = expected)) "invalid_listing";
  let fetched := map mf_filename (ms_files s) in
  _ ← check (Nat.eqb (length fetched) (length (dedup fetched))) "duplicate_filename";
  _ ← check (forallb (fun n => in_strs n fetched) expected) "missing_listed_file";
  check (forallb (fun n => in_strs n expected) fetched) "extra_fetched_file".

Definition validate_render (r : RenderCapability) : res unit :=
  _ ← check (in_strs (rc_status r) CAPABILITY_STATUSES) "invalid_capability_status";
  if negb (String.eqb (rc_status r) "ok") then
    check (negb (has (rc_sha256 r) || has (rc_byte_count r) || has (rc_line_count r) || has (rc_non_empty r)))
      "failed_qrender_has_summary"
  else
    check (match rc_sha256 r, rc_byte_count r, rc_line_count r, rc_non_empty r with
           | Some sha, Some bytes, Some lines, Some non_empty =>
               sha_re sha && strict_int 0 (Some MAX_ABCI_RESPONSE_BYTES) bytes
               && strict_int 0 (Some MAX_ABCI_RESPONSE_BYTES) lines && (lines <=? bytes + 1)
               && (negb (bytes =? 0) || (lines =? 0) && negb non_empty) && (negb non_empty || (0 <? bytes))
           | _, _, _, _ => false
           end) "invalid_qrender".

Definition validate_storage (s : StorageCapability) : res unit :=
  _ ← check (in_strs (sc_status s) CAPABILITY_STATUSES) "invalid_capability_status";
  if negb (String.eqb (sc_status s) "ok") then
    check (negb (has (sc_storage_bytes s) || has (sc_deposit_ugnot s))) "failed_qstorage_has_summary"
  else
    check (match sc_storage_bytes s, sc_deposit_ugnot s with
           | Some b, Some d => strict_int 0 (Some (10 ^ 40 - 1)) b && strict_int 0 (Some (10 ^ 40 - 1)) d
           | _, _ => false
           end) "invalid_qstorage".

Definition file_kind (name : string) : string :=
  if endswith "_test.gno" name then "gno_test"
  else if endswith ".gno" name then "gno_source"
  else if String.eqb name "gnomod.toml" then "gnomod"
  else "other".
(** Sorting of (path, kind) pairs with distinct paths. *)
Definition canonical_imports (paths : list string) : list (string * string) :=
  sort_by pair_leb (omap canonical_import paths).
(** One turn of the loop over the files, after the checks on its size: what
    is kept of a file. *)
Definition prepared_file (f : MetadataFile) : res PreparedFile :=
  let name := mf_filename f in
  let text := mf_content f in
  '(declared, candidates, imports) ←
    (if endswith ".gno" name then
       summary ← except_as (summarize_source_file name (Text text)) is_MetadataParseError (persistence_error "invalid_source");
       Ok (ss_package_declared summary, ss_import_candidate_count summary, canonical_imports (ss_gno_land_imports summary))
     else Ok (false, 0, []));
  Ok (Build_PreparedFile name text (file_kind name) (text_size text) (count (py_splitlines text)) (sha256_hex text)
        declared candidates imports).
Definition prepare_file (s : list PreparedFile * Z) (f : MetadataFile) : res (list PreparedFile * Z) :=
  let text := mf_content f in
  _ ← check (safe_filename (mf_filename f)) "invalid_filename";
  raw ← except_as (encode_utf8 text) is_unicode_error (persistence_error "invalid_utf8");
  _ ← check (negb (has_nul text)) "nul_file_content";
  _ ← check (count raw <=? MAX_SOURCE_BYTES) "file_too_large";
  _ ← check (count (py_splitlines text) <=? MAX_SOURCE_LINES) "too_many_lines";
  _ ← check (s.2 + count raw <=? MAX_SNAPSHOT_BYTES) "snapshot_too_large";
  p ← prepared_file f;
  Ok (s.1 ++ [p], s.2 + count raw).

Definition sum (l : list Z) : Z := foldr Z.add 0 l.
Definition is_gno_kind (p : PreparedFile) : bool := in_strs (pf_file_kind p) ["gno_source"; "gno_test"].
Definition dependencies (files : list PreparedFile) : list string := dedup (concat (map (fun p => (pf_imports p).*1) files)).
Definition prepare_metadata_snapshot (s : MetadataSnapshot) : res PreparedSnapshot :=
  _ ← check (chain_re (ms_chain_id s)) "invalid_chain_id";
  _ ← check (bool_decide (canonical_kind (ms_path s) = Some (ms_path_kind s))) "invalid_path";
  _ ← check (strict_int 1 None (ms_observed_height s)) "invalid_observed_height";
  _ ← check (in_strs (ms_collection_status s) COLLECTION_STATUSES) "invalid_collection_status";
  _ ← check (dt_aware (ms_collected_at s)) "invalid_collected_at";
  _ ← check (all_opt (strict_int 1 None) (ms_source_rpc_endpoint_id s)) "invalid_source_rpc_endpoint_id";
  _ ← validate_listing s;
  qdoc ← prepare_json_capability Qdoc (ms_qdoc s) (ms_path s);
  qpkg ← prepare_json_capability Qpkg_json (ms_qpkg_json s) (ms_path s);
  qfuncs ← prepare_json_capability Qfuncs (ms_qfuncs s) (ms_path s);
  _ ← validate_render (ms_qrender s);
  _ ← validate_storage (ms_qstorage s);
  _ ← check (negb (String.eqb (ms_path_kind s) "package"
                   && (negb (String.eqb (rc_status (ms_qrender s)) "not_applicable")
                       || negb (String.eqb (sc_status (ms_qstorage s)) "not_applicable")))) "package_realm_capability";
  '(prepared, total_bytes) ← foldM_res prepare_file ([], 0) (ms_files s);
  fingerprint ← metadata_fingerprint (ms_files s);
  Ok (Build_PreparedSnapshot s prepared fingerprint
        (count (List.filter is_gno_kind prepared))
        (count (List.filter (fun p => String.eqb (pf_file_kind p) "gno_test") prepared))
        (existsb (fun p => String.eqb (pf_file_kind p) "gnomod") prepared)
        total_bytes (sum (map pf_line_count prepared)) (count (dependencies prepared)) qdoc qpkg qfuncs).
End prepare.

(** ** The tables

    The rows of realm_metadata_files and realm_metadata_imports are grouped:
    the files of a path by name, each with the imports of the file by path.
    This is what their foreign keys, which cascade on delete, enforce. *)
Class Server := {
  (** a text converted to jsonb and read back; [None] when it is refused *)
  jsonb_in : string -> option val;
  (** the control characters of the database's locale *)
  cntrl : Z -> bool
}.
Abbreviation path_key := (string * string)%type.

(** The columns of the last success of a capability, which are set together. *)
Definition json_success : Type := option (val * val * Z).
Definition render_success : Type := option (string * Z * Z * bool * Z).
Definition storage_success : Type := option (Z * Z * Z).
Record metadata_row := {
  mr_path_kind : string;
  mr_observed_height : Z;
  mr_collection_status : string;
  mr_content_sha256 : string;
  mr_file_count : Z;
  mr_gno_file_count : Z;
  mr_test_file_count : Z;
  mr_has_gnomod : bool;
  mr_total_file_bytes : Z;
  mr_total_file_lines : Z;
  mr_dependency_count : Z;
  mr_source_rpc_endpoint_id : option Z;
  mr_qdoc : string * json_success;
  mr_qpkg_json : string * json_success;
  mr_qfuncs : string * json_success;
  mr_qrender : string * render_success;
  mr_qstorage : string * storage_success;
  mr_collected_at : Z
}.
Record file_row := {
  fr_file_kind : string;
  fr_content : string;
  fr_byte_count : Z;
  fr_line_count : Z;
  fr_sha256 : string;
  fr_package_declared : bool;
  fr_import_candidate_count : Z
}.
Record file_entry := { fe_row : file_row; fe_imports : gmap string string }.
Record refresh_row := {
  rr_observed_height : Z;
  rr_run_status : string;
  rr_selected_path_count : Z;
  rr_published_path_count : Z;
  rr_failed_path_count : Z;
  rr_started_at : Z;
  rr_completed_at : option Z;
  rr_last_successful_height : option Z;
  rr_last_successful_at : option Z
}.
(** What the program reads of realm_catalog (the kind and rpc_visible of a
    path) and of realm_catalog_state (the height of a chain). *)
Record catalog := Catalog {
  cg_kinds : gmap path_key string;
  cg_visible : gset path_key;
  cg_heights : gmap string Z
}.
Record mstore := MStore {
  t_catalog : catalog;
  t_endpoints : edb;
  t_metadata : gmap path_key metadata_row;
  t_files : gmap path_key (gmap string file_entry);
  t_refresh : gmap string refresh_row
}.
Definition set_metadata (t : gmap path_key metadata_row) (d : mstore) : mstore :=
  MStore (t_catalog d) (t_endpoints d) t (t_files d) (t_refresh d).
Definition set_files (t : gmap path_key (gmap string file_entry)) (d : mstore) : mstore :=
  MStore (t_catalog d) (t_endpoints d) (t_metadata d) t (t_refresh d).
Definition set_refresh (t : gmap string refresh_row) (d : mstore) : mstore :=
  MStore (t_catalog d) (t_endpoints d) (t_metadata d) (t_files d) t.

Definition endpoint_ids (d : edb) : list Z := map (fun ue => en_id ue.2) (map_to_list (endpoints d)).

(** *** Constraints *)
Definition int4 (z : Z) : bool := (- 2 ^ 31 <=? z) && (z <? 2 ^ 31).
Definition char_length (lo hi : Z) (s : string) : bool := between_Z lo hi (py_len s).
(** The status of a capability against the height of its last success. *)
Definition success_check (status : string) (height : Z) (last : option Z) : bool :=
  in_strs status CAPABILITY_STATUSES && all_opt (fun h => 0 <? h) last
  && (if String.eqb status "ok" then match last with Some h => h =? height | None => false end
      else all_opt (fun h => h <=? height) last).
Definition json_check (payload_type : val -> bool) (height : Z) (c : string * json_success) : bool :=
  all_opt (fun s : val * val * Z => is_dict s.1.1 && payload_type s.1.2) c.2 && success_check c.1 height (snd <$> c.2).
Definition render_check (height : Z) (c : string * render_success) : bool :=
  all_opt (fun s : string * Z * Z * bool * Z =>
             let '(sha, bytes, lines, _, _) := s in sha_re sha && between_Z 0 1048576 bytes && between_Z 0 1048576 lines) c.2
  && success_check c.1 height (snd <$> c.2).
Definition storage_check (height : Z) (c : string * storage_success) : bool :=
  all_opt (fun s : Z * Z * Z => let '(bytes, deposit, _) := s in
             between_Z 0 (10 ^ 40 - 1) bytes && between_Z 0 (10 ^ 40 - 1) deposit) c.2
  && success_check c.1 height (snd <$> c.2).
Definition path_check (path kind : string) : bool :=
  char_length 1 256 path && bool_decide (canonical_kind path = Some kind).
Definition metadata_types (r : metadata_row) : bool :=
  bigint (mr_observed_height r) && forallb int4 [mr_file_count r; mr_gno_file_count r; mr_test_file_count r; mr_dependency_count r]
  && bigint (mr_total_file_bytes r) && bigint (mr_total_file_lines r) && all_opt bigint (mr_source_rpc_endpoint_id r).
Definition metadata_checks (k : path_key) (r : metadata_row) : bool :=
  let h := mr_observed_height r in
  char_length 1 128 k.1 && path_check k.2 (mr_path_kind r) && (0 <? h)
  && in_strs (mr_collection_status r) COLLECTION_STATUSES && sha_re (mr_content_sha256 r)
  && between_Z 1 256 (mr_file_count r) && between_Z 0 (mr_file_count r) (mr_gno_file_count r)
  && between_Z 0 (mr_gno_file_count r) (mr_test_file_count r) && between_Z 0 8388608 (mr_total_file_bytes r)
  && between_Z 0 25600000 (mr_total_file_lines r) && between_Z 0 256000 (mr_dependency_count r)
  && json_check is_dict h (mr_qdoc r) && json_check (fun v => is_dict v || is_list v) h (mr_qpkg_json r)
  && json_check is_list h (mr_qfuncs r) && render_check h (mr_qrender r) && storage_check h (mr_qstorage r)
  && (negb (String.eqb (mr_path_kind r) "package")
      || (String.eqb (mr_qrender r).1 "not_applicable" && negb (has (mr_qrender r).2)
          && String.eqb (mr_qstorage r).1 "not_applicable" && negb (has (mr_qstorage r).2))).

Section statements.
Context `{Server}.
Definition upsert_metadata (k : path_key) (r : metadata_row) (d : mstore) : res mstore :=
  _ ← require (metadata_types r) DataError;
  _ ← require (metadata_checks k r) IntegrityError;
  _ ← require (bool_decide (is_Some (cg_kinds (t_catalog d) !! k))) IntegrityError;
  _ ← require (all_opt (fun id => bool_decide (id ∈ endpoint_ids (t_endpoints d))) (mr_source_rpc_endpoint_id r)) IntegrityError;
  Ok (set_metadata (<[k := r]> (t_metadata d)) d).
Definition file_checks (name : string) (r : file_row) : bool :=
  safe_filename name && negb (existsb (fun g => cntrl (code_point g)) (chars name))
  && in_strs (fr_file_kind r) ["gno_source"; "gno_test"; "gnomod"; "other"]
  && between_Z 0 1048576 (fr_byte_count r) && (text_size (fr_content r) =? fr_byte_count r)
  && between_Z 0 100000 (fr_line_count r) && sha_re (fr_sha256 r) && between_Z 0 1000 (fr_import_candidate_count r).
Definition insert_import (imports : gmap string string) (i : string * string) : res (gmap string string) :=
  _ ← require (path_check i.1 i.2 && negb (bool_decide (is_Some (imports !! i.1)))) IntegrityError;
  Ok (<[i.1 := i.2]> imports).
Definition row_of_file (p : PreparedFile) : file_row :=
  Build_file_row (pf_file_kind p) (pf_content p) (pf_byte_count p) (pf_line_count p) (pf_sha256 p) (pf_package_declared p)
    (pf_import_candidate_count p).
(** One turn of the loop over the prepared files: the file, then its imports. *)
Definition insert_file (files : gmap string file_entry) (p : PreparedFile) : res (gmap string file_entry) :=
  let row := row_of_file p in
  _ ← require (no_nul (fr_content row) && int4 (fr_byte_count row) && int4 (fr_line_count row) && int4 (fr_import_candidate_count row)) DataError;
  _ ← require (file_checks (pf_filename p) row) IntegrityError;
  _ ← require (negb (bool_decide (is_Some (files !! pf_filename p)))) IntegrityError;
  imports ← foldM_res insert_import ∅ (pf_imports p);
  Ok (<[pf_filename p := Build_file_entry row imports]> files).
Definition upsert_refresh (chain_id : string) (r : refresh_row) (d : mstore) : res mstore :=
  _ ← require (bigint (rr_observed_height r) && int4 (rr_selected_path_count r) && int4 (rr_published_path_count r)
               && int4 (rr_failed_path_count r) && all_opt bigint (rr_last_successful_height r)) DataError;
  _ ← require (char_length 1 128 chain_id && (0 <? rr_observed_height r)
               && in_strs (rr_run_status r) ["running"; "complete"; "partial"; "failed"]
               && (0 <=? rr_selected_path_count r) && (0 <=? rr_published_path_count r) && (0 <=? rr_failed_path_count r)
               && (rr_published_path_count r + rr_failed_path_count r <=? rr_selected_path_count r)
               && Bool.eqb (String.eqb (rr_run_status r) "running") (negb (has (rr_completed_at r)))
               && all_opt (fun t => rr_started_at r <=? t) (rr_completed_at r)
               && Bool.eqb (has (rr_last_successful_height r)) (has (rr_last_successful_at r))
               && all_opt (fun h => (0 <? h) && (h <=? rr_observed_height r)) (rr_last_successful_height r)) IntegrityError;
  Ok (set_refresh (<[chain_id := r]> (t_refresh d)) d).

(** ** Publication *)
Context `{PyRuntime} `{JsonStack}.

Definition json_success_values (p : PreparedJsonCapability) (current : json_success) (height : Z) : json_success :=
  if String.eqb (pj_status p) "ok"
  then match pj_summary p, pj_payload p with Some summary, Some document => Some (summary, document, height) | _, _ => None end
  else current.
Definition render_success_values (s : MetadataSnapshot) (current : render_success) : render_success :=
  if String.eqb (rc_status (ms_qrender s)) "ok"
  then match rc_sha256 (ms_qrender s), rc_byte_count (ms_qrender s), rc_line_count (ms_qrender s), rc_non_empty (ms_qrender s) with
       | Some sha, Some bytes, Some lines, Some non_empty => Some (sha, bytes, lines, non_empty, ms_observed_height s)
       | _, _, _, _ => None
       end
  else current.
Definition storage_success_values (s : MetadataSnapshot) (current : storage_success) : storage_success :=
  if String.eqb (sc_status (ms_qstorage s)) "ok"
  then match sc_storage_bytes (ms_qstorage s), sc_deposit_ugnot (ms_qstorage s) with
       | Some bytes, Some deposit => Some (bytes, deposit, ms_observed_height s)
       | _, _ => None
       end
  else current.
Definition dump_options : json_opts := Build_json_opts true false "," ":" false.
(** [_json_parameter] of both documents of a capability. *)
Definition json_parameters (s : json_success) : res (option (string * string * Z)) :=
  match s with
  | None => Ok None
  | Some (summary, document, h) => a ← json_dumps dump_options summary; b ← json_dumps dump_options document; Ok (Some (a, b, h))
  end.
(** The server's conversion of the two texts. *)
Definition receive (s : option (string * string * Z)) : res json_success :=
  match s with
  | None => Ok None
  | Some (a, b, h) => match jsonb_in a, jsonb_in b with
                      | Some summary, Some document => Ok (Some (summary, document, h))
                      | _, _ => Raise DataError
                      end
  end.
Definition no_success : json_success * json_success * json_success * render_success * storage_success := (None, None, None, None, None).
Definition successes (r : metadata_row) : json_success * json_success * json_success * render_success * storage_success :=
  ((mr_qdoc r).2, (mr_qpkg_json r).2, (mr_qfuncs r).2, (mr_qrender r).2, (mr_qstorage r).2).
Definition stale (r : metadata_row) (s : MetadataSnapshot) : bool :=
  (ms_observed_height s <? mr_observed_height r)
  || (mr_observed_height r =? ms_observed_height s) && (dt_instant (ms_collected_at s) <? mr_collected_at r).

Definition write_metadata (k : path_key) (s : MetadataSnapshot) (p : PreparedSnapshot) (current : option metadata_row) (d : mstore)
    : res mstore :=
  let '(q1, q2, q3, r4, r5) := match current with Some r => successes r | None => no_success end in
  let h := ms_observed_height s in
  t1 ← json_parameters (json_success_values (ps_qdoc p) q1 h);
  t2 ← json_parameters (json_success_values (ps_qpkg_json p) q2 h);
  t3 ← json_parameters (json_success_values (ps_qfuncs p) q3 h);
  c1 ← receive t1; c2 ← receive t2; c3 ← receive t3;
  upsert_metadata k
    (Build_metadata_row (ms_path_kind s) h (ms_collection_status s) (ps_content_sha256 p) (count (ps_files p)) (ps_gno_file_count p)
       (ps_test_file_count p) (ps_has_gnomod p) (ps_total_file_bytes p) (ps_total_file_lines p) (ps_dependency_count p)
       (ms_source_rpc_endpoint_id s) (pj_status (ps_qdoc p), c1) (pj_status (ps_qpkg_json p), c2) (pj_status (ps_qfuncs p), c3)
       (rc_status (ms_qrender s), render_success_values s r4) (sc_status (ms_qstorage s), storage_success_values s r5)
       (dt_instant (ms_collected_at s))) d.
Definition publish_metadata_snapshot_cursor (s : MetadataSnapshot) (d : mstore) : res (PreparedSnapshot * mstore) :=
  prepared ← prepare_metadata_snapshot s;
  let k := (ms_chain_id s, ms_path s) in
  match cg_kinds (t_catalog d) !! k with
  | None => Raise (persistence_error "metadata_parent_not_found")
  | Some kind =>
      _ ← check (String.eqb kind (ms_path_kind s)) "metadata_parent_kind_mismatch";
      let current := t_metadata d !! k in
      _ ← raise_if (match current with Some r => stale r s | None => false end) (StaleMetadataSnapshot "stale_metadata_snapshot");
      d1 ← write_metadata k s prepared current d;
      if match current with Some r => negb (String.eqb (mr_content_sha256 r) (ps_content_sha256 prepared)) | None => true end then
        files ← foldM_res insert_file ∅ (ps_files prepared);
        Ok (prepared, set_files (<[k := files]> (t_files d1)) d1)
      else Ok (prepared, d1)
  end.
(** [with connection.transaction()]: an exception rolls back. *)
Definition publish_metadata_snapshot (s : MetadataSnapshot) (d : mstore) : res PreparedSnapshot * mstore :=
  match publish_metadata_snapshot_cursor s d with Ok (p, d') => (Ok p, d') | Raise e => (Raise e, d) end.

(** ** The state of a refresh run *)
Definition refresh_error : exc := persistence_error "invalid_refresh_state".
Definition validate_refresh_state (s : MetadataRefreshState) : res unit :=
  _ ← require (chain_re (rs_chain_id s)) refresh_error;
  _ ← require (strict_int 1 None (rs_observed_height s)) refresh_error;
  _ ← require (in_strs (rs_run_status s) ["running"; "complete"; "partial"; "failed"]) refresh_error;
  _ ← require (forallb (strict_int 0 None) [rs_selected_path_count s; rs_published_path_count s; rs_failed_path_count s]
               && (rs_published_path_count s + rs_failed_path_count s <=? rs_selected_path_count s)) refresh_error;
  _ ← require (dt_aware (rs_started_at s)) refresh_error;
  _ ← require (if String.eqb (rs_run_status s) "running" then negb (has (rs_completed_at s))
               else match rs_completed_at s with
                    | Some t => dt_aware t && (dt_instant (rs_started_at s) <=? dt_instant t)
                    | None => false
                    end) refresh_error;
  _ ← require (Bool.eqb (has (rs_last_successful_height s)) (has (rs_last_successful_at s))) refresh_error;
  require (match rs_last_successful_height s with
           | Some h => strict_int 1 None h && (h <=? rs_observed_height s) && match rs_last_successful_at s with Some t => dt_aware t | None => false end
           | None => true
           end) refresh_error.
Definition persist_metadata_refresh_state_cursor (s : MetadataRefreshState) (d : mstore) : res mstore :=
  _ ← validate_refresh_state s;
  let started := dt_instant (rs_started_at s) in
  let success := (rs_last_successful_height s, dt_instant <$> rs_last_successful_at s) in
  success ←
    match t_refresh d !! rs_chain_id s with
    | None => Ok success
    | Some r =>
        _ ← raise_if ((rs_observed_height s <? rr_observed_height r)
                      || (rr_observed_height r =? rs_observed_height s) && (started <? rr_started_at r))
              (StaleMetadataSnapshot "stale_metadata_refresh_state");
        let same_run := (rr_observed_height r =? rs_observed_height s) && (rr_started_at r =? started) in
        _ ← raise_if (same_run && negb (String.eqb (rr_run_status r) "running") && String.eqb (rs_run_status s) "running")
              (StaleMetadataSnapshot "stale_metadata_refresh_transition");
        match rs_last_successful_height s, rr_last_successful_height r with
        | None, previous => Ok (previous, rr_last_successful_at r)
        | Some h, Some previous => _ ← raise_if (h <? previous) (StaleMetadataSnapshot "stale_metadata_refresh_success"); Ok success
        | Some _, None => Ok success
        end
    end;
  upsert_refresh (rs_chain_id s)
    (Build_refresh_row (rs_observed_height s) (rs_run_status s) (rs_selected_path_count s) (rs_published_path_count s)
       (rs_failed_path_count s) started (dt_instant <$> rs_completed_at s) success.1 success.2) d.
End statements.

(** ** The fingerprint encoding *)
Lemma big_endian_length k z : length (big_endian k z) = k.
Proof. induction k as [|k IH]; [done|]. cbn. by rewrite IH. Qed.
Lemma big_endian_value k z acc :
  foldl (fun acc a => acc * 256 + byte_Z a) acc (big_endian k z) = acc * 256 ^ Z.of_nat k + z mod 256 ^ Z.of_nat k.
Proof.
  revert acc. induction k as [|k IH]; intros acc; [cbn; rewrite Z.mod_1_r; lia|]. cbn [big_endian foldl].
  rewrite IH, byte_Z_byte by (apply Z.mod_pos_bound; lia).
  rewrite Nat2Z.inj_succ, Z.pow_succ_r, (Z.mul_comm 256 (256 ^ _)), Z.rem_mul_r by lia. lia.
Qed.
Lemma big_endian_inj x y : 0 <= x < 2 ^ 64 -> 0 <= y < 2 ^ 64 -> big_endian 8 x = big_endian 8 y -> x = y.
Proof.
  intros Hx Hy E. pose proof (big_endian_value 8 x 0) as Vx. pose proof (big_endian_value 8 y 0) as Vy. rewrite E, Vy in Vx.
  change (256 ^ Z.of_nat 8) with (2 ^ 64) in Vx. rewrite !Z.mod_small in Vx by done. lia.
Qed.
Lemma length_prefix_inv s t n m : length_prefix s = Ok n -> length_prefix t = Ok m -> length n = 8%nat /\ length m = 8%nat /\
  (n = m -> String.length s = String.length t).
Proof.
  unfold length_prefix. destruct (Z.ltb_spec (text_size s) (2 ^ 64)) as [Hs|]; [|done].
  destruct (Z.ltb_spec (text_size t) (2 ^ 64)) as [Ht|]; [|done]. intros <-%Ok_inj <-%Ok_inj. rewrite !big_endian_length.
  split_and!; [done..|]. intros E%big_endian_inj; unfold text_size in *; lia.
Qed.
Lemma list_of_string_length s t : String.length s = String.length t -> length (list_of_string s) = length (list_of_string t).
Proof. by rewrite !length_list_of_string. Qed.
(** An encoded file is delimited by its own prefixes. *)
Lemma prefixed_inj f g x y r s : prefixed f = Ok x -> prefixed g = Ok y -> x ++ r = y ++ s -> f = g /\ r = s.
Proof.
  unfold prefixed. intros Hf Hg E.
  apply bind_Ok in Hf as (n & Hn & Hf). apply bind_Ok in Hf as (c & Hc & [= <-]).
  apply bind_Ok in Hg as (m & Hm & Hg). apply bind_Ok in Hg as (e & He & [= <-]).
  destruct (length_prefix_inv _ _ _ _ Hn Hm) as (L1 & L2 & N), (length_prefix_inv _ _ _ _ Hc He) as (L3 & L4 & C).
  rewrite <-!app_assoc in E. apply app_inj_1 in E as [E1 E]; [|congruence].
  apply app_inj_1 in E as [E2 E]; [|by apply list_of_string_length, N].
  apply app_inj_1 in E as [E3 E]; [|congruence]. apply app_inj_1 in E as [E4 E]; [|by apply list_of_string_length, C].
  apply list_of_string_inj in E2, E4. destruct f, g. simpl in *. by subst.
Qed.
Lemma prefixed_nonempty f x : prefixed f = Ok x -> x <> [].
Proof.
  unfold prefixed. intros Hf. apply bind_Ok in Hf as (n & Hn & Hf). apply bind_Ok in Hf as (c & Hc & [= <-]).
  destruct (length_prefix_inv _ _ _ _ Hn Hn) as (L & _). by destruct n.
Qed.
Lemma concat_prefixed_inj l k ps qs : mapM_res prefixed l = Ok ps -> mapM_res prefixed k = Ok qs -> concat ps = concat qs -> l = k.
Proof.
  intros Hl Hk. apply mapM_res_Forall2 in Hl, Hk. revert k qs Hk. induction Hl as [|f x l ps Hf Hl IH]; intros k qs Hk E.
  - destruct Hk as [|g y k qs Hg _]; [done|]. symmetry in E. apply app_eq_nil in E as [E _]. by apply prefixed_nonempty in Hg.
  - destruct Hk as [|g y k qs Hg Hk]; [apply app_eq_nil in E as [E _]; by apply prefixed_nonempty in Hf|].
    destruct (prefixed_inj f g x y _ _ Hf Hg E) as [-> E']. f_equal. by apply (IH k qs).
Qed.

Lemma pair_leb_total x y : pair_leb x y = true \/ pair_leb y x = true.
Proof.
  unfold pair_leb. destruct (String.eqb_spec x.1 y.1) as [E|E].
  - rewrite E, String.eqb_refl. apply str_leb_total.
  - rewrite (proj2 (String.eqb_neq y.1 x.1)) by congruence. apply str_leb_total.
Qed.
Lemma pair_leb_trans x y z : pair_leb x y = true -> pair_leb y z = true -> pair_leb x z = true.
Proof.
  unfold pair_leb. destruct (String.eqb_spec x.1 y.1) as [E1|E1], (String.eqb_spec y.1 z.1) as [E2|E2].
  - rewrite E1, E2, String.eqb_refl. apply str_leb_trans.
  - intros _ H. rewrite E1. by rewrite (proj2 (String.eqb_neq y.1 z.1)).
  - intros H _. rewrite <-E2. by rewrite (proj2 (String.eqb_neq x.1 y.1)).
  - intros H1 H2. destruct (String.eqb_spec x.1 z.1) as [E3|E3]; [|by apply (str_leb_trans _ y.1)].
    exfalso. apply E1, str_leb_antisym; [done|congruence].
Qed.
Lemma pair_leb_antisym x y : pair_leb x y = true -> pair_leb y x = true -> x = y.
Proof.
  destruct x as [a b], y as [c d]. unfold pair_leb. cbn [fst snd]. destruct (String.eqb_spec a c) as [->|E].
  - rewrite String.eqb_refl. intros H1 H2. f_equal. by apply str_leb_antisym.
  - rewrite (proj2 (String.eqb_neq c a)) by congruence. intros H1 H2. exfalso. by apply E, str_leb_antisym.
Qed.
#[global] Instance pair_leb_AntiSymm : AntiSymm eq (fun a b => pair_leb a b = true).
Proof. intros x y. apply pair_leb_antisym. Qed.
Lemma sort_pairs_perm l k : l ≡ₚ k -> sort_by pair_leb l = sort_by pair_leb k.
Proof.
  intros Hp. apply (StronglySorted_unique (fun a b : path_key => pair_leb a b = true)).
  - apply sort_by_sorted; [apply pair_leb_total|apply pair_leb_trans].
  - apply sort_by_sorted; [apply pair_leb_total|apply pair_leb_trans].
  - by rewrite !sort_by_perm.
Qed.

Definition file_pair (f : MetadataFile) : string * string := (mf_filename f, mf_content f).
Lemma file_pair_inj f g : file_pair f = file_pair g -> f = g.
Proof. destruct f, g. by intros [= -> ->]. Qed.
Lemma encode_files files ps : mapM_res encode_file files = Ok ps <->
  ps = map file_pair files /\ Forall (fun f => utf8 (mf_filename f) = true /\ utf8 (mf_content f) = true) files.
Proof.
  assert (He : forall f p, encode_file f = Ok p <-> p = file_pair f /\ utf8 (mf_filename f) = true /\ utf8 (mf_content f) = true).
  { intros f p. unfold encode_file, encode_utf8, utf8, file_pair.
    destruct (utf8_valid (list_of_string (mf_filename f))), (utf8_valid (list_of_string (mf_content f))); simpl; naive_solver. }
  rewrite mapM_res_Forall2. revert ps. induction files as [|f files IH]; intros ps.
  - split; [intros H; by inversion H|intros [-> _]; constructor].
  - rewrite Forall_cons. split.
    + intros H. inversion H as [|? p ? qs Hp Hq]; subst. apply IH in Hq as [-> Hq]. apply He in Hp as (-> & Hp). done.
    + intros (-> & Hf & Hfs). cbn. constructor; [by apply He|]. by apply IH.
Qed.
Lemma encode_files_error files e : mapM_res encode_file files = Raise e -> e = persistence_error "invalid_utf8".
Proof.
  intros He. assert (raises (fun e => bool_decide (e = persistence_error "invalid_utf8")) (mapM_res encode_file files)) as Hr.
  { apply raises_mapM. intros f _. unfold encode_file, encode_utf8.
    destruct (utf8_valid (list_of_string (mf_filename f))), (utf8_valid (list_of_string (mf_content f))); done. }
  rewrite He in Hr. by apply bool_decide_eq_true in Hr.
Qed.
Lemma fingerprint_input_perm fs gs : fs ≡ₚ gs -> fingerprint_input fs = fingerprint_input gs.
Proof.
  intros Hp. unfold fingerprint_input.
  destruct (mapM_res encode_file fs) as [ps|e] eqn:Ef.
  - pose proof Ef as Ef'. apply encode_files in Ef' as [-> Hf]. 
    assert (mapM_res encode_file gs = Ok (map file_pair gs)) as -> by (apply encode_files; split; [done|by rewrite <-Hp]).
    cbn [mbind res_bind]. by rewrite (sort_pairs_perm (map file_pair fs) (map file_pair gs)) by (by apply Permutation_map).
  - destruct (mapM_res encode_file gs) as [qs|e'] eqn:Eg.
    + apply encode_files in Eg as [_ Hg]. rewrite <-Hp in Hg. by rewrite (proj2 (encode_files fs (map file_pair fs)) (conj eq_refl Hg)) in Ef.
    + cbn. by rewrite (encode_files_error _ _ Ef), (encode_files_error _ _ Eg).
Qed.
Lemma fingerprint_input_perm_inv fs gs x y : fingerprint_input fs = Ok x -> fingerprint_input gs = Ok y -> x = y -> fs ≡ₚ gs.
Proof.
  intros Hx Hy.
  intros ->. unfold fingerprint_input in Hx, Hy. apply bind_Ok in Hx as (ps & Hps & Hx), Hy as (qs & Hqs & Hy).
  apply bind_Ok in Hx as (xs & Hxs & Hx%Ok_inj), Hy as (ys & Hys & Hy%Ok_inj). rewrite <-Hy in Hx.
  pose proof (concat_prefixed_inj _ _ _ _ Hxs Hys Hx) as E. apply encode_files in Hps as [-> _], Hqs as [-> _].
  assert (map file_pair fs ≡ₚ map file_pair gs) as Hp by (rewrite <-(sort_by_perm pair_leb (map file_pair fs)), E; apply sort_by_perm).
  apply Permutation_map_inv in Hp as (l & El & ->). enough (fs = l) by (by subst).
  clear -El. revert l El. induction fs as [|f fs IH]; intros [|g l] E; try done. cbn in E.
  injection E as E1 E2 E3. f_equal; [by apply file_pair_inj; unfold file_pair; congruence|by apply IH].
Qed.

(** The bytes the snapshot fingerprint is computed from identify the files:
    two snapshots are encoded alike exactly when they hold the same files,
    names and contents, in any order.  The eight-byte length prefixes leave no
    ambiguity between a name, a content and the next file. *)
Theorem fingerprint_input_iff fs gs x y : fingerprint_input fs = Ok x -> fingerprint_input gs = Ok y -> x = y <-> fs ≡ₚ gs.
Proof.
  intros Hx Hy. split; [by apply fingerprint_input_perm_inv|]. intros Hp. rewrite (fingerprint_input_perm fs gs Hp) in Hx. congruence.
Qed.
(** ** Prepared files *)
Section publication.
Context `{Server} `{PyRuntime} `{JsonStack}.

Lemma prepared_file_same f p : prepared_file f = Ok p -> pf_filename p = mf_filename f /\ pf_content p = mf_content f.
Proof.
  unfold prepared_file. destruct f as [name text]. cbn [mf_filename mf_content]. intros Hp.
  apply bind_Ok in Hp as ([[declared candidates] imports] & _ & [= <-]). done.
Qed.
Lemma prepare_files_loop files acc total out total' : foldM_res prepare_file (acc, total) files = Ok (out, total') ->
  exists ps, out = acc ++ ps /\ Forall2 (fun f p => prepared_file f = Ok p) files ps /\ Forall (fun f => safe_filename (mf_filename f) = true) files.
Proof.
  revert acc total. induction files as [|f files IH]; intros acc total; cbn [foldM_res].
  - intros [= <- _]. exists []. rewrite app_nil_r. split_and!; constructor.
  - intros Hf. apply bind_Ok in Hf as ([acc1 t1] & Hf & Hr). unfold prepare_file, check in Hf.
    apply bind_Ok in Hf as ([] & Hs%require_Ok & Hf). apply bind_Ok in Hf as (raw & _ & Hf).
    do 4 (apply bind_Ok in Hf as ([] & _ & Hf)). apply bind_Ok in Hf as (p & Hp & [= <- <-]).
    apply IH in Hr as (ps & -> & Hps & Hsf). exists (p :: ps). rewrite <-app_assoc. split_and!; [done|by constructor|by constructor].
Qed.
Lemma length_dedup_NoDup (l : list string) : length l = length (dedup l) -> NoDup l.
Proof.
  intros Hl. assert (dedup l ≡ₚ l) as <-; [|apply NoDup_dedup]. apply submseteq_length_Permutation; [|lia].
  apply NoDup_submseteq; [apply NoDup_dedup|]. intros x. by rewrite elem_of_dedup.
Qed.
Record prepared_from (s : MetadataSnapshot) (p : PreparedSnapshot) : Prop := {
  pr_snapshot : ps_snapshot p = s;
  pr_files : Forall2 (fun f pf => prepared_file f = Ok pf) (ms_files s) (ps_files p);
  pr_fingerprint : metadata_fingerprint (ms_files s) = Ok (ps_content_sha256 p);
  pr_kind : canonical_kind (ms_path s) = Some (ms_path_kind s);
  pr_distinct : NoDup (map mf_filename (ms_files s))
}.
Lemma distinct_fetched (s : MetadataSnapshot) u : validate_listing s = Ok u -> NoDup (map mf_filename (ms_files s)).
Proof.
  unfold validate_listing, check. intros Hv. apply bind_Ok in Hv as ([] & _ & Hv). apply bind_Ok in Hv as (l & _ & Hv).
  apply bind_Ok in Hv as ([] & _ & Hv). apply bind_Ok in Hv as ([] & Hn%require_Ok%Nat.eqb_eq & _). by apply length_dedup_NoDup.
Qed.
Lemma prepare_from s p : prepare_metadata_snapshot s = Ok p -> prepared_from s p.
Proof.
  unfold prepare_metadata_snapshot, check. intros Hp.
  apply bind_Ok in Hp as ([] & _ & Hp). apply bind_Ok in Hp as ([] & Hk%require_Ok%bool_decide_eq_true & Hp).
  do 4 (apply bind_Ok in Hp as ([] & _ & Hp)). apply bind_Ok in Hp as (u & Hd%distinct_fetched & Hp).
  do 3 (apply bind_Ok in Hp as (? & _ & Hp)). do 3 (apply bind_Ok in Hp as ([] & _ & Hp)). apply bind_Ok in Hp as ([prepared total] & Hf & Hp).
  apply bind_Ok in Hp as (fp & Hfp & [= <-]). apply prepare_files_loop in Hf as (ps & -> & Hps & _). by constructor.
Qed.

(** ** Stored files *)
Definition entry_of (p : PreparedFile) : file_entry := Build_file_entry (row_of_file p) (list_to_map (pf_imports p)).
Definition entries (ps : list PreparedFile) : gmap string file_entry := list_to_map (map (fun p => (pf_filename p, entry_of p)) ps).
Lemma insert_loop {A V} (f : gmap string V -> A -> res (gmap string V)) (key : A -> string) (value : A -> V) l m m' :
  (forall m a m', f m a = Ok m' -> m !! key a = None /\ m' = <[key a := value a]> m) ->
  foldM_res f m l = Ok m' ->
  NoDup (map key l) /\ (forall x, x ∈ map key l -> m !! x = None) /\ m' = list_to_map (map (fun a => (key a, value a)) l) ∪ m.
Proof.
  intros Hf. revert m. induction l as [|a l IH]; intros m; cbn [foldM_res map].
  - intros [= <-]. split_and!; [by apply NoDup_nil_2|by intros x ?%elem_of_nil|by rewrite list_to_map_nil, (left_id_L ∅ (∪))].
  - intros Hl. apply bind_Ok in Hl as (m1 & [Hn ->]%Hf & Hl). apply IH in Hl as (Hd & Hfresh & ->).
    assert (key a ∉ map key l) as Ha.
    { intros Hin%Hfresh. by rewrite lookup_insert_eq in Hin. }
    split_and!; [by apply NoDup_cons_2| |].
    + intros x [->|Hx]%elem_of_cons; [done|]. specialize (Hfresh x Hx). apply lookup_insert_None in Hfresh. tauto.
    + rewrite list_to_map_cons. rewrite <-insert_union_l, insert_union_r; [done|].
      apply not_elem_of_list_to_map_1. intros Hin. apply Ha.
      revert Hin. clear. induction l as [|b l IHl]; cbn; [done|]. rewrite !elem_of_cons. naive_solver.
Qed.
Lemma insert_files_entries ps m : foldM_res insert_file ∅ ps = Ok m -> NoDup (map pf_filename ps) /\ m = entries ps.
Proof.
  intros Hl. assert (forall m a m', insert_file m a = Ok m' -> m !! pf_filename a = None /\ m' = <[pf_filename a := entry_of a]> m) as Hf.
  { intros m0 a m' Ha. unfold insert_file in Ha. apply bind_Ok in Ha as ([] & _ & Ha). apply bind_Ok in Ha as ([] & _ & Ha).
    apply bind_Ok in Ha as ([] & Hn%require_Ok & Ha). apply bind_Ok in Ha as (imports & Hi & [= <-]).
    apply negb_true_iff, bool_decide_eq_false in Hn. split; [by apply eq_None_not_Some|].
    assert (forall m (i : string * string) m', insert_import m i = Ok m' -> m !! i.1 = None /\ m' = <[i.1 := i.2]> m) as Hg.
    { intros m1 i m2 Hm. unfold insert_import in Hm. apply bind_Ok in Hm as ([] & Hn'%require_Ok & [= <-]).
      apply andb_prop in Hn' as [_ Hn'%negb_true_iff%bool_decide_eq_false]. split; [by apply eq_None_not_Some|done]. }
    destruct (insert_loop insert_import fst snd _ _ _ Hg Hi) as (_ & _ & ->). unfold entry_of. f_equal. f_equal.
    rewrite (right_id_L ∅ (∪)). f_equal. clear. induction (pf_imports a) as [|[x y] l IH]; [done|]. cbn. by f_equal. }
  destruct (insert_loop insert_file pf_filename entry_of _ _ _ Hf Hl) as (Hn & _ & ->).
  split; [done|]. by rewrite (right_id_L ∅ (∪)).
Qed.

Definition file_of (fe : string * file_entry) : MetadataFile := Build_MetadataFile fe.1 (fr_content (fe_row fe.2)).
Definition files_of (m : gmap string file_entry) : list MetadataFile := map file_of (map_to_list m).
(** A stored file is what the program computes from its name and content. *)
Definition derived (f : string) (e : file_entry) : Prop :=
  exists p, prepared_file (file_of (f, e)) = Ok p /\ e = entry_of p.
Lemma entries_files fs ps : Forall2 (fun f p => prepared_file f = Ok p) fs ps -> NoDup (map pf_filename ps) ->
  files_of (entries ps) ≡ₚ fs /\ map_Forall derived (entries ps).
Proof.
  intros Hps Hn. unfold files_of, entries.
  assert ((map (fun p => (pf_filename p, entry_of p)) ps).*1 = map pf_filename ps) as Hkeys.
  { rewrite <-list_fmap_compose. by apply list_fmap_ext. }
  split.
  - rewrite map_to_list_to_map by (by rewrite Hkeys). clear Hn Hkeys. induction Hps as [|f p fs ps Hf _ IH]; [done|].
    cbn. apply prepared_file_same in Hf as [E1 E2]. unfold file_of at 1. cbn. rewrite E1, E2. destruct f. by rewrite IH.
  - intros f e Hl. apply elem_of_list_to_map_2 in Hl. apply list_elem_of_fmap in Hl as (p & [= -> ->] & Hp).
    apply list_elem_of_lookup in Hp as [i Hi]. destruct (Forall2_lookup_r _ _ _ _ _ Hps Hi) as (f & _ & Hf). exists p.
    split; [|done]. pose proof (prepared_file_same f p Hf) as [E1 E2]. unfold file_of. cbn. rewrite E1, E2. by destruct f.
Qed.
Lemma prepared_names s p : prepared_from s p -> NoDup (map pf_filename (ps_files p)).
Proof.
  intros [_ Hf _ _ Hn]. replace (map pf_filename (ps_files p)) with (map mf_filename (ms_files s)); [done|]. clear Hn.
  induction Hf as [|f q fs ps Hq _ IH]; [done|]. cbn. f_equal; [|done]. symmetry. by apply prepared_file_same.
Qed.
Lemma entries_size ps : NoDup (map pf_filename ps) -> size (entries ps) = length ps.
Proof.
  intros Hn. unfold entries. rewrite map_size_list_to_map, length_map; [done|].
  rewrite <-list_fmap_compose. erewrite list_fmap_ext; [exact Hn|done].
Qed.
(** Derived files are determined by their names and contents. *)
Lemma derived_unique m n : map_Forall derived m -> map_Forall derived n -> files_of m ≡ₚ files_of n -> m = n.
Proof.
  assert (forall m n, map_Forall derived m -> map_Forall derived n -> files_of m ≡ₚ files_of n -> forall f e, m !! f = Some e -> n !! f = Some e) as Hsub.
  { intros m' n' Hm Hn Hp f e He. assert (file_of (f, e) ∈ files_of n') as Hin.
    { rewrite <-Hp. apply list_elem_of_fmap. exists (f, e). split; [done|by apply elem_of_map_to_list]. }
    apply list_elem_of_fmap in Hin as ([g e'] & E & Hg%elem_of_map_to_list). assert (f = g) as -> by (by injection E).
    destruct (Hm _ _ He) as (p & Hp1 & ->), (Hn _ _ Hg) as (q & Hq1 & ->). rewrite E in Hp1.
    assert (p = q) as -> by (rewrite Hp1 in Hq1; by injection Hq1). done. }
  intros Hm Hn Hp. apply map_eq. intros f. destruct (m !! f) as [e|] eqn:Em.
  - symmetry. by apply (Hsub m n).
  - destruct (n !! f) as [e|] eqn:En; [|done]. by rewrite (Hsub n m Hn Hm (Permutation_sym Hp) f e En) in Em.
Qed.

(** ** The invariant of the tables

    Every path that has a metadata row is catalogued with its kind, the row
    satisfies its constraints, the files stored with it have exactly the
    fingerprint of the row, and every file is what the program computes from
    its name and content.  A path without a row has no files. *)
Definition path_ok (catalog : gmap path_key string) (k : path_key) (r : metadata_row) (m : gmap string file_entry) : Prop :=
  catalog !! k = Some (mr_path_kind r) /\ metadata_checks k r = true
  /\ metadata_fingerprint (files_of m) = Ok (mr_content_sha256 r) /\ map_Forall derived m.
Definition store_ok (d : mstore) : Prop := forall k,
  match t_metadata d !! k, t_files d !! k with
  | Some r, Some m => path_ok (cg_kinds (t_catalog d)) k r m
  | None, None => True
  | _, _ => False
  end.
Lemma fingerprint_perm fs gs : fs ≡ₚ gs -> metadata_fingerprint fs = metadata_fingerprint gs.
Proof. intros Hp. unfold metadata_fingerprint. by rewrite (fingerprint_input_perm fs gs Hp). Qed.

(** The JSON columns after a publication: the server's reading of the new
    documents, or of the stored ones. *)
Definition json_written (p : PreparedJsonCapability) (old : json_success) (h : Z) (new : json_success) : Prop :=
  exists t, json_parameters (json_success_values p old h) = Ok t /\ receive t = Ok new.
Definition old_successes (current : option metadata_row) : json_success * json_success * json_success * render_success * storage_success :=
  match current with Some r => successes r | None => no_success end.
Record row_written (k : path_key) (s : MetadataSnapshot) (p : PreparedSnapshot) (current : option metadata_row) (r : metadata_row) : Prop := {
  rw_checks : metadata_checks k r = true;
  rw_kind : mr_path_kind r = ms_path_kind s;
  rw_height : mr_observed_height r = ms_observed_height s;
  rw_time : mr_collected_at r = dt_instant (ms_collected_at s);
  rw_status : mr_collection_status r = ms_collection_status s;
  rw_sha256 : mr_content_sha256 r = ps_content_sha256 p;
  rw_count : mr_file_count r = count (ps_files p);
  rw_qdoc : (mr_qdoc r).1 = pj_status (ps_qdoc p) /\
            json_written (ps_qdoc p) (old_successes current).1.1.1.1 (ms_observed_height s) (mr_qdoc r).2;
  rw_qpkg : (mr_qpkg_json r).1 = pj_status (ps_qpkg_json p) /\
            json_written (ps_qpkg_json p) (old_successes current).1.1.1.2 (ms_observed_height s) (mr_qpkg_json r).2;
  rw_qfuncs : (mr_qfuncs r).1 = pj_status (ps_qfuncs p) /\
              json_written (ps_qfuncs p) (old_successes current).1.1.2 (ms_observed_height s) (mr_qfuncs r).2;
  rw_qrender : mr_qrender r = (rc_status (ms_qrender s), render_success_values s (old_successes current).1.2);
  rw_qstorage : mr_qstorage r = (sc_status (ms_qstorage s), storage_success_values s (old_successes current).2)
}.
Lemma write_metadata_inv k s p current d d' : write_metadata k s p current d = Ok d' ->
  exists r, row_written k s p current r /\ d' = set_metadata (<[k := r]> (t_metadata d)) d.
Proof.
  unfold write_metadata. fold (old_successes current). destruct (old_successes current) as [[[[q1 q2] q3] r4] r5] eqn:Eq. intros Hw.
  apply bind_Ok in Hw as (t1 & F1 & Hw). apply bind_Ok in Hw as (t2 & F2 & Hw). apply bind_Ok in Hw as (t3 & F3 & Hw).
  apply bind_Ok in Hw as (c1 & G1 & Hw). apply bind_Ok in Hw as (c2 & G2 & Hw). apply bind_Ok in Hw as (c3 & G3 & Hw).
  unfold upsert_metadata in Hw. apply bind_Ok in Hw as ([] & _ & Hw). apply bind_Ok in Hw as ([] & Hc%require_Ok & Hw).
  do 2 (apply bind_Ok in Hw as ([] & _ & Hw)). injection Hw as <-. eexists. split; [|done].
  constructor; rewrite ?Eq; try done; split; try done; by eexists.
Qed.
Lemma publish_inv s d p d' : publish_metadata_snapshot_cursor s d = Ok (p, d') ->
  let k := (ms_chain_id s, ms_path s) in
  prepared_from s p /\ cg_kinds (t_catalog d) !! k = Some (ms_path_kind s) /\
  (forall r, t_metadata d !! k = Some r -> stale r s = false) /\
  exists r, row_written k s p (t_metadata d !! k) r /\
    ((exists r0, t_metadata d !! k = Some r0 /\ mr_content_sha256 r0 = ps_content_sha256 p
                 /\ d' = set_metadata (<[k := r]> (t_metadata d)) d)
     \/ (NoDup (map pf_filename (ps_files p)) /\
         d' = set_files (<[k := entries (ps_files p)]> (t_files d)) (set_metadata (<[k := r]> (t_metadata d)) d))).
Proof.
  intros Hp k. unfold publish_metadata_snapshot_cursor, check in Hp. fold k in Hp. apply bind_Ok in Hp as (p0 & Hprep & Hp).
  destruct (cg_kinds (t_catalog d) !! k) as [kind|]; [|done]. apply bind_Ok in Hp as ([] & Hk%require_Ok%String.eqb_eq & Hp).
  apply bind_Ok in Hp as ([] & Hst%raise_if_Ok & Hp). apply bind_Ok in Hp as (d1 & Hw & Hp).
  apply write_metadata_inv in Hw as (r & Hr & ->).
  assert (p0 = p) as ->.
  { clear -Hp. set (b := match t_metadata d !! k with Some _ => _ | None => _ end) in Hp. clearbody b.
    destruct b; [apply bind_Ok in Hp as (? & _ & Hp)|]; by injection Hp. }
  split_and!; [by apply prepare_from|by rewrite Hk| |].
  - intros r0 E. by rewrite E in Hst.
  - exists r. split; [done|]. destruct (t_metadata d !! k) as [r0|] eqn:E.
    + destruct (String.eqb_spec (mr_content_sha256 r0) (ps_content_sha256 p)) as [Es|Es]; cbn [negb] in Hp.
      * left. exists r0. split_and!; [done|done|by injection Hp].
      * right. apply bind_Ok in Hp as (files & [Hn ->]%insert_files_entries & [= <-]). done.
    + right. apply bind_Ok in Hp as (files & [Hn ->]%insert_files_entries & [= <-]). done.
Qed.
(** The path of a publication, before and after. *)
Lemma publish_path s d p d' : store_ok d -> publish_metadata_snapshot_cursor s d = Ok (p, d') ->
  let k := (ms_chain_id s, ms_path s) in
  exists r m, t_metadata d' = <[k := r]> (t_metadata d) /\ t_files d' = <[k := m]> (t_files d) /\ t_catalog d' = t_catalog d
    /\ row_written k s p (t_metadata d !! k) r /\ path_ok (cg_kinds (t_catalog d)) k r m.
Proof.
  intros Hd Hp k. destruct (publish_inv s d p d' Hp) as (Hprep & Hcat & _ & r & Hr & Hd'). fold k in Hcat, Hr, Hd'.
  exists r. destruct Hd' as [(r0 & E & Es & ->)|[Hn ->]].
  - specialize (Hd k). rewrite E in Hd. destruct (t_files d !! k) as [m|] eqn:Em; [|done].
    destruct Hd as (_ & _ & Hf & Hm). exists m. split_and!; [done|cbn; by rewrite insert_id|done|done|].
    split_and!; [by rewrite (rw_kind _ _ _ _ _ Hr)|apply Hr| |done]. by rewrite Hf, Es, (rw_sha256 _ _ _ _ _ Hr).
  - destruct (entries_files _ _ (pr_files _ _ Hprep) Hn) as [Hp1 Hm]. exists (entries (ps_files p)).
    split_and!; [done|done|done|done|]. split_and!; [by rewrite (rw_kind _ _ _ _ _ Hr)|apply Hr| |done].
    by rewrite (fingerprint_perm _ _ Hp1), (pr_fingerprint _ _ Hprep), (rw_sha256 _ _ _ _ _ Hr).
Qed.
End publication.

(** ** Histories of the store *)
Definition opt_le (a b : option Z) : Prop := match a, b with None, _ => True | Some x, Some y => x <= y | Some _, None => False end.
Definition last_successes (r : metadata_row) : list (option Z) :=
  [snd <$> (mr_qdoc r).2; snd <$> (mr_qpkg_json r).2; snd <$> (mr_qfuncs r).2; snd <$> (mr_qrender r).2; snd <$> (mr_qstorage r).2].
(** Never an older observation, never an older success. *)
Definition not_before (r r' : metadata_row) : Prop :=
  (mr_observed_height r < mr_observed_height r' \/ mr_observed_height r = mr_observed_height r' /\ mr_collected_at r <= mr_collected_at r')
  /\ Forall2 opt_le (last_successes r) (last_successes r').
Definition run_not_before (r r' : refresh_row) : Prop :=
  (rr_observed_height r < rr_observed_height r' \/ rr_observed_height r = rr_observed_height r' /\ rr_started_at r <= rr_started_at r')
  /\ opt_le (rr_last_successful_height r) (rr_last_successful_height r')
  /\ (rr_observed_height r = rr_observed_height r' -> rr_started_at r = rr_started_at r' ->
      rr_run_status r <> "running" -> rr_run_status r' <> "running").
#[global] Instance opt_le_po : PreOrder opt_le.
Proof.
  split; [intros [x|]; simpl; [lia|done]|]. intros [x|] [y|] [z|]; simpl; try done. lia.
Qed.
#[global] Instance not_before_po : PreOrder not_before.
Proof.
  split; [intros r; split; [right; lia|done]|]. intros r1 r2 r3 [H1 S1] [H2 S2]. split; [lia|by trans (last_successes r2)].
Qed.
#[global] Instance run_not_before_po : PreOrder run_not_before.
Proof.
  split; [intros r; split_and!; [right; lia|done|done]|].
  intros r1 r2 r3 (L1 & S1 & T1) (L2 & S2 & T2). split_and!; [lia|by trans (rr_last_successful_height r2)|].
  intros Eh Et Hr. apply T2; [lia|lia|]. apply T1; [lia|lia|done].
Qed.

Lemma run_not_before_refl r : run_not_before r r.
Proof. reflexivity. Qed.
Lemma not_before_refl r : not_before r r.
Proof. done. Qed.

Section histories.
Context `{Server} `{PyRuntime} `{JsonStack}.

(** The store changes by a publication, by a run state, and by what the
    indexer writes in the catalog, which never changes the kind of a path, and
    in the endpoint table. *)
Inductive store_step : mstore -> mstore -> Prop :=
| step_publish s d : store_step d (publish_metadata_snapshot s d).2
| step_refresh s d d' : persist_metadata_refresh_state_cursor s d = Ok d' -> store_step d d'
| step_catalog c e d : cg_kinds (t_catalog d) ⊆ cg_kinds c -> store_step d (MStore c e (t_metadata d) (t_files d) (t_refresh d)).

Lemma receive_last q t c : json_parameters q = Ok t -> receive t = Ok c -> snd <$> c = snd <$> q.
Proof.
  unfold json_parameters, receive. destruct q as [[[a b] h]|].
  - intros Ht. apply bind_Ok in Ht as (x & _ & Ht). apply bind_Ok in Ht as (y & _ & [= <-]).
    destruct (jsonb_in x), (jsonb_in y); by try intros [= <-].
  - by intros [= <-] [= <-].
Qed.
Lemma json_written_last p old h new : json_written p old h new -> pj_status p <> "ok" -> snd <$> new = snd <$> old.
Proof.
  intros (t & Ht & Hr) Hs. rewrite (receive_last _ _ _ Ht Hr). unfold json_success_values.
  by rewrite (proj2 (String.eqb_neq _ _) Hs).
Qed.
Lemma success_advances st0 h0 last0 st1 h1 last1 : success_check st0 h0 last0 = true -> success_check st1 h1 last1 = true ->
  h0 <= h1 -> (st1 <> "ok" -> last1 = last0) -> opt_le last0 last1.
Proof.
  unfold success_check. intros [_ C0]%andb_prop [_ C1]%andb_prop Hh Hk.
  destruct (String.eqb_spec st1 "ok") as [->|Hne]; [|by rewrite (Hk Hne)].
  destruct last1 as [y|]; [|done]. apply Z.eqb_eq in C1 as ->. destruct last0 as [x|]; [|done]. simpl.
  destruct (String.eqb st0 "ok"); simpl in C0; lia.
Qed.
Lemma metadata_checks_success k r : metadata_checks k r = true ->
  let h := mr_observed_height r in
  success_check (mr_qdoc r).1 h (snd <$> (mr_qdoc r).2) = true /\ success_check (mr_qpkg_json r).1 h (snd <$> (mr_qpkg_json r).2) = true
  /\ success_check (mr_qfuncs r).1 h (snd <$> (mr_qfuncs r).2) = true /\ success_check (mr_qrender r).1 h (snd <$> (mr_qrender r).2) = true
  /\ success_check (mr_qstorage r).1 h (snd <$> (mr_qstorage r).2) = true.
Proof.
  intros Hc h. unfold metadata_checks, json_check, render_check, storage_check in Hc. fold h in Hc. rewrite !andb_true_iff in Hc. tauto.
Qed.
Lemma row_written_advances k s p r0 r : metadata_checks k r0 = true -> stale r0 s = false -> row_written k s p (Some r0) r -> not_before r0 r.
Proof.
  intros Hc0 Hst Hw. pose proof (rw_checks _ _ _ _ _ Hw) as Hc. unfold stale in Hst. apply orb_false_iff in Hst as [Hh Ht].
  destruct Hw as [_ _ Eh Et _ _ _ [E1 W1] [E2 W2] [E3 W3] E4 E5].
  assert (mr_observed_height r0 <= mr_observed_height r) as Hle by lia. split; [lia|].
  apply metadata_checks_success in Hc as (C1 & C2 & C3 & C4 & C5), Hc0 as (D1 & D2 & D3 & D4 & D5).
  unfold last_successes. repeat apply Forall2_cons_2; [..|by apply Forall2_nil_2].
  - apply (success_advances _ _ _ _ _ _ D1 C1 Hle). rewrite E1. by apply (json_written_last _ _ _ _ W1).
  - apply (success_advances _ _ _ _ _ _ D2 C2 Hle). rewrite E2. by apply (json_written_last _ _ _ _ W2).
  - apply (success_advances _ _ _ _ _ _ D3 C3 Hle). rewrite E3. by apply (json_written_last _ _ _ _ W3).
  - apply (success_advances _ _ _ _ _ _ D4 C4 Hle). rewrite E4. cbn [fst snd]. unfold render_success_values.
    intros Hne. by rewrite (proj2 (String.eqb_neq _ _) Hne).
  - apply (success_advances _ _ _ _ _ _ D5 C5 Hle). rewrite E5. cbn [fst snd]. unfold storage_success_values.
    intros Hne. by rewrite (proj2 (String.eqb_neq _ _) Hne).
Qed.
Lemma persist_inv s d d' : persist_metadata_refresh_state_cursor s d = Ok d' ->
  exists r, d' = set_refresh (<[rs_chain_id s := r]> (t_refresh d)) d /\
    forall r0, t_refresh d !! rs_chain_id s = Some r0 -> run_not_before r0 r.
Proof.
  unfold persist_metadata_refresh_state_cursor. intros Hp. apply bind_Ok in Hp as ([] & _ & Hp).
  apply bind_Ok in Hp as (success & Hs & Hp). unfold upsert_refresh in Hp.
  do 2 (apply bind_Ok in Hp as ([] & _ & Hp)). injection Hp as <-. eexists. split; [done|]. intros r0 E. rewrite E in Hs.
  apply bind_Ok in Hs as ([] & C1%raise_if_Ok & Hs). apply bind_Ok in Hs as ([] & C2%raise_if_Ok & Hs).
  unfold run_not_before. cbn [rr_observed_height rr_started_at rr_last_successful_height rr_run_status].
  apply orb_false_iff in C1 as [Hh Ht]. split_and!; [lia| |].
  - destruct (rs_last_successful_height s) as [h|], (rr_last_successful_height r0) as [previous|] eqn:Er; inv_res; simpl; try done; try lia.
  - intros Eh Et Hr Hn. rewrite Eh, Et, !Z.eqb_refl in C2. cbn [andb] in C2.
    by rewrite (proj2 (String.eqb_neq _ _) Hr), Hn in C2.
Qed.
Lemma store_step_ok d d' : store_step d d' -> store_ok d ->
  store_ok d' /\ (forall k r, t_metadata d !! k = Some r -> exists r', t_metadata d' !! k = Some r' /\ not_before r r')
  /\ (forall c r, t_refresh d !! c = Some r -> exists r', t_refresh d' !! c = Some r' /\ run_not_before r r').
Proof.
  intros Hs Hd. destruct Hs as [s d|s d d' Hp|c e d Hk].
  - unfold publish_metadata_snapshot. destruct (publish_metadata_snapshot_cursor s d) as [[p d']|e] eqn:E; [|split_and!; [done|by eauto using not_before_refl|by eauto using run_not_before_refl]].
    destruct (publish_inv s d p d' E) as (_ & _ & Hst & _).
    destruct (publish_path s d p d' Hd E) as (r & m & Em & Ef & Ec & Hr & Hok). set (k := (ms_chain_id s, ms_path s)) in *.
    assert (t_refresh d' = t_refresh d) as Er.
    { destruct (publish_inv s d p d' E) as (_ & _ & _ & ? & _ & [(? & _ & _ & ->)|[_ ->]]); done. }
    split_and!.
    + intros k'. cbn [snd]. rewrite Em, Ef, Ec. destruct (decide (k' = k)) as [->|Hne]; [by rewrite !lookup_insert_eq|].
      rewrite !lookup_insert_ne by done. apply Hd.
    + intros k' r0 E0. cbn [snd]. rewrite Em. destruct (decide (k' = k)) as [->|Hne]; [|rewrite lookup_insert_ne by done; by eauto using not_before_refl].
      rewrite lookup_insert_eq. exists r. split; [done|]. pose proof (Hst r0 E0) as Hst0. specialize (Hd k). rewrite E0 in Hd.
      rewrite E0 in Hr. destruct (t_files d !! k); [|done]. destruct Hd as (_ & Hc & _). by apply (row_written_advances k s p).
    + intros c r0 E0. cbn [snd]. rewrite Er. eauto using run_not_before_refl.
  - apply persist_inv in Hp as (r & -> & Hr). split_and!; [done|eauto using not_before_refl|].
    intros c r0 E0. cbn. destruct (decide (c = rs_chain_id s)) as [->|Hne]; [rewrite lookup_insert_eq|rewrite lookup_insert_ne by done]; eauto using run_not_before_refl.
  - split_and!; [|eauto using not_before_refl|eauto using run_not_before_refl]. intros k'. specialize (Hd k'). cbn.
    destruct (t_metadata d !! k') as [r|]; [|done]. destruct (t_files d !! k') as [m|]; [|done].
    destruct Hd as (Hcat & Hrest). split; [by eapply lookup_weaken|done].
Qed.

(** C38. In every history of publications (successful or not), run states and
    catalog growth, the store stays consistent: every metadata row satisfies
    its constraints, has the kind of its catalogued path, and carries the
    fingerprint of exactly the files stored with it, each the one the program
    derives from its name and content.  A row is never replaced by an older
    observation and never loses or moves back the last success of a
    capability; a run state never moves to an older run, never loses its last
    success and never reopens a finished run. *)
Theorem metadata_history d d' : rtc store_step d d' -> store_ok d ->
  store_ok d'
  /\ (forall k r, t_metadata d !! k = Some r -> exists r', t_metadata d' !! k = Some r' /\ not_before r r')
  /\ (forall c r, t_refresh d !! c = Some r -> exists r', t_refresh d' !! c = Some r' /\ run_not_before r r').
Proof.
  induction 1 as [d|d d1 d2 Hs _ IH]; intros Hd; [split_and!; [done|by eauto using not_before_refl|intros c r E; exists r; split; [done|reflexivity]]|].
  destruct (store_step_ok d d1 Hs Hd) as (Hd1 & Hm1 & Hr1). destruct (IH Hd1) as (Hd2 & Hm2 & Hr2). split_and!; [done|..].
  - intros k r (r1 & E1 & N1)%Hm1. destruct (Hm2 k r1 E1) as (r2 & E2 & N2). exists r2. split; [exact E2|etrans; [exact N1|exact N2]].
  - intros c r (r1 & E1 & N1)%Hr1. destruct (Hr2 c r1 E1) as (r2 & E2 & N2). exists r2. split; [exact E2|etrans; [exact N1|exact N2]].
Qed.

Definition no_collision (fs gs : list MetadataFile) : Prop :=
  forall x y, fingerprint_input fs = Ok x -> fingerprint_input gs = Ok y -> sha256 x = sha256 y -> x = y.
Lemma bytes_hex_inj a b : bytes_hex a = bytes_hex b -> a = b.
Proof. intros E. apply hex_upper_inj. unfold hex_upper. by rewrite E. Qed.
Lemma same_fingerprint fs gs sha : no_collision fs gs -> metadata_fingerprint fs = Ok sha -> metadata_fingerprint gs = Ok sha -> fs ≡ₚ gs.
Proof.
  intros Hn Hf Hg. unfold metadata_fingerprint in *. apply bind_Ok in Hf as (x & Hx & Hf%Ok_inj), Hg as (y & Hy & Hg%Ok_inj).
  rewrite <-Hg in Hf. apply bytes_hex_inj in Hf. rewrite (Hn x y Hx Hy Hf) in Hx.
  apply (fingerprint_input_perm_inv fs gs y y); done.
Qed.

End histories.

(** ** A small history *)
Definition demo_stack : JsonStack := {| scan_depth := 100 |}.
Definition demo_server : Server := {|
  jsonb_in := fun t => match @json_loads_str demo_stack (fun _ => Raise json_error) t with Ok v => Some v | Raise _ => None end;
  cntrl := fun c => (c <? 32) || (c =? 127)
|}.
#[local] Existing Instances demo_stack demo_server ascii_runtime.
Definition demo_source (body : string) : string := "package avl" +:+ newline +:+ "// " +:+ body.
Definition demo_snapshot (height : Z) (body : string) (qdoc : JsonCapability) : MetadataSnapshot :=
  let none := Build_JsonCapability "not_applicable" None in
  Build_MetadataSnapshot "dev" "gno.land/p/demo/avl" "package" height "partial" ["avl.gno"]
    [Build_MetadataFile "avl.gno" (demo_source body)] (Build_datetime (10 * height) true) None qdoc none none
    (Build_RenderCapability "not_applicable" None None None None) (Build_StorageCapability "not_applicable" None None).
Definition demo_first : MetadataSnapshot := demo_snapshot 5 "one" (Build_JsonCapability "ok" (Some (Text "{}"))).
Definition demo_second : MetadataSnapshot := demo_snapshot 6 "two" (Build_JsonCapability "rpc_error" None).
Definition demo_path : path_key := ("dev", "gno.land/p/demo/avl").
Definition demo_empty : mstore := MStore (Catalog {[demo_path := "package"]} {[demo_path]} {["dev" := 5]}) empty_edb ∅ ∅ ∅.
Definition demo_published : mstore := (publish_metadata_snapshot demo_first demo_empty).2.
Lemma demo_empty_ok : store_ok demo_empty.
Proof. intros k. cbn [t_metadata t_files demo_empty]. by rewrite !lookup_empty. Qed.
Lemma demo_published_ok : store_ok demo_published.
Proof. by apply (store_step_ok demo_empty); [constructor|apply demo_empty_ok]. Qed.

Lemma fingerprint_input_iff_witness :
  ~ [Build_MetadataFile "a" "bc"] ≡ₚ [Build_MetadataFile "ab" "c"].
Proof.
  destruct (fingerprint_input [Build_MetadataFile "a" "bc"]) as [x|] eqn:Ex; [|by vm_compute in Ex].
  destruct (fingerprint_input [Build_MetadataFile "ab" "c"]) as [y|] eqn:Ey; [|by vm_compute in Ey].
  intros Hp. apply (fingerprint_input_iff _ _ x y Ex Ey) in Hp. vm_compute in Ex, Ey. congruence.
Defined.
Lemma metadata_history_witness :
  store_ok demo_published /\
  forall r, t_metadata demo_published !! demo_path = Some r ->
    exists r', t_metadata (publish_metadata_snapshot demo_second demo_published).2 !! demo_path = Some r' /\ not_before r r'.
Proof.
  split.
  - apply (metadata_history demo_empty demo_published); [|apply demo_empty_ok].
    eapply rtc_l; [apply (step_publish demo_first)|apply rtc_refl].
  - intros r Hr. destruct (metadata_history demo_published (publish_metadata_snapshot demo_second demo_published).2) as (_ & Hm & _).
    + eapply rtc_l; [apply (step_publish demo_second)|apply rtc_refl].
    + apply demo_published_ok.
    + by apply (Hm demo_path r).
Defined.
