(* ===== verification/RealmMetadataCollector.v ===== *)
(** * indexer/realm_metadata_collector.py and scripts/refresh_realm_metadata.py

    The collection of one path at a fixed height, and the refresh run that
    selects the catalogued paths, probes the endpoints, collects each path
    with failover and publishes it, between a running and a final state.
    Network, clock, connection and advisory lock are the interface
    [RefreshEnvironment]; the run holds the only lock, so no other run writes
    the metadata tables.  The command line, logging, and the closing of
    clients and of the connection are not modelled. *)
From Stdlib Require Import ZArith NArith Lia Ascii String SpecFloat.
From stdpp Require Import base gmap sets list strings sorting.
From S2P Require Import Prelude Query PyStr PyVal Codec Json InspectRpc Rpc RealmCatalog Endpoints Indexed Valopers ValopersStore Config Lines.
From S2P Require Import RealmMetadata RealmMetadataStore.
Open Scope Z_scope.

(** ** Collection *)
Record CollectionRequest := {
  cr_chain_id : string;
  cr_path : string;
  cr_path_kind : string;
  cr_observed_height : Z;
  cr_source_rpc_endpoint_id : option Z
}.
Record PathCollectionResult := {
  pc_path : string;
  pc_path_kind : string;
  pc_observed_height : Z;
  pc_status : string;
  pc_snapshot : option MetadataSnapshot;
  pc_failure_code : option string
}.
(** [_rpc_status] *)
Definition rpc_status (e : exc) : string :=
  let message := exc_message e in
  if String.eqb message "ABCI query returned an application error" then "application_error"
  else if in_strs message ["Malformed ABCI response"; "Malformed or oversized ABCI response data"; "Malformed ABCI response data";
                           "ABCI response exceeds size limit"; "ABCI response data is not UTF-8"] then "invalid_response"
  else "rpc_error".
(** [except (MetadataParseError, UnicodeError)] *)
Definition unreadable (e : exc) : bool := is_MetadataParseError e || is_unicode_error e.

(** [client.abci_query(path, data, height)], and datetime.now(timezone.utc). *)
Class MetadataClient (W : Type) := {
  md_query : string -> string -> Z -> W -> res string * W;
  md_now : W -> Z * W
}.

Section collect.
Context `{PyRuntime} `{JsonStack} {W : Type} `{MetadataClient W}.
#[local] Abbreviation query := (Query.query (W:=W)).
#[local] Notation "'let*' p := m 'in' k" := (and_then m (fun p => k))
  (at level 10, p strict pattern, m at level 200, k at level 200).

(** A query and the reading of its answer, with the two except clauses. *)
Definition capability {A} (rpc_path data : string) (height : Z) (parser : string -> res A) (failed : string -> A) : query A := fun w =>
  let '(answer, w) := md_query rpc_path data height w in
  (match (payload ← answer; parser payload) with
   | Ok a => Ok a
   | Raise e => if unreadable e then Ok (failed "invalid_response")
                else if isinstance_RpcError e then Ok (failed (rpc_status e)) else Raise e
   end, w).
Definition json_capability (name : json_name) (rpc_path path : string) (height : Z) : query JsonCapability :=
  capability rpc_path path height
    (fun payload => _ ← parse_capability name path (Text payload); Ok (Build_JsonCapability "ok" (Some (Text payload))))
    (fun status => Build_JsonCapability status None).
Definition failed_render (status : string) : RenderCapability := Build_RenderCapability status None None None None.
Definition render_capability (path : string) (height : Z) : query RenderCapability :=
  capability "vm/qrender" (path +:+ ":") height
    (fun payload => r ← summarize_qrender (Text payload);
                    Ok (Build_RenderCapability "ok" (Some (rd_sha256 r)) (Some (rd_byte_count r)) (Some (rd_line_count r)) (Some (rd_non_empty r))))
    failed_render.
Definition failed_storage (status : string) : StorageCapability := Build_StorageCapability status None None.
Definition storage_capability (path : string) (height : Z) : query StorageCapability :=
  capability "vm/qstorage" path height
    (fun payload => s ← parse_qstorage (Text payload); Ok (Build_StorageCapability "ok" (Some (st_storage_bytes s)) (Some (st_deposit_ugnot s))))
    failed_storage.

(** A required query: [None] when one of the three errors of the except clause
    stops the collection. *)
Definition required {A} (rpc_path data : string) (height : Z) (parser : string -> res A) : query (option A) := fun w =>
  let '(answer, w) := md_query rpc_path data height w in
  (match (payload ← answer; parser payload) with
   | Ok a => Ok (Some a)
   | Raise e => if unreadable e || isinstance_RpcError e then Ok None else Raise e
   end, w).
Definition read_file (filename content : string) : res MetadataFile := _ ← encode_utf8 content; Ok (Build_MetadataFile filename content).
(** The loop over the files; [None] when a file is missing. *)
Fixpoint fetch_files (path : string) (height : Z) (filenames : list string) : query (option (list MetadataFile)) :=
  match filenames with
  | [] => pure (Ok (Some []))
  | filename :: rest =>
      let* file := required "vm/qfile" (path +:+ "/" +:+ filename) height (read_file filename) in
      match file with
      | None => pure (Ok None)
      | Some f => let* files := fetch_files path height rest in pure (Ok (cons f <$> files))
      end
  end.
Definition collection_failed (r : CollectionRequest) (code : string) : PathCollectionResult :=
  Build_PathCollectionResult (cr_path r) (cr_path_kind r) (cr_observed_height r) "failed" None (Some code).
Definition is_ok_status (status : string) : bool := String.eqb status "ok".
Definition clock : query Z := fun w => let '(t, w) := md_now w in (Ok t, w).

Definition collect_path_metadata (r : CollectionRequest) : query PathCollectionResult :=
  let path := cr_path r in
  let height := cr_observed_height r in
  let* listing := required "vm/qfile" path height (fun p => parse_qfile_listing (Text p)) in
  match listing with
  | None => pure (Ok (collection_failed r "qfile_listing"))
  | Some listing =>
      let* files := fetch_files path height (ql_filenames listing) in
      match files with
      | None => pure (Ok (collection_failed r "qfile_file"))
      | Some files =>
          let* qdoc := json_capability Qdoc "vm/qdoc" path height in
          let* qpkg := json_capability Qpkg_json "vm/qpkg_json" path height in
          let* qfuncs := json_capability Qfuncs "vm/qfuncs" path height in
          let realm := String.eqb (cr_path_kind r) "realm" in
          let* qrender := (if realm then render_capability path height else pure (Ok (failed_render "not_applicable"))) in
          let* qstorage := (if realm then storage_capability path height else pure (Ok (failed_storage "not_applicable"))) in
          let applicable := [jc_status qdoc; jc_status qpkg; jc_status qfuncs]
                            ++ (if realm then [rc_status qrender; sc_status qstorage] else []) in
          let status := if forallb is_ok_status applicable then "complete" else "partial" in
          let* now := clock in
          pure (Ok (Build_PathCollectionResult path (cr_path_kind r) height status
            (Some (Build_MetadataSnapshot (cr_chain_id r) path (cr_path_kind r) height status (ql_filenames listing) files
                     (Build_datetime now true) (cr_source_rpc_endpoint_id r) qdoc qpkg qfuncs qrender qstorage)) None))
      end
  end.
End collect.

(** ** The refresh run *)
Record CatalogSelection := { cs_observed_height : Z; cs_paths : list (string * string) }.
Definition refresh_fails {A} (msg : string) : res A := Raise (RuntimeError msg).

(** The order of text in the database. *)
Class Collation := { collate : string -> string -> bool }.

Section selection.
Context `{Collation}.

(** The rows of the catalog query: the state of the chain joined with its
    visible paths, or with NULL when it has none. *)
Definition catalog_rows (chain_id : string) (c : catalog) : list (Z * option (string * string)) :=
  match cg_heights c !! chain_id with
  | None => []
  | Some height =>
      let visible := List.filter (fun kv : path_key * string => String.eqb kv.1.1 chain_id && bool_decide (kv.1 ∈ cg_visible c))
                       (map_to_list (cg_kinds c)) in
      match sort_by (fun a b => collate a.1 b.1) (map (fun kv : path_key * string => (kv.1.2, kv.2)) visible) with
      | [] => [(height, None)]
      | paths => map (fun p => (height, Some p)) paths
      end
  end.
Definition select_catalog_paths (chain_id : string) (requested : list string) (limit : option nat) (c : catalog) : res CatalogSelection :=
  _ ← raise_if (existsb (fun path => negb (bool_decide (is_Some (path_kind (VStr path))))) requested) (RuntimeError "invalid_requested_path");
  match catalog_rows chain_id c with
  | [] => refresh_fails "catalog_state_missing"
  | (height, first) :: rest =>
      let rows := (height, first) :: rest in
      _ ← raise_if (height <=? 0) (RuntimeError "catalog_height_invalid");
      _ ← raise_if (existsb (fun row => negb (row.1 =? height)) rows) (RuntimeError "inconsistent_catalog_height");
      let available := omap snd rows in
      _ ← raise_if (Nat.eqb (length available) 0) (RuntimeError "no_rpc_visible_paths");
      _ ← raise_if (existsb (fun p => negb (bool_decide (path_kind (VStr p.1) = Some p.2))) available) (RuntimeError "invalid_catalog_path");
      selected ←
        (match requested with
         | [] => Ok available
         | _ =>
             let requested_set := dedup requested in
             let selected := List.filter (fun item => in_strs item.1 requested_set) available in
             _ ← require (Nat.eqb (length selected) (length requested_set)) (RuntimeError "requested_path_not_visible");
             Ok selected
         end);
      Ok (Build_CatalogSelection height (match limit with Some n => take n selected | None => selected end))
  end.
End selection.

(** The outside of a run: [re_statement] is a statement that reaches the
    server, [re_lock] the advisory lock. *)
Class RefreshEnvironment (E : Type) := {
  re_now : E -> Z * E;
  re_connect : E -> res unit * E;
  re_lock : E -> res bool * E;
  re_statement : E -> res unit * E;
  re_commit : E -> commit_outcome * E;
  re_statuses : E -> (string -> res val) * (string -> float) * E;
  re_abci : string -> list (string * val) -> E -> res val * E
}.
Record RefreshWorld (E : Type) := RWorld { rw_store : mstore; rw_env : E }.
Arguments RWorld {E} rw_store rw_env.
Arguments rw_store {E} _.
Arguments rw_env {E} _.

Section refresh.
Context `{PyRuntime} `{JsonStack} `{Server} `{Collation} {E : Type} `{RefreshEnvironment E}.
#[local] Abbreviation world := (RefreshWorld E).
#[local] Abbreviation query := (Query.query (W:=world)).
#[local] Notation "'let*' p := m 'in' k" := (and_then m (fun p => k))
  (at level 10, p strict pattern, m at level 200, k at level 200).

Definition outside {A} (op : E -> A * E) : world -> A * world := fun w =>
  let '(a, e) := op (rw_env w) in (a, RWorld (rw_store w) e).

(** *** The client of an endpoint: a refused query sends no request. *)
Definition client_query (url path data : string) (height : Z) : query string := fun w =>
  if String.eqb path "" || negb (is_Ok (abci_height_check (VInt height))) then
    (abci_query (fun _ => Raise (RpcError "request")) path (VStr data) (VInt height), w)
  else let '(answer, w) := outside (re_abci url (abci_params path data (VInt height))) w in
       (abci_query (fun _ => answer) path (VStr data) (VInt height), w).
Definition client_of (url : string) : MetadataClient world := {| md_query := client_query url; md_now := outside re_now |}.

(** *** Statements and transactions *)
Definition read {A} (cursor : mstore -> res A) : query A :=
  let* _ := outside re_statement in fun w => (cursor (rw_store w), w).
Definition transaction {A} (cursor : mstore -> res (A * mstore)) : query A :=
  let* _ := outside re_statement in fun w =>
  match cursor (rw_store w) with
  | Raise e => (Raise e, w)
  | Ok (a, d) => match outside re_commit w with
                 | (Committed, w) => (Ok a, RWorld d (rw_env w))
                 | (RolledBack e, w) => (Raise e, w)
                 | (Unacknowledged e, w) => (Raise e, RWorld d (rw_env w))
                 end
  end.
(** [_persist_state] *)
Definition persist_state (s : MetadataRefreshState) : query unit :=
  transaction (fun d => d' ← persist_metadata_refresh_state_cursor s d; Ok (tt, d')).
(** [publish_metadata_snapshot(connection, snapshot)] *)
Definition publish (s : MetadataSnapshot) : query PreparedSnapshot := transaction (publish_metadata_snapshot_cursor s).

(** *** Endpoints *)
Definition reaches (height : Z) (p : probe) : bool := match pr_latest_height p with Some h => height <=? h | None => false end.
Definition find_endpoint_id (chain_id url : string) (d : edb) : option Z :=
  e ← endpoints d !! url; if String.eqb (en_chain e) chain_id then Some (en_id e) else None.
Definition probe_urls (preferred : option string) (urls : list string) : list string :=
  match preferred with
  | Some p => if String.eqb p "" then List.filter (fun u => negb (String.eqb u p)) urls
              else p :: List.filter (fun u => negb (String.eqb u p)) urls
  | None => urls
  end.
(** The candidates with the IDs of their endpoints. *)
Definition find_candidates (config : IndexerConfig) (height : Z) : query (list (probe * option Z)) :=
  let* preferred := read (fun d => Ok (get_selected_rpc_url (ic_chain_id config) (t_endpoints d))) in
  let* probes := (fun w => let '(get, elapsed, e) := re_statuses (rw_env w) in
                           (probe_rpc_endpoints (probe_urls preferred (ic_rpc_urls config)) (ic_chain_id config)
                              (ic_max_height_lag config) get elapsed, RWorld (rw_store w) e)) in
  let suitable := suitable_rpc_probes probes in
  let* _ := pure (raise_if (Nat.eqb (length suitable) 0) (RuntimeError "no_suitable_rpc")) in
  let candidates := List.filter (reaches height) suitable in
  let* _ := pure (raise_if (Nat.eqb (length candidates) 0) (RuntimeError "rpc_cannot_serve_catalog_height")) in
  let* found := read (fun d => Ok (map (fun c => (c, find_endpoint_id (ic_chain_id config) (pr_url c) (t_endpoints d))) candidates)) in
  let* _ := outside re_statement in pure (Ok found).

(** *** One path *)
Definition failover_code (code : option string) : bool :=
  match code with Some c => in_strs c ["qfile_listing"; "qfile_file"] | None => false end.
(** The loop over the candidates; an exception is [collection_error]. *)
Fixpoint collect_with_failover (chain_id path kind : string) (height : Z) (cs : list (probe * option Z))
    (result : option PathCollectionResult) : query (option PathCollectionResult) :=
  match cs with
  | [] => pure (Ok result)
  | (candidate, id) :: rest => fun w =>
      match pr_client candidate with
      | None => (Raise AttributeError, w)
      | Some c =>
          match collect_path_metadata (H1:=client_of (cl_url c)) (Build_CollectionRequest chain_id path kind height id) w with
          | (Raise e, w) => (Raise e, w)
          | (Ok r, w) =>
              match pc_snapshot r with
              | Some _ => (Ok (Some r), w)
              | None => if failover_code (pc_failure_code r) then collect_with_failover chain_id path kind height rest (Some r) w
                        else (Ok (Some r), w)
              end
          end
      end
  end.
Definition isinstance_MetadataPersistenceError (e : exc) : bool :=
  match e with MetadataPersistenceError _ | StaleMetadataSnapshot _ => true | _ => false end.
(** Whether the path was published; an exception stops the run. *)
Definition refresh_path (chain_id : string) (height : Z) (cs : list (probe * option Z)) (item : string * string) : query bool := fun w =>
  match collect_with_failover chain_id item.1 item.2 height cs None w with
  | (Raise _, w) => (Ok false, w)
  | (Ok None, w) => (Ok false, w)
  | (Ok (Some r), w) =>
      match pc_snapshot r with
      | None => (Ok false, w)
      | Some snapshot =>
          match publish snapshot w with
          | (Ok _, w) => (Ok true, w)
          | (Raise e, w) => if isinstance_MetadataPersistenceError e then (Ok false, w) else (Raise e, w)
          end
      end
  end.
(** The loop over the paths: published, failed, and the exception that ended it. *)
Fixpoint refresh_paths (chain_id : string) (height : Z) (cs : list (probe * option Z)) (paths : list (string * string))
    (published failed : Z) (w : world) : Z * Z * option exc * world :=
  match paths with
  | [] => (published, failed, None, w)
  | item :: rest =>
      match refresh_path chain_id height cs item w with
      | (Raise e, w) => (published, failed, Some e, w)
      | (Ok true, w) => refresh_paths chain_id height cs rest (published + 1) failed w
      | (Ok false, w) => refresh_paths chain_id height cs rest published (failed + 1) w
      end
  end.

(** *** [main] *)
Definition run_state (config : IndexerConfig) (s : CatalogSelection) (status : string) (published failed : Z) (started : Z)
    (completed : option Z) (success : bool) : MetadataRefreshState :=
  let aware t := Build_datetime t true in
  Build_MetadataRefreshState (ic_chain_id config) (cs_observed_height s) status (count (cs_paths s)) published failed
    (aware started) (aware <$> completed) (if success then Some (cs_observed_height s) else None)
    (if success then aware <$> completed else None).
(** The except clause once a run has started. *)
Definition abandon (config : IndexerConfig) (s : CatalogSelection) (started published failed : Z) (w : world) : Z * world :=
  let '(completed, w) := outside re_now w in
  (1, (persist_state (run_state config s "failed" published failed started (Some completed) false) w).2).
Definition terminal_status (published failed : Z) : string :=
  if failed =? 0 then "complete" else if negb (published =? 0) then "partial" else "failed".
Definition refresh_selected (config : IndexerConfig) (s : CatalogSelection) (w : world) : Z * world :=
  let '(started, w) := outside re_now w in
  match (let* _ := persist_state (run_state config s "running" 0 0 started None false) in
         find_candidates config (cs_observed_height s)) w with
  | (Raise _, w) => abandon config s started 0 0 w
  | (Ok candidates, w) =>
      let '(published, failed, stopped, w) :=
        refresh_paths (ic_chain_id config) (cs_observed_height s) candidates (cs_paths s) 0 0 w in
      match stopped with
      | Some _ => abandon config s started published failed w
      | None =>
          let terminal := terminal_status published failed in
          let complete := String.eqb terminal "complete" in
          let '(completed, w) := outside re_now w in
          match persist_state (run_state config s terminal published failed started (Some completed) complete) w with
          | (Raise _, w) => abandon config s started published failed w
          | (Ok _, w) => (if complete then 0 else 2, w)
          end
      end
  end.
Definition main (config : res IndexerConfig) (requested : list string) (limit : option nat) (w : world) : Z * world :=
  match config with
  | Raise _ => (1, w)
  | Ok config =>
      match (let* _ := outside re_connect in let* locked := outside re_lock in let* _ := outside re_statement in
             if locked : bool then
               let* s := read (fun d => select_catalog_paths (ic_chain_id config) requested limit (t_catalog d)) in
               let* _ := outside re_statement in pure (Ok (Some s))
             else pure (Ok None)) w with
      | (Ok (Some s), w) => refresh_selected config s w
      | (_, w) => (1, w)
      end
  end.
End refresh.

(** ** What is collected can be published

    A capability of a collected snapshot is a payload its parser accepts, or a
    failure without one. *)
Definition failure_statuses : list string := ["application_error"; "invalid_response"; "rpc_error"].
Definition reported {A} (ok : A -> Prop) (failed : string -> A) (a : A) : Prop :=
  ok a \/ exists status, status ∈ failure_statuses /\ a = failed status.
Section collected.
Context `{PyRuntime} `{JsonStack} {W : Type} `{MetadataClient W}.

Lemma capability_reported {A} (ok : A -> Prop) rpc_path data h parser failed w a w' :
  (forall payload a, parser payload = Ok a -> ok a) ->
  capability (A:=A) rpc_path data h parser failed w = (Ok a, w') -> reported ok failed a.
Proof.
  intros Hok. unfold capability. destruct (md_query rpc_path data h w) as [answer w1].
  destruct (payload ← answer; parser payload) as [b|e] eqn:E; intros [= Ha _].
  - subst. left. apply bind_Ok in E as (payload & _ & E). by eapply Hok.
  - right. destruct (unreadable e).
    + injection Ha as <-. eexists. split; [|done]. set_solver.
    + destruct (isinstance_RpcError e); [|done]. injection Ha as <-. eexists. split; [|done].
      unfold rpc_status, failure_statuses. destruct (String.eqb _ _); [set_solver|]. destruct (in_strs _ _); set_solver.
Qed.
Lemma required_Ok {A} rpc_path data h (parser : string -> res A) w a w' :
  required rpc_path data h parser w = (Ok (Some a), w') -> exists payload, parser payload = Ok a.
Proof.
  unfold required. destruct (md_query rpc_path data h w) as [answer w1].
  destruct (payload ← answer; parser payload) as [b|e] eqn:E; intros [= Ha _].
  - subst. apply bind_Ok in E as (payload & _ & E). by exists payload.
  - by destruct (_ || _).
Qed.

Definition json_ok (name : json_name) (path : string) (c : JsonCapability) : Prop :=
  exists p, c = Build_JsonCapability "ok" (Some p) /\ is_Ok (parse_capability name path p) = true.
Definition render_ok (c : RenderCapability) : Prop :=
  exists p r, summarize_qrender p = Ok r /\
    c = Build_RenderCapability "ok" (Some (rd_sha256 r)) (Some (rd_byte_count r)) (Some (rd_line_count r)) (Some (rd_non_empty r)).
Definition storage_ok (c : StorageCapability) : Prop :=
  exists p s, parse_qstorage p = Ok s /\ c = Build_StorageCapability "ok" (Some (st_storage_bytes s)) (Some (st_deposit_ugnot s)).
Record collected (r : CollectionRequest) (s : MetadataSnapshot) : Prop := {
  cl_chain : ms_chain_id s = cr_chain_id r;
  cl_path : ms_path s = cr_path r;
  cl_kind : ms_path_kind s = cr_path_kind r;
  cl_height : ms_observed_height s = cr_observed_height r;
  cl_endpoint : ms_source_rpc_endpoint_id s = cr_source_rpc_endpoint_id r;
  cl_status : in_strs (ms_collection_status s) COLLECTION_STATUSES = true;
  cl_aware : dt_aware (ms_collected_at s) = true;
  cl_listing : good_listing (ms_expected_filenames s);
  cl_files : map mf_filename (ms_files s) = ms_expected_filenames s;
  cl_contents : Forall (fun f => utf8 (mf_content f) = true) (ms_files s);
  cl_qdoc : reported (json_ok Qdoc (ms_path s)) (fun st => Build_JsonCapability st None) (ms_qdoc s);
  cl_qpkg : reported (json_ok Qpkg_json (ms_path s)) (fun st => Build_JsonCapability st None) (ms_qpkg_json s);
  cl_qfuncs : reported (json_ok Qfuncs (ms_path s)) (fun st => Build_JsonCapability st None) (ms_qfuncs s);
  cl_qrender : if String.eqb (ms_path_kind s) "realm" then reported render_ok failed_render (ms_qrender s)
               else ms_qrender s = failed_render "not_applicable";
  cl_qstorage : if String.eqb (ms_path_kind s) "realm" then reported storage_ok failed_storage (ms_qstorage s)
                else ms_qstorage s = failed_storage "not_applicable"
}.
Lemma fetch_files_Ok path h filenames w files w' : fetch_files path h filenames w = (Ok (Some files), w') ->
  map mf_filename files = filenames /\ Forall (fun f => utf8 (mf_content f) = true) files.
Proof.
  revert w files w'. induction filenames as [|name rest IH]; intros w files w'; cbn [fetch_files].
  - intros [= <- _]. done.
  - intros (file & w1 & Hfile & Hr)%and_then_Ok. destruct file as [f|]; [|done].
    apply and_then_Ok in Hr as (fs & w2 & Hfs & Hr). unfold pure in Hr. destruct fs as [fs|]; [|done]. injection Hr as <- _.
    apply IH in Hfs as [<- Hu]. apply required_Ok in Hfile as (content & Hc). unfold read_file, encode_utf8 in Hc.
    apply bind_Ok in Hc as (b & Hb & [= <-]). split; [done|]. constructor; [|done]. cbn. unfold utf8.
    by destruct (utf8_valid (list_of_string content)).
Qed.
Lemma json_capability_reported name rpc_path path h w c w' : json_capability name rpc_path path h w = (Ok c, w') ->
  reported (json_ok name path) (fun st => Build_JsonCapability st None) c.
Proof.
  apply capability_reported. intros payload a Ha. apply bind_Ok in Ha as (v & Hv & [= <-]). exists (Text payload). by rewrite Hv.
Qed.
Lemma render_capability_reported path h w c w' : render_capability path h w = (Ok c, w') -> reported render_ok failed_render c.
Proof. apply capability_reported. intros payload a Ha. apply bind_Ok in Ha as (v & Hv & [= <-]). by exists (Text payload), v. Qed.
Lemma storage_capability_reported path h w c w' : storage_capability path h w = (Ok c, w') -> reported storage_ok failed_storage c.
Proof. apply capability_reported. intros payload a Ha. apply bind_Ok in Ha as (v & Hv & [= <-]). by exists (Text payload), v. Qed.
Lemma collect_collected r w res w' s : collect_path_metadata r w = (Ok res, w') -> pc_snapshot res = Some s -> collected r s.
Proof.
  intros Hc Hs. unfold collect_path_metadata in Hc. apply and_then_Ok in Hc as (listing & w1 & Hl & Hc).
  destruct listing as [l|]; [|injection Hc as <- _; done]. apply and_then_Ok in Hc as (files & w2 & Hf & Hc).
  destruct files as [files|]; [|injection Hc as <- _; done].
  apply and_then_Ok in Hc as (qdoc & w3 & H3 & Hc). apply and_then_Ok in Hc as (qpkg & w4 & H4 & Hc).
  apply and_then_Ok in Hc as (qfuncs & w5 & H5 & Hc). apply and_then_Ok in Hc as (qrender & w6 & H6 & Hc).
  apply and_then_Ok in Hc as (qstorage & w7 & H7 & Hc). apply and_then_Ok in Hc as (t & w8 & _ & Hc). injection Hc as <- _.
  cbn in Hs. injection Hs as <-. apply required_Ok in Hl as (p & Hl). apply parse_qfile_listing_good in Hl as [_ Hl].
  apply fetch_files_Ok in Hf as [Hf1 Hf2]. constructor; cbn; try done.
  - by destruct (_ && _).
  - by eapply json_capability_reported.
  - by eapply json_capability_reported.
  - by eapply json_capability_reported.
  - destruct (String.eqb (cr_path_kind r) "realm"); [by eapply render_capability_reported|by injection H6].
  - destruct (String.eqb (cr_path_kind r) "realm"); [by eapply storage_capability_reported|by injection H7].
Qed.
End collected.

(** ** Preparation of a collected snapshot *)
Definition request_ok (r : CollectionRequest) : Prop :=
  chain_re (cr_chain_id r) = true /\ canonical_kind (cr_path r) = Some (cr_path_kind r) /\ 1 <= cr_observed_height r
  /\ all_opt (strict_int 1 None) (cr_source_rpc_endpoint_id r) = true.
(** What can still refuse a snapshot: limits on the sources. *)
Definition source_limits : list string :=
  ["nul_file_content"; "file_too_large"; "too_many_lines"; "snapshot_too_large"; "invalid_source"].
Definition is_source_limit (e : exc) : bool :=
  match e with MetadataPersistenceError m => in_strs m source_limits | _ => false end.
Lemma sha256_hex_re text : sha_re (sha256_hex text) = true.
Proof.
  unfold sha_re, sha256_hex, bytes_hex. pose proof (sha256_length (list_of_string text)) as Hl.
  revert Hl. generalize (sha256 (list_of_string text)) as l. intros l Hl.
  assert (forall l, str_forallb lower_hex (str_concat (map hex_byte l)) = true /\ String.length (str_concat (map hex_byte l)) = (2 * length l)%nat) as Hh.
  { clear. intros l. induction l as [|a l [IH1 IH2]]; [done|]. cbn [map str_concat]. rewrite str_forallb_app, str_length_app, IH1, IH2.
    split; [|simpl; lia]. rewrite andb_true_r. pose proof (byte_nibbles a) as [Hx Hy]. unfold hex_byte. cbn.
    assert (forall z, 0 <= z < 16 -> lower_hex (hex_digit z) = true) as Hd.
    { intros z Hz. unfold lower_hex, byte_in, hex_digit. rewrite byte_Z_byte; destruct (Z.ltb_spec z 10); lia. }
    by rewrite !Hd. }
  destruct (Hh l) as [-> ->]. by rewrite Hl.
Qed.

Section publishable.
Context `{PyRuntime} `{JsonStack}.

Lemma failure_is_status st : st ∈ failure_statuses -> in_strs st CAPABILITY_STATUSES = true /\ String.eqb st "ok" = false.
Proof. intros Hs. unfold failure_statuses in Hs. set_unfold in Hs. by destruct Hs as [->|[->|[->|[]]]]. Qed.
Lemma prepare_reported_json name path c : reported (json_ok name path) (fun st => Build_JsonCapability st None) c ->
  is_Ok (prepare_json_capability name c path) = true.
Proof.
  unfold prepare_json_capability. intros [(p & -> & Hp)|(st & [Hs Hn]%failure_is_status & ->)]; cbn [jc_status jc_payload has].
  - cbn. destruct (parse_capability name path p) as [v|] eqn:E; [|done]. cbn.
    assert (is_Ok (load_json p) = true) as Hl.
    { destruct name; cbn in E; unfold parse_qdoc, parse_qpkg_json, parse_qfuncs in E; apply bind_Ok in E as (q & -> & _); done. }
    by destruct (load_json p) as [[v' n]|].
  - unfold check. rewrite Hs, Hn. done.
Qed.
Lemma validate_render_ok c : reported render_ok failed_render c -> validate_render c = Ok tt.
Proof.
  unfold validate_render, check. intros [(p & r & Hr & ->)|(st & [Hs Hn]%failure_is_status & ->)]; cbn [rc_status failed_render];
    [|by rewrite Hs, Hn].
  unfold summarize_qrender in Hr. apply bind_Ok in Hr as (text & Ht & <-%Ok_inj). apply bind_Ok. exists tt. split; [done|].
  change (negb (String.eqb "ok" "ok")) with false. cbn iota.
  cbn [rc_sha256 rc_byte_count rc_line_count rc_non_empty rd_sha256 rd_byte_count rd_line_count rd_non_empty].
  apply text_of_Ok in Ht as (Hu & Hn & _). pose proof (splitlines_count text Hu) as Hc. unfold count, strict_int.
  rewrite sha256_hex_re. unfold text_size in *. apply require_Ok. cbn [andb].
  set (n := Z.of_nat (String.length text)) in *. set (m := Z.of_nat (length (py_splitlines text))) in *.
  assert (0 <= m) by lia. rewrite (proj2 (Z.leb_le 0 n)), (proj2 (Z.leb_le n _)), (proj2 (Z.leb_le 0 m)), (proj2 (Z.leb_le m _)),
    (proj2 (Z.leb_le m (n + 1))) by lia. cbn [andb].
  destruct (String.eqb_spec (py_strip text) "") as [E|E]; cbn [negb].
  - rewrite andb_true_r, andb_true_r. destruct (Z.eqb_spec n 0); [|done]. cbn. apply Z.eqb_eq. lia.
  - assert (0 < n). { destruct text; [done|]. subst n. simpl. lia. }
    rewrite (proj2 (Z.ltb_lt 0 n)), (proj2 (Z.eqb_neq n 0)) by lia. done.
Qed.
Lemma validate_storage_ok c : reported storage_ok failed_storage c -> validate_storage c = Ok tt.
Proof.
  unfold validate_storage, check. intros [(p & s & [Hb Hd]%parse_qstorage_bounds & ->)|(st & [Hs Hn]%failure_is_status & ->)];
    cbn [sc_status failed_storage]; [|by rewrite Hs, Hn].
  apply bind_Ok. exists tt. split; [done|]. cbn [String.eqb negb]. apply require_Ok. cbn. unfold strict_int. lia.
Qed.
Lemma validate_listing_ok s : good_listing (ms_expected_filenames s) -> map mf_filename (ms_files s) = ms_expected_filenames s ->
  validate_listing s = Ok tt.
Proof.
  intros Hg Hf. unfold validate_listing, check. rewrite Hf, (parse_qfile_listing_join _ Hg). cbn [except_as listing_of ql_filenames].
  destruct Hg as [Hne _ _ Hn _ _]. apply bind_Ok. exists tt. split; [apply require_Ok; by destruct (ms_expected_filenames s)|].
  cbn [mbind res_bind ql_filenames]. rewrite bool_decide_eq_true_2 by done. cbn [require mbind res_bind].
  assert (length (ms_expected_filenames s) = length (dedup (ms_expected_filenames s))) as <-.
  { apply Permutation_length, NoDup_Permutation; [done|apply NoDup_dedup|]. intros x. by rewrite elem_of_dedup. }
  rewrite Nat.eqb_refl. cbn [require mbind res_bind].
  assert (forallb (fun n => in_strs n (ms_expected_filenames s)) (ms_expected_filenames s) = true) as ->; [|done].
  apply forallb_forall. intros x Hx. apply in_strs_spec. by apply list_elem_of_In.
Qed.

Lemma import_candidates_raises text : raises is_MetadataParseError (import_candidates text).
Proof. unfold import_candidates, RealmMetadata.check. solve_raises. Qed.
Lemma prepared_file_raises f : utf8 (mf_content f) = true -> raises is_source_limit (prepared_file f).
Proof.
  intros Hu. unfold prepared_file. apply raises_bind; [|intros [[? ?] ?] _; done].
  destruct (endswith ".gno" (mf_filename f)); [|done]. apply raises_bind; [|done].
  apply raises_except_as; [done|]. eapply raises_impl with (P := is_MetadataParseError); [intros e ->; done|].
  unfold summarize_source_file, RealmMetadata.check, text_of, encode_utf8, RealmMetadata.check. unfold utf8 in Hu. rewrite Hu.
  pose proof import_candidates_raises. solve_raises.
Qed.
Lemma prepare_file_raises s f : safe_filename (mf_filename f) = true -> utf8 (mf_content f) = true ->
  raises is_source_limit (prepare_file s f).
Proof.
  intros Hs Hu. pose proof (prepared_file_raises f Hu) as Hp. unfold prepare_file, check. rewrite Hs. cbn [require mbind res_bind].
  unfold encode_utf8. unfold utf8 in Hu. rewrite Hu. cbn [except_as mbind res_bind].
  repeat (apply raises_bind; [by apply raises_require|intros [] _]). apply raises_bind; [done|]. intros p _. done.
Qed.
Lemma prepare_files_raises files s : forallb safe_filename (map mf_filename files) = true ->
  Forall (fun f => utf8 (mf_content f) = true) files -> raises is_source_limit (foldM_res prepare_file s files).
Proof.
  revert s. induction files as [|f files IH]; intros s Hs Hu; [done|]. cbn in Hs. apply andb_prop in Hs as [Hf Hs].
  apply Forall_cons in Hu as [Hu Hus]. cbn [foldM_res]. apply raises_bind; [by apply prepare_file_raises|]. intros s' _. by apply IH.
Qed.
Lemma prepare_files_sizes files s out : foldM_res prepare_file s files = Ok out ->
  Forall (fun f => text_size (mf_content f) <= MAX_SOURCE_BYTES) files.
Proof.
  revert s. induction files as [|f files IH]; intros s; [constructor|]. cbn [foldM_res]. intros Hf.
  apply bind_Ok in Hf as (s1 & Hf & Hr). constructor; [|by eapply IH]. unfold prepare_file, check in Hf.
  apply bind_Ok in Hf as ([] & _ & Hf). apply bind_Ok in Hf as (raw & Hraw & Hf). apply bind_Ok in Hf as ([] & _ & Hf).
  apply bind_Ok in Hf as ([] & Hn%require_Ok%Z.leb_le & _). unfold encode_utf8 in Hraw.
  destruct (utf8_valid (list_of_string (mf_content f))) eqn:E; [|done]. cbn in Hraw. injection Hraw as <-.
  unfold count in Hn. rewrite length_list_of_string in Hn. exact Hn.
Qed.
Lemma lines_size_bound l x : x ∈ l -> text_size x <= lines_size l.
Proof.
  assert (forall s, 0 <= text_size s) as Ht by (intros s; unfold text_size; lia).
  assert (forall l, 0 <= lines_size l) as Hn.
  { clear -Ht. intros l. induction l as [|s l IH]; [done|]. change (lines_size (s :: l)) with (text_size s + 1 + lines_size l).
    specialize (Ht s). lia. }
  induction l as [|y l IH]; [by intros ?%elem_of_nil|]. change (lines_size (y :: l)) with (text_size y + 1 + lines_size l).
  specialize (Hn l). specialize (Ht y). intros [->|Hx%IH]%elem_of_cons; lia.
Qed.
Lemma fingerprint_total files : Forall (fun f => utf8 (mf_filename f) = true /\ utf8 (mf_content f) = true) files ->
  Forall (fun f => text_size (mf_filename f) < 2 ^ 64 /\ text_size (mf_content f) < 2 ^ 64) files -> is_Ok (metadata_fingerprint files) = true.
Proof.
  intros Hu Hs. unfold metadata_fingerprint, fingerprint_input. rewrite (proj2 (encode_files files (map file_pair files))) by done.
  cbn [mbind res_bind]. assert (is_Ok (mapM_res prefixed (sort_by pair_leb (map file_pair files))) = true) as Hp.
  { assert (Forall (fun p : string * string => text_size p.1 < 2 ^ 64 /\ text_size p.2 < 2 ^ 64) (sort_by pair_leb (map file_pair files))) as Hf.
    { rewrite sort_by_perm. by apply Forall_map. }
    induction Hf as [|p l [H1' H2'] _ IH]; [done|]. cbn [mapM_res]. unfold prefixed, length_prefix.
    rewrite (proj2 (Z.ltb_lt _ _) H1'), (proj2 (Z.ltb_lt _ _) H2'). cbn [mbind res_bind].
    destruct (mapM_res _ l); done. }
  by destruct (mapM_res prefixed _).
Qed.
Lemma is_line_utf8 s : is_line s -> utf8 s = true.
Proof. intros (k & -> & Hk & _). by apply utf8_concat. Qed.
Lemma prepare_collected r s : request_ok r -> collected r s -> raises is_source_limit (prepare_metadata_snapshot s).
Proof.
  intros (Hchain & Hpath & Hheight & Hid) [E1 E2 E3 E4 E5 Hst Hnow Hl Hf Hu Hq1 Hq2 Hq3 Hr Hs].
  pose proof (prepare_reported_json _ _ _ Hq1) as P1. pose proof (prepare_reported_json _ _ _ Hq2) as P2.
  pose proof (prepare_reported_json _ _ _ Hq3) as P3. pose proof Hl as [_ _ Hsafe _ Hlines Hsize].
  assert (validate_render (ms_qrender s) = Ok tt) as Vr by (destruct (String.eqb _ _); [by apply validate_render_ok|by rewrite Hr]).
  assert (validate_storage (ms_qstorage s) = Ok tt) as Vs by (destruct (String.eqb _ _); [by apply validate_storage_ok|by rewrite Hs]).
  unfold prepare_metadata_snapshot, check. rewrite E1, E2, E3, E4, E5, Hchain, Hpath, Hst, Hnow, Hid. rewrite bool_decide_eq_true_2 by done.
  unfold strict_int at 1. rewrite (proj2 (Z.leb_le _ _) Hheight), (validate_listing_ok s Hl Hf), Vr, Vs. cbn [andb require mbind res_bind].
  rewrite <-E2 in *. destruct (prepare_json_capability Qdoc _ _); [|done]. destruct (prepare_json_capability Qpkg_json _ _); [|done].
  destruct (prepare_json_capability Qfuncs _ _); [|done]. cbn [mbind res_bind].
  assert (String.eqb (cr_path_kind r) "package" && (negb (String.eqb (rc_status (ms_qrender s)) "not_applicable")
    || negb (String.eqb (sc_status (ms_qstorage s)) "not_applicable")) = false) as ->.
  { destruct (String.eqb_spec (cr_path_kind r) "package") as [E|]; [|done]. rewrite E3, E in *. cbn in Hr, Hs. by rewrite Hr, Hs. }
  cbn [negb require mbind res_bind]. apply raises_bind; [apply prepare_files_raises; [by rewrite Hf|done]|].
  intros [prepared total] Hp. apply prepare_files_sizes in Hp.
  assert (is_Ok (metadata_fingerprint (ms_files s)) = true) as Hfp; [|by destruct (metadata_fingerprint (ms_files s))].
  assert (Forall (fun n => utf8 n = true /\ text_size n < 2 ^ 64) (map mf_filename (ms_files s))) as Hnames.
  { rewrite Hf. apply Forall_forall. intros n Hn. split; [apply is_line_utf8; rewrite Forall_forall in Hlines; by apply Hlines|].
    apply lines_size_bound in Hn. unfold MAX_ABCI_RESPONSE_BYTES in Hsize. lia. }
  apply Forall_map in Hnames. apply fingerprint_total; apply Forall_forall; intros f Hin;
    rewrite Forall_forall in Hnames, Hu, Hp; specialize (Hnames f Hin) as [N1 N2]; specialize (Hu f Hin); specialize (Hp f Hin);
    split; [done|done|done|]. unfold MAX_SOURCE_BYTES in Hp. lia.
Qed.
End publishable.

Section publishable.
Context `{PyRuntime} `{JsonStack} {W : Type} `{MetadataClient W}.
(** Every snapshot the collector produces for a valid request is
    publishable: whatever the endpoint answered, preparing it succeeds or is
    refused for a limit on the sources themselves (a NUL, a file or a snapshot
    too large, too many lines or imports).  Its listing, statuses, payloads,
    render summary and balances are always accepted. *)
Theorem collected_publishable r w res w' s : request_ok r -> collect_path_metadata r w = (Ok res, w') -> pc_snapshot res = Some s ->
  raises is_source_limit (prepare_metadata_snapshot s).
Proof. intros Hr Hc Hs. apply (prepare_collected r); [done|]. by eapply collect_collected. Qed.
End publishable.

(** ** What a run does to the store *)
Section run.
Context `{PyRuntime} `{JsonStack} `{Server} `{Collation} {E : Type} `{RefreshEnvironment E}.
#[local] Abbreviation world := (RefreshWorld E).
#[local] Abbreviation query := (Query.query (W:=world)).

Definition same_store (w w' : world) : Prop := rw_store w' = rw_store w.
#[local] Instance same_store_po : PreOrder same_store.
Proof. split; [done|]. unfold same_store. intros w1 w2 w3. congruence. Qed.
Lemma keeps_outside {A} (op : E -> A * E) w : same_store w (outside op w).2.
Proof. unfold outside. by destruct (op (rw_env w)). Qed.
Lemma keeps_outside_query {A} (op : E -> res A * E) : keeps same_store (outside op).
Proof. intros w. apply keeps_outside. Qed.
Lemma keeps_client url path data h : keeps same_store (client_query url path data h).
Proof.
  intros w. unfold client_query. destruct (_ || _); [done|].
  pose proof (keeps_outside (re_abci url (abci_params path data (VInt h))) w). by destruct (outside _ w).
Qed.
Section client.
Variable url : string.
#[local] Existing Instance client_of.
Lemma keeps_now : keeps same_store (clock (H1:=client_of url)).
Proof. intros w. unfold clock. cbn. pose proof (keeps_outside re_now w). by destruct (outside re_now w). Qed.
Lemma keeps_capability {A} p d h (parser : string -> res A) failed : keeps same_store (capability (H1:=client_of url) p d h parser failed).
Proof. intros w. unfold capability. cbn. pose proof (keeps_client url p d h w). by destruct (client_query url p d h w). Qed.
Lemma keeps_required {A} p d h (parser : string -> res A) : keeps same_store (required (H1:=client_of url) p d h parser).
Proof. intros w. unfold required. cbn. pose proof (keeps_client url p d h w). by destruct (client_query url p d h w). Qed.
Lemma keeps_fetch_files path h names : keeps same_store (fetch_files (H1:=client_of url) path h names).
Proof.
  induction names as [|n names IH]; cbn [fetch_files]; [apply keeps_pure, _|].
  apply keeps_and_then; [apply _|apply keeps_required|]. intros [f|]; [|apply keeps_pure, _].
  apply keeps_and_then; [apply _|done|]. intros fs. apply keeps_pure, _.
Qed.
Lemma keeps_collect r : keeps same_store (collect_path_metadata (H1:=client_of url) r).
Proof.
  unfold collect_path_metadata. apply keeps_and_then; [apply _|apply keeps_required|]. intros [l|]; [|apply keeps_pure, _].
  apply keeps_and_then; [apply _|apply keeps_fetch_files|]. intros [fs|]; [|apply keeps_pure, _].
  do 3 (apply keeps_and_then; [apply _|apply keeps_capability|]; intros ?).
  apply keeps_and_then; [apply _|destruct (String.eqb _ _); [apply keeps_capability|apply keeps_pure, _]|]; intros ?.
  apply keeps_and_then; [apply _|destruct (String.eqb _ _); [apply keeps_capability|apply keeps_pure, _]|]; intros ?.
  apply keeps_and_then; [apply _|apply keeps_now|]. intros ?. apply keeps_pure, _.
Qed.
End client.
Lemma failover_outcome chain path kind h cs result w r w' : collect_with_failover chain path kind h cs result w = (r, w') ->
  same_store w w' /\
  forall res s, r = Ok (Some res) -> pc_snapshot res = Some s ->
    (exists res0, result = Some res0 /\ pc_snapshot res0 = Some s) \/ exists id, collected (Build_CollectionRequest chain path kind h id) s.
Proof.
  revert result w. induction cs as [|[c id] cs IH]; intros result w; cbn [collect_with_failover].
  - intros [= <- <-]. split; [done|]. intros res s [= ->] Hs. left. by exists res.
  - destruct (pr_client c) as [cl|]; [|by intros [= <- <-]].
    pose proof (keeps_collect (cl_url cl) (Build_CollectionRequest chain path kind h id) w) as Hk.
    destruct (collect_path_metadata _ w) as [[res0|e] w1] eqn:Ec; cbn [snd] in Hk; [|by intros [= <- <-]].
    destruct (pc_snapshot res0) as [s0|] eqn:Es.
    + intros [= <- <-]. split; [done|]. intros res s [= <-] Hs. right. exists id. by eapply collect_collected.
    + destruct (failover_code _).
      * intros [Hk' Hr]%IH. split; [by trans w1|]. intros res s E0 Hs. destruct (Hr res s E0 Hs) as [(res1 & [= <-] & Hs1)|Hid]; [congruence|by right].
      * intros [= <- <-]. split; [done|]. intros res s [= <-] Hs. congruence.
Qed.

(** *** Transactions *)
Lemma publication_outcome {A} (cursor : mstore -> res (A * mstore)) w r w' : transaction cursor w = (r, w') ->
  (rw_store w' = rw_store w /\ is_Ok r = false)
  \/ exists a, cursor (rw_store w) = Ok (a, rw_store w') /\ (r = Ok a \/ is_Ok r = false).
Proof.
  unfold transaction, and_then. pose proof (keeps_outside_query re_statement w) as Hs.
  destruct (outside re_statement w) as [[u|e] w1]; cbn [snd] in Hs; [|intros [= <- <-]; by left].
  destruct (cursor (rw_store w1)) as [[a d]|e] eqn:Ec; [|intros [= <- <-]; by left]. rewrite Hs in Ec.
  unfold outside. destruct (re_commit (rw_env w1)) as [[|x|x] e]; intros [= <- <-]; [|by left|]; right; exists a; split; auto.
Qed.
Variable chain : string.
Variable height : Z.
(** The stored row of a path is at the height of the run. *)
Definition published_at (d : mstore) (path : string) : Prop :=
  exists row, t_metadata d !! (chain, path) = Some row /\ mr_observed_height row = height.
Definition run_step (d d' : mstore) : Prop :=
  rtc store_step d d' /\ t_catalog d' = t_catalog d /\ forall path, published_at d path -> published_at d' path.
#[local] Instance run_step_po : PreOrder run_step.
Proof.
  split; [done|]. intros d1 d2 d3 (S1 & C1 & P1) (S2 & C2 & P2). split_and!; [by trans d2|congruence|auto].
Qed.
Lemma same_run_step (w w' : world) : same_store w w' -> run_step (rw_store w) (rw_store w').
Proof. intros ->. done. Qed.

Lemma publish_run_step s w r w' : ms_chain_id s = chain -> ms_observed_height s = height -> publish s w = (r, w') ->
  run_step (rw_store w) (rw_store w') /\ (is_Ok r = true -> published_at (rw_store w') (ms_path s)).
Proof.
  intros Hc Hh Hp. apply publication_outcome in Hp as [[E' Hr]|(p & Hp & Hr)]; [by rewrite E', Hr|].
  destruct (publish_inv s _ p _ Hp) as (_ & _ & _ & row & Hrow & Hd').
  assert (t_metadata (rw_store w') = <[(ms_chain_id s, ms_path s) := row]> (t_metadata (rw_store w)) /\ t_catalog (rw_store w') = t_catalog (rw_store w)) as [Em Ecat].
  { by destruct Hd' as [(? & _ & _ & ->)|[_ ->]]. }
  assert (published_at (rw_store w') (ms_path s)) as Hnew.
  { exists row. rewrite Em, <-Hc. rewrite lookup_insert_eq. split; [done|]. by rewrite (rw_height _ _ _ _ _ Hrow). }
  split; [|done]. split_and!; [|done|].
  - eapply rtc_l; [apply (step_publish s)|]. unfold publish_metadata_snapshot. by rewrite Hp.
  - intros path (row0 & E0 & H0'). destruct (decide (path = ms_path s)) as [->|Hne]; [done|].
    exists row0. rewrite Em, lookup_insert_ne by congruence. done.
Qed.
Lemma persist_run_step s w r w' : persist_state s w = (r, w') -> run_step (rw_store w) (rw_store w') /\
  (is_Ok r = true -> persist_metadata_refresh_state_cursor s (rw_store w) = Ok (rw_store w')).
Proof.
  intros Hp. apply publication_outcome in Hp as [[E' Hr]|(a & Hp & Hr)]; [by rewrite E', Hr|].
  apply bind_Ok in Hp as (d' & Hp & [= <- ->]). split; [|done]. split_and!.
  - eapply rtc_l; [by eapply step_refresh|done].
  - apply persist_inv in Hp as (row & -> & _). done.
  - intros path Hrow. apply persist_inv in Hp as (row & -> & _). done.
Qed.

Lemma refresh_path_outcome cs item w r w' : refresh_path chain height cs item w = (r, w') ->
  run_step (rw_store w) (rw_store w') /\ (r = Ok true -> published_at (rw_store w') item.1).
Proof.
  unfold refresh_path. destruct (collect_with_failover chain item.1 item.2 height cs None w) as [[[res|]|e] w1] eqn:Ec;
    pose proof (failover_outcome _ _ _ _ _ _ _ _ _ Ec) as [Hs Hres]; try (intros [= <- <-]; split; [by apply same_run_step|done]).
  destruct (pc_snapshot res) as [s|] eqn:Es; [|intros [= <- <-]; split; [by apply same_run_step|done]].
  destruct (Hres res s eq_refl Es) as [(? & ? & _)|(id & Hcol)]; [done|].
  destruct (publish s w1) as [[p|e] w2] eqn:Ep;
    destruct (publish_run_step s w1 _ _ (cl_chain _ _ Hcol) (cl_height _ _ Hcol) Ep) as [Hstep Hpub];
    rewrite Hs in Hstep; pose proof (cl_path _ _ Hcol) as Epath; cbn in Epath.
  - intros [= <- <-]. split; [done|]. intros _. rewrite <-Epath. by apply Hpub.
  - destruct (isinstance_MetadataPersistenceError e); intros [= <- <-]; done.
Qed.
Lemma refresh_paths_outcome cs paths published failed w p f stop w' :
  refresh_paths chain height cs paths published failed w = (p, f, stop, w') ->
  run_step (rw_store w) (rw_store w') /\ published <= p /\ failed <= f
  /\ (stop = None -> p + f = published + failed + count paths
      /\ (f = failed -> Forall (fun item => published_at (rw_store w') item.1) paths)).
Proof.
  revert published failed w. induction paths as [|item paths IH]; intros published failed w; cbn [refresh_paths].
  - intros [= <- <- <- <-]. split_and!; [done|lia|lia|]. intros _. split; [unfold count; simpl; lia|constructor].
  - destruct (refresh_path chain height cs item w) as [[[|]|e] w1] eqn:Ei; apply refresh_path_outcome in Ei as [Hs Hp].
    + intros (Hr & H1' & H2' & H3')%IH. split_and!; [by trans (rw_store w1)|lia|lia|]. intros [Hc Hf]%H3'.
      split; [unfold count in *; simpl; lia|]. intros ->. constructor; [|by apply Hf]. by apply Hr, Hp.
    + intros (Hr & H1' & H2' & H3')%IH. split_and!; [by trans (rw_store w1)|lia|lia|]. intros [Hc Hf]%H3'.
      split; [unfold count in *; simpl; lia|lia].
    + intros [= <- <- <- <-]. split_and!; [done|lia|lia|done].
Qed.
Lemma candidates_step config h w r w' : find_candidates config h w = (r, w') -> run_step (rw_store w) (rw_store w').
Proof.
  intros Hf. apply same_run_step. change w' with ((r, w').2). rewrite <-Hf. revert w Hf. enough (keeps same_store (find_candidates config h)) as Hk by (intros w _; apply Hk).
  unfold find_candidates, read. repeat first [apply keeps_pure, _|apply keeps_and_then; [exact _| |intros]|apply keeps_outside_query].
  - done.
  - intros w. by destruct (re_statuses (rw_env w)) as [[get elapsed] e].
  - done.
Qed.
End run.

Section main.
Context `{PyRuntime} `{JsonStack} `{Server} `{Collation} {E : Type} `{RefreshEnvironment E}.
#[local] Abbreviation world := (RefreshWorld E).
#[local] Existing Instances run_step_po same_store_po.

Lemma persist_written s d d' : persist_metadata_refresh_state_cursor s d = Ok d' ->
  exists r, t_refresh d' !! rs_chain_id s = Some r /\ rr_observed_height r = rs_observed_height s /\ rr_run_status r = rs_run_status s
    /\ rr_selected_path_count r = rs_selected_path_count s /\ rr_published_path_count r = rs_published_path_count s
    /\ rr_failed_path_count r = rs_failed_path_count s
    /\ (forall h, rs_last_successful_height s = Some h -> rr_last_successful_height r = Some h).
Proof.
  unfold persist_metadata_refresh_state_cursor. intros Hp. apply bind_Ok in Hp as ([] & _ & Hp).
  apply bind_Ok in Hp as (success & Hs & Hp). unfold upsert_refresh in Hp.
  do 2 (apply bind_Ok in Hp as ([] & _ & Hp)). injection Hp as <-. eexists. split; [apply lookup_insert_eq|].
  split_and!; try done. intros h Eh. cbn. rewrite Eh in Hs. destruct (t_refresh d !! rs_chain_id s) as [r0|]; [|by injection Hs as <-].
  do 2 (apply bind_Ok in Hs as ([] & _ & Hs)). destruct (rr_last_successful_height r0); [apply bind_Ok in Hs as ([] & _ & Hs)|]; by injection Hs as <-.
Qed.
(** The final state of a run of [s] with these counts. *)
Definition finished (d : mstore) (chain : string) (s : CatalogSelection) (status : string) (published failed : Z) : Prop :=
  exists r, t_refresh d !! chain = Some r /\ rr_observed_height r = cs_observed_height s /\ rr_run_status r = status
    /\ rr_selected_path_count r = count (cs_paths s) /\ rr_published_path_count r = published /\ rr_failed_path_count r = failed
    /\ (status = "complete" -> rr_last_successful_height r = Some (cs_observed_height s)).
(** What an exit code promises about the store. *)
Definition run_outcome (chain : string) (s : CatalogSelection) (code : Z) (d : mstore) : Prop :=
  (code = 0 /\ finished d chain s "complete" (count (cs_paths s)) 0
   /\ Forall (fun item => published_at chain (cs_observed_height s) d item.1) (cs_paths s))
  \/ (code = 2 /\ exists published failed, 0 < failed /\ published + failed = count (cs_paths s)
      /\ finished d chain s (if published =? 0 then "failed" else "partial") published failed)
  \/ code = 1.
Lemma abandon_step config s started p f (w : world) code w' : abandon config s started p f w = (code, w') ->
  run_step (ic_chain_id config) (cs_observed_height s) (rw_store w) (rw_store w') /\ code = 1.
Proof.
  unfold abandon. pose proof (keeps_outside re_now w) as Hs. destruct (outside re_now w) as [t w1]. intros [= <- <-]. split; [|done].
  destruct (persist_state _ w1) as [r w2] eqn:Ep. apply (persist_run_step (ic_chain_id config) (cs_observed_height s)) in Ep as [Hst _].
  cbn [snd] in *. by rewrite <-Hs.
Qed.
Lemma finished_persist config s status p f started completed success (w w' : world) u :
  status = "complete" <-> success = true -> persist_state (run_state config s status p f started completed success) w = (Ok u, w') ->
  finished (rw_store w') (ic_chain_id config) s status p f.
Proof.
  intros Hs Hp. apply (persist_run_step (ic_chain_id config) (cs_observed_height s)) in Hp as [_ Hp]. specialize (Hp eq_refl).
  apply persist_written in Hp as (r & E1 & E2 & E3 & E4 & E5 & E6 & E7). exists r. split_and!; try done.
  intros ->. apply E7. cbn. by rewrite (proj1 Hs eq_refl).
Qed.
Lemma refresh_selected_outcome config s (w : world) code w' : refresh_selected config s w = (code, w') ->
  run_step (ic_chain_id config) (cs_observed_height s) (rw_store w) (rw_store w') /\ run_outcome (ic_chain_id config) s code (rw_store w').
Proof.
  unfold refresh_selected. pose proof (keeps_outside re_now w) as Hs0. destruct (outside re_now w) as [started w0].
  cbn [snd] in Hs0. unfold same_store in Hs0. rewrite <-Hs0. clear w Hs0.
  set (chain := ic_chain_id config). set (height := cs_observed_height s).
  destruct (and_then _ _ w0) as [r w1] eqn:Estart.
  assert (run_step chain height (rw_store w0) (rw_store w1)) as Hs1.
  { unfold and_then in Estart. destruct (persist_state _ w0) as [[u|e] w2] eqn:Ep;
      destruct (persist_run_step chain height _ _ _ _ Ep) as [Hp _].
    - apply (candidates_step chain height) in Estart. by trans (rw_store w2).
    - by injection Estart as _ <-. }
  destruct r as [cs|e].
  2: { intros [Ha ->]%abandon_step. split; [by trans (rw_store w1)|by right; right]. }
  destruct (refresh_paths chain height cs (cs_paths s) 0 0 w1) as [[[p f] stop] w2] eqn:Er.
  apply refresh_paths_outcome in Er as (Hs2 & Hp & Hf & Hdone). destruct stop as [e|].
  { intros [Ha ->]%abandon_step. split; [etrans; [exact Hs1|etrans; [exact Hs2|exact Ha]]|by right; right]. }
  destruct (Hdone eq_refl) as [Hcount Hpub]. pose proof (keeps_outside re_now w2) as Hs3.
  destruct (outside re_now w2) as [completed w3]. cbn [snd] in Hs3. unfold same_store in Hs3.
  assert (run_step chain height (rw_store w0) (rw_store w3)) as Hs03 by (rewrite Hs3; by trans (rw_store w1)).
  destruct (persist_state _ w3) as [[u|e] w4] eqn:Ep.
  2: { intros [Ha ->]%abandon_step. apply (persist_run_step chain height) in Ep as [Hp4 _].
       split; [etrans; [exact Hs03|etrans; [exact Hp4|exact Ha]]|by right; right]. }
  pose proof (persist_run_step chain height _ _ _ _ Ep) as [Hp4 _]. intros [= <- <-]. split; [by trans (rw_store w3)|].
  apply finished_persist in Ep; [|unfold terminal_status; destruct (f =? 0), (p =? 0); split; intros Eq; by try done].
  unfold terminal_status in *. destruct (Z.eqb_spec f 0) as [->|Hne]; cbn [String.eqb] in *.
  - left. split; [done|]. assert (p = count (cs_paths s)) as -> by lia. split; [exact Ep|].
    specialize (Hpub eq_refl). rewrite <-Hs3 in Hpub. eapply Forall_impl; [exact Hpub|]. intros item Hi. by apply Hp4.
  - right. left. assert (String.eqb (if negb (p =? 0) then "partial" else "failed") "complete" = false) as -> by (by destruct (p =? 0)).
    split; [done|]. exists p, f. split_and!; [lia|lia|]. by destruct (p =? 0).
Qed.
(** C40. A refresh run leaves the store in a state reached by publications and
    run states only (so every guarantee on histories holds), whatever fails.
    Exit code 0 is returned only when every selected path has been published
    at the catalog height and the recorded run is complete, with that height
    as its last success; code 2 only when some paths failed, with the counts
    recorded; any other outcome is code 1. *)
Theorem refresh_main_outcome config requested limit (w : world) code w' : main (Ok config) requested limit w = (code, w') ->
  rtc store_step (rw_store w) (rw_store w') /\
  (code = 1 \/ exists s, select_catalog_paths (ic_chain_id config) requested limit (t_catalog (rw_store w)) = Ok s
                         /\ run_outcome (ic_chain_id config) s code (rw_store w')).
Proof.
  unfold main. set (m := and_then (outside re_connect) _). intros Hm.
  assert (forall r w1, m w = (r, w1) -> same_store w w1 /\
    forall s, r = Ok (Some s) -> select_catalog_paths (ic_chain_id config) requested limit (t_catalog (rw_store w)) = Ok s) as Hsel.
  { clear Hm. subst m. unfold and_then, read, and_then. intros r w1 Hm.
    pose proof (keeps_outside re_connect w) as K1. destruct (outside re_connect w) as [[u1|e] x1]; [|by injection Hm as <- <-].
    pose proof (keeps_outside re_lock x1) as K2. destruct (outside re_lock x1) as [[u2|e] x2]; [|injection Hm as <- <-; split; [by trans x1|done]].
    pose proof (keeps_outside re_statement x2) as K3. destruct (outside re_statement x2) as [[u3|e] x3];
      [|injection Hm as <- <-; split; [etrans; [exact K1|etrans; [exact K2|exact K3]]|done]].
    assert (same_store w x3) as K by (etrans; [exact K1|etrans; [exact K2|exact K3]]). clear K1 K2 K3. destruct u2; [|by injection Hm as <- <-].
    pose proof (keeps_outside re_statement x3) as K1. destruct (outside re_statement x3) as [[u4|e] x4];
      [|injection Hm as <- <-; split; [by trans x3|done]].
    assert (same_store w x4) as K' by (by trans x3). cbn in Hm. unfold same_store in K'. rewrite K' in Hm.
    destruct (select_catalog_paths _ _ _ _) as [s|e]; [|by injection Hm as <- <-].
    pose proof (keeps_outside re_statement x4) as K2. destruct (outside re_statement x4) as [[u5|e] x5].
    - injection Hm as <- <-. split; [by trans x4|]. by intros s' [= ->].
    - injection Hm as <- <-. split; [by trans x4|done]. }
  destruct (m w) as [r w1] eqn:Em. destruct (Hsel r w1 eq_refl) as [Hs Hsel']. unfold same_store in Hs. rewrite <-Hs.
  destruct r as [[s|]|e]; [|injection Hm as <- <-; split; [done|by left]..].
  apply refresh_selected_outcome in Hm as [(Hr & _) Ho]. split; [done|]. right. exists s. rewrite Hs. split; [by apply Hsel'|done].
Qed.
End main.

(** ** A run over one package *)
Definition demo_answers : list (string * string * string) :=
  [("vm/qfile", "gno.land/p/demo/avl", "avl.gno"); ("vm/qfile", "gno.land/p/demo/avl/avl.gno", demo_source "one");
   ("vm/qdoc", "gno.land/p/demo/avl", "{}"); ("vm/qpkg_json", "gno.land/p/demo/avl", "[1]"); ("vm/qfuncs", "gno.land/p/demo/avl", "[]")].
Definition demo_abci (params : list (string * val)) : res val :=
  let is_param key text := match dict_get key params with Some (VStr s) => String.eqb s text | _ => false end in
  match List.find (fun a => is_param "path" (json_string true a.1.1) && is_param "data" (json_string true (b64encode (list_of_string a.1.2)))) demo_answers with
  | Some a => Ok (abci_response VNone (VStr (b64encode (list_of_string a.2))))
  | None => Raise (RpcError "unknown query")
  end.
#[local] Existing Instances demo_stack demo_server ascii_runtime.
#[local] Instance demo_collation : Collation := {| collate := str_leb |}.
#[local] Instance demo_environment : RefreshEnvironment unit := {|
  re_now e := (100, e);
  re_connect e := (Ok tt, e);
  re_lock e := (Ok true, e);
  re_statement e := (Ok tt, e);
  re_commit e := (Committed, e);
  re_statuses e := ((fun u => if String.eqb u "http://a" then Raise (RpcError "down") else Ok (demo_status "dev" 40)), (fun _ => f_zero), e);
  re_abci url params e := (demo_abci params, e)
|}.
Definition demo_config : IndexerConfig := Build_IndexerConfig "postgres://db" ["http://a"; "http://b"] "dev" 10 100.
Definition demo_run : Z * RefreshWorld unit := Eval vm_compute in main (Ok demo_config) [] None (RWorld demo_empty tt).
Lemma demo_run_runs : main (Ok demo_config) [] None (RWorld demo_empty tt) = demo_run.
Proof. vm_compute. reflexivity. Qed.
Lemma refresh_main_outcome_witness : demo_run.1 = 0 /\ published_at "dev" 5 (rw_store demo_run.2) "gno.land/p/demo/avl".
Proof.
  split; [reflexivity|].
  destruct (refresh_main_outcome demo_config [] None (RWorld demo_empty tt) demo_run.1 demo_run.2 demo_run_runs) as [_ [Hc|(s & Hs & Ho)]];
    [discriminate Hc|].
  assert (s = Build_CatalogSelection 5 [("gno.land/p/demo/avl", "package")]) as -> by (vm_compute in Hs; by injection Hs).
  destruct Ho as [(_ & _ & Hf)|[[Hc _]|Hc]]; [|discriminate Hc..]. by apply Forall_cons in Hf as [Hf _].
Defined.
Definition demo_request : CollectionRequest := Build_CollectionRequest "dev" "gno.land/p/demo/avl" "package" 5 None.
Definition demo_collected : res PathCollectionResult * RefreshWorld unit := Eval vm_compute in
  collect_path_metadata (H1:=client_of "http://b") demo_request (RWorld demo_empty tt).
Lemma collected_publishable_witness : exists r s, demo_collected.1 = Ok r /\ pc_snapshot r = Some s /\ pc_status r = "complete"
  /\ raises is_source_limit (prepare_metadata_snapshot s).
Proof.
  eexists. eexists. split; [reflexivity|]. split; [reflexivity|]. split; [reflexivity|].
  eapply (collected_publishable (H1:=client_of "http://b") demo_request (RWorld demo_empty tt) _ demo_collected.2);
    [by split_and!|vm_compute; reflexivity|reflexivity].
Defined.

(** An import path the preparation accepts but the table does not: the
    exception is not one the run counts as a failed path. *)
Definition long_import : string := "gno.land/p/" +:+ string_of_list (replicate 250 "a"%char).
Definition long_snapshot : MetadataSnapshot :=
  demo_snapshot 5 (newline +:+ "import " +:+ String quote (long_import +:+ String quote "")) (Build_JsonCapability "not_applicable" None).
Lemma long_import_stops_run : is_Ok (prepare_metadata_snapshot long_snapshot) = true /\
  (publish_metadata_snapshot long_snapshot demo_empty).1 = Raise IntegrityError /\ isinstance_MetadataPersistenceError IntegrityError = false.
Proof. vm_compute. done. Qed.
