(* ===== verification/RequestCache.v ===== *)
(** * api/cosmos/cache.py: the bounded TTL cache with single-flight loading

    [RequestCache.get_or_load] is a coroutine that many requests run at the
    same time.  Its two sections under [self._lock] contain no [await], so
    each is one atomic step; between them the loader runs and other requests
    take their steps.  A future is named by its number of creation.  Because
    every value that enters or leaves the cache is a deep copy, values are
    modelled as values.  Clock readings and lifetimes are exact numbers. *)
From Stdlib Require Import ZArith Lia Ascii String.
From stdpp Require Import base gmap list strings.
From S2P Require Import Prelude.
Open Scope Z_scope.

(** ** collections.OrderedDict as the list of its items, oldest first *)
Section ordered_dict.
Context {K V : Type} `{EqDecision K}.

Fixpoint od_get (k : K) (d : list (K * V)) : option V :=
  match d with
  | [] => None
  | (j, v) :: rest => if decide (j = k) then Some v else od_get k rest
  end.
(** [d[k] = v] keeps the place of an existing key. *)
Fixpoint od_set (k : K) (v : V) (d : list (K * V)) : list (K * V) :=
  match d with
  | [] => [(k, v)]
  | (j, w) :: rest => if decide (j = k) then (k, v) :: rest else (j, w) :: od_set k v rest
  end.
Definition od_pop (k : K) (d : list (K * V)) : list (K * V) := filter (fun i => i.1 <> k) d.
Definition od_move_to_end (k : K) (d : list (K * V)) : list (K * V) :=
  match od_get k d with Some v => od_pop k d ++ [(k, v)] | None => d end.
(** [while len(d) > n: d.popitem(last=False)] *)
Fixpoint od_popitem_while (n : nat) (d : list (K * V)) : list (K * V) :=
  match d with
  | [] => []
  | _ :: rest => if decide (n < length d)%nat then od_popitem_while n rest else d
  end.

Lemma od_get_Some k v d : od_get k d = Some v -> (k, v) ∈ d.
Proof.
  induction d as [|[j w] d IH]; [done|]. simpl. case_decide as E; [|by right; apply IH].
  intros [= ->]. subst. by left.
Qed.
Lemma od_get_None k d : od_get k d = None <-> k ∉ d.*1.
Proof.
  induction d as [|[j w] d IH]; [split; [intros _; apply not_elem_of_nil|done]|].
  simpl. rewrite not_elem_of_cons. case_decide as E; subst; [naive_solver|].
  rewrite IH. naive_solver.
Qed.
Lemma elem_of_od_set k v d i : i ∈ od_set k v d -> i = (k, v) \/ (i ∈ d /\ i.1 <> k) \/ i ∈ d.
Proof.
  induction d as [|[j w] d IH]; simpl; [rewrite list_elem_of_singleton; auto|].
  case_decide as E; rewrite !elem_of_cons; naive_solver.
Qed.
Lemma od_set_keys k v d : k ∈ d.*1 -> (od_set k v d).*1 = d.*1.
Proof.
  induction d as [|[j w] d IH]; simpl; [by intros ?%elem_of_nil|].
  rewrite elem_of_cons. case_decide as E; subst; [done|]. intros [->|Hk]; [done|]. cbn. f_equal. by apply IH.
Qed.
Lemma od_set_fresh k v d : k ∉ d.*1 -> od_set k v d = d ++ [(k, v)].
Proof.
  induction d as [|[j w] d IH]; [done|]. simpl. rewrite not_elem_of_cons. intros [Hj Hk].
  rewrite decide_False by done. by rewrite IH.
Qed.
Lemma NoDup_od_set k v d : NoDup d.*1 -> NoDup (od_set k v d).*1.
Proof.
  intros Hd. destruct (decide (k ∈ d.*1)) as [Hk|Hk]; [by rewrite od_set_keys|].
  rewrite od_set_fresh, fmap_app by done. apply NoDup_app. split; [done|]. split; [|apply NoDup_singleton].
  intros x Hx ->%list_elem_of_singleton. done.
Qed.
Lemma od_pop_keys k d : k ∉ (od_pop k d).*1.
Proof. rewrite list_elem_of_fmap. intros ([j v] & -> & [Hj _]%list_elem_of_filter). done. Qed.
Lemma od_filter_NoDup (P : K * V -> Prop) `{!forall x, Decision (P x)} d : NoDup d.*1 -> NoDup (filter P d).*1.
Proof. intros Hd. eapply sublist_NoDup; [exact Hd|]. apply fmap_sublist, filter_sublist. Qed.
Lemma NoDup_od_move_to_end k d : NoDup d.*1 -> NoDup (od_move_to_end k d).*1.
Proof.
  intros Hd. unfold od_move_to_end. destruct (od_get k d) as [v|]; [|done].
  rewrite fmap_app. apply NoDup_app. split; [by apply od_filter_NoDup|]. split; [|apply NoDup_singleton].
  intros x Hx ->%list_elem_of_singleton. by apply (od_pop_keys k d).
Qed.
Lemma elem_of_od_move_to_end k d i : i ∈ od_move_to_end k d -> i ∈ d.
Proof.
  unfold od_move_to_end. destruct (od_get k d) as [v|] eqn:E; [|done].
  rewrite elem_of_app, list_elem_of_singleton. intros [[_ Hi]%list_elem_of_filter| ->]; [done|by apply od_get_Some].
Qed.
Lemma od_popitem_suffix n d : exists pre, d = pre ++ od_popitem_while n d.
Proof.
  induction d as [|i d [pre IH]]; [by exists []|]. cbn [od_popitem_while].
  case_decide; [exists (i :: pre); by rewrite <-app_comm_cons, <-IH|by exists []].
Qed.
Lemma length_od_popitem n d : (length (od_popitem_while n d) <= n)%nat.
Proof.
  induction d as [|i d IH]; [simpl; lia|]. cbn [od_popitem_while]. case_decide; [done|lia].
Qed.
(** Only what exceeds the bound is evicted, the oldest first. *)
Lemma od_popitem_drop n d : od_popitem_while n d = drop (length d - n) d.
Proof.
  induction d as [|i d IH]; [done|]. cbn [od_popitem_while length]. case_decide as E.
  - rewrite IH. replace (S (length d) - n)%nat with (S (length d - n)) by (simpl in E; lia). done.
  - by replace (S (length d) - n)%nat with 0%nat by (simpl in E; lia).
Qed.
End ordered_dict.

(** ** The cache *)
Section request_cache.
Context {K V : Type} `{EqDecision K}.

(** An asyncio future that is never cancelled (followers only wait on a shield of it). *)
Inductive future : Type :=
| Pending
| Resolved (v : V)
| Failed (e : exc).

Record cache := Cache {
  c_entries : list (K * (Z * V));   (* _entries: expiry and value *)
  c_inflight : list (K * nat);      (* _inflight *)
  c_futures : list future           (* every future created so far *)
}.

(** [RequestCache(max_entries)] *)
Definition request_cache_init (max_entries : Z) : res (nat * cache) :=
  _ ← require ((1 <=? max_entries) && (max_entries <=? 10000)) (ValueError "max_entries is out of bounds");
  Ok (Z.to_nat max_entries, Cache [] [] []).

Definition unexpired (now : Z) (entries : list (K * (Z * V))) : list (K * (Z * V)) :=
  filter (fun i => now < i.2.1) entries.

(** What the first section decides. *)
Inductive entered : Type :=
| Hit (v : V)
| Lead (f : nat)
| Follow (f : nat).

(** The first section: purge, look up, or join or start a load. *)
Definition enter (key : K) (now : Z) (c : cache) : entered * cache :=
  let entries := unexpired now (c_entries c) in
  match od_get key entries with
  | Some cached => (Hit cached.2, Cache (od_move_to_end key entries) (c_inflight c) (c_futures c))
  | None =>
      match od_get key (c_inflight c) with
      | Some f => (Follow f, Cache entries (c_inflight c) (c_futures c))
      | None =>
          let f := length (c_futures c) in
          (Lead f, Cache entries (od_set key f (c_inflight c)) (c_futures c ++ [Pending]))
      end
  end.

(** The section after [await loader()] returned [v]. *)
Definition load_done (max_entries : nat) (key : K) (ttl : Z) (f : nat) (v : V) (now : Z) (c : cache) : cache :=
  let entries :=
    if 0 <? ttl then od_popitem_while max_entries (od_move_to_end key (od_set key (now + ttl, v) (c_entries c)))
    else c_entries c in
  Cache entries (od_pop key (c_inflight c)) (<[f := Resolved v]> (c_futures c)).

(** The [except BaseException] section: the loader raised, or was cancelled. *)
Definition load_failed (key : K) (f : nat) (e : exc) (c : cache) : cache :=
  let futures := match c_futures c !! f with Some Pending => <[f := Failed e]> (c_futures c) | _ => c_futures c end in
  Cache (c_entries c) (od_pop key (c_inflight c)) futures.

(** ** Interleavings of the requests that share a cache *)

(** Where one call of [get_or_load] stands. *)
Inductive call : Type :=
| Loading (key : K) (ttl : Z) (f : nat)
| Waiting (key : K) (f : nat)
| Returned (key : K) (v : V)
| Raised (key : K) (e : exc).

(** [loads] records the outcome of every finished loader. *)
Record shared := Shared {
  sh_cache : cache;
  sh_calls : list call;
  sh_now : Z;
  sh_loads : list (K * (Z * (Z * V)))   (* key, time, lifetime, value *)
}.

Definition start_call (key : K) (ttl : Z) (o : entered) : call :=
  match o with Hit v => Returned key v | Lead f => Loading key ttl f | Follow f => Waiting key f end.

Inductive step (max_entries : nat) : shared -> shared -> Prop :=
| step_enter c calls now now' loads key ttl o c' :
    now <= now' ->
    enter key now' c = (o, c') ->
    step max_entries (Shared c calls now loads) (Shared c' (calls ++ [start_call key ttl o]) now' loads)
| step_done c calls now now' loads i key ttl f v :
    now <= now' ->
    calls !! i = Some (Loading key ttl f) ->
    step max_entries (Shared c calls now loads)
      (Shared (load_done max_entries key ttl f v now' c) (<[i := Returned key v]> calls) now' ((key, (now', (ttl, v))) :: loads))
| step_failed c calls now now' loads i key ttl f e :
    now <= now' ->
    calls !! i = Some (Loading key ttl f) ->
    step max_entries (Shared c calls now loads)
      (Shared (load_failed key f e c) (<[i := Raised key e]> calls) now' loads)
| step_wake c calls now loads i key f fut :
    calls !! i = Some (Waiting key f) ->
    c_futures c !! f = Some fut ->
    fut <> Pending ->
    step max_entries (Shared c calls now loads)
      (Shared c (<[i := match fut with Resolved v => Returned key v | Failed e => Raised key e | Pending => Waiting key f end]> calls) now loads)
| step_cancel c calls now loads i key f :
    calls !! i = Some (Waiting key f) ->
    step max_entries (Shared c calls now loads) (Shared c (<[i := Raised key CancelledError]> calls) now loads).

Definition cache_reachable (max_entries : nat) (s : shared) : Prop :=
  exists t0, rtc (step max_entries) (Shared (Cache [] [] []) [] t0 []) s.

(** ** What every reachable state satisfies *)
Definition loaded (loads : list (K * (Z * (Z * V)))) (key : K) (v : V) : Prop :=
  exists t ttl, (key, (t, (ttl, v))) ∈ loads.

(** What a future that a call for [key] waits on may hold. *)
Definition future_ok (s : shared) (key : K) (f : nat) : Prop :=
  match c_futures (sh_cache s) !! f with
  | Some Pending => (key, f) ∈ c_inflight (sh_cache s)
  | Some (Resolved v) => loaded (sh_loads s) key v
  | Some (Failed _) => True
  | None => False
  end.

Record cache_inv (max_entries : nat) (s : shared) : Prop := {
  ci_keys : NoDup (c_entries (sh_cache s)).*1;
  ci_bound : (length (c_entries (sh_cache s)) <= max_entries)%nat;
  ci_entry : forall key expires v, (key, (expires, v)) ∈ c_entries (sh_cache s) ->
    exists t ttl, (key, (t, (ttl, v))) ∈ sh_loads s /\ 0 < ttl /\ expires = t + ttl;
  ci_inflight : NoDup (c_inflight (sh_cache s)).*1;
  ci_pending : forall key f, (key, f) ∈ c_inflight (sh_cache s) ->
    c_futures (sh_cache s) !! f = Some Pending /\ exists i ttl, sh_calls s !! i = Some (Loading key ttl f);
  ci_loading : forall i key ttl f, sh_calls s !! i = Some (Loading key ttl f) -> (key, f) ∈ c_inflight (sh_cache s);
  ci_single : forall i j k1 k2 t1 t2 f, sh_calls s !! i = Some (Loading k1 t1 f) ->
    sh_calls s !! j = Some (Loading k2 t2 f) -> i = j;
  ci_waiting : forall i key f, sh_calls s !! i = Some (Waiting key f) -> future_ok s key f;
  ci_returned : forall i key v, sh_calls s !! i = Some (Returned key v) -> loaded (sh_loads s) key v;
  ci_past : forall key t ttl v, (key, (t, (ttl, v))) ∈ sh_loads s -> t <= sh_now s
}.

Lemma inflight_unique (l : list (K * nat)) key f g : NoDup l.*1 -> (key, f) ∈ l -> (key, g) ∈ l -> f = g.
Proof.
  induction l as [|[k h] l IH]; [by intros _ ?%elem_of_nil|]. intros [Hk Hl]%NoDup_cons.
  rewrite !elem_of_cons. intros [?|Hf] [?|Hg]; simplify_eq; [done| | |by apply IH]; exfalso; apply Hk.
  - by apply (list_elem_of_fmap_2 fst) in Hg.
  - by apply (list_elem_of_fmap_2 fst) in Hf.
Qed.

Lemma loaded_cons loads x key v : loaded loads key v -> loaded (x :: loads) key v.
Proof. intros (t & ttl & Hl). exists t, ttl. by right. Qed.
Lemma unexpired_in now l i : i ∈ unexpired now l <-> now < i.2.1 /\ i ∈ l.
Proof. unfold unexpired. by rewrite list_elem_of_filter. Qed.
Lemma unexpired_length now l : (length (unexpired now l) <= length l)%nat.
Proof. apply sublist_length, filter_sublist. Qed.

(** A hit was stored by a load of the same key and has not expired. *)
Lemma enter_hit key now c v c' : enter key now c = (Hit v, c') ->
  exists expires, (key, (expires, v)) ∈ c_entries c /\ now < expires.
Proof.
  unfold enter. destruct (od_get key _) as [[x w]|] eqn:E; [|repeat case_match; intros [= ? ?]; done].
  intros [= <- _]. apply od_get_Some, unexpired_in in E as [Hx He]. by exists x.
Qed.

Lemma enter_subset key now c i : i ∈ c_entries (enter key now c).2 -> i ∈ c_entries c.
Proof.
  assert (forall j, j ∈ unexpired now (c_entries c) -> j ∈ c_entries c) as Hi by (intros j; rewrite unexpired_in; tauto).
  unfold enter. repeat case_match; cbn; auto. intros Hm. by apply Hi, (elem_of_od_move_to_end key).
Qed.
Lemma load_done_entry max_entries key ttl f v now c i :
  i ∈ c_entries (load_done max_entries key ttl f v now c) -> i = (key, (now + ttl, v)) \/ i ∈ c_entries c.
Proof.
  unfold load_done. cbn. case_match; [|by right]. set (l := od_move_to_end _ _). intros Hi.
  assert (i ∈ od_set key (now + ttl, v) (c_entries c)) as Hs.
  { apply (elem_of_od_move_to_end key). destruct (od_popitem_suffix max_entries l) as [pre Hpre]. fold l. rewrite Hpre. apply elem_of_app. by right. }
  apply elem_of_od_set in Hs as [->|[[? _]|?]]; auto.
Qed.

Lemma cache_inv_init max_entries t0 : cache_inv max_entries (Shared (Cache [] [] []) [] t0 []).
Proof. split; cbn; try done; try (by constructor); try lia; try (by intros * ?%elem_of_nil). Qed.

(** The entries keep their invariant in the first section. *)
Lemma enter_entries max_entries key now c o c' :
  enter key now c = (o, c') -> NoDup (c_entries c).*1 -> (length (c_entries c) <= max_entries)%nat ->
  NoDup (c_entries c').*1 /\ (length (c_entries c') <= max_entries)%nat /\ (forall i, i ∈ c_entries c' -> i ∈ c_entries c).
Proof.
  intros He Hn Hl. pose proof (od_filter_NoDup (fun i => now < i.2.1) _ Hn) as Hn'.
  pose proof (unexpired_length now (c_entries c)) as Hl'. fold (unexpired now (c_entries c)) in Hn'.
  assert (forall i, i ∈ unexpired now (c_entries c) -> i ∈ c_entries c) as Hi by (intros i; rewrite unexpired_in; tauto).
  unfold enter in He. destruct (od_get key (unexpired now (c_entries c))) as [w|] eqn:E.
  - injection He as _ <-. cbn [c_entries]. split; [by apply NoDup_od_move_to_end|]. split.
    + unfold od_move_to_end. rewrite E, length_app. cbn [length]. unfold od_pop.
      pose proof (od_get_Some _ _ _ E) as Hin.
      assert (length (filter (fun i => i.1 <> key) (unexpired now (c_entries c))) < length (unexpired now (c_entries c)))%nat.
      { apply length_filter_lt with (x := (key, w)); [done|]. cbn. tauto. }
      lia.
    + intros i ?%elem_of_od_move_to_end. auto.
  - destruct (od_get key (c_inflight c)); injection He as _ <-; cbn [c_entries]; split_and!; auto; lia.
Qed.

(** The entries after a load. *)
Lemma stored_entries max_entries key x (l : list (K * (Z * V))) : NoDup l.*1 ->
  let l' := od_popitem_while max_entries (od_move_to_end key (od_set key x l)) in
  NoDup l'.*1 /\ (length l' <= max_entries)%nat /\ (forall i, i ∈ l' -> i = (key, x) \/ i ∈ l).
Proof.
  intros Hn l'. destruct (od_popitem_suffix max_entries (od_move_to_end key (od_set key x l))) as [pre Hpre].
  split_and!.
  - assert (NoDup (od_move_to_end key (od_set key x l)).*1) as Hm by (apply NoDup_od_move_to_end, NoDup_od_set, Hn).
    eapply sublist_NoDup; [exact Hm|]. rewrite Hpre. apply fmap_sublist. apply sublist_inserts_l. done.
  - apply length_od_popitem.
  - intros i Hi. assert (i ∈ od_set key x l) as [?|[[? _]|?]]%elem_of_od_set; [|by left|by right|by right].
    apply (elem_of_od_move_to_end key). rewrite Hpre. apply elem_of_app. by right.
Qed.

(** The calls that remain when call [i] leaves the state [Loading key ttl f]. *)
Lemma other_leader max_entries c calls now loads i key ttl f j k2 t2 g x :
  cache_inv max_entries (Shared c calls now loads) ->
  calls !! i = Some (Loading key ttl f) -> (forall k t h, x <> Loading k t h) ->
  <[i := x]> calls !! j = Some (Loading k2 t2 g) ->
  calls !! j = Some (Loading k2 t2 g) /\ k2 <> key /\ g <> f /\ (k2, g) ∈ od_pop key (c_inflight c).
Proof.
  intros Hi Hc Hx Hj. apply list_lookup_insert_Some in Hj as [(-> & -> & _)|[Hne Hj]]; [by edestruct Hx|].
  pose proof (ci_loading _ _ Hi _ _ _ _ Hc) as H1. pose proof (ci_loading _ _ Hi _ _ _ _ Hj) as H2. cbn in H1, H2.
  assert (g <> f) as Hgf. { intros ->. apply Hne. eapply (ci_single _ _ Hi); cbn; [exact Hc|exact Hj]. }
  assert (k2 <> key) as Hk.
  { intros ->. apply Hgf. exact (inflight_unique _ _ _ _ (ci_inflight _ _ Hi) H2 H1). }
  split_and!; try done. by apply list_elem_of_filter.
Qed.

(** A waiting call's future is kept by changes that keep it. *)
Lemma future_ok_mono s s' key f :
  future_ok s key f ->
  (forall x, c_futures (sh_cache s) !! f = Some x -> c_futures (sh_cache s') !! f = Some x) ->
  ((key, f) ∈ c_inflight (sh_cache s) -> (key, f) ∈ c_inflight (sh_cache s')) ->
  (forall v, loaded (sh_loads s) key v -> loaded (sh_loads s') key v) -> future_ok s' key f.
Proof.
  unfold future_ok. intros Hf Hx Hin Hl. destruct (c_futures (sh_cache s) !! f) as [x|] eqn:E; [|done].
  rewrite (Hx x eq_refl). destruct x; auto.
Qed.

Lemma lookup_snoc_Some {A} (l : list A) x i y : (l ++ [x]) !! i = Some y <-> l !! i = Some y \/ (i = length l /\ y = x).
Proof.
  destruct (decide (i < length l)%nat) as [Hi|Hi].
  - rewrite lookup_app_l by done. split; [auto|]. intros [?|[-> _]]; [done|lia].
  - rewrite lookup_app_r by lia. destruct (i - length l)%nat eqn:E; cbn.
    + assert (i = length l) as -> by lia. rewrite lookup_ge_None_2 by lia. naive_solver.
    + rewrite lookup_ge_None_2 by lia. split; [done|]. intros [?|[-> _]]; [done|lia].
Qed.

(** What the first section does to the loads in flight. *)
Lemma enter_cases key now c o c' : enter key now c = (o, c') ->
  match o with
  | Lead f => f = length (c_futures c) /\ key ∉ (c_inflight c).*1 /\
      c_inflight c' = c_inflight c ++ [(key, f)] /\ c_futures c' = c_futures c ++ [Pending]
  | Hit _ => c_inflight c' = c_inflight c /\ c_futures c' = c_futures c
  | Follow f => c_inflight c' = c_inflight c /\ c_futures c' = c_futures c /\ (key, f) ∈ c_inflight c
  end.
Proof.
  unfold enter. destruct (od_get key (unexpired now (c_entries c))) as [w|]; [by intros [= <- <-]|].
  destruct (od_get key (c_inflight c)) as [f|] eqn:Ef; intros [= <- <-]; cbn [c_inflight c_futures].
  - split; [done|]. split; [done|]. by apply od_get_Some in Ef.
  - apply od_get_None in Ef. by rewrite od_set_fresh.
Qed.

(** Rewrite with the equations for the new cache. *)
Ltac new_cache c' := destruct_and?; repeat match goal with H : _ c' = _ |- _ => rewrite H in * end.

Lemma cache_inv_enter max_entries c calls now now' loads key ttl o c' : now <= now' ->
  cache_inv max_entries (Shared c calls now loads) -> enter key now' c = (o, c') ->
  cache_inv max_entries (Shared c' (calls ++ [start_call key ttl o]) now' loads).
Proof.
  intros Hnow Hi He.
  destruct (enter_entries _ _ _ _ _ _ He (ci_keys _ _ Hi) (ci_bound _ _ Hi)) as (Hn & Hb & Hin).
  pose proof (enter_cases _ _ _ _ _ He) as Ho.
  assert (forall v, o = Hit v -> loaded loads key v) as Hhit.
  { intros v ->. apply enter_hit in He as (x & Hx & _). apply (ci_entry _ _ Hi) in Hx as (t & l & Hx & _). by exists t, l. }
  assert (forall i k t f, calls !! i = Some (Loading k t f) -> (k, f) ∈ c_inflight c' /\ c_futures c' !! f = Some Pending) as Hold.
  { intros i k t f Hc. pose proof (ci_loading _ _ Hi _ _ _ _ Hc) as Hl.
    pose proof (proj1 (ci_pending _ _ Hi _ _ Hl)) as Hp. cbn in Hl, Hp.
    destruct o as [v|g|g]; new_cache c';
      rewrite ?elem_of_app, ?lookup_snoc_Some; auto. }
  split; cbn.
  - done.
  - done.
  - intros k e v Hv. apply (ci_entry _ _ Hi). by apply Hin.
  - destruct o as [v|f|f]; new_cache c'; try apply (ci_inflight _ _ Hi).
    rewrite fmap_app. apply NoDup_app. split; [apply (ci_inflight _ _ Hi)|]. split; [|apply NoDup_singleton].
    intros x Hx ->%list_elem_of_singleton. done.
  - intros k f Hf. destruct o as [v|g|g]; new_cache c'; rewrite ?elem_of_app, ?list_elem_of_singleton in Hf.
    1, 3: destruct (ci_pending _ _ Hi _ _ Hf) as (Hp & i & t & Hc); split; [done|];
      exists i, t; rewrite lookup_snoc_Some; by left.
    destruct Hf as [Hf|[= -> ->]].
    + destruct (ci_pending _ _ Hi _ _ Hf) as (Hp & i & t & Hc). split; [rewrite lookup_snoc_Some; by left|].
      exists i, t. rewrite lookup_snoc_Some. by left.
    + subst g. split; [rewrite lookup_snoc_Some; by right|]. exists (length calls), ttl. rewrite lookup_snoc_Some. by right.
  - intros i k t f [Hc|[-> Hc]]%lookup_snoc_Some; [by eapply Hold|].
    destruct o; try done. injection Hc as -> -> ->. destruct Ho as (-> & _ & -> & _). apply elem_of_app. right. by left.
  - assert (forall i k t f, calls !! i = Some (Loading k t f) -> (f < length (c_futures c))%nat) as Hlt.
    { intros i k t f Hc. apply lookup_lt_is_Some. exists Pending. eapply (ci_pending _ _ Hi), (ci_loading _ _ Hi), Hc. }
    intros i j k1 k2 t1 t2 f [H1|[-> H1]]%lookup_snoc_Some [H2|[-> H2]]%lookup_snoc_Some; [by eapply (ci_single _ _ Hi)| | |done];
      destruct o; try done; destruct Ho as (-> & _).
    + injection H2 as -> -> ->. apply Hlt in H1. lia.
    + injection H1 as -> -> ->. apply Hlt in H2. lia.
  - intros i k f [Hc|[-> Hc]]%lookup_snoc_Some.
    + eapply future_ok_mono; [exact (ci_waiting _ _ Hi _ _ _ Hc)| | |done]; cbn.
      * intros x Hx. destruct o; new_cache c'; try done.
        rewrite lookup_snoc_Some. by left.
      * intros Hx. destruct o; new_cache c'; try done.
        rewrite elem_of_app. by left.
    + destruct o as [v|g|g]; try done. injection Hc as -> ->. destruct Ho as (Hfl & Hfu & Hg).
      pose proof (proj1 (ci_pending _ _ Hi _ _ Hg)) as Hp. cbn in Hp. unfold future_ok. cbn. by rewrite Hfu, Hp, Hfl.
  - intros i k v [Hc|[-> Hc]]%lookup_snoc_Some; [by eapply (ci_returned _ _ Hi)|].
    destruct o; try done. injection Hc as -> ->. by apply Hhit.
  - intros k t l v Hl. apply (ci_past _ _ Hi) in Hl. cbn in Hl. lia.
Qed.

(** A settled load: the call leaves [Loading], the future is [x]. *)
Lemma cache_inv_settled max_entries c calls now now' loads loads' i key ttl f out x entries :
  now <= now' -> x <> Pending ->
  cache_inv max_entries (Shared c calls now loads) ->
  calls !! i = Some (Loading key ttl f) ->
  (forall k t g, out <> Loading k t g) -> (forall k g, out <> Waiting k g) ->
  (forall k v, out = Returned k v -> loaded loads' k v) ->
  (forall v, x = Resolved v -> loaded loads' key v) ->
  (forall y, y ∈ loads -> y ∈ loads') -> (forall k t l v, (k, (t, (l, v))) ∈ loads' -> t <= now') ->
  NoDup entries.*1 -> (length entries <= max_entries)%nat ->
  (forall k e v, (k, (e, v)) ∈ entries -> exists t l, (k, (t, (l, v))) ∈ loads' /\ 0 < l /\ e = t + l) ->
  cache_inv max_entries
    (Shared (Cache entries (od_pop key (c_inflight c)) (<[f := x]> (c_futures c))) (<[i := out]> calls) now' loads').
Proof.
  intros Hnow Hx Hi Hc Hl Hw Hr Hv Hsub Hpast Hn Hb He.
  assert (forall j k2 t2 g, <[i := out]> calls !! j = Some (Loading k2 t2 g) ->
    calls !! j = Some (Loading k2 t2 g) /\ k2 <> key /\ g <> f /\ (k2, g) ∈ od_pop key (c_inflight c)) as Hoth
    by (intros *; by apply (other_leader _ _ _ _ _ _ _ _ _ _ _ _ _ _ Hi Hc)).
  pose proof (proj1 (ci_pending _ _ Hi _ _ (ci_loading _ _ Hi _ _ _ _ Hc))) as Hpf. cbn in Hpf.
  pose proof (lookup_lt_Some _ _ _ Hpf) as Hlt.
  split; cbn; try done.
  - apply od_filter_NoDup, (ci_inflight _ _ Hi).
  - intros k g [Hk Hg]%list_elem_of_filter. cbn in Hk. destruct (ci_pending _ _ Hi _ _ Hg) as (Hp & j & t & Hj). cbn in Hp, Hj.
    assert (g <> f) as Hgf. { intros ->. apply Hk. enough (j = i) as -> by (rewrite Hc in Hj; by injection Hj).
      eapply (ci_single _ _ Hi); cbn; [exact Hj|exact Hc]. }
    split; [by rewrite list_lookup_insert_ne|]. exists j, t. rewrite list_lookup_insert_ne; [done|].
    intros ->. rewrite Hc in Hj. by injection Hj.
  - intros j k t g Hj. by apply Hoth in Hj as (_ & _ & _ & ?).
  - intros j j' k1 k2 t1 t2 g (H1 & _)%Hoth (H2 & _)%Hoth. by eapply (ci_single _ _ Hi).
  - intros j k g Hj. apply list_lookup_insert_Some in Hj as [(_ & E & _)|[Hne Hj]]; [by edestruct Hw|].
    pose proof (ci_waiting _ _ Hi _ _ _ Hj) as Hf. unfold future_ok in *. cbn in *.
    destruct (decide (g = f)) as [->|Hgf].
    + rewrite list_lookup_insert_eq by done. rewrite Hpf in Hf.
      assert (k = key) as ->.
      { destruct (ci_pending _ _ Hi _ _ Hf) as (_ & j' & t & Hj'). cbn in Hj'.
        assert (j' = i) as -> by (eapply (ci_single _ _ Hi); cbn; [exact Hj'|exact Hc]). rewrite Hc in Hj'. by injection Hj'. }
      destruct x; [done|by apply Hv|done].
    + rewrite list_lookup_insert_ne by done. destruct (c_futures c !! g) as [[|v|e]|] eqn:Eg; try done.
      * apply list_elem_of_filter. split; [|done]. cbn. intros ->. apply Hgf.
        exact (inflight_unique _ _ _ _ (ci_inflight _ _ Hi) Hf (ci_loading _ _ Hi _ _ _ _ Hc)).
      * destruct Hf as (t & l & Hf). exists t, l. auto.
  - intros j k v Hj. apply list_lookup_insert_Some in Hj as [(_ & E & _)|[Hne Hj]]; [by apply Hr|].
    destruct (ci_returned _ _ Hi _ _ _ Hj) as (t & l & Hf). exists t, l. auto.
Qed.

Lemma cache_inv_done max_entries c calls now now' loads i key ttl f v : now <= now' ->
  cache_inv max_entries (Shared c calls now loads) -> calls !! i = Some (Loading key ttl f) ->
  cache_inv max_entries (Shared (load_done max_entries key ttl f v now' c) (<[i := Returned key v]> calls) now'
    ((key, (now', (ttl, v))) :: loads)).
Proof.
  intros Hnow Hi Hc. assert (loaded ((key, (now', (ttl, v))) :: loads) key v) as Hv by (exists now', ttl; left).
  assert (forall k e w, (k, (e, w)) ∈ c_entries c ->
    exists t l, (k, (t, (l, w))) ∈ (key, (now', (ttl, v))) :: loads /\ 0 < l /\ e = t + l) as Hold.
  { intros k e w Hw. apply (ci_entry _ _ Hi) in Hw as (t & l & Hw & ?). exists t, l. split; [by right|done]. }
  unfold load_done. eapply cache_inv_settled; try exact Hi; try exact Hc; try done.
  - by intros k w [= -> ->].
  - by intros w [= ->].
  - intros y. by right.
  - intros k t l w [[= -> -> -> ->]|Hw]%elem_of_cons; [lia|]. apply (ci_past _ _ Hi) in Hw. cbn in Hw. lia.
  - case_match; [apply stored_entries|]; apply (ci_keys _ _ Hi).
  - case_match; [apply stored_entries, (ci_keys _ _ Hi)|apply (ci_bound _ _ Hi)].
  - destruct (0 <? ttl) eqn:Et; [|done]. intros k e w Hw.
    apply stored_entries in Hw as [[= -> -> ->]|Hw]; [|by apply Hold|apply (ci_keys _ _ Hi)].
    exists now', ttl. split; [by left|]. lia.
Qed.

Lemma cache_inv_failed max_entries c calls now now' loads i key ttl f e : now <= now' ->
  cache_inv max_entries (Shared c calls now loads) -> calls !! i = Some (Loading key ttl f) ->
  cache_inv max_entries (Shared (load_failed key f e c) (<[i := Raised key e]> calls) now' loads).
Proof.
  intros Hnow Hi Hc. pose proof (proj1 (ci_pending _ _ Hi _ _ (ci_loading _ _ Hi _ _ _ _ Hc))) as Hpf. cbn in Hpf.
  unfold load_failed. rewrite Hpf. eapply cache_inv_settled; try exact Hi; try exact Hc; try done; try apply Hi.
  intros k t l w Hw. apply (ci_past _ _ Hi) in Hw. cbn in Hw. lia.
Qed.

(** A waiting call ends without touching the cache. *)
Lemma cache_inv_waited max_entries c calls now loads i key f out :
  cache_inv max_entries (Shared c calls now loads) -> calls !! i = Some (Waiting key f) ->
  (forall k t g, out <> Loading k t g) -> (forall k g, out <> Waiting k g) ->
  (forall k v, out = Returned k v -> loaded loads k v) ->
  cache_inv max_entries (Shared c (<[i := out]> calls) now loads).
Proof.
  intros Hi Hc Hl Hw Hr.
  assert (forall j k t g, <[i := out]> calls !! j = Some (Loading k t g) -> calls !! j = Some (Loading k t g)) as Hold.
  { intros j k t g Hj. apply list_lookup_insert_Some in Hj as [(_ & E & _)|[_ Hj]]; [by edestruct Hl|done]. }
  split; cbn; try apply Hi.
  - intros k g Hg. destruct (ci_pending _ _ Hi _ _ Hg) as (Hp & j & t & Hj). split; [done|]. exists j, t.
    rewrite list_lookup_insert_ne; [done|]. cbn in Hj. congruence.
  - intros j k t g Hj%Hold. by eapply (ci_loading _ _ Hi).
  - intros j j' k1 k2 t1 t2 g H1%Hold H2%Hold. by eapply (ci_single _ _ Hi).
  - intros j k g Hj. apply list_lookup_insert_Some in Hj as [(_ & E & _)|[_ Hj]]; [by edestruct Hw|].
    by apply (ci_waiting _ _ Hi) in Hj.
  - intros j k v Hj. apply list_lookup_insert_Some in Hj as [(_ & E & _)|[_ Hj]]; [by apply Hr|].
    by eapply (ci_returned _ _ Hi).
Qed.

Lemma cache_inv_step max_entries s s' : step max_entries s s' -> cache_inv max_entries s -> cache_inv max_entries s'.
Proof.
  intros Hs Hi. destruct Hs as [| | |c calls now loads i key f fut Hc Hf Hp|].
  - by eapply cache_inv_enter.
  - by eapply cache_inv_done.
  - by eapply cache_inv_failed.
  - eapply cache_inv_waited; try done; destruct fut as [|v|e]; try done.
    intros k w [= <- <-]. pose proof (ci_waiting _ _ Hi _ _ _ Hc) as Hw. unfold future_ok in Hw. cbn in Hw. by rewrite Hf in Hw.
  - by eapply cache_inv_waited.
Qed.

Lemma cache_reachable_inv max_entries s : cache_reachable max_entries s -> cache_inv max_entries s.
Proof.
  intros [t0 Hr]. refine (rtc_ind_r (cache_inv max_entries) _ (cache_inv_init _ t0) _ s Hr).
  intros y z _ Hs Hy. by eapply cache_inv_step.
Qed.

(** C15. However the requests interleave: the cache holds at most [max_entries]
    values under distinct keys; two calls never load the same key at the same
    time; a call that waits has a settled future or a loading call of its key,
    so nobody waits forever once the loaders end; whatever a call returns was
    returned by a loader for its key, and a hit was stored less than its
    lifetime ago; when no loader runs, nothing is left in flight. *)
Theorem request_cache_shared max_entries s : cache_reachable max_entries s ->
  (length (c_entries (sh_cache s)) <= max_entries)%nat /\ NoDup (c_entries (sh_cache s)).*1 /\
  (forall i j key t1 t2 f g, sh_calls s !! i = Some (Loading key t1 f) -> sh_calls s !! j = Some (Loading key t2 g) -> i = j) /\
  (forall i key f, sh_calls s !! i = Some (Waiting key f) ->
     (exists x, c_futures (sh_cache s) !! f = Some x /\ x <> Pending) \/
     exists j ttl, sh_calls s !! j = Some (Loading key ttl f)) /\
  (forall i key v, sh_calls s !! i = Some (Returned key v) -> loaded (sh_loads s) key v) /\
  (forall key now v c', enter key now (sh_cache s) = (Hit v, c') ->
     exists t ttl, (key, (t, (ttl, v))) ∈ sh_loads s /\ t <= sh_now s /\ now < t + ttl) /\
  ((forall i key ttl f, sh_calls s !! i <> Some (Loading key ttl f)) -> c_inflight (sh_cache s) = []).
Proof.
  intros Hi%cache_reachable_inv. split_and!; try apply Hi.
  - intros i j key t1 t2 f g H1 H2. pose proof (ci_loading _ _ Hi _ _ _ _ H1) as L1. pose proof (ci_loading _ _ Hi _ _ _ _ H2) as L2.
    pose proof (inflight_unique _ _ _ _ (ci_inflight _ _ Hi) L1 L2) as ->. by eapply (ci_single _ _ Hi).
  - intros i key f Hw%(ci_waiting _ _ Hi). unfold future_ok in Hw. destruct (c_futures (sh_cache s) !! f) as [[|v|e]|]; try done.
    + right. by apply (ci_pending _ _ Hi) in Hw as (_ & ?).
    + left. by exists (Resolved v).
    + left. by exists (Failed e).
  - intros key now v c' (x & Hx & Hlt)%enter_hit. apply (ci_entry _ _ Hi) in Hx as (t & l & Hx & _ & ->).
    exists t, l. split; [done|]. split; [by eapply (ci_past _ _ Hi)|done].
  - intros Hno. destruct (c_inflight (sh_cache s)) as [|[key f] l] eqn:E; [done|].
    destruct (ci_pending _ _ Hi key f) as (_ & i & t & Hc); [rewrite E; by left|]. by apply Hno in Hc.
Qed.
End request_cache.

(** Three requests for one key, one of which loads; a later one hits. *)
Definition demo_shared : shared (K:=string) (V:=Z) :=
  Shared (Cache [("head", (15, 7))] [] [Resolved 7]) [Returned "head" 7; Returned "head" 7; Raised "head" CancelledError; Returned "head" 7] 6
    [("head", (5, (10, 7)))].

Lemma demo_shared_reachable : cache_reachable 1 demo_shared.
Proof.
  exists 0. unfold demo_shared.
  eapply rtc_l; [eapply (step_enter 1 _ _ 0 1 _ "head" 10); [lia|reflexivity]|].
  eapply rtc_l; [eapply (step_enter 1 _ _ 1 2 _ "head" 10); [lia|reflexivity]|].
  eapply rtc_l; [eapply (step_enter 1 _ _ 2 3 _ "head" 10); [lia|reflexivity]|].
  eapply rtc_l; [eapply (step_cancel 1 _ _ 3 _ 2 "head" 0); reflexivity|].
  eapply rtc_l; [eapply (step_done 1 _ _ 3 5 _ 0 "head" 10 0 7); [lia|reflexivity]|].
  eapply rtc_l; [eapply (step_wake 1 _ _ 5 _ 1 "head" 0 (Resolved 7)); [reflexivity|reflexivity|done]|].
  eapply rtc_l; [eapply (step_enter 1 _ _ 5 6 _ "head" 10); [lia|reflexivity]|].
  apply rtc_refl.
Qed.

Lemma request_cache_shared_witness :
  cache_reachable 1 demo_shared /\ (length (c_entries (sh_cache demo_shared)) <= 1)%nat.
Proof. split; [exact demo_shared_reachable|]. exact (proj1 (request_cache_shared 1 demo_shared demo_shared_reachable)). Defined.

(** A follower shares its leader's fate, a cancellation included: the request
    that never was cancelled raises CancelledError. *)
Example cancellation_spreads :
  cache_reachable (K:=string) (V:=Z) 1
    (Shared (Cache [] [] [Failed CancelledError]) [Raised "head" CancelledError; Raised "head" CancelledError] 2 []).
Proof.
  exists 0.
  eapply rtc_l; [eapply (step_enter 1 _ _ 0 1 _ "head" 10); [lia|reflexivity]|].
  eapply rtc_l; [eapply (step_enter 1 _ _ 1 2 _ "head" 10); [lia|reflexivity]|].
  eapply rtc_l; [eapply (step_failed 1 _ _ 2 2 _ 0 "head" 10 0 CancelledError); [lia|reflexivity]|].
  eapply rtc_l; [eapply (step_wake 1 _ _ 2 _ 1 "head" 0 (Failed CancelledError)); [reflexivity|reflexivity|done]|].
  apply rtc_refl.
Qed.
