(* ===== verification/Digits.v ===== *)
(** * Decimal digits as text

    Strings of ASCII digits, with or without leading zeros, and what [chars],
    [int] and [str.isdigit] make of them. *)
From Stdlib Require Import ZArith NArith Lia Ascii String.
From stdpp Require Import base list strings.
From S2P Require Import Prelude PyStr.
Open Scope Z_scope.

Definition sing (d : Z) : string := String (digit_char d) EmptyString.
Definition digit (d : Z) : Prop := 0 <= d < 10.

Lemma digit_cases (P : Z -> Prop) d : digit d -> Forall P (seqZ 0 10) -> P d.
Proof. intros Hd. rewrite Forall_forall. intros Hp. apply Hp, elem_of_seqZ. unfold digit in Hd. lia. Qed.
(** A decidable statement about all integers of a range. *)
Lemma range_check (P : Z -> bool) lo n z : forallb P (seqZ lo n) = true -> lo <= z < lo + n -> P z = true.
Proof. intros Hp Hz. rewrite forallb_forall in Hp. apply Hp, list_elem_of_In, elem_of_seqZ. lia. Qed.

(** [n] in decimal with leading zeros *)
Fixpoint pad (width : nat) (n : Z) : list Z :=
  match width with O => [] | S w => pad w (n / 10) ++ [n mod 10] end.
Definition padded (width : nat) (n : Z) : string := digits_str (pad width n).

Lemma pad_digits w n : Forall digit (pad w n).
Proof.
  revert n. induction w as [|w IH]; intros n; [constructor|]. cbn [pad]. apply Forall_app. split; [apply IH|].
  apply Forall_singleton. unfold digit. pose proof (Z.mod_pos_bound n 10). lia.
Qed.
Lemma pad_length w n : length (pad w n) = w.
Proof. revert n. induction w as [|w IH]; intros n; [done|]. cbn [pad]. rewrite length_app, IH. cbn. lia. Qed.
Lemma pad_value w n : 0 <= n < 10 ^ Z.of_nat w -> digits_value (pad w n) = n.
Proof.
  revert n. induction w as [|w IH]; intros n Hn; [cbn in Hn |- *; lia|]. cbn [pad].
  rewrite Nat2Z.inj_succ, Z.pow_succ_r in Hn by lia. unfold digits_value in *. rewrite foldl_app, IH.
  - cbn. pose proof (Z.div_mod n 10). lia.
  - split; [apply Z.div_pos; lia|apply Z.div_lt_upper_bound; lia].
Qed.

Lemma chars_digits_str ds : Forall digit ds -> chars (digits_str ds) = map sing ds.
Proof.
  intros Hd. rewrite chars_ascii by (by apply digits_str_ascii). unfold digits_str. rewrite list_of_string_of_list, map_map. done.
Qed.
Lemma py_len_digits_str ds : Forall digit ds -> py_len (digits_str ds) = Z.of_nat (length ds).
Proof. intros Hd. unfold py_len. by rewrite chars_digits_str, length_map. Qed.

Lemma int_digits_map ds : Forall digit ds -> ds <> [] -> int_digits (map digit_char ds) = Some ds.
Proof.
  assert (forall d, digit d -> ascii_digit (digit_char d) = Some d) as Ha.
  { intros d Hd. apply (digit_cases (fun d => ascii_digit (digit_char d) = Some d) d Hd). by repeat constructor. }
  assert (forall d, digit d -> digit_char d <> "_"%char) as Hu.
  { intros d Hd. apply (digit_cases (fun d => digit_char d <> "_"%char) d Hd). by repeat constructor. }
  induction 1 as [|d ds Hd Hds IH]; [done|]. intros _. cbn [map int_digits]. rewrite Ha by done.
  destruct ds as [|e ds]; [done|]. cbn [map]. apply Forall_cons in Hds as [He Hds].
  rewrite bool_decide_eq_false_2 by (by apply Hu). cbn [map] in IH. by rewrite IH.
Qed.

(** [int] of a string of at most 4300 digits *)
Lemma py_int_str_digits ds : Forall digit ds -> ds <> [] -> Z.of_nat (length ds) <= MAX_STR_DIGITS ->
  py_int_str (digits_str ds) = Ok (digits_value ds).
Proof.
  intros Hd Hn Hl. unfold py_int_str. rewrite chars_digits_str, map_map by done.
  rewrite (map_ext_in _ digit_char).
  2: { intros d Hin. apply list_elem_of_In in Hin. rewrite Forall_forall in Hd.
    apply (digit_cases (fun d => int_char (sing d) = digit_char d) d (Hd _ Hin)). by repeat constructor. }
  assert (forall l, Forall digit l -> drop_while c_isspace (map digit_char l) = map digit_char l) as Hs.
  { intros l Hf. destruct Hf as [|d l Hx _]; [done|]. cbn [map drop_while].
    by rewrite (digit_cases (fun d => c_isspace (digit_char d) = false) d Hx ltac:(by repeat constructor)). }
  assert (forall l : list Z, reverse (map digit_char l) = map digit_char (reverse l)) as Hrev by (intros l; symmetry; apply (fmap_reverse digit_char)).
  rewrite Hs by done. rewrite Hrev, Hs by (by apply Forall_reverse). rewrite Hrev, reverse_involutive.
  assert (head_is "-" (map digit_char ds) = false /\ head_is "+" (map digit_char ds) = false) as [-> ->].
  { destruct Hd as [|d ds Hx _]; [done|]. cbn [map].
    apply (digit_cases (fun d => head_is "-" (digit_char d :: map digit_char ds) = false /\ head_is "+" (digit_char d :: map digit_char ds) = false) d Hx).
    by repeat constructor. }
  cbn [orb]. rewrite int_digits_map by done. rewrite (proj2 (Z.ltb_ge _ _)) by lia. done.
Qed.

Lemma ascii_digits_only : forallb (fun c => negb (is_digit_cp c) || ((48 <=? c) && (c <=? 57))) (seqZ 0 128) = true.
Proof. vm_compute. reflexivity. Qed.
(** ASCII text for which [isdigit] holds *)
Lemma ascii_isdigit s : is_ascii s = true -> py_isdigit s = true ->
  exists ds, s = digits_str ds /\ Forall digit ds /\ ds <> [].
Proof.
  intros Ha. unfold py_isdigit. rewrite chars_ascii by done. intros [He Hd]%andb_true_iff.
  rewrite <-(string_of_list_of_string s). unfold is_ascii in Ha. rewrite <-(string_of_list_of_string s), str_forallb_of_list in Ha.
  assert (list_of_string s <> []) as Hn. { intros E. apply negb_true_iff, bool_decide_eq_false in He. apply He.
    by rewrite <-(string_of_list_of_string s), E. }
  clear He. revert Ha Hd Hn. generalize (list_of_string s) as l. induction l as [|a l IH]; [done|].
  cbn [forallb map]. intros [Ha Hl]%andb_true_iff [Hd Hds]%andb_true_iff _.
  assert (exists d, a = digit_char d /\ digit d) as (d & -> & Hdig).
  { change (code_point (String a EmptyString)) with (byte_Z a) in Hd. unfold is_ascii_byte in Ha. apply Z.ltb_lt in Ha.
    pose proof (byte_Z_range a) as Hr. destruct ((48 <=? byte_Z a) && (byte_Z a <=? 57)) eqn:E.
    - exists (byte_Z a - 48). unfold digit_char, digit. replace (48 + (byte_Z a - 48)) with (byte_Z a) by lia. rewrite Z_byte_Z. split; [done|lia].
    - exfalso. assert (0 <= byte_Z a < 0 + 128) as Hz by lia.
      pose proof (range_check _ 0 128 _ ascii_digits_only Hz) as H.
      cbn beta in H. rewrite Hd, E in H. done. }
  destruct l as [|b l].
  - exists [d]. split; [done|]. split; [by constructor|done].
  - destruct (IH Hl Hds) as (ds & Es & Hf & _); [done|]. exists (d :: ds). split; [|split; [by constructor|done]].
    unfold digits_str in *. cbn [map]. cbn [string_of_list String.string_of_list_ascii]. f_equal. exact Es.
Qed.
Lemma ascii_isdigit_int s : is_ascii s = true -> py_isdigit s = true -> py_len s <= MAX_STR_DIGITS ->
  exists z, py_int_str s = Ok z /\ 0 <= z < 10 ^ py_len s.
Proof.
  intros Ha Hd Hl. destruct (ascii_isdigit s Ha Hd) as (ds & -> & Hf & Hn). rewrite py_len_digits_str in * by done.
  exists (digits_value ds). split; [by apply py_int_str_digits|]. split.
  - unfold digits_value. assert (forall acc, 0 <= acc -> 0 <= foldl (fun acc d => acc * 10 + d) acc ds) as H; [|by apply H].
    clear -Hf. induction Hf as [|d ds Hd _ IH]; intros acc Hacc; [done|]. cbn. apply IH. unfold digit in Hd. lia.
  - unfold digits_value. assert (forall acc, foldl (fun acc d => acc * 10 + d) acc ds < (acc + 1) * 10 ^ Z.of_nat (length ds)) as H; [|specialize (H 0); lia].
    clear -Hf. induction Hf as [|d ds Hd _ IH]; intros acc; [cbn; lia|]. cbn [foldl length]. specialize (IH (acc * 10 + d)).
    rewrite Nat2Z.inj_succ, Z.pow_succ_r by lia. unfold digit in Hd. nia.
Qed.

(** ** The decimal text of a number is the only one without leading zeros *)
Lemma digits_value_app ds es : digits_value (ds ++ es) = digits_value ds * 10 ^ Z.of_nat (length es) + digits_value es.
Proof.
  unfold digits_value. rewrite foldl_app. generalize (foldl (fun acc d => acc * 10 + d) 0 ds) as acc.
  assert (forall es acc, foldl (fun acc d => acc * 10 + d) acc es = acc * 10 ^ Z.of_nat (length es) + foldl (fun acc d => acc * 10 + d) 0 es) as Hf; [|done].
  clear. induction es as [|e es IH]; intros acc; [cbn; lia|]. cbn [foldl length]. rewrite IH, (IH (0 * 10 + e)).
  rewrite Nat2Z.inj_succ, Z.pow_succ_r by lia. lia.
Qed.
Lemma digits_value_range ds : Forall digit ds -> 0 <= digits_value ds < 10 ^ Z.of_nat (length ds).
Proof.
  induction ds as [|d ds IH] using rev_ind; [done|]. intros [Hd [He _]%Forall_cons]%Forall_app. specialize (IH Hd).
  rewrite digits_value_app, length_app. change (digits_value [d]) with d. cbn [length].
  rewrite Nat2Z.inj_add, Z.pow_add_r by lia. change (10 ^ Z.of_nat 1) with 10. unfold digit in He. lia.
Qed.
Lemma digits_value_inj ds es : Forall digit ds -> Forall digit es -> length ds = length es -> digits_value ds = digits_value es -> ds = es.
Proof.
  revert es. induction ds as [|d ds IH] using rev_ind; intros es Hd He Hl Hv.
  { by destruct es. }
  destruct es as [|e es _] using rev_ind; [rewrite length_app in Hl; cbn in Hl; lia|].
  apply Forall_app in Hd as [Hd [Hd1 _]%Forall_cons]. apply Forall_app in He as [He [He1 _]%Forall_cons].
  rewrite !length_app in Hl. cbn in Hl. rewrite !digits_value_app in Hv. change (digits_value [d]) with d in Hv. change (digits_value [e]) with e in Hv. cbn [length] in Hv.
  change (10 ^ Z.of_nat 1) with 10 in Hv. unfold digit in *.
  assert (digits_value ds = digits_value es /\ d = e) as [Hv2 ->] by lia. f_equal. apply IH; [done|done|lia|done].
Qed.
Lemma dec_digits_value ds d es : ds = d :: es -> Forall digit ds -> d <> 0 -> dec_digits (digits_value ds) = ds.
Proof.
  intros -> Hf Hd. pose proof (digits_value_range _ Hf) as Hr. destruct (dec_digits_ok (digits_value (d :: es))) as (Hv & Hf2 & Hn & Hlen); [lia|].
  apply digits_value_inj; [exact Hf2|done| |done].
  assert (10 ^ Z.of_nat (length es) <= digits_value (d :: es)) as Hlow.
  { change (d :: es) with ([d] ++ es). rewrite digits_value_app. apply Forall_cons in Hf as [Hd1 Hes]. pose proof (digits_value_range es Hes) as He.
    change (digits_value [d]) with d. unfold digit in Hd1. nia. }
  cbn [length] in *. apply Nat2Z.inj. pose proof (proj2 (Hlen (Z.of_nat (S (length es))) ltac:(lia)) ltac:(lia)) as Hle.
  destruct (Z.le_gt_cases (Z.of_nat (length (dec_digits (digits_value (d :: es))))) (Z.of_nat (length es))) as [Hc|]; [|lia].
  destruct es as [|e es]; [destruct (dec_digits _); [done|cbn in Hc; lia]|].
  apply Hlen in Hc; [|cbn; lia]. lia.
Qed.
Lemma dec_digits_head z d es : 1 <= z -> dec_digits z = d :: es -> d <> 0.
Proof.
  intros Hz E. destruct (dec_digits_ok z) as (Hv & Hf & _ & Hl); [lia|]. rewrite E in Hv, Hf, Hl. intros ->.
  change (0 :: es) with ([0] ++ es) in Hv. rewrite digits_value_app in Hv. change (digits_value [0]) with 0 in Hv.
  apply Forall_cons in Hf as [_ Hes]. pose proof (digits_value_range es Hes) as Hr.
  destruct es as [|e es]; [cbn in Hv; lia|]. destruct (Hl (Z.of_nat (length (e :: es))) ltac:(cbn [length]; lia)) as [_ Hl2]. specialize (Hl2 ltac:(lia)). cbn [length] in *. lia.
Qed.
Lemma ascii_digit_inv a d : ascii_digit a = Some d -> digit d /\ a = digit_char d.
Proof.
  unfold ascii_digit. cbv zeta. destruct (_ && _) eqn:E; [|done]. intros [= <-]. apply andb_true_iff in E as [H1 H2].
  apply Z.leb_le in H1, H2. split; [unfold digit; lia|]. unfold digit_char. replace (48 + (byte_Z a - 48)) with (byte_Z a) by lia. by rewrite Z_byte_Z.
Qed.
Lemma ascii_digit_digit_char d : digit d -> ascii_digit (digit_char d) = Some d.
Proof. intros Hd. apply (digit_cases (fun d => ascii_digit (digit_char d) = Some d) d Hd). by repeat constructor. Qed.
(** The digits of a text *)
Lemma mapM_ascii_digit s ds : mapM (M:=option) ascii_digit (list_of_string s) = Some ds <-> Forall digit ds /\ s = digits_str ds.
Proof.
  unfold digits_str. split.
  - intros E. rewrite <- (string_of_list_of_string s). revert ds E. generalize (list_of_string s) as l.
    induction l as [|a l IH]; intros ds; cbn; [intros [= <-]; by split|]. destruct (ascii_digit a) as [d|] eqn:Ea; [|done]. cbn.
    destruct (mapM ascii_digit l) as [es|] eqn:El; [|done]. cbn. intros [= <-]. destruct (IH es eq_refl) as [Hf Hs].
    apply ascii_digit_inv in Ea as [Hd ->]. split; [by constructor|]. cbn. by rewrite Hs.
  - intros [Hf ->]. rewrite list_of_string_of_list. induction Hf as [|d ds Hd _ IH]; [done|]. cbn [map mapM].
    rewrite ascii_digit_digit_char by done. cbn. by rewrite IH.
Qed.
