(* ===== verification/Rfc3339.v ===== *)
(** * api/cosmos/rfc3339.py: timestamps

    A [datetime] in UTC is an instant: the number of microseconds since
    0001-01-01T00:00:00Z, below [MAX_INSTANT].  The calendar is the proleptic
    Gregorian one of the module datetime, written as CPython does
    ([ymd2ord], [ord2ymd]).  The named groups of the regular expression are
    read by a scanner; [\d] accepts every Unicode decimal digit, while the
    expressions of [strptime] accept some of the digits in ASCII only. *)
From Stdlib Require Import ZArith NArith Lia Ascii String SpecFloat.
From stdpp Require Import base gmap sets list strings sorting.
From S2P Require Import Prelude PyStr PyVal Codec Scan Lines Digits.
Open Scope Z_scope.

(** ** The calendar of the module datetime *)
Definition MAXYEAR : Z := 9999.
Definition is_leap (y : Z) : bool :=
  (y mod 4 =? 0) && (negb (y mod 100 =? 0) || (y mod 400 =? 0)).
Definition days_before_year (y : Z) : Z :=
  let y := y - 1 in y * 365 + y / 4 - y / 100 + y / 400.
Definition month_lengths : list Z := [31; 28; 31; 30; 31; 30; 31; 31; 30; 31; 30; 31].
Definition days_in_month_365 (m : Z) : Z := nth (Z.to_nat (m - 1)) month_lengths 0.
(** [_DAYS_BEFORE_MONTH[m]] *)
Definition days_before_month_365 (m : Z) : Z := foldr Z.add 0 (take (Z.to_nat (m - 1)) month_lengths).
Definition days_in_month (y m : Z) : Z := if (m =? 2) && is_leap y then 29 else days_in_month_365 m.
Definition days_before_month (y m : Z) : Z := days_before_month_365 m + (if (2 <? m) && is_leap y then 1 else 0).
Definition ymd2ord (y m d : Z) : Z := days_before_year y + days_before_month y m + d.

(** [_ord2ymd] *)
Definition month_day (leap : bool) (n : Z) : Z * Z :=
  let month := Z.shiftr (n + 50) 5 in
  let preceding := days_before_month_365 month + (if (2 <? month) && leap then 1 else 0) in
  if n <? preceding then
    let month := month - 1 in
    let preceding := preceding - (days_in_month_365 month + (if (month =? 2) && leap then 1 else 0)) in
    (month, n - preceding + 1)
  else (month, n - preceding + 1).
Definition ord2ymd (n : Z) : Z * Z * Z :=
  let n := n - 1 in
  let n400 := n / 146097 in
  let n := n mod 146097 in
  let n100 := n / 36524 in
  let n := n mod 36524 in
  let n4 := n / 1461 in
  let n := n mod 1461 in
  let n1 := n / 365 in
  let n := n mod 365 in
  let year := n400 * 400 + 1 + n100 * 100 + n4 * 4 + n1 in
  if (n1 =? 4) || (n100 =? 4) then (year - 1, 12, 31)
  else
    let leapyear := (n1 =? 3) && (negb (n4 =? 24) || (n100 =? 3)) in
    let '(month, day) := month_day leapyear n in (year, month, day).

Definition DAY : Z := 86400000000.
Definition MAX_INSTANT : Z := 3652059 * DAY.

(** [datetime(y, m, d, hh, mm, ss, us)] as an instant, without a zone. *)
Definition datetime (y m d hh mm ss us : Z) : res Z :=
  _ ← require ((1 <=? y) && (y <=? MAXYEAR)) (ValueError "year is out of range");
  _ ← require ((1 <=? m) && (m <=? 12)) (ValueError "month must be in 1..12");
  _ ← require ((1 <=? d) && (d <=? days_in_month y m)) (ValueError "day is out of range for month");
  _ ← require ((0 <=? hh) && (hh <=? 23)) (ValueError "hour must be in 0..23");
  _ ← require ((0 <=? mm) && (mm <=? 59)) (ValueError "minute must be in 0..59");
  _ ← require ((0 <=? ss) && (ss <=? 59)) (ValueError "second must be in 0..59");
  Ok ((ymd2ord y m d - 1) * DAY + ((hh * 60 + mm) * 60 + ss) * 1000000 + us).

(** [datetime + timedelta] *)
Definition datetime_add (t delta : Z) : res Z :=
  let t := t + delta in
  if (0 <=? t) && (t <? MAX_INSTANT) then Ok t else Raise OverflowError.

(** ** The regular expression *)
Definition uni (g : string) : option Z := decimal_value (code_point g).
Definition re_digit (g : string) : bool := bool_decide (is_Some (uni g)).
Fixpoint take_digits (n : nat) (l : list string) : option (list string * list string) :=
  match n, l with
  | O, _ => Some ([], l)
  | S n, g :: l => if re_digit g then match take_digits n l with Some (d, r) => Some (g :: d, r) | None => None end else None
  | S _, [] => None
  end.

Inductive zone : Type :=
| Zulu
| Offset (negative : bool) (hours minutes : list string).

Record timestamp := Timestamp {
  ts_year : list string; ts_month : list string; ts_day : list string;
  ts_hour : list string; ts_minute : list string; ts_second : list string;
  ts_fraction : list string;       (* empty when the group does not take part *)
  ts_zone : zone
}.

Definition scan_zone (l : list string) : option zone :=
  if bool_decide (l = ["Z"]) then Some Zulu
  else
    match l with
    | g :: l =>
        if char_is "+" g || char_is "-" g then
          match take_digits 2 l with
          | Some (h, r) =>
              match take_char ":" r with
              | Some r => match take_digits 2 r with Some (m, []) => Some (Offset (char_is "-" g) h m) | _ => None end
              | None => None
              end
          | None => None
          end
        else None
    | [] => None
    end.

Definition scan_fraction_group (l : list string) : option (list string * list string) :=
  match take_char "." l with
  | Some r =>
      let '(ds, r) := span_chars re_digit r in
      if (1 <=? length ds)%nat && (length ds <=? 9)%nat then Some (ds, r) else None
  | None => Some ([], l)
  end.

(** [n] digits followed by the character [c]. *)
Definition field (n : nat) (c : ascii) (l : list string) : option (list string * list string) :=
  match take_digits n l with
  | Some (d, r) => match take_char c r with Some r => Some (d, r) | None => None end
  | None => None
  end.

Definition rfc3339 (value : string) : option timestamp :=
  '(y, l) ← field 4 "-" (chars value);
  '(mo, l) ← field 2 "-" l;
  '(d, l) ← field 2 "T" l;
  '(h, l) ← field 2 ":" l;
  '(mi, l) ← field 2 ":" l;
  '(s, l) ← take_digits 2 l;
  '(f, l) ← scan_fraction_group l;
  z ← scan_zone l;
  Some (Timestamp y mo d h mi s f z).

(** ** strptime *)
Definition asc (g : string) : option Z := if char_digit g then Some (code_point g - 48) else None.
Definition two (l : list string) : option (string * string) := match l with [a; b] => Some (a, b) | _ => None end.
(** [1[0-2]|0[1-9]] *)
Definition strptime_month (l : list string) : option Z :=
  '(a, b) ← two l; t ← asc a; u ← asc b;
  if (t =? 1) && (u <=? 2) then Some (10 + u) else if (t =? 0) && (1 <=? u) then Some u else None.
(** [3[0-1]|[1-2]\d|0[1-9]] *)
Definition strptime_day (l : list string) : option Z :=
  '(a, b) ← two l; t ← asc a;
  if t =? 3 then u ← asc b; if u <=? 1 then Some (30 + u) else None
  else if (t =? 1) || (t =? 2) then u ← uni b; Some (t * 10 + u)
  else if t =? 0 then u ← asc b; if 1 <=? u then Some u else None
  else None.
(** [2[0-3]|[0-1]\d] *)
Definition strptime_hour (l : list string) : option Z :=
  '(a, b) ← two l; t ← asc a;
  if t =? 2 then u ← asc b; if u <=? 3 then Some (20 + u) else None
  else if t <=? 1 then u ← uni b; Some (t * 10 + u)
  else None.
(** [[0-5]\d] *)
Definition strptime_minute (l : list string) : option Z :=
  '(a, b) ← two l; t ← asc a; u ← uni b; if t <=? 5 then Some (t * 10 + u) else None.
(** [6[0-1]|[0-5]\d] *)
Definition strptime_second (l : list string) : option Z :=
  '(a, b) ← two l; t ← asc a;
  if t =? 6 then u ← asc b; if u <=? 1 then Some (60 + u) else None
  else u ← uni b; if t <=? 5 then Some (t * 10 + u) else None.
Definition uni_value (l : list string) : Z := digits_value (map (fun g => default 0 (uni g)) l).

Definition strptime (ts : timestamp) (us : Z) : res Z :=
  match strptime_month (ts_month ts), strptime_day (ts_day ts), strptime_hour (ts_hour ts),
        strptime_minute (ts_minute ts), strptime_second (ts_second ts) with
  | Some m, Some d, Some hh, Some mm, Some ss => datetime (uni_value (ts_year ts)) m d hh mm ss us
  | _, _, _, _, _ => Raise (ValueError "time data does not match format")
  end.

(** ** parse_rfc3339 and normalize_rfc3339 *)

(** [(fraction or "")[:6].ljust(6, "0")] as an integer *)
Definition microsecond (fraction : list string) : Z :=
  let ds := map (fun g => default 0 (uni g)) (take 6 fraction) in
  digits_value (ds ++ replicate (6 - length ds) 0).

Definition zone_offset (z : zone) : res Z :=
  match z with
  | Zulu => Ok 0
  | Offset negative h m =>
      let hours := uni_value h in
      let minutes := uni_value m in
      _ ← raise_if ((23 <? hours) || (59 <? minutes)) (ValueError "invalid RFC3339 offset");
      let delta := (hours * 60 + minutes) * 60 * 1000000 in
      Ok (if negative then - delta else delta)
  end.

Definition parse_rfc3339 (value : string) : res Z :=
  match rfc3339 value with
  | None => Raise (ValueError "invalid RFC3339 timestamp")
  | Some ts =>
      offset ← zone_offset (ts_zone ts);
      parsed ← strptime ts (microsecond (ts_fraction ts));
      datetime_add parsed (- offset)                 (* astimezone(timezone.utc) *)
  end.

(** [isoformat(timespec="microseconds").replace("+00:00", "Z")] *)
Definition isoformat (t : Z) : string :=
  let '(y, m, d) := ord2ymd (t / DAY + 1) in
  let us := t mod DAY in
  padded 4 y +:+ "-" +:+ padded 2 m +:+ "-" +:+ padded 2 d +:+ "T" +:+
  padded 2 (us / 3600000000) +:+ ":" +:+ padded 2 (us / 60000000 mod 60) +:+ ":" +:+
  padded 2 (us / 1000000 mod 60) +:+ "." +:+ padded 6 (us mod 1000000) +:+ "Z".

Definition normalize_rfc3339 (value : string) : res string := isoformat <$> parse_rfc3339 value.

(** ** Decimal fields *)
Lemma uni_sing d : digit d -> uni (sing d) = Some d.
Proof. intros Hd. apply (digit_cases (fun d => uni (sing d) = Some d) d Hd). by repeat constructor. Qed.
Lemma re_digit_sing d : digit d -> re_digit (sing d) = true.
Proof. intros Hd. unfold re_digit. by rewrite uni_sing. Qed.

Lemma uni_value_sing ds : Forall digit ds -> uni_value (map sing ds) = digits_value ds.
Proof.
  intros Hd. unfold uni_value. rewrite map_map. f_equal. induction Hd as [|d ds Hd _ IH]; [done|].
  cbn [map]. by rewrite uni_sing, IH.
Qed.
Lemma take_digits_sing ds r : Forall digit ds -> take_digits (length ds) (map sing ds ++ r) = Some (map sing ds, r).
Proof.
  induction 1 as [|d ds Hd _ IH]; [done|]. cbn [length map app take_digits]. by rewrite re_digit_sing, IH.
Qed.
Lemma take_digits_pad w n r : take_digits w (map sing (pad w n) ++ r) = Some (map sing (pad w n), r).
Proof. rewrite <-(pad_length w n) at 1. apply take_digits_sing, pad_digits. Qed.
Lemma field_pad w n c r : field w c (map sing (pad w n) ++ String c EmptyString :: r) = Some (map sing (pad w n), r).
Proof. unfold field. rewrite take_digits_pad. unfold take_char, char_is. by rewrite String.eqb_refl. Qed.

(** [strptime] reads back what [isoformat] prints. *)
Definition reads (p : list string -> option Z) (n : Z) : bool := bool_decide (p (map sing (pad 2 n)) = Some n).
Lemma strptime_reads :
  (forall m, 1 <= m <= 12 -> strptime_month (map sing (pad 2 m)) = Some m) /\
  (forall d, 1 <= d <= 31 -> strptime_day (map sing (pad 2 d)) = Some d) /\
  (forall h, 0 <= h <= 23 -> strptime_hour (map sing (pad 2 h)) = Some h) /\
  (forall m, 0 <= m <= 59 -> strptime_minute (map sing (pad 2 m)) = Some m) /\
  (forall s, 0 <= s <= 59 -> strptime_second (map sing (pad 2 s)) = Some s).
Proof.
  assert (forall p lo n z, forallb (reads p) (seqZ lo n) = true -> lo <= z < lo + n -> p (map sing (pad 2 z)) = Some z) as Hr.
  { intros p lo n z Hp Hz. pose proof (range_check _ _ _ _ Hp Hz) as H. by apply bool_decide_eq_true in H. }
  split_and!; intros z Hz.
  - apply (Hr _ 1 12); [vm_compute; reflexivity|lia].
  - apply (Hr _ 1 31); [vm_compute; reflexivity|lia].
  - apply (Hr _ 0 24); [vm_compute; reflexivity|lia].
  - apply (Hr _ 0 60); [vm_compute; reflexivity|lia].
  - apply (Hr _ 0 60); [vm_compute; reflexivity|lia].
Qed.

(** ** The calendar *)
Definition month_day_ok (leap : bool) (n : Z) : bool :=
  let '(m, d) := month_day leap n in
  (1 <=? m) && (m <=? 12) && (1 <=? d) &&
  (d <=? (if (m =? 2) && leap then 29 else days_in_month_365 m)) &&
  (days_before_month_365 m + (if (2 <? m) && leap then 1 else 0) + d =? n + 1).
Lemma month_day_correct leap n : 0 <= n < 365 -> month_day_ok leap n = true.
Proof. intros Hn. apply (range_check _ 0 365); [|lia]. destruct leap; vm_compute; reflexivity. Qed.

Lemma ord2ymd_correct n y m d : 1 <= n <= 3652059 -> ord2ymd n = (y, m, d) ->
  1 <= y <= 9999 /\ 1 <= m <= 12 /\ 1 <= d <= days_in_month y m /\ ymd2ord y m d = n.
Proof.
  unfold ord2ymd. set (q := (n - 1) / 146097). set (r := (n - 1) mod 146097). set (c := r / 36524). set (s := r mod 36524).
  set (f := s / 1461). set (t := s mod 1461). set (a := t / 365). set (u := t mod 365). intros Hn.
  assert (n - 1 = 146097 * q + r /\ 0 <= r < 146097 /\ r = 36524 * c + s /\ 0 <= s < 36524 /\
    s = 1461 * f + t /\ 0 <= t < 1461 /\ t = 365 * a + u /\ 0 <= u < 365) as (H1 & H2 & H3 & H4 & H5 & H6 & H7 & H8).
  { subst q r c s f t a u. Z.to_euclidean_division_equations. lia. }
  clearbody q r c s f t a u.
  destruct ((a =? 4) || (c =? 4)) eqn:E.
  - intros [= <- <- <-]. assert (u = 0 /\ (a = 4 \/ (c = 4 /\ f = 0 /\ a = 0))) as [-> Hac] by lia.
    unfold ymd2ord, days_in_month, days_before_month, days_before_year, is_leap.
    change (days_in_month_365 12) with 31. change (days_before_month_365 12) with 334. change (12 =? 2) with false. change (2 <? 12) with true.
    cbn [andb]. split; [lia|]. split; [lia|]. split; [lia|].
    destruct Hac as [->|(-> & -> & ->)]; repeat case_match; Z.to_euclidean_division_equations; lia.
  - assert (0 <= a <= 3 /\ 0 <= c <= 3 /\ 0 <= f <= 24) as (Ha & Hc & Hf) by lia.
    assert (is_leap (q * 400 + 1 + c * 100 + f * 4 + a) = (a =? 3) && (negb (f =? 24) || (c =? 3))) as Hl.
    { unfold is_leap. clear -Ha Hc Hf. apply eq_true_iff_eq. rewrite !andb_true_iff, !orb_true_iff, !negb_true_iff, !Z.eqb_eq, !Z.eqb_neq.
      Z.to_euclidean_division_equations. lia. }
    pose proof (month_day_correct ((a =? 3) && (negb (f =? 24) || (c =? 3))) u H8) as Hm. unfold month_day_ok in Hm.
    rewrite <-Hl in *. destruct (month_day _ u) as [m' d']. intros [= <- <- <-].
    rewrite !andb_true_iff, !Z.leb_le, Z.eqb_eq in Hm. destruct Hm as ((((Hm1 & Hm2) & Hd1) & Hd2) & Hs).
    unfold days_in_month, ymd2ord, days_before_month. split; [lia|]. split; [lia|]. split; [lia|].
    enough (days_before_year (q * 400 + 1 + c * 100 + f * 4 + a) = 146097 * q + 36524 * c + 1461 * f + 365 * a) by lia.
    unfold days_before_year. clear -Ha Hc Hf. Z.to_euclidean_division_equations. lia.
Qed.

(** ** Reading back what is printed *)
Lemma padded_list w n : list_of_string (padded w n) = map digit_char (pad w n).
Proof. unfold padded, digits_str. apply list_of_string_of_list. Qed.
Lemma padded_ascii w n : is_ascii (padded w n) = true.
Proof. apply digits_str_ascii, pad_digits. Qed.
Lemma chars_isoformat t : let '(y, m, d) := ord2ymd (t / DAY + 1) in let us := t mod DAY in
  is_ascii (isoformat t) = true /\
  chars (isoformat t) =
    map sing (pad 4 y) ++ "-" :: map sing (pad 2 m) ++ "-" :: map sing (pad 2 d) ++ "T" ::
    map sing (pad 2 (us / 3600000000)) ++ ":" :: map sing (pad 2 (us / 60000000 mod 60)) ++ ":" ::
    map sing (pad 2 (us / 1000000 mod 60)) ++ "." :: map sing (pad 6 (us mod 1000000)) ++ ["Z"].
Proof.
  unfold isoformat. destruct (ord2ymd (t / DAY + 1)) as [[y m] d].
  set (us := t mod DAY). match goal with |- is_ascii ?s = true /\ _ => assert (is_ascii s = true) as Ha end.
  { unfold is_ascii. rewrite !str_forallb_app. fold (is_ascii (padded 4 y)). 
    repeat match goal with |- context [str_forallb is_ascii_byte (padded ?w ?n)] =>
      change (str_forallb is_ascii_byte (padded w n)) with (is_ascii (padded w n)) end. by rewrite !padded_ascii. }
  split; [done|]. rewrite chars_ascii by done. rewrite !list_of_string_app, !padded_list, !map_app, !map_map. reflexivity.
Qed.

Lemma instant_bounds t : 0 <= t < MAX_INSTANT -> 1 <= t / DAY + 1 <= 3652059 /\ 0 <= t mod DAY < DAY.
Proof. unfold MAX_INSTANT, DAY. intros Ht. Z.to_euclidean_division_equations. lia. Qed.

Lemma rfc3339_isoformat t y m d : 0 <= t < MAX_INSTANT -> ord2ymd (t / DAY + 1) = (y, m, d) ->
  let us := t mod DAY in
  rfc3339 (isoformat t) = Some (Timestamp (map sing (pad 4 y)) (map sing (pad 2 m)) (map sing (pad 2 d))
    (map sing (pad 2 (us / 3600000000))) (map sing (pad 2 (us / 60000000 mod 60))) (map sing (pad 2 (us / 1000000 mod 60)))
    (map sing (pad 6 (us mod 1000000))) Zulu).
Proof.
  intros Ht E us. pose proof (chars_isoformat t) as Hc. rewrite E in Hc. destruct Hc as [_ Hc]. unfold rfc3339. rewrite Hc.
  fold us. rewrite field_pad. cbn [mbind option_bind]. rewrite field_pad. cbn [mbind option_bind]. rewrite field_pad.
  cbn [mbind option_bind]. rewrite field_pad. cbn [mbind option_bind]. rewrite field_pad. cbn [mbind option_bind].
  rewrite take_digits_pad. cbn [mbind option_bind]. unfold scan_fraction_group. unfold take_char at 1. 
  change (char_is "." ".") with true. cbn iota.
  assert (forall ds r, Forall digit ds -> span_chars re_digit (map sing ds ++ "Z" :: r) = (map sing ds, "Z" :: r)) as Hs.
  { intros ds r. induction 1 as [|x ds Hx _ IH]; [reflexivity|]. cbn [map app span_chars]. by rewrite re_digit_sing, IH. }
  rewrite Hs by apply pad_digits. rewrite length_map, pad_length. reflexivity.
Qed.

Lemma parse_isoformat t : 0 <= t < MAX_INSTANT -> parse_rfc3339 (isoformat t) = Ok t.
Proof.
  intros Ht. destruct (ord2ymd (t / DAY + 1)) as [[y m] d] eqn:E. unfold parse_rfc3339.
  rewrite (rfc3339_isoformat t y m d Ht E). cbn [zone_offset ts_zone mbind res_bind ts_fraction].
  destruct (instant_bounds t Ht) as [Hd Hus]. destruct (ord2ymd_correct _ _ _ _ Hd E) as (Hy & Hm & Hday & Hord).
  set (us := t mod DAY) in *. unfold DAY in Hus.
  assert (0 <= us / 3600000000 <= 23 /\ 0 <= us / 60000000 mod 60 <= 59 /\ 0 <= us / 1000000 mod 60 <= 59 /\ 0 <= us mod 1000000 < 1000000 /\
    (us / 3600000000 * 60 + us / 60000000 mod 60) * 60 + us / 1000000 mod 60 = us / 1000000) as (Hh & Hmi & Hs & Hf & Hsum)
    by (Z.to_euclidean_division_equations; lia).
  assert (days_in_month y m <= 31) as H31.
  { unfold days_in_month. case_match; [lia|]. assert ((days_in_month_365 m <=? 31) = true) as Hdm; [|lia].
    apply (range_check (fun m => days_in_month_365 m <=? 31) 1 12); [reflexivity|lia]. }
  destruct strptime_reads as (R1 & R2 & R3 & R4 & R5). unfold strptime. cbn [ts_month ts_day ts_hour ts_minute ts_second ts_year].
  rewrite R1, R2, R3, R4, R5 by lia. rewrite uni_value_sing by apply pad_digits. rewrite pad_value by (cbn; lia).
  unfold microsecond. rewrite take_ge by (rewrite length_map, pad_length; lia). rewrite map_map.
  rewrite (map_ext_in _ id), map_id.
  2: { intros x Hx. rewrite uni_sing; [done|]. pose proof (pad_digits 6 (us mod 1000000)) as Hp. rewrite Forall_forall in Hp. by apply Hp, list_elem_of_In. }
  rewrite pad_length. cbn [Nat.sub replicate]. rewrite app_nil_r, pad_value by (cbn; lia).
  unfold datetime, MAXYEAR. repeat (rewrite (proj2 (require_Ok _ _ tt)) by lia; cbn [mbind res_bind]).
  unfold datetime_add. rewrite Hord, Hsum. replace (_ + - 0) with t.
  { by rewrite (proj2 (andb_true_iff _ _)) by lia. }
  unfold us, DAY in *. Z.to_euclidean_division_equations. lia.
Qed.

Lemma isoformat_length t : String.length (isoformat t) = 27%nat.
Proof.
  unfold isoformat. destruct (ord2ymd _) as [[y m] d]. rewrite <-length_list_of_string, !list_of_string_app, !length_app, !padded_list, !length_map, !pad_length.
  reflexivity.
Qed.

Lemma parse_rfc3339_range value t : parse_rfc3339 value = Ok t -> 0 <= t < MAX_INSTANT.
Proof.
  unfold parse_rfc3339. destruct (rfc3339 value) as [ts|]; [|done]. intros (o & _ & H)%bind_Ok. apply bind_Ok in H as (p & _ & H).
  unfold datetime_add in H. case_match eqn:E; [|done]. apply andb_true_iff in E as [E1 E2]. injection H as <-. lia.
Qed.
Definition is_time_error (e : exc) : bool := isinstance_ValueError e || bool_decide (e = OverflowError).
Lemma parse_rfc3339_raises value : raises is_time_error (parse_rfc3339 value).
Proof.
  unfold parse_rfc3339, zone_offset, strptime, datetime, datetime_add.
  destruct (rfc3339 value) as [ts|]; [|done]. apply raises_bind; [destruct (ts_zone ts); solve_raises|].
  intros o _. apply raises_bind; [repeat case_match; solve_raises|]. intros p _. by case_match.
Qed.

(** The normalization is canonical: its result is 27 ASCII characters that
    name the same instant, and normalizing it again changes nothing; a text
    that is no RFC 3339 timestamp, or names an instant outside the years 1 to
    9999, raises ValueError or OverflowError. *)
Theorem normalize_rfc3339_canonical value :
  match normalize_rfc3339 value with
  | Ok s => exists t, parse_rfc3339 value = Ok t /\ parse_rfc3339 s = Ok t /\ normalize_rfc3339 s = Ok s /\
      String.length s = 27%nat /\ is_ascii s = true
  | Raise e => isinstance_ValueError e = true \/ e = OverflowError
  end.
Proof.
  unfold normalize_rfc3339. destruct (parse_rfc3339 value) as [t|e] eqn:E; cbn.
  - pose proof (parse_isoformat t (parse_rfc3339_range _ _ E)) as Hp. pose proof (chars_isoformat t) as Hc.
    exists t. rewrite Hp. cbn. split_and!; try done; [apply isoformat_length|].
    by destruct (ord2ymd _) as [[? ?] ?], Hc as [? _].
  - assert (is_time_error e = true) as He by (eapply raises_Raise_inv; [apply parse_rfc3339_raises|exact E]). unfold is_time_error in He.
    apply orb_true_iff in He as [He|He%bool_decide_eq_true]; auto.
Qed.
