(* ===== verification/CosmosParsing.v ===== *)
(** * api/cosmos/parsing.py and transactions.py: reading node responses

    The strict parsers of status, block and node-info documents, and the
    normalization of a transaction search.  Documents are values of PyVal.v;
    the dataclasses of api/cosmos/models.py are records.  Every parser accepts
    a document or raises: MalformedUpstreamResponse for a document of another
    shape, RejectedEndpoint for another chain; what else can escape is part
    of the theorems. *)
From Stdlib Require Import ZArith NArith Lia Ascii String SpecFloat.
From stdpp Require Import base gmap sets list strings sorting.
From S2P Require Import Prelude PyStr PyVal Codec Scan Lines Digits Rfc3339.
Open Scope Z_scope.

Definition MAX_INT64 : Z := 9223372036854775807.

Section parsing.
Context `{PyRuntime}.

(** [str.isprintable] *)
Definition py_isprintable (s : string) : bool := forallb (fun g => is_printable_cp (code_point g)) (chars s).

Definition malformed {A} (msg : string) : res A := Raise (MalformedUpstreamResponse msg).

Definition mapping (value : val) : res (list (string * val)) :=
  match value with VDict d => Ok d | _ => malformed "upstream field is not an object" end.

Definition text_ok (maximum : Z) (s : string) : bool :=
  (1 <=? py_len s) && (py_len s <=? maximum) && String.eqb s (py_strip s) && py_isprintable s.
Definition text (value : val) (name : string) (maximum : Z) : res string :=
  match value with
  | VStr s => if text_ok maximum s then Ok s else malformed ("invalid " +:+ name)
  | _ => malformed ("invalid " +:+ name)
  end.

Definition height (value : val) : res Z :=
  match value with
  | VBool _ => malformed "invalid height"
  | VStr s =>
      if negb (is_ascii s) || negb (py_isdigit s) || (20 <? py_len s) then malformed "invalid height"
      else z ← py_int_str s; if (z <=? 0) || (MAX_INT64 <? z) then malformed "invalid height" else Ok z
  | VInt z => if (z <=? 0) || (MAX_INT64 <? z) then malformed "invalid height" else Ok z
  | _ => malformed "invalid height"
  end.

Definition timestamp_text (value : val) : res string :=
  s ← text value "timestamp" 64;
  match normalize_rfc3339 s with
  | Ok normalized => Ok normalized
  | Raise e => if is_time_error e then malformed "invalid timestamp" else Raise e
  end.

(** [_HEX.fullmatch] *)
Definition is_hex_char (g : string) : bool :=
  match list_of_string g with [a] => bool_decide (is_Some (hex_value a)) | _ => false end.
Definition hex (value : val) (name : string) (maximum : Z) : res string :=
  s ← text value name maximum;
  if negb (py_len s mod 2 =? 0) || negb (forallb is_hex_char (chars s)) then malformed ("invalid " +:+ name) else Ok (py_upper s).

Definition identity (actual : val) (expected : string) : res string :=
  chain_id ← text actual "runtime chain ID" 128;
  if negb (String.eqb chain_id expected) then Raise (RejectedEndpoint "wrong_chain") else Ok chain_id.

Record ChainHead := {
  ch_network_id : string; ch_chain_id : string; ch_latest_height : Z; ch_latest_block_time : string;
  ch_catching_up : bool; ch_source_host : string
}.
Record BlockSummary := {
  bs_network_id : string; bs_chain_id : string; bs_height : Z; bs_block_hash : string; bs_block_time : string;
  bs_proposer_address : string; bs_transaction_count : Z
}.
Record NodeStatus := {
  ns_network_id : string; ns_chain_id : string; ns_local_height : Z; ns_latest_block_time : string; ns_catching_up : bool;
  ns_tx_index : string; ns_node_version : option string; ns_application_name : option string;
  ns_application_version : option string; ns_sdk_version : option string; ns_cometbft_version : option string;
  ns_source_host : string
}.

Definition catching_up_flag (value : val) : res bool :=
  match value with VBool b => Ok b | _ => malformed "invalid catching-up status" end.

Definition parse_rpc_status (payload : val) (network_id expected_chain_id source_host : string) : res ChainHead :=
  root ← mapping payload;
  result ← mapping (dget root "result");
  sync ← mapping (dget result "sync_info");
  node_info ← mapping (dget result "node_info");
  chain_id ← identity (dget node_info "network") expected_chain_id;
  catching_up ← catching_up_flag (dget sync "catching_up");
  h ← height (dget sync "latest_block_height");
  time ← timestamp_text (dget sync "latest_block_time");
  Ok (Build_ChainHead network_id chain_id h time catching_up source_host).

Definition optional_text (value : val) (name : string) : res (option string) :=
  if py_in_tuple value [VNone; VStr ""] then Ok None else Some <$> text value name 256.

(** [value or {}], checked to be a dict *)
Definition optional_mapping (value : val) (msg : string) : res (list (string * val)) :=
  match por value (VDict []) with VDict d => Ok d | _ => malformed msg end.

Definition tx_index_of (raw_index : val) : res string :=
  on ← py_in_set raw_index [VStr "on"; VStr "kv"];
  off ← (if on then Ok false else py_in_set raw_index [VStr "off"; VStr "null"]);
  Ok (if (on : bool) then "on" else if (off : bool) then "off" else "unknown").

Definition parse_node_status (payload : val) (network_id expected_chain_id source_host : string) : res NodeStatus :=
  root ← mapping payload;
  result ← mapping (dget root "result");
  sync ← mapping (dget result "sync_info");
  info ← mapping (dget result "node_info");
  chain_id ← identity (dget info "network") expected_chain_id;
  catching_up ← catching_up_flag (dget sync "catching_up");
  other ← optional_mapping (dget info "other") "invalid node metadata";
  tx_index ← tx_index_of (dget other "tx_index");
  let version := dget info "version" in
  app ← optional_mapping (dget result "application_version") "invalid application version";
  h ← height (dget sync "latest_block_height");
  time ← timestamp_text (dget sync "latest_block_time");
  node_version ← optional_text version "node version";
  application_name ← optional_text (dget app "name") "application name";
  application_version ← optional_text (dget app "version") "application version";
  sdk_version ← optional_text (dget app "cosmos_sdk_version") "SDK version";
  cometbft_version ← optional_text (por (dget app "comet_version") version) "CometBFT version";
  Ok (Build_NodeStatus network_id chain_id h time catching_up tx_index node_version application_name application_version
        sdk_version cometbft_version source_host).

Record NodeVersions := { nv_application_name : option string; nv_application_version : option string; nv_sdk_version : option string }.
Definition parse_rest_node_info (payload : val) (expected_chain_id : string) : res NodeVersions :=
  root ← mapping payload;
  default_info ← mapping (dget root "default_node_info");
  _ ← identity (dget default_info "network") expected_chain_id;
  app ← mapping (dget root "application_version");
  name ← optional_text (dget app "name") "application name";
  version ← optional_text (dget app "version") "application version";
  sdk ← optional_text (dget app "cosmos_sdk_version") "SDK version";
  Ok (Build_NodeVersions name version sdk).

Definition rest_block (payload : val) : res (list (string * val) * list (string * val)) :=
  root ← mapping payload;
  block ← mapping (dget root "block");
  header ← mapping (dget block "header");
  Ok (block, header).

Definition parse_rest_head (payload : val) (network_id expected_chain_id source_host : string) : res ChainHead :=
  bh ← rest_block payload;
  let header := bh.2 in
  chain_id ← identity (dget header "chain_id") expected_chain_id;
  h ← height (dget header "height");
  time ← timestamp_text (dget header "time");
  Ok (Build_ChainHead network_id chain_id h time false source_host).

Definition transaction_list (data : list (string * val)) : res (list val) :=
  match dget data "txs" with
  | VNone => Ok []
  | VList txs => if 1000000 <? Z.of_nat (length txs) then malformed "invalid transaction list" else Ok txs
  | _ => malformed "invalid transaction list"
  end.

(** What the two block parsers share: [holder] has the block_id. *)
Definition block_summary (holder block header : list (string * val)) (network_id expected_chain_id : string) : res BlockSummary :=
  chain_id ← identity (dget header "chain_id") expected_chain_id;
  data ← mapping (dget block "data");
  txs ← transaction_list data;
  h ← height (dget header "height");
  block_id ← mapping (dget holder "block_id");
  hash ← hex (dget block_id "hash") "block hash" 128;
  time ← timestamp_text (dget header "time");
  proposer ← hex (dget header "proposer_address") "proposer address" 128;
  Ok (Build_BlockSummary network_id chain_id h hash time proposer (Z.of_nat (length txs))).

Definition parse_rest_block (payload : val) (network_id expected_chain_id : string) : res BlockSummary :=
  root ← mapping payload;
  bh ← rest_block payload;
  block_summary root bh.1 bh.2 network_id expected_chain_id.

Definition parse_rpc_block (payload : val) (network_id expected_chain_id : string) : res BlockSummary :=
  root ← mapping payload;
  result ← mapping (dget root "result");
  block ← mapping (dget result "block");
  header ← mapping (dget block "header");
  block_summary result block header network_id expected_chain_id.

(** ** transactions.py *)
Definition MAX_TXS : Z := 20.
Definition ACTIONS : list (string * string) :=
  [("/cosmos.bank.v1beta1.MsgSend", "Send"); ("/cosmos.staking.v1beta1.MsgDelegate", "Delegate");
   ("/cosmos.staking.v1beta1.MsgUndelegate", "Undelegate"); ("/cosmos.staking.v1beta1.MsgBeginRedelegate", "Redelegate");
   ("/cosmos.distribution.v1beta1.MsgWithdrawDelegatorReward", "Withdraw reward"); ("/cosmos.gov.v1beta1.MsgVote", "Vote");
   ("/ibc.applications.transfer.v1.MsgTransfer", "IBC transfer")].

(** [_HASH.fullmatch(s)] *)
Definition hash64 (s : string) : bool := (py_len s =? 64) && forallb is_hex_char (chars s).

Definition uint (value : val) (name : string) : res Z :=
  match value with
  | VBool _ => malformed ("invalid " +:+ name)
  | VStr s =>
      if negb (py_isdigit s) then malformed ("invalid " +:+ name)
      else z ← py_int_str s; if (z <? 0) || (MAX_INT64 <? z) then malformed ("invalid " +:+ name) else Ok z
  | VInt z =>
      s ← py_str_int z;
      if negb (py_isdigit s) then malformed ("invalid " +:+ name)
      else if (z <? 0) || (MAX_INT64 <? z) then malformed ("invalid " +:+ name) else Ok z
  | _ => malformed ("invalid " +:+ name)
  end.

Definition message_type (message : val) : res string :=
  match message with
  | VDict d =>
      match dget d "@type" with
      | VStr s => if negb (startswith "/" s) || (256 <? py_len s) then malformed "invalid transaction message type" else Ok s
      | _ => malformed "invalid transaction message type"
      end
  | _ => malformed "invalid transaction message"
  end.

Record transaction_row := {
  tr_tx_hash : string; tr_height : Z; tr_timestamp : string; tr_success : bool; tr_code : Z;
  tr_gas_wanted : Z; tr_gas_used : Z; tr_fee_amount : val; tr_fee_denom : val; tr_memo : option string;
  tr_message_count : Z; tr_primary_message_type : option string; tr_primary_action : string; tr_sender : option string
}.

(** [amounts[0] if ... else None], then [coin.get(...) if coin else None] *)
Definition fee_coin (auth : list (string * val)) : val * val :=
  let amounts := match dget auth "fee" with VDict fee => default (VList []) (dict_get "amount" fee) | _ => VList [] end in
  let '(amount, denom) :=
    match amounts with
    | VList [VDict ((_ :: _) as coin)] => (dget coin "amount", dget coin "denom")
    | _ => (VNone, VNone)
    end in
  match amount with
  | VNone => (amount, denom)
  | VStr s => if py_isdigit s then (amount, denom) else (VNone, VNone)
  | _ => (VNone, VNone)
  end.

(** The first text under one of the sender keys, message by message. *)
Definition sender_of (messages : list val) : option string :=
  let candidates := flat_map (fun m => match m with
    | VDict d => map (dget d) ["from_address"; "delegator_address"; "sender"; "voter"]
    | _ => [] end) messages in
  head (omap as_str candidates).

Definition removeprefix (p s : string) : string :=
  if startswith p s then String.substring (String.length p) (String.length s - String.length p) s else s.
Definition primary_action (primary : option string) : string :=
  match primary with
  | None => "Unknown"
  | Some t => default (removeprefix "Msg" (py_rsplit_last "." t)) (dict_get t ACTIONS)
  end.

Definition get_default (d : list (string * val)) (k : string) (x : val) : val := default x (dict_get k d).

Definition memo_of (body : list (string * val)) : option string :=
  match dget body "memo" with VStr s => if py_len s <=? 1024 then Some s else None | _ => None end.

Definition normalize_row (tx response : val) : res transaction_row :=
  match tx, response with
  | VDict tx, VDict response =>
      hash ← match por (dget response "txhash") (VStr "") with
             | VStr s => if hash64 s then Ok s else malformed "invalid transaction identity"
             | _ => Raise TypeError                       (* re.fullmatch *)
             end;
      time ← match dget response "timestamp" with
             | VStr s => if 64 <? py_len s then malformed "invalid transaction identity" else Ok s
             | _ => malformed "invalid transaction identity"
             end;
      match dget tx "body", dget tx "auth_info" with
      | VDict body, VDict auth =>
          match dget body "messages" with
          | VList messages =>
              types ← mapM_res message_type messages;
              let '(fee_amount, fee_denom) := fee_coin auth in
              h ← uint (dget response "height") "height";
              code ← uint (get_default response "code" (VInt 0)) "code";
              gas_wanted ← uint (dget response "gas_wanted") "gas wanted";
              gas_used ← uint (dget response "gas_used") "gas used";
              Ok (Build_transaction_row (py_upper hash) h time (code =? 0) code gas_wanted gas_used fee_amount fee_denom
                    (memo_of body) (Z.of_nat (length types)) (head types) (primary_action (head types)) (sender_of messages))
          | _ => malformed "invalid decoded transaction"
          end
      | _, _ => malformed "invalid decoded transaction"
      end
  | _, _ => malformed "invalid transaction"
  end.

Definition search_total (payload : list (string * val)) : res (option Z) :=
  let legacy_total := match dget payload "pagination" with VDict p => dget p "total" | _ => VNone end in
  let modern_total := dget payload "total" in
  match is_None modern_total, is_None legacy_total with
  | false, false =>
      modern ← uint modern_total "transaction total";
      legacy ← uint legacy_total "pagination total";
      if negb (modern =? legacy) then malformed "conflicting transaction totals" else Ok (Some modern)
  | false, true => Some <$> uint modern_total "transaction total"
  | true, false => Some <$> uint legacy_total "pagination total"
  | true, true => Ok None
  end.

Definition normalize_transactions (payload : val) (limit : Z) : res (list transaction_row * option Z) :=
  match payload with
  | VDict payload =>
      if negb ((1 <=? limit) && (limit <=? MAX_TXS)) then malformed "invalid transaction response"
      else
        match dget payload "txs", dget payload "tx_responses" with
        | VList txs, VList responses =>
            if negb (length txs =? length responses)%nat || (limit <? Z.of_nat (length txs)) then malformed "invalid transaction result"
            else
              rows ← mapM_res (fun p => normalize_row p.1 p.2) (zip txs responses);
              total ← search_total payload;
              Ok (rows, total)
        | _, _ => malformed "invalid transaction result"
        end
  | _ => malformed "invalid transaction response"
  end.
End parsing.

(** ** What the field readers accept and raise *)
Definition is_malformed (e : exc) : bool := match e with MalformedUpstreamResponse _ => true | _ => false end.
Definition is_rejection (e : exc) : bool :=
  match e with MalformedUpstreamResponse _ | RejectedEndpoint _ => true | _ => false end.

Section parsing_proofs.
Context `{PyRuntime}.

Lemma malformed_raises {A} msg : raises is_malformed (malformed (A:=A) msg).
Proof. done. Qed.
Lemma malformed_rejection e : is_malformed e = true -> is_rejection e = true.
Proof. by destruct e. Qed.

Lemma mapping_raises v : raises is_malformed (mapping v).
Proof. by destruct v. Qed.
Lemma mapping_Ok v d : mapping v = Ok d -> v = VDict d.
Proof. by destruct v; intros [= ->]. Qed.

Lemma bounded_text_Ok v name maximum s : text v name maximum = Ok s -> v = VStr s /\ text_ok maximum s = true.
Proof. destruct v; try done. cbn. case_match eqn:E; [|done]. by intros [= <-]. Qed.
Lemma bounded_text_raises v name maximum : raises is_malformed (text v name maximum).
Proof. destruct v; try done. cbn. by case_match. Qed.
Lemma text_length v name maximum s : text v name maximum = Ok s -> 1 <= py_len s <= maximum.
Proof. intros [_ Ht]%bounded_text_Ok. unfold text_ok in Ht. rewrite !andb_true_iff, !Z.leb_le in Ht. tauto. Qed.

Lemma height_Ok v z : height v = Ok z -> 1 <= z <= MAX_INT64.
Proof.
  assert (forall z', (if (z' <=? 0) || (MAX_INT64 <? z') then malformed "invalid height" else Ok z') = Ok z -> 1 <= z <= MAX_INT64) as Hr.
  { intros z'. case_match eqn:E; [done|]. intros [= <-]. apply orb_false_iff in E. lia. }
  destruct v as [| |z'| |s| |]; try done; cbn; [apply Hr|]. case_match; [done|]. intros (z' & _ & Hz)%bind_Ok. by eapply Hr.
Qed.
Lemma height_raises v : raises is_malformed (height v).
Proof.
  destruct v as [| |z| |s| |]; try done; cbn; [by case_match|].
  case_match eqn:E; [done|]. rewrite !orb_false_iff, !negb_false_iff, Z.ltb_ge in E. destruct E as [[Ha Hd] Hl].
  destruct (ascii_isdigit_int s Ha Hd) as (z & -> & _); [unfold MAX_STR_DIGITS; lia|]. cbn. by case_match.
Qed.

Definition is_time (s : string) : Prop := exists t, 0 <= t < MAX_INSTANT /\ s = isoformat t.
Lemma timestamp_Ok v s : timestamp_text v = Ok s -> is_time s.
Proof.
  unfold timestamp_text, normalize_rfc3339. intros (x & _ & Hs)%bind_Ok. destruct (parse_rfc3339 x) as [t|e] eqn:E; cbn in Hs; [|by case_match].
  injection Hs as <-. exists t. split; [by eapply parse_rfc3339_range|done].
Qed.
Lemma timestamp_raises v : raises is_malformed (timestamp_text v).
Proof.
  unfold timestamp_text, normalize_rfc3339. apply raises_bind; [apply bounded_text_raises|]. intros x _.
  destruct (parse_rfc3339 x) as [t|e] eqn:E; [done|]. cbn.
  assert (is_time_error e = true) as -> by (eapply raises_Raise_inv; [apply parse_rfc3339_raises|exact E]). done.
Qed.

(** Upper-case hexadecimal text *)
Definition is_upper_hex_text (s : string) : Prop := str_forallb is_upper_hex s = true.
Lemma hex_value_upper a : is_Some (hex_value a) -> is_ascii_byte a = true /\ is_upper_hex (ascii_upper a) = true.
Proof.
  assert (forallb (fun a => negb (bool_decide (is_Some (hex_value a))) || (is_ascii_byte a && is_upper_hex (ascii_upper a)))
    (map Z_byte (seqZ 0 256)) = true) as Hall by (vm_compute; reflexivity).
  rewrite forallb_forall in Hall. intros Ha. specialize (Hall a). rewrite bool_decide_eq_true_2 in Hall by done.
  apply andb_true_iff, Hall. rewrite in_map_iff. exists (byte_Z a). split; [apply Z_byte_Z|].
  apply list_elem_of_In, elem_of_seqZ. pose proof (byte_Z_range a). lia.
Qed.
Lemma hex_chars s : forallb is_hex_char (chars s) = true -> is_ascii s = true /\ is_upper_hex_text (str_map ascii_upper s) /\
  py_len s = Z.of_nat (String.length s).
Proof.
  intros Hc. assert (is_ascii s = true /\ is_upper_hex_text (str_map ascii_upper s)) as [Ha Hu].
  { rewrite <-(str_concat_chars s). revert Hc. generalize (chars s) as l. induction l as [|g l IH]; [done|].
    cbn [forallb]. intros [Hg Hl]%andb_true_iff. destruct (IH Hl) as [Ha Hu]. unfold is_hex_char in Hg.
    destruct g as [|a [|b g]]; [done| |by destruct g]. cbn in Hg. apply bool_decide_eq_true, hex_value_upper in Hg as [Hg1 Hg2].
    unfold is_ascii, is_upper_hex_text in *. cbn. by rewrite Hg1, Hg2, Ha, Hu. }
  split; [done|]. split; [done|]. by apply py_len_ascii.
Qed.
Lemma py_upper_ascii s : is_ascii s = true -> py_upper s = str_map ascii_upper s.
Proof. unfold py_upper. by intros ->. Qed.

Lemma hex_Ok v name maximum s : hex v name maximum = Ok s ->
  is_upper_hex_text s /\ 1 <= Z.of_nat (String.length s) <= maximum /\ Z.of_nat (String.length s) mod 2 = 0.
Proof.
  unfold hex. intros (x & Hx & Hs)%bind_Ok. pose proof (text_length _ _ _ _ Hx) as Hl. case_match eqn:E; [done|].
  injection Hs as <-. rewrite orb_false_iff, !negb_false_iff, Z.eqb_eq in E. destruct E as [Hm Hc].
  destruct (hex_chars x Hc) as (Ha & Hu & Hlen). rewrite py_upper_ascii by done. rewrite str_map_length, <-Hlen. done.
Qed.
Lemma hex_raises v name maximum : raises is_malformed (hex v name maximum).
Proof. unfold hex. apply raises_bind; [apply bounded_text_raises|]. intros x _. by case_match. Qed.

Lemma identity_Ok v expected s : identity v expected = Ok s -> s = expected.
Proof. unfold identity. intros (x & _ & Hs)%bind_Ok. case_match eqn:E; [done|]. injection Hs as <-. apply negb_false_iff, String.eqb_eq in E. done. Qed.
Lemma identity_raises v expected : raises is_rejection (identity v expected).
Proof.
  unfold identity. apply raises_bind; [eapply raises_impl; [apply malformed_rejection|apply bounded_text_raises]|]. intros x _. by case_match.
Qed.

(** [hint] versions for the class of rejections *)
Lemma rejection_of_malformed {A} (m : res A) : raises is_malformed m -> raises is_rejection m.
Proof. apply raises_impl, malformed_rejection. Qed.
#[local] Hint Resolve mapping_raises bounded_text_raises height_raises timestamp_raises hex_raises malformed_raises : raises.
#[local] Hint Extern 3 (raises is_rejection _) => apply rejection_of_malformed : raises.
#[local] Hint Resolve identity_raises : raises.

Lemma transaction_list_Ok data txs : transaction_list data = Ok txs -> 0 <= Z.of_nat (length txs) <= 1000000.
Proof.
  unfold transaction_list. destruct (dget data "txs"); try done; [intros [= <-]; cbn; lia|]. case_match eqn:E; [done|].
  intros [= <-]. lia.
Qed.
Lemma transaction_list_raises data : raises is_rejection (transaction_list data).
Proof. unfold transaction_list. destruct (dget data "txs"); try done. by case_match. Qed.
#[local] Hint Resolve transaction_list_raises : raises.

(** A block summary fit to be shown. *)
Record block_ok (network_id chain_id : string) (b : BlockSummary) : Prop := {
  bo_network : bs_network_id b = network_id;
  bo_chain : bs_chain_id b = chain_id;
  bo_height : 1 <= bs_height b <= MAX_INT64;
  bo_hash : is_upper_hex_text (bs_block_hash b) /\ 1 <= Z.of_nat (String.length (bs_block_hash b)) <= 128;
  bo_time : is_time (bs_block_time b);
  bo_proposer : is_upper_hex_text (bs_proposer_address b) /\ 1 <= Z.of_nat (String.length (bs_proposer_address b)) <= 128;
  bo_count : 0 <= bs_transaction_count b <= 1000000
}.
Definition block_result (network_id chain_id : string) (r : res BlockSummary) : Prop :=
  match r with Ok b => block_ok network_id chain_id b | Raise e => is_rejection e = true end.

Lemma block_summary_sound holder block header network_id chain_id :
  block_result network_id chain_id (block_summary holder block header network_id chain_id).
Proof.
  destruct (block_summary _ _ _ _ _) as [b|e] eqn:E; cbn.
  - unfold block_summary in E. apply bind_Ok in E as (c & Hc%identity_Ok & E). apply bind_Ok in E as (data & _ & E).
    apply bind_Ok in E as (txs & Ht%transaction_list_Ok & E). apply bind_Ok in E as (h & Hh%height_Ok & E).
    apply bind_Ok in E as (bid & _ & E). apply bind_Ok in E as (hash & Hx%hex_Ok & E). apply bind_Ok in E as (t & Htime%timestamp_Ok & E).
    apply bind_Ok in E as (p & Hp%hex_Ok & E). injection E as <-. split; cbn; tauto.
  - eapply raises_Raise_inv; [|exact E]. unfold block_summary. solve_raises.
Qed.

(** Both block parsers are sound: an accepted document names the expected
    chain, a positive 64-bit height, canonical upper-case hexadecimal hashes
    of at most 128 characters, a canonical timestamp and at most a million
    transactions; every other document is refused with
    MalformedUpstreamResponse or RejectedEndpoint, never with anything else. *)
Theorem parse_block_sound payload network_id chain_id :
  block_result network_id chain_id (parse_rpc_block payload network_id chain_id) /\
  block_result network_id chain_id (parse_rest_block payload network_id chain_id).
Proof.
  split.
  - unfold parse_rpc_block. destruct payload as [| | | | | |root]; try done. cbn [mapping mbind res_bind].
    destruct (dget root "result") as [| | | | | |result]; try done. cbn [mapping mbind res_bind].
    destruct (dget result "block") as [| | | | | |block]; try done. cbn [mapping mbind res_bind].
    destruct (dget block "header") as [| | | | | |header]; try done. apply block_summary_sound.
  - unfold parse_rest_block, rest_block. destruct payload as [| | | | | |root]; try done. cbn [mapping mbind res_bind].
    destruct (dget root "block") as [| | | | | |block]; try done. cbn [mapping mbind res_bind].
    destruct (dget block "header") as [| | | | | |header]; try done. apply block_summary_sound.
Qed.

(** ** Status documents *)
Lemma parse_rpc_status_Ok payload network_id chain_id host head :
  parse_rpc_status payload network_id chain_id host = Ok head ->
  ch_network_id head = network_id /\ ch_chain_id head = chain_id /\ 1 <= ch_latest_height head <= MAX_INT64 /\
  is_time (ch_latest_block_time head) /\ ch_source_host head = host.
Proof.
  unfold parse_rpc_status. intros E. apply bind_Ok in E as (r & _ & E). apply bind_Ok in E as (r2 & _ & E).
  apply bind_Ok in E as (sync & _ & E). apply bind_Ok in E as (info & _ & E). apply bind_Ok in E as (c & ->%identity_Ok & E).
  apply bind_Ok in E as (b & _ & E). apply bind_Ok in E as (h & Hh%height_Ok & E). apply bind_Ok in E as (t & Ht%timestamp_Ok & E).
  by injection E as <-.
Qed.
Lemma parse_rest_head_Ok payload network_id chain_id host head :
  parse_rest_head payload network_id chain_id host = Ok head ->
  ch_chain_id head = chain_id /\ 1 <= ch_latest_height head <= MAX_INT64.
Proof.
  unfold parse_rest_head. intros E. apply bind_Ok in E as (bh & _ & E). apply bind_Ok in E as (c & ->%identity_Ok & E).
  apply bind_Ok in E as (h & Hh%height_Ok & E). apply bind_Ok in E as (t & _ & E). by injection E as <-.
Qed.
Lemma parse_node_status_Ok payload network_id chain_id host status :
  parse_node_status payload network_id chain_id host = Ok status ->
  ns_network_id status = network_id /\ ns_chain_id status = chain_id /\ 1 <= ns_local_height status <= MAX_INT64 /\
  is_time (ns_latest_block_time status) /\ ns_source_host status = host.
Proof.
  unfold parse_node_status. intros E. apply bind_Ok in E as (r & _ & E). apply bind_Ok in E as (r2 & _ & E).
  apply bind_Ok in E as (sync & _ & E). apply bind_Ok in E as (info & _ & E). apply bind_Ok in E as (c & ->%identity_Ok & E).
  apply bind_Ok in E as (b & _ & E). apply bind_Ok in E as (other & _ & E). apply bind_Ok in E as (ti & _ & E).
  apply bind_Ok in E as (app & _ & E). apply bind_Ok in E as (h & Hh%height_Ok & E). apply bind_Ok in E as (t & Ht%timestamp_Ok & E).
  apply bind_Ok in E as (? & _ & E). apply bind_Ok in E as (? & _ & E). apply bind_Ok in E as (? & _ & E).
  apply bind_Ok in E as (? & _ & E). apply bind_Ok in E as (? & _ & E). by injection E as <-.
Qed.

(** ** Transaction searches *)
Definition in_int64 (z : Z) : Prop := 0 <= z <= MAX_INT64.
Lemma uint_Ok v name z : uint v name = Ok z -> in_int64 z.
Proof.
  assert (forall z', (if (z' <? 0) || (MAX_INT64 <? z') then malformed ("invalid " +:+ name) else Ok z') = Ok z -> in_int64 z) as Hr.
  { intros z'. case_match eqn:E; [done|]. intros [= <-]. apply orb_false_iff in E. unfold in_int64. lia. }
  destruct v as [| |z'| |s| |]; try done; cbn.
  - intros (s & _ & E)%bind_Ok. case_match; [done|]. by eapply Hr.
  - case_match; [done|]. intros (z' & _ & Hz)%bind_Ok. by eapply Hr.
Qed.
(** What a search may raise: a superscript digit passes [isdigit] and fails in
    [int], and a hash that is no text fails in [re.fullmatch]. *)
Definition is_search_error (e : exc) : bool := is_malformed e || isinstance_ValueError e || isinstance_TypeError e.
Lemma search_of_malformed {A} (m : res A) : raises is_malformed m -> raises is_search_error m.
Proof. apply raises_impl. unfold is_search_error. by intros e ->. Qed.
Lemma search_of_value_error {A} (m : res A) : raises isinstance_ValueError m -> raises is_search_error m.
Proof. apply raises_impl. unfold is_search_error. intros e ->. by destruct (is_malformed e). Qed.
Lemma uint_raises v name : raises is_search_error (uint v name).
Proof.
  destruct v as [| |z| |s| |]; try done; cbn.
  - apply raises_bind; [apply search_of_value_error, py_str_int_raises|]. intros; repeat case_match; done.
  - case_match; [done|]. apply raises_bind; [apply search_of_value_error, py_int_str_raises|]. intros; by case_match.
Qed.
Lemma message_type_Ok m t : message_type m = Ok t -> startswith "/" t = true /\ py_len t <= 256.
Proof.
  destruct m; try done. cbn. destruct (dget d "@type"); try done. case_match eqn:E; [done|]. intros [= <-].
  apply orb_false_iff in E as [E1%negb_false_iff E2%Z.ltb_ge]. done.
Qed.
Lemma message_type_raises m : raises is_search_error (message_type m).
Proof. destruct m; try done. cbn. destruct (dget d "@type"); try done. by case_match. Qed.

Record row_ok (r : transaction_row) : Prop := {
  ro_hash : is_upper_hex_text (tr_tx_hash r) /\ String.length (tr_tx_hash r) = 64%nat;
  ro_height : in_int64 (tr_height r);
  ro_code : in_int64 (tr_code r) /\ tr_success r = (tr_code r =? 0);
  ro_gas : in_int64 (tr_gas_wanted r) /\ in_int64 (tr_gas_used r);
  ro_type : forall t, tr_primary_message_type r = Some t -> startswith "/" t = true /\ py_len t <= 256;
  ro_count : 0 <= tr_message_count r /\ (tr_message_count r = 0 <-> tr_primary_message_type r = None);
  ro_timestamp : py_len (tr_timestamp r) <= 64;
  ro_memo : forall m, tr_memo r = Some m -> py_len m <= 1024;
  ro_fee : tr_fee_amount r = VNone \/ exists s, tr_fee_amount r = VStr s /\ py_isdigit s = true
}.

Lemma memo_of_bound body m : memo_of body = Some m -> py_len m <= 1024.
Proof. unfold memo_of. destruct (dget body "memo"); try done. case_match eqn:E; [|done]. intros [= <-]. lia. Qed.
Lemma fee_coin_amount auth : (fee_coin auth).1 = VNone \/ exists s, (fee_coin auth).1 = VStr s /\ py_isdigit s = true.
Proof.
  unfold fee_coin. destruct (match match dget auth "fee" with VDict _ => _ | _ => _ end with VList _ => _ | _ => _ end) as [amount denom].
  destruct amount; cbn; auto. case_match eqn:E; cbn; eauto.
Qed.
Lemma hash64_upper s : hash64 s = true -> is_upper_hex_text (py_upper s) /\ String.length (py_upper s) = 64%nat.
Proof.
  unfold hash64. intros [Hl%Z.eqb_eq Hc]%andb_true_iff. destruct (hex_chars s Hc) as (Ha & Hu & Hlen).
  rewrite py_upper_ascii, str_map_length by done. split; [done|lia].
Qed.

Lemma normalize_row_Ok tx response r : normalize_row tx response = Ok r -> row_ok r.
Proof.
  destruct tx as [| | | | | |tx], response as [| | | | | |resp]; try done. unfold normalize_row.
  intros E. apply bind_Ok in E as (hash & Hh & E). apply bind_Ok in E as (time & Ht & E).
  destruct (dget tx "body") as [| | | | | |body]; try done. destruct (dget tx "auth_info") as [| | | | | |auth]; try done.
  destruct (dget body "messages") as [| | | | |messages|]; try done.
  apply bind_Ok in E as (types & Hty%mapM_res_Forall2 & E). pose proof (fee_coin_amount auth) as Hf. destruct (fee_coin auth) as [fa fd].
  apply bind_Ok in E as (h & Hhe%uint_Ok & E). apply bind_Ok in E as (code & Hcode%uint_Ok & E).
  apply bind_Ok in E as (gw & Hgw%uint_Ok & E). apply bind_Ok in E as (gu & Hgu%uint_Ok & E). injection E as <-.
  split; cbn -[py_len]; try done.
  - apply hash64_upper. clear -Hh. destruct (por _ _); try done. case_match eqn:E; [|done]. by injection Hh as <-.
  - intros t Hhead. destruct types as [|t' types]; [done|]. injection Hhead as ->.
    apply Forall2_cons_inv_r in Hty as (m & ms & Hm & _ & _). by eapply message_type_Ok.
  - destruct types; cbn; split; try lia; split; done || lia.
  - clear -Ht. destruct (dget resp "timestamp"); try done. case_match eqn:E; [done|]. injection Ht as <-. lia.
  - apply memo_of_bound.
Qed.

Lemma normalize_row_raises tx response : raises is_search_error (normalize_row tx response).
Proof.
  destruct tx as [| | | | | |tx], response as [| | | | | |resp]; try done. unfold normalize_row.
  apply raises_bind; [repeat case_match; done|]. intros hash _. apply raises_bind; [repeat case_match; done|]. intros time _.
  destruct (dget tx "body") as [| | | | | |body]; try done. destruct (dget tx "auth_info") as [| | | | | |auth]; try done.
  destruct (dget body "messages") as [| | | | |messages|]; try done.
  apply raises_bind; [apply raises_mapM; intros; apply message_type_raises|]. intros types _. destruct (fee_coin auth) as [fa fd].
  repeat (apply raises_bind; [apply uint_raises|]; intros ? _). done.
Qed.

Lemma search_total_Ok payload total : search_total payload = Ok (Some total) -> in_int64 total.
Proof.
  unfold search_total. destruct (is_None (dget payload "total")), (is_None _); try done.
  1, 2: by intros (m & Hm%uint_Ok & [= ->])%fmap_Ok.
  intros (m & Hm%uint_Ok & E)%bind_Ok. apply bind_Ok in E as (l & _ & E). case_match; [done|]. by injection E as <-.
Qed.
Lemma search_total_raises payload : raises is_search_error (search_total payload).
Proof.
  unfold search_total. destruct (is_None (dget payload "total")), (is_None _); try done; try (apply raises_fmap, uint_raises).
  apply raises_bind; [apply uint_raises|]. intros ? _. apply raises_bind; [apply uint_raises|]. intros ? _. by case_match.
Qed.

(** A transaction search is normalized row by row or refused: an accepted
    answer has as many rows as transactions, at most [limit] and at most 20,
    each with an upper-case 64-digit hash, 64-bit height, code and gas, a
    success flag that says the code is zero, bounded texts, and a total in
    range; a refused one raises MalformedUpstreamResponse, or the TypeError or
    ValueError that two of the checks let through. *)
Theorem normalize_transactions_ok payload limit :
  match normalize_transactions payload limit with
  | Ok (rows, total) =>
      Z.of_nat (length rows) <= limit /\ limit <= 20 /\ Forall row_ok rows /\ (forall n, total = Some n -> in_int64 n) /\
      exists d txs, payload = VDict d /\ dget d "txs" = VList txs /\ length rows = length txs
  | Raise e => is_search_error e = true
  end.
Proof.
  destruct (normalize_transactions payload limit) as [[rows total]|e] eqn:E.
  - unfold normalize_transactions in E. destruct payload as [| | | | | |d]; try done. case_match eqn:Hl; [done|].
    destruct (dget d "txs") as [| | | | |txs|] eqn:Etx; try done. destruct (dget d "tx_responses") as [| | | | |responses|]; try done.
    case_match eqn:Hn; [done|]. apply orb_false_iff in Hn as [Hn%negb_false_iff%Nat.eqb_eq Hn2%Z.ltb_ge].
    apply bind_Ok in E as (rows' & Hr & E). apply bind_Ok in E as (total' & Ht & E). injection E as -> ->.
    pose proof (mapM_res_length _ _ _ Hr) as Hlen. rewrite length_zip_with in Hlen. apply negb_false_iff, andb_true_iff in Hl. unfold MAX_TXS in Hl.
    split; [lia|]. split; [lia|]. split; [|split].
    + apply mapM_res_Forall2 in Hr. clear -Hr. induction Hr as [|p r l k Hp _ IH]; constructor; [by eapply normalize_row_Ok|done].
    + intros n ->. by eapply search_total_Ok.
    + exists d, txs. split; [done|]. split; [done|lia].
  - eapply raises_Raise_inv; [|exact E]. unfold normalize_transactions. destruct payload as [| | | | | |d]; try done.
    case_match; [done|]. destruct (dget d "txs"); try done. destruct (dget d "tx_responses"); try done. case_match; [done|].
    apply raises_bind; [apply raises_mapM; intros; apply normalize_row_raises|]. intros ? _.
    apply raises_bind; [apply search_total_raises|done].
Qed.

(** The two kinds of answer that escape the failover, which only expects
    MalformedUpstreamResponse. *)
Example numeric_hash_escapes : normalize_transactions
  (VDict [("txs", VList [VDict [("body", VNone)]]); ("tx_responses", VList [VDict [("txhash", VInt 5)]])]) 20 = Raise TypeError.
Proof. vm_compute. reflexivity. Qed.
Example superscript_total_escapes : normalize_transactions
  (VDict [("txs", VList []); ("tx_responses", VList []); ("total", VStr "²")]) 20 = Raise bad_int.
Proof. vm_compute. reflexivity. Qed.
End parsing_proofs.
