(* ===== verification/IpAddress.v ===== *)
(** * The module ipaddress: IPv4 and IPv6 addresses

    [ip_address] of CPython 3.11 with its strictness (no leading zeros in
    an octet, one "::" at most, an optional IPv6 scope), the registry ranges
    behind [is_global] and its relatives, and [compressed].  Values are integers
    of 32 and 128 bits. *)
From Stdlib Require Import ZArith NArith Lia Ascii String.
From stdpp Require Import base list strings.
From S2P Require Import Prelude PyStr PyVal Codec Digits.
Open Scope Z_scope.

Inductive ip : Type :=
| IPv4 (n : Z)
| IPv6 (n : Z) (scope : option string).
#[export] Instance ip_eq_dec : EqDecision ip.
Proof. solve_decision. Defined.

Definition bad_address : exc := ValueError "does not appear to be an IPv4 or IPv6 address".

(** [IPv4Address._parse_octet] *)
Definition parse_octet (s : string) : res Z :=
  _ ← require (negb (String.eqb s "") && is_ascii s && py_isdigit s && (py_len s <=? 3)) bad_address;
  _ ← raise_if (negb (String.eqb s "0") && startswith "0" s) bad_address;
  n ← py_int_str s;
  _ ← raise_if (255 <? n) bad_address;
  Ok n.
Definition IPv4Address (s : string) : res Z :=
  _ ← raise_if (py_contains "/" s) bad_address;
  let octets := py_split "." s in
  _ ← require (length octets =? 4)%nat bad_address;
  ns ← mapM_res parse_octet octets;
  Ok (foldl (fun acc n => acc * 256 + n) 0 ns).

(** [IPv6Address._parse_hextet] *)
Definition parse_hextet (s : string) : res Z :=
  match mapM (M:=option) hex_value (list_of_string s) with
  | Some ((_ :: _) as ds) => if 4 <? Z.of_nat (length ds) then Raise bad_address else Ok (foldl (fun acc d => acc * 16 + d) 0 ds)
  | _ => Raise bad_address
  end.
(** ["%x" % z] for a 16-bit number *)
Definition hex_str (z : Z) : string :=
  let ds := [z / 4096 mod 16; z / 256 mod 16; z / 16 mod 16; z mod 16] in
  let significant := match drop_while (Z.eqb 0) ds with [] => [0] | l => l end in
  string_of_list (map hex_digit significant).

Definition is_empty (s : string) : bool := String.eqb s "".
Definition hextets (parts : list string) (start : Z) : res Z :=
  foldM_res (fun acc p => h ← parse_hextet p; Ok (acc * 65536 + h)) start parts.

(** The positions of empty parts other than the first and the last. *)
Definition inner_empty (parts : list string) : list nat :=
  List.filter (fun i => is_empty (nth i parts "x")) (seq 1 (length parts - 2)).

(** [IPv6Address._ip_int_from_string] *)
Definition ipv6_int (s : string) : res Z :=
  _ ← raise_if (is_empty s) bad_address;
  let parts := py_split ":" s in
  _ ← raise_if (length parts <? 3)%nat bad_address;
  let tail_part := default "" (last parts) in
  parts ← (if py_contains "." tail_part then
             v4 ← IPv4Address tail_part;
             Ok (removelast parts ++ [hex_str (v4 / 65536); hex_str (v4 mod 65536)])
           else Ok parts);
  let count := length parts in
  _ ← raise_if (9 <? count)%nat bad_address;
  let first_empty := is_empty (default "" (head parts)) in
  let last_empty := is_empty (default "" (last parts)) in
  match inner_empty parts with
  | _ :: _ :: _ => Raise bad_address
  | [skip_index] =>
      let parts_hi := if first_empty then (skip_index - 1)%nat else skip_index in
      let parts_lo := (if last_empty then count - skip_index - 2 else count - skip_index - 1)%nat in
      _ ← raise_if ((first_empty && negb (parts_hi =? 0)%nat) || (last_empty && negb (parts_lo =? 0)%nat)) bad_address;
      _ ← raise_if (8 <? parts_hi + parts_lo + 1)%nat bad_address;
      hi ← hextets (take parts_hi parts) 0;
      hextets (drop (count - parts_lo) parts) (hi * 2 ^ (16 * (8 - Z.of_nat (parts_hi + parts_lo))))
  | [] =>
      _ ← require (count =? 8)%nat bad_address;
      _ ← raise_if (first_empty || last_empty) bad_address;
      hextets parts 0
  end.

(** [IPv6Address] with its scope identifier *)
Definition IPv6Address (s : string) : res ip :=
  _ ← raise_if (py_contains "/" s) bad_address;
  match py_split1 "%" s with
  | None => n ← ipv6_int s; Ok (IPv6 n None)
  | Some (addr, scope) =>
      _ ← raise_if (is_empty scope || py_contains "%" scope) bad_address;
      n ← ipv6_int addr; Ok (IPv6 n (Some scope))
  end.

Definition ip_address (s : string) : res ip :=
  match IPv4Address s with
  | Ok n => Ok (IPv4 n)
  | Raise _ => match IPv6Address s with Ok a => Ok a | Raise _ => Raise bad_address end
  end.

Lemma ip_address_raises s : raises isinstance_ValueError (ip_address s).
Proof. unfold ip_address. destruct (IPv4Address s); [done|]. by destruct (IPv6Address s). Qed.
