(* ===== verification/Url.v ===== *)
(** * urllib.parse: urlsplit and the parts of a network location

    [urlsplit] of CPython 3.11 on text: the scheme, the network location with
    its bracket rules, path, query and fragment; and the [username],
    [password], [hostname] and [port] of a result.  The compatibility
    decomposition that [_checknetloc] applies to non-ASCII locations is
    the class [NetlocCheck]. *)
From Stdlib Require Import ZArith NArith Lia Ascii String.
From stdpp Require Import base list strings.
From S2P Require Import Prelude PyStr PyVal Digits IpAddress.
Open Scope Z_scope.

(** Whether a non-ASCII location contains one of [/?#@:] after NFKC. *)
Class NetlocCheck := { netloc_refused : string -> bool }.

Record SplitResult := {
  sr_scheme : string; sr_netloc : string; sr_path : string; sr_query : string; sr_fragment : string
}.

(** [s.partition(c)]: the texts before and after [c], and whether it occurs. *)
Definition partition (c : ascii) (s : string) : string * bool * string :=
  match py_split1 c s with Some (a, b) => (a, true, b) | None => (s, false, EmptyString) end.
(** [s.rpartition(c)]: the text before the last [c], if any, and after it. *)
Fixpoint rpartition (c : ascii) (s : string) : option string * string :=
  match s with
  | EmptyString => (None, EmptyString)
  | String d r =>
      match rpartition c r with
      | (Some before, after) => (Some (String d before), after)
      | (None, after) => if bool_decide (d = c) then (Some EmptyString, after) else (None, String d after)
      end
  end.

Definition byte_letter (a : ascii) : bool :=
  let z := byte_Z a in ((65 <=? z) && (z <=? 90)) || ((97 <=? z) && (z <=? 122)).
Definition byte_decimal (a : ascii) : bool := let z := byte_Z a in (48 <=? z) && (z <=? 57).
Definition scheme_char (a : ascii) : bool := byte_letter a || byte_decimal a || in_strs (String a EmptyString) ["+"; "-"; "."].
Definition url_space (a : ascii) : bool := byte_Z a <=? 32.
Definition unsafe_byte (a : ascii) : bool := let z := byte_Z a in (z =? 9) || (z =? 10) || (z =? 13).
Definition ends_netloc (a : ascii) : bool := in_strs (String a EmptyString) ["/"; "?"; "#"].
Fixpoint span_bytes (p : ascii -> bool) (s : string) : string * string :=
  match s with
  | String a r => if p a then let q := span_bytes p r in (String a q.1, q.2) else (EmptyString, s)
  | EmptyString => (EmptyString, EmptyString)
  end.

Definition invalid_ipv6 : exc := ValueError "Invalid IPv6 URL".

(** [\Av[a-fA-F0-9]+\..+\Z] *)
Definition ip_future (s : string) : bool :=
  match s with
  | String _ r =>
      let '(digits, rest) := span_bytes (fun a => bool_decide (is_Some (Codec.hex_value a))) r in
      negb (is_empty digits) &&
      match rest with
      | String d t => bool_decide (d = "."%char) && negb (is_empty t) && negb (py_contains (String (Z_byte 10) EmptyString) t)
      | EmptyString => false
      end
  | EmptyString => false
  end.
(** [_check_bracketed_host] *)
Definition check_bracketed_host (hostname : string) : res unit :=
  if startswith "v" hostname then require (ip_future hostname) (ValueError "IPvFuture address is invalid")
  else a ← ip_address hostname; match a with IPv4 _ => Raise (ValueError "An IPv4 address cannot be in brackets") | IPv6 _ _ => Ok tt end.
(** [_check_bracketed_netloc] *)
Definition check_bracketed_netloc (netloc : string) : res unit :=
  let hostname_and_port := (rpartition "@" netloc).2 in
  let '(before_bracket, have_open_br, bracketed) := partition "[" hostname_and_port in
  if have_open_br then
    _ ← require (is_empty before_bracket) invalid_ipv6;
    let '(hostname, _, port) := partition "]" bracketed in
    _ ← require (is_empty port || startswith ":" port) invalid_ipv6;
    check_bracketed_host hostname
  else check_bracketed_host (partition ":" hostname_and_port).1.1.

Section url.
Context `{PyRuntime} `{NetlocCheck}.

Definition url_scheme (url : string) : string * string :=
  match url with
  | String a _ =>
      match partition ":" url with
      | (before, true, after) =>
          if byte_letter a && str_forallb scheme_char before then (py_lower before, after) else (EmptyString, url)
      | _ => (EmptyString, url)
      end
  | EmptyString => (EmptyString, url)
  end.

Definition urlsplit (url : string) : res SplitResult :=
  let url := string_of_list (List.filter (fun a => negb (unsafe_byte a)) (drop_while url_space (list_of_string url))) in
  let '(scheme, url) := url_scheme url in
  let '(netloc, url) :=
    match url with
    | String "/" (String "/" r) => span_bytes (fun a => negb (ends_netloc a)) r
    | _ => (EmptyString, url)
    end in
  let opened := py_contains "[" netloc in
  let closed := py_contains "]" netloc in
  _ ← raise_if (xorb opened closed) invalid_ipv6;
  _ ← (if opened && closed then check_bracketed_netloc netloc else Ok tt);
  let '(url, _, fragment) := partition "#" url in
  let '(path, _, query) := partition "?" url in
  _ ← raise_if (negb (is_ascii netloc) && netloc_refused netloc) (ValueError "contains invalid characters under NFKC normalization");
  Ok (Build_SplitResult scheme netloc path query fragment).

(** [_userinfo] *)
Definition userinfo (r : SplitResult) : option string * option string :=
  match (rpartition "@" (sr_netloc r)).1 with
  | None => (None, None)
  | Some info => match partition ":" info with (u, true, p) => (Some u, Some p) | (u, false, _) => (Some u, None) end
  end.
Definition username (r : SplitResult) : option string := (userinfo r).1.
Definition password (r : SplitResult) : option string := (userinfo r).2.

(** [_hostinfo] *)
Definition hostinfo (r : SplitResult) : string * option string :=
  let info := (rpartition "@" (sr_netloc r)).2 in
  let '(_, have_open_br, bracketed) := partition "[" info in
  let '(hostname, port) :=
    if have_open_br then
      let '(hostname, _, rest) := partition "]" bracketed in (hostname, (partition ":" rest).2)
    else let '(hostname, _, port) := partition ":" info in (hostname, port) in
  (hostname, if is_empty port then None else Some port).
Definition hostname (r : SplitResult) : option string :=
  let h := (hostinfo r).1 in
  if is_empty h then None
  else match partition "%" h with
       | (name, true, zone) => Some (py_lower name +:+ "%" +:+ zone)
       | (name, false, _) => Some (py_lower name)
       end.
Definition port (r : SplitResult) : res (option Z) :=
  match (hostinfo r).2 with
  | None => Ok None
  | Some p =>
      _ ← require (py_isdigit p && is_ascii p) (ValueError "Port could not be cast to integer value");
      n ← py_int_str p;
      _ ← require ((0 <=? n) && (n <=? 65535)) (ValueError "Port out of range 0-65535");
      Ok (Some n)
  end.
End url.

Lemma urlsplit_raises `{PyRuntime} `{NetlocCheck} url : raises isinstance_ValueError (urlsplit url).
Proof.
  assert (forall h, raises isinstance_ValueError (check_bracketed_host h)) as Hh.
  { intros h. unfold check_bracketed_host. destruct (startswith _ _); [by apply raises_require|].
    apply raises_bind; [apply ip_address_raises|]. by intros [] _. }
  unfold urlsplit. destruct (url_scheme _) as [scheme rest].
  destruct (match rest with EmptyString => _ | _ => _ end) as [netloc rest'].
  apply raises_bind; [by apply raises_raise_if|]. intros _ _. apply raises_bind.
  { destruct (_ && _); [|done]. unfold check_bracketed_netloc. destruct (partition "[" _) as [[before []] bracketed]; [|apply Hh].
    apply raises_bind; [by apply raises_require|]. intros _ _. destruct (partition "]" _) as [[name ?] p].
    apply raises_bind; [by apply raises_require|]. intros _ _. apply Hh. }
  intros _ _. destruct (partition "#" _) as [[u ?] f]. destruct (partition "?" _) as [[p ?] q].
  apply raises_bind; [by apply raises_raise_if|done].
Qed.
