(* ===== verification/CosmosConfig.v ===== *)
(** * api/cosmos/config.py: the configuration of one Cosmos network

    Endpoint URLs are normalized to scheme, host and port; the constructor of
    [CosmosNetworkConfig] checks every field.  Fields are Python values, as
    the constructor receives them, and a tuple is a list. *)
From Stdlib Require Import ZArith NArith Lia Ascii String SpecFloat.
From stdpp Require Import base gmap sets list strings sorting.
From S2P Require Import Prelude PyStr PyVal Codec Scan Lines Digits IpAddress Url.
Open Scope Z_scope.

Definition MAX_ENDPOINTS : Z := 16.
Definition MAX_URL_LENGTH : Z := 2048.
Definition MAX_CHAIN_ID_LENGTH : Z := 128.
Definition MAX_TIMEOUT_SECONDS : val := VFloat (f_of_Z 30).
Definition MAX_HEIGHT_LAG : Z := 10000.
Definition MAX_TTL_SECONDS : val := VFloat (f_of_Z 300).
(** The float 0.1 *)
Definition MIN_TIMEOUT_SECONDS : val := VFloat (S754_finite false 7205759403792794 (-56)).

(** ASCII classes of the regular expressions *)
Definition lower_alnum (a : ascii) : bool :=
  let z := byte_Z a in ((48 <=? z) && (z <=? 57)) || ((97 <=? z) && (z <=? 122)).
Definition alnum (a : ascii) : bool := byte_letter a || byte_decimal a.
(** [^[a-z0-9]+(?:-[a-z0-9]+)*$] *)
Definition slug (s : string) : bool :=
  forallb (fun part => negb (is_empty part) && str_forallb lower_alnum part) (py_split "-" s).
(** [[A-Za-z0-9](?:[A-Za-z0-9-]{0,61}[A-Za-z0-9])?] *)
Definition dns_label (s : string) : bool :=
  let l := list_of_string s in
  match l with
  | [] => false
  | a :: _ =>
      alnum a && alnum (List.last l a) && (length l <=? 63)%nat &&
      forallb (fun c => alnum c || bool_decide (c = "-"%char)) l
  end.

Section config.
Context `{PyRuntime} `{NetlocCheck} `{UnicodeData}.

Definition invalid {A} (msg : string) : res A := Raise (InvalidConfiguration msg).
Definition valid (b : bool) (msg : string) : res unit := require b (InvalidConfiguration msg).
Definition has_control (s : string) : bool := existsb (fun g => category_C (code_point g)) (chars s).
Definition endswith (c : ascii) (s : string) : bool := head_is c (reverse (list_of_string s)).

(** What the name of a host must look like when it is no address. *)
Definition dns_host (hostname : string) : bool :=
  let dns_name := if endswith "." hostname then string_of_list (removelast (list_of_string hostname)) else hostname in
  negb (is_empty dns_name) && (py_len dns_name <=? 253) && forallb dns_label (py_split "." dns_name).

(** [_endpoint] *)
Definition endpoint (value : val) : res string :=
  let bad := "invalid endpoint URL" in
  match value with
  | VStr url =>
      _ ← valid ((1 <=? py_len url) && (py_len url <=? MAX_URL_LENGTH)) bad;
      _ ← valid (negb (has_control url)) bad;
      let split := parsed ← urlsplit url; p ← port parsed; Ok (parsed, p) in
      pp ← except_as split isinstance_ValueError (InvalidConfiguration bad);
      let parsed := pp.1 in
      match hostname parsed with
      | None => invalid bad
      | Some name =>
          _ ← valid (in_strs (sr_scheme parsed) ["http"; "https"] && bool_decide (username parsed = None) &&
                     bool_decide (password parsed = None) && is_empty (sr_fragment parsed) && is_empty (sr_query parsed) &&
                     in_strs (sr_path parsed) [""; "/"] && negb (endswith ":" (sr_netloc parsed))) bad;
          _ ← valid (is_Ok (ip_address name) || dns_host name) bad;
          let host := if py_contains ":" name then "[" +:+ name +:+ "]" else py_lower name in
          let netloc := match pp.2 with Some p => host +:+ ":" +:+ str_of_Z p | None => host end in
          Ok (sr_scheme parsed +:+ "://" +:+ netloc)                     (* urlunsplit *)
      end
  | _ => invalid bad
  end.

(** [_endpoints] *)
Definition endpoints (values : val) (kind : string) : res (list string) :=
  match values with
  | VList l =>
      _ ← valid ((1 <=? Z.of_nat (length l)) && (Z.of_nat (length l) <=? MAX_ENDPOINTS)) (kind +:+ " endpoints must contain");
      urls ← mapM_res endpoint l;
      Ok (dedup urls)                                                    (* dict.fromkeys *)
  | _ => invalid (kind +:+ " endpoints must contain")
  end.

Record CosmosNetworkConfig := {
  cc_network_id : string;
  cc_chain_id : string;
  cc_rpc_endpoints : list string;
  cc_rest_endpoints : list string;
  cc_request_timeout : val;
  cc_max_height_lag : Z;
  cc_probe_ttl : val;
  cc_cache_ttl : val;
  cc_max_response_bytes : Z
}.

(** [type(v) in {int, float} and lo <= v <= hi] *)
Definition number_between (lo hi v : val) : bool :=
  match v with VInt _ | VFloat _ => num_leb lo v && num_leb v hi | _ => false end.

(** The constructor with [__post_init__] *)
Definition make_config (network_id chain_id rpc_endpoints rest_endpoints request_timeout max_height_lag
    probe_ttl cache_ttl max_response_bytes : val) : res CosmosNetworkConfig :=
  match network_id with
  | VStr network_id =>
      _ ← valid ((py_len network_id <=? 64) && slug network_id) "network ID must be a safe URL slug";
      match chain_id with
      | VStr chain_id =>
          _ ← valid ((1 <=? py_len chain_id) && (py_len chain_id <=? MAX_CHAIN_ID_LENGTH) &&
                     String.eqb chain_id (py_strip chain_id) && negb (has_control chain_id)) "runtime chain ID is invalid";
          _ ← valid (number_between MIN_TIMEOUT_SECONDS MAX_TIMEOUT_SECONDS request_timeout) "request timeout is out of bounds";
          match max_height_lag with
          | VInt lag =>
              _ ← valid ((0 <=? lag) && (lag <=? MAX_HEIGHT_LAG)) "maximum height lag is out of bounds";
              _ ← valid (number_between (VInt 0) MAX_TTL_SECONDS probe_ttl) "probe TTL is out of bounds";
              _ ← valid (number_between (VInt 0) MAX_TTL_SECONDS cache_ttl) "cache TTL is out of bounds";
              match max_response_bytes with
              | VInt size =>
                  _ ← valid ((1024 <=? size) && (size <=? 10000000)) "maximum response size is out of bounds";
                  rpc ← endpoints rpc_endpoints "RPC";
                  rest ← endpoints rest_endpoints "REST";
                  Ok (Build_CosmosNetworkConfig network_id chain_id rpc rest request_timeout lag probe_ttl cache_ttl size)
              | _ => invalid "maximum response size is out of bounds"
              end
          | _ => invalid "maximum height lag is out of bounds"
          end
      | _ => invalid "runtime chain ID is invalid"
      end
  | _ => invalid "network ID must be a safe URL slug"
  end.
End config.

(** ** What an accepted configuration satisfies *)
Definition is_invalid (e : exc) : bool := match e with InvalidConfiguration _ => true | _ => false end.
Section config_proofs.
Context `{PyRuntime} `{NetlocCheck} `{UnicodeData}.

Lemma port_raises r : raises isinstance_ValueError (port r).
Proof. unfold port. destruct (hostinfo r).2; solve_raises. Qed.
Lemma valid_raises b msg : raises is_invalid (valid b msg).
Proof. by apply raises_require. Qed.
Lemma endpoint_raises v : raises is_invalid (endpoint v).
Proof.
  unfold endpoint. destruct v as [| | | |url| |]; try done.
  apply raises_bind; [apply valid_raises|]. intros _ _. apply raises_bind; [apply valid_raises|]. intros _ _.
  apply raises_bind.
  - apply raises_except_as; [done|]. apply raises_impl with (P := isinstance_ValueError); [by intros e ->|].
    apply raises_bind; [apply urlsplit_raises|]. intros p _. apply raises_bind; [apply port_raises|done].
  - intros pp _. destruct (hostname pp.1); [|done]. apply raises_bind; [apply valid_raises|]. intros _ _.
    apply raises_bind; [apply valid_raises|done].
Qed.
Lemma endpoints_raises values kind : raises is_invalid (endpoints values kind).
Proof.
  unfold endpoints. destruct values; try done. apply raises_bind; [apply valid_raises|]. intros _ _.
  apply raises_bind; [|done]. apply raises_mapM. intros; apply endpoint_raises.
Qed.
Definition endpoint_url (e : string) : Prop :=
  exists scheme netloc, e = scheme +:+ "://" +:+ netloc /\ (scheme = "http" \/ scheme = "https").
Lemma endpoint_Ok v e : endpoint v = Ok e -> endpoint_url e.
Proof.
  unfold endpoint. destruct v as [| | | |url| |]; try done. intros E. apply bind_Ok in E as (? & _ & E).
  apply bind_Ok in E as (? & _ & E). apply bind_Ok in E as (pp & _ & E).
  destruct (hostname pp.1); [|done]. apply bind_Ok in E as ([] & Hv%require_Ok & E). apply bind_Ok in E as (? & _ & E).
  injection E as <-. rewrite !andb_true_iff, in_strs_spec in Hv. destruct Hv as ((((((Hs & _) & _) & _) & _) & _) & _).
  eexists _, _. split; [done|]. set_solver.
Qed.
Record endpoints_ok (l : list string) : Prop := {
  eo_some : l <> [];
  eo_bound : Z.of_nat (length l) <= MAX_ENDPOINTS;
  eo_once : NoDup l;
  eo_urls : Forall endpoint_url l
}.
Lemma endpoints_Ok values kind l : endpoints values kind = Ok l -> endpoints_ok l.
Proof.
  unfold endpoints. destruct values as [| | | | |vs|]; try done. intros E. apply bind_Ok in E as ([] & Hv%require_Ok & E).
  apply bind_Ok in E as (urls & Hu & E). injection E as <-. apply mapM_res_Forall2 in Hu.
  pose proof (Forall2_length _ _ _ Hu) as Hl. split.
  - intros En. destruct urls as [|u urls]; [cbn in Hl; lia|]. apply (not_elem_of_nil u). rewrite <- En. apply elem_of_dedup. left.
  - assert (length (dedup urls) <= length urls)%nat as Hd; [|lia].
    apply submseteq_length, NoDup_submseteq; [apply NoDup_dedup|]. intros x. by rewrite elem_of_dedup.
  - apply NoDup_dedup.
  - apply Forall_forall. intros e He. rewrite elem_of_dedup in He. apply list_elem_of_lookup in He as [i Hi].
    destruct (Forall2_lookup_r _ _ _ _ _ Hu Hi) as (v & _ & He%endpoint_Ok). done.
Qed.

(** The fields of an accepted configuration *)
Record config_ok (c : CosmosNetworkConfig) : Prop := {
  go_slug : slug (cc_network_id c) = true /\ py_len (cc_network_id c) <= 64;
  go_chain : 1 <= py_len (cc_chain_id c) <= MAX_CHAIN_ID_LENGTH;
  go_lag : 0 <= cc_max_height_lag c <= MAX_HEIGHT_LAG;
  go_timeout : number_between MIN_TIMEOUT_SECONDS MAX_TIMEOUT_SECONDS (cc_request_timeout c) = true;
  go_ttl : number_between (VInt 0) MAX_TTL_SECONDS (cc_probe_ttl c) = true /\ number_between (VInt 0) MAX_TTL_SECONDS (cc_cache_ttl c) = true;
  go_size : 1024 <= cc_max_response_bytes c <= 10000000;
  go_rpc : endpoints_ok (cc_rpc_endpoints c);
  go_rest : endpoints_ok (cc_rest_endpoints c)
}.

(** The constructor accepts a configuration whose fields are all within their
    bounds, or raises InvalidConfiguration. *)
Theorem make_config_sound network_id chain_id rpc rest timeout lag probe_ttl cache_ttl size :
  match make_config network_id chain_id rpc rest timeout lag probe_ttl cache_ttl size with
  | Ok c => config_ok c
  | Raise e => is_invalid e = true
  end.
Proof.
  unfold make_config. destruct network_id as [| | | |network_id| |]; try done.
  unfold valid, require. destruct (_ && slug _) eqn:E1; [|done]. cbn [mbind res_bind].
  destruct chain_id as [| | | |chain_id| |]; try done. destruct (_ && negb (has_control chain_id)) eqn:E2; [|done]. cbn [mbind res_bind].
  destruct (number_between _ _ timeout) eqn:E3; [|done]. cbn [mbind res_bind]. destruct lag as [| |lag| | | |]; try done.
  destruct (_ && (lag <=? _)) eqn:E4; [|done]. cbn [mbind res_bind]. destruct (number_between _ _ probe_ttl) eqn:E5; [|done]. cbn [mbind res_bind].
  destruct (number_between _ _ cache_ttl) eqn:E6; [|done]. cbn [mbind res_bind]. destruct size as [| |size| | | |]; try done.
  destruct (_ && (size <=? _)) eqn:E7; [|done]. cbn [mbind res_bind].
  pose proof (endpoints_raises rpc "RPC") as Hr1. destruct (endpoints rpc "RPC") as [rpc_l|] eqn:Er; [|exact Hr1]. cbn [mbind res_bind].
  pose proof (endpoints_raises rest "REST") as Hr2. destruct (endpoints rest "REST") as [rest_l|] eqn:Es; [|exact Hr2]. cbn [mbind res_bind].
  apply endpoints_Ok in Er, Es. split; cbn; try done; try lia.
  - rewrite !andb_true_iff in E1. split; [by apply E1|lia].
Qed.
End config_proofs.

#[local] Existing Instance ascii_runtime.
#[local] Instance demo_netloc : NetlocCheck := {| netloc_refused := fun _ => false |}.
#[local] Instance demo_categories : UnicodeData := {| category_C := fun c => c <? 32 |}.
Example make_config_example : cc_rpc_endpoints <$> make_config (VStr "cosmos-hub") (VStr "cosmoshub-4")
    (VList [VStr "https://RPC.example.org:26657/"; VStr "http://[2001:db8::1]"; VStr "https://rpc.example.org:26657"])
    (VList [VStr "https://rest.example.org"]) (VInt 10) (VInt 10) (VInt 15) (VInt 10) (VInt 2000000) =
  Ok ["https://rpc.example.org:26657"; "http://[2001:db8::1]"].
Proof. vm_compute. reflexivity. Qed.
