(* ===== verification/Registry.v ===== *)
(** * api/cosmos/registry.py: the networks the Cosmos API serves

    One file per network is read, checked and turned into a
    [NetworkDefinition]; every endpoint provider of a network then gets an
    alias network that is pinned to its two endpoints.  Fields that come from
    the file are Python values until a check fixes their type; the reading of a
    file (its text, or the error of [path.read_text]) is an argument. *)
From Stdlib Require Import ZArith NArith Lia Ascii String SpecFloat.
From stdpp Require Import base gmap sets list strings sorting.
From S2P Require Import Prelude PyStr PyVal Codec Scan Lines Json Digits IpAddress Url CosmosConfig.
Open Scope Z_scope.

Definition PUBLIC_CAPABILITIES : list string :=
  ["overview"; "blocks"; "transactions"; "validators"; "governance"; "network-parameters"].
Definition _REQUIRED_KEYS : list string :=
  ["id"; "family"; "chain_id"; "display_name"; "network_name"; "rpc_endpoints"; "rest_endpoints"; "account_prefix";
   "validator_operator_prefix"; "validator_consensus_prefix"; "coin_type"; "assets"; "coingecko_id"; "logo_url"; "capabilities"].
Definition _OPTIONAL_KEYS : list string := ["endpoint_providers"].

(** [_PREFIX], [^[a-z][a-z0-9]{1,63}$] *)
Definition lower_letter (a : ascii) : bool := (97 <=? byte_Z a) && (byte_Z a <=? 122).
Definition prefix_re (s : string) : bool :=
  match list_of_string s with
  | a :: l => lower_letter a && (1 <=? length l)%nat && (length l <=? 63)%nat && forallb lower_alnum l
  | [] => false
  end.

(** [set(d) == keys] *)
Definition keys_are (keys : list string) (d : list (string * val)) : bool :=
  forallb (fun k => in_strs k keys) (dict_keys d) && forallb (fun k => dict_has k d) keys.

Record AssetConfig := { as_base : string; as_display : string; as_symbol : string; as_exponent : Z }.
Record EndpointProvider := { ep_id : string; ep_label : string; ep_rpc_endpoint : string; ep_rest_endpoint : string }.
Record NetworkDefinition := {
  nd_transport : CosmosNetworkConfig;
  nd_family : string;
  nd_display_name : string;
  nd_network_name : string;
  nd_account_prefix : string;
  nd_validator_operator_prefix : string;
  nd_validator_consensus_prefix : string;
  nd_coin_type : Z;
  nd_assets : list AssetConfig;
  nd_coingecko_id : string;
  nd_logo_url : string;
  nd_capabilities : list string;
  nd_endpoint_providers : list EndpointProvider;
  nd_canonical_id : option string;
  nd_selected_provider_id : option string
}.

(** A dict of networks, by their identifier *)
Abbreviation networks := (list (string * NetworkDefinition)).

Section registry.
Context `{PyRuntime} `{NetlocCheck} `{UnicodeData} `{JsonStack}.

(** [isinstance(value, str) and value.isascii() and value.isalnum()] *)
Definition ascii_alnum (value : val) : option string :=
  match value with
  | VStr s => if negb (is_empty s) && str_forallb alnum s then Some s else None
  | _ => None
  end.
(** [AssetConfig(base, display, symbol, exponent)] *)
Definition make_asset (base display symbol exponent : val) : res AssetConfig :=
  match ascii_alnum base, ascii_alnum display, ascii_alnum symbol with
  | Some base, Some display, Some symbol =>
      match exponent with
      | VInt exponent =>
          _ ← valid ((0 <=? exponent) && (exponent <=? 18)) "invalid asset exponent";
          Ok (Build_AssetConfig base display symbol exponent)
      | _ => invalid "invalid asset exponent"
      end
  | _, _, _ => invalid "invalid asset metadata"
  end.
Definition asset_keys : list string := ["base"; "display"; "symbol"; "exponent"].
(** The assets of the file that have the fields of one. *)
Fixpoint parse_assets (l : list val) : res (list AssetConfig) :=
  match l with
  | [] => Ok []
  | VDict d :: l =>
      if keys_are asset_keys d then
        a ← make_asset (dget d "base") (dget d "display") (dget d "symbol") (dget d "exponent");
        rest ← parse_assets l;
        Ok (a :: rest)
      else parse_assets l
  | _ :: l => parse_assets l
  end.

(** [EndpointProvider(id, label, rpc_endpoint, rest_endpoint)] *)
Definition make_provider (id label rpc_endpoint rest_endpoint : string) : res EndpointProvider :=
  _ ← valid ((py_len id <=? 32) && slug id) "invalid endpoint provider ID";
  _ ← valid ((1 <=? py_len label) && (py_len label <=? 64) && String.eqb label (py_strip label)) "invalid endpoint provider label";
  Ok (Build_EndpointProvider id label rpc_endpoint rest_endpoint).

(** An address prefix *)
Definition address_prefix (value : val) : res string :=
  match value with VStr s => _ ← valid (prefix_re s) "invalid address prefix"; Ok s | _ => invalid "invalid address prefix" end.

(** The check of the logo: [urlsplit] takes what is not text as bytes, which
    have no scheme https when they are empty, no [decode] when they are a
    number, and cannot be cached when they are a list or a dict. *)
Definition logo_url (value : val) : res string :=
  match value with
  | VStr s =>
      parsed ← urlsplit s;
      let set (o : option string) := match o with Some t => negb (is_empty t) | None => false end in
      _ ← valid (String.eqb (sr_scheme parsed) "https" && set (hostname parsed) &&
                 negb (set (username parsed)) && negb (set (password parsed))) "invalid public logo URL";
      Ok s
  | VList _ | VDict _ => Raise TypeError
  | _ => if truthy value then Raise AttributeError else invalid "invalid public logo URL"
  end.

(** The check of the capabilities: a set of them, then each is a public one. *)
Definition public_capabilities (l : list val) : res (list string) :=
  let bad := "invalid Cosmos capabilities" in
  _ ← valid (negb (bool_decide (l = []))) bad;
  _ ← require (forallb hashable l) TypeError;
  let names := omap as_str l in
  _ ← valid ((length names =? length l)%nat && bool_decide (NoDup names) && forallb (fun s => in_strs s PUBLIC_CAPABILITIES) names) bad;
  Ok names.

(** The providers name the endpoints of the network, in order. *)
Definition providers_match (transport : CosmosNetworkConfig) (providers : list EndpointProvider) : bool :=
  match providers with
  | [] => true
  | _ => bool_decide (map ep_rpc_endpoint providers = cc_rpc_endpoints transport) &&
         bool_decide (map ep_rest_endpoint providers = cc_rest_endpoints transport)
  end.

(** [NetworkDefinition(...)] *)
Definition make_definition (transport : CosmosNetworkConfig) (family display_name network_name : string)
    (account_prefix validator_operator_prefix validator_consensus_prefix coin_type : val) (assets : list AssetConfig)
    (coingecko_id : string) (logo : val) (capabilities : list val) (providers : list EndpointProvider)
    (canonical_id selected_provider_id : option string) : res NetworkDefinition :=
  _ ← valid (String.eqb family "cosmos" && negb (is_empty (cc_network_id transport))) "invalid Cosmos network definition";
  coin ← (match coin_type with VInt z => _ ← valid (0 <=? z) "invalid coin type"; Ok z | _ => invalid "invalid coin type" end);
  _ ← valid ((1 <=? length assets)%nat && bool_decide (NoDup (map as_base assets))) "invalid native assets";
  account ← address_prefix account_prefix;
  operator ← address_prefix validator_operator_prefix;
  consensus ← address_prefix validator_consensus_prefix;
  logo ← logo_url logo;
  names ← public_capabilities capabilities;
  _ ← valid (bool_decide (NoDup (map ep_id providers))) "duplicate endpoint provider ID";
  _ ← valid (providers_match transport providers) "endpoint providers must match";
  _ ← valid (match canonical_id with Some c => (py_len c <=? 64) && slug c | None => true end) "invalid canonical network ID";
  _ ← valid (match selected_provider_id with Some p => in_strs p (map ep_id providers) | None => true end) "invalid selected endpoint provider";
  Ok {| nd_transport := transport; nd_family := family; nd_display_name := display_name; nd_network_name := network_name;
        nd_account_prefix := account; nd_validator_operator_prefix := operator; nd_validator_consensus_prefix := consensus;
        nd_coin_type := coin; nd_assets := assets; nd_coingecko_id := coingecko_id; nd_logo_url := logo;
        nd_capabilities := names; nd_endpoint_providers := providers; nd_canonical_id := canonical_id;
        nd_selected_provider_id := selected_provider_id |}.

(** [NetworkDefinition.public] *)
Definition public_asset (a : AssetConfig) : val :=
  VDict [("base", VStr (as_base a)); ("display", VStr (as_display a)); ("symbol", VStr (as_symbol a)); ("exponent", VInt (as_exponent a))].
Definition public (d : NetworkDefinition) : val :=
  VDict [("id", VStr (cc_network_id (nd_transport d))); ("family", VStr (nd_family d)); ("chain_id", VStr (cc_chain_id (nd_transport d)));
         ("display_name", VStr (nd_display_name d)); ("network_name", VStr (nd_network_name d)); ("logo_url", VStr (nd_logo_url d));
         ("assets", VList (map public_asset (nd_assets d)));
         ("address_prefixes", VDict [("account", VStr (nd_account_prefix d)); ("validator_operator", VStr (nd_validator_operator_prefix d));
                                     ("validator_consensus", VStr (nd_validator_consensus_prefix d))]);
         ("capabilities", VList (map VStr (nd_capabilities d)))].

(** [_text] *)
Definition registry_text (value : val) (name : string) (maximum : Z) : res string :=
  match value with
  | VStr s => _ ← valid (negb (is_empty s) && (py_len s <=? maximum) && String.eqb s (py_strip s)) ("invalid " +:+ name); Ok s
  | _ => invalid ("invalid " +:+ name)
  end.
Definition provider_alias_id (network_id provider_id : string) : res string :=
  let alias := network_id +:+ "-provider-" +:+ provider_id in
  _ ← valid ((py_len alias <=? 64) && slug alias) "invalid endpoint provider alias";
  Ok alias.

(** One row of endpoint_providers: the endpoints of its position. *)
Definition parse_provider (transport : CosmosNetworkConfig) (index : nat) (row : val) : res EndpointProvider :=
  match row with
  | VDict d =>
      _ ← valid (keys_are ["id"; "label"] d) "invalid endpoint provider fields";
      id ← registry_text (dget d "id") "endpoint provider ID" 32;
      label ← registry_text (dget d "label") "endpoint provider label" 64;
      match cc_rpc_endpoints transport !! index, cc_rest_endpoints transport !! index with
      | Some rpc, Some rest => make_provider id label rpc rest
      | _, _ => Raise (IndexError "tuple index out of range")
      end
  | _ => invalid "invalid endpoint provider fields"
  end.

(** What [json.loads(path.read_text())] may raise and the loader translates. *)
Definition is_file_error (e : exc) : bool := isinstance_OSError e || is_json_error e.
Definition load_network_file (text : res string) : res NetworkDefinition :=
  payload ← except_as (text ← text; json_loads_str Ok text) is_file_error (InvalidConfiguration "invalid network configuration file");
  match payload with
  | VDict d =>
      _ ← valid (forallb (fun k => dict_has k d) _REQUIRED_KEYS &&
                 forallb (fun k => in_strs k (_REQUIRED_KEYS ++ _OPTIONAL_KEYS)) (dict_keys d)) "invalid network configuration fields";
      match dget d "assets" with
      | VList assets =>
          _ ← valid ((1 <=? length assets)%nat && (length assets <=? 16)%nat) "invalid native assets";
          parsed_assets ← parse_assets assets;
          capabilities ← except_as (py_iter (dget d "capabilities")) isinstance_TypeError (InvalidConfiguration "invalid network configuration values");
          _ ← valid (length parsed_assets =? length assets)%nat "invalid asset fields";
          id ← registry_text (dget d "id") "network ID" 64;
          chain ← registry_text (dget d "chain_id") "chain ID" 128;
          transport ← make_config (VStr id) (VStr chain) (dget d "rpc_endpoints") (dget d "rest_endpoints") (VFloat (f_of_Z 5))
                        (VInt 10) (VFloat (f_of_Z 2)) (VFloat (f_of_Z 2)) (VInt 2000000);
          match default (VList []) (dict_get "endpoint_providers" d) with
          | VList rows =>
              _ ← valid (bool_decide (rows = []) || (length rows =? length (cc_rpc_endpoints transport))%nat)
                    "endpoint providers must match configured pairs";
              providers ← mapM_res (fun p => parse_provider transport p.1 p.2) (enumerate rows);
              family ← registry_text (dget d "family") "family" 128;
              display_name ← registry_text (dget d "display_name") "display name" 64;
              network_name ← registry_text (dget d "network_name") "network name" 64;
              coingecko ← registry_text (dget d "coingecko_id") "CoinGecko ID" 128;
              make_definition transport family display_name network_name (dget d "account_prefix") (dget d "validator_operator_prefix")
                (dget d "validator_consensus_prefix") (dget d "coin_type") parsed_assets coingecko (dget d "logo_url") capabilities
                providers None None
          | _ => invalid "invalid endpoint providers"
          end
      | _ => invalid "invalid native assets"
      end
  | _ => invalid "invalid network configuration fields"
  end.

(** [load_networks]: the directories in the order of their paths, each with
    the text of its file. *)
Definition load_network (definitions : networks) (file : string * res string) : res networks :=
  d ← load_network_file file.2;
  let id := cc_network_id (nd_transport d) in
  _ ← valid (String.eqb file.1 id && negb (dict_has id definitions)) "network directory and ID must match uniquely";
  Ok (dict_set id d definitions).
Definition load_networks (files : list (string * res string)) : res networks :=
  definitions ← foldM_res load_network [] files;
  _ ← valid (negb (bool_decide (definitions = []))) "no Cosmos network configurations found";
  Ok definitions.

(** The alias network of a provider, made again from the fields of [d]. *)
Definition alias_definition (canonical_id alias_id : string) (d : NetworkDefinition) (p : EndpointProvider) : res NetworkDefinition :=
  let t := nd_transport d in
  transport ← make_config (VStr alias_id) (VStr (cc_chain_id t)) (VList [VStr (ep_rpc_endpoint p)]) (VList [VStr (ep_rest_endpoint p)])
    (cc_request_timeout t) (VInt (cc_max_height_lag t)) (cc_probe_ttl t) (cc_cache_ttl t) (VInt (cc_max_response_bytes t));
  provider ← make_provider (ep_id p) (ep_label p) (ep_rpc_endpoint p) (ep_rest_endpoint p);
  make_definition transport (nd_family d) (nd_display_name d) (nd_network_name d) (VStr (nd_account_prefix d))
    (VStr (nd_validator_operator_prefix d)) (VStr (nd_validator_consensus_prefix d)) (VInt (nd_coin_type d)) (nd_assets d)
    (nd_coingecko_id d) (VStr (nd_logo_url d)) (map VStr (nd_capabilities d)) [provider] (Some canonical_id) (Some (ep_id p)).
Definition add_alias (canonical_id : string) (d : NetworkDefinition) (expanded : networks) (p : EndpointProvider) : res networks :=
  alias_id ← provider_alias_id canonical_id (ep_id p);
  _ ← valid (negb (dict_has alias_id expanded)) "duplicate endpoint provider alias";
  a ← alias_definition canonical_id alias_id d p;
  Ok (dict_set alias_id a expanded).
Definition expand_provider_aliases (canonical_networks : networks) : res networks :=
  foldM_res (fun expanded e => foldM_res (add_alias e.1 e.2) expanded (nd_endpoint_providers e.2)) canonical_networks canonical_networks.
(** [NETWORKS], and the networks [public_networks] lists. *)
Definition registry (files : list (string * res string)) : res (networks * networks) :=
  canonical ← load_networks files;
  expanded ← expand_provider_aliases canonical;
  Ok (canonical, expanded).
Definition get_network (expanded : networks) (network_id : string) : option NetworkDefinition := dict_get network_id expanded.
Definition public_networks (canonical : networks) : list val := map (fun e => public e.2) canonical.
End registry.

(** ** What the registry promises *)
Section registry_proofs.
Context `{PyRuntime} `{NetlocCheck} `{UnicodeData} `{JsonStack}.

Record definition_ok (d : NetworkDefinition) : Prop := {
  do_transport : config_ok (nd_transport d);
  do_family : nd_family d = "cosmos";
  do_coin_type : 0 <= nd_coin_type d;
  do_assets : nd_assets d <> [] /\ NoDup (map as_base (nd_assets d));
  do_prefixes : Forall (fun p => prefix_re p = true) [nd_account_prefix d; nd_validator_operator_prefix d; nd_validator_consensus_prefix d];
  do_capabilities : nd_capabilities d <> [] /\ NoDup (nd_capabilities d) /\ nd_capabilities d ⊆ PUBLIC_CAPABILITIES;
  do_provider_ids : NoDup (map ep_id (nd_endpoint_providers d));
  do_providers : nd_endpoint_providers d <> [] ->
    map ep_rpc_endpoint (nd_endpoint_providers d) = cc_rpc_endpoints (nd_transport d) /\
    map ep_rest_endpoint (nd_endpoint_providers d) = cc_rest_endpoints (nd_transport d);
  do_selected : forall p, nd_selected_provider_id d = Some p -> p ∈ map ep_id (nd_endpoint_providers d)
}.

(** The alias of the provider [p] of [d]: the same network, answered by the
    endpoints of [p] alone. *)
Record alias_of (canonical_id : string) (d : NetworkDefinition) (p : EndpointProvider) (a : NetworkDefinition) : Prop := {
  al_id : cc_network_id (nd_transport a) = canonical_id +:+ "-provider-" +:+ ep_id p;
  al_chain : cc_chain_id (nd_transport a) = cc_chain_id (nd_transport d);
  al_rpc : cc_rpc_endpoints (nd_transport a) = [ep_rpc_endpoint p];
  al_rest : cc_rest_endpoints (nd_transport a) = [ep_rest_endpoint p];
  al_lag : cc_max_height_lag (nd_transport a) = cc_max_height_lag (nd_transport d);
  al_canonical : nd_canonical_id a = Some canonical_id;
  al_selected : nd_selected_provider_id a = Some (ep_id p);
  al_fields : nd_account_prefix a = nd_account_prefix d /\ nd_assets a = nd_assets d /\ nd_capabilities a = nd_capabilities d /\
    nd_coin_type a = nd_coin_type d /\ nd_endpoint_providers a = [p]
}.

(** Starting fails with the configuration error, or with what the checks do
    not expect of a file: nesting or integers beyond the interpreter's limits,
    a logo or capabilities of another type, fewer REST than RPC endpoints. *)
Definition registry_error (e : exc) : bool :=
  is_invalid e || isinstance_ValueError e || isinstance_TypeError e || isinstance_AttributeError e ||
  match e with RecursionError | IndexError _ => true | _ => false end.

Lemma address_prefix_Ok v s : address_prefix v = Ok s -> v = VStr s /\ prefix_re s = true.
Proof. destruct v; try done. cbn. intros ([] & Hv%require_Ok & [= <-])%bind_Ok. done. Qed.
Lemma omap_as_str l : length (omap as_str l) = length l -> l = map VStr (omap as_str l).
Proof.
  induction l as [|v l IH]; [done|]. intros Hl. assert (length (omap as_str l) <= length l)%nat as Hle.
  { clear. induction l as [|w l IH]; [done|]. cbn. destruct (as_str w); cbn; lia. }
  destruct v; cbn in Hl; try lia. cbn. f_equal. apply IH. lia.
Qed.
Lemma public_capabilities_Ok l names : public_capabilities l = Ok names ->
  l = map VStr names /\ names <> [] /\ NoDup names /\ names ⊆ PUBLIC_CAPABILITIES.
Proof.
  unfold public_capabilities. intros ([] & Hl%require_Ok & E)%bind_Ok. apply bind_Ok in E as ([] & _ & E).
  apply bind_Ok in E as ([] & Hv%require_Ok & E). injection E as <-. rewrite !andb_true_iff, Nat.eqb_eq in Hv. destruct Hv as [[Hlen Hn] Hp].
  apply omap_as_str in Hlen. apply negb_true_iff, bool_decide_eq_false in Hl. apply bool_decide_eq_true in Hn.
  split; [done|]. split; [intros En; rewrite En in Hlen; done|]. split; [done|].
  intros s Hs. rewrite forallb_forall in Hp. apply in_strs_spec. apply Hp. by apply list_elem_of_In.
Qed.
Lemma logo_url_Ok v s : logo_url v = Ok s -> v = VStr s.
Proof.
  destruct v; try done; try (cbn; by destruct (truthy _)); try (cbn; by case_match).
  unfold logo_url. intros (? & _ & E)%bind_Ok. apply bind_Ok in E as (? & _ & E). by injection E as <-.
Qed.

Lemma make_definition_Ok t family dn nn ap op cp coin assets cg logo caps providers canonical selected d :
  make_definition t family dn nn ap op cp coin assets cg logo caps providers canonical selected = Ok d ->
  config_ok t ->
  definition_ok d /\ nd_transport d = t /\ nd_assets d = assets /\ nd_endpoint_providers d = providers /\
  nd_canonical_id d = canonical /\ nd_selected_provider_id d = selected /\ ap = VStr (nd_account_prefix d) /\
  coin = VInt (nd_coin_type d) /\ caps = map VStr (nd_capabilities d).
Proof.
  unfold make_definition. intros E Ht. apply bind_Ok in E as ([] & Hf%require_Ok & E). apply bind_Ok in E as (z & Hz & E).
  apply bind_Ok in E as ([] & Ha%require_Ok & E). apply bind_Ok in E as (p1 & [-> Hq1]%address_prefix_Ok & E).
  apply bind_Ok in E as (p2 & [-> Hq2]%address_prefix_Ok & E). apply bind_Ok in E as (p3 & [-> Hq3]%address_prefix_Ok & E).
  apply bind_Ok in E as (s & ->%logo_url_Ok & E). apply bind_Ok in E as (names & (-> & Hc)%public_capabilities_Ok & E).
  apply bind_Ok in E as ([] & Hp%require_Ok & E). apply bind_Ok in E as ([] & Hm%require_Ok & E). apply bind_Ok in E as ([] & _ & E).
  apply bind_Ok in E as ([] & Hs%require_Ok & E). injection E as <-. destruct coin as [| |coin| | | |]; try done.
  apply bind_Ok in Hz as ([] & Hz%require_Ok & [= <-]). split; [|done].
  rewrite andb_true_iff in Hf, Ha. destruct Hf as [Hf%String.eqb_eq _]. destruct Ha as [Ha%Nat.leb_le Hb%bool_decide_eq_true].
  apply bool_decide_eq_true in Hp. apply Z.leb_le in Hz.
  split; cbn; try done.
  - split; [|done]. by destruct assets; [cbn in Ha; lia|].
  - by repeat constructor.
  - intros Hn. destruct providers; [done|]. unfold providers_match in Hm. apply andb_true_iff in Hm as [Hm1%bool_decide_eq_true Hm2%bool_decide_eq_true]. done.
  - intros p ->. by apply in_strs_spec.
Qed.

Lemma make_config_Ok_ok n c rpc rest t l p1 p2 s g : make_config n c rpc rest t l p1 p2 s = Ok g -> config_ok g.
Proof. intros Hg. pose proof (make_config_sound n c rpc rest t l p1 p2 s) as Hs. by rewrite Hg in Hs. Qed.
Lemma make_config_fields n c rpc rest t l p1 p2 s g : make_config (VStr n) (VStr c) rpc rest t (VInt l) p1 p2 s = Ok g ->
  cc_network_id g = n /\ cc_chain_id g = c /\ cc_max_height_lag g = l /\
  endpoints rpc "RPC" = Ok (cc_rpc_endpoints g) /\ endpoints rest "REST" = Ok (cc_rest_endpoints g).
Proof.
  unfold make_config. intros E. do 6 (apply bind_Ok in E as ([] & _ & E)). destruct s as [| |s| | | |]; try done.
  apply bind_Ok in E as ([] & _ & E). apply bind_Ok in E as (r1 & E1 & E). apply bind_Ok in E as (r2 & E2 & E). by injection E as <-.
Qed.

Lemma load_network_file_Ok text d : load_network_file text = Ok d ->
  definition_ok d /\ nd_canonical_id d = None /\ nd_selected_provider_id d = None.
Proof.
  unfold load_network_file. intros (payload & _ & E)%bind_Ok. destruct payload as [| | | | | |f]; try done.
  apply bind_Ok in E as ([] & _ & E). destruct (dget f "assets") as [| | | | |l|]; try done.
  apply bind_Ok in E as ([] & _ & E). apply bind_Ok in E as (assets & _ & E). apply bind_Ok in E as (caps & _ & E).
  apply bind_Ok in E as ([] & _ & E). apply bind_Ok in E as (id & _ & E). apply bind_Ok in E as (chain & _ & E).
  apply bind_Ok in E as (t & Ht%make_config_Ok_ok & E). destruct (default _ _) as [| | | | |rows|]; try done.
  apply bind_Ok in E as ([] & _ & E). apply bind_Ok in E as (providers & _ & E). do 4 (apply bind_Ok in E as (? & _ & E)).
  apply make_definition_Ok in E as (Hd & _ & _ & _ & Hc & Hs & _); [|done]. done.
Qed.

(** *** The loaded networks *)
Definition loaded_ok (l : networks) : Prop :=
  NoDup (dict_keys l) /\ forall id d, (id, d) ∈ l ->
    cc_network_id (nd_transport d) = id /\ definition_ok d /\ nd_canonical_id d = None /\ nd_selected_provider_id d = None.
Lemma load_networks_Ok files c : load_networks files = Ok c -> loaded_ok c /\ c <> [].
Proof.
  unfold load_networks. intros (l & El & E)%bind_Ok. apply bind_Ok in E as ([] & Hn%require_Ok & [= ->]).
  split; [|by apply negb_true_iff, bool_decide_eq_false in Hn].
  refine (foldM_res_inv loaded_ok load_network files [] c _ _ El); [split; [constructor|set_solver]|].
  intros acc file acc' _ [Hk Ha] Ef. apply bind_Ok in Ef as (d & (Hd & Hc & Hs)%load_network_file_Ok & Ef).
  apply bind_Ok in Ef as ([] & Hv%require_Ok & Ef). injection Ef as <-. apply andb_true_iff in Hv as [_ Hf%negb_true_iff].
  split; [by apply NoDup_dict_set|]. rewrite dict_set_fresh by done. intros i e. rewrite elem_of_app, list_elem_of_singleton.
  intros [Hin|[= -> ->]]; [by apply Ha|done].
Qed.

(** *** The aliases *)
Lemma provider_alias_Ok n p alias : provider_alias_id n p = Ok alias -> alias = n +:+ "-provider-" +:+ p.
Proof. unfold provider_alias_id. by intros ([] & _ & [= <-])%bind_Ok. Qed.
Lemma alias_definition_Ok id alias d p a : alias_definition id alias d p = Ok a ->
  alias = id +:+ "-provider-" +:+ ep_id p -> definition_ok a /\ alias_of id d p a /\ cc_network_id (nd_transport a) = alias.
Proof.
  unfold alias_definition. intros (t & Et & E)%bind_Ok Ha. apply bind_Ok in E as (q & Eq & E).
  pose proof (make_config_Ok_ok _ _ _ _ _ _ _ _ _ _ Et) as Ht. apply make_config_fields in Et as (Hn & Hc & Hl & _).
  assert (q = p) as ->. { unfold make_provider in Eq. apply bind_Ok in Eq as ([] & _ & Eq). apply bind_Ok in Eq as ([] & _ & [= <-]). by destruct p. }
  apply make_definition_Ok in E as (Hd & Et & Has & Hp & Hcan & Hsel & Hap & Hcoin & Hcaps); [|done].
  split; [done|]. split; [|by rewrite Et]. injection Hap as Hap. injection Hcoin as Hcoin.
  assert (nd_capabilities a = nd_capabilities d) as Hcap.
  { clear - Hcaps. revert Hcaps. generalize (nd_capabilities a), (nd_capabilities d). intros k l. revert k.
    induction l as [|x l IH]; intros [|y k]; cbn; try done. intros [= -> Hk]. f_equal. by apply IH. }
  destruct (do_providers a Hd) as [Hrpc Hrest]; [by rewrite Hp|]. rewrite Hp, Et in Hrpc, Hrest.
  split; rewrite ?Et; try done. by rewrite Hn.
Qed.

(** What the aliases added so far to the networks [c] look like. *)
Definition aliased (c : networks) (done : list (string * NetworkDefinition * EndpointProvider)) (e : networks) : Prop :=
  NoDup (dict_keys e) /\
  exists l, e = c ++ l /\
    Forall2 (fun q x => x.1 = cc_network_id (nd_transport x.2) /\ definition_ok x.2 /\ alias_of q.1.1 q.1.2 q.2 x.2) done l.
Lemma add_alias_Ok c done id d e p e' : aliased c done e -> add_alias id d e p = Ok e' -> aliased c (done ++ [(id, d, p)]) e'.
Proof.
  intros [Hk (l & -> & Hl)] E. unfold add_alias in E. apply bind_Ok in E as (alias & Ha%provider_alias_Ok & E).
  apply bind_Ok in E as ([] & Hf%require_Ok%negb_true_iff & E). apply bind_Ok in E as (a & Ea & E). injection E as <-.
  apply alias_definition_Ok in Ea as (Hd & Hal & Hn); [|done]. split; [by apply NoDup_dict_set|].
  rewrite dict_set_fresh by done. exists (l ++ [(alias, a)]). split; [by rewrite <-app_assoc|].
  apply Forall2_app; [done|]. constructor; [|constructor]. by split.
Qed.
Lemma add_aliases_Ok c done id d ps e e' : aliased c done e -> foldM_res (add_alias id d) e ps = Ok e' ->
  aliased c (done ++ map (fun p => (id, d, p)) ps) e'.
Proof.
  revert done e. induction ps as [|p ps IH]; intros done e He; cbn; [intros [= <-]; by rewrite app_nil_r|].
  intros (e1 & E1 & E)%bind_Ok. rewrite cons_middle, app_assoc. eapply IH; [by eapply add_alias_Ok|done].
Qed.
Definition pairs (c : networks) : list (string * NetworkDefinition * EndpointProvider) :=
  concat (map (fun e => map (fun p => (e.1, e.2, p)) (nd_endpoint_providers e.2)) c).
Lemma expand_Ok c e : NoDup (dict_keys c) -> expand_provider_aliases c = Ok e -> aliased c (pairs c) e.
Proof.
  intros Hc. unfold expand_provider_aliases.
  assert (forall k done e0, aliased c done e0 ->
    foldM_res (fun expanded e => foldM_res (add_alias e.1 e.2) expanded (nd_endpoint_providers e.2)) e0 k = Ok e -> aliased c (done ++ pairs k) e) as Hgen.
  { induction k as [|x k IH]; intros done e0 He0; cbn; [intros [= <-]; by rewrite app_nil_r|].
    intros (e1 & E1 & E)%bind_Ok. rewrite app_assoc. eapply IH; [by eapply add_aliases_Ok|done]. }
  apply (Hgen c [] c). split; [done|]. exists []. by rewrite app_nil_r.
Qed.

End registry_proofs.

(** *** Errors of the start *)
Section registry_errors.
Context `{PyRuntime} `{NetlocCheck} `{UnicodeData} `{JsonStack}.

Lemma valid_registry b msg : raises registry_error (valid b msg).
Proof. by apply raises_require. Qed.
Lemma invalid_registry {A} (m : res A) : raises is_invalid m -> raises registry_error m.
Proof. apply raises_impl. intros e. unfold registry_error. by intros ->. Qed.
Lemma registry_text_raises v name n : raises registry_error (registry_text v name n).
Proof. destruct v; try done. apply raises_bind; [apply valid_registry|done]. Qed.
Lemma make_provider_raises a b c d : raises registry_error (make_provider a b c d).
Proof. do 2 (apply raises_bind; [apply valid_registry|intros _ _]). done. Qed.
Lemma make_asset_raises a b c d : raises registry_error (make_asset a b c d).
Proof.
  unfold make_asset. destruct (ascii_alnum a), (ascii_alnum b), (ascii_alnum c); try done.
  destruct d; try done. apply raises_bind; [apply valid_registry|done].
Qed.
Lemma parse_assets_raises l : raises registry_error (parse_assets l).
Proof.
  induction l as [|[| | | | | |d] l IH]; try done. cbn. destruct (keys_are _ d); [|done].
  apply raises_bind; [apply make_asset_raises|]. intros a _. by apply raises_bind.
Qed.
Lemma address_prefix_raises v : raises registry_error (address_prefix v).
Proof. destruct v; try done. apply raises_bind; [apply valid_registry|done]. Qed.
Lemma logo_url_raises v : raises registry_error (logo_url v).
Proof.
  destruct v; try done; try (unfold logo_url; by destruct (truthy _)).
  apply raises_bind; [|intros p _; apply raises_bind; [apply valid_registry|done]].
  eapply raises_impl; [|apply urlsplit_raises]. intros e He. unfold registry_error. by rewrite He, orb_true_r.
Qed.
Lemma public_capabilities_raises l : raises registry_error (public_capabilities l).
Proof.
  unfold public_capabilities. apply raises_bind; [apply valid_registry|intros _ _].
  apply raises_bind; [by apply raises_require|intros _ _]. apply raises_bind; [apply valid_registry|done].
Qed.
Lemma make_definition_raises t family dn nn ap op cp coin assets cg logo caps providers canonical selected :
  raises registry_error (make_definition t family dn nn ap op cp coin assets cg logo caps providers canonical selected).
Proof.
  unfold make_definition. apply raises_bind; [apply valid_registry|intros _ _].
  apply raises_bind; [destruct coin; try done; apply raises_bind; [apply valid_registry|done]|intros z _].
  apply raises_bind; [apply valid_registry|intros _ _]. do 3 (apply raises_bind; [apply address_prefix_raises|intros ? _]).
  apply raises_bind; [apply logo_url_raises|intros ? _]. apply raises_bind; [apply public_capabilities_raises|intros ? _].
  do 4 (apply raises_bind; [apply valid_registry|intros _ _]). done.
Qed.
Lemma make_config_raises n c rpc rest t l p1 p2 s : raises registry_error (make_config n c rpc rest t l p1 p2 s).
Proof.
  apply invalid_registry. pose proof (make_config_sound n c rpc rest t l p1 p2 s) as Hs. by destruct (make_config _ _ _ _ _ _ _ _ _).
Qed.
Lemma load_network_file_raises text : raises is_file_error text -> raises registry_error (load_network_file text).
Proof.
  intros Ht. unfold load_network_file. apply raises_bind.
  { apply raises_except_as; [done|].
    assert (raises (fun e => is_file_error e || is_json_failure e) (text ← text; json_loads_str Ok text)) as Hr.
    { apply raises_bind; [eapply raises_impl; [|exact Ht]; by intros e ->|].
      intros s _. eapply raises_impl; [|by apply json_loads_str_fails]. intros e ->. apply orb_true_r. }
    eapply raises_impl; [|exact Hr]. intros e He. apply orb_true_iff in He as [->|He]; [done|]. apply orb_true_iff. right.
    unfold registry_error. unfold is_json_failure in He. apply orb_true_iff in He as [->|He]; [by rewrite orb_true_r|by destruct e]. }
  intros payload _. destruct payload as [| | | | | |f]; try done.
  apply raises_bind; [apply valid_registry|intros _ _]. destruct (dget f "assets") as [| | | | |l|]; try done.
  apply raises_bind; [apply valid_registry|intros _ _]. apply raises_bind; [apply parse_assets_raises|intros assets _].
  apply raises_bind; [by destruct (dget f "capabilities")|intros caps _].
  apply raises_bind; [apply valid_registry|intros _ _]. do 2 (apply raises_bind; [apply registry_text_raises|intros ? _]).
  apply raises_bind; [apply make_config_raises|intros t _]. destruct (default _ _) as [| | | | |rows|]; try done.
  apply raises_bind; [apply valid_registry|intros _ _]. apply raises_bind.
  { apply raises_mapM. intros [i row] _. cbn [fst snd]. destruct row; try done. cbn.
    apply raises_bind; [apply valid_registry|intros _ _]. do 2 (apply raises_bind; [apply registry_text_raises|intros ? _]).
    destruct (cc_rpc_endpoints t !! i), (cc_rest_endpoints t !! i); try done. apply make_provider_raises. }
  intros providers _. do 4 (apply raises_bind; [apply registry_text_raises|intros ? _]). apply make_definition_raises.
Qed.
Lemma registry_raises files : (forall f, f ∈ files -> raises is_file_error f.2) -> raises registry_error (registry files).
Proof.
  intros Hf. unfold registry. apply raises_bind.
  - unfold load_networks. apply raises_bind; [|intros ds _; apply raises_bind; [apply valid_registry|done]].
    generalize (@nil (string * NetworkDefinition)) as acc. induction files as [|f files IH]; intros acc; [done|]. cbn.
    apply raises_bind; [|intros; apply IH; intros; apply Hf; by right]. unfold load_network.
    apply raises_bind; [apply load_network_file_raises, Hf; left|]. intros d _. apply raises_bind; [apply valid_registry|done].
  - intros c _. apply raises_bind; [|done]. unfold expand_provider_aliases. apply raises_foldM. intros acc e.
    apply raises_foldM. intros acc' p. unfold add_alias. apply raises_bind; [apply raises_bind; [apply valid_registry|done]|intros alias _].
    apply raises_bind; [apply valid_registry|intros _ _]. apply raises_bind; [|done]. unfold alias_definition.
    apply raises_bind; [apply make_config_raises|intros t _]. apply raises_bind; [apply make_provider_raises|intros q _]. apply make_definition_raises.
Qed.
End registry_errors.

(** ** A registry with one network of two providers *)
#[local] Existing Instance ascii_runtime.
#[local] Instance registry_netloc : NetlocCheck := {| netloc_refused := fun _ => false |}.
#[local] Instance registry_categories : UnicodeData := {| category_C := fun c => c <? 32 |}.
#[local] Instance registry_stack : JsonStack := {| scan_depth := 50 |}.
Definition demo_document (name capability : string) : val := VDict [
  ("id", VStr name); ("family", VStr "cosmos"); ("chain_id", VStr "test-1"); ("display_name", VStr "Test"); ("network_name", VStr "Testnet");
  ("rpc_endpoints", VList [VStr "https://RPC.one.example/"; VStr "https://rpc.two.example:443"]);
  ("rest_endpoints", VList [VStr "https://rest.one.example"; VStr "https://rest.two.example"]);
  ("account_prefix", VStr "test"); ("validator_operator_prefix", VStr "testvaloper"); ("validator_consensus_prefix", VStr "testvalcons");
  ("coin_type", VInt 118); ("coingecko_id", VStr "test"); ("logo_url", VStr "https://example.org/logo.png");
  ("assets", VList [VDict [("base", VStr "utest"); ("display", VStr "test"); ("symbol", VStr "TEST"); ("exponent", VInt 6)]]);
  ("capabilities", VList [VStr "overview"; VStr capability]);
  ("endpoint_providers", VList [VDict [("id", VStr "one"); ("label", VStr "One")]; VDict [("id", VStr "two"); ("label", VStr "Two")]])].
Definition demo_file (name capability : string) : string * res string := (name, json_dumps json_default (demo_document name capability)).
Definition demo_registry : networks * networks :=
  match registry [demo_file "test" "blocks"] with Ok p => p | Raise _ => ([], []) end.
Lemma demo_registry_runs : registry [demo_file "test" "blocks"] = Ok (demo_registry.1, demo_registry.2) /\
  dict_keys demo_registry.2 = ["test"; "test-provider-one"; "test-provider-two"].
Proof. split; vm_compute; reflexivity. Qed.
(** A second file for the same network, an unknown capability, and a provider
    whose alias is another network's name are refused. *)
Example registry_refuses :
  registry [demo_file "test" "blocks"; demo_file "test" "blocks"] = Raise (InvalidConfiguration "network directory and ID must match uniquely") /\
  registry [demo_file "test" "markets"] = Raise (InvalidConfiguration "invalid Cosmos capabilities") /\
  registry [demo_file "test" "blocks"; demo_file "test-provider-one" "blocks"] = Raise (InvalidConfiguration "duplicate endpoint provider alias").
Proof. vm_compute. done. Qed.
