(* ===== verification/CosmosCache.v ===== *)
(** * api/cosmos/transport.py and the state the Cosmos API shares

    [JsonTransport.get_object], the world of a request (the RequestCache of
    RequestCache.v, the memory of the endpoint policy and the outside) and
    [get_or_load] on it.  Whenever a request waits, other requests may run:
    the operations of [CosmosEnvironment] that wait may change the whole world,
    as long as they keep the cached values good ([CosmosLaws]). *)
From Stdlib Require Import ZArith NArith Lia Ascii String SpecFloat.
From stdpp Require Import base gmap sets list strings sorting.
From S2P Require Import Prelude Query PyStr PyVal Codec Json RequestCache Rfc3339 CosmosParsing IpAddress Url.
Open Scope Z_scope.

(** ** Cached values *)
Record candidate := Candidate { cd_endpoint : string; cd_height : Z; cd_latency : Z; cd_order : nat }.

(** The answer of [_transaction_window]. *)
Record window_response := Window {
  wr_available : bool;                   (* state: available or indexing_unavailable *)
  wr_transactions : list transaction_row;
  wr_total : option Z;
  wr_source_host : option string
}.

(** The answer of [transaction_history]. *)
Record history_response := {
  hr_available : bool;
  hr_transactions : list transaction_row;
  hr_anchor_height : Z; hr_window_from : Z; hr_window_to : Z; hr_window_page : Z;
  hr_total_in_window : option Z;
  hr_has_older : bool; hr_has_newer : bool;
  hr_older_cursor : option string; hr_newer_cursor : option string;
  hr_source_host : option string
}.

(** What is known of a provider's RPC node: its transaction index and the
    lowest height it still has. *)
Record capability := Capability { cp_tx_index : string; cp_lowest_available_height : option Z }.
(** One side, RPC or REST, of a provider in [endpoint_status]. *)
Record provider_side := Side { sd_host : string; sd_healthy : bool; sd_height : option Z; sd_latency_ms : option Z }.
Record provider_row := ProviderRow { pr_id : string; pr_label : string; pr_rpc : provider_side; pr_capability : capability; pr_api : provider_side }.
Record provider_status := {
  vs_network_id : string;
  vs_manual : bool;                      (* mode: manual or auto *)
  vs_selected_provider_id : option string;
  vs_preferred_rpc_provider_id : option string;
  vs_preferred_api_provider_id : option string;
  vs_mixed_providers : bool;
  vs_providers : list provider_row
}.

(** The sections of a network's cache keys, with their arguments. *)
Inductive cache_section : Type :=
| KCandidates (kind : string)
| KChainHead
| KNodeStatus
| KBlock (source : string) (h : Z)
| KWindow (lower upper page limit : Z)
| KHistory (limit : Z) (cursor : string)               (* the cursor, or live *)
| KEventSearch (expression : string) (limit : Z)
| KCapabilities (provider_id : string)
| KProviderStatus.
Definition cache_key : Type := string * cache_section.      (* network_id first *)
#[export] Instance cache_section_eq_dec : EqDecision cache_section.
Proof. solve_decision. Defined.

Inductive cached_value : Type :=
| CCandidates (l : list candidate)
| CHead (head : ChainHead)
| CStatus (status : NodeStatus)
| CBlock (b : BlockSummary)
| CWindow (w : window_response)
| CHistory (h : history_response)
| CPayload (payload : list (string * val))
| CCapability (c : capability)
| CProviderStatus (s : provider_status).

(** ** The world of a request *)
Record CosmosWorld (E : Type) := CWorld {
  cw_cache : cache (K:=cache_key) (V:=cached_value);
  cw_suspect_until : list ((string * string) * Z);     (* _tx_operation_suspect_until *)
  cw_search_mode : list (string * string);             (* _tx_search_mode *)
  cw_env : E
}.
Arguments CWorld {E}. Arguments cw_cache {E}. Arguments cw_suspect_until {E}. Arguments cw_search_mode {E}. Arguments cw_env {E}.

(** What an HTTP request ends in: an exception before the answer, or a
    status and the chunks of the body, after which the stream may break. *)
Inductive http_reply : Type :=
| NoResponse (e : exc)
| Response (status : Z) (chunks : list bytes) (fault : option exc).

Class CosmosEnvironment (E : Type) := {
  ce_clock : E -> Z * E;                                         (* monotonic clock *)
  ce_http : string -> CosmosWorld E -> http_reply * CosmosWorld E;
  (* await asyncio.shield(future) for the load of a key by another request *)
  ce_join : cache_key -> nat -> CosmosWorld E -> res cached_value * CosmosWorld E
}.

Section shared.
Context `{PyRuntime} `{NetlocCheck} `{JsonStack} {E : Type} `{CosmosEnvironment E}.
#[local] Abbreviation world := (CosmosWorld E).
#[local] Abbreviation query := (query (W:=world)).
#[local] Notation "'let*' p := m 'in' k" := (and_then m (fun p => k))
  (at level 10, p strict pattern, m at level 200, k at level 200).

Definition set_cache (c : cache) (w : world) : world := CWorld c (cw_suspect_until w) (cw_search_mode w) (cw_env w).
Definition clock : query Z := fun w =>
  let '(now, e) := ce_clock (cw_env w) in (Ok now, CWorld (cw_cache w) (cw_suspect_until w) (cw_search_mode w) e).

(** *** transport.py *)
Definition path_ok (path : string) : res bool :=
  parsed ← urlsplit path;
  Ok (startswith "/" path && is_empty (sr_scheme parsed) && is_empty (sr_netloc parsed) &&
      is_empty (sr_fragment parsed) && (py_len path <=? 512)).

(** The loop over [response.aiter_bytes()] *)
Fixpoint receive (limit : Z) (size : Z) (chunks : list bytes) (fault : option exc) : res bytes :=
  match chunks with
  | [] => match fault with Some e => Raise e | None => Ok [] end
  | chunk :: rest =>
      let size := size + Z.of_nat (length chunk) in
      if limit <? size then Raise (MalformedUpstreamResponse "upstream response is too large")
      else body ← receive limit size rest fault; Ok (chunk ++ body)
  end.
Definition read_reply (limit : Z) (accept_error_payload : bool) (reply : http_reply) : res bytes :=
  match reply with
  | NoResponse e => Raise e
  | Response status chunks fault =>
      _ ← raise_if (negb ((200 <=? status) && (status <? 300)) && negb accept_error_payload) (RejectedEndpoint "http_status");
      receive limit 0 chunks fault
  end.
(** [except (asyncio.TimeoutError, httpx.RequestError)] *)
Definition is_transport_error (e : exc) : bool := match e with TimeoutError | RequestError => true | _ => false end.
Definition decode_object (body : bytes) : res (list (string * val)) :=
  payload ← except_as (json_loads_with (fun _ => Raise (ValueError "")) body) isinstance_ValueError
              (MalformedUpstreamResponse "upstream response is not valid JSON");
  match payload with VDict d => Ok d | _ => Raise (MalformedUpstreamResponse "upstream JSON is not an object") end.

Definition get_object (limit : Z) (base_url path : string) (accept_error_payload : bool) : query (list (string * val)) :=
  let* ok := pure (path_ok path) in
  let* _ := pure (require ok (ValueError "adapter path must be relative")) in
  fun w =>
    let '(reply, w) := ce_http (py_rstrip_char "/" base_url +:+ path) w in
    (body ← except_as (read_reply limit accept_error_payload reply) is_transport_error (RejectedEndpoint "transport_error");
     decode_object body, w).

(** *** RequestCache.get_or_load *)
Definition from_cached {A} (unwrap : cached_value -> option A) (v : cached_value) : res A :=
  match unwrap v with Some a => Ok a | None => Raise TypeError end.
Definition get_or_load {A} (max_entries : nat) (wrap : A -> cached_value) (unwrap : cached_value -> option A)
    (key : cache_key) (ttl : Z) (load : query A) : query A :=
  let* now := clock in
  fun w =>
    let '(o, c) := enter key now (cw_cache w) in
    let w := set_cache c w in
    match o with
    | Hit v => (from_cached unwrap v, w)
    | Follow f => let '(r, w) := ce_join key f w in (r ≫= from_cached unwrap, w)
    | Lead f =>
        match load w with
        | (Ok a, w) =>
            (let* now := clock in fun w => (Ok a, set_cache (load_done max_entries key ttl f (wrap a) now (cw_cache w)) w)) w
        | (Raise e, w) => (Raise e, set_cache (load_failed key f e (cw_cache w)) w)
        end
    end.
End shared.

(** The errors that only this package raises, and not over the transport. *)
Definition own_error (e : exc) : bool :=
  match e with
  | AllEndpointsUnavailable _ | HistoryUnavailable _ _ | NodeNotSynced _ | TransactionNotFound _ => true
  | _ => false
  end.
Definition foreign (e : exc) : bool := negb (own_error e).

(** ** Good values

    [Good] says what may be cached under a key, [Fails] what loading it may
    raise.  Whoever else runs keeps to both. *)
Section good.
Context `{PyRuntime} `{NetlocCheck} `{JsonStack} {E : Type} `{CosmosEnvironment E}.
Context (Good : cache_key -> cached_value -> Prop) (Fails : cache_key -> exc -> Prop).
#[local] Abbreviation world := (CosmosWorld E).

Definition cache_good (w : world) : Prop :=
  forall key expires v, (key, (expires, v)) ∈ c_entries (cw_cache w) -> Good key v.

Class CosmosLaws : Prop := {
  law_http : forall url w, cache_good w -> cache_good (ce_http url w).2 /\
    match (ce_http url w).1 with NoResponse e | Response _ _ (Some e) => foreign e = true | _ => True end;
  law_join : forall key f w, cache_good w -> cache_good (ce_join key f w).2 /\
    match (ce_join key f w).1 with Ok v => Good key v | Raise e => Fails key e end
}.
Context `{!CosmosLaws}.
#[local] Abbreviation satisfies := (satisfies cache_good).

Lemma cache_good_same (w w' : world) : cw_cache w' = cw_cache w -> cache_good w -> cache_good w'.
Proof. unfold cache_good. by intros ->. Qed.
Lemma satisfies_clock (X : exc -> Prop) : satisfies clock (fun _ => True) X.
Proof. intros w Hw. unfold clock. destruct (ce_clock (cw_env w)) as [now e]. split; [|done]. by eapply cache_good_same. Qed.
Lemma read_reply_foreign limit accept reply :
  match reply with NoResponse e | Response _ _ (Some e) => foreign e = true | _ => True end ->
  raises (fun e => is_transport_error e || foreign e) (read_reply limit accept reply).
Proof.
  destruct reply as [e|status chunks fault]; cbn; intros Hf; [unfold raises; by rewrite Hf, orb_true_r|].
  apply raises_bind; [by apply raises_raise_if|]. intros _ _. generalize 0. induction chunks as [|c chunks IH]; intros z; cbn.
  - destruct fault; [|done]. unfold raises. by rewrite Hf, orb_true_r.
  - destruct (_ <? _); [done|]. apply raises_bind; [apply IH|done].
Qed.
Lemma decode_object_foreign body : raises foreign (decode_object body).
Proof.
  unfold decode_object. apply raises_bind.
  - apply raises_except_as; [done|]. eapply raises_impl; [|by apply json_loads_with_fails]. intros e. by destruct e.
  - by intros [] _.
Qed.
Lemma value_error_foreign {A} (m : res A) : raises isinstance_ValueError m -> raises foreign m.
Proof. apply raises_impl. by intros []. Qed.
Lemma satisfies_get_object limit base path accept :
  satisfies (get_object limit base path accept) (fun _ => True) (fun e => foreign e = true).
Proof.
  unfold get_object. eapply satisfies_and_then; [apply satisfies_pure with (Q := fun _ => True)|].
  { assert (raises foreign (path_ok path)) as Hp.
    { apply raises_bind; [apply value_error_foreign, urlsplit_raises|done]. }
    by destruct (path_ok path). }
  intros ok _. eapply satisfies_and_then; [apply satisfies_pure with (Q := fun _ => True); by destruct ok|]. intros _ _ w Hw.
  pose proof (law_http (py_rstrip_char "/" base +:+ path) w Hw) as [Hh Hf]. destruct (ce_http _ w) as [reply w']. split; [done|].
  assert (raises foreign (body ← except_as (read_reply limit accept reply) is_transport_error (RejectedEndpoint "transport_error"); decode_object body)) as Hr.
  { apply raises_bind; [|intros; apply decode_object_foreign]. apply raises_except_as; [done|]. by apply read_reply_foreign. }
  cbn. by destruct (_ ≫= _).
Qed.

(** Whatever holds of every load of a key holds of what the cache returns. *)
Lemma satisfies_get_or_load {A} max_entries wrap (unwrap : cached_value -> option A) key ttl load (Q : A -> Prop) (X : exc -> Prop) :
  satisfies load (fun a => Good key (wrap a)) (Fails key) ->
  (forall a, Good key (wrap a) -> Q a) ->
  (forall v, Good key v -> exists a, unwrap v = Some a /\ Q a) ->
  (forall e, Fails key e -> X e) ->
  satisfies (get_or_load max_entries wrap unwrap key ttl load) Q X.
Proof.
  intros Hload Hq Hu Hx. unfold get_or_load. eapply satisfies_and_then; [apply satisfies_clock|]. intros now _ w Hw.
  pose proof (enter_subset key now (cw_cache w)) as Hsub. pose proof (enter_hit key now (cw_cache w)) as Hhit.
  destruct (enter key now (cw_cache w)) as [o c] eqn:Ee. cbn [fst snd] in Hsub.
  assert (cache_good (set_cache c w)) as Hw' by (intros k e v Hin; eapply Hw, Hsub, Hin).
  destruct o as [v|f|f].
  - split; [done|]. cbn. destruct (Hhit _ _ eq_refl) as (e & He & _). destruct (Hu v) as (a & Ha & HQ); [by eapply Hw|].
    unfold from_cached. by rewrite Ha.
  - destruct (Hload _ Hw') as [Hw2 Hr]. destruct (load (set_cache c w)) as [[a|e] w2]; cbn [fst snd] in *.
    + unfold and_then. pose proof (satisfies_clock (fun _ => False) w2 Hw2) as [Hw3 Hnow]. destruct (clock w2) as [[n|e] w3]; cbn [fst snd] in *.
      * split; [|by apply Hq]. intros k x v [[= -> -> ->]|Hin]%load_done_entry; [done|]. by eapply Hw3.
      * exfalso. done.
    + split; [|by apply Hx]. intros k x v Hin. by eapply Hw2.
  - destruct (law_join key f _ Hw') as [Hw2 Hr]. destruct (ce_join key f (set_cache c w)) as [[v|e] w2]; cbn [fst snd] in *; (split; [done|]); cbn.
    + destruct (Hu v Hr) as (a & Ha & HQ). unfold from_cached. by rewrite Ha.
    + by apply Hx.
Qed.
End good.

(** ** A scripted environment, for examples

    The clock advances by one at every reading; every URL that is not listed
    is refused, and nothing else runs while a request waits. *)
Record scripted := Scripted { sc_now : Z; sc_replies : list (string * http_reply) }.
Definition foreign_reply (r : http_reply) : bool := match r with NoResponse e | Response _ _ (Some e) => foreign e | _ => true end.
Definition script_reply (url : string) (replies : list (string * http_reply)) : http_reply :=
  match dict_get url replies with Some r => if foreign_reply r then r else NoResponse RequestError | None => NoResponse RequestError end.
Definition scripted_env : CosmosEnvironment scripted := {|
  ce_clock e := (sc_now e, Scripted (sc_now e + 1) (sc_replies e));
  ce_http url w := (script_reply url (sc_replies (cw_env w)), w);
  ce_join key f w := (Raise CancelledError, w)
|}.
Definition scripted_world (replies : list (string * http_reply)) : CosmosWorld scripted :=
  CWorld (Cache [] [] []) [] [] (Scripted 0 replies).
(** The answer with a JSON document as its body *)
Definition json_reply (v : val) : http_reply :=
  match json_dumps (H:=ascii_runtime) (Build_json_opts false true "," ":" false) v with
  | Ok text => Response 200 [list_of_string text] None
  | Raise e => NoResponse e
  end.

Lemma scripted_world_good Good replies : cache_good (E:=scripted) Good (scripted_world replies).
Proof. intros k x v []%not_elem_of_nil. Qed.
Lemma scripted_laws Good Fails : (forall key, Fails key CancelledError) ->
  @CosmosLaws scripted scripted_env Good Fails.
Proof.
  intros Hc. split.
  - intros url w Hw. split; [done|]. cbn. unfold script_reply. destruct (dict_get _ _) as [r|]; [|done].
    destruct (foreign_reply r) eqn:Ef; [|done]. by destruct r as [|? ? []].
  - intros key f w Hw. split; [done|]. apply Hc.
Qed.
