(* ===== verification/HistoryCursor.v ===== *)
(** * api/cosmos/transaction_endpoint_policy.py: the cursors of the history

    A position of the walk through the transaction history is an anchor height,
    the upper end of a window of 2,000 heights below it, and a page of that
    window.  Cursors are texts of positions; [_newer_history_cursor] is the
    override of api/cosmos/service.py. *)
From Stdlib Require Import ZArith NArith Lia Ascii String Wellfounded.
From stdpp Require Import base list strings.
From S2P Require Import Prelude PyStr PyVal Digits.
Open Scope Z_scope.

Definition _TX_HISTORY_WINDOW : Z := 2000.
Definition _TX_HISTORY_MAX_WINDOW_PAGE : Z := 10000.

(** ** Cursors *)
Definition invalid_cursor : exc := ValueError "invalid transaction history cursor".
Definition encode_history_cursor (anchor upper page : Z) : res string :=
  _ ← raise_if ((anchor <=? 0) || (upper <=? 0) || (anchor <? upper) || negb ((1 <=? page) && (page <=? _TX_HISTORY_MAX_WINDOW_PAGE))) invalid_cursor;
  _ ← raise_if (negb ((anchor - upper) mod _TX_HISTORY_WINDOW =? 0)) invalid_cursor;
  Ok ("v1." +:+ str_of_Z anchor +:+ "." +:+ str_of_Z upper +:+ "." +:+ str_of_Z page).
(** [[1-9][0-9]{0,n-1}] *)
Definition cursor_number (n : nat) (s : string) : option Z :=
  match mapM (M:=option) ascii_digit (list_of_string s) with
  | Some ((d :: _) as ds) => if negb (d =? 0) && (length ds <=? n)%nat then Some (digits_value ds) else None
  | _ => None
  end.
Definition decode_history_cursor (cursor : string) : res (Z * Z * Z) :=
  _ ← require ((1 <=? py_len cursor) && (py_len cursor <=? 80)) invalid_cursor;
  match py_split "." cursor with
  | [v1; a; u; p] =>
      match String.eqb v1 "v1", cursor_number 19 a, cursor_number 19 u, cursor_number 5 p with
      | true, Some anchor, Some upper, Some page => _ ← encode_history_cursor anchor upper page; Ok (anchor, upper, page)
      | _, _, _, _ => Raise invalid_cursor
      end
  | _ => Raise invalid_cursor
  end.

Definition window_lower (upper : Z) : Z := Z.max 1 (upper - _TX_HISTORY_WINDOW + 1).

(** [_newer_history_cursor] (service.py): one page or one window toward the anchor *)
Definition newer_history_cursor (anchor upper page : Z) : res (option string) :=
  if 1 <? page then
    let target_page := page - 1 in
    if (upper =? anchor) && (target_page =? 1) then Ok None else Some <$> encode_history_cursor anchor upper target_page
  else if anchor <=? upper then Ok None
  else
    let newer_upper := Z.min anchor (upper + _TX_HISTORY_WINDOW) in
    if newer_upper =? anchor then Ok None else Some <$> encode_history_cursor anchor newer_upper 1.

(** ** Cursors: a bijection with the positions of the walk *)
Definition position_ok (anchor upper page : Z) : Prop :=
  1 <= upper <= anchor /\ 1 <= page <= _TX_HISTORY_MAX_WINDOW_PAGE /\ (anchor - upper) mod _TX_HISTORY_WINDOW = 0.
Definition cursor_text (anchor upper page : Z) : string :=
  "v1." +:+ str_of_Z anchor +:+ "." +:+ str_of_Z upper +:+ "." +:+ str_of_Z page.
Lemma encode_ok anchor upper page : position_ok anchor upper page -> encode_history_cursor anchor upper page = Ok (cursor_text anchor upper page).
Proof.
  intros (Hu & Hp & Hm). unfold encode_history_cursor, raise_if.
  assert ((anchor <=? 0) || (upper <=? 0) || (anchor <? upper) || negb ((1 <=? page) && (page <=? _TX_HISTORY_MAX_WINDOW_PAGE)) = false) as -> by lia.
  by rewrite Hm.
Qed.
Lemma encode_inv anchor upper page c : encode_history_cursor anchor upper page = Ok c -> position_ok anchor upper page /\ c = cursor_text anchor upper page.
Proof.
  unfold encode_history_cursor. intros E. apply bind_Ok in E as ([] & H1%raise_if_Ok & E). apply bind_Ok in E as ([] & H2%raise_if_Ok & E).
  injection E as <-. split; [|done]. unfold position_ok. apply negb_false_iff, Z.eqb_eq in H2. lia.
Qed.
Lemma encode_raises anchor upper page : raises isinstance_ValueError (encode_history_cursor anchor upper page).
Proof. apply raises_bind; [by apply raises_raise_if|]. intros _ _. apply raises_bind; [by apply raises_raise_if|done]. Qed.

Lemma str_of_Z_pos z : 0 <= z -> str_of_Z z = digits_str (dec_digits z).
Proof. intros Hz. unfold str_of_Z. by rewrite (proj2 (Z.ltb_ge z 0)). Qed.
Lemma cursor_number_Some n s z : (0 < n)%nat -> cursor_number n s = Some z <-> s = str_of_Z z /\ 1 <= z < 10 ^ Z.of_nat n.
Proof.
  intros Hn0. unfold cursor_number. split.
  - destruct (mapM _ _) as [ds|] eqn:Em; [|done]. apply mapM_ascii_digit in Em as [Hf ->]. destruct ds as [|d ds]; [done|].
    destruct (Z.eqb_spec d 0) as [|Hd]; [done|]. cbn [negb andb]. destruct (Nat.leb_spec (length (d :: ds)) n) as [Hl|]; [|done]. intros [= <-].
    pose proof (digits_value_range _ Hf) as Hr. rewrite str_of_Z_pos by lia. rewrite (dec_digits_value (d :: ds) d ds) by done. split; [done|]. split.
    + change (d :: ds) with ([d] ++ ds). rewrite digits_value_app. apply Forall_cons in Hf as [Hdig Hds]. pose proof (digits_value_range ds Hds).
      change (digits_value [d]) with d. unfold digit in Hdig. nia.
    + eapply Z.lt_le_trans; [apply Hr|]. apply Z.pow_le_mono_r; lia.
  - intros [-> Hz]. destruct (dec_digits_ok z) as (Hv & Hf & Hn & Hl); [lia|]. rewrite str_of_Z_pos by lia.
    rewrite (proj2 (mapM_ascii_digit _ _) (conj Hf eq_refl)). pose proof (dec_digits_head z) as Hh.
    assert (Z.of_nat (length (dec_digits z)) <= Z.of_nat n) as Hlen by (apply Hl; lia).
    destruct (dec_digits z) as [|d ds]; [done|]. specialize (Hh d ds ltac:(lia) eq_refl). rewrite (proj2 (Z.eqb_neq d 0)) by done.
    rewrite (proj2 (Nat.leb_le (length (d :: ds)) n)) by lia. cbn [negb andb]. by rewrite Hv.
Qed.
Lemma str_of_Z_no_dot z : 0 <= z -> str_forallb (fun c => negb (bool_decide (c = "."%char))) (str_of_Z z) = true.
Proof.
  intros Hz. rewrite str_of_Z_pos by done. destruct (dec_digits_ok z Hz) as (_ & Hf & _). unfold digits_str. rewrite str_forallb_of_list.
  apply forallb_forall. intros a Ha%in_map_iff. destruct Ha as (d & <- & Hd). rewrite Forall_forall in Hf. apply list_elem_of_In in Hd.
  apply (digit_cases (fun d => negb (bool_decide (digit_char d = "."%char)) = true) d (Hf _ Hd)). by repeat constructor.
Qed.
Lemma cursor_text_split anchor upper page : 0 <= anchor -> 0 <= upper -> 0 <= page ->
  py_split "." (cursor_text anchor upper page) = ["v1"; str_of_Z anchor; str_of_Z upper; str_of_Z page].
Proof.
  intros Ha Hu Hp. change (cursor_text anchor upper page) with (py_join (String "." "") ["v1"; str_of_Z anchor; str_of_Z upper; str_of_Z page]).
  apply py_split_join; [done|]. repeat constructor; by apply str_of_Z_no_dot.
Qed.
Lemma py_len_le_length s : py_len s <= Z.of_nat (String.length s).
Proof.
  unfold py_len. induction s as [|c s IH]; [done|]. cbn [chars String.length].
  destruct (chars s) as [|[|d t] rest]; cbn [length] in *; try lia. destruct (is_cont d); cbn [length]; lia.
Qed.
Lemma str_of_Z_length z n : 1 <= n -> 0 <= z < 10 ^ n -> Z.of_nat (String.length (str_of_Z z)) <= n.
Proof.
  intros Hn Hz. rewrite str_of_Z_pos by lia. unfold digits_str. rewrite str_length_of_list, length_map.
  destruct (dec_digits_ok z) as (_ & _ & _ & Hl); [lia|]. apply Hl; lia.
Qed.
Lemma cursor_text_length anchor upper page : 0 <= anchor < 10 ^ 19 -> 0 <= upper < 10 ^ 19 -> 0 <= page < 10 ^ 5 ->
  1 <= py_len (cursor_text anchor upper page) <= 80.
Proof.
  intros Ha Hu Hp. split.
  - unfold py_len. destruct (chars (cursor_text anchor upper page)) eqn:E1; [|cbn; lia]. by apply chars_nil in E1.
  - etrans; [apply py_len_le_length|]. unfold cursor_text. rewrite !str_length_app. cbn [String.length].
    pose proof (str_of_Z_length anchor 19). pose proof (str_of_Z_length upper 19). pose proof (str_of_Z_length page 5). lia.
Qed.
Lemma decode_cursor_text anchor upper page : position_ok anchor upper page -> anchor < 10 ^ 19 ->
  decode_history_cursor (cursor_text anchor upper page) = Ok (anchor, upper, page).
Proof.
  intros Hok Ha. pose proof Hok as (Hu & Hp & _). unfold _TX_HISTORY_MAX_WINDOW_PAGE in Hp. unfold decode_history_cursor.
  destruct (cursor_text_length anchor upper page) as [H1 H2]; [lia..|].
  rewrite (proj2 (Z.leb_le _ _) H1), (proj2 (Z.leb_le _ _) H2). cbn [andb require mbind res_bind].
  rewrite cursor_text_split by lia. rewrite String.eqb_refl.
  assert (forall n z, (0 < n)%nat -> 1 <= z < 10 ^ Z.of_nat n -> cursor_number n (str_of_Z z) = Some z) as Hc by (intros; by apply cursor_number_Some).
  rewrite !Hc by lia. by rewrite encode_ok.
Qed.
Lemma decode_cursor_inv c anchor upper page : decode_history_cursor c = Ok (anchor, upper, page) ->
  position_ok anchor upper page /\ anchor < 10 ^ 19 /\ c = cursor_text anchor upper page.
Proof.
  unfold decode_history_cursor. intros E. apply bind_Ok in E as (? & _ & E).
  pose proof (py_join_split "." c) as Hj. destruct (py_split "." c) as [|v1 [|a [|u [|p [|]]]]]; try done.
  destruct (String.eqb_spec v1 "v1") as [->|]; [|done].
  destruct (cursor_number 19 a) as [za|] eqn:Ea; [|done]. destruct (cursor_number 19 u) as [zu|] eqn:Eu; [|done].
  destruct (cursor_number 5 p) as [zp|] eqn:Ep; [|done].
  apply bind_Ok in E as (t & [Hok _]%encode_inv & E). injection E as <- <- <-.
  apply cursor_number_Some in Ea as [-> Ha], Eu as [-> Hu], Ep as [-> Hp]; [|lia..]. split; [done|]. split; [lia|]. symmetry. exact Hj.
Qed.
Lemma decode_raises c : raises isinstance_ValueError (decode_history_cursor c).
Proof.
  unfold decode_history_cursor. apply raises_bind; [by apply raises_require|]. intros _ _.
  destruct (py_split "." c) as [|v1 [|a [|u [|p [|]]]]]; try done. destruct (String.eqb v1 "v1"); [|done].
  destruct (cursor_number 19 a); [|done]. destruct (cursor_number 19 u); [|done]. destruct (cursor_number 5 p); [|done].
  apply raises_bind; [apply encode_raises|done].
Qed.

(** The cursor of a position of the walk decodes to that position, for every
    height below 10^19; and every accepted cursor is the cursor of the position
    it decodes to, so two cursors never denote the same page. *)
Theorem history_cursor_roundtrip :
  (forall anchor upper page, position_ok anchor upper page -> anchor < 10 ^ 19 ->
     encode_history_cursor anchor upper page ≫= decode_history_cursor = Ok (anchor, upper, page)) /\
  (forall c, match decode_history_cursor c with
             | Ok (anchor, upper, page) => position_ok anchor upper page /\ encode_history_cursor anchor upper page = Ok c
             | Raise e => isinstance_ValueError e = true
             end).
Proof.
  split.
  - intros anchor upper page Hok Ha. rewrite encode_ok by done. by apply decode_cursor_text.
  - intros c. pose proof (decode_raises c) as Hr. destruct (decode_history_cursor c) as [[[anchor upper] page]|e] eqn:E; [|exact Hr].
    apply decode_cursor_inv in E as (Hok & _ & ->). split; [done|]. by apply encode_ok.
Qed.
Lemma history_cursor_roundtrip_witness :
  encode_history_cursor 25000000 24998000 3 ≫= decode_history_cursor = Ok (25000000, 24998000, 3).
Proof. apply (proj1 history_cursor_roundtrip); [|lia]. by repeat split. Defined.


(** ** The walk

    An older cursor goes to the next page of the window, or to the first page
    of the window below. *)
Definition position : Type := Z * Z.                                  (* upper, page *)
Definition older_step (from to : position) : Prop :=
  (to.1 = from.1 /\ to.2 = from.2 + 1) \/ (to.1 = from.1 - _TX_HISTORY_WINDOW /\ to.2 = 1).
Definition live (anchor : Z) : position := (anchor, 1).

Lemma window_multiple a u : (a - u) mod _TX_HISTORY_WINDOW = 0 <-> exists k, a - u = k * _TX_HISTORY_WINDOW.
Proof.
  unfold _TX_HISTORY_WINDOW. split.
  - intros Hm. exists ((a - u) / 2000). pose proof (Z.div_mod (a - u) 2000). lia.
  - intros [k ->]. apply Z_mod_mult.
Qed.
Lemma position_window_below anchor upper page : position_ok anchor upper page -> 1 < window_lower upper ->
  position_ok anchor (window_lower upper - 1) 1 /\ window_lower upper - 1 = upper - _TX_HISTORY_WINDOW.
Proof.
  unfold position_ok, window_lower. intros (Hu & Hp & Hm) Hl. apply window_multiple in Hm as [k Hk].
  assert (Z.max 1 (upper - _TX_HISTORY_WINDOW + 1) - 1 = upper - _TX_HISTORY_WINDOW) as Heq by lia. rewrite Heq.
  unfold _TX_HISTORY_WINDOW, _TX_HISTORY_MAX_WINDOW_PAGE in *. split; [|done]. split; [lia|]. split; [lia|].
  apply window_multiple. exists (k + 1). unfold _TX_HISTORY_WINDOW. lia.
Qed.

(** C19. From every position but the live one, the newer cursor is a position that
    an older cursor leads back from, and no cursor means the live view; the call
    never raises.  Older steps cannot go on for ever, and every height up to the
    anchor lies in exactly one window of the walk. *)
Theorem history_navigation anchor : 1 <= anchor < 10 ^ 19 ->
  (forall upper page, position_ok anchor upper page ->
     match newer_history_cursor anchor upper page with
     | Ok (Some c) => exists q, decode_history_cursor c = Ok (anchor, q.1, q.2) /\ older_step q (upper, page) /\ q <> live anchor
     | Ok None => (upper, page) = live anchor \/ older_step (live anchor) (upper, page)
     | Raise _ => False
     end) /\
  well_founded (fun q p => position_ok anchor q.1 q.2 /\ position_ok anchor p.1 p.2 /\ older_step p q) /\
  (forall h, 1 <= h <= anchor -> exists upper, (position_ok anchor upper 1 /\ window_lower upper <= h <= upper) /\
     forall u, position_ok anchor u 1 -> window_lower u <= h <= u -> u = upper).
Proof.
  intros Ha. split; [|split].
  - intros upper page Hok. pose proof Hok as (Hu & Hp & Hm). unfold newer_history_cursor.
    destruct (Z.ltb_spec 1 page) as [Hpage|Hpage].
    + destruct ((upper =? anchor) && (page - 1 =? 1)) eqn:Eb.
      { apply andb_true_iff in Eb as [->%Z.eqb_eq E2%Z.eqb_eq]. right. left. cbn. lia. }
      assert (position_ok anchor upper (page - 1)) as Hok' by (unfold position_ok; split_and!; [lia..|done]).
      rewrite encode_ok by done. cbn [fmap res_fmap]. exists (upper, page - 1). split_and!; [apply decode_cursor_text; [done|lia]|left; cbn; lia|].
      intros [= -> Hq]. apply andb_false_iff in Eb as [E1%Z.eqb_neq|E2%Z.eqb_neq]; lia.
    + assert (page = 1) as -> by lia. destruct (Z.leb_spec anchor upper) as [Hau|Hau].
      { left. unfold live. f_equal. lia. }
      apply window_multiple in Hm as [k Hk]. assert (1 <= k) as Hk1 by (unfold _TX_HISTORY_WINDOW in Hk; lia).
      assert (upper + _TX_HISTORY_WINDOW <= anchor) as Hle by (unfold _TX_HISTORY_WINDOW in *; lia).
      rewrite Z.min_r by lia. destruct (Z.eqb_spec (upper + _TX_HISTORY_WINDOW) anchor) as [He|He].
      { right. right. cbn. lia. }
      assert (position_ok anchor (upper + _TX_HISTORY_WINDOW) 1) as Hok'.
      { unfold position_ok. split_and!; [unfold _TX_HISTORY_WINDOW; lia|lia|lia|lia|]. apply window_multiple. exists (k - 1). lia. }
      rewrite encode_ok by done. cbn [fmap res_fmap]. exists (upper + _TX_HISTORY_WINDOW, 1).
      split_and!; [apply decode_cursor_text; [done|lia]|right; cbn; lia|]. unfold live. intros [= ?]. lia.
  - eapply (wf_incl _ _ (fun q p : position => 0 <= q.1 * 10001 + (10000 - q.2) < p.1 * 10001 + (10000 - p.2)));
      [|apply (wf_inverse_image _ _ (fun x y => 0 <= x < y)), Z.lt_wf].
    intros [u' p'] [u p] ((Hu' & Hp' & _) & (Hu & Hp & _) & Hs). cbn in *. unfold _TX_HISTORY_MAX_WINDOW_PAGE in *.
    unfold older_step, _TX_HISTORY_WINDOW in Hs. cbn in Hs. lia.
  - intros h Hh. exists (anchor - (anchor - h) / _TX_HISTORY_WINDOW * _TX_HISTORY_WINDOW).
    unfold position_ok, window_lower, _TX_HISTORY_WINDOW, _TX_HISTORY_MAX_WINDOW_PAGE in *.
    pose proof (Z.div_mod (anchor - h) 2000 ltac:(lia)) as Hd. pose proof (Z.mod_pos_bound (anchor - h) 2000 ltac:(lia)) as Hm.
    split.
    + split_and!; try lia. replace (anchor - (anchor - (anchor - h) / 2000 * 2000)) with ((anchor - h) / 2000 * 2000) by lia. apply Z_mod_mult.
    + intros u (Hu & _ & Hmu) Hr. pose proof (Z.div_mod (anchor - u) 2000 ltac:(lia)) as Hdu. lia.
Qed.
Lemma history_navigation_witness : exists q, decode_history_cursor "v1.9000.5000.1" = Ok (9000, 5000, 1) /\
  newer_history_cursor 9000 5000 1 = Ok (Some (cursor_text 9000 7000 1)) /\ older_step q (5000, 1) /\ q <> live 9000.
Proof.
  pose proof (proj1 (history_navigation 9000 ltac:(lia)) 5000 1 ltac:(by vm_compute)) as Hn.
  vm_compute newer_history_cursor in Hn. destruct Hn as (q & _ & Hs & Hq). exists q. split; [by vm_compute|]. split; [by vm_compute|]. by split.
Defined.
