(* ===== verification/CosmosAdapter.v ===== *)
(** * api/cosmos/adapter.py: endpoint selection and failover

    The candidates of a kind of endpoint, the chain head, the node status and
    a block, each tried endpoint by endpoint and cached.  [ticks] turns the
    numbers of seconds of the configuration into the unit of the clock.  The
    log lines, and the unused generator [rest_failover], are not modelled. *)
From Stdlib Require Import ZArith NArith Lia Ascii String SpecFloat.
From stdpp Require Import base gmap sets list strings sorting.
From S2P Require Import Prelude Query PyStr PyVal Codec Json Scan RequestCache Digits Rfc3339 CosmosParsing IpAddress Url CosmosConfig CosmosCache HistoryCursor.
Open Scope Z_scope.

Definition REST_LATEST_BLOCK : string := "/cosmos/base/tendermint/v1beta1/blocks/latest".

(** ** The message of a pruned node

    [height\s+\d+\s+is not available(?:, lowest height is\s+(\d+))?] with
    re.IGNORECASE: whether it matches, and the digits of the group. *)
Definition uni_digits (l : list string) : option (list string * list string) :=
  let '(ds, r) := span_chars re_digit l in match ds with [] => None | _ => Some (ds, r) end.
Definition pruned_at (l : list string) : option (option (list string)) :=
  '(_, l) ← ci "height" l;
  l ← spaces1 l;
  '(_, l) ← uni_digits l;
  l ← spaces1 l;
  '(_, l) ← ci "is not available" l;
  Some (
    '(_, l) ← ci ", lowest height is" l;
    l ← spaces1 l;
    '(ds, _) ← uni_digits l;
    Some ds).
Fixpoint pruned_search (l : list string) : option (option (list string)) :=
  match pruned_at l with
  | Some r => Some r
  | None => match l with [] => None | _ :: l => pruned_search l end
  end.
(** [int(match.group(1)) if match.group(1) else None] *)
Definition lowest_height (group : option (list string)) : res (option Z) :=
  match group with Some ds => Some <$> py_int_str (str_concat ds) | None => Ok None end.

(** [min(known) if known else None] *)
Definition min_option (known : list Z) : option Z :=
  match known with [] => None | x :: known => Some (foldr Z.min x known) end.

Section adapter.
Context `{PyRuntime} `{NetlocCheck} `{JsonStack} {E : Type} `{CosmosEnvironment E}.
Context (config : CosmosNetworkConfig) (ticks : val -> Z) (max_entries : nat).
#[local] Abbreviation world := (CosmosWorld E).
#[local] Abbreviation query := (query (W:=world)).
#[local] Notation "'let*' p := m 'in' k" := (and_then m (fun p => k))
  (at level 10, p strict pattern, m at level 200, k at level 200).

(** [urlsplit(endpoint).hostname or "invalid"] *)
Definition host (endpoint : string) : res string :=
  parsed ← urlsplit endpoint; Ok (default "invalid" (hostname parsed)).

Definition get (endpoint path : string) (accept : bool) : query val :=
  let* d := get_object (cc_max_response_bytes config) endpoint path accept in pure (Ok (VDict d)).
Definition caught : exc -> bool := isinstance_Exception.
Definition section (s : cache_section) : cache_key := (cc_network_id config, s).

(** *** Candidates *)
Definition endpoints_of (kind : string) : list string :=
  if String.eqb kind "rpc" then cc_rpc_endpoints config else cc_rest_endpoints config.

(** The [try] block of one endpoint. *)
Definition probe_candidate (kind : string) (order : nat) (endpoint : string) (started : Z) : query candidate :=
  let* payload := get endpoint (if String.eqb kind "rpc" then "/status" else REST_LATEST_BLOCK) false in
  let* source_host := pure (host endpoint) in
  let* head := pure (if String.eqb kind "rpc" then
      head ← parse_rpc_status payload (cc_network_id config) (cc_chain_id config) source_host;
      _ ← raise_if (ch_catching_up head) (RejectedEndpoint "catching_up");
      Ok head
    else parse_rest_head payload (cc_network_id config) (cc_chain_id config) source_host) in
  let* now := clock in
  pure (Ok (Candidate endpoint (ch_latest_height head) (Z.max 0 (now - started)) order)).
Fixpoint probe_candidates (kind : string) (l : list (nat * string)) : query (list candidate) :=
  match l with
  | [] => pure (Ok [])
  | (order, endpoint) :: l =>
      let* started := clock in
      let* found := catch (let* c := probe_candidate kind order endpoint started in pure (Ok [c]))
                      caught (fun _ => pure (Ok [])) in
      let* rest := probe_candidates kind l in
      pure (Ok (found ++ rest))
  end.
Definition candidate_leb (a b : candidate) : bool :=
  (cd_latency a <? cd_latency b) || ((cd_latency a =? cd_latency b) && (cd_order a <=? cd_order b)%nat).
Definition highest (l : list candidate) : Z := max_list 0 (map cd_height l).
Definition fresh (l : list candidate) : list candidate :=
  List.filter (fun c => highest l - cd_height c <=? cc_max_height_lag config) l.
Definition candidates (kind : string) : query (list candidate) :=
  let* found := probe_candidates kind (enumerate (endpoints_of kind)) in
  pure (_ ← raise_if (bool_decide (found = [])) (AllEndpointsUnavailable "no validated");
        _ ← raise_if (bool_decide (fresh found = [])) (AllEndpointsUnavailable "no fresh");
        Ok (sort_by candidate_leb (fresh found))).
Definition cached_candidates (kind : string) : query (list candidate) :=
  get_or_load max_entries CCandidates (fun v => match v with CCandidates l => Some l | _ => None end)
    (section (KCandidates kind)) (ticks (cc_probe_ttl config)) (candidates kind).

(** *** chain_head *)
Definition read_head (minimum_fresh_height : Z) (c : candidate) : query ChainHead :=
  let* payload := get (cd_endpoint c) "/status" false in
  let* source_host := pure (host (cd_endpoint c)) in
  pure (head ← parse_rpc_status payload (cc_network_id config) (cc_chain_id config) source_host;
        _ ← raise_if (ch_catching_up head) (RejectedEndpoint "catching_up");
        _ ← raise_if (ch_latest_height head <? minimum_fresh_height) (RejectedEndpoint "stale_height");
        Ok head).
Definition load_head : query ChainHead :=
  let* l := cached_candidates "rpc" in
  let* _ := pure (raise_if (bool_decide (l = [])) (ValueError "max() arg is an empty sequence")) in
  try_each caught (read_head (highest l - cc_max_height_lag config)) l
    (pure (Raise (AllEndpointsUnavailable "all validated RPC endpoints failed"))).
Definition chain_head : query ChainHead :=
  get_or_load max_entries CHead (fun v => match v with CHead h => Some h | _ => None end)
    (section KChainHead) (ticks (cc_cache_ttl config)) load_head.

(** *** node_status *)
Definition read_status (endpoint : string) : query NodeStatus :=
  let* payload := get endpoint "/status" false in
  let* source_host := pure (host endpoint) in
  pure (parse_node_status payload (cc_network_id config) (cc_chain_id config) source_host).
Fixpoint first_synced (l : list string) (syncing : option NodeStatus) : query NodeStatus :=
  match l with
  | [] =>
      match syncing with
      | Some s => pure (Ok s)
      | None => pure (Raise (AllEndpointsUnavailable "no identity-validated RPC status"))
      end
  | endpoint :: l =>
      let* status := catch (let* s := read_status endpoint in pure (Ok (Some s))) caught (fun _ => pure (Ok None)) in
      match status with
      | Some s =>
          if negb (ns_catching_up s) then pure (Ok s)
          else first_synced l (match syncing with Some _ => syncing | None => Some s end)
      | None => first_synced l syncing
      end
  end.
Definition node_status : query NodeStatus :=
  get_or_load max_entries CStatus (fun v => match v with CStatus s => Some s | _ => None end)
    (section KNodeStatus) (ticks (VFloat (f_of_Z 2))) (first_synced (cc_rpc_endpoints config) None).

(** *** block *)

(** The endpoints that are still syncing, when no endpoint is ready. *)
Fixpoint syncing_candidates (l : list (nat * string)) : query (list candidate) :=
  match l with
  | [] => pure (Ok [])
  | (order, endpoint) :: l =>
      let* found := catch (let* s := read_status endpoint in
                           pure (Ok (if ns_catching_up s then [Candidate endpoint (ns_local_height s) 0 order] else [])))
                      caught (fun _ => pure (Ok [])) in
      let* rest := syncing_candidates l in
      pure (Ok (found ++ rest))
  end.
Definition is_all_unavailable (e : exc) : bool := match e with AllEndpointsUnavailable _ => true | _ => false end.
(** The candidates of [block], and whether they are only syncing ones. *)
Definition block_candidates (h : Z) (source : string) : query (list candidate * bool) :=
  catch (let* l := cached_candidates source in pure (Ok (l, false))) is_all_unavailable (fun e =>
    if negb (String.eqb source "rpc") then pure (Raise e)
    else
      let* l := syncing_candidates (enumerate (cc_rpc_endpoints config)) in
      pure (_ ← raise_if (bool_decide (l = [])) e;
            _ ← raise_if (forallb (fun c => cd_height c <? h) l) (NodeNotSynced "node_not_synced");
            Ok (l, true))).

(** The height of the node's pruning message, when the answer has one. *)
Definition pruning_of (payload : val) : res (option (option Z)) :=
  error ← py_get payload "error";
  match error with
  | VDict error =>
      let message := por (dget error "data") (dget error "message") in
      match pruned_search (chars (default EmptyString (as_str message))) with
      | Some group => Some <$> lowest_height group
      | None => Ok None
      end
  | _ => Ok None
  end.
Definition read_block (h : Z) (source path : string) (c : candidate) : query BlockSummary :=
  let* payload := get (cd_endpoint c) path (String.eqb source "rpc") in
  let* pruned := pure (if String.eqb source "rpc" then pruning_of payload else Ok None) in
  match pruned with
  | Some lowest => pure (Raise (HistoryUnavailable h lowest))
  | None =>
      pure (result ← (if String.eqb source "rpc" then parse_rpc_block payload (cc_network_id config) (cc_chain_id config)
                      else parse_rest_block payload (cc_network_id config) (cc_chain_id config));
            _ ← raise_if (negb (bs_height result =? h)) (RejectedEndpoint "wrong_height");
            Ok result)
  end.
Fixpoint first_block (h : Z) (source path : string) (syncing_only : bool) (l : list candidate) (observed : list (option Z)) : query BlockSummary :=
  match l with
  | [] =>
      match observed with
      | [] => pure (Raise (AllEndpointsUnavailable "all validated"))
      | _ =>
          pure (Raise (HistoryUnavailable h (min_option (omap id observed))))        (* the known ones *)
      end
  | c :: l =>
      if syncing_only && (cd_height c <? h) then first_block h source path syncing_only l observed
      else
        fun w =>
          match read_block h source path c w with
          | (Raise (HistoryUnavailable _ lowest), w) => first_block h source path syncing_only l (observed ++ [lowest]) w
          | (Raise e, w) => if caught e then first_block h source path syncing_only l observed w else (Raise e, w)
          | r => r
          end
  end.
Definition block_path (h : Z) (source : string) : string :=
  if String.eqb source "rpc" then "/block?height=" +:+ str_of_Z h
  else "/cosmos/base/tendermint/v1beta1/blocks/" +:+ str_of_Z h.
Definition load_block (h : Z) (source : string) : query BlockSummary :=
  let* found := block_candidates h source in
  first_block h source (block_path h source) found.2 found.1 [].
Definition block (h : Z) (source : string) : query BlockSummary :=
  let* _ := pure (raise_if (h <=? 0) (ValueError "height must be a positive integer")) in
  let* _ := pure (require (in_strs source ["rpc"; "rest"]) (ValueError "source must be RPC or REST")) in
  get_or_load max_entries CBlock (fun v => match v with CBlock b => Some b | _ => None end)
    (section (KBlock source h)) (ticks (cc_cache_ttl config)) (load_block h source).
End adapter.

(** ** The failover of a block, in two stages

    [block_reads] is what the endpoints answer, in order, through the first
    block or cancellation; [settle] the outcome, of these answers alone. *)
Section block_reference.
Context `{PyRuntime} `{NetlocCheck} `{JsonStack} {E : Type} `{CosmosEnvironment E}.
Context (config : CosmosNetworkConfig).
Fixpoint block_reads (h : Z) (source path : string) (l : list candidate) (w : CosmosWorld E) : list (res BlockSummary) * CosmosWorld E :=
  match l with
  | [] => ([], w)
  | c :: l =>
      let '(r, w) := read_block config h source path c w in
      match r with
      | Raise e => if caught e then let '(rs, w) := block_reads h source path l w in (r :: rs, w) else ([r], w)
      | Ok _ => ([r], w)
      end
  end.
Definition lowest_of (r : res BlockSummary) : option (option Z) :=
  match r with Raise (HistoryUnavailable _ lowest) => Some lowest | _ => None end.
Definition settle (h : Z) (observed : list (option Z)) (rs : list (res BlockSummary)) : res BlockSummary :=
  match last rs with
  | Some (Ok b) => Ok b
  | Some (Raise e) => if caught e then
      match observed ++ omap lowest_of rs with
      | [] => Raise (AllEndpointsUnavailable "all validated")
      | pruned => Raise (HistoryUnavailable h (min_option (omap id pruned)))
      end else Raise e
  | None => match observed with
            | [] => Raise (AllEndpointsUnavailable "all validated")
            | _ => Raise (HistoryUnavailable h (min_option (omap id observed)))
            end
  end.
End block_reference.

Lemma min_option_least l m : min_option l = Some m -> m ∈ l /\ forall x, x ∈ l -> m <= x.
Proof.
  destruct l as [|x l]; [done|]. cbn. intros [= <-]. induction l as [|y l IH]; cbn.
  - split; [left|]. by intros y ->%list_elem_of_singleton.
  - destruct IH as [Hin Hle]. split.
    + destruct (Z.min_spec y (foldr Z.min x l)) as [[_ ->]|[_ ->]]; set_solver.
    + intros z Hz. rewrite !elem_of_cons in Hz. destruct Hz as [->|[->|Hz]]; [|lia|].
      * specialize (Hle x ltac:(left)). lia.
      * specialize (Hle z ltac:(by right)). lia.
Qed.

(** ** What the adapter promises *)
Section adapter_contract.
Context `{PyRuntime} `{NetlocCheck} `{JsonStack} {E : Type} `{CosmosEnvironment E}.
Context (config : CosmosNetworkConfig) (ticks : val -> Z) (max_entries : nat).
#[local] Abbreviation network := (cc_network_id config).
#[local] Abbreviation chain := (cc_chain_id config).

(** Validated candidates of a kind: configured endpoints, each at most once,
    the heights within the configured lag of each other, fastest first. *)
Record candidates_ok (kind : string) (l : list candidate) : Prop := {
  ca_nonempty : l <> [];
  ca_configured : forall c, c ∈ l -> endpoints_of config kind !! cd_order c = Some (cd_endpoint c);
  ca_once : NoDup (map cd_order l);
  ca_height : forall c, c ∈ l -> 1 <= cd_height c <= MAX_INT64;
  ca_latency : forall c, c ∈ l -> 0 <= cd_latency c;
  ca_lag : forall c d, c ∈ l -> d ∈ l -> cd_height c - cd_height d <= cc_max_height_lag config;
  ca_sorted : StronglySorted (fun a b => candidate_leb a b = true) l
}.
Record head_ok (h : ChainHead) : Prop := {
  ho_network : ch_network_id h = network;
  ho_chain : ch_chain_id h = chain;
  ho_height : 1 <= ch_latest_height h <= MAX_INT64;
  ho_time : is_time (ch_latest_block_time h);
  ho_synced : ch_catching_up h = false
}.
Record status_ok (s : NodeStatus) : Prop := {
  so_network : ns_network_id s = network;
  so_chain : ns_chain_id s = chain;
  so_height : 1 <= ns_local_height s <= MAX_INT64;
  so_time : is_time (ns_latest_block_time s)
}.

(** A window of the transaction history. *)
Record window_ok (limit : Z) (w : window_response) : Prop := {
  wo_rows : Forall row_ok (wr_transactions w);
  wo_limit : Z.of_nat (length (wr_transactions w)) <= limit;
  wo_total : forall t, wr_total w = Some t -> in_int64 t;
  wo_unavailable : wr_available w = false -> w = Window false [] None None
}.

(** A page of the history: where the walk from the cursor stopped, at most
    eight windows below, and the positions its cursors lead to. *)
Definition walked (from : position) (r : history_response) : Prop :=
  exists k, 0 <= k < 8 /\ hr_window_to r = from.1 - k * _TX_HISTORY_WINDOW /\ hr_window_page r = (if k =? 0 then from.2 else 1).
Record history_ok (limit : Z) (cursor : string) (r : history_response) : Prop := {
  hi_rows : Forall row_ok (hr_transactions r);
  hi_limit : Z.of_nat (length (hr_transactions r)) <= limit;
  hi_position : position_ok (hr_anchor_height r) (hr_window_to r) (hr_window_page r);
  hi_window : hr_window_from r = window_lower (hr_window_to r);
  hi_start : match decode_history_cursor cursor with
             | Ok (anchor, upper, page) => hr_anchor_height r = anchor /\ walked (upper, page) r
             | Raise _ => walked (live (hr_anchor_height r)) r
             end;
  hi_older : match hr_older_cursor r with
             | Some c => exists q, decode_history_cursor c = Ok (hr_anchor_height r, q.1, q.2) /\ older_step (hr_window_to r, hr_window_page r) q
             | None => hr_available r = true -> hr_window_from r = 1
             end;
  hi_newer : if is_Ok (decode_history_cursor cursor) && hr_available r
             then newer_history_cursor (hr_anchor_height r) (hr_window_to r) (hr_window_page r) = Ok (hr_newer_cursor r) /\ hr_has_newer r = true
             else hr_newer_cursor r = None /\ hr_has_newer r = false;
  hi_unavailable : hr_available r = false -> hr_transactions r = [] /\ hr_older_cursor r = None
}.
Definition event_payload_ok (limit : Z) (d : list (string * val)) : Prop :=
  exists txs responses, dget d "txs" = VList txs /\ dget d "tx_responses" = VList responses /\
    length txs = length responses /\ Z.of_nat (length txs) <= limit.

(** A lowest height is a height. *)
Definition capability_ok (c : capability) : Prop :=
  forall z, cp_lowest_available_height c = Some z -> 1 <= z <= MAX_INT64.
Definition side_ok (s : provider_side) : Prop :=
  (sd_healthy s = true <-> is_Some (sd_height s)) /\ (sd_healthy s = true <-> is_Some (sd_latency_ms s)) /\
  (forall z, sd_height s = Some z -> 1 <= z <= MAX_INT64) /\ (forall z, sd_latency_ms s = Some z -> 0 <= z <= 30000).
(** The status of the providers: a preferred provider is one of the rows, and
    healthy; [mixed] says that the two preferred ones differ. *)
Record provider_status_ok (s : provider_status) : Prop := {
  vo_rows : Forall (fun r => side_ok (pr_rpc r) /\ side_ok (pr_api r) /\ capability_ok (pr_capability r)) (vs_providers s);
  vo_rpc : forall p, vs_preferred_rpc_provider_id s = Some p -> exists r, r ∈ vs_providers s /\ pr_id r = p /\ sd_healthy (pr_rpc r) = true;
  vo_api : forall p, vs_preferred_api_provider_id s = Some p -> exists r, r ∈ vs_providers s /\ pr_id r = p /\ sd_healthy (pr_api r) = true;
  vo_mixed : vs_mixed_providers s = true -> exists p q, vs_preferred_rpc_provider_id s = Some p /\ vs_preferred_api_provider_id s = Some q /\ p <> q
}.

(** What the cache of the network holds, and how a load may fail.  The status
    of providers is shared by a network and its aliases, so it is good under
    every key. *)
Definition Good (key : cache_key) (v : cached_value) : Prop :=
  match key.2 with
  | KCapabilities _ => match v with CCapability c => capability_ok c | _ => False end
  | KProviderStatus => match v with CProviderStatus s => provider_status_ok s | _ => False end
  | _ =>
      key.1 = network ->
      match key.2, v with
      | KCandidates kind, CCandidates l => candidates_ok kind l
      | KChainHead, CHead h => head_ok h
      | KNodeStatus, CStatus s => status_ok s
      | KBlock source h, CBlock b => block_ok network chain b /\ bs_height b = h
      | KWindow _ _ _ limit, CWindow w => window_ok limit w
      | KHistory limit cursor, CHistory r => history_ok limit cursor r
      | KEventSearch _ limit, CPayload d => event_payload_ok limit d
      | _, _ => False
      end
  end.
Definition unavailable (e : exc) : Prop := is_all_unavailable e = true \/ isinstance_Exception e = false.
(** A load of a block: no endpoint, pruned on every node that answered, or
    only nodes that are still syncing below it. *)
Definition block_failure (source : string) (h : Z) (e : exc) : Prop :=
  unavailable e \/
  (source = "rpc" /\ (e = NodeNotSynced "node_not_synced" \/ exists lowest, e = HistoryUnavailable h lowest)).
(** A search of transactions may also stop at a document it cannot count. *)
Definition search_failure (e : exc) : Prop := unavailable e \/ isinstance_ValueError e = true \/ isinstance_TypeError e = true.
(** The status of providers may also stop at a number it cannot read. *)
Definition status_failure (e : exc) : Prop := unavailable e \/ isinstance_ValueError e = true \/ isinstance_TypeError e = true \/ e = OverflowError.
Definition Fails (key : cache_key) (e : exc) : Prop :=
  match key.2 with
  | KCapabilities _ | KProviderStatus => status_failure e
  | _ =>
      key.1 = network ->
      match key.2 with
      | KBlock source h => block_failure source h e
      | KWindow _ _ _ _ | KHistory _ _ | KEventSearch _ _ => search_failure e
      | _ => unavailable e
      end
  end.

Context `{!CosmosLaws Good Fails}.
#[local] Abbreviation satisfies := (satisfies (cache_good (E:=E) Good)).
#[local] Abbreviation anyQ := (fun _ => True).

Lemma satisfies_pure_any {A} (r : res A) : satisfies (pure r) (fun a => r = Ok a) anyQ.
Proof. apply satisfies_pure. by destruct r. Qed.
Lemma satisfies_get_foreign endpoint path accept : satisfies (get config endpoint path accept) anyQ (fun e => foreign e = true).
Proof. eapply satisfies_and_then; [by eapply satisfies_get_object|]. intros d _. by apply satisfies_pure. Qed.
Lemma satisfies_get endpoint path accept : satisfies (get config endpoint path accept) anyQ anyQ.
Proof. by eapply satisfies_impl; [apply satisfies_get_foreign|..]. Qed.

Lemma candidate_leb_total a b : candidate_leb a b = true \/ candidate_leb b a = true.
Proof. unfold candidate_leb. destruct (Nat.leb_spec (cd_order a) (cd_order b)); destruct (Nat.leb_spec (cd_order b) (cd_order a)); lia. Qed.
Lemma candidate_leb_trans a b c : candidate_leb a b = true -> candidate_leb b c = true -> candidate_leb a c = true.
Proof.
  unfold candidate_leb. destruct (Nat.leb_spec (cd_order a) (cd_order b)); destruct (Nat.leb_spec (cd_order b) (cd_order c));
    destruct (Nat.leb_spec (cd_order a) (cd_order c)); lia.
Qed.

(** *** Candidates *)
Definition probed (kind : string) (c : candidate) : Prop :=
  endpoints_of config kind !! cd_order c = Some (cd_endpoint c) /\ 1 <= cd_height c <= MAX_INT64 /\ 0 <= cd_latency c.
Lemma probe_candidate_ok kind order endpoint started : endpoints_of config kind !! order = Some endpoint ->
  satisfies (probe_candidate config kind order endpoint started) (fun c => probed kind c /\ cd_order c = order) anyQ.
Proof.
  intros Hl. eapply satisfies_and_then; [apply satisfies_get|]. intros payload _.
  eapply satisfies_and_then; [apply satisfies_pure_any|]. intros hst _.
  eapply satisfies_and_then; [apply satisfies_pure_any|]. cbv beta. intros head Hhead.
  eapply satisfies_and_then; [by eapply satisfies_clock|]. intros now _. apply satisfies_pure.
  split; [|done]. split; [done|]. split; [|cbn; lia].
  destruct (String.eqb kind "rpc").
  - apply bind_Ok in Hhead as (x & Hx%parse_rpc_status_Ok & Hhead). apply bind_Ok in Hhead as (? & _ & Hhead). injection Hhead as <-.
    by destruct Hx as (_ & _ & ? & _).
  - by apply parse_rest_head_Ok in Hhead as [_ ?].
Qed.
Lemma probe_candidates_ok kind l : (forall p, p ∈ l -> endpoints_of config kind !! p.1 = Some p.2) ->
  satisfies (probe_candidates config kind l)
    (fun cs => (forall c, c ∈ cs -> probed kind c) /\ map cd_order cs `sublist_of` l.*1) (fun e => isinstance_Exception e = false).
Proof.
  induction l as [|[order endpoint] l IH]; intros Hl.
  { apply satisfies_pure. split; [intros c []%not_elem_of_nil|done]. }
  eapply satisfies_and_then; [eapply satisfies_clock|]. intros started _.
  eapply (satisfies_and_then _ _ _ (fun found => (forall c, c ∈ found -> probed kind c) /\ map cd_order found `sublist_of` [order])).
  - eapply satisfies_catch with (Y := anyQ); [|done|].
    + eapply satisfies_and_then; [apply probe_candidate_ok, (Hl (order, endpoint)); left|]. intros c [Hc Ho]. apply satisfies_pure.
      split; [intros d ->%list_elem_of_singleton; done|]. cbn. by rewrite Ho.
    + intros e _ _. apply satisfies_pure. split; [intros c []%not_elem_of_nil|]. cbn. apply sublist_nil_l.
  - intros found [Hf Ho]. eapply satisfies_and_then; [apply IH; intros p Hp; apply Hl; by right|]. intros rest [Hr Hs].
    apply satisfies_pure. split.
    + intros c [Hc|Hc]%elem_of_app; auto.
    + rewrite map_app, fmap_cons. cbn [fst]. change (order :: l.*1) with ([order] ++ l.*1). by apply sublist_app.
Qed.
Lemma enumerate_fst {A} (l : list A) : (enumerate l).*1 = seq 0 (length l).
Proof.
  unfold enumerate. rewrite fmap_imap. rewrite <- (list_fmap_id (seq 0 (length l))). exact (imap_seq_0 l id).
Qed.

Lemma filter_list_sublist {A} (f : A -> bool) (l : list A) : List.filter f l `sublist_of` l.
Proof. induction l as [|x l IH]; cbn; [done|]. destruct (f x); by constructor. Qed.
Lemma candidates_sound kind : satisfies (candidates config kind) (candidates_ok kind) unavailable.
Proof.
  eapply satisfies_and_then.
  { eapply satisfies_impl; [apply probe_candidates_ok|intros cs Hcs; exact Hcs|intros e He; by right].
    intros [i x] [j Hj]%list_elem_of_lookup. apply enumerate_lookup in Hj as [<- Hx]. done. }
  intros found [Hp Hs]. apply satisfies_pure. unfold raise_if.
  destruct (bool_decide (found = [])); [by left|]. case_bool_decide as E2; [by left|]. cbn [mbind res_bind].
  assert (forall c, c ∈ sort_by candidate_leb (fresh config found) -> c ∈ found /\ highest found - cd_height c <= cc_max_height_lag config) as Hin.
  { intros c Hc. rewrite elem_of_sort_by in Hc. unfold fresh in Hc. apply list_elem_of_In, filter_In in Hc as [Hc Hl]. apply list_elem_of_In in Hc. split; [done|lia]. }
  split.
  - intros En. apply E2. apply nil_length_inv. by rewrite <- (length_sort_by candidate_leb), En.
  - intros c [Hc _]%Hin. by apply Hp.
  - assert (NoDup (map cd_order (fresh config found))) as Hnd.
    { eapply sublist_NoDup; [|apply fmap_sublist, filter_list_sublist]. eapply sublist_NoDup; [|exact Hs]. rewrite enumerate_fst. apply NoDup_seq. }
    eapply NoDup_Permutation_proper; [|exact Hnd]. apply fmap_Permutation, sort_by_perm.
  - intros c [Hc _]%Hin. by apply Hp.
  - intros c [Hc _]%Hin. by apply Hp.
  - intros c d [Hc _]%Hin [Hd Hl]%Hin. pose proof (max_list_ge 0 (map cd_height found) (cd_height c)) as Hm.
    unfold highest in Hl. assert (cd_height c ∈ map cd_height found) by by apply list_elem_of_fmap_2. specialize (Hm (or_intror ltac:(eassumption))). lia.
  - apply sort_by_sorted; [apply candidate_leb_total|apply candidate_leb_trans].
Qed.
Lemma unavailable_Fails s e : unavailable e -> Fails (section config s) e.
Proof. intros Hu. destruct s; try (intros _; first [exact Hu|by left]); by left. Qed.
Lemma good_section {A} (wrap : A -> cached_value) (unwrap : cached_value -> option A) s (Q : A -> Prop) :
  (forall v, Good (section config s) v -> exists a, v = wrap a) -> (forall a, unwrap (wrap a) = Some a) ->
  (forall a, Good (section config s) (wrap a) -> Q a) ->
  forall v, Good (section config s) v -> exists a, unwrap v = Some a /\ Q a.
Proof. intros Hv Hu Hq v Hg. destruct (Hv v Hg) as [a ->]. exists a. auto. Qed.
Lemma cached_candidates_ok kind : satisfies (cached_candidates config ticks max_entries kind) (candidates_ok kind) unavailable.
Proof.
  apply (satisfies_get_or_load Good Fails).
  - eapply satisfies_impl; [apply candidates_sound|by intros l Hl _|intros e; apply unavailable_Fails].
  - intros l Hl. by apply Hl.
  - intros v Hv. specialize (Hv eq_refl). destruct v; try done. by exists l.
  - intros e He. by apply He.
Qed.

(** *** The head of the chain *)
Lemma read_head_ok minimum c : satisfies (read_head config minimum c) (fun h => head_ok h /\ minimum <= ch_latest_height h) anyQ.
Proof.
  eapply satisfies_and_then; [apply satisfies_get|]. intros payload _. eapply satisfies_and_then; [apply satisfies_pure_any|]. intros hst _.
  apply satisfies_pure. destruct (parse_rpc_status _ _ _ _) as [h|] eqn:Eh; [|done]. cbn [mbind res_bind].
  apply parse_rpc_status_Ok in Eh as (? & ? & ? & ? & _). unfold raise_if.
  destruct (ch_catching_up h) eqn:Ec; [done|]. cbn [mbind res_bind]. destruct (Z.ltb_spec (ch_latest_height h) minimum); [done|].
  split; [by split|done].
Qed.
Lemma load_head_ok : satisfies (load_head config ticks max_entries) head_ok unavailable.
Proof.
  eapply satisfies_and_then; [apply cached_candidates_ok|]. intros l Hl.
  eapply satisfies_and_then; [apply satisfies_pure with (Q := anyQ); rewrite bool_decide_eq_false_2; [done|apply (ca_nonempty _ _ Hl)]|].
  intros _ _. eapply satisfies_try_each with (Y := anyQ).
  - intros c _. eapply satisfies_impl; [apply read_head_ok|by intros h [? _]|done].
  - intros e _ He. by right.
  - apply satisfies_pure. by left.
Qed.

(** *** The status of the node *)
Lemma read_status_ok endpoint : satisfies (read_status config endpoint) status_ok anyQ.
Proof.
  eapply satisfies_and_then; [apply satisfies_get|]. intros payload _. eapply satisfies_and_then; [apply satisfies_pure_any|]. intros hst _.
  apply satisfies_pure. destruct (parse_node_status _ _ _ _) as [s|] eqn:Es; [|done].
  apply parse_node_status_Ok in Es as (? & ? & ? & ? & _). by split.
Qed.
(** A value, or nothing when reading it raised. *)
Lemma satisfies_attempt {A} (m : query (W:=CosmosWorld E) A) Q : satisfies m Q anyQ ->
  satisfies (catch (and_then m (fun a => pure (Ok (Some a)))) caught (fun _ => pure (Ok None)))
    (fun o => forall a, o = Some a -> Q a) (fun e => isinstance_Exception e = false).
Proof.
  intros Hm. eapply satisfies_catch with (Y := anyQ).
  - eapply satisfies_and_then; [exact Hm|]. intros a Ha. apply satisfies_pure. by intros ? [= <-].
  - done.
  - intros e _ _. apply satisfies_pure. done.
Qed.
Lemma first_synced_ok l syncing : (forall s, syncing = Some s -> status_ok s) ->
  satisfies (first_synced config l syncing) status_ok unavailable.
Proof.
  revert syncing. induction l as [|endpoint l IH]; intros syncing Hs.
  { cbn. destruct syncing as [s|]; apply satisfies_pure; [by apply Hs|by left]. }
  eapply satisfies_and_then.
  { eapply satisfies_impl; [apply satisfies_attempt, read_status_ok|intros o Ho; exact Ho|intros e He; by right]. }
  intros [s|] Ho; [|by apply IH]. destruct (negb _); [by apply satisfies_pure, Ho|].
  apply IH. destruct syncing; [done|]. intros ? [= <-]. by apply Ho.
Qed.

(** *** Blocks *)
Lemma syncing_candidates_ok l : satisfies (syncing_candidates config l) anyQ (fun e => isinstance_Exception e = false).
Proof.
  induction l as [|[order endpoint] l IH]; [by apply satisfies_pure|]. eapply satisfies_and_then.
  - eapply satisfies_catch with (Y := anyQ) (Q := anyQ); [|done|intros; by apply satisfies_pure].
    eapply satisfies_and_then; [apply read_status_ok|]. intros s _. by apply satisfies_pure.
  - intros found _. eapply satisfies_and_then; [exact IH|]. intros rest _. by apply satisfies_pure.
Qed.
Lemma block_candidates_ok h source : satisfies (block_candidates config ticks max_entries h source) anyQ (block_failure source h).
Proof.
  eapply satisfies_catch with (Y := unavailable).
  - eapply satisfies_and_then; [apply cached_candidates_ok|]. intros l _. by apply satisfies_pure.
  - intros e He _. by left.
  - intros e He _. destruct (String.eqb_spec source "rpc") as [->|]; cbn [negb]; [|by apply satisfies_pure; left].
    eapply satisfies_and_then; [eapply satisfies_impl; [apply syncing_candidates_ok|intros l Hl; exact Hl|intros; by left; right]|].
    intros l _. apply satisfies_pure. unfold raise_if. destruct (bool_decide (l = [])); [by left|]. cbn [mbind res_bind].
    destruct (forallb _ _); [|done]. right. by split; [|left].
Qed.
Lemma pruning_of_raises payload : raises foreign (pruning_of payload).
Proof.
  unfold pruning_of. apply raises_bind; [by destruct payload|]. intros [| | | | | |d] _; try done.
  destruct (pruned_search _) as [[ds|]|]; [|done|done]. cbn [lowest_height].
  apply raises_fmap, raises_fmap, value_error_foreign, py_int_str_raises.
Qed.
Definition block_found (h : Z) (b : BlockSummary) : Prop := block_ok network chain b /\ bs_height b = h.
Lemma read_block_ok h source path c :
  satisfies (read_block config h source path c) (block_found h)
    (fun e => foreign e = true \/ (source = "rpc" /\ exists lowest, e = HistoryUnavailable h lowest)).
Proof.
  eapply satisfies_and_then; [eapply satisfies_impl; [apply satisfies_get_foreign|intros p Hp; exact Hp|by left]|]. intros payload _.
  eapply (satisfies_and_then _ _ _ (fun pruned => source <> "rpc" -> pruned = None)).
  { apply satisfies_pure. destruct (String.eqb_spec source "rpc") as [->|]; [|done].
    pose proof (pruning_of_raises payload) as Hp. destruct (pruning_of payload); [done|]. by left. }
  intros [lowest|] Hp; apply satisfies_pure.
  { right. destruct (String.eqb_spec source "rpc") as [->|Hs]; [by split; [|exists lowest]|by specialize (Hp Hs)]. }
  destruct (parse_block_sound payload network chain) as [Hrpc Hrest].
  set (r := if String.eqb source "rpc" then _ else _). assert (block_result network chain r) as Hr by (unfold r; by destruct (String.eqb _ _)).
  destruct r as [b|e]; cbn in *; [|left; by destruct e].
  unfold raise_if. destruct (Z.eqb_spec (bs_height b) h); cbn; [by split|by left].
Qed.
Lemma first_block_ok h source path syncing l observed : (observed <> [] -> source = "rpc") ->
  satisfies (first_block config h source path syncing l observed) (block_found h) (block_failure source h).
Proof.
  revert observed. induction l as [|c l IH]; intros observed Ho.
  { cbn. destruct observed as [|x observed]; apply satisfies_pure; [by left; left|]. right. split; [by apply Ho|]. right. by eexists. }
  cbn [first_block]. destruct (_ && _); [by apply IH|]. intros w Hw.
  destruct (read_block_ok h source path c w Hw) as [Hw' Hr]. destruct (read_block _ _ _ _ _ w) as [[b|e] w']; [by split|]. cbn [fst snd] in *.
  destruct Hr as [Hf|[Hs [lowest ->]]]; [|by apply IH].
  destruct (caught e) eqn:Hc; destruct e; try done; try by apply IH.
  split; [done|]. left. by right.
Qed.
Lemma load_block_ok h source : satisfies (load_block config ticks max_entries h source) (block_found h) (block_failure source h).
Proof. eapply satisfies_and_then; [apply block_candidates_ok|]. intros found _. by apply first_block_ok. Qed.

Definition eligible (h : Z) (syncing : bool) (l : list candidate) : list candidate :=
  List.filter (fun c => negb (syncing && (cd_height c <? h))) l.
Lemma read_block_caught e rs h observed r :
  settle h observed (Raise e :: rs) = r -> caught e = true ->
  settle h (observed ++ match lowest_of (Raise e) with Some x => [x] | None => [] end) rs = r.
Proof.
  intros <- Hc. unfold settle. rewrite last_cons. cbn [omap list_omap lowest_of].
  destruct (last rs) as [[b|e2]|] eqn:Hl.
  - done.
  - destruct (caught e2); [|done]. destruct e; cbn; rewrite ?app_nil_r, <- ?app_assoc; done.
  - apply last_None in Hl as ->. rewrite Hc. cbn. destruct e; cbn; rewrite ?app_nil_r; by destruct observed.
Qed.
Lemma first_block_settle h source path syncing l observed w :
  first_block config h source path syncing l observed w =
  let '(rs, w') := block_reads (E:=E) config h source path (eligible h syncing l) w in (settle h observed rs, w').
Proof.
  revert observed w. induction l as [|c l IH]; intros observed w; [by destruct observed|].
  cbn [first_block eligible List.filter]. destruct (syncing && (cd_height c <? h)); cbn [negb]; [apply IH|].
  cbn [block_reads]. destruct (read_block config h source path c w) as [[b|e] w1]; [done|].
  destruct (caught e) eqn:Hc.
  - assert (first_block config h source path syncing l (observed ++ match lowest_of (Raise e) with Some x => [x] | None => [] end) w1 =
            let '(rs, w') := (let '(rs, w2) := block_reads config h source path (eligible h syncing l) w1 in (Raise e :: rs, w2)) in
            (settle h observed rs, w')) as Heq.
    { rewrite IH. destruct (block_reads _ _ _ _ _ w1) as [rs w2]. f_equal. by apply read_block_caught with (e := e). }
    refine (eq_trans _ Heq). destruct e; cbn in Hc |- *; rewrite ?app_nil_r; done.
  - by destruct e.
Qed.

Definition failed {A} (r : res A) : Prop := exists e, r = Raise e /\ caught e = true.
Lemma block_reads_shape h source path l w : let rs := (block_reads (E:=E) config h source path l w).1 in
  (Forall failed rs /\ length rs = length l) \/ exists pre r, rs = pre ++ [r] /\ Forall failed pre /\ ~ failed r.
Proof.
  revert w. induction l as [|c l IH]; intros w; [by left|]. cbn [block_reads].
  destruct (read_block config h source path c w) as [[b|e] w1].
  { right. exists [], (Ok b). split_and!; [done|done|]. by intros (? & ? & ?). }
  destruct (caught e) eqn:Hc.
  - specialize (IH w1). destruct (block_reads _ _ _ _ l w1) as [rs w2]. cbn [fst length] in *.
    assert (failed (A:=BlockSummary) (Raise e)) as He by by exists e.
    destruct IH as [[Hf Hl]|(pre & r & -> & Hp & Hr)]; [left; split; [by constructor|lia]|].
    right. exists (Raise e :: pre), r. split_and!; [done|by constructor|done].
  - right. exists [], (Raise e). split_and!; [done|done|]. intros (e' & [= <-] & He). congruence.
Qed.
Lemma settle_failed h rs : Forall failed rs -> settle h [] rs =
  match omap lowest_of rs with
  | [] => Raise (AllEndpointsUnavailable "all validated")
  | pruned => Raise (HistoryUnavailable h (min_option (omap id pruned)))
  end.
Proof.
  intros Hf. unfold settle. destruct (last rs) as [r|] eqn:Hl; [|by apply last_None in Hl as ->].
  apply last_Some_elem_of in Hl. rewrite Forall_forall in Hf. by destruct (Hf _ Hl) as (e & -> & ->).
Qed.
Lemma settle_last h pre r : ~ failed r -> settle h [] (pre ++ [r]) = r.
Proof.
  intros Hr. unfold settle. rewrite last_snoc. destruct r as [b|e]; [done|].
  destruct (caught e) eqn:Hc; [|done]. destruct Hr. by exists e.
Qed.

(** ** Failover *)

(** The endpoints that have the block are asked in order until one answers,
    and the first answer is the result.  When all fail the request fails: with
    the least of the lowest heights that pruned nodes reported, if a node
    answered that the block is pruned, and as unavailable otherwise. *)
Theorem block_tries_every_endpoint h source path syncing l w :
  let rs := (block_reads (E:=E) config h source path (eligible h syncing l) w).1 in
  match (first_block config h source path syncing l [] w).1 with
  | Ok b => exists pre, rs = pre ++ [Ok b] /\ Forall failed pre
  | Raise e =>
      (exists pre, rs = pre ++ [Raise e] /\ Forall failed pre /\ caught e = false) \/
      (Forall failed rs /\ length rs = length (eligible h syncing l) /\
       ((e = AllEndpointsUnavailable "all validated" /\ forall lowest, Raise (HistoryUnavailable h lowest) ∉ rs) \/
        exists lowest, e = HistoryUnavailable h lowest /\ (exists h' x, Raise (HistoryUnavailable h' x) ∈ rs) /\
          (forall z, lowest = Some z -> (exists h', Raise (HistoryUnavailable h' (Some z)) ∈ rs) /\
             forall h' x, Raise (HistoryUnavailable h' (Some x)) ∈ rs -> z <= x)))
  end.
Proof.
  rewrite first_block_settle. pose proof (block_reads_shape h source path (eligible h syncing l) w) as Hs.
  destruct (block_reads _ _ _ _ _ w) as [rs w']. cbn [fst snd] in *.
  assert (forall x, x ∈ omap lowest_of rs <-> exists h', Raise (HistoryUnavailable h' x) ∈ rs) as Hlow.
  { intros x. rewrite list_elem_of_omap. split.
    - intros ([|e] & Hin & Hx); [done|]. destruct e; try done. injection Hx as <-. by eexists.
    - intros [h' Hin]. by exists (Raise (HistoryUnavailable h' x)). }
  destruct Hs as [[Hf Hl]|(pre & r & -> & Hp & Hr)].
  - rewrite settle_failed by done. destruct (omap lowest_of rs) as [|y ys] eqn:Eo.
    + right. split_and!; [done|done|]. left. split; [done|]. intros lowest Hin.
      apply (not_elem_of_nil lowest). apply Hlow. by eexists.
    + right. split_and!; [done|done|]. right. eexists. split; [done|]. split.
      { destruct (proj1 (Hlow y) ltac:(left)) as [h' Hy]. by exists h', y. }
      intros z [Hz Hle]%min_option_least. split.
      * apply list_elem_of_omap in Hz as (x & Hx & [= ->]). by apply Hlow.
      * intros h' x Hx. apply Hle, list_elem_of_omap. exists (Some x). split; [|done]. apply Hlow. by eexists.
  - rewrite settle_last by done. destruct r as [b|e]; [by exists pre|]. left. exists pre. split_and!; [done|done|].
    destruct (caught e) eqn:Hc; [|done]. destruct Hr. by exists e.
Qed.

Lemma chain_head_ok : satisfies (chain_head config ticks max_entries) head_ok unavailable.
Proof.
  apply (satisfies_get_or_load Good Fails).
  - eapply satisfies_impl; [apply load_head_ok|by intros h Hh _|intros e; apply unavailable_Fails].
  - intros h Hh. by apply Hh.
  - intros v Hv. specialize (Hv eq_refl). destruct v; try done. by exists head.
  - intros e He. by apply He.
Qed.
Lemma node_status_ok : satisfies (node_status config ticks max_entries) status_ok unavailable.
Proof.
  apply (satisfies_get_or_load Good Fails).
  - eapply satisfies_impl; [by apply first_synced_ok|by intros h Hh _|intros e; apply unavailable_Fails].
  - intros h Hh. by apply Hh.
  - intros v Hv. specialize (Hv eq_refl). destruct v; try done. by exists status.
  - intros e He. by apply He.
Qed.

(** ** Endpoint selection *)


(** C17. A block comes back well formed, of the configured network and chain and of
    the height asked for; otherwise the call raises ValueError for a height or
    source out of range, HistoryUnavailable or NodeNotSynced for the RPC source,
    AllEndpointsUnavailable, or the cancellation. *)
Theorem block_failover_sound h source :
  satisfies (block config ticks max_entries h source)
    (fun b => 0 < h /\ (source = "rpc" \/ source = "rest") /\ block_found h b)
    (fun e => block_failure source h e \/ ((h <= 0 \/ (source <> "rpc" /\ source <> "rest")) /\ isinstance_ValueError e = true)).
Proof.
  eapply (satisfies_and_then _ _ _ (fun _ => 0 < h)).
  { apply satisfies_pure. unfold raise_if. destruct (Z.leb_spec h 0); [|done]. right. split; [by left|done]. }
  intros _ Hh. eapply (satisfies_and_then _ _ _ (fun _ => source = "rpc" \/ source = "rest")).
  { apply satisfies_pure. unfold require. destruct (in_strs source ["rpc"; "rest"]) eqn:Es.
    - apply in_strs_spec in Es. rewrite !elem_of_cons, elem_of_nil in Es. naive_solver.
    - right. split; [right; split; by intros ->|done]. }
  intros _ Hs. apply (satisfies_get_or_load Good Fails).
  - eapply satisfies_impl; [apply load_block_ok|by intros b Hb _|by intros e He _].
  - intros b Hb. split_and!; [done|done|]. by apply Hb.
  - intros v Hv. specialize (Hv eq_refl). destruct v; try done. exists b. by split_and!.
  - intros e He. left. by apply He.
Qed.
End adapter_contract.

(** ** A concrete adapter *)
#[local] Existing Instances ascii_runtime scripted_env.
#[local] Instance demo_netloc : NetlocCheck := {| netloc_refused := fun _ => false |}.
#[local] Instance demo_json : JsonStack := {| scan_depth := 20 |}.
Definition demo_config : CosmosNetworkConfig := {|
  cc_network_id := "hub"; cc_chain_id := "hub-1";
  cc_rpc_endpoints := ["https://a.example"; "https://b.example"; "https://c.example"];
  cc_rest_endpoints := ["https://rest.example"];
  cc_request_timeout := VInt 10; cc_max_height_lag := 10; cc_probe_ttl := VInt 15; cc_cache_ttl := VInt 10;
  cc_max_response_bytes := 100000
|}.
Definition demo_status (chain : string) (height : Z) (catching_up : bool) : val :=
  VDict [("result", VDict [
    ("node_info", VDict [("network", VStr chain)]);
    ("sync_info", VDict [("latest_block_height", VStr (str_of_Z height));
                         ("latest_block_time", VStr "2024-02-29T12:00:00.5Z"); ("catching_up", VBool catching_up)])])].
Definition demo_block (chain : string) (height : Z) : val :=
  VDict [("result", VDict [
    ("block_id", VDict [("hash", VStr "ABCD")]);
    ("block", VDict [("header", VDict [("chain_id", VStr chain); ("height", VStr (str_of_Z height));
                                       ("time", VStr "2024-02-29T12:00:00Z"); ("proposer_address", VStr "00ff")]);
                     ("data", VDict [("txs", VList [VStr "AA=="])])])])].
Definition demo_pruned : val :=
  VDict [("error", VDict [("data", VStr "height 5 is not available, lowest height is 90")])].
Definition demo_replies : list (string * http_reply) := [
  ("https://a.example/status", json_reply (demo_status "hub-1" 95 false));
  ("https://b.example/status", json_reply (demo_status "hub-1" 100 false));
  ("https://c.example/status", json_reply (demo_status "other-1" 900 false));
  ("https://a.example/block?height=5", json_reply demo_pruned);
  ("https://b.example/block?height=5", json_reply (demo_block "hub-1" 5));
  ("https://a.example/block?height=6", json_reply demo_pruned)].
Definition demo_world : CosmosWorld scripted := scripted_world demo_replies.
Definition demo_ticks (v : val) : Z := match v with VInt z => z | _ => 2 end.

Lemma demo_adapter_laws : CosmosLaws (E:=scripted) (Good demo_config) (Fails demo_config).
Proof. apply scripted_laws. intros [n s]. destruct s; try intros _; solve [by right | by left; right]. Qed.
Lemma demo_adapter_runs :
  is_Ok (chain_head (E:=scripted) demo_config demo_ticks 100 demo_world).1 = true /\
  is_Ok (block (E:=scripted) demo_config demo_ticks 100 5 "rpc" demo_world).1 = true.
Proof. split; vm_compute; reflexivity. Qed.
Lemma block_failover_sound_witness :
  match (block (E:=scripted) demo_config demo_ticks 100 5 "rpc" demo_world).1 with Ok b => block_found demo_config 5 b | Raise _ => False end.
Proof.
  pose proof (proj2 (@block_failover_sound _ _ _ _ _ demo_config demo_ticks 100 demo_adapter_laws 5 "rpc" demo_world (scripted_world_good _ demo_replies))) as Hs.
  pose proof (proj2 demo_adapter_runs) as Hr. destruct (block _ _ _ _ _ _).1; [by apply Hs|done].
Defined.
Example pruned_reported : (block (E:=scripted) demo_config demo_ticks 100 6 "rpc" demo_world).1 = Raise (HistoryUnavailable 6 (Some 90)).
Proof. vm_compute. reflexivity. Qed.
