(* ===== verification/Protobuf.v ===== *)
(** * api/cosmos/transaction_detail.py: reading protobuf fields

    [_varint], [_fields], [_one] and [_text]: the fields of a protobuf message
    as (number, wire type, value), with the bounds of the reader.  The
    reference encoding of a list of fields is stated beside them.  The offset
    into the data is the rest of the data. *)
From Stdlib Require Import ZArith NArith Lia Ascii String.
From stdpp Require Import base list strings.
From S2P Require Import Prelude PyStr PyVal Codec Digits CosmosParsing.
Open Scope Z_scope.

Definition MAX_TX_BYTES : Z := 2000000.
Definition MAX_FIELDS : nat := 256.

Definition size (l : bytes) : Z := Z.of_nat (length l).

(** The loop of [_varint], with [n] bytes left to read *)
Fixpoint varint_loop (n : nat) (shift value : Z) (data : bytes) : res (Z * bytes) :=
  match n with
  | O => malformed "invalid protobuf varint"
  | S n =>
      match data with
      | [] => malformed "truncated protobuf varint"
      | byte :: data =>
          let value := Z.lor value (Z.shiftl (Z.land (byte_Z byte) 127) shift) in
          if byte_Z byte <? 128 then Ok (value, data) else varint_loop n (shift + 7) value data
      end
  end.
Definition varint (data : bytes) : res (Z * bytes) := varint_loop 10 0 0 data.

(** A field's value: an integer (wire type 0) or bytes (wire type 2). *)
Inductive wire_value : Type :=
| Varint (value : Z)
| Chunk (value : bytes).
Record field := Field { f_number : Z; f_value : wire_value }.
Definition wire (v : wire_value) : Z := match v with Varint _ => 0 | Chunk _ => 2 end.

(** The loop of [_fields], with room for [room] more fields *)
Fixpoint fields_loop (room : nat) (data : bytes) : res (list field) :=
  match data with
  | [] => Ok []
  | _ :: _ =>
      match room with
      | O => malformed "too many protobuf fields"
      | S room =>
          tag ← varint data;
          let number := Z.shiftr tag.1 3 in
          let wire := Z.land tag.1 7 in
          _ ← raise_if (number =? 0) (MalformedUpstreamResponse "invalid protobuf field");
          item ← (if wire =? 0 then v ← varint tag.2; Ok (Varint v.1, v.2)
                  else if wire =? 2 then
                    length ← varint tag.2;
                    _ ← raise_if ((MAX_TX_BYTES <? length.1) || (size length.2 <? length.1))
                          (MalformedUpstreamResponse "invalid protobuf length");
                    Ok (Chunk (take (Z.to_nat length.1) length.2), drop (Z.to_nat length.1) length.2)
                  else malformed "unsupported protobuf wire type");
          rest ← fields_loop room item.2;
          Ok (Field number item.1 :: rest)
      end
  end.
Definition fields (data : bytes) : res (list field) :=
  _ ← raise_if (MAX_TX_BYTES <? size data) (MalformedUpstreamResponse "invalid transaction bytes");
  fields_loop MAX_FIELDS data.

(** The values of a field number, by wire type *)
Definition chunks_of (number : Z) (l : list field) : list bytes :=
  omap (fun f => match f_value f with Chunk b => if f_number f =? number then Some b else None | _ => None end) l.
Definition varints_of (number : Z) (l : list field) : list Z :=
  omap (fun f => match f_value f with Varint z => if f_number f =? number then Some z else None | _ => None end) l.
Definition single {A} (l : list A) : option A := match l with [x] => Some x | _ => None end.
(** [_one(fields, number)] and [_one(fields, number, 0)] *)
Definition one (l : list field) (number : Z) : option bytes := single (chunks_of number l).
Definition one_int (l : list field) (number : Z) : option Z := single (varints_of number l).

(** ** The encoding *)
Fixpoint varint_encode_loop (n : nat) (value : Z) : bytes :=
  match n with
  | O => []
  | S n => if value <? 128 then [Z_byte value] else Z_byte (128 + value mod 128) :: varint_encode_loop n (value / 128)
  end.
Definition varint_encode (value : Z) : bytes := varint_encode_loop 10 value.
Definition encode_field (f : field) : bytes :=
  varint_encode (f_number f * 8 + wire (f_value f)) ++
  match f_value f with
  | Varint z => varint_encode z
  | Chunk b => varint_encode (size b) ++ b
  end.
Definition encode (l : list field) : bytes := concat (map encode_field l).
(** What the format can carry: numbers and integers of at most 70 bits. *)
Definition field_ok (f : field) : Prop :=
  1 <= f_number f < 2 ^ 67 /\ match f_value f with Varint z => 0 <= z < 2 ^ 70 | Chunk b => size b <= MAX_TX_BYTES end.

(** ** Varints *)
Lemma land_127 z : Z.land z 127 = z mod 128.
Proof. exact (Z.land_ones z 7 ltac:(lia)). Qed.
Lemma land_shiftl value d shift : 0 <= shift -> 0 <= value < 2 ^ shift -> Z.land value (Z.shiftl d shift) = 0.
Proof.
  intros Hs Hv. apply Z.bits_inj'. intros i Hi. rewrite Z.land_spec, Z.bits_0.
  destruct (Z.lt_ge_cases i shift); [rewrite (Z.shiftl_spec_low d) by lia; apply andb_false_r|].
  rewrite <- (Z.mod_small value (2 ^ shift)) by lia. by rewrite Z.mod_pow2_bits_high by lia.
Qed.
Lemma lor_shiftl value d shift : 0 <= shift -> 0 <= value < 2 ^ shift -> Z.lor value (Z.shiftl d shift) = value + d * 2 ^ shift.
Proof.
  intros Hs Hv. pose proof (land_shiftl value d shift Hs Hv) as Hl.
  rewrite <- Z.shiftl_mul_pow2 by lia. rewrite Z.add_nocarry_lxor by done. by rewrite Z.lxor_lor.
Qed.
Lemma varint_loop_encode n shift value acc rest : (0 < n)%nat -> 0 <= shift -> 0 <= acc < 2 ^ shift -> 0 <= value < 2 ^ (7 * Z.of_nat n) ->
  varint_loop n shift acc (varint_encode_loop n value ++ rest) = Ok (acc + value * 2 ^ shift, rest).
Proof.
  revert shift value acc. induction n as [|n IH]; intros shift value acc Hn Hs Ha Hv; [lia|].
  replace (7 * Z.of_nat (S n)) with (7 + 7 * Z.of_nat n) in Hv by lia. rewrite Z.pow_add_r in Hv by lia. change (2 ^ 7) with 128 in Hv.
  cbn [varint_encode_loop]. destruct (Z.ltb_spec value 128) as [Hlt|Hge]; cbn [app varint_loop].
  - rewrite byte_Z_byte by lia. rewrite land_127, (Z.mod_small value) by lia. rewrite lor_shiftl by done. rewrite (proj2 (Z.ltb_lt value 128)) by lia. done.
  - pose proof (Z.mod_pos_bound value 128 ltac:(lia)) as Hm.
    rewrite byte_Z_byte, land_127 by lia. rewrite (proj2 (Z.ltb_ge (128 + value mod 128) 128)) by lia.
    replace ((128 + value mod 128) mod 128) with (value mod 128).
    2: { rewrite Zplus_mod, Z_mod_same_full, Z.add_0_l. by rewrite !Zmod_mod. }
    rewrite lor_shiftl by done. rewrite IH.
    + f_equal. f_equal. rewrite Z.pow_add_r by lia. pose proof (Z.div_mod value 128 ltac:(lia)). change (2 ^ 7) with 128. nia.
    + destruct n; [cbn in Hv|]; lia.
    + lia.
    + rewrite Z.pow_add_r by lia. change (2 ^ 7) with 128. nia.
    + split; [apply Z.div_pos; lia|]. apply Z.div_lt_upper_bound; lia.
Qed.
Lemma varint_encode_ok value rest : 0 <= value < 2 ^ 70 -> varint (varint_encode value ++ rest) = Ok (value, rest).
Proof.
  intros Hv. unfold varint, varint_encode. rewrite varint_loop_encode by (try done; lia). by rewrite Z.pow_0_r, Z.mul_1_r.
Qed.

(** What a varint read gives: an integer of at most 70 bits, and fewer bytes. *)
Lemma varint_loop_Ok n shift acc data value rest : 0 <= shift -> 0 <= acc < 2 ^ shift ->
  varint_loop n shift acc data = Ok (value, rest) -> 0 <= value < 2 ^ (shift + 7 * Z.of_nat n) /\ (length rest < length data)%nat.
Proof.
  revert shift acc data. induction n as [|n IH]; intros shift acc data Hs Ha; [done|]. cbn [varint_loop].
  destruct data as [|b data]; [done|]. rewrite land_127, lor_shiftl by done.
  pose proof (Z.mod_pos_bound (byte_Z b) 128 ltac:(lia)) as Hm.
  assert (0 <= acc + byte_Z b mod 128 * 2 ^ shift < 2 ^ (shift + 7)) as Ha'.
  { rewrite Z.pow_add_r by lia. change (2 ^ 7) with 128. nia. }
  destruct (_ <? 128).
  - intros [= <- <-]. split; [|cbn; lia]. split; [lia|]. eapply Z.lt_le_trans; [apply Ha'|]. apply Z.pow_le_mono_r; lia.
  - intros E. apply IH in E; [|lia|done]. replace (shift + 7 * Z.of_nat (S n)) with (shift + 7 + 7 * Z.of_nat n) by lia.
    split; [apply E|]. cbn. lia.
Qed.
Lemma varint_Ok data value rest : varint data = Ok (value, rest) -> 0 <= value < 2 ^ 70 /\ (length rest < length data)%nat.
Proof. intros E. apply varint_loop_Ok in E; [|done|done]. exact E. Qed.
Lemma varint_raises data : raises is_malformed (varint data).
Proof.
  assert (forall n shift acc, raises is_malformed (varint_loop n shift acc data)) as Hl; [|apply Hl].
  intros n. revert data. induction n as [|n IH]; intros data shift acc; [done|].
  cbn. destruct data as [|b data]; [done|]. by destruct (_ <? 128).
Qed.

(** ** Fields *)
Lemma fields_loop_raises room data : raises is_malformed (fields_loop room data).
Proof.
  revert data. induction room as [|room IH]; intros [|a data]; try done. cbn [fields_loop].
  apply raises_bind; [apply varint_raises|]. intros tag _. apply raises_bind; [by apply raises_raise_if|]. intros _ _.
  apply raises_bind; [|intros item _; apply raises_bind; [apply IH|done]].
  destruct (_ =? 0); [apply raises_bind; [apply varint_raises|done]|]. destruct (_ =? 2); [|done].
  apply raises_bind; [apply varint_raises|]. intros l _. apply raises_bind; [by apply raises_raise_if|done].
Qed.
Lemma fields_raises data : raises is_malformed (fields data).
Proof. apply raises_bind; [by apply raises_raise_if|]. intros _ _. apply fields_loop_raises. Qed.

(** The bytes a list of fields holds *)
Definition held (l : list field) : Z := foldr (fun f acc => match f_value f with Chunk b => size b | Varint _ => 0 end + acc) 0 l.
Lemma fields_loop_Ok room data l : fields_loop room data = Ok l ->
  Forall field_ok l /\ (length l <= room)%nat /\ held l + Z.of_nat (length l) <= size data.
Proof.
  revert data l. induction room as [|room IH]; intros [|a data] l; cbn [fields_loop]; [intros [= <-]; by split_and!|done|intros [= <-]; split_and!; [done|cbn; lia|done]|].
  intros E. apply bind_Ok in E as ([tag r] & Ht%varint_Ok & E). cbn [fst snd] in E.
  apply bind_Ok in E as ([] & Hn & E). apply bind_Ok in E as ([v r2] & Hv & E). cbn [fst snd] in E.
  apply bind_Ok in E as (rest & [Hf [Hl Hh]]%IH & E). injection E as <-.
  unfold raise_if in Hn. destruct (Z.eqb_spec (Z.shiftr tag 3) 0) as [|Hz]; [done|].
  destruct Ht as [Ht Hr]. assert (1 <= Z.shiftr tag 3 < 2 ^ 67) as Hnum.
  { rewrite Z.shiftr_div_pow2 in * by lia. change (2 ^ 3) with 8 in *. split; [pose proof (Z.div_pos tag 8); lia|]. apply Z.div_lt_upper_bound; lia. }
  unfold size in *. cbn [length] in *. cbn [held foldr].
  destruct (Z.land tag 7 =? 0).
  - apply bind_Ok in Hv as ([z r3] & Hz2%varint_Ok & [= <- <-]). cbn [f_value fst snd] in *. destruct Hz2 as [Hz2 Hr2].
    split_and!; [|lia|fold (held rest); lia]. constructor; [|done]. split; done.
  - destruct (Z.land tag 7 =? 2); [|done]. apply bind_Ok in Hv as ([z r3] & Hz2%varint_Ok & Hv). cbn [f_value fst snd] in *.
    apply bind_Ok in Hv as ([] & Hb & [= <- <-]). unfold raise_if in Hb.
    destruct ((MAX_TX_BYTES <? z) || (Z.of_nat (length r3) <? z)) eqn:Eb; [done|].
    destruct Hz2 as [Hz2 Hr2]. rewrite length_drop in Hh. fold (held rest). apply orb_false_iff in Eb as [Eb1 Eb2].
    assert (size (take (Z.to_nat z) r3) = z) as Hsz by (unfold size; rewrite length_take; lia). rewrite Hsz.
    split_and!; [|lia|lia]. constructor; [|done]. split; [done|]. cbn. lia.
Qed.

Lemma tag_parts number w : 0 <= w < 8 -> 1 <= number -> Z.shiftr (number * 8 + w) 3 = number /\ Z.land (number * 8 + w) 7 = w.
Proof.
  intros Hw Hn. rewrite Z.shiftr_div_pow2 by lia. change 7 with (Z.ones 3). rewrite Z.land_ones by lia. change (2 ^ 3) with 8.
  rewrite Z.add_comm, Z.mod_add, Z.div_add by lia. by rewrite Z.div_small, Z.mod_small by lia.
Qed.
Lemma encode_field_nonempty f : exists a r, encode_field f = a :: r.
Proof.
  unfold encode_field, varint_encode. cbn [varint_encode_loop]. destruct (_ <? 128); cbn [app]; by eexists _, _.
Qed.
Lemma fields_loop_encode room l : Forall field_ok l -> (length l <= room)%nat -> fields_loop room (encode l) = Ok l.
Proof.
  revert l. induction room as [|room IH]; intros [|f l] Hf Hl; try done; [cbn in Hl; lia|].
  apply Forall_cons in Hf as [Hok Hf]. change (encode (f :: l)) with (encode_field f ++ encode l).
  destruct (encode_field_nonempty f) as (a & r & Ea). rewrite Ea. cbn [app fields_loop]. rewrite app_comm_cons, <- Ea. clear a r Ea.
  destruct f as [number v], Hok as [Hn Hv]; cbn [f_number f_value] in *. unfold encode_field; cbn [f_number f_value]. rewrite <- app_assoc.
  assert (0 <= wire v < 8) as Hw by (destruct v; cbn; lia).
  destruct (tag_parts number (wire v) Hw ltac:(lia)) as [Ht1 Ht2].
  rewrite varint_encode_ok by (destruct v; cbn; lia). cbn [mbind res_bind fst snd]. rewrite Ht1, Ht2.
  destruct (Z.eqb_spec number 0) as [|_]; [lia|]. cbn [raise_if mbind res_bind].
  destruct v as [z|b]; cbn [wire Z.eqb].
  - rewrite varint_encode_ok by done. cbn [mbind res_bind fst snd]. by rewrite IH by (try done; cbn in Hl; lia).
  - rewrite <- app_assoc, varint_encode_ok by (unfold size, MAX_TX_BYTES in *; lia). cbn [mbind res_bind fst snd].
    assert ((MAX_TX_BYTES <? size b) || (size (b ++ encode l) <? size b) = false) as ->.
    { apply orb_false_iff. unfold size in *. split; apply Z.ltb_ge; [exact Hv|rewrite length_app; lia]. }
    cbn [raise_if mbind res_bind fst snd Pos.eqb]. unfold size. rewrite Nat2Z.id, take_app_length, drop_app_length.
    by rewrite IH by (try done; cbn in Hl; lia).
Qed.

(** C20. Reading inverts the encoding of a message of at most 256 fields and two
    million bytes; and whatever else is read, the reader accepts at most 256
    fields, with positive numbers, 70-bit integers and no more bytes than it was
    given, or raises MalformedUpstreamResponse. *)
Theorem fields_roundtrip :
  (forall l, Forall field_ok l -> (length l <= MAX_FIELDS)%nat -> size (encode l) <= MAX_TX_BYTES -> fields (encode l) = Ok l) /\
  (forall data, match fields data with
                | Ok l => Forall field_ok l /\ (length l <= MAX_FIELDS)%nat /\ held l + Z.of_nat (length l) <= size data <= MAX_TX_BYTES
                | Raise e => is_malformed e = true
                end).
Proof.
  split.
  - intros l Hf Hl Hs. unfold fields, raise_if. rewrite (proj2 (Z.ltb_ge _ _) Hs). by apply fields_loop_encode.
  - intros data. pose proof (fields_raises data) as Hr. destruct (fields data) as [l|e] eqn:E; [|exact Hr].
    unfold fields in E. apply bind_Ok in E as ([] & Hs & E). apply fields_loop_Ok in E as (Hf & Hl & Hh).
    unfold raise_if in Hs. destruct (Z.ltb_spec MAX_TX_BYTES (size data)); [done|]. by split_and!.
Qed.
Lemma fields_roundtrip_witness :
  let l := [Field 1 (Varint 300); Field 2 (Chunk (list_of_string "uatom")); Field 1 (Varint (2 ^ 70 - 1))] in fields (encode l) = Ok l.
Proof.
  apply (proj1 fields_roundtrip); [|unfold MAX_FIELDS; cbn; lia|vm_compute; congruence].
  repeat constructor; vm_compute; congruence.
Defined.
(** A field number of zero, an unknown wire type and a truncated value *)
Example malformed_fields : Forall (fun zs => exists msg, fields (map Z_byte zs) = Raise (MalformedUpstreamResponse msg))
  [[2; 0]; [13; 0; 0; 0; 0]; [10; 5; 65]; [8; 128]; [8; 128; 128; 128; 128; 128; 128; 128; 128; 128; 128; 0]].
Proof. repeat constructor; eexists; reflexivity. Qed.
