(* ===== verification/Decimal.v ===== *)
(** * decimal.Decimal, as far as the Cosmos code uses it

    Python's [Decimal] of a string (exact, within the limits of libmpdec),
    arithmetic rounded by the default context (28 digits, half even, exponents
    up to 999999), and the fixed-point format with a number of decimals.  The
    traps of the default context raise. *)
From Stdlib Require Import ZArith NArith Lia Ascii String.
From stdpp Require Import base list strings.
From S2P Require Import Prelude PyStr PyVal Digits.
Open Scope Z_scope.

Inductive decimal : Type :=
| Finite (negative : bool) (coefficient exponent : Z)     (* (-1)^negative * coefficient * 10^exponent *)
| Infinite (negative : bool)
| NaN (signaling : bool).
Definition is_finite (d : decimal) : bool := match d with Finite _ _ _ => true | _ => false end.

(** ** Reading a string *)
Definition MAX_EMAX : Z := 999999999999999999.
Definition MAX_ETINY : Z := -1999999999999999997.
(** The number of digits of a coefficient *)
Definition ndigits (c : Z) : Z := Z.of_nat (length (dec_digits c)).

(** Underscores are dropped, and spaces only trimmed. *)
Definition numeric_chars (s : string) : list ascii :=
  List.filter (fun a => negb (bool_decide (a = "_"%char))) (map int_char (chars (py_strip s))).
Fixpoint span_digits (l : list ascii) : list Z * list ascii :=
  match l with
  | a :: r => match ascii_digit a with Some d => let p := span_digits r in (d :: p.1, p.2) | None => ([], l) end
  | [] => ([], [])
  end.
Definition lowered (l : list ascii) : string := string_of_list (map ascii_lower l).
(** The exponent part: nothing, or [e], a sign and digits through the end. *)
Definition exponent_part (l : list ascii) : option Z :=
  match l with
  | [] => Some 0
  | e :: l =>
      if bool_decide (ascii_lower e = "e"%char) then
        let negative := head_is "-"%char l in
        let l := if negative || head_is "+"%char l then tail l else l in
        match span_digits l with
        | ((_ :: _) as ds, []) => Some (if negative then - digits_value ds else digits_value ds)
        | _ => None
        end
      else None
  end.
Definition finite_number (negative : bool) (l : list ascii) : option decimal :=
  let '(whole, l) := span_digits l in
  let '(frac, l) := match l with a :: r => if bool_decide (a = "."%char) then span_digits r else ([], l) | [] => ([], []) end in
  match whole ++ frac with
  | [] => None
  | ds => e ← exponent_part l; Some (Finite negative (digits_value ds) (e - Z.of_nat (length frac)))
  end.
(** [nan] and [snan] may carry digits. *)
Definition nan_payload (p : string) (l : list ascii) : bool :=
  startswith p (lowered l) && match (span_digits (drop (String.length p) l)).2 with [] => true | _ => false end.
Definition decimal_of (l : list ascii) : option decimal :=
  let negative := head_is "-"%char l in
  let l := if negative || head_is "+"%char l then tail l else l in
  if in_strs (lowered l) ["inf"; "infinity"] then Some (Infinite negative)
  else if nan_payload "nan" l then Some (NaN false)
  else if nan_payload "snan" l then Some (NaN true)
  else finite_number negative l.
(** [Decimal(s)] *)
Definition Decimal (s : string) : res decimal :=
  match decimal_of (numeric_chars s) with
  | None => Raise DecimalInvalidOperation
  | Some (Finite n c e) =>
      if (MAX_EMAX <? e + ndigits c - 1) || (e <? MAX_ETINY) then Raise DecimalInvalidOperation else Ok (Finite n c e)
  | Some d => Ok d
  end.

(** ** Rounding *)

(** [c / 10^k], to the nearest integer and to an even one at a tie. *)
Definition div_half_even (c m : Z) : Z :=
  let q := c / m in
  let r := 2 * (c mod m) in
  if r <? m then q else if m <? r then q + 1 else if Z.even q then q else q + 1.
(** The same without computing a power beyond the coefficient. *)
Definition shift_right (c k : Z) : Z := if ndigits c <? k then 0 else div_half_even c (10 ^ k).

Definition PREC : Z := 28.
Definition EMAX : Z := 999999.
Definition ETINY : Z := -1000026.
Definition rounded_to_prec (c e : Z) : Z * Z :=
  if PREC <? ndigits c then
    let c' := shift_right c (ndigits c - PREC) in
    let e' := e + (ndigits c - PREC) in
    if PREC <? ndigits c' then (c' / 10, e' + 1) else (c', e')
  else (c, e).
(** A result in the default context *)
Definition finalize (negative : bool) (c e : Z) : res decimal :=
  if c =? 0 then Ok (Finite negative 0 (Z.max ETINY (Z.min EMAX e)))
  else if EMAX <? e + ndigits c - 1 then Raise DecimalOverflow
  else if e <? ETINY then Ok (Finite negative (shift_right c (ETINY - e)) ETINY)
  else let '(c, e) := rounded_to_prec c e in
       if EMAX <? e + ndigits c - 1 then Raise DecimalOverflow else Ok (Finite negative c e).
(** [d * Decimal(n)] for a positive integer [n] *)
Definition decimal_times (d : decimal) (n : Z) : res decimal :=
  match d with
  | NaN true => Raise DecimalInvalidOperation
  | Finite negative c e => finalize negative (c * n) e
  | _ => Ok d
  end.

(** ** Formatting

    [f"{d:.{places}f}"] of a finite number *)
Definition scaled (places : nat) (c e : Z) : Z :=
  let k := e + Z.of_nat places in
  if 0 <=? k then c * 10 ^ k else shift_right c (- k).
Definition fixed_text (places : nat) (negative : bool) (z : Z) : string :=
  (if negative then "-" else "") +:+ str_of_nonneg (z / 10 ^ Z.of_nat places) +:+ "." +:+ padded places (z mod 10 ^ Z.of_nat places).
Definition format_fixed (places : nat) (d : decimal) : string :=
  match d with
  | Finite negative c e => fixed_text places negative (scaled places c e)
  | Infinite negative => if negative then "-Infinity" else "Infinity"
  | NaN _ => "NaN"
  end.

(** ** What the operations raise *)
Lemma Decimal_raises s : raises (fun e => bool_decide (e = DecimalInvalidOperation)) (Decimal s).
Proof. unfold Decimal. destruct (decimal_of _) as [[n c e| |]|]; try done. by destruct (_ || _). Qed.
Definition is_decimal_error (e : exc) : bool := bool_decide (e = DecimalInvalidOperation) || bool_decide (e = DecimalOverflow).
Lemma decimal_times_raises d n : raises is_decimal_error (decimal_times d n).
Proof.
  destruct d as [neg c e|neg|[]]; try done. cbn [decimal_times]. unfold finalize.
  destruct (_ =? 0); [done|]. destruct (EMAX <? _); [done|]. destruct (e <? ETINY); [done|].
  destruct (rounded_to_prec _ _) as [c' e']. by destruct (EMAX <? _).
Qed.
