(* ===== verification/TransactionDetail.v ===== *)
(** * api/cosmos/transaction_detail.py: decoding one transaction from its block

    The display fields of the known message types, the Authz execution with its
    bounds of nesting and size, the enrichment from events, and
    [normalize_transaction_detail].  The dicts it returns are records. *)
From Stdlib Require Import ZArith NArith Lia Ascii String.
From stdpp Require Import base list strings.
From S2P Require Import Prelude PyStr PyVal Codec Lines Digits Rfc3339 CosmosParsing Protobuf Decimal.
Open Scope Z_scope.

Definition MAX_AUTHZ_DEPTH : nat := 3.
Definition MAX_MESSAGE_DISPLAY_FIELDS : nat := 16.
Definition _DO_NOT_MODIFY : string := "[do-not-modify]".
Definition _VOTE_OPTIONS : list (Z * string) :=
  [(0, "Unspecified"); (1, "Yes"); (2, "Abstain"); (3, "No"); (4, "No with veto")].

(** ** Display fields *)
Record coin := Coin { c_denom : string; c_amount : string }.
Record weighted_option := WeightedOption { wo_option : string; wo_weight : string }.
Inductive shown : Type :=
| Text (s : string)
| OneCoin (c : coin)
| Coins (l : list coin)
| Options (l : list weighted_option).
Record display_field := Show { d_label : string; d_value : shown }.
Record message := Message { m_type_url : string; m_action : string; m_fields : list display_field }.

Section detail.
Context `{PyRuntime}.

(** [_text] *)
Definition text_of (value : option bytes) : option string :=
  b ← value; s ← utf8_decode b;
  if (py_len s <=? 1024) && py_isprintable s then Some s else None.

(** [s.rstrip(c)] for one ASCII character, on ASCII text *)
Definition rstrip_byte (c : ascii) (s : string) : string :=
  string_of_list (reverse (drop_while (fun a => bool_decide (a = c)) (reverse (list_of_string s)))).
(** The text of a percentage with its zeros trimmed to two decimals *)
Definition trim_percent (text : string) : string :=
  let text := rstrip_byte "." (rstrip_byte "0" text) in
  let text :=
    if negb (py_contains "." text) then text +:+ ".00"
    else
      let decimals := String.length (py_rsplit_last "." text) in
      if (decimals <? 2)%nat then text +:+ string_of_list (repeat "0"%char (2 - decimals)) else text in
  text +:+ "%".
(** [_percent] *)
Definition percent (value : option string) : res (option string) :=
  match value with
  | None => Ok None
  | Some s =>
      if String.eqb s "" || (128 <? py_len s) then Ok None
      else
        match (d ← Decimal s; decimal_times d 100) with
        | Ok d => if negb (is_finite d) then Ok None else Ok (Some (trim_percent (format_fixed 6 d)))
        | Raise e => if isinstance_ValueError e || bool_decide (e = DecimalInvalidOperation) then Ok None else Raise e
        end
  end.

(** [value.rstrip()] *)
Definition py_rstrip (s : string) : string := str_concat (reverse (drop_while is_space_char (reverse (chars s)))).
(** [_outcome_text] *)
Definition outcome_text (value : val) (max_length : Z) : option string :=
  match value with
  | VStr s =>
      let s := py_strip s in
      if String.eqb s "" then None
      else if py_len s <=? max_length then Some s
      else Some (py_rstrip (py_take (max_length - 1) s) +:+ "…")
  | _ => None
  end.

Definition nonempty (s : option string) : option string := s ≫= fun s => if String.eqb s "" then None else Some s.
(** [_coin] *)
Definition coin_of (raw : bytes) : res (option coin) :=
  fs ← fields raw;
  Ok (denom ← nonempty (text_of (one fs 1));
      amount ← nonempty (text_of (one fs 2));
      if py_isdigit amount then Some (Coin denom amount) else None).

(** ** Coins of an event *)
Definition denom_char (a : ascii) : bool :=
  let z := byte_Z a in
  ((48 <=? z) && (z <=? 57)) || ((65 <=? z) && (z <=? 90)) || ((97 <=? z) && (z <=? 122)) || in_strs (String a "") ["/"; ":"; "."; "_"; "-"].
Definition letter (a : ascii) : bool := let z := byte_Z a in ((65 <=? z) && (z <=? 90)) || ((97 <=? z) && (z <=? 122)).
Fixpoint span_ascii (p : ascii -> bool) (l : list ascii) : list ascii * list ascii :=
  match l with a :: r => if p a then let q := span_ascii p r in (a :: q.1, q.2) else ([], l) | [] => ([], []) end.
Definition is_ascii_digit (a : ascii) : bool := match ascii_digit a with Some _ => true | None => false end.
(** [_EVENT_COIN_RE.fullmatch] *)
Definition event_coin (s : string) : option coin :=
  match span_ascii is_ascii_digit (list_of_string s) with
  | ((_ :: _) as amount, ((a :: rest) as denom)) =>
      if letter a && forallb denom_char rest && (length rest <=? 127)%nat
      then Some (Coin (string_of_list denom) (string_of_list amount)) else None
  | _ => None
  end.
Definition event_coins (value : option string) : option (list coin) :=
  s ← value;
  if String.eqb s "" || (4096 <? py_len s) then None else mapM (fun part => event_coin (py_strip part)) (py_split "," s).

(** [_event_attributes]: the first value of each key *)
Definition event_attributes (event : list (string * val)) : list (string * string) :=
  match dget event "attributes" with
  | VList attributes =>
      foldl (fun result attribute =>
        match attribute with
        | VDict d =>
            match dget d "key", dget d "value" with
            | VStr key, VStr value =>
                if (0 <? py_len key) && (py_len key <=? 128) && (py_len value <=? 4096) && negb (dict_has key result)
                then result ++ [(key, value)] else result
            | _, _ => result
            end
        | _ => result
        end) [] attributes
  | _ => []
  end.
Definition message_events (events : val) (index count : nat) : list (list (string * val)) :=
  match events with
  | VList l => omap (fun event =>
      match event with
      | VDict event =>
          match dict_get "msg_index" (event_attributes event) with
          | None => if (count =? 1)%nat then Some event else None
          | Some raw => if String.eqb raw (str_of_Z (Z.of_nat index)) then Some event else None
          end
      | _ => None
      end) l
  | _ => []
  end.
Definition execution_coin_field (events : list (list (string * val))) (event_type label : string) : option display_field :=
  head (omap (fun event =>
    if py_eq (dget event "type") (VStr event_type)
    then coins ← event_coins (dict_get "amount" (event_attributes event)); Some (Show label (Coins coins))
    else None) events).

(** ** Messages with a decoder of their own *)
Definition shown_text (label : string) (value : option string) : list display_field :=
  match nonempty value with Some s => [Show label (Text s)] | None => [] end.
Definition description (raw : option bytes) (edit : bool) : res (list display_field) :=
  match raw with
  | None => Ok []
  | Some raw =>
      fs ← fields raw;
      Ok (flat_map (fun nl =>
            match nonempty (text_of (one fs nl.1)) with
            | Some value => if edit && String.eqb value _DO_NOT_MODIFY then []
                            else [Show (if edit then "New " +:+ py_lower nl.2 else nl.2) (Text value)]
            | None => []
            end) [(1, "Moniker"); (2, "Identity"); (3, "Website"); (4, "Security contact"); (5, "Details")])
  end.
Definition commission_rates (raw : option bytes) : res (list display_field) :=
  match raw with
  | None => Ok []
  | Some raw =>
      fs ← fields raw;
      rows ← mapM_res (fun nl => value ← percent (text_of (one fs nl.1)); Ok (shown_text nl.2 value))
               [(1, "Commission rate"); (2, "Maximum commission"); (3, "Maximum daily change")];
      Ok (concat rows)
  end.
Definition edit_validator (fs : list field) : res (list display_field) :=
  described ← description (one fs 1) true;
  commission ← percent (text_of (one fs 3));
  Ok (shown_text "Validator" (text_of (one fs 2)) ++ described ++ shown_text "New commission rate" commission ++
      shown_text "New minimum self delegation" (text_of (one fs 4))).
Definition create_validator (fs : list field) : res (list display_field) :=
  amount ← (match one fs 7 with Some raw => coin_of raw | None => Ok None end);
  described ← description (one fs 1) false;
  rates ← commission_rates (one fs 2);
  Ok (shown_text "Validator" (text_of (one fs 5)) ++ shown_text "Delegator" (text_of (one fs 4)) ++
      match amount with Some c => [Show "Amount" (OneCoin c)] | None => [] end ++
      shown_text "Minimum self delegation" (text_of (one fs 3)) ++ described ++ rates).
Definition vote_option (z : Z) : string :=
  match List.find (fun o => o.1 =? z) _VOTE_OPTIONS with Some o => o.2 | None => str_of_Z z end.
Definition weighted_vote (fs : list field) : res (list display_field) :=
  options ← mapM_res (fun raw =>
      option_fields ← fields raw;
      weight ← percent (text_of (one option_fields 2));
      Ok match one_int option_fields 1, nonempty weight with
         | Some option, Some weight => [WeightedOption (vote_option option) weight]
         | _, _ => []
         end) (chunks_of 3 fs);
  Ok (match one_int fs 1 with Some proposal => [Show "Proposal" (Text (str_of_Z proposal))] | None => [] end ++
      shown_text "Voter" (text_of (one fs 2)) ++
      match concat options with [] => [] | l => [Show "Options" (Options l)] end).
Definition authz_grant (fs : list field) : res (list display_field) :=
  granted ← (match one fs 3 with
             | None => Ok []
             | Some grant_raw =>
                 grant_fields ← fields grant_raw;
                 match one grant_fields 1 with
                 | None => Ok []
                 | Some authorization_raw =>
                     authorization_fields ← fields authorization_raw;
                     Ok (shown_text "Authorization" (text_of (one authorization_fields 1)))
                 end
             end);
  Ok (shown_text "Granter" (text_of (one fs 1)) ++ shown_text "Grantee" (text_of (one fs 2)) ++ granted).

(** ** The tables of message types *)
Inductive kind : Type := KText | KUint | KVoteOption | KCoin | KCoins.
Definition specification : Type := string * list (Z * string * kind).
Definition _MESSAGES : list (string * specification) := [
  ("/cosmos.bank.v1beta1.MsgSend", ("Send", [(1, "From", KText); (2, "To", KText); (3, "Amount", KCoins)]));
  ("/cosmos.staking.v1beta1.MsgDelegate", ("Delegate", [(1, "Delegator", KText); (2, "Validator", KText); (3, "Amount", KCoin)]));
  ("/cosmos.staking.v1beta1.MsgUndelegate", ("Undelegate", [(1, "Delegator", KText); (2, "Validator", KText); (3, "Amount", KCoin)]));
  ("/cosmos.staking.v1beta1.MsgBeginRedelegate", ("Redelegate", [(1, "Delegator", KText); (2, "Source validator", KText); (3, "Destination validator", KText); (4, "Amount", KCoin)]));
  ("/cosmos.staking.v1beta1.MsgCancelUnbondingDelegation", ("Cancel unbonding", [(1, "Delegator", KText); (2, "Validator", KText); (3, "Amount", KCoin); (4, "Creation height", KUint)]));
  ("/cosmos.distribution.v1beta1.MsgWithdrawDelegatorReward", ("Withdraw reward", [(1, "Delegator", KText); (2, "Validator", KText)]));
  ("/cosmos.distribution.v1beta1.MsgWithdrawValidatorCommission", ("Withdraw validator commission", [(1, "Validator", KText)]));
  ("/cosmos.distribution.v1beta1.MsgSetWithdrawAddress", ("Set withdraw address", [(1, "Delegator", KText); (2, "Withdraw address", KText)]));
  ("/cosmos.distribution.v1beta1.MsgFundCommunityPool", ("Fund community pool", [(1, "Amount", KCoins); (2, "Depositor", KText)]));
  ("/cosmos.slashing.v1beta1.MsgUnjail", ("Unjail", [(1, "Validator", KText)]));
  ("/cosmos.gov.v1beta1.MsgVote", ("Vote", [(1, "Proposal", KUint); (2, "Voter", KText); (3, "Option", KVoteOption)]));
  ("/cosmos.gov.v1.MsgVote", ("Vote", [(1, "Proposal", KUint); (2, "Voter", KText); (3, "Option", KVoteOption)]));
  ("/cosmos.gov.v1beta1.MsgDeposit", ("Deposit", [(1, "Proposal", KUint); (2, "Depositor", KText); (3, "Amount", KCoins)]));
  ("/cosmos.gov.v1.MsgDeposit", ("Deposit", [(1, "Proposal", KUint); (2, "Depositor", KText); (3, "Amount", KCoins)]));
  ("/cosmos.authz.v1beta1.MsgRevoke", ("Revoke authorization", [(1, "Granter", KText); (2, "Grantee", KText); (3, "Message type", KText)]));
  ("/ibc.applications.transfer.v1.MsgTransfer", ("IBC transfer", [(1, "Source port", KText); (2, "Source channel", KText); (3, "Token", KCoin); (4, "Sender", KText); (5, "Receiver", KText)]))].
Definition _CUSTOM_MESSAGES : list (string * (string * (list field -> res (list display_field)))) := [
  ("/cosmos.staking.v1beta1.MsgEditValidator", ("Edit validator", edit_validator));
  ("/cosmos.staking.v1beta1.MsgCreateValidator", ("Create validator", create_validator));
  ("/cosmos.gov.v1beta1.MsgVoteWeighted", ("Weighted vote", weighted_vote));
  ("/cosmos.gov.v1.MsgVoteWeighted", ("Weighted vote", weighted_vote));
  ("/cosmos.authz.v1beta1.MsgGrant", ("Grant authorization", authz_grant))].
Definition _EXECUTION_COIN_EVENTS : list (string * (string * string)) := [
  ("/cosmos.distribution.v1beta1.MsgWithdrawDelegatorReward", ("withdraw_rewards", "Reward withdrawn"));
  ("/cosmos.distribution.v1beta1.MsgWithdrawValidatorCommission", ("withdraw_commission", "Commission withdrawn"))].

(** One row of a specification *)
Definition specified_field (fs : list field) (row : Z * string * kind) : res (list display_field) :=
  let '(number, label, kind) := row in
  match kind with
  | KText => Ok (match single (chunks_of number fs) ≫= (fun b => text_of (Some b)) with Some s => [Show label (Text s)] | None => [] end)
  | KUint => Ok (match single (varints_of number fs) with Some z => [Show label (Text (str_of_Z z))] | None => [] end)
  | KVoteOption => Ok (match single (varints_of number fs) with Some z => [Show label (Text (vote_option z))] | None => [] end)
  | KCoin =>
      match single (chunks_of number fs) with
      | Some raw => c ← coin_of raw; Ok (match c with Some c => [Show label (OneCoin c)] | None => [] end)
      | None => Ok []
      end
  | KCoins =>
      coins ← mapM_res coin_of (chunks_of number fs);
      Ok (match omap id coins with [] => [] | l => [Show label (Coins l)] end)
  end.

(** ** Authz executions

    [nested] decodes an executed message, or is absent at the depth limit. *)
Definition executed_fields (index : nat) (m : message) : list display_field :=
  let prefix := "#" +:+ str_of_Z (Z.of_nat index) +:+ " " in
  Show (prefix +:+ "action") (Text (m_action m)) :: map (fun f => Show (prefix +:+ d_label f) (d_value f)) (m_fields m).
Fixpoint exec_loop (nested : bytes -> res message) (total index : nat) (l : list bytes) (result : list display_field)
    : res (list display_field * nat) :=
  match l with
  | [] => Ok (result, O)
  | raw :: l =>
      m ← nested raw;
      let candidate := executed_fields index m in
      if (MAX_MESSAGE_DISPLAY_FIELDS - 1 <? length result + length candidate)%nat then Ok (result, total - index)%nat
      else exec_loop nested total (S index) l (result ++ candidate)
  end.
Definition authz_exec (nested : option (bytes -> res message)) (fs : list field) : res (list display_field) :=
  let nested_raw := chunks_of 2 fs in
  let result := shown_text "Grantee" (text_of (one fs 1)) ++ [Show "Executed messages" (Text (str_of_Z (Z.of_nat (length nested_raw))))] in
  match nested with
  | None => Ok (result ++ match nested_raw with [] => [] | _ => [Show "Nested details" (Text "Depth limit reached")] end)
  | Some decode =>
      done ← exec_loop decode (length nested_raw) 0 nested_raw result;
      Ok (if negb (done.2 =? 0)%nat && (length done.1 <? MAX_MESSAGE_DISPLAY_FIELDS)%nat
          then done.1 ++ [Show "Additional executed messages" (Text (str_of_Z (Z.of_nat done.2)))] else done.1)
  end.

Definition MSG_EXEC : string := "/cosmos.authz.v1beta1.MsgExec".
(** [_message] with [room] levels of nesting left, [MAX_AUTHZ_DEPTH - depth] *)
Fixpoint decode_message (room : nat) (raw_any : bytes) : res message :=
  any_fields ← fields raw_any;
  match nonempty (text_of (one any_fields 1)), one any_fields 2 with
  | Some type_url, Some value =>
      _ ← require (startswith "/" type_url) (MalformedUpstreamResponse "invalid Cosmos message Any");
      fs ← fields value;
      if String.eqb type_url MSG_EXEC then
        shown ← authz_exec (match room with O => None | S room => Some (decode_message room) end) fs;
        Ok (Message type_url "Authz execution" shown)
      else
        match dict_get type_url _CUSTOM_MESSAGES with
        | Some (action, decoder) => shown ← decoder fs; Ok (Message type_url action shown)
        | None =>
            match dict_get type_url _MESSAGES with
            | None => Ok (Message type_url (removeprefix "Msg" (py_rsplit_last "." type_url)) [])
            | Some (action, definitions) =>
                rows ← mapM_res (specified_field fs) definitions;
                Ok (Message type_url action (concat rows))
            end
        end
  | _, _ => malformed "invalid Cosmos message Any"
  end.

(** [_enrich_messages_from_events] *)
Definition enrich_message (events : val) (count : nat) (im : nat * message) : message :=
  let '(index, m) := im in
  match dict_get (m_type_url m) _EXECUTION_COIN_EVENTS with
  | None => m
  | Some (event_type, label) =>
      match execution_coin_field (message_events events index count) event_type label with
      | Some f => Message (m_type_url m) (m_action m) (m_fields m ++ [f])
      | None => m
      end
  end.
Definition enrich_messages (messages : list message) (events : val) : list message :=
  map (enrich_message events (length messages)) (enumerate messages).

(** ** The detail of a transaction *)
Record transaction_fee := Fee { f_amount : list coin; f_gas_limit : option Z }.
Record transaction_detail := {
  td_tx_hash : string; td_height : Z; td_index : Z; td_timestamp : string; td_success : bool; td_code : Z;
  td_codespace : option string; td_error_log : option string; td_gas_wanted : option Z; td_gas_used : option Z;
  td_fee : option transaction_fee; td_memo : option string; td_message_count : Z; td_messages : list message
}.
Definition gas (outcome : list (string * val)) (name : string) : res (option Z) :=
  match dget outcome name with
  | VStr s => if py_isdigit s then Some <$> py_int_str s else Ok None
  | VInt z => s ← py_str_int z; if py_isdigit s then Ok (Some z) else Ok None
  | _ => Ok None
  end.
Definition fee_of (auth : list field) : res (option transaction_fee) :=
  match one auth 2 with
  | None => Ok None
  | Some fee_raw =>
      fee_fields ← fields fee_raw;
      coins ← mapM_res coin_of (chunks_of 1 fee_fields);
      Ok (Some (Fee (omap id coins) (one_int fee_fields 2)))
  end.
(** [value or []], checked to be a list *)
Definition list_or_empty (value : val) (msg : string) : res (list val) :=
  match por value (VList []) with VList l => Ok l | _ => malformed msg end.

Definition normalize_transaction_detail (block_payload results_payload : val) (expected_chain_id : string)
    (requested_height tx_index : Z) : res transaction_detail :=
  root ← mapping block_payload;
  result ← mapping (dget root "result");
  block ← mapping (dget result "block");
  header ← mapping (dget block "header");
  _ ← identity (dget header "chain_id") expected_chain_id;
  h ← height (dget header "height");
  _ ← require (h =? requested_height) (MalformedUpstreamResponse "wrong block height");
  data ← mapping (get_default block "data" (VDict []));
  txs ← list_or_empty (dget data "txs") "invalid transactions";
  _ ← require ((0 <=? tx_index) && (tx_index <? Z.of_nat (length txs))) (IndexError "transaction index out of range");
  raw ← match nth (Z.to_nat tx_index) txs VNone with
        | VStr encoded => match b64decode encoded with Ok raw => Ok raw | Raise _ => malformed "invalid transaction base64" end
        | _ => malformed "invalid transaction base64"
        end;
  results_root ← mapping results_payload;
  results ← mapping (dget results_root "result");
  results_height ← height (dget results "height");
  _ ← require (results_height =? h) (MalformedUpstreamResponse "wrong block results height");
  tx_results ← list_or_empty (dget results "txs_results") "transaction results do not match transactions";
  _ ← require (length tx_results =? length txs)%nat (MalformedUpstreamResponse "transaction results do not match transactions");
  outcome ← mapping (nth (Z.to_nat tx_index) tx_results VNone);
  code ← py_int (get_default outcome "code" (VInt 0));
  raw_fields ← fields raw;
  match one raw_fields 1, one raw_fields 2 with
  | Some body_raw, Some auth_raw =>
      body ← fields body_raw;
      messages ← mapM_res (decode_message MAX_AUTHZ_DEPTH) (chunks_of 1 body);
      let messages := if code =? 0 then enrich_messages messages (dget outcome "events") else messages in
      auth ← fields auth_raw;
      fee ← fee_of auth;
      timestamp ← timestamp_text (dget header "time");
      gas_wanted ← gas outcome "gas_wanted";
      gas_used ← gas outcome "gas_used";
      Ok {| td_tx_hash := hex_upper (sha256 raw); td_height := h; td_index := tx_index; td_timestamp := timestamp;
            td_success := code =? 0; td_code := code;
            td_codespace := if code =? 0 then None else outcome_text (dget outcome "codespace") 128;
            td_error_log := if code =? 0 then None else outcome_text (por (dget outcome "log") (dget outcome "info")) 4096;
            td_gas_wanted := gas_wanted; td_gas_used := gas_used; td_fee := fee;
            td_memo := nonempty (text_of (one body 2)); td_message_count := Z.of_nat (length messages); td_messages := messages |}
  | _, _ => malformed "invalid TxRaw"
  end.
End detail.

(** ** What the decoder raises *)
Section detail_proofs.
Context `{PyRuntime}.
Definition is_overflow (e : exc) : bool := match e with DecimalOverflow => true | _ => false end.
Definition is_detail_error (e : exc) : bool := is_malformed e || is_overflow e.
#[local] Abbreviation fails m := (raises is_detail_error m).

Lemma fields_fail data : fails (fields data).
Proof. eapply raises_impl; [|apply fields_raises]. intros e He. unfold is_detail_error. by rewrite He. Qed.
(** Only an overflow escapes [_percent]. *)
Lemma percent_raises value : raises is_overflow (percent value).
Proof.
  unfold percent. destruct value as [s|]; [|done]. destruct (_ || _); [done|].
  destruct (d ← Decimal s; decimal_times d 100) as [d|e] eqn:E; [by destruct (negb _)|].
  assert (is_decimal_error e = true) as He.
  { apply (raises_Raise_inv is_decimal_error _ _) in E; [done|]. apply raises_bind; [|intros; apply decimal_times_raises].
    eapply raises_impl; [|apply Decimal_raises]. intros x Hx. unfold is_decimal_error. by rewrite Hx. }
  unfold is_decimal_error in He. apply orb_true_iff in He as [He%bool_decide_eq_true|He%bool_decide_eq_true]; subst e; done.
Qed.
Lemma percent_fails value : fails (percent value).
Proof. eapply raises_impl; [|apply percent_raises]. intros e He. unfold is_detail_error. by rewrite He, orb_true_r. Qed.
Lemma coin_of_fails raw : fails (coin_of raw).
Proof. apply raises_bind; [apply fields_fail|done]. Qed.
Lemma description_fails raw edit : fails (description raw edit).
Proof. destruct raw; [|done]. apply raises_bind; [apply fields_fail|done]. Qed.
Lemma commission_rates_fails raw : fails (commission_rates raw).
Proof.
  destruct raw; [|done]. apply raises_bind; [apply fields_fail|]. intros fs _. apply raises_bind; [|done].
  apply raises_mapM. intros nl _. apply raises_bind; [apply percent_fails|done].
Qed.
Lemma custom_fails type_url action decoder fs : dict_get type_url _CUSTOM_MESSAGES = Some (action, decoder) -> fails (decoder fs).
Proof.
  unfold _CUSTOM_MESSAGES. cbn [dict_get]. intros E.
  repeat (destruct (String.eqb type_url _); [injection E as _ <- |]); [..|done].
  - apply raises_bind; [apply description_fails|]. intros d _. apply raises_bind; [apply percent_fails|done].
  - apply raises_bind; [destruct (one fs 7); [apply coin_of_fails|done]|]. intros a _.
    apply raises_bind; [apply description_fails|]. intros d _. apply raises_bind; [apply commission_rates_fails|done].
  - apply raises_bind; [|done]. apply raises_mapM. intros raw _. apply raises_bind; [apply fields_fail|]. intros o _.
    apply raises_bind; [apply percent_fails|done].
  - apply raises_bind; [|done]. apply raises_mapM. intros raw _. apply raises_bind; [apply fields_fail|]. intros o _.
    apply raises_bind; [apply percent_fails|done].
  - apply raises_bind; [|done]. destruct (one fs 3); [|done]. apply raises_bind; [apply fields_fail|]. intros g _.
    destruct (one g 1); [|done]. apply raises_bind; [apply fields_fail|done].
Qed.
Lemma specified_field_fails fs row : fails (specified_field fs row).
Proof.
  destruct row as [[number label] []]; try done; cbn [specified_field].
  - destruct (single _); [|done]. apply raises_bind; [apply coin_of_fails|done].
  - apply raises_bind; [|done]. apply raises_mapM. intros; apply coin_of_fails.
Qed.
Lemma exec_loop_fails nested total index l result : (forall raw, fails (nested raw)) -> fails (exec_loop nested total index l result).
Proof.
  intros Hn. revert index result. induction l as [|raw l IH]; intros index result; [done|]. cbn [exec_loop].
  apply raises_bind; [apply Hn|]. intros m _. by destruct (_ <? _)%nat.
Qed.
Lemma decode_message_fails room raw : fails (decode_message room raw).
Proof.
  revert raw. induction room as [|room IH]; intros raw; cbn [decode_message].
  all: apply raises_bind; [apply fields_fail|]; intros any _.
  all: destruct (nonempty _) as [type_url|]; [|done]; destruct (one any 2) as [value|]; [|done].
  all: apply raises_bind; [by apply raises_require|]; intros _ _; apply raises_bind; [apply fields_fail|]; intros fs _.
  all: destruct (String.eqb type_url MSG_EXEC).
  2, 4: destruct (dict_get type_url _CUSTOM_MESSAGES) as [[action decoder]|] eqn:Ec;
    [apply raises_bind; [by eapply custom_fails|done]|destruct (dict_get type_url _MESSAGES) as [[action definitions]|]; [|done];
     apply raises_bind; [apply raises_mapM; intros; apply specified_field_fails|done]].
  - by apply raises_bind.
  - apply raises_bind; [|done]. apply raises_bind; [by apply exec_loop_fails|done].
Qed.

(** ** The bounds of an Authz execution *)
Lemma exec_loop_length nested total index l result r : exec_loop nested total index l result = Ok r ->
  (length result <= 15)%nat -> (length r.1 <= 15)%nat.
Proof.
  revert index result. induction l as [|raw l IH]; intros index result; cbn [exec_loop]; [by intros [= <-]|].
  intros E Hl. apply bind_Ok in E as (m & _ & E). cbn zeta in E.
  destruct (Nat.ltb_spec (MAX_MESSAGE_DISPLAY_FIELDS - 1) (length result + length (executed_fields index m))) as [|Hle].
  - by injection E as <-.
  - apply IH in E; [done|]. rewrite length_app. unfold MAX_MESSAGE_DISPLAY_FIELDS in Hle. lia.
Qed.
Lemma length_shown_text label value : (length (shown_text label value) <= 1)%nat.
Proof. unfold shown_text. destruct (nonempty value); cbn; lia. Qed.
Lemma authz_exec_length nested fs shown : authz_exec nested fs = Ok shown -> (length shown <= MAX_MESSAGE_DISPLAY_FIELDS)%nat.
Proof.
  unfold authz_exec, MAX_MESSAGE_DISPLAY_FIELDS.
  pose proof (length_shown_text "Grantee" (text_of (one fs 1))) as Hg. destruct nested as [decode|].
  - intros E. apply bind_Ok in E as (r & Hr & E). apply exec_loop_length in Hr; [|rewrite length_app; cbn; lia].
    injection E as <-. destruct (_ && _); [|lia]. rewrite length_app. cbn. lia.
  - intros [= <-]. rewrite !length_app. destruct (chunks_of 2 fs); cbn; lia.
Qed.

(** Every message that decodes has a type URL that starts with a slash, an
    Authz execution shows at most 16 fields however deep it nests, and a
    message of an unknown type none; what is not decoded raises
    MalformedUpstreamResponse, or decimal's Overflow for a commission rate. *)
Theorem message_bounded raw :
  match decode_message MAX_AUTHZ_DEPTH raw with
  | Ok m => startswith "/" (m_type_url m) = true /\
            (m_type_url m = MSG_EXEC -> (length (m_fields m) <= MAX_MESSAGE_DISPLAY_FIELDS)%nat) /\
            (m_type_url m <> MSG_EXEC -> dict_get (m_type_url m) _CUSTOM_MESSAGES = None -> dict_get (m_type_url m) _MESSAGES = None -> m_fields m = [])
  | Raise e => is_detail_error e = true
  end.
Proof.
  pose proof (decode_message_fails MAX_AUTHZ_DEPTH raw) as Hf. revert Hf. generalize MAX_AUTHZ_DEPTH. intros room Hf.
  destruct (decode_message room raw) as [m|e] eqn:E; [clear Hf|exact Hf].
  destruct room; cbn [decode_message] in E; apply bind_Ok in E as (any & _ & E);
    (destruct (nonempty _) as [type_url|]; [|done]; destruct (one any 2) as [value|]; [|done]);
    apply bind_Ok in E as ([] & Hs%require_Ok & E); apply bind_Ok in E as (fs & _ & E);
    (destruct (String.eqb_spec type_url MSG_EXEC) as [->|Hne];
      [apply bind_Ok in E as (shown & Hx%authz_exec_length & E); injection E as <-; by split_and!|]);
    (destruct (dict_get type_url _CUSTOM_MESSAGES) as [[action decoder]|] eqn:Ec;
      [apply bind_Ok in E as (shown & _ & E); injection E as <-; cbn [m_type_url m_fields]; split_and!; [done|done|congruence]|]);
    (destruct (dict_get type_url _MESSAGES) as [[action definitions]|] eqn:Em;
      [apply bind_Ok in E as (shown & _ & E); injection E as <-; cbn [m_type_url m_fields]; split_and!; [done|done|congruence]|]);
    injection E as <-; by split_and!.
Qed.

(** ** Bounded texts *)
Lemma groups_ok_snoc l g : groups_ok l -> char_group g = true -> lead_group g = true -> groups_ok (l ++ [g]).
Proof.
  intros [H1 H2] Hc Hl. split; [apply Forall_app; split; [done|by constructor]|].
  destruct l as [|x l]; [constructor|]. cbn. apply Forall_app. split; [done|by constructor].
Qed.
Lemma outcome_text_bound v maximum s : 1 <= maximum -> outcome_text v maximum = Some s -> py_len s <= maximum.
Proof.
  intros Hm. unfold outcome_text. destruct v as [| | | |t| |]; try done.
  destruct (String.eqb _ ""); [done|]. destruct (Z.leb_spec (py_len (py_strip t)) maximum) as [|_]; [by intros [= <-]|]. intros [= <-].
  unfold py_rstrip. set (l := reverse _). assert (l `sublist_of` take (Z.to_nat (maximum - 1)) (chars (py_strip t))) as Hs.
  { subst l. rewrite <- (reverse_involutive (take _ _)). apply reverse_sublist. unfold py_take. rewrite chars_take. apply drop_while_sublist. }
  assert (groups_ok (l ++ ["…"%string])) as Hg.
  { apply groups_ok_snoc; [|done|done]. eapply groups_ok_sublist; [exact Hs|]. eapply groups_ok_sublist; [apply sublist_take|]. apply groups_ok_chars. }
  change "…"%string with (str_concat ["…"%string]). rewrite <- str_concat_app. unfold py_len. rewrite chars_concat by done.
  apply sublist_length in Hs. rewrite length_take in Hs. rewrite length_app. cbn. lia.
Qed.
Lemma text_of_bound b s : text_of b = Some s -> py_len s <= 1024 /\ py_isprintable s = true.
Proof.
  unfold text_of. destruct b as [b|]; [|done]. cbn. destruct (utf8_decode b) as [t|]; [|done]. cbn.
  destruct (_ && _) eqn:E1; [|done]. intros [= <-]. apply andb_true_iff in E1 as [Hl Hp]. split; [lia|done].
Qed.
Lemma nonempty_Some o s : nonempty o = Some s -> o = Some s /\ s <> ""%string.
Proof. unfold nonempty. destruct o as [t|]; [|done]. cbn. destruct (String.eqb_spec t ""); [done|]. by intros [= <-]. Qed.

Lemma nth_VStr l i s : nth i l VNone = VStr s -> l !! i = Some (VStr s).
Proof. revert i. induction l as [|v l IH]; intros [|i]; try done; cbn; [by intros ->|apply IH]. Qed.

(** ** The detail *)
Fixpoint at_path (v : val) (path : list string) : val :=
  match path with [] => v | k :: path => match v with VDict d => at_path (dget d k) path | _ => VNone end end.
Record detail_ok (block_payload : val) (chain_id : string) (requested_height tx_index : Z) (d : transaction_detail) : Prop := {
  dk_chain : at_path block_payload ["result"; "block"; "header"; "chain_id"] = VStr chain_id;
  dk_height : td_height d = requested_height /\ 1 <= requested_height <= MAX_INT64;
  dk_index : td_index d = tx_index /\ 0 <= tx_index;
  dk_hash : exists txs encoded raw, at_path block_payload ["result"; "block"; "data"; "txs"] = VList txs /\
    txs !! Z.to_nat tx_index = Some (VStr encoded) /\ b64decode encoded = Ok raw /\ td_tx_hash d = hex_upper (sha256 raw);
  dk_time : is_time (td_timestamp d);
  dk_success : td_success d = (td_code d =? 0);
  dk_no_error : td_success d = true -> td_codespace d = None /\ td_error_log d = None;
  dk_codespace : forall s, td_codespace d = Some s -> py_len s <= 128;
  dk_error_log : forall s, td_error_log d = Some s -> py_len s <= 4096;
  dk_memo : forall s, td_memo d = Some s -> py_len s <= 1024 /\ s <> ""%string;
  dk_count : td_message_count d = Z.of_nat (length (td_messages d))
}.
(** What a document that is refused raises. *)
Definition is_refusal (e : exc) : bool :=
  is_rejection e || is_overflow e || isinstance_ValueError e || isinstance_TypeError e ||
  match e with OverflowError | IndexError _ => true | _ => false end.
#[local] Abbreviation refuses m := (raises is_refusal m).
Lemma refuses_malformed {A} (m : res A) : raises is_malformed m -> refuses m.
Proof. apply raises_impl. by intros []. Qed.
Lemma refuses_detail {A} (m : res A) : raises is_detail_error m -> refuses m.
Proof. apply raises_impl. by intros []. Qed.
Lemma refuses_value_error {A} (m : res A) : raises isinstance_ValueError m -> refuses m.
Proof. apply raises_impl. by intros []. Qed.
Lemma py_int_refuses v : refuses (py_int v).
Proof. destruct v as [| | |[]| | |]; try done. apply refuses_value_error, py_int_str_raises. Qed.
Lemma gas_refuses outcome name : refuses (gas outcome name).
Proof.
  unfold gas. destruct (dget outcome name); try done.
  - apply raises_bind; [apply refuses_value_error, py_str_int_raises|]. intros s _. by destruct (py_isdigit s).
  - destruct (py_isdigit _); [|done]. apply raises_fmap, refuses_value_error, py_int_str_raises.
Qed.
Lemma fee_of_refuses auth : refuses (fee_of auth).
Proof.
  apply refuses_detail. unfold fee_of. destruct (one auth 2); [|done]. apply raises_bind; [apply fields_fail|]. intros fs _.
  apply raises_bind; [|done]. apply raises_mapM. intros; apply coin_of_fails.
Qed.
Lemma list_or_empty_refuses v msg : refuses (list_or_empty v msg).
Proof. unfold list_or_empty. by destruct (por v _). Qed.
Lemma list_or_empty_Ok v msg l : list_or_empty v msg = Ok l -> v = VList l \/ l = [].
Proof.
  unfold list_or_empty, por. destruct (truthy v) eqn:Et; [|intros [= <-]; by right]. destruct v; try done. intros [= <-]. by left.
Qed.
#[local] Hint Resolve py_int_refuses gas_refuses fee_of_refuses list_or_empty_refuses : raises.

Lemma normalize_refuses block_payload results_payload chain_id requested index :
  refuses (normalize_transaction_detail block_payload results_payload chain_id requested index).
Proof.
  unfold normalize_transaction_detail.
  assert (forall v, refuses (mapping v)) as Hm by (intros; apply refuses_malformed, mapping_raises).
  assert (forall v, refuses (height v)) as Hh by (intros; apply refuses_malformed, height_raises).
  assert (forall d, refuses (fields d)) as Hf by (intros; apply refuses_malformed, fields_raises).
  repeat (apply raises_bind; [first [done | by apply raises_require | solve [eauto 2 with raises]
    | eapply raises_impl; [|apply identity_raises]; by intros []
    | destruct (nth _ _ _); try done; by destruct (b64decode _)]|intros ? _]).
  destruct (one _ 1); [|done]. destruct (one _ 2); [|done].
  apply raises_bind; [done|]. intros body _. apply raises_bind; [apply raises_mapM; intros; apply refuses_detail, decode_message_fails|]. intros ms _.
  repeat (apply raises_bind; [first [done | solve [eauto 2 with raises] | apply refuses_malformed, timestamp_raises]|intros ? _]).
  done.
Qed.

(** C21. The detail is of the configured chain, the requested height and index; its
    hash is the SHA-256 of the bytes at that index of the block; its error
    fields are present only for a failed transaction and are bounded.  A
    document that is refused raises one of the errors the failover catches, and
    IndexError only for an index outside the block. *)
Theorem transaction_detail_sound block_payload results_payload chain_id requested index :
  match normalize_transaction_detail block_payload results_payload chain_id requested index with
  | Ok d => detail_ok block_payload chain_id requested index d
  | Raise e => is_refusal e = true
  end.
Proof.
  pose proof (normalize_refuses block_payload results_payload chain_id requested index) as Hr.
  destruct (normalize_transaction_detail _ _ _ _ _) as [d|e] eqn:E1; [clear Hr|exact Hr]. unfold normalize_transaction_detail in E1.
  apply bind_Ok in E1 as (root & ->%mapping_Ok & E1). apply bind_Ok in E1 as (result & Hresult%mapping_Ok & E1).
  apply bind_Ok in E1 as (block & Hblock%mapping_Ok & E1). apply bind_Ok in E1 as (header & Hheader%mapping_Ok & E1).
  apply bind_Ok in E1 as (c & Hc & E1). apply bind_Ok in E1 as (h & Hh%height_Ok & E1). apply bind_Ok in E1 as ([] & Heq%require_Ok & E1).
  apply bind_Ok in E1 as (data & Hdata%mapping_Ok & E1). apply bind_Ok in E1 as (txs & Htxs%list_or_empty_Ok & E1).
  apply bind_Ok in E1 as ([] & Hi%require_Ok & E1). apply bind_Ok in E1 as (raw & Hraw & E1).
  apply bind_Ok in E1 as (rroot & _ & E1). apply bind_Ok in E1 as (results & _ & E1). apply bind_Ok in E1 as (rh & _ & E1).
  apply bind_Ok in E1 as (? & _ & E1). apply bind_Ok in E1 as (tx_results & _ & E1). apply bind_Ok in E1 as (? & _ & E1).
  apply bind_Ok in E1 as (outcome & _ & E1). apply bind_Ok in E1 as (code & _ & E1). apply bind_Ok in E1 as (raw_fields & _ & E1).
  destruct (one raw_fields 1) as [body_raw|]; [|done]. destruct (one raw_fields 2) as [auth_raw|]; [|done].
  apply bind_Ok in E1 as (body & _ & E1). apply bind_Ok in E1 as (messages & _ & E1). apply bind_Ok in E1 as (auth & _ & E1).
  apply bind_Ok in E1 as (fee & _ & E1). apply bind_Ok in E1 as (time & Ht%timestamp_Ok & E1).
  apply bind_Ok in E1 as (gw & _ & E1). apply bind_Ok in E1 as (gu & _ & E1). injection E1 as <-.
  apply Z.eqb_eq in Heq as ->. apply andb_true_iff in Hi as [Hi0 Hi1].
  split; cbn [td_height td_index td_tx_hash td_timestamp td_success td_code td_codespace td_error_log td_memo td_message_count td_messages].
  - cbn [at_path]. rewrite Hresult, Hblock, Hheader. unfold identity in Hc. apply bind_Ok in Hc as (cid & [Hcid _]%bounded_text_Ok & Hc).
    rewrite Hcid. f_equal. destruct (String.eqb_spec cid chain_id); [done|discriminate Hc].
  - done.
  - split; [done|lia].
  - exists txs. destruct (nth (Z.to_nat index) txs VNone) as [| | | |encoded| |] eqn:En; try done.
    destruct (b64decode encoded) as [raw'|] eqn:Eb; [|done]. injection Hraw as ->. exists encoded, raw. split_and!; [|by apply nth_VStr|done|done].
    cbn [at_path]. rewrite Hresult, Hblock. unfold get_default, dget in *. destruct (dict_get "data" block) as [v|]; cbn in Hdata.
    + subst v. destruct Htxs as [->| ->]; [done|]. apply Z.leb_le in Hi0. apply Z.ltb_lt in Hi1. cbn in Hi1. lia.
    + injection Hdata as <-. destruct Htxs as [Hn| ->]; [done|]. apply Z.leb_le in Hi0. apply Z.ltb_lt in Hi1. cbn in Hi1. lia.
  - done.
  - done.
  - by intros ->.
  - intros s. destruct (code =? 0); [done|]. apply outcome_text_bound. lia.
  - intros s. destruct (code =? 0); [done|]. apply outcome_text_bound. lia.
  - intros s [Hs Hn]%nonempty_Some. split; [|done]. by apply text_of_bound in Hs as [? _].
  - done.
Qed.
End detail_proofs.

(** ** Examples *)
Section detail_examples.
#[local] Existing Instance ascii_runtime.
Definition chunk (n : Z) (s : string) : field := Field n (Chunk (list_of_string s)).
Definition nested_chunk (n : Z) (l : list field) : field := Field n (Chunk (encode l)).
Definition any_message (type_url : string) (l : list field) : bytes := encode [chunk 1 type_url; nested_chunk 2 l].

Example send_decoded :
  decode_message 3 (any_message "/cosmos.bank.v1beta1.MsgSend"
    [chunk 1 "cosmos1a"; chunk 2 "cosmos1b"; nested_chunk 3 [chunk 1 "uatom"; chunk 2 "25"]]) =
  Ok (Message "/cosmos.bank.v1beta1.MsgSend" "Send"
        [Show "From" (Text "cosmos1a"); Show "To" (Text "cosmos1b"); Show "Amount" (Coins [Coin "uatom" "25"])]).
Proof. vm_compute. reflexivity. Qed.
Definition exec_of (l : list bytes) : bytes :=
  any_message MSG_EXEC (chunk 1 "cosmos1g" :: map (fun b => Field 2 (Chunk b)) l).
Example nesting_limited :
  m_fields <$> decode_message 3 (exec_of [exec_of [exec_of [exec_of []; exec_of []]]]) =
  Ok [Show "Grantee" (Text "cosmos1g"); Show "Executed messages" (Text "1"); Show "#0 action" (Text "Authz execution");
      Show "#0 Grantee" (Text "cosmos1g"); Show "#0 Executed messages" (Text "1"); Show "#0 #0 action" (Text "Authz execution");
      Show "#0 #0 Grantee" (Text "cosmos1g"); Show "#0 #0 Executed messages" (Text "2"); Show "#0 #0 #0 action" (Text "Authz execution");
      Show "#0 #0 #0 Grantee" (Text "cosmos1g"); Show "#0 #0 #0 Executed messages" (Text "0");
      Show "#0 #0 #1 action" (Text "Authz execution"); Show "#0 #0 #1 Grantee" (Text "cosmos1g");
      Show "#0 #0 #1 Executed messages" (Text "0")].
Proof. vm_compute. reflexivity. Qed.
Example percents : map (fun s => percent (Some s)) ["0.050000000000000000"; "1"; "0.1234567"; "0.00000000500000001"; "-0"; "1E5"; "nan"; "1_0"; "abc"] =
  map Ok [Some "5.00%"; Some "100.00%"; Some "12.34567%"; Some "0.000001%"; Some "-0.00%"; Some "10000000.00%"; None; Some "1000.00%"; None].
Proof. vm_compute. reflexivity. Qed.
(** A commission rate in the text of a transaction that [_percent] does not catch *)
Example percent_overflow : percent (Some "9E999999") = Raise DecimalOverflow.
Proof. vm_compute. reflexivity. Qed.
Example overflow_refused : decode_message 3 (any_message "/cosmos.staking.v1beta1.MsgEditValidator" [chunk 3 "9E999999"]) = Raise DecimalOverflow.
Proof. vm_compute. reflexivity. Qed.
End detail_examples.
