(* ===== verification/TransactionHistory.v ===== *)
(** * api/cosmos/transaction_endpoint_policy.py: transaction search and history

    The per-operation health of endpoints, the bounded search windows, the
    list route, the cursor walk through the history, the exact lookup and the
    validator event search.  [_newer_history_cursor] and the flag of a
    historical page are the overrides of api/cosmos/service.py; the response
    models are checked as api/cosmos/schemas.py declares them. *)
From Stdlib Require Import ZArith NArith Lia Ascii String SpecFloat.
From stdpp Require Import base gmap sets list strings sorting.
From S2P Require Import Prelude Query PyStr PyVal Codec Json Scan RequestCache Digits Rfc3339 CosmosParsing IpAddress Url CosmosConfig CosmosCache HistoryCursor CosmosAdapter.
Open Scope Z_scope.

Definition _TX_SUSPECT_SECONDS : val := VFloat (f_of_Z 60).
Definition _TX_RECENT_BLOCK_WINDOW : Z := 2000.
Definition _TX_HISTORY_EMPTY_HOPS : nat := 8.
Definition _TX_HISTORY_WINDOW_TTL : val := VFloat (f_of_Z 300).
Definition _TX_HISTORY_LIVE_TTL : val := VFloat (f_of_Z 15).
Definition _TX_HISTORY_CURSOR_TTL : val := VFloat (f_of_Z 60).
Definition SECTION_TTL : val := VFloat (f_of_Z 5).

(** ** str() of a document *)
Section texts.
Context `{PyRuntime}.

Definition hex_pad (width : nat) (z : Z) : string :=
  string_of_list (map (fun i => hex_digit (z / 16 ^ Z.of_nat i mod 16)) (reverse (seq 0 width))).
(** One character of [repr(s)] between quotes [q] *)
Definition repr_char (q : ascii) (g : string) : string :=
  let c := code_point g in
  if String.eqb g (String q "") || (c =? 92) then backslash +:+ g
  else if c =? 9 then backslash +:+ "t" else if c =? 10 then backslash +:+ "n" else if c =? 13 then backslash +:+ "r"
  else if (c <? 32) || (c =? 127) then backslash +:+ "x" +:+ hex_pad 2 c
  else if (c <? 127) || is_printable_cp c then g
  else if c <=? 255 then backslash +:+ "x" +:+ hex_pad 2 c
  else if c <=? 65535 then backslash +:+ "u" +:+ hex_pad 4 c
  else backslash +:+ "U" +:+ hex_pad 8 c.
Definition repr_str (s : string) : string :=
  let q := if py_contains "'" s && negb (py_contains dquote s) then Z_byte 34 else "'"%char in
  String q "" +:+ str_concat (map (repr_char q) (chars s)) +:+ String q "".
Fixpoint py_repr (v : val) : res string :=
  match v with
  | VNone => Ok "None"
  | VBool b => Ok (if b then "True" else "False")
  | VInt z => py_str_int z
  | VFloat f => Ok match f with S754_nan => "nan" | S754_infinity n => if n then "-inf" else "inf" | _ => rt_float_repr f end
  | VStr s => Ok (repr_str s)
  | VList l => items ← mapM_res py_repr l; Ok ("[" +:+ py_join ", " items +:+ "]")
  | VDict d =>
      items ← (fix go l := match l with
                           | [] => Ok []
                           | (k, x) :: l => t ← py_repr x; rest ← go l; Ok ((repr_str k +:+ ": " +:+ t) :: rest)
                           end) d;
      Ok ("{" +:+ py_join ", " items +:+ "}")
  end.
(** [str(v)] *)
Definition py_str (v : val) : res string := match v with VStr s => Ok s | _ => py_repr v end.

(** [_error_text] *)
Definition error_text (payload : val) : res string :=
  match payload with
  | VDict d => items ← mapM_res (fun key => py_str (get_default d key (VStr ""))) ["message"; "details"; "error"]; Ok (py_join " " items)
  | _ => Ok ""
  end.
(** [_index_unavailable] *)
Definition index_unavailable (payload : val) : res bool :=
  text ← error_text payload;
  let text := py_lower text in
  Ok ((py_contains "tx" text || py_contains "transaction" text) && (py_contains "index" text || py_contains "search" text) &&
      existsb (fun marker => py_contains marker text) ["disabled"; "unavailable"; "not enabled"; "not configured"; "no indexer"]).

(** [_QUERY_FIELD_UNSUPPORTED.search] *)
Definition matches {A} (o : option A) : bool := match o with Some _ => true | None => false end.
Definition quoted_query (l : list string) : bool :=
  let l := spaces l in
  matches (ci "query" l) ||
  match l with g :: l => in_strs g ["`"; "'"; dquote] && matches (ci "query" l) | [] => false end.
Definition named_query (l : list string) : bool :=
  quoted_query l || existsb (fun w => match ci w l with Some (_, l) => quoted_query l | None => false end) ["parameter"; "field"].
Definition unsupported_at (l : list string) : bool :=
  existsb (fun w =>
    match ci w l with
    | Some (_, l) =>
        match spaces1 l with
        | Some l => named_query l ||
            match ci "query" l with Some (_, l) => match spaces1 l with Some l => named_query l | None => false end | None => false end
        | None => false
        end
    | None => false
    end) ["unknown"; "unsupported"; "unrecognized"; "cannot find"; "no such"].
Fixpoint query_field_unsupported (l : list string) : bool :=
  unsupported_at l || match l with [] => false | _ :: l => query_field_unsupported l end.

(** [urllib.parse.quote(s, safe="")] *)
Definition quote (s : string) : string :=
  str_concat (map (fun a => if alnum a || in_strs (String a "") ["_"; "."; "-"; "~"] then String a ""
                            else "%" +:+ string_of_list [ascii_upper (hex_digit (byte_Z a / 16)); ascii_upper (hex_digit (byte_Z a mod 16))])
                  (list_of_string s)).

(** [_event_payload_valid] *)
Definition event_payload_valid (payload : val) (limit : Z) : bool :=
  match payload with
  | VDict d =>
      match dget d "txs", dget d "tx_responses" with
      | VList txs, VList responses =>
          (length txs =? length responses)%nat && (Z.of_nat (length txs) <=? limit) &&
          match dget d "pagination" with VNone | VDict _ => true | _ => false end
      | _, _ => false
      end
  | _ => false
  end.
End texts.

(** ** The response models *)
Definition row_valid (r : transaction_row) : bool :=
  is_hash_hex (tr_tx_hash r) && (0 <? tr_height r) &&
  (20 <=? py_len (tr_timestamp r)) && (py_len (tr_timestamp r) <=? 64) && (0 <=? tr_code r) && (0 <=? tr_gas_wanted r) && (0 <=? tr_gas_used r) &&
  match tr_fee_amount r with
  | VNone => true
  | VStr s => negb (String.eqb s "") && str_forallb (fun a => matches (ascii_digit a)) s
  | _ => false
  end &&
  match tr_fee_denom r with VNone => true | VStr s => py_len s <=? 128 | _ => false end &&
  match tr_memo r with None => true | Some s => py_len s <=? 1024 end &&
  (0 <=? tr_message_count r) && (tr_message_count r <=? 100) &&
  match tr_primary_message_type r with None => true | Some s => py_len s <=? 256 end &&
  (1 <=? py_len (tr_primary_action r)) && (py_len (tr_primary_action r) <=? 256) &&
  match tr_sender r with None => true | Some s => py_len s <=? 128 end.
Definition optional_le {A} (size : A -> Z) (maximum : Z) (o : option A) : bool := match o with None => true | Some a => size a <=? maximum end.
Definition rows_valid (rows : list transaction_row) : bool := (length rows <=? 20)%nat && forallb row_valid rows.
(** [CosmosTransactionHistoryResponse] *)
Definition history_valid (r : history_response) : bool :=
  rows_valid (hr_transactions r) && (0 <? hr_anchor_height r) && (0 <? hr_window_from r) && (0 <? hr_window_to r) &&
  (1 <=? hr_window_page r) && (hr_window_page r <=? _TX_HISTORY_MAX_WINDOW_PAGE) &&
  match hr_total_in_window r with None => true | Some t => 0 <=? t end &&
  optional_le py_len 80 (hr_older_cursor r) && optional_le py_len 80 (hr_newer_cursor r) && optional_le py_len 253 (hr_source_host r).
(** [CosmosTransactionsResponse] *)
Record transactions_response := {
  ts_available : bool; ts_transactions : list transaction_row; ts_page : Z; ts_page_size : Z; ts_total : option Z;
  ts_has_older : bool; ts_has_newer : bool; ts_source_host : option string
}.
Definition transactions_valid (r : transactions_response) : bool :=
  rows_valid (ts_transactions r) && (1 <=? ts_page r) && (ts_page r <=? 100) && (1 <=? ts_page_size r) && (ts_page_size r <=? 20) &&
  match ts_total r with None => true | Some t => 0 <=? t end && optional_le py_len 253 (ts_source_host r).
Record transaction_location := { tl_height : Z; tl_index : Z; tl_tx_hash : string }.

Section history.
Context `{PyRuntime} `{NetlocCheck} `{JsonStack} {E : Type} `{CosmosEnvironment E}.
Context (config : CosmosNetworkConfig) (ticks : val -> Z) (max_entries : nat).
#[local] Abbreviation world := (CosmosWorld E).
#[local] Abbreviation query := (query (W:=world)).
#[local] Abbreviation section s := (section config s).
#[local] Notation "'let*' p := m 'in' k" := (and_then m (fun p => k))
  (at level 10, p strict pattern, m at level 200, k at level 200).

(** ** The health of endpoints, by operation *)
Definition set_suspects (l : list ((string * string) * Z)) (w : world) : world := CWorld (cw_cache w) l (cw_search_mode w) (cw_env w).
Definition set_modes (l : list (string * string)) (w : world) : world := CWorld (cw_cache w) (cw_suspect_until w) l (cw_env w).
Definition update (f : world -> world) : query unit := fun w => (Ok tt, f w).
Definition is_suspect (operation : string) (l : list ((string * string) * Z)) (c : candidate) : bool :=
  matches (od_get (operation, cd_endpoint c) l).

(** [_operation_candidates]: expired suspicions are dropped, suspects go last. *)
Definition suspects_last (operation : string) (suspects : list ((string * string) * Z)) (l : list candidate) : list candidate :=
  List.filter (fun c => negb (is_suspect operation suspects c)) l ++ List.filter (is_suspect operation suspects) l.
Definition operation_candidates (kind operation : string) : query (list candidate) :=
  let* l := cached_candidates config ticks max_entries kind in
  let* now := clock in
  let* _ := update (fun w => set_suspects (filter (fun i => now < i.2) (cw_suspect_until w)) w) in
  fun w => (Ok (suspects_last operation (cw_suspect_until w) l), w).
Definition mark_operation_suspect (operation endpoint : string) : query unit :=
  let* now := clock in
  update (fun w => set_suspects (od_set (operation, endpoint) (now + ticks _TX_SUSPECT_SECONDS) (cw_suspect_until w)) w).
Definition clear_operation_suspect (operation endpoint : string) : query unit :=
  update (fun w => set_suspects (od_pop (operation, endpoint) (cw_suspect_until w)) w).
Fixpoint mark_all (operation : string) (endpoints : list string) : query unit :=
  match endpoints with [] => pure (Ok tt) | e :: l => let* _ := mark_operation_suspect operation e in mark_all operation l end.

(** ** Searching *)
Definition search_path (parameter expression : string) (page limit : Z) : string :=
  "/cosmos/tx/v1beta1/txs?" +:+ parameter +:+ "=" +:+ quote expression +:+ "&order_by=ORDER_BY_DESC&page=" +:+ str_of_Z page +:+ "&limit=" +:+ str_of_Z limit.
Definition tx_search_payload (c : candidate) (expression : string) (page limit : Z) : query (val * string) :=
  let legacy := let* payload := get config (cd_endpoint c) (search_path "events" expression page limit) true in pure (Ok (payload, "legacy")) in
  fun w =>
    if bool_decide (od_get (cd_endpoint c) (cw_search_mode w) = Some "legacy") then legacy w
    else
      (let* payload := get config (cd_endpoint c) (search_path "query" expression page limit) true in
       let* text := pure (error_text payload) in
       if negb (query_field_unsupported (chars text)) then pure (Ok (payload, "modern"))
       else
         let* _ := update (fun w => set_modes (od_set (cd_endpoint c) "legacy" (cw_search_mode w)) w) in
         legacy) w.
(** The payload of one endpoint, or nothing when the search raised. *)
Definition attempt_search (c : candidate) (expression : string) (page limit : Z) : query (option val) :=
  catch (let* found := tx_search_payload c expression page limit in pure (Ok (Some found.1))) caught (fun _ => pure (Ok None)).

Definition recent_transaction_expression : query string :=
  let* status := node_status config ticks max_entries in
  let h := ns_local_height status in
  let* _ := pure (raise_if (h <=? 0) (AllEndpointsUnavailable "current chain height unavailable")) in
  pure (Ok ("tx.height>=" +:+ str_of_Z (Z.max 1 (h - _TX_RECENT_BLOCK_WINDOW + 1)))).

(** *** [_transaction_window] *)
Fixpoint window_loop (lower upper page limit : Z) (l : list candidate) (first_empty : option window_response)
    (empty_endpoints : list string) (indexing_unavailable : bool) : query window_response :=
  match l with
  | [] =>
      match first_empty with
      | Some response => pure (Ok response)
      | None => if indexing_unavailable then pure (Ok (Window false [] None None))
                else pure (Raise (AllEndpointsUnavailable "transaction history search unavailable"))
      end
  | c :: l =>
      let expression := "tx.height>=" +:+ str_of_Z lower +:+ " AND tx.height<=" +:+ str_of_Z upper in
      let* found := attempt_search c expression page limit in
      match found with
      | None => window_loop lower upper page limit l first_empty empty_endpoints indexing_unavailable
      | Some payload =>
          match normalize_transactions payload limit with
          | Raise (MalformedUpstreamResponse _) =>
              let* unavailable := pure (index_unavailable payload) in
              if (unavailable : bool) then
                let* _ := mark_operation_suspect "tx_search" (cd_endpoint c) in
                window_loop lower upper page limit l first_empty empty_endpoints true
              else window_loop lower upper page limit l first_empty empty_endpoints indexing_unavailable
          | Raise e => pure (Raise e)
          | Ok (rows, total) =>
              let* source_host := pure (host (cd_endpoint c)) in
              let response := Window true rows total (Some source_host) in
              match rows with
              | _ :: _ =>
                  let* _ := mark_all "tx_search" empty_endpoints in
                  let* _ := clear_operation_suspect "tx_search" (cd_endpoint c) in
                  pure (Ok response)
              | [] =>
                  window_loop lower upper page limit l (match first_empty with Some _ => first_empty | None => Some response end)
                    (empty_endpoints ++ [cd_endpoint c]) indexing_unavailable
              end
          end
      end
  end.
Definition load_window (lower upper page limit : Z) : query window_response :=
  let* l := operation_candidates "rest" "tx_search" in window_loop lower upper page limit l None [] false.
Definition transaction_window (lower upper page limit : Z) : query window_response :=
  let* _ := pure (raise_if ((lower <=? 0) || (upper <? lower) || (_TX_HISTORY_WINDOW <? upper - lower + 1) ||
                            negb ((1 <=? page) && (page <=? _TX_HISTORY_MAX_WINDOW_PAGE)) || negb ((1 <=? limit) && (limit <=? 20)))
                    (ValueError "invalid transaction history window")) in
  get_or_load max_entries CWindow (fun v => match v with CWindow r => Some r | _ => None end)
    (section (KWindow lower upper page limit)) (ticks _TX_HISTORY_WINDOW_TTL) (load_window lower upper page limit).

(** *** [transactions] *)

(** [normalized]: the validated response, or nothing. *)
Definition normalized (limit page : Z) (endpoint : string) (payload : val) : res (option transactions_response) :=
  let candidate :=
    found ← normalize_transactions payload limit;
    source_host ← host endpoint;
    let r := {| ts_available := true; ts_transactions := found.1; ts_page := page; ts_page_size := limit; ts_total := found.2;
                ts_has_older := (page <? 100) && match found.2 with Some t => page * limit <? t | None => false end;
                ts_has_newer := 1 <? page; ts_source_host := Some source_host |} in
    _ ← require (transactions_valid r) ValidationError;
    Ok r in
  match candidate with
  | Ok r => Ok (Some r)
  | Raise (MalformedUpstreamResponse _) | Raise ValidationError => Ok None
  | Raise e => Raise e
  end.
Fixpoint transactions_loop (expression : string) (limit page : Z) (l : list candidate) (first_empty : option transactions_response)
    (empty_endpoints : list string) (indexing_unavailable : bool) : query transactions_response :=
  match l with
  | [] =>
      match first_empty with
      | Some response => pure (Ok response)
      | None => if indexing_unavailable
                then pure (Ok {| ts_available := false; ts_transactions := []; ts_page := page; ts_page_size := limit; ts_total := None;
                                 ts_has_older := false; ts_has_newer := 1 <? page; ts_source_host := None |})
                else pure (Raise (AllEndpointsUnavailable "no valid transaction search response"))
      end
  | c :: l =>
      let* found := attempt_search c expression page limit in
      match found with
      | None => transactions_loop expression limit page l first_empty empty_endpoints indexing_unavailable
      | Some payload =>
          let* response := pure (normalized limit page (cd_endpoint c) payload) in
          match response with
          | Some r =>
              match ts_transactions r with
              | _ :: _ =>
                  let* _ := mark_all "tx_search" empty_endpoints in
                  let* _ := clear_operation_suspect "tx_search" (cd_endpoint c) in
                  pure (Ok r)
              | [] => transactions_loop expression limit page l (match first_empty with Some _ => first_empty | None => Some r end)
                        (empty_endpoints ++ [cd_endpoint c]) indexing_unavailable
              end
          | None =>
              let* unavailable := pure (index_unavailable payload) in
              if (unavailable : bool) then
                let* _ := mark_operation_suspect "tx_search" (cd_endpoint c) in
                transactions_loop expression limit page l first_empty empty_endpoints true
              else transactions_loop expression limit page l first_empty empty_endpoints indexing_unavailable
          end
      end
  end.
Definition transactions (limit page : Z) : query transactions_response :=
  let* _ := pure (raise_if (negb ((1 <=? limit) && (limit <=? 20)) || negb ((1 <=? page) && (page <=? 100))) (ValueError "invalid transaction page")) in
  let* expression := recent_transaction_expression in
  let* l := operation_candidates "rest" "tx_search" in
  transactions_loop expression limit page l None [] false.

(** ** The walk through the history *)

(** Where the walk through empty windows ends: the bounds and page of the last
    window searched, its answer, and the cursor when the hops are used up. *)
Record reached := Reached {
  rc_lower : Z; rc_upper : Z; rc_page : Z; rc_response : window_response; rc_batched : option string
}.
Fixpoint walk (hops : nat) (anchor upper page limit : Z) : query (option reached) :=
  match hops with
  | O => pure (Ok None)                                       (* no window was searched *)
  | S hops =>
      let lower := window_lower upper in
      let* response := transaction_window lower upper page limit in
      let here := Reached lower upper page response None in
      match wr_available response, wr_transactions response with
      | false, _ | true, _ :: _ => pure (Ok (Some here))
      | true, [] =>
          if lower =? 1 then pure (Ok (Some here))
          else
            let next_upper := lower - 1 in
            match hops with
            | O => let* cursor := pure (encode_history_cursor anchor next_upper 1) in
                   pure (Ok (Some (Reached lower upper page response (Some cursor))))
            | _ => walk hops anchor next_upper 1 limit
            end
      end
  end.
Definition older_history_cursor (limit anchor : Z) (r : reached) : res (option string) :=
  let below := if 1 <? rc_lower r then Some <$> encode_history_cursor anchor (rc_lower r - 1) 1 else Ok None in
  match wr_transactions (rc_response r) with
  | (_ :: _) as rows =>
      let more_in_window := match wr_total (rc_response r) with Some total => rc_page r * limit <? total | None => Z.of_nat (length rows) =? limit end in
      if more_in_window && (rc_page r <? _TX_HISTORY_MAX_WINDOW_PAGE) then Some <$> encode_history_cursor anchor (rc_upper r) (rc_page r + 1)
      else below
  | [] => match rc_batched r with Some cursor => Ok (Some cursor) | None => below end
  end.
(** Where a request starts: the live height, or the position of the cursor. *)
Definition start_position (cursor : option string) : query (Z * Z * Z) :=
  match cursor with
  | None =>
      let* status := node_status config ticks max_entries in
      let h := ns_local_height status in
      let* _ := pure (raise_if (h <=? 0) (AllEndpointsUnavailable "current chain height unavailable")) in
      pure (Ok (h, h, 1))
  | Some cursor => pure (decode_history_cursor cursor)
  end.
Definition transaction_history_uncached (limit : Z) (cursor : option string) : query history_response :=
  let* start := start_position cursor in
  let anchor := start.1.1 in
  let* found := walk _TX_HISTORY_EMPTY_HOPS anchor start.1.2 start.2 limit in
  pure match found with
  | None => Raise (AllEndpointsUnavailable "transaction history search unavailable")
  | Some r =>
      let response := rc_response r in
      answer ← (if wr_available response then
          older_cursor ← older_history_cursor limit anchor r;
          newer_cursor ← (match cursor with None => Ok None | Some _ => newer_history_cursor anchor (rc_upper r) (rc_page r) end);
          Ok {| hr_available := true; hr_transactions := wr_transactions response; hr_anchor_height := anchor;
                hr_window_from := rc_lower r; hr_window_to := rc_upper r; hr_window_page := rc_page r; hr_total_in_window := wr_total response;
                hr_has_older := matches older_cursor; hr_has_newer := matches newer_cursor;
                hr_older_cursor := older_cursor; hr_newer_cursor := newer_cursor; hr_source_host := wr_source_host response |}
        else
          Ok {| hr_available := false; hr_transactions := []; hr_anchor_height := anchor;
                hr_window_from := rc_lower r; hr_window_to := rc_upper r; hr_window_page := rc_page r; hr_total_in_window := None;
                hr_has_older := false; hr_has_newer := false; hr_older_cursor := None; hr_newer_cursor := None; hr_source_host := None |});
      _ ← require (history_valid answer) ValidationError;
      (* service.py: a historical page always has a path toward the live view *)
      Ok (if matches cursor && hr_available answer then
            {| hr_available := true; hr_transactions := hr_transactions answer; hr_anchor_height := hr_anchor_height answer;
               hr_window_from := hr_window_from answer; hr_window_to := hr_window_to answer; hr_window_page := hr_window_page answer;
               hr_total_in_window := hr_total_in_window answer; hr_has_older := hr_has_older answer; hr_has_newer := true;
               hr_older_cursor := hr_older_cursor answer; hr_newer_cursor := hr_newer_cursor answer; hr_source_host := hr_source_host answer |}
          else answer)
  end.
Definition transaction_history (limit : Z) (cursor : option string) : query history_response :=
  let* _ := pure (require ((1 <=? limit) && (limit <=? 20)) (ValueError "invalid transaction history limit")) in
  let* _ := pure (match cursor with Some c => _ ← decode_history_cursor c; Ok tt | None => Ok tt end) in
  get_or_load max_entries CHistory (fun v => match v with CHistory r => Some r | _ => None end)
    (section (KHistory limit (default "live" cursor)))
    (ticks (match cursor with None => _TX_HISTORY_LIVE_TTL | Some _ => _TX_HISTORY_CURSOR_TTL end))
    (transaction_history_uncached limit cursor).

(** ** The exact lookup *)

(** [_mapping], [_text] and [_integer] of service_core.py *)
Definition sc_mapping (value : val) (name : string) : res (list (string * val)) :=
  match value with VDict d => if (256 <? length d)%nat then malformed ("invalid " +:+ name) else Ok d | _ => malformed ("invalid " +:+ name) end.
Definition sc_text (value : val) (name : string) (maximum : Z) : res string :=
  match value with
  | VStr s => if (1 <=? py_len s) && (py_len s <=? maximum) && String.eqb s (py_strip s) && py_isprintable s then Ok s else malformed ("invalid " +:+ name)
  | _ => malformed ("invalid " +:+ name)
  end.
Definition sc_integer (value : val) (name : string) : res Z :=
  result ← (match value with
            | VInt z => Ok z
            | VStr s => if is_ascii s && py_isdigit s && (py_len s <=? 20) then py_int_str s else malformed ("invalid " +:+ name)
            | _ => malformed ("invalid " +:+ name)
            end);
  if (result <? 0) || (MAX_INT64 <? Z.abs result) then malformed ("invalid " +:+ name) else Ok result.

(** What one endpoint answers: not found, another error, or the location. *)
Inductive lookup_answer : Type :=
| NotFound
| Refused (index_off : bool)
| Located (l : transaction_location).
Definition lookup_payload (normalized_hash : string) (payload : list (string * val)) : res lookup_answer :=
  match dget payload "error" with
  | VDict error =>
      text ← py_str (por (por (dget error "data") (dget error "message")) (VStr ""));
      if py_contains "not found" (py_lower text) then Ok NotFound
      else Refused <$> index_unavailable (VDict [("message", VStr text)])
  | _ =>
      result ← sc_mapping (dget payload "result") "transaction lookup result";
      hash ← sc_text (dget result "hash") "transaction hash" 64;
      let result_hash := py_upper hash in
      _ ← require (String.eqb result_hash normalized_hash && is_hash_hex result_hash) (MalformedUpstreamResponse "transaction hash mismatch");
      h ← sc_integer (dget result "height") "transaction height";
      index ← sc_integer (dget result "index") "transaction index";
      _ ← raise_if ((h <=? 0) || (10000 <? index)) (MalformedUpstreamResponse "invalid transaction location");
      Ok (Located {| tl_height := h; tl_index := index; tl_tx_hash := result_hash |})
  end.
(** The [try] block of one endpoint, with the suspicions it records. *)
Definition lookup_at (normalized_hash : string) (not_found : list string) (c : candidate) : query lookup_answer :=
  let* payload := get config (cd_endpoint c) ("/tx?hash=0x" +:+ normalized_hash +:+ "&prove=false") true in
  let* answer := pure (match payload with VDict d => lookup_payload normalized_hash d | _ => Raise AttributeError end) in
  match answer with
  | NotFound => pure (Ok NotFound)
  | Refused index_off =>
      let* _ := (if index_off then mark_operation_suspect "tx_lookup" (cd_endpoint c) else pure (Ok tt)) in pure (Ok (Refused index_off))
  | Located l =>
      let* _ := mark_all "tx_lookup" not_found in
      let* _ := clear_operation_suspect "tx_lookup" (cd_endpoint c) in
      pure (Ok (Located l))
  end.
Fixpoint lookup_loop (normalized_hash : string) (l : list candidate) (not_found : list string) : query transaction_location :=
  match l with
  | [] => match not_found with
          | [] => pure (Raise (AllEndpointsUnavailable "transaction lookup unavailable"))
          | _ => pure (Raise (TransactionNotFound "transaction not found"))
          end
  | c :: l =>
      let* answer := catch (lookup_at normalized_hash not_found c) caught (fun _ => pure (Ok (Refused false))) in
      match answer with
      | Located location => pure (Ok location)
      | NotFound => lookup_loop normalized_hash l (not_found ++ [cd_endpoint c])
      | Refused _ => lookup_loop normalized_hash l not_found
      end
  end.
Definition transaction_lookup (tx_hash : string) : query transaction_location :=
  let* _ := pure (require (hash64 tx_hash) (ValueError "invalid transaction hash")) in
  let normalized_hash := py_upper tx_hash in
  let* l := operation_candidates "rpc" "tx_lookup" in
  lookup_loop normalized_hash l [].

(** ** The validator event search *)
Fixpoint event_loop (expression : string) (limit : Z) (l : list candidate) (first_empty : option (list (string * val)))
    (empty_endpoints : list string) : query (list (string * val)) :=
  match l with
  | [] => match first_empty with
          | Some payload => pure (Ok payload)
          | None => pure (Raise (AllEndpointsUnavailable "validator event search unavailable"))
          end
  | c :: l =>
      let* found := attempt_search c expression 1 limit in
      match found with
      | Some (VDict payload) =>
          if event_payload_valid (VDict payload) limit then
            if truthy (dget payload "txs") then
              let* _ := mark_all "tx_search" empty_endpoints in
              let* _ := clear_operation_suspect "tx_search" (cd_endpoint c) in
              pure (Ok payload)
            else event_loop expression limit l (match first_empty with Some _ => first_empty | None => Some payload end) (empty_endpoints ++ [cd_endpoint c])
          else
            let* unavailable := pure (index_unavailable (VDict payload)) in
            let* _ := (if (unavailable : bool) then mark_operation_suspect "tx_search" (cd_endpoint c) else pure (Ok tt)) in
            event_loop expression limit l first_empty empty_endpoints
      | _ => event_loop expression limit l first_empty empty_endpoints
      end
  end.
Definition validator_event_search (expression : string) (limit : Z) : query (list (string * val)) :=
  get_or_load max_entries CPayload (fun v => match v with CPayload d => Some d | _ => None end)
    (section (KEventSearch expression limit)) (ticks SECTION_TTL)
    (let* l := operation_candidates "rest" "tx_search" in event_loop expression limit l None []).
End history.

(** ** Searches keep the cache good *)
Section history_proofs.
Context `{PyRuntime} `{NetlocCheck} `{JsonStack} {E : Type} `{CosmosEnvironment E}.
Context (config : CosmosNetworkConfig) (ticks : val -> Z) (max_entries : nat).
#[local] Abbreviation GoodN := (Good config).
Context `{!CosmosLaws GoodN (Fails config)}.
#[local] Abbreviation satisfies := (satisfies (cache_good (E:=E) GoodN)).
#[local] Abbreviation anyQ := (fun _ => True).
#[local] Abbreviation never := (fun _ : exc => False).
#[local] Abbreviation uncaught := (fun e => isinstance_Exception e = false).

Lemma satisfies_update f : (forall w, cw_cache (f w) = cw_cache w) -> satisfies (update (E:=E) f) anyQ never.
Proof. intros Hf w Hw. split; [|done]. eapply cache_good_same; [apply Hf|exact Hw]. Qed.
Lemma satisfies_mark operation endpoint : satisfies (mark_operation_suspect ticks operation endpoint) anyQ never.
Proof. eapply satisfies_and_then; [by eapply satisfies_clock|]. intros now _. by apply satisfies_update. Qed.
Lemma satisfies_clear operation endpoint : satisfies (clear_operation_suspect operation endpoint) anyQ never.
Proof. by apply satisfies_update. Qed.
Lemma satisfies_mark_all operation l : satisfies (mark_all ticks operation l) anyQ never.
Proof.
  induction l as [|e l IH]; [by apply satisfies_pure|]. eapply satisfies_and_then; [apply satisfies_mark|]. by intros _ _.
Qed.
(** The suspects go last, and nothing is lost. *)
Lemma suspects_last_perm operation suspects l : suspects_last operation suspects l ≡ₚ l.
Proof.
  unfold suspects_last. induction l as [|c l IH]; [done|]. cbn [List.filter]. destruct (is_suspect operation suspects c); cbn [negb app].
  - rewrite <- Permutation_middle. by rewrite IH.
  - by rewrite IH.
Qed.
Definition offered (kind : string) (l : list candidate) : Prop := exists l0, candidates_ok config kind l0 /\ l ≡ₚ l0.
Lemma operation_candidates_ok kind operation :
  satisfies (operation_candidates config ticks max_entries kind operation) (offered kind) unavailable.
Proof.
  eapply satisfies_and_then; [by apply cached_candidates_ok|]. intros l Hl.
  eapply satisfies_and_then; [eapply satisfies_clock|]. intros now _.
  eapply satisfies_and_then with (P := anyQ); [eapply satisfies_impl; [by apply satisfies_update|done|done]|]. intros _ _ w Hw. split; [done|].
  exists l. split; [done|]. apply suspects_last_perm.
Qed.
Lemma attempt_search_ok c expression page limit : satisfies (attempt_search config c expression page limit) anyQ uncaught.
Proof.
  unfold attempt_search. eapply satisfies_catch with (Y := anyQ); [|done|intros; by apply satisfies_pure].
  eapply satisfies_and_then with (P := anyQ); [|intros; by apply satisfies_pure].
  unfold tx_search_payload. intros w Hw. destruct (bool_decide _).
  - revert w Hw. change (satisfies (and_then (get config (cd_endpoint c) (search_path "events" expression page limit) true)
      (fun payload => pure (Ok (payload, "legacy")))) anyQ anyQ).
    eapply satisfies_and_then; [by apply satisfies_get|]. intros payload _. by apply satisfies_pure.
  - revert w Hw. match goal with |- forall w, _ -> _ (?m w).2 /\ _ => change (satisfies m anyQ anyQ) end.
    eapply satisfies_and_then; [by apply satisfies_get|]. intros payload _.
    eapply satisfies_and_then with (P := anyQ); [apply satisfies_pure; by destruct (error_text payload)|]. intros text _.
    destruct (negb _); [by apply satisfies_pure|].
    eapply satisfies_and_then with (P := anyQ); [eapply satisfies_impl; [by apply satisfies_update|done|done]|]. intros _ _.
    eapply satisfies_and_then; [by apply satisfies_get|]. intros payload2 _. by apply satisfies_pure.
Qed.

Lemma py_repr_raises v : raises isinstance_ValueError (py_repr v).
Proof.
  induction v as [| | | | |l IH|d IH] using val_ind'; try done; [apply py_str_int_raises|..]; cbn [py_repr].
  - apply raises_bind; [|done]. apply raises_mapM. intros x Hx. rewrite Forall_forall in IH. by apply IH.
  - apply raises_bind; [|done]. induction IH as [|[k x] d Hx _ IHd]; [done|]. apply raises_bind; [exact Hx|]. intros t _.
    by apply raises_bind.
Qed.
Lemma py_str_raises v : raises isinstance_ValueError (py_str v).
Proof. destruct v; try apply py_repr_raises. done. Qed.
Lemma error_text_raises payload : raises isinstance_ValueError (error_text payload).
Proof. unfold error_text. destruct payload; try done. apply raises_bind; [|done]. apply raises_mapM. intros; apply py_str_raises. Qed.
Lemma index_unavailable_raises payload : raises isinstance_ValueError (index_unavailable payload).
Proof. apply raises_bind; [apply error_text_raises|done]. Qed.
Lemma host_raises e : raises isinstance_ValueError (host e).
Proof. apply raises_bind; [apply urlsplit_raises|done]. Qed.
Lemma search_of_value_errors e : isinstance_ValueError e = true -> search_failure e.
Proof. intros He. right. by left. Qed.
(** A pure part that raises value errors *)
Lemma satisfies_pure_value {A} (r : res A) : raises isinstance_ValueError r -> satisfies (pure r) (fun a => r = Ok a) search_failure.
Proof. intros Hr. apply satisfies_pure. destruct r; [done|]. by apply search_of_value_errors. Qed.
Lemma satisfies_quiet {A} (m : query (W:=CosmosWorld E) A) Q (X : exc -> Prop) : satisfies m Q never -> satisfies m Q X.
Proof. intros Hm. by eapply satisfies_impl. Qed.
Lemma satisfies_uncaught {A} (m : query (W:=CosmosWorld E) A) Q : satisfies m Q uncaught -> satisfies m Q search_failure.
Proof. intros Hm. eapply satisfies_impl; [exact Hm|done|]. intros e He. left. by right. Qed.

Lemma window_loop_ok lower upper page limit l first_empty empties indexing :
  (forall r, first_empty = Some r -> window_ok limit r) -> 0 <= limit ->
  satisfies (window_loop config ticks lower upper page limit l first_empty empties indexing) (window_ok limit) search_failure.
Proof.
  intros Hf Hlimit. revert first_empty empties indexing Hf. induction l as [|c l IH]; intros first_empty empties indexing Hf.
  { cbn. destruct first_empty as [r|]; [by apply satisfies_pure, Hf|]. destruct indexing; apply satisfies_pure; [|by left; left].
    split; cbn; try done. }
  cbn [window_loop]. eapply satisfies_and_then; [by apply satisfies_uncaught, attempt_search_ok|]. intros [payload|] _; [|by apply IH].
  pose proof (normalize_transactions_ok payload limit) as Hn. destruct (normalize_transactions payload limit) as [[rows total]|e].
  - destruct Hn as (Hlen & _ & Hrows & Htotal & _).
    eapply satisfies_and_then; [apply satisfies_pure_value, host_raises|]. intros hst _.
    assert (window_ok limit (Window true rows total (Some hst))) as Hok by (split; cbn; done).
    destruct rows as [|r rows].
    + apply IH. destruct first_empty as [r|]; [exact Hf|]. by intros ? [= <-].
    + eapply satisfies_and_then; [apply satisfies_quiet, satisfies_mark_all|]. intros _ _.
      eapply satisfies_and_then; [apply satisfies_quiet, satisfies_clear|]. intros _ _. by apply satisfies_pure.
  - destruct e; try (apply satisfies_pure; cbn in Hn; first [by right; left|by right; right|done]).
    eapply satisfies_and_then; [apply satisfies_pure_value, index_unavailable_raises|]. intros [] _; [|by apply IH].
    eapply satisfies_and_then; [apply satisfies_quiet, satisfies_mark|]. intros _ _. by apply IH.
Qed.
Lemma unavailable_search {A} (m : query (W:=CosmosWorld E) A) Q : satisfies m Q unavailable -> satisfies m Q search_failure.
Proof. intros Hm. eapply satisfies_impl; [exact Hm|done|]. intros e He. by left. Qed.
Lemma load_window_ok lower upper page limit : 0 <= limit ->
  satisfies (load_window config ticks max_entries lower upper page limit) (window_ok limit) search_failure.
Proof.
  intros Hl. eapply satisfies_and_then; [by apply unavailable_search, operation_candidates_ok|]. intros l _. by apply window_loop_ok.
Qed.
Definition window_request (lower upper page limit : Z) : Prop :=
  1 <= lower <= upper /\ upper - lower < _TX_HISTORY_WINDOW /\ 1 <= page <= _TX_HISTORY_MAX_WINDOW_PAGE /\ 1 <= limit <= 20.
Lemma transaction_window_ok lower upper page limit : window_request lower upper page limit ->
  satisfies (transaction_window config ticks max_entries lower upper page limit) (window_ok limit) search_failure.
Proof.
  intros (Hl & Hu & Hp & Hlim). unfold transaction_window.
  eapply satisfies_and_then with (P := anyQ).
  { apply satisfies_pure. unfold raise_if. assert ((lower <=? 0) || (upper <? lower) || (_TX_HISTORY_WINDOW <? upper - lower + 1) ||
      negb ((1 <=? page) && (page <=? _TX_HISTORY_MAX_WINDOW_PAGE)) || negb ((1 <=? limit) && (limit <=? 20)) = false) as -> by lia. done. }
  intros _ _. apply (satisfies_get_or_load GoodN (Fails config)).
  - eapply satisfies_impl; [apply load_window_ok; lia|by intros r Hr _|by intros e He _].
  - intros r Hr. by apply Hr.
  - intros v Hv. specialize (Hv eq_refl). destruct v; try done. by eexists.
  - intros e He. by apply He.
Qed.

(** ** The walk *)
Record reached_ok (anchor : Z) (from : position) (limit : Z) (r : reached) : Prop := {
  rk_position : position_ok anchor (rc_upper r) (rc_page r);
  rk_lower : rc_lower r = window_lower (rc_upper r);
  rk_from : exists k, 0 <= k < 8 /\ rc_upper r = from.1 - k * _TX_HISTORY_WINDOW /\ rc_page r = (if k =? 0 then from.2 else 1);
  rk_response : window_ok limit (rc_response r);
  rk_batched : forall c, rc_batched r = Some c -> c = cursor_text anchor (rc_lower r - 1) 1 /\ 1 < rc_lower r /\ wr_available (rc_response r) = true
}.
Lemma walk_ok hops anchor upper page limit from k : position_ok anchor upper page -> 1 <= limit <= 20 ->
  upper = from.1 - k * _TX_HISTORY_WINDOW -> page = (if k =? 0 then from.2 else 1) -> 0 <= k -> k + Z.of_nat hops = 8 ->
  satisfies (walk config ticks max_entries hops anchor upper page limit)
    (fun o => match o with Some r => reached_ok anchor from limit r | None => hops = O end) search_failure.
Proof.
  intros Hok Hlimit. revert upper page k Hok. induction hops as [|hops IH]; intros upper page k Hok Hu Hp Hk Hkh.
  { by apply satisfies_pure. }
  cbn [walk]. pose proof Hok as (Hua & Hpp & _).
  eapply satisfies_and_then; [apply transaction_window_ok|].
  { unfold window_request, window_lower, _TX_HISTORY_WINDOW in *. lia. }
  intros response Hr.
  assert (reached_ok anchor from limit (Reached (window_lower upper) upper page response None)) as Hhere.
  { split; cbn; try done. exists k. split; [lia|done]. }
  destruct (wr_available response) eqn:Hav; [|by apply satisfies_pure].
  destruct (wr_transactions response) eqn:Hrows; [|by apply satisfies_pure].
  destruct (Z.eqb_spec (window_lower upper) 1) as [|Hl]; [by apply satisfies_pure|].
  assert (1 < window_lower upper) as Hl1 by (unfold window_lower in *; lia).
  destruct (position_window_below anchor upper page Hok Hl1) as [Hbelow Heq].
  destruct hops as [|hops].
  - eapply satisfies_and_then with (P := fun c => c = cursor_text anchor (window_lower upper - 1) 1).
    { apply satisfies_pure. by rewrite encode_ok. }
    intros c ->. apply satisfies_pure. split; cbn; try done; [exists k; split; [lia|done]|]. by intros c [= <-].
  - eapply satisfies_impl; [apply (IH (window_lower upper - 1) 1 (k + 1)); try done; try lia| |done].
    + destruct (Z.eqb_spec (k + 1) 0); [lia|done].
    + intros [r|]; [done|discriminate].
Qed.

Lemma older_cursor_ok limit anchor from r : reached_ok anchor from limit r -> anchor < 10 ^ 19 ->
  exists o, older_history_cursor limit anchor r = Ok o /\
    match o with
    | Some c => exists q, decode_history_cursor c = Ok (anchor, q.1, q.2) /\ older_step (rc_upper r, rc_page r) q
    | None => rc_lower r = 1
    end.
Proof.
  intros [Hok Hlow _ _ Hb] Ha. pose proof Hok as (Hu & Hp & Hm).
  set (below := if 1 <? rc_lower r then Some <$> encode_history_cursor anchor (rc_lower r - 1) 1 else Ok None).
  assert (exists o, below = Ok o /\ match o with
    | Some c => exists q, decode_history_cursor c = Ok (anchor, q.1, q.2) /\ older_step (rc_upper r, rc_page r) q
    | None => rc_lower r = 1 end) as Hbelow.
  { subst below. rewrite Hlow. destruct (Z.ltb_spec 1 (window_lower (rc_upper r))) as [Hlt|Hlt].
    - destruct (position_window_below _ _ _ Hok Hlt) as [Hk Heq]. rewrite encode_ok by done. cbn [fmap res_fmap]. eexists. split; [done|].
      exists (window_lower (rc_upper r) - 1, 1). split; [by apply decode_cursor_text|]. right. cbn. by rewrite Heq.
    - eexists. split; [done|]. unfold window_lower in *. lia. }
  unfold older_history_cursor. fold below. destruct (wr_transactions (rc_response r)) as [|row rows].
  - destruct (rc_batched r) as [c|]; [|exact Hbelow]. destruct (Hb c eq_refl) as (-> & Hlt & _). eexists. split; [done|].
    rewrite Hlow in *. destruct (position_window_below _ _ _ Hok Hlt) as [Hk Heq].
    exists (window_lower (rc_upper r) - 1, 1). split; [by apply decode_cursor_text|]. right. cbn. by rewrite Heq.
  - destruct (_ && _) eqn:Em; [|exact Hbelow]. apply andb_true_iff in Em as [_ Hpage%Z.ltb_lt].
    assert (position_ok anchor (rc_upper r) (rc_page r + 1)) as Hk by (unfold position_ok; split_and!; [lia..|done]).
    rewrite encode_ok by done. cbn [fmap res_fmap]. eexists. split; [done|]. exists (rc_upper r, rc_page r + 1).
    split; [by apply decode_cursor_text|]. by left.
Qed.

Lemma newer_raises anchor upper page : raises isinstance_ValueError (newer_history_cursor anchor upper page).
Proof.
  unfold newer_history_cursor. destruct (1 <? page); [destruct (_ && _); [done|apply raises_fmap, encode_raises]|].
  destruct (anchor <=? upper); [done|]. destruct (_ =? anchor); [done|apply raises_fmap, encode_raises].
Qed.
Definition started (cursor : option string) (st : Z * Z * Z) : Prop :=
  position_ok st.1.1 st.1.2 st.2 /\ st.1.1 < 10 ^ 19 /\
  match cursor with None => st = (st.1.1, st.1.1, 1) | Some c => decode_history_cursor c = Ok st end.
Lemma start_position_ok cursor : satisfies (start_position config ticks max_entries cursor) (started cursor) search_failure.
Proof.
  unfold start_position. destruct cursor as [c|].
  - eapply satisfies_impl; [apply satisfies_pure_value, decode_raises| |done]. intros [[anchor upper] page] Hd.
    pose proof Hd as (Hok & Ha & _)%decode_cursor_inv. done.
  - eapply satisfies_and_then; [by apply unavailable_search, node_status_ok|]. intros s Hs. pose proof (so_height _ _ Hs) as Hh.
    eapply satisfies_and_then with (P := anyQ).
    { apply satisfies_pure. unfold raise_if. by rewrite (proj2 (Z.leb_gt _ _)) by lia. }
    intros _ _. apply satisfies_pure. split; cbn; [|split; [unfold MAX_INT64 in Hh; lia|done]].
    unfold position_ok, _TX_HISTORY_MAX_WINDOW_PAGE. rewrite Z.sub_diag. split_and!; [lia..|done].
Qed.
(** The end of a walk as a page *)
Lemma walked_reached anchor from limit r (h : history_response) : reached_ok anchor from limit r ->
  hr_window_to h = rc_upper r -> hr_window_page h = rc_page r -> walked from h.
Proof. intros [_ _ (k & Hk & Hu & Hp) _ _] Ht Hpg. exists k. by rewrite Ht, Hpg. Qed.
Lemma history_answer_ok limit cursor anchor upper page r : 1 <= limit <= 20 ->
  started cursor (anchor, upper, page) -> reached_ok anchor (upper, page) limit r ->
  forall h, hr_available h = wr_available (rc_response r) -> hr_anchor_height h = anchor -> hr_window_from h = rc_lower r ->
  hr_window_to h = rc_upper r -> hr_window_page h = rc_page r ->
  hr_transactions h = (if wr_available (rc_response r) then wr_transactions (rc_response r) else []) ->
  (if wr_available (rc_response r) then older_history_cursor limit anchor r = Ok (hr_older_cursor h) else hr_older_cursor h = None) ->
  (if matches cursor && wr_available (rc_response r)
   then newer_history_cursor anchor (rc_upper r) (rc_page r) = Ok (hr_newer_cursor h) /\ hr_has_newer h = true
   else hr_newer_cursor h = None /\ hr_has_newer h = false) ->
  history_ok limit (default "live" cursor) h.
Proof.
  intros Hlimit (Hst & Ha & Hc) Hr h Hav Hanchor Hfrom Hto Hpage Hrows Holder Hnewer. cbn [fst snd] in *. pose proof Hr as [Hok Hlow _ Hw _].
  assert (matches cursor = is_Ok (decode_history_cursor (default "live" cursor))) as Hm.
  { destruct cursor as [c|]; [|done]. change (decode_history_cursor c = Ok (anchor, upper, page)) in Hc. change (default "live" (Some c)) with c. by rewrite Hc. }
  split.
  - rewrite Hrows. destruct (wr_available _); [apply Hw|constructor].
  - rewrite Hrows. destruct (wr_available _); [apply Hw|cbn; lia].
  - by rewrite Hanchor, Hto, Hpage.
  - by rewrite Hfrom, Hto.
  - destruct cursor as [c|].
    + change (decode_history_cursor c = Ok (anchor, upper, page)) in Hc. change (default "live" (Some c)) with c. rewrite Hc. split; [done|]. by eapply walked_reached.
    + injection Hc as ->->. rewrite Hanchor. by eapply walked_reached.
  - rewrite Hanchor, Hto, Hpage, Hfrom, Hav. destruct (wr_available _).
    + destruct (older_cursor_ok limit anchor _ r Hr Ha) as (o & Ho & Hq). rewrite Ho in Holder. injection Holder as <-. by destruct o.
    + rewrite Holder. done.
  - rewrite <- Hm, Hanchor, Hto, Hpage, Hav. exact Hnewer.
  - rewrite Hav. intros Hf. rewrite Hf in Hrows, Holder. done.
Qed.
Lemma history_uncached_ok limit cursor : 1 <= limit <= 20 ->
  satisfies (transaction_history_uncached config ticks max_entries limit cursor) (history_ok limit (default "live" cursor)) search_failure.
Proof.
  intros Hlimit. eapply satisfies_and_then; [apply start_position_ok|]. intros [[anchor upper] page] Hst. pose proof Hst as (Hok & Ha & _). cbn in Hok, Ha.
  cbn [fst snd]. eapply satisfies_and_then; [apply (walk_ok _ _ _ _ _ (upper, page) 0); [done..|cbn; lia|done|done|done]|].
  intros [r|] Hr; [|discriminate]. apply satisfies_pure.
  destruct (wr_available (rc_response r)) eqn:Hav.
  - destruct (older_cursor_ok limit anchor _ r Hr Ha) as (o & Ho & _). rewrite Ho. cbn [mbind res_bind].
    pose proof (newer_raises anchor (rc_upper r) (rc_page r)) as Hn.
    destruct cursor as [c|]; cbn [mbind res_bind].
    + destruct (newer_history_cursor anchor (rc_upper r) (rc_page r)) as [n|e] eqn:En; [|by apply search_of_value_errors].
      cbn [mbind res_bind]. unfold require. destruct (history_valid _); [|by apply search_of_value_errors]. cbn [mbind res_bind matches andb hr_available].
      eapply history_answer_ok; try done; cbn; rewrite ?Hav; try done.
    + unfold require. destruct (history_valid _); [|by apply search_of_value_errors]. cbn [mbind res_bind matches andb].
      eapply history_answer_ok; try done; cbn; rewrite ?Hav; try done.
  - cbn [mbind res_bind]. unfold require. destruct (history_valid _); [|by apply search_of_value_errors]. cbn [mbind res_bind]. rewrite andb_false_r.
    eapply history_answer_ok; try done; cbn; rewrite ?Hav, ?andb_false_r; try done.
Qed.


(** ** The exact lookup *)
Definition located (hash : string) (l : transaction_location) : Prop :=
  tl_tx_hash l = hash /\ is_hash_hex hash = true /\ 1 <= tl_height l <= MAX_INT64 /\ 0 <= tl_index l <= 10000.
Lemma sc_integer_Ok v name z : sc_integer v name = Ok z -> 0 <= z <= MAX_INT64.
Proof.
  unfold sc_integer. intros Hb. apply bind_Ok in Hb as (r & _ & Hb). destruct (_ || _) eqn:Eo; [done|]. injection Hb as <-.
  apply orb_false_iff in Eo as [Hb1%Z.ltb_ge Hb2%Z.ltb_ge]. lia.
Qed.
Lemma lookup_payload_located hash d l : lookup_payload hash d = Ok (Located l) -> located hash l.
Proof.
  assert (lookup_payload hash d = Ok (Located l) -> forall error, dget d "error" = VDict error -> False) as Herr.
  { unfold lookup_payload. intros Hb error He. rewrite He in Hb. apply bind_Ok in Hb as (t & _ & Hb).
    destruct (py_contains _ _); [done|]. destruct (index_unavailable _); done. }
  intros Hb. specialize (Herr Hb). unfold lookup_payload in Hb.
  destruct (dget d "error") as [| | | | | |error]; try (by exfalso; eapply Herr);
    (apply bind_Ok in Hb as (result & _ & Hb); apply bind_Ok in Hb as (h & _ & Hb); cbv zeta in Hb;
     apply bind_Ok in Hb as ([] & Hh%require_Ok & Hb); apply bind_Ok in Hb as (height0 & Hz%sc_integer_Ok & Hb);
     apply bind_Ok in Hb as (index0 & Hi%sc_integer_Ok & Hb); apply bind_Ok in Hb as ([] & Hr%raise_if_Ok & Hb); injection Hb as <-;
     apply andb_true_iff in Hh as [Hh1%String.eqb_eq Hh2]; apply orb_false_iff in Hr as [Hr1%Z.leb_gt Hr2%Z.ltb_ge];
     split_and!; cbn; [done|by rewrite <- Hh1|lia..]).
Qed.
Lemma lookup_at_ok hash not_found c :
  satisfies (lookup_at config ticks hash not_found c) (fun a => forall l, a = Located l -> located hash l) anyQ.
Proof.
  eapply satisfies_and_then; [by apply satisfies_get|]. intros payload _.
  eapply satisfies_and_then with (P := fun a => forall l, a = Located l -> located hash l).
  { apply satisfies_pure. destruct payload as [| | | | | |d]; try done. destruct (lookup_payload hash d) as [a|] eqn:Ea; [|done].
    intros l ->. by eapply lookup_payload_located. }
  intros [|off|l] Ha.
  - by apply satisfies_pure.
  - eapply satisfies_and_then with (P := anyQ); [destruct off; [apply satisfies_quiet, satisfies_mark|by apply satisfies_pure]|].
    intros _ _. by apply satisfies_pure.
  - eapply satisfies_and_then; [apply satisfies_quiet, satisfies_mark_all|]. intros _ _.
    eapply satisfies_and_then; [apply satisfies_quiet, satisfies_clear|]. intros _ _. by apply satisfies_pure.
Qed.
Definition lookup_failure (e : exc) : Prop := unavailable e \/ e = TransactionNotFound "transaction not found".
Lemma lookup_loop_ok hash l not_found : satisfies (lookup_loop config ticks hash l not_found) (located hash) lookup_failure.
Proof.
  revert not_found. induction l as [|c l IH]; intros not_found.
  { destruct not_found; apply satisfies_pure; [by left; left|by right]. }
  eapply satisfies_and_then with (P := fun a => forall l, a = Located l -> located hash l).
  { eapply satisfies_catch with (Y := anyQ); [by apply lookup_at_ok|intros e _ He; by left; right|]. intros e _ _. by apply satisfies_pure. }
  intros [|off|loc] Ha; [apply IH|apply IH|]. by apply satisfies_pure, Ha.
Qed.
(** A transaction that is found is at a positive height and an index of at most
    10,000, under the hash asked for; TransactionNotFound and
    AllEndpointsUnavailable are the only other answers for a hash of 64
    hexadecimal digits. *)
Theorem transaction_lookup_sound tx_hash :
  satisfies (transaction_lookup config ticks max_entries tx_hash) (located (py_upper tx_hash))
    (fun e => lookup_failure e \/ (hash64 tx_hash = false /\ isinstance_ValueError e = true)).
Proof.
  eapply satisfies_and_then with (P := anyQ).
  { apply satisfies_pure. unfold require. destruct (hash64 tx_hash); [done|by right]. }
  intros _ _. eapply satisfies_and_then.
  { eapply satisfies_impl; [by apply operation_candidates_ok|intros l Hl; exact Hl|]. intros e He. by left; left. }
  intros l _. eapply satisfies_impl; [by apply lookup_loop_ok|done|]. intros e He. by left.
Qed.

(** ** The event search *)
Lemma event_payload_valid_ok d limit : event_payload_valid (VDict d) limit = true -> event_payload_ok limit d.
Proof.
  unfold event_payload_valid. destruct (dget d "txs") as [| | | | |txs|] eqn:Et; try done. destruct (dget d "tx_responses") as [| | | | |rs|] eqn:Er; try done.
  intros [[Hl%Nat.eqb_eq Hm%Z.leb_le]%andb_true_iff _]%andb_true_iff. by exists txs, rs.
Qed.
Lemma event_loop_ok expression limit l first_empty empties : (forall d, first_empty = Some d -> event_payload_ok limit d) ->
  satisfies (event_loop config ticks expression limit l first_empty empties) (event_payload_ok limit) search_failure.
Proof.
  revert first_empty empties. induction l as [|c l IH]; intros first_empty empties Hf.
  { cbn. destruct first_empty as [d|]; apply satisfies_pure; [by apply Hf|by left; left]. }
  cbn [event_loop]. eapply satisfies_and_then; [by apply satisfies_uncaught, attempt_search_ok|].
  intros [[| | | | | |d]|] _; try by apply IH. destruct (event_payload_valid (VDict d) limit) eqn:Ev.
  - apply event_payload_valid_ok in Ev. destruct (truthy _).
    + eapply satisfies_and_then; [apply satisfies_quiet, satisfies_mark_all|]. intros _ _.
      eapply satisfies_and_then; [apply satisfies_quiet, satisfies_clear|]. intros _ _. by apply satisfies_pure.
    + apply IH. destruct first_empty; [done|]. by intros ? [= <-].
  - eapply satisfies_and_then; [apply satisfies_pure_value, index_unavailable_raises|]. intros off _.
    eapply satisfies_and_then with (P := anyQ); [destruct off; [apply satisfies_quiet, satisfies_mark|by apply satisfies_pure]|].
    intros _ _. by apply IH.
Qed.
Lemma validator_event_search_ok expression limit :
  satisfies (validator_event_search config ticks max_entries expression limit) (event_payload_ok limit) search_failure.
Proof.
  apply (satisfies_get_or_load GoodN (Fails config)).
  - eapply satisfies_impl with (P := event_payload_ok limit) (X := search_failure); [|by intros d Hd _|by intros e He _].
    eapply satisfies_and_then; [by apply unavailable_search, operation_candidates_ok|]. intros l _. by apply event_loop_ok.
  - intros d Hd. by apply Hd.
  - intros v Hv. specialize (Hv eq_refl). destruct v; try done. by eexists.
  - intros e He. by apply He.
Qed.

(** ** The list route *)
Lemma normalized_result limit page endpoint payload :
  match normalized limit page endpoint payload with
  | Ok (Some r) => transactions_valid r = true /\ ts_page r = page /\ ts_page_size r = limit
  | Ok None => True
  | Raise e => search_failure e
  end.
Proof.
  unfold normalized. pose proof (normalize_transactions_ok payload limit) as Hn.
  destruct (normalize_transactions payload limit) as [[rows total]|e]; cbn [mbind res_bind].
  - pose proof (host_raises endpoint) as Hh. destruct (host endpoint) as [hst|e]; cbn [mbind res_bind].
    + unfold require. destruct (transactions_valid _) eqn:Ev; cbn [mbind res_bind]; [by split_and!|done].
    + destruct e; try done; by apply search_of_value_errors.
  - destruct e; try done; cbn in Hn; first [by right; left|by right; right].
Qed.
Lemma transactions_loop_ok expression limit page l first_empty empties indexing :
  1 <= page <= 100 -> 1 <= limit <= 20 -> (forall r, first_empty = Some r -> transactions_valid r = true) ->
  satisfies (transactions_loop config ticks expression limit page l first_empty empties indexing) (fun r => transactions_valid r = true) search_failure.
Proof.
  intros Hp Hlim. revert first_empty empties indexing. induction l as [|c l IH]; intros first_empty empties indexing Hf.
  { cbn. destruct first_empty as [r|]; [by apply satisfies_pure, Hf|]. destruct indexing; apply satisfies_pure; [|by left; left].
    unfold transactions_valid, rows_valid. cbn.
    by rewrite (proj2 (Z.leb_le 1 page)), (proj2 (Z.leb_le page 100)), (proj2 (Z.leb_le 1 limit)), (proj2 (Z.leb_le limit 20)) by lia. }
  cbn [transactions_loop]. eapply satisfies_and_then; [by apply satisfies_uncaught, attempt_search_ok|]. intros [payload|] _; [|by apply IH].
  eapply satisfies_and_then with (P := fun o => forall r, o = Some r -> transactions_valid r = true).
  { apply satisfies_pure. pose proof (normalized_result limit page (cd_endpoint c) payload) as Hn.
    destruct (normalized _ _ _ _) as [[r|]|]; [intros ? [= <-]; apply Hn|done|done]. }
  intros [r|] Hr.
  - destruct (ts_transactions r).
    + apply IH. destruct first_empty; [done|]. intros ? [= <-]. by apply Hr.
    + eapply satisfies_and_then; [apply satisfies_quiet, satisfies_mark_all|]. intros _ _.
      eapply satisfies_and_then; [apply satisfies_quiet, satisfies_clear|]. intros _ _. by apply satisfies_pure, Hr.
  - eapply satisfies_and_then; [apply satisfies_pure_value, index_unavailable_raises|]. intros [] _; [|by apply IH].
    eapply satisfies_and_then; [apply satisfies_quiet, satisfies_mark|]. intros _ _. by apply IH.
Qed.
Lemma transactions_ok limit page :
  satisfies (transactions config ticks max_entries limit page) (fun r => transactions_valid r = true) search_failure.
Proof.
  eapply satisfies_and_then with (P := fun _ => 1 <= limit <= 20 /\ 1 <= page <= 100).
  { apply satisfies_pure. unfold raise_if. destruct (_ || _) eqn:Eo; [by apply search_of_value_errors|].
    apply orb_false_iff in Eo as [Hn1%negb_false_iff Hn2%negb_false_iff]. apply andb_true_iff in Hn1, Hn2. lia. }
  intros _ [Hl Hp]. eapply satisfies_and_then with (P := anyQ).
  { eapply satisfies_and_then; [by apply unavailable_search, node_status_ok|]. intros s Hs.
    eapply satisfies_and_then with (P := anyQ); [|intros; by apply satisfies_pure]. apply satisfies_pure. unfold raise_if.
    destruct (_ <=? 0); [by left; left|done]. }
  intros expression _. eapply satisfies_and_then; [by apply unavailable_search, operation_candidates_ok|]. intros l _. by apply transactions_loop_ok.
Qed.
End history_proofs.

(** ** A concrete walk *)
#[local] Existing Instances ascii_runtime scripted_env demo_netloc demo_json.
Definition demo_rest_block : val :=
  VDict [("block", VDict [("header", VDict [("chain_id", VStr "hub-1"); ("height", VStr "6000"); ("time", VStr "2024-02-29T12:00:00Z")])])].
Definition demo_row (height : string) : val * val :=
  (VDict [("body", VDict [("messages", VList [VDict [("@type", VStr "/cosmos.bank.v1beta1.MsgSend"); ("from_address", VStr "cosmos1a")]])]);
          ("auth_info", VDict [])],
   VDict [("txhash", VStr "ABCDEFABCDEFABCDEFABCDEFABCDEFABCDEFABCDEFABCDEFABCDEFABCDEFABCD"); ("timestamp", VStr "2024-02-29T12:00:00Z");
          ("height", VStr height); ("gas_wanted", VStr "10"); ("gas_used", VStr "7")]).
Definition demo_search (rows : list (val * val)) (total : string) : val :=
  VDict [("txs", VList (map fst rows)); ("tx_responses", VList (map snd rows)); ("total", VStr total)].
Definition demo_search_url (lower upper page : string) : string :=
  "https://rest.example/cosmos/tx/v1beta1/txs?query=tx.height%3E%3D" +:+ lower +:+ "%20AND%20tx.height%3C%3D" +:+ upper +:+
  "&order_by=ORDER_BY_DESC&page=" +:+ page +:+ "&limit=1".
Definition demo_history_replies : list (string * http_reply) := [
  ("https://a.example/status", json_reply (demo_status "hub-1" 6000 false));
  ("https://rest.example/cosmos/base/tendermint/v1beta1/blocks/latest", json_reply demo_rest_block);
  (demo_search_url "4001" "6000" "1", json_reply (demo_search [] "0"));
  (demo_search_url "2001" "4000" "1", json_reply (demo_search [demo_row "3000"] "2"))].
Definition demo_history_world : CosmosWorld scripted := scripted_world demo_history_replies.
Lemma demo_history_runs :
  match (transaction_history (E:=scripted) demo_config demo_ticks 100 1 None demo_history_world).1 with
  | Ok r => hr_window_to r = 4000 /\ hr_older_cursor r = Some (cursor_text 6000 4000 2)
  | Raise _ => False
  end.
Proof. vm_compute. by split. Qed.
Definition demo_hash : string := "abcdefabcdefabcdefabcdefabcdefabcdefabcdefabcdefabcdefabcdefabcd".
Definition demo_lookup_replies : list (string * http_reply) := [
  ("https://a.example/status", json_reply (demo_status "hub-1" 6000 false));
  ("https://b.example/status", json_reply (demo_status "hub-1" 6000 false));
  ("https://a.example/tx?hash=0x" +:+ py_upper demo_hash +:+ "&prove=false", json_reply (VDict [("error", VDict [("data", VStr "tx not found")])]));
  ("https://b.example/tx?hash=0x" +:+ py_upper demo_hash +:+ "&prove=false",
   json_reply (VDict [("result", VDict [("hash", VStr (py_upper demo_hash)); ("height", VStr "3000"); ("index", VInt 2)])]))].
Lemma demo_lookup_runs : is_Ok (transaction_lookup (E:=scripted) demo_config demo_ticks 100 demo_hash (scripted_world demo_lookup_replies)).1 = true.
Proof. vm_compute. reflexivity. Qed.
Lemma transaction_lookup_sound_witness :
  match (transaction_lookup (E:=scripted) demo_config demo_ticks 100 demo_hash (scripted_world demo_lookup_replies)).1 with
  | Ok l => located (py_upper demo_hash) l
  | Raise _ => False
  end.
Proof.
  pose proof (proj2 (@transaction_lookup_sound _ _ _ _ _ demo_config demo_ticks 100 demo_adapter_laws demo_hash _
    (scripted_world_good _ demo_lookup_replies))) as Hs.
  pose proof demo_lookup_runs as Hr. by destruct (transaction_lookup _ _ _ _ _).1.
Defined.
