(* ===== verification/ProviderHistory.v ===== *)
(** * api/cosmos/service.py: what the endpoint providers can answer

    [_provider_rpc_capabilities] finds the lowest height a provider's node still
    has: the height its own error message reports, or else a binary search with
    retries and a pause before every step.  [endpoint_status] puts this together
    with the selection of endpoints.  The coroutines of one [asyncio.gather] run
    here one after the other, all of them also when one fails: whatever the
    others do in between is part of what the environment may do while a request
    waits. *)
From Stdlib Require Import ZArith NArith Lia Ascii String SpecFloat.
From stdpp Require Import base gmap sets list strings sorting.
From S2P Require Import Prelude Query PyStr PyVal Codec Json Scan Lines RequestCache Rfc3339 CosmosParsing IpAddress Url CosmosConfig Registry CosmosCache.
From S2P Require Import HistoryCursor.
From S2P Require Import CosmosAdapter.
From S2P Require Import TransactionHistory.
Open Scope Z_scope.

Definition _PROVIDER_CAPABILITY_TTL : val := VFloat (f_of_Z 3600).
Definition _PROVIDER_HISTORY_SEARCH_LIMIT : nat := 32.
Definition _PROVIDER_HISTORY_RETRIES : Z := 3.
(** The floats 0.25 and 0.10 *)
Definition _PROVIDER_HISTORY_RETRY_DELAY : float := S754_finite false 4503599627370496 (-54).
Definition _PROVIDER_HISTORY_PACING : val := VFloat (S754_finite false 7205759403792794 (-56)).

(** ** The messages of a node *)

(** [_HISTORY_FLOOR.search]: the digits of the group *)
Definition floor_at (l : list string) : option (list string) :=
  '(_, l) ← ci "lowest height is" l;
  l ← spaces1 l;
  '(ds, _) ← uni_digits l;
  Some ds.
Fixpoint history_floor (l : list string) : option (list string) :=
  match floor_at l with
  | Some ds => Some ds
  | None => match l with [] => None | _ :: l => history_floor l end
  end.
(** [_HISTORY_UNAVAILABLE.search] *)
Definition line_rest (l : list string) : list string := (span_chars (fun g => negb (code_point g =? 10)) l).1.
Definition then_later (first later : string) (l : list string) : bool :=
  match ci first l with Some (_, r) => ci_contains later (line_rest r) | None => false end.
Definition unavailable_at (l : list string) : bool :=
  matches (ci "lowest height is" l) || then_later "height" "not available" l || then_later "could not find" "height" l ||
  matches (ci "pruned" l).
Fixpoint history_unavailable (l : list string) : bool :=
  unavailable_at l || match l with [] => false | _ :: l => history_unavailable l end.

Section messages.
Context `{PyRuntime}.
(** [error_text] of [load] *)
Definition node_error_text (payload : list (string * val)) : res string :=
  match dget payload "error" with
  | VDict error => py_str (por (por (dget error "data") (dget error "message")) (VStr ""))
  | _ =>
      if dict_has "code" payload && negb (dict_has "result" payload)
      then py_str (por (por (dget payload "message") (dget payload "detail")) (VStr "")) else Ok ""
  end.

(** [valid_result]: whether the node has the height; None when the answer
    does not say. *)
Definition field_of (v : val) (k : string) : val := match v with VDict d => dget d k | _ => VNone end.
Definition holds_height (kind : string) (result : list (string * val)) (height : Z) : res bool :=
  if String.eqb kind "block" then
    match field_of (dget result "block") "header" with
    | VDict header => h ← py_int (dget header "height"); Ok (h =? height)
    | _ => Ok false
    end
  else if String.eqb kind "commit" then
    match field_of (dget result "signed_header") "header", field_of (dget result "signed_header") "commit" with
    | VDict header, VDict commit =>
        h ← py_int (dget header "height");
        if h =? height then c ← py_int (dget commit "height"); Ok (c =? height) else Ok false
    | _, _ => Ok false
    end
  else h ← py_int (dget result "height"); Ok (h =? height).
Definition valid_result (kind : string) (payload : list (string * val)) (height : Z) : res (option bool) :=
  match dict_get "result" payload with
  | None => Ok None
  | Some VNone => Ok (Some false)
  | Some (VDict result) =>
      match holds_height kind result height with
      | Ok b => Ok (Some b)
      | Raise e => if isinstance_TypeError e || isinstance_ValueError e then Ok None else Raise e
      end
  | Some _ => Ok None
  end.

(** What one answer says of a height, and the floor it reports; None to ask
    again. *)
Definition node_answer (kind : string) (height : Z) (payload : list (string * val)) : res (option (option bool * option Z)) :=
  message ← node_error_text payload;
  floor ← lowest_height (history_floor (chars message));
  if negb (is_empty message) then Ok (if history_unavailable (chars message) then Some (Some false, floor) else None)
  else
    state ← valid_result kind payload height;
    Ok (match state with Some b => Some (Some b, floor) | None => None end).
End messages.

(** Sleeping, and waiting for the coroutines of a [gather]: other requests run,
    and the request may be cancelled. *)
Class CosmosTimer (E : Type) := {
  ct_sleep : Z -> CosmosWorld E -> res unit * CosmosWorld E;
  ct_gather : CosmosWorld E -> res unit * CosmosWorld E
}.

Section provider_history.
Context `{PyRuntime} `{NetlocCheck} `{JsonStack} {E : Type} `{CosmosEnvironment E} `{!CosmosTimer E}.
(** The definition of the network, the length of a number of seconds in ticks of
    the clock, a length in rounded milliseconds, and the size of the cache. *)
Context (definition : NetworkDefinition) (ticks : val -> Z) (milliseconds : Z -> Z) (max_entries : nat).
#[local] Abbreviation world := (CosmosWorld E).
#[local] Abbreviation query := (query (W:=world)).
#[local] Notation "'let*' p := m 'in' k" := (and_then m (fun p => k))
  (at level 10, p strict pattern, m at level 200, k at level 200).
#[local] Abbreviation config := (nd_transport definition).

Definition sleep (seconds : val) : query unit := ct_sleep (ticks seconds).
(** The outcome of a coroutine under [gather]. *)
Definition outcome {A} (m : query A) : query (res A) := fun w => let '(r, w) := m w in (Ok r, w).

(** [_PROVIDER_HISTORY_RETRY_DELAY * (attempt + 1)] *)
Definition retry_delay (attempt : Z) : val := VFloat (f_mul _PROVIDER_HISTORY_RETRY_DELAY (f_of_Z (attempt + 1))).
(** The attempts of [request] *)
Fixpoint attempts (endpoint kind : string) (height : Z) (l : list Z) : query (option bool * option Z) :=
  match l with
  | [] => pure (Ok (None, None))
  | attempt :: l =>
      let* payload := catch (let* d := get_object (cc_max_response_bytes config) endpoint ("/" +:+ kind +:+ "?height=" +:+ str_of_Z height) true in
                             pure (Ok (Some d))) caught (fun _ => pure (Ok None)) in
      let* answer := pure (match payload with Some d => node_answer kind height d | None => Ok None end) in
      match answer with
      | Some a => pure (Ok a)
      | None =>
          let* _ := (if attempt + 1 <? _PROVIDER_HISTORY_RETRIES then sleep (retry_delay attempt) else pure (Ok tt)) in
          attempts endpoint kind height l
      end
  end.
Definition request (endpoint kind : string) (height : Z) : query (option bool * option Z) :=
  attempts endpoint kind height (seqZ 0 _PROVIDER_HISTORY_RETRIES).

(** The binary search of [method_floor] *)
Fixpoint search_floor (endpoint kind : string) (steps : nat) (unavailable available : Z) : query (option Z) :=
  match steps with
  | O => pure (Ok (Some available))
  | S steps =>
      if available - unavailable <=? 1 then pure (Ok (Some available))
      else
        let* _ := sleep _PROVIDER_HISTORY_PACING in
        let middle := (unavailable + available) / 2 in
        let* answer := request endpoint kind middle in
        match answer.1 with
        | None => pure (Ok None)
        | Some true => search_floor endpoint kind steps unavailable middle
        | Some false => search_floor endpoint kind steps middle available
        end
  end.
(** The height [method_floor] starts from *)
Definition floor_hint (answer : option bool * option Z) : option Z :=
  match answer with
  | (Some true, _) => Some 1
  | (_, Some reported) => if 0 <? reported then Some reported else None
  | _ => None
  end.
Definition method_floor (endpoint kind : string) (latest_height : option Z) : query (option Z) :=
  let* at_one := request endpoint kind 1 in
  match floor_hint at_one, latest_height with
  | Some hint, Some latest =>
      if latest <=? 0 then pure (Ok None)
      else
        let hint := Z.min hint latest in
        let* at_hint := request endpoint kind hint in
        match at_hint.1 with
        | Some true => pure (Ok (Some hint))
        | None => pure (Ok None)
        | Some false =>
            let upper := if hint <? latest then latest - 1 else latest in
            if upper <=? hint then pure (Ok None)
            else
              let* at_upper := request endpoint kind upper in
              match at_upper.1 with
              | Some true => search_floor endpoint kind _PROVIDER_HISTORY_SEARCH_LIMIT hint upper
              | _ => pure (Ok None)
              end
        end
  | _, _ => pure (Ok None)
  end.

(** [all(isinstance(value, int) and value > 0 for value in floors)] and their
    maximum *)
Definition highest_floor (floors : list (option Z)) : option Z :=
  let found := omap id floors in
  if (length found =? length floors)%nat && forallb (fun z => 0 <? z) found then Some (max_list 0 found) else None.
(** The transaction index and the height of the node *)
Definition node_state (canonical_id endpoint : string) : query (string * option Z) :=
  catch (let* d := get_object (cc_max_response_bytes config) endpoint "/status" false in
         let* source_host := pure (host endpoint) in
         pure (s ← parse_node_status (VDict d) canonical_id (cc_chain_id config) source_host;
               Ok (ns_tx_index s, Some (ns_local_height s))))
    caught (fun _ => pure (Ok ("unknown", None))).
Definition load_capabilities (canonical_id endpoint : string) : query capability :=
  let* state := node_state canonical_id endpoint in
  match state.2 with
  | Some latest =>
      if 0 <? latest then
        let* block := outcome (method_floor endpoint "block" state.2) in
        let* commit := outcome (method_floor endpoint "commit" state.2) in
        let* block_results := outcome (method_floor endpoint "block_results" state.2) in
        let* _ := ct_gather in
        let* floors := pure (mapM_res (fun r => r) [block; commit; block_results]) in
        pure (Ok (Capability state.1 (highest_floor floors)))
      else pure (Ok (Capability state.1 None))
  | None => pure (Ok (Capability state.1 None))
  end.
Definition provider_rpc_capabilities (canonical_id : string) (p : EndpointProvider) : query capability :=
  get_or_load max_entries CCapability (fun v => match v with CCapability c => Some c | _ => None end)
    (canonical_id, KCapabilities (ep_id p)) (ticks _PROVIDER_CAPABILITY_TTL) (load_capabilities canonical_id (ep_rpc_endpoint p)).

(** *** endpoint_status *)
Definition canonical_id : string :=
  match nd_canonical_id definition with Some c => if is_empty c then cc_network_id config else c | None => cc_network_id config end.
Fixpoint capabilities_of (l : list EndpointProvider) : query (list (res capability)) :=
  match l with
  | [] => pure (Ok [])
  | p :: l =>
      let* r := outcome (provider_rpc_capabilities canonical_id p) in
      let* rest := capabilities_of l in
      pure (Ok (r :: rest))
  end.
(** [() if isinstance(result, Exception) else tuple(result)]: a cancellation is
    no Exception and no iterable. *)
Definition result_tuple {A} (r : res (list A)) : res (list A) :=
  match r with Ok l => Ok l | Raise e => if isinstance_Exception e then Ok [] else Raise TypeError end.
Definition by_endpoint (l : list candidate) : list (string * candidate) :=
  foldl (fun d c => dict_set (cd_endpoint c) c d) [] l.
Definition side (endpoint : string) (found : option candidate) : res provider_side :=
  h ← host endpoint;
  Ok match found with
     | Some c => Side h true (Some (cd_height c)) (Some (Z.min 30000 (Z.max 0 (milliseconds (cd_latency c)))))
     | None => Side h false None None
     end.
Definition unknown_capability : capability := Capability "unknown" None.
Definition row (rpc rest : list (string * candidate)) (p : EndpointProvider) (c : res capability) : res provider_row :=
  rpc_side ← side (ep_rpc_endpoint p) (dict_get (ep_rpc_endpoint p) rpc);
  api_side ← side (ep_rest_endpoint p) (dict_get (ep_rest_endpoint p) rest);
  Ok (ProviderRow (ep_id p) (ep_label p) rpc_side (match c with Ok c => c | Raise _ => unknown_capability end) api_side).
(** The first provider with the preferred endpoint *)
Definition preferred (endpoint_of : EndpointProvider -> string) (l : list candidate) : option string :=
  match l with
  | [] => None
  | c :: _ => ep_id <$> find (fun p => String.eqb (endpoint_of p) (cd_endpoint c)) (nd_endpoint_providers definition)
  end.
Definition differ (a b : option string) : bool :=
  match a, b with Some a, Some b => negb (is_empty a) && negb (is_empty b) && negb (String.eqb a b) | _, _ => false end.
Definition selected_nonempty (o : option string) : bool := match o with Some s => negb (is_empty s) | None => false end.
Definition load_status : query provider_status :=
  let providers := nd_endpoint_providers definition in
  let* rpc := outcome (cached_candidates config ticks max_entries "rpc") in
  let* rest := outcome (cached_candidates config ticks max_entries "rest") in
  let* capabilities := capabilities_of providers in
  let* _ := ct_gather in
  pure (rpc_candidates ← result_tuple rpc;
        rest_candidates ← result_tuple rest;
        let preferred_rpc := preferred ep_rpc_endpoint rpc_candidates in
        let preferred_api := preferred ep_rest_endpoint rest_candidates in
        rows ← mapM_res (fun pc => row (by_endpoint rpc_candidates) (by_endpoint rest_candidates) pc.1 pc.2) (zip providers capabilities);
        Ok {| vs_network_id := canonical_id; vs_manual := selected_nonempty (nd_selected_provider_id definition);
              vs_selected_provider_id := nd_selected_provider_id definition;
              vs_preferred_rpc_provider_id := preferred_rpc; vs_preferred_api_provider_id := preferred_api;
              vs_mixed_providers := differ preferred_rpc preferred_api; vs_providers := rows |}).
Definition endpoint_status : query provider_status :=
  get_or_load max_entries CProviderStatus (fun v => match v with CProviderStatus s => Some s | _ => None end)
    (canonical_id, KProviderStatus) (ticks (VFloat (f_of_Z 30))) load_status.
End provider_history.

(** ** What the capabilities promise *)
Section capabilities.
Context `{PyRuntime} `{NetlocCheck} `{JsonStack} {E : Type} `{CosmosEnvironment E} `{!CosmosTimer E}.
Context (definition : NetworkDefinition) (ticks : val -> Z) (milliseconds : Z -> Z) (max_entries : nat).
#[local] Abbreviation config := (nd_transport definition).
#[local] Abbreviation Good := (Good config).
#[local] Abbreviation Fails := (Fails config).

(** Whatever runs while a request sleeps keeps the cache good. *)
Class TimerLaws : Prop := {
  law_sleep : forall t (w : CosmosWorld E), cache_good Good w -> cache_good Good (ct_sleep t w).2 /\
    match (ct_sleep t w).1 with Ok _ => True | Raise e => isinstance_Exception e = false end;
  law_gather : forall (w : CosmosWorld E), cache_good Good w -> cache_good Good (ct_gather w).2 /\
    match (ct_gather w).1 with Ok _ => True | Raise e => isinstance_Exception e = false end
}.
Context `{!CosmosLaws Good Fails} `{!TimerLaws}.
#[local] Abbreviation satisfies := (satisfies (cache_good (E:=E) Good)).
#[local] Abbreviation anyQ := (fun _ => True).

Lemma satisfies_sleep seconds : satisfies (sleep ticks seconds) anyQ status_failure.
Proof.
  intros w Hw. unfold sleep. destruct (law_sleep (ticks seconds) w Hw) as [Hw' Hr]. destruct (ct_sleep _ w) as [[u|e] w']; [done|].
  split; [done|]. left. by right.
Qed.
Lemma satisfies_gather : satisfies ct_gather anyQ status_failure.
Proof.
  intros w Hw. destruct (law_gather w Hw) as [Hw' Hr]. destruct (ct_gather w) as [[u|e] w']; [done|]. split; [done|]. left. by right.
Qed.
Lemma satisfies_outcome {A} (m : query A) Q X : satisfies m Q X ->
  satisfies (outcome m) (fun r => match r with Ok a => Q a | Raise e => X e end) (fun _ => False).
Proof. intros Hm w Hw. specialize (Hm w Hw). unfold outcome. by destruct (m w) as [r w']. Qed.
(** A guarded step fails by a cancellation only. *)
Lemma satisfies_guarded {A} (m : query A) handler Q : satisfies m Q anyQ -> (forall e, satisfies (handler e) Q status_failure) ->
  satisfies (catch m caught handler) Q status_failure.
Proof.
  intros Hm Hh. apply satisfies_catch with (Y := anyQ); [done| |done]. intros e _ He. left. by right.
Qed.

Lemma node_error_text_raises payload : raises isinstance_ValueError (node_error_text payload).
Proof.
  unfold node_error_text. destruct (dget payload "error"); try (destruct (_ && _); [apply py_str_raises|done]). apply py_str_raises.
Qed.
Lemma holds_height_fails kind result h e : holds_height kind result h = Raise e ->
  isinstance_ValueError e = true \/ isinstance_TypeError e = true \/ e = OverflowError.
Proof.
  assert (forall v e, py_int v = Raise e -> isinstance_ValueError e = true \/ isinstance_TypeError e = true \/ e = OverflowError) as Hi.
  { intros v x Hv. destruct v as [| | |f|s| |]; cbn in Hv; try done; try (injection Hv as <-; tauto); [|left].
    - destruct f; try done; injection Hv as <-; tauto.
    - by eapply raises_Raise_inv; [apply py_int_str_raises|exact Hv]. }
  unfold holds_height. intros Hx. destruct (String.eqb kind "block"); [|destruct (String.eqb kind "commit")].
  - destruct (field_of _ _); try done. apply bind_Raise in Hx as [Hx|(? & _ & Hx)]; [by eapply Hi|done].
  - destruct (field_of (dget result "signed_header") "header"), (field_of (dget result "signed_header") "commit"); try done.
    apply bind_Raise in Hx as [Hx|(z & _ & Hx)]; [by eapply Hi|]. destruct (z =? h); [|done].
    apply bind_Raise in Hx as [Hx|(? & _ & Hx)]; [by eapply Hi|done].
  - apply bind_Raise in Hx as [Hx|(? & _ & Hx)]; [by eapply Hi|done].
Qed.
Lemma node_answer_fails kind h payload e : node_answer kind h payload = Raise e -> status_failure e.
Proof.
  unfold node_answer. intros Hx. apply bind_Raise in Hx as [Hx|(message & _ & Hx)].
  { right. left. eapply raises_Raise_inv; [apply node_error_text_raises|exact Hx]. }
  apply bind_Raise in Hx as [Hx|(floor & _ & Hx)].
  { right. left. unfold lowest_height in Hx. destruct (history_floor _); [|done]. unfold fmap, res_fmap in Hx.
    destruct (py_int_str _) eqn:Ei; [done|]. injection Hx as <-. by eapply raises_Raise_inv; [apply py_int_str_raises|exact Ei]. }
  destruct (negb _); [done|]. apply bind_Raise in Hx as [Hx|(? & _ & Hx)]; [|done].
  unfold valid_result in Hx. destruct (dict_get "result" payload) as [[| | | | | |result]|]; try done.
  destruct (holds_height kind result h) as [b|x] eqn:Hh; [done|]. destruct (_ || _); [done|]. injection Hx as <-.
  apply holds_height_fails in Hh. unfold status_failure. tauto.
Qed.

Lemma request_ok endpoint kind h : satisfies (request definition ticks endpoint kind h) anyQ status_failure.
Proof.
  unfold request. generalize (seqZ 0 _PROVIDER_HISTORY_RETRIES). intros l. induction l as [|a l IH]; [by apply satisfies_pure|].
  cbn [attempts]. eapply satisfies_and_then.
  { apply satisfies_guarded with (Q := anyQ); [|intros; by apply satisfies_pure].
    eapply satisfies_and_then; [eapply satisfies_impl; [by eapply satisfies_get_object|done|done]|]. intros d _. by apply satisfies_pure. }
  intros payload _. eapply satisfies_and_then with (P := anyQ).
  { apply satisfies_pure. destruct payload as [d|]; [|done]. destruct (node_answer kind h d) eqn:En; [done|]. by eapply node_answer_fails. }
  intros [x|] _; [by apply satisfies_pure|].
  eapply satisfies_and_then with (P := anyQ); [destruct (_ <? _); [apply satisfies_sleep|by apply satisfies_pure]|]. intros _ _. apply IH.
Qed.
Lemma search_floor_ok endpoint kind steps u a : u < a ->
  satisfies (search_floor definition ticks endpoint kind steps u a) (fun o => forall z, o = Some z -> u < z <= a) status_failure.
Proof.
  revert u a. induction steps as [|steps IH]; intros u a Hua; cbn [search_floor].
  - apply satisfies_pure. intros z [= <-]. lia.
  - destruct (Z.leb_spec (a - u) 1); [apply satisfies_pure; intros z [= <-]; lia|].
    eapply satisfies_and_then; [apply satisfies_sleep|]. intros _ _.
    assert (u < (u + a) / 2 < a) as Hm by (Z.to_euclidean_division_equations; lia).
    eapply satisfies_and_then; [apply request_ok|]. intros [[[|]|] r] _; cbn [fst].
    + eapply satisfies_impl; [apply (IH u ((u + a) / 2)); lia| |done]. intros o Ho z Hz. specialize (Ho z Hz). lia.
    + eapply satisfies_impl; [apply (IH ((u + a) / 2) a); lia| |done]. intros o Ho z Hz. specialize (Ho z Hz). lia.
    + by apply satisfies_pure.
Qed.
Lemma method_floor_ok endpoint kind latest : 
  satisfies (method_floor definition ticks endpoint kind (Some latest)) (fun o => forall z, o = Some z -> 1 <= z <= latest) status_failure.
Proof.
  unfold method_floor. eapply satisfies_and_then; [apply request_ok|]. intros at_one _.
  assert (forall hint, floor_hint at_one = Some hint -> 1 <= hint) as Hh.
  { destruct at_one as [[[|]|] [r|]]; cbn; intros hint; try done; try (intros [= <-]; lia);
      destruct (Z.ltb_spec 0 r); [intros [= <-]; lia|done|intros [= <-]; lia|done]. }
  destruct (floor_hint at_one) as [hint|]; [|by apply satisfies_pure]. specialize (Hh _ eq_refl).
  destruct (Z.leb_spec latest 0); [by apply satisfies_pure|]. cbn zeta.
  eapply satisfies_and_then; [apply request_ok|]. intros [[[|]|] r] _; cbn [fst].
  - apply satisfies_pure. intros z [= <-]. lia.
  - destruct (Z.leb_spec (if Z.min hint latest <? latest then latest - 1 else latest) (Z.min hint latest)); [by apply satisfies_pure|].
    eapply satisfies_and_then; [apply request_ok|]. intros [[[|]|] r2] _; cbn [fst]; try by apply satisfies_pure.
    eapply satisfies_impl; [apply search_floor_ok; lia| |done]. intros o Ho z Hz. specialize (Ho z Hz).
    destruct (_ <? latest); lia.
  - by apply satisfies_pure.
Qed.

Lemma node_state_ok canonical endpoint :
  satisfies (node_state definition canonical endpoint) (fun s => forall h, s.2 = Some h -> 1 <= h <= MAX_INT64) status_failure.
Proof.
  apply satisfies_guarded; [|intros; by apply satisfies_pure].
  eapply satisfies_and_then with (P := anyQ); [eapply satisfies_impl; [by eapply satisfies_get_object|done|done]|]. intros d _.
  eapply satisfies_and_then with (P := anyQ); [apply satisfies_pure; by destruct (host endpoint)|]. intros source _.
  apply satisfies_pure. destruct (parse_node_status _ _ _ source) as [s|] eqn:Es; [|done]. cbn. intros h [= <-].
  by apply parse_node_status_Ok in Es as (_ & _ & Hh & _).
Qed.
Lemma highest_floor_ok l z latest : highest_floor l = Some z -> Forall (fun o => forall x, o = Some x -> 1 <= x <= latest) l ->
  l <> [] -> 1 <= z <= latest.
Proof.
  unfold highest_floor. destruct ((_ =? _)%nat && _) eqn:Eq; [|done]. apply andb_true_iff in Eq as [Hn%Nat.eqb_eq _].
  intros [= <-] Hl Hne. assert (forall x, x ∈ omap id l -> 1 <= x <= latest) as Hx.
  { intros x (o & Ho & Hox)%list_elem_of_omap. rewrite Forall_forall in Hl. by apply (Hl o). }
  destruct (omap id l) as [|y ys]; [by destruct (Hne (nil_length_inv l (eq_sym Hn)))|].
  destruct (max_list_in 0 (y :: ys)) as [Hm|Hin]; [|by apply Hx].
  assert (y ∈ y :: ys) as Hy by left. pose proof (max_list_ge 0 (y :: ys) y (or_intror Hy)). pose proof (Hx y Hy). lia.
Qed.
Lemma load_capabilities_ok canonical endpoint : satisfies (load_capabilities definition ticks canonical endpoint) capability_ok status_failure.
Proof.
  unfold load_capabilities. eapply satisfies_and_then; [apply node_state_ok|]. intros [index [latest|]] Hl; cbn [fst snd]; [|by apply satisfies_pure].
  specialize (Hl latest eq_refl). destruct (Z.ltb_spec 0 latest); [|by apply satisfies_pure].
  eapply satisfies_and_then; [eapply satisfies_impl; [apply satisfies_outcome, method_floor_ok|done|done]|]. intros r1 Hr1.
  eapply satisfies_and_then; [eapply satisfies_impl; [apply satisfies_outcome, method_floor_ok|done|done]|]. intros r2 Hr2.
  eapply satisfies_and_then; [eapply satisfies_impl; [apply satisfies_outcome, method_floor_ok|done|done]|]. intros r3 Hr3.
  eapply satisfies_and_then; [apply satisfies_gather|]. intros _ _.
  eapply satisfies_and_then with (P := fun l => l <> [] /\ Forall (fun o => forall x, o = Some x -> 1 <= x <= latest) l).
  { apply satisfies_pure. destruct r1 as [o1|]; [|done]. destruct r2 as [o2|]; [|done]. destruct r3 as [o3|]; [|done]. cbn. split; [done|].
    by repeat (apply Forall_cons; split). }
  intros floors [Hne Hf]. apply satisfies_pure. intros z Hz. cbn in Hz. pose proof (highest_floor_ok _ _ _ Hz Hf Hne). lia.
Qed.
Lemma provider_rpc_capabilities_ok canonical p : satisfies (provider_rpc_capabilities definition ticks max_entries canonical p) capability_ok status_failure.
Proof.
  apply (satisfies_get_or_load Good Fails).
  - apply load_capabilities_ok.
  - done.
  - intros v Hv. destruct v; try done. by eexists.
  - done.
Qed.

(** *** The status of the providers *)
Definition result_ok (r : res capability) : Prop := match r with Ok c => capability_ok c | Raise e => status_failure e end.
Lemma capabilities_of_ok l : satisfies (capabilities_of definition ticks max_entries l)
  (fun rs => length rs = length l /\ Forall result_ok rs) (fun _ => False).
Proof.
  induction l as [|p l IH]; [by apply satisfies_pure|]. cbn [capabilities_of].
  eapply satisfies_and_then; [apply satisfies_outcome, provider_rpc_capabilities_ok|]. intros r Hr.
  eapply satisfies_and_then; [apply IH|]. intros rest [Hl Hf]. apply satisfies_pure. cbn. split; [lia|]. by constructor.
Qed.
Lemma by_endpoint_get l e c : dict_get e (by_endpoint l) = Some c -> c ∈ l.
Proof.
  unfold by_endpoint. assert (forall d, dict_get e (foldl (fun d c => dict_set (cd_endpoint c) c d) d l) = Some c -> c ∈ l \/ dict_get e d = Some c) as Hg.
  { induction l as [|x l IH]; intros d; cbn; [by right|]. intros [Hin|Hd]%IH; [left; by right|].
    destruct (decide (cd_endpoint x = e)) as [<-|Hne]; [rewrite dict_get_set in Hd; injection Hd as ->; left; left|].
    rewrite dict_get_set_ne in Hd by done. by right. }
  intros Hc. by destruct (Hg [] Hc).
Qed.
Lemma by_endpoint_has l c : c ∈ l -> is_Some (dict_get (cd_endpoint c) (by_endpoint l)).
Proof.
  unfold by_endpoint. assert (forall d, c ∈ l \/ is_Some (dict_get (cd_endpoint c) d) ->
    is_Some (dict_get (cd_endpoint c) (foldl (fun d c => dict_set (cd_endpoint c) c d) d l))) as Hg.
  { induction l as [|x l IH]; intros d Hd; cbn; [destruct Hd as [Hd|]; [by apply elem_of_nil in Hd|done]|]. apply IH.
    rewrite elem_of_cons in Hd. destruct (decide (cd_endpoint c = cd_endpoint x)) as [->|Hne].
    - right. by rewrite dict_get_set.
    - rewrite dict_get_set_ne by done. destruct Hd as [[->|Hd]|Hd]; [done|by left|by right]. }
  intros Hc. apply Hg. by left.
Qed.
Definition heights_ok (l : list candidate) : Prop := forall c, c ∈ l -> 1 <= cd_height c <= MAX_INT64.
Lemma side_Ok endpoint l s : heights_ok l -> side milliseconds endpoint (dict_get endpoint (by_endpoint l)) = Ok s ->
  side_ok s /\ (sd_healthy s = true <-> is_Some (dict_get endpoint (by_endpoint l))).
Proof.
  intros Hl. unfold side. intros (h & _ & Hs)%bind_Ok. destruct (dict_get endpoint (by_endpoint l)) as [c|] eqn:Ec; injection Hs as <-; unfold side_ok; cbn [sd_healthy sd_height sd_latency_ms].
  - apply by_endpoint_get in Ec. assert (forall A (a : A), true = true <-> is_Some (Some a)) as Hi by (intros; split; [by eexists|done]).
    split; [|apply Hi]. split; [apply Hi|]. split; [apply Hi|]. split; [intros z [= <-]; by apply Hl|intros z [= <-]; lia].
  - assert (forall A, false = true <-> is_Some (None (A:=A))) as Hi by (intros; split; [done|by intros [? ?]]).
    split; [|apply Hi]. split; [apply Hi|]. split; [apply Hi|done].
Qed.
Lemma row_Ok rpc rest p c r : heights_ok rpc -> heights_ok rest -> result_ok c -> row milliseconds (by_endpoint rpc) (by_endpoint rest) p c = Ok r ->
  pr_id r = ep_id p /\ side_ok (pr_rpc r) /\ side_ok (pr_api r) /\ capability_ok (pr_capability r) /\
  (sd_healthy (pr_rpc r) = true <-> is_Some (dict_get (ep_rpc_endpoint p) (by_endpoint rpc))) /\
  (sd_healthy (pr_api r) = true <-> is_Some (dict_get (ep_rest_endpoint p) (by_endpoint rest))).
Proof.
  intros H1' H2' Hc. unfold row. intros (s1 & [Hs1 Hh1]%side_Ok & Hr)%bind_Ok; [|done].
  apply bind_Ok in Hr as (s2 & [Hs2 Hh2]%side_Ok & Hr); [|done]. injection Hr as <-. cbn. split_and!; try done. by destruct c.
Qed.
Lemma preferred_Ok endpoint_of l id : preferred definition endpoint_of l = Some id ->
  exists p, p ∈ nd_endpoint_providers definition /\ ep_id p = id /\ is_Some (dict_get (endpoint_of p) (by_endpoint l)).
Proof.
  unfold preferred. destruct l as [|c l]; [done|]. intros Hf. apply fmap_Some in Hf as (p & Hf & ->). apply find_some in Hf as [Hin Heq%String.eqb_eq].
  exists p. split; [by apply list_elem_of_In|]. split; [done|]. rewrite Heq. apply by_endpoint_has. left.
Qed.
Lemma cached_heights kind : satisfies (cached_candidates config ticks max_entries kind) heights_ok unavailable.
Proof. eapply satisfies_impl; [by apply cached_candidates_ok| |done]. intros l Hl c Hc. by apply (ca_height _ _ _ Hl). Qed.
Lemma result_tuple_ok {A} (r : res (list A)) (Q : list A -> Prop) : Q [] -> match r with Ok l => Q l | Raise e => unavailable e end ->
  match result_tuple r with Ok l => Q l | Raise e => status_failure e end.
Proof.
  intros Hn Hr. destruct r as [l|e]; [done|]. cbn. destruct (isinstance_Exception e); [done|]. right. right. by left.
Qed.

(** What [load_status] returns for this network's own providers. *)
Definition own_rows (s : provider_status) : Prop :=
  map pr_id (vs_providers s) = map ep_id (nd_endpoint_providers definition) /\
  vs_selected_provider_id s = nd_selected_provider_id definition.
Lemma rows_Ok rpc rest l rs rows : heights_ok rpc -> heights_ok rest -> length rs = length l -> Forall result_ok rs ->
  mapM_res (fun pc => row milliseconds (by_endpoint rpc) (by_endpoint rest) pc.1 pc.2) (zip l rs) = Ok rows ->
  map pr_id rows = map ep_id l /\
  Forall (fun r => side_ok (pr_rpc r) /\ side_ok (pr_api r) /\ capability_ok (pr_capability r)) rows /\
  forall p, p ∈ l -> exists r, r ∈ rows /\ pr_id r = ep_id p /\
    (sd_healthy (pr_rpc r) = true <-> is_Some (dict_get (ep_rpc_endpoint p) (by_endpoint rpc))) /\
    (sd_healthy (pr_api r) = true <-> is_Some (dict_get (ep_rest_endpoint p) (by_endpoint rest))).
Proof.
  intros Hrpc Hrest. revert rs rows. induction l as [|p l IH]; intros [|c rs] rows Hlen Hrs; try done.
  - intros [= <-]. split; [done|]. split; [constructor|]. intros p Hp. by apply elem_of_nil in Hp.
  - cbn [zip zip_with mapM_res]. intros (r & Hr & E1)%bind_Ok. apply bind_Ok in E1 as (rest_rows & Hrows & E1). injection E1 as <-.
    apply Forall_cons in Hrs as [Hc Hrs]. destruct (IH rs rest_rows) as (Hid & Hall & Hp); [by injection Hlen|done|done|].
    apply row_Ok in Hr as (Hi & H1' & H2' & H3' & Hh1 & Hh2); [|done..]. split; [cbn; by rewrite Hi, Hid|]. split; [by apply Forall_cons|].
    intros q [->|Hq]%elem_of_cons; [exists r; split; [left|done]|]. destruct (Hp q Hq) as (r' & Hr' & Hrest'). exists r'. split; [by right|done].
Qed.
Lemma load_status_ok : satisfies (load_status definition ticks milliseconds max_entries) (fun s => provider_status_ok s /\ own_rows s) status_failure.
Proof.
  unfold load_status. eapply satisfies_and_then; [eapply satisfies_impl; [apply satisfies_outcome, cached_heights|done|done]|]. intros rpc Hrpc.
  eapply satisfies_and_then; [eapply satisfies_impl; [apply satisfies_outcome, cached_heights|done|done]|]. intros rest Hrest.
  eapply satisfies_and_then; [eapply satisfies_impl; [apply capabilities_of_ok|done|done]|]. intros rs [Hlen Hrs].
  eapply satisfies_and_then; [apply satisfies_gather|]. intros _ _. apply satisfies_pure.
  pose proof (result_tuple_ok rpc heights_ok ltac:(intros c Hc; by apply elem_of_nil in Hc) Hrpc) as H1'.
  destruct (result_tuple rpc) as [rpc_l|]; [|exact H1']. cbn [mbind res_bind].
  pose proof (result_tuple_ok rest heights_ok ltac:(intros c Hc; by apply elem_of_nil in Hc) Hrest) as H2'.
  destruct (result_tuple rest) as [rest_l|]; [|exact H2']. cbn [mbind res_bind].
  destruct (mapM_res _ _) as [rows|e] eqn:Er; cbn [mbind res_bind].
  - apply rows_Ok in Er as (Hid & Hall & Hp); [|done..]. split; [|done]. split; cbn; [done|..].
    + intros i (p & Hin & <- & Hs)%preferred_Ok. destruct (Hp p Hin) as (r & Hr & Hi & Hh & _). exists r. split; [done|]. split; [done|]. by apply Hh.
    + intros i (p & Hin & <- & Hs)%preferred_Ok. destruct (Hp p Hin) as (r & Hr & Hi & _ & Hh). exists r. split; [done|]. split; [done|]. by apply Hh.
    + intros Hd. destruct (preferred definition ep_rpc_endpoint rpc_l) as [a|], (preferred definition ep_rest_endpoint rest_l) as [b|]; try done.
      exists a, b. split; [done|]. split; [done|]. unfold differ in Hd. rewrite !andb_true_iff in Hd. destruct Hd as [_ Hd].
      by apply negb_true_iff, String.eqb_neq in Hd.
  - right. left. eapply raises_Raise_inv; [|exact Er]. apply raises_mapM. intros [p c] _. unfold row, side.
    apply raises_bind; [apply raises_bind; [apply host_raises|done]|]. intros s _.
    apply raises_bind; [apply raises_bind; [apply host_raises|done]|done].
Qed.

(** Whatever else runs: the status of the providers names a preferred
    provider only when one of its rows is that provider and healthy, a side has a
    height and a latency exactly when it is healthy, and every lowest height is a
    height; a load that is not answered from the cache has one row per provider
    of this network, in order.  Otherwise the request fails as unavailable, by a
    cancellation or by a number it cannot read. *)
Theorem provider_status_sound :
  satisfies (endpoint_status definition ticks milliseconds max_entries) provider_status_ok status_failure /\
  satisfies (load_status definition ticks milliseconds max_entries) own_rows status_failure.
Proof.
  split; [|by eapply satisfies_impl; [apply load_status_ok|intros s [_ Hs]|]].
  apply (satisfies_get_or_load Good Fails).
  - eapply satisfies_impl; [apply load_status_ok|by intros s [Hs _]|done].
  - done.
  - intros v Hv. destruct v; try done. by eexists.
  - done.
Qed.
End capabilities.

(** ** The binary search

    A node that keeps the heights from [floor] on and says so: every height up
    to [latest] is answered, and at height 1 it reports a floor that is not too
    high.  Then [method_floor] finds [floor]: at once when the reported height is
    right, and by the search when the node dropped more than it reports. *)
Section exact.
Context `{PyRuntime} `{NetlocCheck} `{JsonStack} {E : Type} `{CosmosEnvironment E} `{!CosmosTimer E}.
Context (definition : NetworkDefinition) (ticks : val -> Z) (endpoint kind : string) (floor latest : Z).

Definition answers (h : Z) : Prop := forall w : CosmosWorld E, exists r w',
  request definition ticks endpoint kind h w = (Ok (Some (floor <=? h), r), w') /\
  (h = 1 -> floor <=? h = false -> exists z, r = Some z /\ 1 <= z <= floor).
Definition wakes : Prop := forall s (w : CosmosWorld E), exists w', sleep ticks s w = (Ok tt, w').

Lemma search_floor_exact : wakes -> (forall h, 1 <= h <= latest -> answers h) ->
  forall steps u a w, 1 <= u < floor -> floor <= a <= latest -> a - u <= 2 ^ Z.of_nat steps ->
  exists w', search_floor definition ticks endpoint kind steps u a w = (Ok (Some floor), w').
Proof.
  intros Hs Ha. induction steps as [|steps IH]; intros u a w Hu Hf Hd; cbn [search_floor].
  - exists w. unfold pure. change (2 ^ Z.of_nat 0) with 1 in Hd. by replace a with floor by lia.
  - destruct (Z.leb_spec (a - u) 1); [exists w; unfold pure; by replace a with floor by lia|].
    unfold and_then at 1. destruct (Hs _PROVIDER_HISTORY_PACING w) as [w1 ->].
    rewrite Nat2Z.inj_succ, Z.pow_succ_r in Hd by lia.
    assert (u < (u + a) / 2 < a) as Hm by (Z.to_euclidean_division_equations; lia).
    unfold and_then. destruct (Ha ((u + a) / 2) ltac:(lia) w1) as (r & w2 & -> & _). cbn [fst].
    destruct (Z.leb_spec floor ((u + a) / 2)); apply IH; try lia; Z.to_euclidean_division_equations; lia.
Qed.

(** C13. A node that answers every height up to [latest], has exactly those from
    [floor] on, and at height 1 reports no floor above its own: the search
    returns exactly [floor], in any world, for up to 2^32 heights. *)
Theorem provider_floor_exact : 1 <= floor < latest -> latest <= 2 ^ 32 -> wakes -> (forall h, 1 <= h <= latest -> answers h) ->
  forall w, exists w', method_floor definition ticks endpoint kind (Some latest) w = (Ok (Some floor), w').
Proof.
  intros Hf Hl Hs Ha w. unfold method_floor, and_then at 1. destruct (Ha 1 ltac:(lia) w) as (r & w1 & -> & Hr).
  assert (exists hint, floor_hint (Some (floor <=? 1), r) = Some hint /\ 1 <= hint <= floor) as (hint & Hh & Hb).
  { destruct (Z.leb_spec floor 1); [exists 1; cbn; split; [done|lia]|]. destruct (Hr eq_refl eq_refl) as (z & -> & Hz). exists z. cbn.
    rewrite (proj2 (Z.ltb_lt 0 z)) by lia. done. }
  rewrite Hh, (proj2 (Z.leb_gt latest 0)), Z.min_l by lia. unfold and_then at 1. cbn zeta.
  destruct (Ha hint ltac:(lia) w1) as (r2 & w2 & -> & _). cbn [fst].
  destruct (Z.leb_spec floor hint); [exists w2; unfold pure; by replace hint with floor by lia|].
  rewrite (proj2 (Z.ltb_lt hint latest)), (proj2 (Z.leb_gt (latest - 1) hint)) by lia. unfold and_then at 1.
  destruct (Ha (latest - 1) ltac:(lia) w2) as (r3 & w3 & -> & _). cbn [fst]. rewrite (proj2 (Z.leb_le floor (latest - 1))) by lia.
  apply search_floor_exact; [done|done|lia|lia|]. change (2 ^ Z.of_nat _PROVIDER_HISTORY_SEARCH_LIMIT) with (2 ^ 32). lia.
Qed.
End exact.

(** ** Examples *)
#[local] Existing Instances ascii_runtime demo_netloc demo_json.

(** A node that has the heights from 5 on, and whose messages say 3. *)
Definition node_reply (h : Z) : http_reply :=
  json_reply (if h <? 5 then VDict [("error", VDict [("message", VStr "could not find block: lowest height is 3")])]
              else demo_block "hub-1" h).
Definition node_replies : list (string * http_reply) :=
  map (fun h => ("https://a.example/block?height=" +:+ str_of_Z h, node_reply h)) (seqZ 1 12).
#[local] Instance node_env : CosmosEnvironment unit := {|
  ce_clock e := (0, e);
  ce_http url w := (script_reply url node_replies, w);
  ce_join key f w := (Raise CancelledError, w)
|}.
#[local] Instance idle_timer E : CosmosTimer E := {| ct_sleep _ w := (Ok tt, w); ct_gather w := (Ok tt, w) |}.
Definition demo_provider_definition (transport : CosmosNetworkConfig) (providers : list EndpointProvider) (canonical selected : option string) : NetworkDefinition := {|
  nd_transport := transport; nd_family := "cosmos"; nd_display_name := "Hub"; nd_network_name := "Hub";
  nd_account_prefix := "hub"; nd_validator_operator_prefix := "hubvaloper"; nd_validator_consensus_prefix := "hubvalcons";
  nd_coin_type := 118; nd_assets := []; nd_coingecko_id := "hub"; nd_logo_url := "https://example.org/logo.png";
  nd_capabilities := ["overview"]; nd_endpoint_providers := providers; nd_canonical_id := canonical; nd_selected_provider_id := selected
|}.
Definition provider_a : EndpointProvider := Build_EndpointProvider "a" "A" "https://a.example" "https://rest.example".
Definition provider_b : EndpointProvider := Build_EndpointProvider "b" "B" "https://b.example" "https://rest.example".
Definition hub : NetworkDefinition := demo_provider_definition demo_config [provider_a; provider_b] None None.
Definition hub_alias : NetworkDefinition := demo_provider_definition {|
  cc_network_id := "hub-provider-a"; cc_chain_id := "hub-1"; cc_rpc_endpoints := ["https://a.example"]; cc_rest_endpoints := ["https://rest.example"];
  cc_request_timeout := VInt 10; cc_max_height_lag := 10; cc_probe_ttl := VInt 15; cc_cache_ttl := VInt 10; cc_max_response_bytes := 100000
|} [provider_a] (Some "hub") (Some "a").
Definition long_ticks (v : val) : Z := 1000.

Lemma node_answers h : 1 <= h <= 12 -> answers hub long_ticks "https://a.example" "block" 5 h.
Proof.
  intros Hh w. exists (if h <? 5 then Some 3 else None), w.
  assert (h ∈ seqZ 1 12) as Hin by (apply elem_of_seqZ; lia). cbn in Hin.
  repeat (apply elem_of_cons in Hin as [->|Hin]; [split; [vm_compute; reflexivity|intros; by first [discriminate|exists 3]]|]).
  by apply elem_of_nil in Hin.
Qed.
Lemma provider_floor_exact_witness : 1 <= 5 < 12 /\ forall w : CosmosWorld unit, exists w',
  method_floor hub long_ticks "https://a.example" "block" (Some 12) w = (Ok (Some 5), w').
Proof.
  split; [lia|]. apply (provider_floor_exact hub long_ticks "https://a.example" "block" 5 12); [lia|lia| |exact node_answers].
  intros s w. by exists w.
Defined.

#[local] Existing Instance scripted_env.
Lemma idle_laws : TimerLaws (E:=scripted) hub.
Proof. by split. Qed.
Lemma demo_status_runs : is_Ok (endpoint_status (E:=scripted) hub long_ticks (fun z => z) 100 demo_world).1 = true.
Proof. vm_compute. reflexivity. Qed.
Lemma provider_status_sound_witness :
  match (endpoint_status (E:=scripted) hub long_ticks (fun z => z) 100 demo_world).1 with Ok s => provider_status_ok s | Raise _ => False end.
Proof.
  pose proof (proj2 (proj1 (@provider_status_sound _ _ _ _ _ _ hub long_ticks (fun z => z) 100 demo_adapter_laws idle_laws) demo_world (scripted_world_good _ demo_replies))) as Hs.
  pose proof demo_status_runs as Hr. by destruct (endpoint_status _ _ _ _ _).1.
Defined.

(** The status is cached under the identifier of the canonical network, which
    its aliases share, and all services share one cache: after a request for
    the alias of one provider, the status of the network itself is that of the
    alias. *)
Example alias_status_shared :
  let '(_, w) := endpoint_status (E:=scripted) hub_alias long_ticks (fun z => z) 100 demo_world in
  let fresh_status := (endpoint_status (E:=scripted) hub long_ticks (fun z => z) 100 demo_world).1 in
  let shared_status := (endpoint_status (E:=scripted) hub long_ticks (fun z => z) 100 w).1 in
  (s ← fresh_status; Ok (vs_manual s, map pr_id (vs_providers s))) = Ok (false, ["a"; "b"]) /\
  (s ← shared_status; Ok (vs_manual s, map pr_id (vs_providers s))) = Ok (true, ["a"]).
Proof. vm_compute. done. Qed.
