(* ===== verification/Lru.v ===== *)
(** * Bounded caches of the most recently used entries

    The OrderedDict caches of the API (src/api/token_supply.py,
    src/api/asset_classification.py): a lookup moves its entry to the end or drops
    it when it is stale, a store evicts from the front. *)
From Stdlib Require Import ZArith Lia.
From stdpp Require Import base gmap sets list.
From S2P Require Import Prelude RequestCache.

Section lru.
Context {K V : Type} `{EqDecision K} (max_entries : nat).
Local Abbreviation odict := (list (K * V)).

Definition lru_get (stale : V -> bool) (key : K) (d : odict) : option V * odict :=
  match od_get key d with
  | None => (None, d)
  | Some v => if stale v then (None, od_pop key d) else (Some v, od_move_to_end key d)
  end.
Definition lru_put (key : K) (v : V) (d : odict) : odict := od_popitem_while max_entries (od_move_to_end key (od_set key v d)).

(** A history of a cache is the list of its calls, oldest first. *)
Inductive lru_call : Type :=
| Get (stale : V -> bool) (key : K)
| Put (key : K) (v : V)
| Clear.
Definition lru_step (d : odict) (c : lru_call) : odict :=
  match c with
  | Get stale key => (lru_get stale key d).2
  | Put key v => lru_put key v d
  | Clear => []
  end.
Definition lru_run (calls : list lru_call) : odict := foldl lru_step [] calls.

(** The last value stored for a key *)
Definition last_put (key : K) (calls : list lru_call) : option V :=
  foldl (fun last c => match c with
                       | Put k v => if decide (k = key) then Some v else last
                       | Clear => None
                       | Get _ _ => last
                       end) None calls.
(** A call that keeps the entry of [key], which holds [v], and the key it uses *)
Definition keeps_entry (key : K) (v : V) (c : lru_call) : Prop :=
  match c with
  | Get stale k => k = key -> stale v = false
  | Put k _ => k <> key
  | Clear => False
  end.
Definition used_key (c : lru_call) : list K := match c with Get _ k | Put k _ => [k] | Clear => [] end.

Lemma od_pop_set k v (d : odict) : od_pop k (od_set k v d) = od_pop k d.
Proof.
  unfold od_pop. induction d as [|[j w] d IH]; cbn [od_set]; [by rewrite filter_cons_False by (intros Hf; by apply Hf)|].
  case_decide as Ej; subst.
  - rewrite !filter_cons_False by (intros Hf; by apply Hf). done.
  - rewrite !filter_cons_True by done. by rewrite IH.
Qed.
Lemma od_get_set k v (d : odict) : od_get k (od_set k v d) = Some v.
Proof. induction d as [|[j w] d IH]; cbn [od_set]; [cbn; by rewrite decide_True|]. case_decide as Ej; cbn; [by rewrite decide_True|by rewrite decide_False]. Qed.
Lemma lru_put_eq key v items :
  lru_put key v items =
  let d := od_pop key items ++ [(key, v)] in drop (length d - max_entries) d.
Proof. unfold lru_put, od_move_to_end. by rewrite od_get_set, od_pop_set, od_popitem_drop. Qed.
Lemma od_get_In (d : odict) k v : NoDup d.*1 -> (k, v) ∈ d -> od_get k d = Some v.
Proof.
  induction d as [|[j w] d IH]; [by intros _ ?%elem_of_nil|]. rewrite fmap_cons. intros [Hj Hd]%NoDup_cons. rewrite elem_of_cons. cbn.
  intros [[= -> ->]|Hin]; [by rewrite decide_True|]. rewrite decide_False; [by apply IH|]. intros ->. apply Hj. cbn. by apply (list_elem_of_fmap_2 fst) in Hin.
Qed.

(** What a call does to the list: it drops entries and may append one. *)
Lemma lru_step_shape items c : exists n kept new, lru_step items c = drop n (kept ++ new) /\ kept `sublist_of` items /\
  (length new <= 1)%nat /\ (forall i, i ∈ new -> i.1 ∉ kept.*1 /\ i.1 ∈ used_key c).
Proof.
  destruct c as [stale key|key v|]; cbn [lru_step used_key].
  - unfold lru_get. destruct (od_get key items) as [v|] eqn:Eg.
    + destruct (stale v); cbn [snd].
      * exists 0%nat, (od_pop key items), []. rewrite app_nil_r, drop_0. split_and!; [done|apply filter_sublist|cbn; lia|]. by intros i ?%elem_of_nil.
      * exists 0%nat, (od_pop key items), [(key, v)]. unfold od_move_to_end. rewrite Eg, drop_0.
        split_and!; [done|apply filter_sublist|cbn; lia|]. intros i ->%list_elem_of_singleton. cbn. split; [apply od_pop_keys|left].
    + exists 0%nat, items, []. rewrite app_nil_r, drop_0. split_and!; [done|done|cbn; lia|]. by intros i ?%elem_of_nil.
  - exists (length (od_pop key items ++ [(key, v)]) - max_entries)%nat, (od_pop key items), [(key, v)].
    rewrite lru_put_eq. split_and!; [done|apply filter_sublist|cbn; lia|]. intros i ->%list_elem_of_singleton. cbn. split; [apply od_pop_keys|left].
  - exists 0%nat, [], []. split_and!; [done|apply sublist_nil_l|cbn; lia|]. by intros i ?%elem_of_nil.
Qed.
Lemma lru_step_NoDup items c : NoDup items.*1 -> NoDup (lru_step items c).*1.
Proof.
  intros Hd. destruct (lru_step_shape items c) as (n & kept & new & -> & Hk & Hn & Hnew).
  eapply sublist_NoDup; [|apply fmap_sublist, sublist_drop]. rewrite fmap_app. apply NoDup_app.
  split; [eapply sublist_NoDup; [exact Hd|by apply fmap_sublist]|]. split.
  - intros x Hx (i & -> & Hi)%list_elem_of_fmap. by destruct (Hnew i Hi) as [? _].
  - destruct new as [|i [|]]; cbn in Hn; [constructor|apply NoDup_singleton|lia].
Qed.
Lemma lru_run_NoDup calls : NoDup (lru_run calls).*1.
Proof.
  unfold lru_run. assert (forall items, NoDup items.*1 -> NoDup (foldl lru_step items calls).*1) as Hg; [|apply Hg; constructor].
  induction calls as [|c calls IH]; intros items Hi; [done|]. cbn. by apply IH, lru_step_NoDup.
Qed.
Lemma lru_step_length items c : (length items <= max_entries)%nat -> (length (lru_step items c) <= max_entries)%nat.
Proof.
  intros Hl. destruct c as [stale key|key v|]; cbn [lru_step]; [|rewrite lru_put_eq; cbn zeta; rewrite length_drop; lia|cbn; lia].
  unfold lru_get. destruct (od_get key items) as [v|] eqn:Eg; [|done].
  assert (length (od_pop key items) <= length items)%nat as Hp by apply sublist_length, filter_sublist.
  destruct (stale v); cbn [snd]; [lia|]. unfold od_move_to_end. rewrite Eg, length_app. cbn.
  assert (length (od_pop key items) < length items)%nat; [|lia]. apply od_get_Some in Eg.
  by apply (length_filter_lt _ _ _ Eg); intros Hf; apply Hf.
Qed.

(** Every stored value is the last one put for its key. *)
Lemma lru_run_sound calls key v : (key, v) ∈ lru_run calls -> last_put key calls = Some v.
Proof.
  unfold lru_run, last_put. revert v. induction calls as [|c calls IH] using rev_ind; intros v; [by intros ?%elem_of_nil|].
  rewrite !foldl_snoc. set (items := foldl lru_step [] calls) in *. intros Hin. destruct c as [stale k|k x|]; cbn [lru_step] in Hin.
  - apply IH. unfold lru_get in Hin. destruct (od_get k items) as [w|]; [|done]. destruct (stale w); cbn [snd] in Hin; [by apply list_elem_of_filter in Hin as [_ ?]|].
    by apply elem_of_od_move_to_end in Hin.
  - rewrite lru_put_eq in Hin. eapply elem_of_sublist in Hin; [|apply sublist_drop]. apply elem_of_app in Hin as [Hin|Hin].
    + apply list_elem_of_filter in Hin as [Hk Hin]. cbn in Hk. rewrite decide_False by congruence. by apply IH.
    + apply list_elem_of_singleton in Hin as [= -> ->]. by rewrite decide_True.
  - by apply elem_of_nil in Hin.
Qed.

(** An entry stays while fewer than [max_entries] other keys are used: what
    lies behind it are used keys. *)
Lemma lru_step_keeps key v items c used :
  NoDup items.*1 -> keeps_entry key v c ->
  (exists front back, items = front ++ (key, v) :: back /\ back.*1 ⊆ used) ->
  (length (dedup (filter (fun k => k <> key) (used ++ used_key c))) < max_entries)%nat ->
  exists front back, lru_step items c = front ++ (key, v) :: back /\ back.*1 ⊆ used ++ used_key c.
Proof.
  intros Hd Hc (front & back & Heq & Hb) Hlen.
  assert ((key, v) ∈ items) as Hin by (rewrite Heq; set_solver).
  pose proof (od_get_In _ _ _ Hd Hin) as Hg.
  (* popping another key keeps the entry between the two parts *)
  assert (forall k, k <> key -> od_pop k items = od_pop k front ++ (key, v) :: od_pop k back) as Hpop.
  { intros k Hk. rewrite Heq. unfold od_pop. rewrite filter_app, filter_cons_True by done. done. }
  assert (forall k (l : odict), (od_pop k l).*1 ⊆ l.*1) as Hsub.
  { intros k l x (i & -> & [_ Hi]%list_elem_of_filter)%list_elem_of_fmap. by apply list_elem_of_fmap_2. }
  destruct c as [stale k|k nv|]; [| |done]; cbn [lru_step used_key keeps_entry] in *.
  - destruct (decide (k = key)) as [->|Hk].
    + unfold lru_get. rewrite Hg. rewrite (Hc eq_refl). cbn [snd].
      unfold od_move_to_end. rewrite Hg. exists (od_pop key items), []. split; [done|]. intros x Hx. by apply elem_of_nil in Hx.
    + unfold lru_get. destruct (od_get k items) as [v'|] eqn:Eg; [|exists front, back; split; [done|set_solver]].
      destruct (stale v'); cbn [snd].
      * exists (od_pop k front), (od_pop k back). split; [by apply Hpop|]. specialize (Hsub k back). set_solver.
      * unfold od_move_to_end. rewrite Eg, Hpop by done. exists (od_pop k front), (od_pop k back ++ [(k, v')]).
        split; [by rewrite <-app_assoc|]. rewrite fmap_app. specialize (Hsub k back). set_solver.
  - rewrite lru_put_eq. cbn zeta. rewrite Hpop, <-app_assoc by done. cbn [app].
    set (back' := od_pop k back ++ [(k, nv)]).
    assert (back'.*1 ⊆ filter (fun k => k <> key) (used ++ [k])) as Hb'.
    { intros x Hx. apply list_elem_of_filter. unfold back' in Hx. rewrite fmap_app in Hx. apply elem_of_app in Hx as [Hx|Hx].
      - apply Hsub in Hx. split; [|set_solver]. intros ->. rewrite Heq, fmap_app, fmap_cons in Hd. apply NoDup_app in Hd as (_ & _ & [Hk _]%NoDup_cons). done.
      - apply list_elem_of_singleton in Hx as ->. cbn. split; [done|set_solver]. }
    assert (NoDup back'.*1) as Hnd.
    { unfold back'. rewrite fmap_app. apply NoDup_app. split; [|split; [|apply NoDup_singleton]].
      - apply od_filter_NoDup. rewrite Heq, fmap_app, fmap_cons in Hd. apply NoDup_app in Hd as (_ & _ & [_ Hd]%NoDup_cons). done.
      - intros x Hx ->%list_elem_of_singleton. by apply (od_pop_keys k back). }
    assert (length back' < max_entries)%nat as Hlb.
    { rewrite <-(length_fmap fst back'). eapply Nat.le_lt_trans; [|exact Hlen]. apply submseteq_length, NoDup_submseteq; [done|].
      intros x Hx. apply elem_of_dedup. by apply Hb'. }
    rewrite length_app. cbn [length]. rewrite drop_app_le by lia.
    eexists _, back'. split; [done|]. intros x Hx%Hb'. by apply list_elem_of_filter in Hx as [_ ?].
Qed.
Lemma lru_run_keeps key v calls items used :
  NoDup items.*1 -> (exists front back, items = front ++ (key, v) :: back /\ back.*1 ⊆ used) ->
  Forall (keeps_entry key v) calls ->
  (length (dedup (filter (fun k => k <> key) (used ++ flat_map used_key calls))) < max_entries)%nat ->
  (key, v) ∈ foldl lru_step items calls.
Proof.
  revert items used. induction calls as [|c calls IH]; intros items used Hd Hi Hc Hl.
  - destruct Hi as (front & back & -> & _). set_solver.
  - apply Forall_cons in Hc as [Hc Hcs]. cbn [foldl]. cbn [flat_map] in Hl. rewrite app_assoc in Hl.
    eapply (IH _ (used ++ used_key c)); [by apply lru_step_NoDup| |done|done].
    apply lru_step_keeps; [done|done|done|]. eapply Nat.le_lt_trans; [|exact Hl].
    apply submseteq_length, NoDup_submseteq; [apply NoDup_dedup|]. intros x. rewrite !elem_of_dedup, !list_elem_of_filter. set_solver.
Qed.

(** After any calls: the cache holds at most [max_entries] values, one per key; a
    lookup that answers gives the last value stored for the key, not stale; and a
    stored value that is not stale is found, unless the cache was cleared, the
    key was stored again, or [max_entries] other keys were used since. *)
Lemma lru_exact calls stale key :
  (length (lru_run calls) <= max_entries)%nat /\ NoDup (lru_run calls).*1 /\
  (forall v, (lru_get stale key (lru_run calls)).1 = Some v -> last_put key calls = Some v /\ stale v = false) /\
  (forall before v after, calls = before ++ Put key v :: after -> Forall (keeps_entry key v) after -> stale v = false ->
     (length (dedup (filter (fun k => k <> key) (flat_map used_key after))) < max_entries)%nat ->
     (lru_get stale key (lru_run calls)).1 = Some v).
Proof.
  split_and!.
  - unfold lru_run. assert (forall items, (length items <= max_entries)%nat -> (length (foldl lru_step items calls) <= max_entries)%nat) as Hg; [|apply Hg; cbn; lia].
    induction calls as [|c l IH]; intros items Hi; [done|]. cbn. by apply IH, lru_step_length.
  - apply lru_run_NoDup.
  - intros v. unfold lru_get. destruct (od_get key _) as [w|] eqn:Eg; [|done]. apply od_get_Some in Eg.
    destruct (stale w) eqn:Es; [done|]. cbn. intros [= <-]. split; [by apply lru_run_sound|done].
  - intros before v after -> Hk Ht Hl.
    assert ((key, v) ∈ lru_run (before ++ Put key v :: after)) as Hin.
    { unfold lru_run. rewrite foldl_app. cbn [foldl].
      apply (lru_run_keeps key v after _ []); [apply lru_step_NoDup, lru_run_NoDup| |done|done].
      cbn [lru_step]. rewrite lru_put_eq. cbn zeta. rewrite length_app. cbn [length].
      rewrite drop_app_le by lia. eexists _, []. split; [done|]. intros x Hx. by apply elem_of_nil in Hx. }
    unfold lru_get. rewrite (od_get_In _ _ _ (lru_run_NoDup _) Hin). by rewrite Ht.
Qed.
End lru.
#[global] Arguments lru_call : clear implicits.
