(* ===== verification/TokenSupply.v ===== *)
(** * api/token_supply.py: runtime supplies of tokens

    The least-recently-used cache of supplies with its lifetime, the readers of
    the two answers, and the placing of the decimal point.  A method of the
    cache holds its lock from the first access to its end, so a call is one step;
    the reading of the clock before it is an argument. *)
From Stdlib Require Import ZArith Lia Ascii String.
From stdpp Require Import base gmap sets list strings.
From S2P Require Import Prelude PyStr PyVal Scan Json InspectRpc RequestCache Lru Digits.
Open Scope Z_scope.

Definition TOKEN_SUPPLY_RPC_TIMEOUT_SECONDS : Z := 3.
Definition TOKEN_SUPPLY_CACHE_TTL_SECONDS : Z := 300.
Definition TOKEN_SUPPLY_CACHE_MAX_ENTRIES : nat := 512.
Definition NATIVE_GNOT_DENOM : string := "ugnot".
Definition NATIVE_GNOT_DECIMALS : Z := 6.

(** ** TokenSupplyCache

    [CachedSupply] is the time of storing and the supply; the items are in the
    order of the OrderedDict, the least recently used first. *)
Definition supply_key : Type := string * string.                  (* chain, path *)
Definition supply_items : Type := list (supply_key * (Z * string)).
Section cache.
Context (ttl_seconds : Z) (max_entries : nat).

Definition supply_get (now : Z) (key : supply_key) (items : supply_items) : option string * supply_items :=
  match od_get key items with
  | None => (None, items)
  | Some (stored_at, raw_total_supply) =>
      if ttl_seconds <=? now - stored_at then (None, od_pop key items)
      else (Some raw_total_supply, od_move_to_end key items)
  end.
Definition supply_put (now : Z) (key : supply_key) (raw_total_supply : string) (items : supply_items) : supply_items :=
  od_popitem_while max_entries (od_move_to_end key (od_set key (now, raw_total_supply) items)).
Definition supply_clear (items : supply_items) : supply_items := [].
End cache.

(** ** The readers of an answer *)
Section readers.
Context `{PyRuntime} `{JsonStack}.

(** What may follow the digits: the type of the value. *)
Definition int_types : list string :=
  flat_map (fun t => map (fun n => t +:+ n) [""; "8"; "16"; "32"; "64"]) ["int"; "uint"] ++ ["big.Int"].
Definition closes (l : list string) : bool :=
  match l with [] => true | [g] => char_is ")" g | _ => false end.
Definition qresult_tail (l : list string) : bool :=
  closes l ||
  match spaces1 l with
  | Some l => existsb (fun t => match literal t l with Some l => closes l | None => false end) int_types
  | None => false
  end.
(** [_QRESULT_RE.fullmatch]: the digits of the group *)
Definition qresult (l : list string) : option string :=
  let l := match take_char "(" l with Some l => l | None => l end in
  let '(digits, rest) := span_chars char_digit l in
  match digits with
  | [] => None
  | _ => if qresult_tail rest then Some (str_concat digits) else None
  end.
Definition parse_total_supply (value : val) : option string :=
  match value with
  | VStr s => if String.eqb s (py_strip s) && (py_len s <=? 512) then qresult (chars s) else None
  | _ => None
  end.

(** [s.lstrip("0") or "0"] *)
Definition strip_zeros (s : string) : string := let t := py_lstrip_char "0" s in if String.eqb t "" then "0" else t.
(** [re.fullmatch] of a quoted numeral *)
Definition quoted_digits (l : list string) : bool :=
  match l with
  | g :: l => String.eqb g dquote &&
      (let '(digits, rest) := span_chars char_digit l in negb (bool_decide (digits = [])) && bool_decide (rest = [dquote]))
  | [] => false
  end.
Definition is_decode_error (e : exc) : bool := bool_decide (e = json_error) || bool_decide (e = RecursionError).
Definition parse_native_bank_supply (value : val) : res (option string) :=
  match value with
  | VStr s =>
      if String.eqb s (py_strip s) && (py_len s <=? 514) then
        match json_loads_str Ok s with
        | Raise e => if is_decode_error e then Ok None else Raise e
        | Ok (VStr decoded) => Ok (if (py_len decoded <=? 512) && quoted_digits (chars s) then Some (strip_zeros decoded) else None)
        | Ok _ => Ok None
        end
      else Ok None
  | _ => Ok None
  end.

(** [s.zfill(width)] of a text without a sign *)
Definition zfill (width : Z) (s : string) : string := string_of_list (replicate (Z.to_nat (width - py_len s)) "0"%char) +:+ s.
(** [s[:-n]] and [s[-n:]] for n other than 0 *)
Definition slice_point (n : Z) (l : list string) : nat :=
  if 0 <? n then (length l - Z.to_nat n)%nat else Nat.min (Z.to_nat (- n)) (length l).
Definition decimal_amount (raw_total_supply : string) (decimals : Z) : string :=
  let digits := strip_zeros raw_total_supply in
  if decimals =? 0 then digits
  else
    let l := chars (zfill (decimals + 1) digits) in
    let whole := str_concat (take (slice_point decimals l) l) in
    let fraction := py_rstrip_char "0" (str_concat (drop (slice_point decimals l) l)) in
    if String.eqb fraction "" then whole else whole +:+ "." +:+ fraction.
End readers.

(** The two queries, through the client of one endpoint: [get] is its request
    for [abci_query] ([InspectRpc.abci_query]). *)
Section queries.
Context `{PyRuntime} `{JsonStack}.
Definition query_total_supply (get : list (string * val) -> res val) (path : string) : res (option string) :=
  answer ← abci_query get "vm/qeval" (VStr (path +:+ ".TotalSupply()")) VNone;
  Ok (parse_total_supply (VStr answer)).
Definition query_native_gnot_supply (get : list (string * val) -> res val) : res (option string) :=
  answer ← abci_query get ("bank/supply/" +:+ NATIVE_GNOT_DENOM) (VStr "") VNone;
  parse_native_bank_supply (VStr answer).
End queries.

(** ** The cache is an [Lru] whose entries go stale *)
Inductive supply_call : Type :=
| GetSupply (now : Z) (key : supply_key)
| PutSupply (now : Z) (key : supply_key) (raw_total_supply : string)
| ClearSupplies.
Section cache_proofs.
Context (ttl_seconds : Z) (max_entries : nat).

Definition supply_step (items : supply_items) (c : supply_call) : supply_items :=
  match c with
  | GetSupply now key => (supply_get ttl_seconds now key items).2
  | PutSupply now key raw => supply_put max_entries now key raw items
  | ClearSupplies => supply_clear items
  end.
Definition supply_run (calls : list supply_call) : supply_items := foldl supply_step [] calls.

Definition expired (now : Z) (item : Z * string) : bool := ttl_seconds <=? now - item.1.
Definition to_lru (c : supply_call) : lru_call supply_key (Z * string) :=
  match c with
  | GetSupply now key => Get (expired now) key
  | PutSupply now key raw => Put key (now, raw)
  | ClearSupplies => Clear
  end.
Lemma supply_get_lru now key items :
  supply_get ttl_seconds now key items = (snd <$> (lru_get (expired now) key items).1, (lru_get (expired now) key items).2).
Proof.
  unfold supply_get, lru_get, expired. destruct (od_get key items) as [[t raw]|]; [|done]. cbn [fst]. by destruct (ttl_seconds <=? now - t).
Qed.
Lemma supply_run_lru calls : supply_run calls = lru_run max_entries (to_lru <$> calls).
Proof.
  unfold supply_run, lru_run. generalize (@nil (supply_key * (Z * string))). induction calls as [|c calls IH]; intros items; [done|].
  cbn [fmap list_fmap foldl]. rewrite <-IH. f_equal. destruct c; [|done..]. cbn. by rewrite supply_get_lru.
Qed.

(** C29. After any calls: the cache holds at most [max_entries] supplies, one per
    key; a lookup that answers gives the last supply stored for the key, less
    than a lifetime ago; and a supply stored less than a lifetime ago is found,
    unless the cache was cleared, the key was stored again, or [max_entries]
    other keys were used since. *)
Theorem supply_cache_exact calls now key :
  (length (supply_run calls) <= max_entries)%nat /\ NoDup (supply_run calls).*1 /\
  (forall raw, (supply_get ttl_seconds now key (supply_run calls)).1 = Some raw ->
     exists t, last_put key (to_lru <$> calls) = Some (t, raw) /\ now - t < ttl_seconds) /\
  (forall before t raw after, calls = before ++ PutSupply t key raw :: after ->
     Forall (fun c => keeps_entry key (t, raw) (to_lru c)) after -> now - t < ttl_seconds ->
     (length (dedup (filter (fun k => k <> key) (flat_map used_key (to_lru <$> after)))) < max_entries)%nat ->
     (supply_get ttl_seconds now key (supply_run calls)).1 = Some raw).
Proof.
  rewrite supply_run_lru, supply_get_lru. destruct (lru_exact max_entries (to_lru <$> calls) (expired now) key) as (Hl & Hd & Hs & Hf).
  split_and!; [done|done| |].
  - intros raw ([t raw'] & Hg & [= ->])%fmap_Some. destruct (Hs _ Hg) as [Hp He]. exists t. split; [done|]. by apply Z.leb_gt.
  - intros before t raw after -> Hk Ht Hu. cbn [fst]. rewrite (Hf (to_lru <$> before) (t, raw) (to_lru <$> after)); [done|by rewrite fmap_app|by apply Forall_fmap| |done].
    by apply Z.leb_gt.
Qed.
End cache_proofs.

(** ** The decimal point *)
Definition lz (ds : list Z) : list Z := drop_while (fun d => d =? 0) ds.       (* without leading zeros *)
Definition rz (ds : list Z) : list Z := reverse (lz (reverse ds)).             (* without trailing zeros *)
Lemma is_zero_sing d : digit d -> is_char "0" (sing d) = (d =? 0).
Proof. intros Hd. apply (digit_cases (fun d => is_char "0" (sing d) = (d =? 0)) d Hd). by repeat constructor. Qed.
Lemma drop_zeros_sing ds : Forall digit ds -> drop_while (is_char "0") (map sing ds) = map sing (lz ds).
Proof. induction 1 as [|d ds Hd _ IH]; [done|]. unfold lz in *. cbn [map drop_while]. rewrite is_zero_sing by done. by destruct (d =? 0). Qed.
Lemma text_sing ds : Forall digit ds -> str_concat (map sing ds) = digits_str ds.
Proof. intros Hd. by rewrite <-chars_digits_str, str_concat_chars. Qed.
Lemma lz_digits ds : Forall digit ds -> Forall digit (lz ds).
Proof. intros Hd. eapply Forall_sublist; [apply drop_while_sublist|done]. Qed.
Lemma rz_digits ds : Forall digit ds -> Forall digit (rz ds).
Proof. intros Hd. by apply Forall_reverse, lz_digits, Forall_reverse. Qed.
Lemma lstrip_zeros ds : Forall digit ds -> py_lstrip_char "0" (digits_str ds) = digits_str (lz ds).
Proof. intros Hd. unfold py_lstrip_char. by rewrite chars_digits_str, drop_zeros_sing, text_sing by auto using lz_digits. Qed.
Lemma rstrip_zeros ds : Forall digit ds -> py_rstrip_char "0" (digits_str ds) = digits_str (rz ds).
Proof.
  intros Hd. unfold py_rstrip_char, rz. rewrite chars_digits_str, <-fmap_reverse, drop_zeros_sing by (first [done|by apply Forall_reverse]).
  change (map sing (lz (reverse ds))) with (sing <$> lz (reverse ds)). rewrite <-fmap_reverse. apply text_sing, Forall_reverse, lz_digits. by apply Forall_reverse.
Qed.
Lemma lz_split ds : exists n, ds = replicate n 0 ++ lz ds.
Proof.
  induction ds as [|d ds [n IH]]; [by exists 0%nat|]. unfold lz in *. cbn [drop_while]. destruct (Z.eqb_spec d 0) as [->|]; [|by exists 0%nat].
  exists (S n). cbn. by f_equal.
Qed.
Lemma lz_head ds d l : lz ds = d :: l -> d <> 0.
Proof. unfold lz. induction ds as [|e ds IH]; [done|]. cbn. destruct (Z.eqb_spec e 0); [done|]. by intros [= <- _]. Qed.
Lemma zeros_value n : digits_value (replicate n 0) = 0.
Proof. unfold digits_value. induction n as [|n IH]; [done|]. cbn. exact IH. Qed.
Lemma lz_value ds : digits_value (lz ds) = digits_value ds.
Proof. destruct (lz_split ds) as [n Hn]. rewrite Hn at 2. rewrite digits_value_app, zeros_value. lia. Qed.
Lemma rz_split ds : exists n, ds = rz ds ++ replicate n 0.
Proof.
  destruct (lz_split (reverse ds)) as [n Hn]. exists n. apply (f_equal reverse) in Hn.
  by rewrite reverse_involutive, reverse_app, reverse_replicate in Hn.
Qed.
Lemma rz_last ds : last (rz ds) <> Some 0.
Proof.
  unfold rz. rewrite last_reverse. destruct (lz (reverse ds)) as [|d l] eqn:El; [done|]. apply lz_head in El. cbn. congruence.
Qed.
Lemma digits_str_eq_nil ds : digits_str ds = "" <-> ds = [].
Proof. split; [|by intros ->]. by destruct ds. Qed.
Lemma digits_str_app ds es : digits_str (ds ++ es) = digits_str ds +:+ digits_str es.
Proof.
  unfold digits_str, string_of_list. rewrite map_app. induction (map digit_char ds) as [|a l IH]; [done|]. cbn. by rewrite IH.
Qed.
(** A numeral without leading zeros, or 0 *)
Definition canonical (ws : list Z) : Prop := ws = [0] \/ exists d l, ws = d :: l /\ d <> 0.
Lemma strip_zeros_digits ds : Forall digit ds -> exists cs, strip_zeros (digits_str ds) = digits_str cs /\
  Forall digit cs /\ canonical cs /\ digits_value cs = digits_value ds.
Proof.
  intros Hd. unfold strip_zeros. rewrite lstrip_zeros by done. cbn zeta. pose proof (lz_value ds) as Hv. pose proof (lz_digits _ Hd) as Hl.
  destruct (String.eqb_spec (digits_str (lz ds)) "") as [E0|E0].
  - apply digits_str_eq_nil in E0. rewrite E0 in Hv. exists [0]. split; [done|]. split; [repeat constructor; unfold digit; lia|]. split; [by left|done].
  - exists (lz ds). split_and!; [done|done| |done]. right. destruct (lz ds) as [|d l] eqn:El; [done|]. exists d, l. split; [done|]. by eapply lz_head.
Qed.

(** The decimal point is placed exactly: the text is a numeral without
    leading zeros and, after a point, at most [decimals] digits without trailing
    zeros, and its value times 10^[decimals] is the raw supply. *)
Theorem decimal_amount_exact ds decimals : Forall digit ds -> 0 <= decimals ->
  exists ws fs, decimal_amount (digits_str ds) decimals = digits_str ws +:+ (if decide (fs = []) then "" else "." +:+ digits_str fs) /\
    Forall digit ws /\ Forall digit fs /\ canonical ws /\ last fs <> Some 0 /\ Z.of_nat (length fs) <= decimals /\
    digits_value ws * 10 ^ decimals + digits_value fs * 10 ^ (decimals - Z.of_nat (length fs)) = digits_value ds.
Proof.
  intros Hd Hn. destruct (strip_zeros_digits ds Hd) as (cs & Hs & Hc & Hcan & Hv). unfold decimal_amount. rewrite Hs.
  destruct (Z.eqb_spec decimals 0) as [->|Hne].
  { exists cs, []. rewrite decide_True by done. split_and!; try done; [by rewrite str_app_nil_r|cbn; lia]. }
  unfold zfill. rewrite py_len_digits_str by done.
  set (k := Z.to_nat (decimals + 1 - Z.of_nat (length cs))).
  assert (string_of_list (replicate k "0"%char) = digits_str (replicate k 0)) as -> by (unfold digits_str; f_equal; symmetry; apply (fmap_replicate digit_char)).
  rewrite <-digits_str_app.
  set (l := replicate k 0 ++ cs). assert (Forall digit l) as Hl by (apply Forall_app; split; [apply Forall_replicate; unfold digit; lia|done]).
  rewrite chars_digits_str by done. cbn zeta. unfold slice_point. rewrite length_map, (proj2 (Z.ltb_lt 0 decimals)) by lia.
  set (m := (length l - Z.to_nat decimals)%nat). assert (length l = k + length cs)%nat as Hlen by (unfold l; by rewrite length_app, length_replicate).
  assert (1 <= length cs)%nat as Hc1 by (destruct Hcan as [->|(? & ? & -> & _)]; cbn; lia).
  change (take m (map sing l)) with (take m (sing <$> l)). change (drop m (map sing l)) with (drop m (sing <$> l)).
  rewrite <-fmap_take, <-fmap_drop. rewrite !text_sing, rstrip_zeros by (first [done|by apply Forall_take|by apply Forall_drop]).
  set (fs := rz (drop m l)). destruct (rz_split (drop m l)) as [z Hz]. fold fs in Hz.
  assert (length (drop m l) = Z.to_nat decimals) as Hdl by (rewrite length_drop; unfold m; lia).
  assert (length fs + z = Z.to_nat decimals)%nat as Hfz by (rewrite <-Hdl, Hz at 1; rewrite length_app, length_replicate; done).
  exists (take m l), fs. split_and!.
  - destruct (String.eqb_spec (digits_str fs) "") as [E0|E0].
    + apply digits_str_eq_nil in E0. by rewrite decide_True, str_app_nil_r by done.
    + rewrite decide_False; [done|]. intros E1. apply E0. by rewrite E1.
  - by apply Forall_take.
  - by apply rz_digits, Forall_drop.
  - destruct (Z.le_gt_cases (decimals + 1) (Z.of_nat (length cs))) as [Hge|Hlt].
    + assert (k = 0%nat) as Hk by (unfold k; lia). unfold m, l in *. rewrite Hk in *. cbn [replicate app] in *.
      destruct Hcan as [->|(d & cs' & -> & Hd0)]; [cbn in Hge; lia|]. right. cbn [length] in *.
      destruct (S (length cs') - Z.to_nat decimals)%nat as [|m'] eqn:Em; [lia|]. exists d, (take m' cs'). done.
    + assert (m = 1%nat) as Hm by (unfold m, k in *; lia). left. rewrite Hm. unfold l. destruct k as [|k'] eqn:Ek; [unfold k in Ek; lia|]. done.
  - apply rz_last.
  - lia.
  - assert (digits_value l = digits_value cs) as Hlv by (unfold l; rewrite digits_value_app, zeros_value; lia). 
    assert (digits_value l = digits_value (take m l) * 10 ^ decimals + digits_value (drop m l)) as Hsum.
    { rewrite <-(take_drop m l) at 1. rewrite digits_value_app, Hdl, Z2Nat.id by lia. done. }
    assert (digits_value (drop m l) = digits_value fs * 10 ^ Z.of_nat z) as Hfrac.
    { rewrite Hz, digits_value_app, zeros_value, length_replicate. lia. }
    replace (decimals - Z.of_nat (length fs)) with (Z.of_nat z) by lia. lia.
Qed.

(** ** Printed answers are read back *)
Section printed.
Context `{PyRuntime} `{JsonStack}.

Definition printed (head : ascii) (ds : list Z) (tail : list ascii) : string := string_of_list (head :: map digit_char ds ++ tail).
Lemma digit_char_char d : digit d -> char_digit (sing d) = true /\ is_byte 34 (digit_char d) = false /\
  (byte_Z (digit_char d) <? 32) = false /\ is_byte 92 (digit_char d) = false.
Proof.
  intros Hd. apply (digit_cases (fun d => char_digit (sing d) = true /\ is_byte 34 (digit_char d) = false /\
    (byte_Z (digit_char d) <? 32) = false /\ is_byte 92 (digit_char d) = false) d Hd). by repeat constructor.
Qed.
Lemma chars_printed head ds tail : forallb is_ascii_byte (head :: tail) = true -> Forall digit ds ->
  chars (printed head ds tail) = String head EmptyString :: map sing ds ++ map (fun a => String a EmptyString) tail.
Proof.
  intros Ha Hd. unfold printed. rewrite chars_ascii.
  - rewrite list_of_string_of_list. cbn [map]. rewrite map_app, map_map. done.
  - unfold is_ascii. rewrite str_forallb_of_list. cbn in Ha |- *. apply andb_true_iff in Ha as [-> Ha]. rewrite forallb_app, Ha, andb_true_r. cbn.
    clear -Hd. induction Hd as [|d ds Hd _ IH]; [done|]. cbn. by rewrite digit_char_ascii, IH.
Qed.
(** A text that begins and ends with other characters than spaces *)
Lemma strip_chars_ends g l h : is_space_char g = false -> is_space_char h = false -> strip_chars is_space_char (g :: l ++ [h]) = g :: l ++ [h].
Proof.
  intros Hg Hh. unfold strip_chars. cbn [drop_while]. rewrite Hg. rewrite app_comm_cons, reverse_snoc. cbn [drop_while]. rewrite Hh.
  by rewrite <-reverse_snoc, reverse_involutive.
Qed.
Lemma span_numeral ds l : Forall digit ds -> match l with g :: _ => char_digit g = false | [] => True end ->
  span_chars char_digit (map sing ds ++ l) = (map sing ds, l).
Proof.
  intros Hd Hl. induction Hd as [|d ds Hd _ IH]; cbn.
  - destruct l as [|g l]; [done|]. cbn. by rewrite Hl.
  - destruct (digit_char_char d Hd) as [-> _]. by rewrite IH.
Qed.
Lemma scan_digits ds r : Forall digit ds -> scan_string (map digit_char ds ++ Z_byte 34 :: r) = Ok (map digit_char ds, r).
Proof.
  induction 1 as [|d ds Hd _ IH]; [done|]. cbn [map app scan_string]. destruct (digit_char_char d Hd) as (_ & -> & -> & ->).
  by rewrite IH.
Qed.

Lemma total_supply_read ds t : Forall digit ds -> ds <> [] -> (length ds <= 500)%nat -> t ∈ int_types ->
  parse_total_supply (VStr (printed "(" ds (list_of_string (" " +:+ t +:+ ")")))) = Some (digits_str ds).
Proof.
  intros Hd Hn Hl Ht.
  unfold parse_total_supply, py_strip, py_len.
  assert (exists t0, list_of_string (" " +:+ t +:+ ")") = " "%char :: list_of_string t0 ++ [")"%char] /\ t0 = t) as (t0 & Et & ->).
  { exists t. split; [|done]. cbn in Ht. clear -Ht. repeat (apply elem_of_cons in Ht as [->|Ht]; [done|]). by apply elem_of_nil in Ht. }
  assert (forallb is_ascii_byte (list_of_string t) = true /\ (length (list_of_string t) <= 7)%nat) as [Hta Htl].
  { cbn in Ht. clear -Ht. repeat (apply elem_of_cons in Ht as [->|Ht]; [vm_compute; by split; [|lia]|]). by apply elem_of_nil in Ht. }
  rewrite Et, chars_printed; [|by cbn; rewrite forallb_app, Hta|done].
  set (tail := map (fun a => String a EmptyString) (" "%char :: list_of_string t ++ [")"%char])).
  assert (exists tl, tail = " " :: tl ++ [")"]) as [tl Htl2] by (eexists; unfold tail; cbn [map]; rewrite map_app; done).
  assert (length tail <= 9)%nat as Hlt by (unfold tail; rewrite length_map; cbn; rewrite length_app; cbn; lia).
  assert (strip_chars is_space_char ("(" :: map sing ds ++ tail) = "(" :: map sing ds ++ tail) as Hs.
  { rewrite Htl2. assert (map sing ds ++ " " :: tl ++ [")"] = (map sing ds ++ " " :: tl) ++ [")"]) as -> by by rewrite <-app_assoc.
    by apply strip_chars_ends. }
  rewrite Hs, <-(str_concat_chars (printed _ _ _)), chars_printed at 1; [|by cbn; rewrite forallb_app, Hta|done]. fold tail.
  rewrite String.eqb_refl. cbn [length andb]. rewrite length_app, length_map, (proj2 (Z.leb_le _ _)) by lia.
  unfold qresult. assert (take_char "(" ("(" :: map sing ds ++ tail) = Some (map sing ds ++ tail)) as -> by done.
  rewrite span_numeral; [|done|by rewrite Htl2].
  destruct ds as [|d ds]; [done|]. cbn [map]. change (sing d :: map sing ds) with (map sing (d :: ds)). rewrite text_sing by done.
  assert (qresult_tail tail = true) as ->; [|done].
  unfold tail. cbn in Ht. clear -Ht. repeat (apply elem_of_cons in Ht as [->|Ht]; [vm_compute; reflexivity|]). by apply elem_of_nil in Ht.
Qed.
Lemma native_supply_read ds : Forall digit ds -> ds <> [] -> (length ds <= 500)%nat ->
  parse_native_bank_supply (VStr (printed (Z_byte 34) ds [Z_byte 34])) = Ok (Some (strip_zeros (digits_str ds))).
Proof.
  intros Hd Hn Hl.
  unfold parse_native_bank_supply, py_strip, py_len. rewrite chars_printed by done. set (q := String (Z_byte 34) EmptyString).
  change (map (fun a => String a EmptyString) [Z_byte 34]) with [q].
  assert (strip_chars is_space_char (q :: map sing ds ++ [q]) = q :: map sing ds ++ [q]) as Hs by by apply strip_chars_ends.
  rewrite Hs, <-(str_concat_chars (printed _ _ _)), chars_printed at 1 by done. fold q. change (map (fun a => String a EmptyString) [Z_byte 34]) with [q].
  rewrite String.eqb_refl. cbn [length andb]. rewrite length_app, length_map. cbn [length]. rewrite (proj2 (Z.leb_le _ _)) by lia.
  unfold json_loads_str, printed. change (startswith _ (string_of_list (Z_byte 34 :: ?[l]))) with false.
  rewrite list_of_string_of_list. cbn [skip drop_while]. change (json_space (Z_byte 34)) with false. cbn iota.
  assert (forall depth l, scan_once Ok depth (Z_byte 34 :: l) = (p ← scan_string l; Ok (VStr (string_of_list p.1), p.2))) as Hone by (intros [|depth] l; done).
  rewrite Hone, scan_digits by done. cbn. change (string_of_list (map digit_char ds)) with (digits_str ds).
  rewrite chars_digits_str, length_map, (proj2 (Z.leb_le _ _)) by (done || lia). cbn [andb].
  rewrite span_numeral by done. rewrite bool_decide_eq_false_2 by (by destruct ds). rewrite bool_decide_eq_true_2 by done. done.
Qed.

(** Both answers are read back from the form the node prints: a numeral in
    parentheses with its integer type, and a quoted numeral, whose leading zeros
    are dropped. *)
Theorem supply_answers_read ds t : Forall digit ds -> ds <> [] -> (length ds <= 500)%nat -> t ∈ int_types ->
  parse_total_supply (VStr (printed "(" ds (list_of_string (" " +:+ t +:+ ")")))) = Some (digits_str ds) /\
  parse_native_bank_supply (VStr (printed (Z_byte 34) ds [Z_byte 34])) = Ok (Some (strip_zeros (digits_str ds))).
Proof. intros Hd Hn Hl Ht. split; [by apply total_supply_read|by apply native_supply_read]. Qed.
End printed.

#[local] Existing Instance ascii_runtime.
#[local] Instance supply_stack : JsonStack := {| scan_depth := 5 |}.
Lemma supply_answers_read_witness :
  parse_total_supply (VStr "(0042 uint64)") = Some "0042" /\ parse_native_bank_supply (VStr (dquote +:+ "0042" +:+ dquote)) = Ok (Some "42").
Proof. apply (supply_answers_read [0; 0; 4; 2] "uint64"); [by repeat constructor; unfold digit|done|cbn; lia|by apply in_strs_spec]. Defined.
Lemma decimal_amount_exact_witness : exists ws fs, decimal_amount "0012500" 3 = digits_str ws +:+ (if decide (fs = []) then "" else "." +:+ digits_str fs) /\
  digits_value ws * 10 ^ 3 + digits_value fs * 10 ^ (3 - Z.of_nat (length fs)) = 12500.
Proof.
  destruct (decimal_amount_exact [0; 0; 1; 2; 5; 0; 0] 3) as (ws & fs & Ht & _ & _ & _ & _ & _ & Hv); [by repeat constructor; unfold digit|lia|].
  exists ws, fs. by split.
Defined.
(** A supply is found within its lifetime, evicted by another key, and dropped
    when it is too old. *)
Example supply_cache_example :
  let calls := [PutSupply 0 ("c", "a") "1"; PutSupply 1 ("c", "b") "2"; GetSupply 2 ("c", "a"); PutSupply 3 ("c", "d") "3"] in
  (supply_get 300 5 ("c", "a") (supply_run 300 2 calls)).1 = Some "1" /\ (supply_get 300 5 ("c", "b") (supply_run 300 2 calls)).1 = None /\
  (supply_get 300 300 ("c", "a") (supply_run 300 2 calls)).1 = None.
Proof. vm_compute. done. Qed.
