(* ===== verification/TransactionArguments.v ===== *)
(** * api/transaction_argument_decoder.py: the arguments of one transaction

    A request of the API starts a decoder child, writes one line to it, reads
    its answer until the end of the file and validates it.  The operating system
    is the interface [DecoderProcess]; the selector loop takes fuel and [None]
    means it ran out, which [exchange_exact] excludes. *)
From Stdlib Require Import ZArith Lia Ascii String Sorted.
From stdpp Require Import base gmap sets list strings.
From S2P Require Import Prelude PyStr PyVal Codec Json Summary Query.
Open Scope Z_scope.

Definition MAX_TRANSACTION_BYTES : Z := Z.shiftl 4 20.
Definition MAX_REQUEST_BYTES : Z := Z.shiftl 8 20.
Definition MAX_RESPONSE_BYTES : Z := Z.shiftl 72 10.
Definition MAX_DETAILS_BYTES : Z := Z.shiftl 48 10.
Definition MAX_MESSAGE_ARGUMENTS : Z := 20.
Definition MAX_ARGUMENT_VALUES : Z := 16.
Definition MAX_ARGUMENT_CHARACTERS : Z := 256.
Definition PROCESS_CLEANUP_TIMEOUT_SECONDS : float := f_div (f_of_Z 2) (f_of_Z 10).

(** ** The operating system *)
Inductive stream := Stdin | Stdout.
#[global] Instance stream_eq_dec : EqDecision stream.
Proof. solve_decision. Defined.
Class DecoderProcess (W P : Type) := {
  monotonic : W -> float * W;
  uuid4_hex : W -> string * W;
  environ : W -> string -> option string;
  popen : string -> list (string * string) -> query (W:=W) P;
  has_stream : P -> stream -> bool;                 (* process.stdin is not None *)
  new_selector : query (W:=W) unit;
  close_selector : W -> W;
  set_nonblocking : P -> stream -> query (W:=W) unit;
  register : P -> stream -> query (W:=W) unit;
  unregister : P -> stream -> query (W:=W) unit;
  (* the ready ones of the registered streams, in the order of the selector *)
  select : P -> list stream -> float -> query (W:=W) (list stream);
  os_write : P -> bytes -> query (W:=W) Z;
  os_read : P -> Z -> query (W:=W) bytes;
  close_stream : P -> stream -> query (W:=W) unit;
  poll : P -> query (W:=W) (option Z);
  terminate : P -> query (W:=W) unit;
  kill : P -> query (W:=W) unit;
  wait : P -> float -> query (W:=W) Z
}.

(** ** The validated answer *)
Record argument := Argument { message_index : Z; values : list string; truncated : bool }.
Definition argument_val (a : argument) : val :=
  VDict [("message_index", VInt (message_index a)); ("values", VList (map VStr (values a))); ("truncated", VBool (truncated a))].

Section answer.
Context `{PyRuntime} `{JsonStack}.

(** [set(d) == keys] *)
Definition keys_are (keys : list string) (d : list (string * val)) : bool :=
  forallb (fun k => in_strs k keys) (dict_keys d) && forallb (fun k => dict_has k d) keys.
Definition value_ok (item : val) : option string :=
  match item with
  | VStr s => if (py_len s <=? MAX_ARGUMENT_CHARACTERS) && (String.eqb s "" || forallb is_printable_char (chars s)) then Some s else None
  | _ => None
  end.
Definition validate_entry (previous_index : Z) (entry : val) : option argument :=
  match entry with
  | VDict d =>
      if keys_are ["message_index"; "values"; "truncated"] d then
        match dget d "message_index", dget d "values", dget d "truncated" with
        | VInt i, VList l, VBool t =>
            if (0 <=? i) && (previous_index <? i) && (Z.of_nat (length l) <=? MAX_ARGUMENT_VALUES)
            then (fun vs => Argument i vs t) <$> mapM value_ok l else None
        | _, _, _ => None
        end
      else None
  | _ => None
  end.
Fixpoint validate_entries (previous_index : Z) (l : list val) : option (list argument) :=
  match l with
  | [] => Some []
  | entry :: l =>
      match validate_entry previous_index entry with
      | None => None
      | Some a => cons a <$> validate_entries (message_index a) l
      end
  end.
Definition validate_message_arguments (value : val) : option (list argument) :=
  match value with
  | VList l => if Z.of_nat (length l) <=? MAX_MESSAGE_ARGUMENTS then validate_entries (-1) l else None
  | _ => None
  end.

Definition compact (ensure_ascii : bool) : json_opts := Build_json_opts ensure_ascii true "," ":" false.
(** [text.encode("utf-8")], which fails on a lone surrogate *)
Definition encode_utf8 (text : string) : res bytes :=
  if utf8_valid (list_of_string text) then Ok (list_of_string text) else Raise (ValueError "UnicodeEncodeError").
(** The answer to the request of [request_id] *)
Definition read_answer (request_id : string) (output : bytes) : res (option (list argument)) :=
  match json_loads output with
  | Raise e => if is_json_error e then Ok None else Raise e
  | Ok (VDict response) =>
      if negb (py_eq (dget response "protocol_version") (VInt 1)) || negb (py_eq (dget response "id") (VStr request_id))
         || negb (is_True (dget response "ok")) then Ok None
      else match dget response "details" with
           | VDict details =>
               if negb (keys_are ["message_arguments"] details) then Ok None else
               text ← json_dumps (compact false) (VDict details);
               encoded ← encode_utf8 text;
               if MAX_DETAILS_BYTES <? Z.of_nat (length encoded) then Ok None
               else Ok (validate_message_arguments (dget details "message_arguments"))
           | _ => Ok None
           end
  | Ok _ => Ok None
  end.
End answer.

(** ** The exchange with the child *)
Section exchange.
Context `{PyRuntime} `{JsonStack} {W P : Type} `{DecoderProcess W P}.
Local Abbreviation query := (Query.query (W:=W)).
#[local] Notation "'let*' p := m 'in' k" := (and_then m (fun p => k))
  (at level 10, p strict pattern, m at level 200, k at level 200).

(** [try: m except E: pass] *)
Definition ignore (caught : exc -> bool) (m : query unit) : query unit := catch m caught (fun _ => pure (Ok tt)).
(** [try: m except E: return None], where m gives a value *)
Definition attempt {A} (caught : exc -> bool) (m : query A) : query (option A) :=
  catch (let* a := m in pure (Ok (Some a))) caught (fun _ => pure (Ok None)).

Definition stop_process (p : P) : query unit :=
  let* status := poll p in
  let* _ := match status with
            | Some _ => pure (Ok tt)
            | None =>
                let* _ := ignore isinstance_OSError (terminate p) in
                let* stopped := attempt (fun e => bool_decide (e = TimeoutExpired)) (wait p PROCESS_CLEANUP_TIMEOUT_SECONDS) in
                match stopped with Some _ => pure (Ok tt) | None => ignore isinstance_OSError (kill p) end
            end in
  let* _ := attempt (fun e => isinstance_OSError e || isinstance_SubprocessError e) (wait p PROCESS_CLEANUP_TIMEOUT_SECONDS) in
  let* _ := if has_stream p Stdin then ignore isinstance_OSError (close_stream p Stdin) else pure (Ok tt) in
  if has_stream p Stdout then ignore isinstance_OSError (close_stream p Stdout) else pure (Ok tt).

(** The local variables of the loop; [None] below stands for [return None]. *)
Record exchange_state := Exchange {
  response : bytes;
  request_offset : Z;
  stdout_open : bool;
  registered : list stream
}.
Definition write_event (p : P) (request : bytes) (st : exchange_state) : query (option exchange_state) :=
  let* written := attempt isinstance_OSError (os_write p (drop (Z.to_nat (request_offset st)) request)) in
  match written with
  | None => pure (Ok None)
  | Some written =>
      if written <=? 0 then pure (Ok None) else
      let offset := request_offset st + written in
      if offset =? Z.of_nat (length request) then
        let* _ := unregister p Stdin in
        let* _ := close_stream p Stdin in
        pure (Ok (Some (Exchange (response st) offset (stdout_open st) (filter (fun s => s <> Stdin) (registered st)))))
      else pure (Ok (Some (Exchange (response st) offset (stdout_open st) (registered st))))
  end.
Definition read_event (p : P) (st : exchange_state) : query (option exchange_state) :=
  let* chunk := attempt isinstance_OSError
                  (os_read p (Z.min (Z.shiftl 64 10) (MAX_RESPONSE_BYTES + 1 - Z.of_nat (length (response st))))) in
  match chunk with
  | None => pure (Ok None)
  | Some [] =>
      let* _ := unregister p Stdout in
      pure (Ok (Some (Exchange (response st) (request_offset st) false (filter (fun s => s <> Stdout) (registered st)))))
  | Some chunk =>
      let response := response st ++ chunk in
      if MAX_RESPONSE_BYTES <? Z.of_nat (length response) then pure (Ok None)
      else pure (Ok (Some (Exchange response (request_offset st) (stdout_open st) (registered st))))
  end.
Definition handle_event (p : P) (request : bytes) (event : stream) (st : exchange_state) : query (option exchange_state) :=
  match event with Stdin => write_event p request st | Stdout => read_event p st end.
(** [for key, _mask in events], left when the output ends *)
Fixpoint handle_events (p : P) (request : bytes) (events : list stream) (st : exchange_state) : query (option exchange_state) :=
  match events with
  | [] => pure (Ok (Some st))
  | event :: events =>
      let* next := handle_event p request event st in
      match next with
      | None => pure (Ok None)
      | Some st => if stdout_open st then handle_events p request events st else pure (Ok (Some st))
      end
  end.

(** One round of [while stdout_open] *)
Definition round (p : P) (request : bytes) (deadline : float) (st : exchange_state) : query (option exchange_state) := fun w =>
  let '(now, w) := monotonic w in
  let remaining := f_sub deadline now in
  if f_leb remaining f_zero then (Ok None, w) else
  (let* events := select p (registered st) remaining in
   match events with
   | [] => pure (Ok None)
   | _ => handle_events p request events st
   end) w.
Fixpoint rounds (fuel : nat) (p : P) (request : bytes) (deadline : float) (st : exchange_state) (w : W) :
    option (res (option exchange_state) * W) :=
  if stdout_open st then
    match fuel with
    | O => None
    | S fuel =>
        match round p request deadline st w with
        | (Ok (Some st), w) => rounds fuel p request deadline st w
        | (Ok None, w) => Some (Ok None, w)
        | (Raise e, w) => Some (Raise e, w)
        end
    end
  else Some (Ok (Some st), w).

(** After the end of the output *)
Definition finish (p : P) (request : bytes) (deadline : float) (st : exchange_state) : query (option bytes) := fun w =>
  let '(now, w) := monotonic w in
  let remaining := f_sub deadline now in
  if f_leb remaining f_zero then (Ok None, w) else
  (let* return_code := attempt (fun e => bool_decide (e = TimeoutExpired)) (wait p remaining) in
   match return_code with
   | None => pure (Ok None)
   | Some return_code =>
       pure (Ok (if negb (return_code =? 0) || negb (request_offset st =? Z.of_nat (length request)) || bool_decide (response st = [])
                 then None else Some (response st)))
   end) w.
(** What [try .. finally] encloses *)
Definition open_streams (p : P) : query exchange_state :=
  let* _ := set_nonblocking p Stdin in
  let* _ := set_nonblocking p Stdout in
  let* _ := register p Stdin in
  let* _ := register p Stdout in
  pure (Ok (Exchange [] 0 true [Stdin; Stdout])).
Definition converse (fuel : nat) (p : P) (request : bytes) (deadline : float) (w : W) : option (res (option bytes) * W) :=
  match open_streams p w with
  | (Raise e, w) => Some (Raise e, w)
  | (Ok st, w) =>
      match rounds fuel p request deadline st w with
      | None => None
      | Some (Ok (Some st), w) => Some (finish p request deadline st w)
      | Some (Ok None, w) => Some (Ok None, w)
      | Some (Raise e, w) => Some (Raise e, w)
      end
  end.
Definition bounded_exchange (fuel : nat) (p : P) (request : bytes) (timeout : float) (w : W) : option (res (option bytes) * W) :=
  if negb (has_stream p Stdin) || negb (has_stream p Stdout) then Some (Ok None, w) else
  match new_selector w with
  | (Raise e, w) => Some (Raise e, w)
  | (Ok _, w) =>
      let '(now, w) := monotonic w in
      match converse fuel p request (f_add now timeout) w with
      | None => None
      | Some (r, w) => Some (r, close_selector w)
      end
  end.

(** ** decode_transaction_arguments *)
Definition child_environment (w : W) : list (string * string) :=
  omap (fun name => pair name <$> environ w name) ["PATH"; "LANG"; "LC_ALL"].
Definition is_start_error (e : exc) : bool := isinstance_OSError e || isinstance_SubprocessError e.
Definition request_line (request_id raw_base64 : string) : res bytes :=
  text ← json_dumps (compact true) (VDict [("id", VStr request_id); ("tx_base64", VStr raw_base64); ("include_arguments", VBool true)]);
  encoded ← encode_utf8 text;
  Ok (encoded ++ [Z_byte 10]).
(** From the start of the child to its end *)
Definition run_child (fuel : nat) (path : string) (timeout : float) (request : bytes) (w : W) : option (res (option bytes) * W) :=
  match popen path (child_environment w) w with
  | (Raise e, w) => Some (if is_start_error e then Ok None else Raise e, w)
  | (Ok p, w) =>
      match bounded_exchange fuel p request timeout w with
      | None => None
      | Some (r, w) =>
          match stop_process p w with
          | (Raise e, w) => Some (Raise e, w)
          | (Ok _, w) => Some (match r with Raise e => if isinstance_Exception e then Ok None else Raise e | Ok o => Ok o end, w)
          end
      end
  end.
Definition decode_transaction_arguments (fuel : nat) (path : string) (timeout : float) (raw_base64 decoded_byte_length : val) (w : W) :
    option (res (option (list argument)) * W) :=
  match raw_base64, decoded_byte_length with
  | VStr raw_base64, VInt decoded_byte_length =>
      if String.eqb raw_base64 "" || negb ((0 <=? decoded_byte_length) && (decoded_byte_length <=? MAX_TRANSACTION_BYTES))
      then Some (Ok None, w)
      else match b64decode raw_base64 with
      | Raise e => Some (if isinstance_ValueError e then Ok None else Raise e, w)
      | Ok raw =>
          if negb (Z.of_nat (length raw) =? decoded_byte_length) then Some (Ok None, w) else
          let '(hex, w) := uuid4_hex w in
          let request_id := "detail-" +:+ hex in
          match request_line request_id raw_base64 with
          | Raise e => Some (Raise e, w)
          | Ok request =>
              if MAX_REQUEST_BYTES <? Z.of_nat (length request) then Some (Ok None, w) else
              match run_child fuel path timeout request w with
              | None => None
              | Some (Ok (Some output), w) => Some (read_answer request_id output, w)
              | Some (Ok None, w) => Some (Ok None, w)
              | Some (Raise e, w) => Some (Raise e, w)
              end
          end
      end
  | _, _ => Some (Ok None, w)
  end.
End exchange.

(** ** What the operating system keeps to

    [io w] are the bytes the current child was sent and the bytes it was read
    from. *)
Class PipeLaws (W P : Type) `{DecoderProcess W P} := {
  io : W -> bytes * bytes;
  popen_io path env w : match popen path env w with (Ok _, w') => io w' = ([], []) | _ => True end;
  os_write_io p data w : let '(r, w') := os_write p data w in
    match r with
    | Ok n => n <= Z.of_nat (length data) /\ io w' = ((io w).1 ++ take (Z.to_nat n) data, (io w).2)
    | Raise _ => io w' = io w
    end;
  os_read_io p n w : let '(r, w') := os_read p n w in
    match r with
    | Ok b => Z.of_nat (length b) <= n /\ io w' = ((io w).1, (io w).2 ++ b)
    | Raise _ => io w' = io w
    end;
  monotonic_io w : io (monotonic w).2 = io w;
  new_selector_io w : io (new_selector w).2 = io w;
  close_selector_io w : io (close_selector w) = io w;
  set_nonblocking_io p s w : io (set_nonblocking p s w).2 = io w;
  register_io p s w : io (register p s w).2 = io w;
  unregister_io p s w : io (unregister p s w).2 = io w;
  select_io p l t w : io (select p l t w).2 = io w;
  close_stream_io p s w : io (close_stream p s w).2 = io w;
  poll_io p w : io (poll p w).2 = io w;
  terminate_io p w : io (terminate p w).2 = io w;
  kill_io p w : io (kill p w).2 = io w;
  wait_io p t w : io (wait p t w).2 = io w
}.
(** The exceptions the documentation of subprocess and os names *)
Class ProcessErrors (W P : Type) `{DecoderProcess W P} := {
  popen_raises path env w : raises is_start_error (popen path env w).1;
  poll_raises p w : raises (fun _ => false) (poll p w).1;
  terminate_raises p w : raises isinstance_OSError (terminate p w).1;
  kill_raises p w : raises isinstance_OSError (kill p w).1;
  wait_raises p t w : raises (fun e => bool_decide (e = TimeoutExpired)) (wait p t w).1;
  close_stream_raises p s w : raises isinstance_OSError (close_stream p s w).1;
  new_selector_raises w : raises isinstance_Exception (new_selector w).1;
  set_nonblocking_raises p s w : raises isinstance_Exception (set_nonblocking p s w).1;
  register_raises p s w : raises isinstance_Exception (register p s w).1;
  unregister_raises p s w : raises isinstance_Exception (unregister p s w).1;
  select_raises p l t w : raises isinstance_Exception (select p l t w).1;
  os_write_raises p data w : raises isinstance_Exception (os_write p data w).1;
  os_read_raises p n w : raises isinstance_Exception (os_read p n w).1
}.

(** ** Running a computation *)
Section runs.
Context {W : Type}.
Definition runs {A} (m : query (W:=W) A) (w : W) (Q : res A -> W -> Prop) : Prop := Q (m w).1 (m w).2.
Lemma runs_pure {A} (r : res A) w (Q : res A -> W -> Prop) : Q r w -> runs (pure r) w Q.
Proof. done. Qed.
Lemma runs_impl {A} (m : query (W:=W) A) w (Q R : res A -> W -> Prop) : runs m w Q -> (forall r w', Q r w' -> R r w') -> runs m w R.
Proof. unfold runs. auto. Qed.
Lemma runs_and_then {A B} (m : query (W:=W) A) (f : A -> query (W:=W) B) w (Q : res B -> W -> Prop) :
  runs m w (fun r w' => match r with Ok a => runs (f a) w' Q | Raise e => Q (Raise e) w' end) -> runs (and_then m f) w Q.
Proof. unfold runs, and_then. by destruct (m w) as [[a|e] w']. Qed.
Lemma runs_catch {A} (m : query (W:=W) A) (caught : exc -> bool) handler w (Q : res A -> W -> Prop) :
  runs m w (fun r w' => match r with Raise e => if caught e then runs (handler e) w' Q else Q r w' | _ => Q r w' end) -> runs (catch m caught handler) w Q.
Proof. unfold runs, catch. destruct (m w) as [[a|e] w']; cbn [fst snd]; [done|]. destruct (caught e); done. Qed.
Lemma runs_attempt {A} (caught : exc -> bool) (m : query (W:=W) A) w (Q : res (option A) -> W -> Prop) :
  runs m w (fun r w' => match r with Ok a => Q (Ok (Some a)) w' | Raise e => if caught e then Q (Ok None) w' else Q (Raise e) w' end) ->
  runs (attempt caught m) w Q.
Proof.
  intros Hm. apply runs_catch, runs_and_then. eapply runs_impl; [exact Hm|]. intros [a|e] w'; [done|]. by destruct (caught e).
Qed.
Lemma runs_ignore (caught : exc -> bool) (m : query (W:=W) unit) w (Q : res unit -> W -> Prop) :
  runs m w (fun r w' => match r with Ok _ => Q (Ok tt) w' | Raise e => if caught e then Q (Ok tt) w' else Q (Raise e) w' end) ->
  runs (ignore caught m) w Q.
Proof. intros Hm. apply runs_catch. eapply runs_impl; [exact Hm|]. intros [[]|e] w'; [done|]. by destruct (caught e). Qed.
End runs.
(** A call that keeps [f w] *)
Lemma runs_frame {W A B} (f : W -> B) (m : query (W:=W) A) w (Q : res A -> W -> Prop) :
  f (m w).2 = f w -> (forall r w', f w' = f w -> Q r w') -> runs m w Q.
Proof. intros Hf HQ. by apply HQ. Qed.

(** ** The exchange *)
Section exchange_proofs.
Context `{PyRuntime} `{JsonStack} {W P : Type} `{PipeLaws W P}.
Context (p : P) (request : bytes).
Local Open Scope nat_scope.

Definition length_Z (l : bytes) : Z := Z.of_nat (length l).
(** What has been sent and read, at any time *)
Definition bounded (w : W) : Prop := (io w).1 `prefix_of` request /\ (length_Z (io w).2 <= MAX_RESPONSE_BYTES + 1)%Z.
Definition in_step (st : exchange_state) (w : W) : Prop :=
  io w = (take (Z.to_nat (request_offset st)) request, response st) /\
  (0 <= request_offset st <= length_Z request)%Z /\ (length_Z (response st) <= MAX_RESPONSE_BYTES)%Z.
(** The rounds that are left *)
Definition measure (st : exchange_state) : nat :=
  Z.to_nat (length_Z request - request_offset st) + Z.to_nat (MAX_RESPONSE_BYTES + 1 - length_Z (response st)).
Definition advances (st : exchange_state) (r : res (option exchange_state)) (w : W) : Prop :=
  match r with
  | Ok (Some st') => in_step st' w /\ (measure st' < measure st \/ stdout_open st' = false)
  | _ => bounded w
  end.
Lemma bounded_io w w' : io w' = io w -> bounded w -> bounded w'.
Proof. unfold bounded. by intros ->. Qed.
Lemma in_step_bounded st w : in_step st w -> bounded w.
Proof. intros (Hio & _ & Hl). unfold bounded. rewrite Hio. cbn. split; [apply prefix_take|lia]. Qed.
Lemma in_step_io st w w' : io w' = io w -> in_step st w -> in_step st w'.
Proof. unfold in_step. by intros ->. Qed.

Lemma write_event_advances st w : in_step st w -> runs (write_event p request st) w (advances st).
Proof.
  intros Hst. pose proof Hst as (Hio & Ho & Hl). apply runs_and_then, runs_attempt. unfold runs.
  pose proof (os_write_io p (drop (Z.to_nat (request_offset st)) request) w) as Hw.
  destruct (os_write p (drop (Z.to_nat (request_offset st)) request) w) as [[n|e] w1]; cbn [fst snd] in *.
  2: { assert (bounded w1) as Hb by (eapply bounded_io; [exact Hw|by eapply in_step_bounded]). by destruct (isinstance_OSError e). }
  destruct Hw as [Hn Hw]. rewrite Hio in Hw. cbn [fst snd] in Hw. rewrite length_drop in Hn. unfold length_Z in *.
  assert (in_step (Exchange (response st) (request_offset st + Z.max 0 n) (stdout_open st) (registered st)) w1) as Hst1.
  { split; [|split; [cbn; unfold length_Z; lia|done]]. cbn. rewrite Hw. f_equal.
    replace (Z.to_nat (request_offset st + Z.max 0 n)) with (Z.to_nat (request_offset st) + Z.to_nat n) by lia. by rewrite take_take_drop. }
  destruct (Z.leb_spec n 0) as [Hn0|Hn0]; [by eapply in_step_bounded|].
  replace (Z.max 0 n) with n in Hst1 by lia.
  assert (forall l w', io w' = io w1 -> advances st (Ok (Some (Exchange (response st) (request_offset st + n) (stdout_open st) l))) w') as Hadv.
  { intros l w' Hio'. split; [by apply (in_step_io _ w1)|]. left. unfold measure, length_Z in *. cbn. lia. }
  pose proof (in_step_bounded _ _ Hst1) as Hb1.
  destruct (_ =? _)%Z; [|by apply Hadv].
  apply runs_and_then, (runs_frame io); [apply unregister_io|]. intros [_u|e] w2 Hf2; [|by eapply bounded_io].
  apply runs_and_then, (runs_frame io); [apply close_stream_io|]. intros [_u2|e] w3 Hf3; [|by apply (bounded_io w1); [congruence|]].
  apply runs_pure, Hadv. congruence.
Qed.
Lemma read_event_advances st w : in_step st w -> runs (read_event p st) w (advances st).
Proof.
  intros Hst. pose proof Hst as (Hio & Ho & Hl). apply runs_and_then, runs_attempt. unfold runs.
  set (size := Z.min _ _). pose proof (os_read_io p size w) as Hr. destruct (os_read p size w) as [[chunk|e] w1]; cbn [fst snd] in *.
  2: { assert (bounded w1) as Hb by (eapply bounded_io; [exact Hr|by eapply in_step_bounded]). by destruct (isinstance_OSError e). }
  destruct Hr as [Hn Hr]. rewrite Hio in Hr. cbn [fst snd] in Hr. destruct chunk as [|c chunk].
  - rewrite app_nil_r in Hr. assert (in_step st w1) as Hst1 by (by apply (in_step_io _ w); [rewrite Hr, Hio|]).
    apply runs_and_then, (runs_frame io); [apply unregister_io|]. intros [_u|e] w2 Hf2; [|by eapply bounded_io, in_step_bounded].
    split; [|by right]. destruct Hst1 as (Hio1 & Hb1). split; [cbn; by rewrite Hf2|exact Hb1].
  - set (l := c :: chunk) in *. assert (0 < length l) as Hc by (cbn; lia). unfold length_Z in *. cbn zeta.
    destruct (Z.ltb_spec MAX_RESPONSE_BYTES (Z.of_nat (length (response st ++ l)))) as [Hgt|Hle].
    + unfold advances, bounded. cbn [fst snd pure]. rewrite Hr. cbn [fst snd]. split; [apply prefix_take|]. unfold length_Z. rewrite length_app. unfold size in Hn. lia.
    + split; [split; [done|split; [done|exact Hle]]|]. left. unfold measure, length_Z. cbn. rewrite length_app in *. lia.
Qed.
Lemma handle_events_advances events st w : in_step st w -> events <> [] -> runs (handle_events p request events st) w (advances st).
Proof.
  intros Hst He. destruct events as [|event events]; [done|]. clear He. revert st w event Hst.
  induction events as [|event' events IH]; intros st w event Hst; cbn [handle_events]; apply runs_and_then;
    (eapply runs_impl; [destruct event; [by apply write_event_advances|by apply read_event_advances]|]); intros [[st1|]|e] w1 Hadv; try done.
  - by destruct (stdout_open st1).
  - destruct (stdout_open st1) eqn:Eo; [|by split; [apply Hadv|right]]. destruct Hadv as [Hst1 [Hm|Hm]]; [|by rewrite Hm in Eo].
    eapply runs_impl; [by apply IH|]. intros [[st2|]|e] w2 Hadv2; try done. destruct Hadv2 as [Hst2 Hm2]. split; [done|]. destruct Hm2; [left; lia|by right].
Qed.
Lemma round_advances deadline st w : in_step st w -> runs (round p request deadline st) w (advances st).
Proof.
  intros Hst. unfold runs, round. pose proof (monotonic_io w) as Hm. destruct (monotonic w) as [now w1]. cbn [snd] in Hm.
  assert (in_step st w1) as Hst1 by by eapply in_step_io. cbn zeta. destruct (f_leb _ _); [by eapply in_step_bounded|].
  apply runs_and_then, (runs_frame io); [apply select_io|]. intros [events|e] w2 Hf2; [|by eapply bounded_io, in_step_bounded].
  assert (in_step st w2) as Hst2 by by eapply in_step_io. destruct events as [|event events]; [by eapply in_step_bounded|].
  by apply handle_events_advances.
Qed.
Lemma rounds_end fuel deadline st w : in_step st w -> measure st < fuel ->
  exists r w', rounds fuel p request deadline st w = Some (r, w') /\
    match r with Ok (Some st') => in_step st' w' | _ => bounded w' end.
Proof.
  revert st w. induction fuel as [|fuel IH]; intros st w Hst Hf; [lia|]. cbn [rounds].
  destruct (stdout_open st); [|by eexists _, _].
  pose proof (round_advances deadline st w Hst) as Hr. unfold runs in Hr. destruct (round p request deadline st w) as [[[st1|]|e] w1]; cbn in Hr.
  - destruct Hr as [Hst1 [Hm|Hm]]; [apply IH; [done|lia]|]. destruct fuel; cbn [rounds]; rewrite Hm; by eexists _, _.
  - by eexists _, _.
  - by eexists _, _.
Qed.

(** How an exchange ends *)
Definition exchange_outcome (r : res (option bytes)) (w : W) : Prop :=
  bounded w /\
  match r with
  | Ok (Some output) => io w = (request, output) /\ output <> [] /\ (length_Z output <= MAX_RESPONSE_BYTES)%Z /\
      exists remaining w1 w2, wait p remaining w1 = (Ok 0%Z, w2) /\ io w2 = io w
  | _ => True
  end.
Lemma finish_outcome deadline st w : in_step st w -> runs (finish p request deadline st) w exchange_outcome.
Proof.
  intros Hst. unfold runs, finish. pose proof (monotonic_io w) as Hm. destruct (monotonic w) as [now w1]. cbn [snd] in Hm.
  assert (in_step st w1) as Hst1 by by eapply in_step_io. cbn zeta. destruct (f_leb _ _); [by split; [eapply in_step_bounded|]|].
  apply runs_and_then, runs_attempt. unfold runs. pose proof (wait_io p (f_sub deadline now) w1) as Hw.
  destruct (wait p (f_sub deadline now) w1) as [[code|e] w2] eqn:Ewait; cbn [fst snd] in *;
    (assert (in_step st w2) as Hst2 by (by eapply in_step_io)); pose proof (in_step_bounded _ _ Hst2) as Hb.
  2: by case_match.
  split; [done|]. cbn [fst]. destruct (Z.eqb_spec code 0) as [->|]; [|done]. destruct (Z.eqb_spec (request_offset st) (Z.of_nat (length request))) as [Hoff|]; [|done].
  destruct (decide (response st = [])) as [|Hne]; [by rewrite bool_decide_eq_true_2 by done|]. rewrite bool_decide_eq_false_2 by done. cbn.
  destruct Hst2 as (Hio & _ & Hl). split_and!; [|done|done|by exists (f_sub deadline now), w1, w2].
  rewrite Hio, Hoff, Nat2Z.id, firstn_all. done.
Qed.
Lemma open_streams_io w : io w = ([], []) -> runs (open_streams p) w (fun r w' => match r with Ok st => in_step st w' | Raise _ => bounded w' end /\
  forall st, r = Ok st -> st = Exchange [] 0 true [Stdin; Stdout]).
Proof.
  intros Hio. assert (forall w', io w' = ([], []) -> bounded w') as Hb.
  { intros w' Hw. unfold bounded. rewrite Hw. split; [apply prefix_nil|by cbn]. }
  unfold open_streams.
  apply runs_and_then, (runs_frame io); [apply set_nonblocking_io|]. intros [_u1|e] w1 Hf1; [|split; [apply Hb; congruence|done]].
  apply runs_and_then, (runs_frame io); [apply set_nonblocking_io|]. intros [_u2|e] w2 Hf2; [|split; [apply Hb; congruence|done]].
  apply runs_and_then, (runs_frame io); [apply register_io|]. intros [_u3|e] w3 Hf3; [|split; [apply Hb; congruence|done]].
  apply runs_and_then, (runs_frame io); [apply register_io|]. intros [_u4|e] w4 Hf4; [|split; [apply Hb; congruence|done]].
  apply runs_pure. split; [|by intros st [= <-]]. split; [transitivity (io w); [congruence|by rewrite Hio]|]. unfold length_Z. cbn. split; [lia|done].
Qed.
(** A round more than there are bytes to send and to accept *)
Definition exchange_rounds : Z := length_Z request + MAX_RESPONSE_BYTES + 2.
Lemma bounded_exchange_ends fuel timeout w : io w = ([], []) -> (exchange_rounds <= Z.of_nat fuel)%Z ->
  exists r w', bounded_exchange fuel p request timeout w = Some (r, w') /\ exchange_outcome r w'.
Proof.
  intros Hio Hf. assert (forall w', io w' = ([], []) -> bounded w') as Hb.
  { intros w' Hw. unfold bounded. rewrite Hw. split; [apply prefix_nil|by cbn]. }
  unfold bounded_exchange. destruct (negb _ || negb _); [eexists _, _; split; [done|]; by split; [apply Hb|]|].
  pose proof (new_selector_io w) as Hf1. destruct (new_selector w) as [[u|e] w1]; cbn [snd] in Hf1; [|eexists _, _; split; [done|]; split; [by apply Hb; rewrite Hf1|done]].
  pose proof (monotonic_io w1) as Hf2. destruct (monotonic w1) as [now w2]. cbn [snd] in Hf2.
  assert (exists r w', converse fuel p request (f_add now timeout) w2 = Some (r, w') /\ exchange_outcome r w') as (r & w' & -> & Hout).
  { unfold converse. pose proof (open_streams_io w2 ltac:(congruence)) as Ho. unfold runs in Ho.
    destruct (open_streams p w2) as [[st|e] w3]; cbn [fst snd] in Ho; destruct Ho as [Hst Heq]; [|by eexists _, _].
    destruct (rounds_end fuel (f_add now timeout) st w3 Hst) as (r & w4 & -> & Hr).
    { assert (0 <= MAX_RESPONSE_BYTES)%Z by done. rewrite (Heq st eq_refl). unfold exchange_rounds, measure, length_Z in *. cbn [response request_offset length]. lia. }
    destruct r as [[st'|]|e]; [|by eexists _, _..]. pose proof (finish_outcome (f_add now timeout) st' w4 Hr) as Hfin. unfold runs in Hfin.
    destruct (finish _ _ _ _ _) as [r w5]. by eexists _, _. }
  eexists _, _. split; [done|]. unfold exchange_outcome in *. pose proof (close_selector_io w') as Hc. destruct Hout as [Hbd Hout].
  split; [by eapply bounded_io|]. destruct r as [[output|]|e]; [|done..]. rewrite Hc. done.
Qed.
End exchange_proofs.

(** ** The validated arguments *)
Section answer_proofs.
Context `{PyRuntime} `{JsonStack}.

Definition text_ok (s : string) : Prop := py_len s <= MAX_ARGUMENT_CHARACTERS /\ (s = "" \/ forallb is_printable_char (chars s) = true).
Definition argument_ok (a : argument) : Prop := 0 <= message_index a /\ Z.of_nat (length (values a)) <= MAX_ARGUMENT_VALUES /\ Forall text_ok (values a).
(** Bounded, with increasing indices *)
Definition arguments_ok (l : list argument) : Prop :=
  Z.of_nat (length l) <= MAX_MESSAGE_ARGUMENTS /\ StronglySorted Z.lt (message_index <$> l) /\ Forall argument_ok l.

Lemma value_ok_iff v s : value_ok v = Some s <-> v = VStr s /\ text_ok s.
Proof.
  unfold value_ok, text_ok. split.
  - destruct v as [| | | |t| |]; try done. destruct (_ && _) eqn:Et; [|done]. intros [= <-].
    apply andb_true_iff in Et as [Hl%Z.leb_le Ht]. apply orb_true_iff in Ht as [?%String.eqb_eq|]; auto.
  - intros (-> & Hl & Ht). rewrite (proj2 (Z.leb_le _ _)) by done.
    by destruct Ht as [->| ->]; [|rewrite orb_true_r].
Qed.
Lemma values_ok_iff l vs : mapM value_ok l = Some vs <-> l = VStr <$> vs /\ Forall text_ok vs.
Proof.
  rewrite mapM_Some. split.
  - induction 1 as [|v s l vs Hv _ [-> IH]]; [done|]. apply value_ok_iff in Hv as [-> Hs]. split; [done|by constructor].
  - intros [-> Hs]. induction Hs as [|s vs Hs _ IH]; [constructor|]. constructor; [by apply value_ok_iff|done].
Qed.
Lemma validate_entry_ok previous v a : validate_entry previous v = Some a -> argument_ok a /\ previous < message_index a.
Proof.
  unfold validate_entry. destruct v as [| | | | | |d]; try done. destruct (keys_are _ d); [|done].
  destruct (dget d "message_index") as [| |i| | | |]; try done. destruct (dget d "values") as [| | | | |l|]; try done.
  destruct (dget d "truncated") as [|t| | | | |]; try done. destruct (_ && _) eqn:Eb; [|done].
  apply andb_true_iff in Eb as [[Hi%Z.leb_le Hp%Z.ltb_lt]%andb_true_iff Hl%Z.leb_le].
  destruct (mapM value_ok l) as [vs|] eqn:Em; [|done]. intros [= <-]. apply values_ok_iff in Em as [-> Hv].
  rewrite length_fmap in Hl. by split.
Qed.
Lemma validate_entry_val previous a : argument_ok a -> previous < message_index a -> validate_entry previous (argument_val a) = Some a.
Proof.
  intros (Hi & Hl & Hv) Hp. unfold validate_entry, argument_val. cbn. rewrite (proj2 (Z.leb_le _ _)), (proj2 (Z.ltb_lt _ _)) by done. cbn.
  rewrite length_map, (proj2 (Z.leb_le _ _)) by done. change (map VStr (values a)) with (VStr <$> values a). rewrite (proj2 (values_ok_iff _ _) (conj eq_refl Hv)). by destruct a.
Qed.
(** All indices are above [previous]. *)
Lemma validate_entries_ok previous l r : validate_entries previous l = Some r ->
  length r = length l /\ StronglySorted Z.lt (message_index <$> r) /\ Forall argument_ok r /\ Forall (fun a => previous < message_index a) r.
Proof.
  revert previous r. induction l as [|v l IH]; intros previous r; cbn [validate_entries]; [by intros [= <-]; repeat constructor|].
  destruct (validate_entry previous v) as [a|] eqn:Ea; [|done]. destruct (validate_entries (message_index a) l) as [r'|] eqn:Er; [|done].
  intros [= <-]. destruct (IH _ _ Er) as (Hl & Hs & Hok & Hgt). destruct (validate_entry_ok _ _ _ Ea) as [Ha Hp].
  split_and!; cbn; [by rewrite Hl|constructor; [done|by apply Forall_fmap]|by constructor|constructor; [done|]].
  eapply Forall_impl; [exact Hgt|]. cbn. lia.
Qed.
Lemma validate_entries_val previous r : StronglySorted Z.lt (message_index <$> r) -> Forall argument_ok r ->
  Forall (fun a => previous < message_index a) r -> validate_entries previous (argument_val <$> r) = Some r.
Proof.
  revert previous. induction r as [|a r IH]; intros previous; [done|]. rewrite fmap_cons. intros [Hs Ha]%StronglySorted_inv [Hok Hoks]%Forall_cons [Hp Hps]%Forall_cons.
  cbn [fmap list_fmap validate_entries]. rewrite validate_entry_val by done.
  change (list_fmap _ _ argument_val r) with (argument_val <$> r). apply (Forall_fmap message_index) in Ha. rewrite (IH (message_index a) Hs Hoks Ha). done.
Qed.
Lemma validate_message_arguments_iff r :
  arguments_ok r <-> exists v, validate_message_arguments v = Some r.
Proof.
  split.
  - intros (Hl & Hs & Hok). exists (VList (argument_val <$> r)). cbn. rewrite length_fmap, (proj2 (Z.leb_le _ _)) by done.
    apply validate_entries_val; [done|done|]. eapply Forall_impl; [exact Hok|]. intros a (? & _). lia.
  - intros [v Hv]. unfold validate_message_arguments in Hv. destruct v as [| | | | |l|]; try done. destruct (Z.leb_spec (Z.of_nat (length l)) MAX_MESSAGE_ARGUMENTS); [|done].
    destruct (validate_entries_ok _ _ _ Hv) as (Hl & Hs & Hok & _). split; [lia|done].
Qed.
Lemma read_answer_ok id output r : read_answer id output = Ok (Some r) -> arguments_ok r.
Proof.
  unfold read_answer. destruct (json_loads output) as [[| | | | | |response]|e]; try done; [|by destruct (is_json_error e)].
  destruct (_ || _); [done|]. destruct (dget response "details") as [| | | | | |details]; try done. destruct (negb _); [done|].
  intros (text & _ & Hr)%bind_Ok. apply bind_Ok in Hr as (encoded & _ & Hr). destruct (_ <? _); [done|]. injection Hr as Hr.
  apply validate_message_arguments_iff. eauto.
Qed.
Lemma value_error_failure e : isinstance_ValueError e = true -> is_json_failure e = true.
Proof. unfold is_json_failure. by intros ->. Qed.
Lemma encode_utf8_raises text : raises is_json_failure (encode_utf8 text).
Proof. unfold encode_utf8. by destruct (utf8_valid _). Qed.
Lemma json_dumps_failure o v : raises is_json_failure (json_dumps o v).
Proof. pose proof (json_dumps_raises o v) as Hd. destruct (json_dumps o v); [done|]. by apply value_error_failure. Qed.
Lemma read_answer_raises id output : raises is_json_failure (read_answer id output).
Proof.
  unfold read_answer. pose proof (json_loads_with_fails Ok output ltac:(done)) as Hl. unfold json_loads.
  destruct (json_loads_with Ok output) as [[| | | | | |response]|e]; try done; [|by destruct (is_json_error e)].
  destruct (_ || _); [done|]. destruct (dget response "details") as [| | | | | |details]; try done. destruct (negb _); [done|].
  apply raises_bind; [apply json_dumps_failure|]. intros text _. apply raises_bind; [apply encode_utf8_raises|]. intros encoded _. by destruct (_ <? _).
Qed.
Lemma a2b_base64_raises qpos left pads padding l : raises isinstance_ValueError (a2b_base64 qpos left pads padding l).
Proof.
  revert qpos left pads padding. induction l as [|a l IH]; intros qpos left pads padding; cbn [a2b_base64]; [by destruct (Nat.eqb qpos 0)|].
  destruct (bool_decide _); [destruct (Nat.leb 2 qpos); [destruct (_ <=? _); [by destruct l|]|]; apply IH|].
  destruct (b64_index a); [|done]. destruct padding; [done|]. destruct qpos as [|[|[|]]]; [apply IH|apply raises_fmap, IH..].
Qed.
Lemma request_line_raises id raw : raises is_json_failure (request_line id raw).
Proof. apply raises_bind; [apply json_dumps_failure|]. intros text _. by apply raises_bind; [apply encode_utf8_raises|]. Qed.
End answer_proofs.

(** ** The exceptions of a computation *)
Section errors.
Context {W : Type}.
Definition errs {A} (X : exc -> bool) (m : query (W:=W) A) : Prop := forall w, raises X (m w).1.
Lemma errs_pure {A} X (a : A) : errs X (pure (Ok a)).
Proof. by intros w. Qed.
Lemma errs_and_then {A B} X (m : query (W:=W) A) (f : A -> query (W:=W) B) : errs X m -> (forall a, errs X (f a)) -> errs X (and_then m f).
Proof. intros Hm Hf w. unfold and_then. specialize (Hm w). destruct (m w) as [[a|e] w1]; [apply Hf|done]. Qed.
Lemma errs_attempt {A} X caught (m : query (W:=W) A) : errs (fun e => caught e || X e) m -> errs X (attempt caught m).
Proof.
  intros Hm w. specialize (Hm w). unfold attempt, catch, and_then. destruct (m w) as [[a|e] w1]; [done|]. cbn in *.
  by destruct (caught e).
Qed.
Lemma errs_ignore X caught (m : query (W:=W) unit) : errs (fun e => caught e || X e) m -> errs X (ignore caught m).
Proof. intros Hm w. specialize (Hm w). unfold ignore, catch. destruct (m w) as [[a|e] w1]; [done|]. cbn in *. by destruct (caught e). Qed.
Lemma errs_impl {A} (X Y : exc -> bool) (m : query (W:=W) A) : errs X m -> (forall e, X e = true -> Y e = true) -> errs Y m.
Proof. intros Hm Hi w. specialize (Hm w). destruct (m w).1; [done|]. by apply Hi. Qed.
End errors.

(** ** The whole request *)
Section decode_proofs.
Context `{PyRuntime} `{JsonStack} {W P : Type} `{PipeLaws W P} `{!ProcessErrors W P}.
Implicit Types p : P.

Lemma errs_any {A} (X Y : exc -> bool) (m : query (W:=W) A) : errs X m -> (forall e, X e = true -> Y e = true) -> errs Y m.
Proof. apply errs_impl. Qed.
Lemma stop_process_errs p : errs (fun _ => false) (stop_process p).
Proof.
  assert (forall s, errs (fun _ => false) (if has_stream p s then ignore isinstance_OSError (close_stream p s) else pure (Ok tt))) as Hclose.
  { intros s. destruct (has_stream p s); [|apply errs_pure]. apply errs_ignore. eapply errs_impl; [intros w; apply close_stream_raises|]. by intros e ->. }
  apply errs_and_then; [intros w; apply poll_raises|]. intros status. apply errs_and_then.
  { destruct status; [apply errs_pure|]. apply errs_and_then.
    { apply errs_ignore. eapply errs_impl; [intros w; apply terminate_raises|]. by intros e ->. }
    intros _. apply errs_and_then.
    { apply errs_attempt. eapply errs_impl; [intros w; apply wait_raises|]. by intros e ->. }
    intros [code|]; [apply errs_pure|]. apply errs_ignore. eapply errs_impl; [intros w; apply kill_raises|]. by intros e ->. }
  intros _. apply errs_and_then.
  { apply errs_attempt. eapply errs_impl; [intros w; apply wait_raises|]. intros e ->%bool_decide_eq_true. done. }
  intros _. apply errs_and_then; [apply Hclose|]. intros _. apply Hclose.
Qed.
Lemma stop_process_io p w : io (stop_process p w).2 = io w.
Proof.
  assert (forall s w, runs (if has_stream p s then ignore isinstance_OSError (close_stream p s) else pure (Ok tt)) w (fun _ w' => io w' = io w)) as Hclose.
  { intros s w1. destruct (has_stream p s); [|done]. apply runs_ignore, (runs_frame io); [apply close_stream_io|]. intros [u|e] w2 Hf; [done|]. by destruct (isinstance_OSError e). }
  change (runs (stop_process p) w (fun _ w' => io w' = io w)).
  apply runs_and_then, (runs_frame io); [apply poll_io|]. intros [status|e] w1 Hf1; [|done]. apply runs_and_then.
  apply (runs_impl _ _ (fun _ w' => io w' = io w)).
  { destruct status; [done|]. apply runs_and_then, runs_ignore, (runs_frame io); [apply terminate_io|]. intros r w2 Hf2.
    assert (runs (and_then (attempt (fun e => bool_decide (e = TimeoutExpired)) (wait p PROCESS_CLEANUP_TIMEOUT_SECONDS))
      (fun stopped => match stopped with Some _ => pure (Ok tt) | None => ignore isinstance_OSError (kill p) end)) w2 (fun _ w' => io w' = io w)) as Hk.
    { apply runs_and_then, runs_attempt, (runs_frame io); [apply wait_io|]. intros [code|e] w3 Hf3; [apply runs_pure; congruence|].
      destruct (bool_decide _); [|congruence]. apply runs_ignore, (runs_frame io); [apply kill_io|]. intros [u|e'] w4 Hf4; [congruence|]. destruct (isinstance_OSError e'); congruence. }
    destruct r as [u|e]; [done|]. destruct (isinstance_OSError e); [done|congruence]. }
  intros [u|e] w2 Hf2; [|done]. apply runs_and_then, runs_attempt, (runs_frame io); [apply wait_io|]. intros r w3 Hf3.
  assert (runs (and_then (if has_stream p Stdin then ignore isinstance_OSError (close_stream p Stdin) else pure (Ok tt))
    (fun _ => if has_stream p Stdout then ignore isinstance_OSError (close_stream p Stdout) else pure (Ok tt))) w3 (fun _ w' => io w' = io w)) as Hc.
  { apply runs_and_then. eapply runs_impl; [apply Hclose|]. intros [u'|e] w4 Hf4; [|cbn in Hf4; congruence]. eapply runs_impl; [apply Hclose|]. cbn. intros; congruence. }
  destruct r as [code|e]; [done|]. destruct (isinstance_OSError e || isinstance_SubprocessError e); [done|congruence].
Qed.

(** What goes wrong inside the exchange is an [Exception]. *)
Lemma write_event_errs p request st : errs isinstance_Exception (write_event p request st).
Proof.
  apply errs_and_then. { apply errs_attempt. eapply errs_impl; [intros w; apply os_write_raises|]. intros e ->. apply orb_true_r. }
  intros [n|]; [|apply errs_pure]. destruct (n <=? 0); [apply errs_pure|]. cbn zeta. destruct (_ =? _); [|apply errs_pure].
  apply errs_and_then; [intros w; apply unregister_raises|]. intros _. apply errs_and_then; [|intros _; apply errs_pure].
  eapply errs_impl; [intros w; apply close_stream_raises|]. by intros [].
Qed.
Lemma read_event_errs p st : errs isinstance_Exception (read_event p st).
Proof.
  apply errs_and_then. { apply errs_attempt. eapply errs_impl; [intros w; apply os_read_raises|]. intros e ->. apply orb_true_r. }
  intros [[|c chunk]|]; [|cbn zeta; destruct (_ <? _); apply errs_pure|apply errs_pure].
  apply errs_and_then; [intros w; apply unregister_raises|]. intros _. apply errs_pure.
Qed.
Lemma handle_events_errs p request events st : errs isinstance_Exception (handle_events p request events st).
Proof.
  revert st. induction events as [|event events IH]; intros st; [apply errs_pure|]. cbn [handle_events].
  apply errs_and_then; [destruct event; [apply write_event_errs|apply read_event_errs]|]. intros [st1|]; [|apply errs_pure].
  destruct (stdout_open st1); [apply IH|apply errs_pure].
Qed.
Lemma round_errs p request deadline st : errs isinstance_Exception (round p request deadline st).
Proof.
  intros w. unfold round. destruct (monotonic w) as [now w1]. cbn zeta. destruct (f_leb _ _); [done|].
  apply errs_and_then; [intros w2; apply select_raises|]. intros [|event events]; [apply errs_pure|apply handle_events_errs].
Qed.
Lemma rounds_errs fuel p request deadline st w r w' : rounds fuel p request deadline st w = Some (r, w') -> raises isinstance_Exception r.
Proof.
  revert st w. induction fuel as [|fuel IH]; intros st w; cbn [rounds]; destruct (stdout_open st); try (by intros [= <- _]).
  pose proof (round_errs p request deadline st w) as Hr. destruct (round p request deadline st w) as [[[st1|]|e] w1]; [apply IH|by intros [= <- _]..].
Qed.
Lemma open_streams_errs p : errs isinstance_Exception (open_streams p).
Proof.
  apply errs_and_then; [intros w; apply set_nonblocking_raises|]. intros _. apply errs_and_then; [intros w; apply set_nonblocking_raises|]. intros _.
  apply errs_and_then; [intros w; apply register_raises|]. intros _. apply errs_and_then; [intros w; apply register_raises|]. intros _. apply errs_pure.
Qed.
Lemma finish_errs p request deadline st : errs isinstance_Exception (finish p request deadline st).
Proof.
  intros w. unfold finish. destruct (monotonic w) as [now w1]. cbn zeta. destruct (f_leb _ _); [done|].
  apply errs_and_then; [|intros [code|]; apply errs_pure]. apply errs_attempt. eapply errs_impl; [intros w2; apply wait_raises|]. by intros e ->.
Qed.
Lemma bounded_exchange_errs fuel p request timeout w r w' : bounded_exchange fuel p request timeout w = Some (r, w') -> raises isinstance_Exception r.
Proof.
  unfold bounded_exchange. destruct (_ || _); [by intros [= <- _]|]. pose proof (new_selector_raises w) as Hs.
  destruct (new_selector w) as [[u|e] w1]; [|by intros [= <- _]]. destruct (monotonic w1) as [now w2].
  unfold converse. pose proof (open_streams_errs p w2) as Ho. destruct (open_streams p w2) as [[st|e] w3]; [|by intros [= <- _]].
  destruct (rounds fuel p request (f_add now timeout) st w3) as [[[[st1|]|e] w4]|] eqn:Er; [|by intros [= <- _]| |done].
  - pose proof (finish_errs p request (f_add now timeout) st1 w4) as Hf. destruct (finish _ _ _ _ _) as [r5 w5]. by intros [= <- _].
  - intros [= <- _]. apply (rounds_errs _ _ _ _ _ _ _ _ Er).
Qed.

Lemma run_child_ends fuel path timeout request w : exchange_rounds request <= Z.of_nat fuel ->
  exists r w', run_child fuel path timeout request w = Some (r, w') /\
    match r with Ok (Some output) => io w' = (request, output) /\ output <> [] /\ length_Z output <= MAX_RESPONSE_BYTES | Ok None => True | Raise e => False end.
Proof.
  intros Hf. unfold run_child. set (env := child_environment w). pose proof (popen_io path env w) as Hio. pose proof (popen_raises path env w) as Hraise.
  destruct (popen path env w) as [[p|e] w1]; cbn [fst] in *; [|eexists _, _; split; [done|]; cbn in Hraise; by rewrite Hraise].
  destruct (bounded_exchange_ends p request fuel timeout w1 Hio Hf) as (r & w2 & Er & _ & Hout). rewrite Er.
  pose proof (stop_process_errs p w2) as Hstop. pose proof (stop_process_io p w2) as Hw. destruct (stop_process p w2) as [[u|e] w3]; [|done]. cbn [snd] in Hw.
  eexists _, _. split; [done|]. destruct r as [[output|]|e]; [|done|].
  - rewrite Hw. destruct Hout as (? & ? & ? & _). done.
  - pose proof (bounded_exchange_errs _ _ _ _ _ _ _ Er) as He. cbn in He. by rewrite He.
Qed.

(** C30. The exchange with the decoder child returns whatever the child and the
    operating system do, after at most as many rounds as there are bytes to
    send and to accept.  At no time has the child been sent anything but a
    prefix of the request, and at most the response bound plus one byte has been
    read.  An output is returned only when the whole request was sent, the
    output is all that was read, not empty and within the bound, and the child
    ended with status 0. *)
Theorem exchange_exact fuel p request timeout w : io w = ([], []) -> exchange_rounds request <= Z.of_nat fuel ->
  exists r w', bounded_exchange fuel p request timeout w = Some (r, w') /\
    (io w').1 `prefix_of` request /\ length_Z (io w').2 <= MAX_RESPONSE_BYTES + 1 /\
    forall output, r = Ok (Some output) -> io w' = (request, output) /\ output <> [] /\ length_Z output <= MAX_RESPONSE_BYTES /\
      exists remaining w1 w2, wait p remaining w1 = (Ok 0, w2) /\ io w2 = io w'.
Proof.
  intros Hio Hf. destruct (bounded_exchange_ends p request fuel timeout w Hio Hf) as (r & w' & Er & [Hp Hl] & Hout).
  exists r, w'. split_and!; try done. by intros output ->.
Qed.

Definition decode_rounds : Z := MAX_REQUEST_BYTES + MAX_RESPONSE_BYTES + 2.
(** The arguments of a transaction are decoded by one exchange that always
    ends: the result is nothing, or bounded arguments with increasing message
    indices that are exactly what the child's answer to this request holds, for
    a transaction of the declared length; what is raised is a failure to read
    the answer's JSON or to encode its details again. *)
Theorem decode_arguments_sound fuel path timeout raw len w : decode_rounds <= Z.of_nat fuel ->
  exists r w', decode_transaction_arguments fuel path timeout raw len w = Some (r, w') /\
    match r with
    | Ok None => True
    | Ok (Some l) => arguments_ok l /\ exists text bytes id request output,
        raw = VStr text /\ b64decode text = Ok bytes /\ len = VInt (length_Z bytes) /\ length_Z bytes <= MAX_TRANSACTION_BYTES /\
        request_line id text = Ok request /\ io w' = (request, output) /\ read_answer id output = Ok (Some l)
    | Raise e => is_json_failure e = true
    end.
Proof.
  intros Hf. unfold decode_transaction_arguments.
  destruct raw as [| | | |text| |]; try by eexists _, _. destruct len as [| |len| | | |]; try by eexists _, _.
  destruct (_ || _) eqn:Eb; [by eexists _, _|]. apply orb_false_iff in Eb as [_ [_ Hmax%Z.leb_le]%negb_false_iff%andb_true_iff].
  destruct (b64decode text) as [bytes|e] eqn:Eraw; [|eexists _, _; split; [done|]; destruct (isinstance_ValueError e) eqn:Ev; [done|]].
  2: { exfalso. revert Eraw Ev. unfold b64decode. destruct (negb _); [by intros [= <-]|]. destruct (head_is _ _); [by intros [= <-]|].
       intros Eraw Ev. pose proof (a2b_base64_raises 0 0 0 false (list_of_string text)) as Ha. rewrite Eraw in Ha. cbn in Ha. congruence. }
  destruct (Z.eqb_spec (Z.of_nat (length bytes)) len) as [<-|]; [|by eexists _, _]. cbn [negb].
  destruct (uuid4_hex w) as [hex w1]. cbn zeta. set (id := "detail-" +:+ hex).
  pose proof (request_line_raises id text) as Hreq. destruct (request_line id text) as [request|e] eqn:Ereq; [|by eexists _, _].
  destruct (Z.ltb_spec MAX_REQUEST_BYTES (Z.of_nat (length request))) as [|Hlen]; [by eexists _, _|].
  destruct (run_child_ends fuel path timeout request w1) as (r & w2 & -> & Hr). { unfold exchange_rounds, decode_rounds, length_Z in *. lia. }
  destruct r as [[output|]|e]; [|by eexists _, _|done]. destruct Hr as (Hio & _).
  eexists _, _. split; [done|]. pose proof (read_answer_raises id output) as Hraise. destruct (read_answer id output) as [[l|]|e] eqn:Ea; [|done|done].
  split; [by eapply read_answer_ok|]. by exists text, bytes, id, request, output.
Qed.
End decode_proofs.

(** ** A concrete child: it answers once, with one argument of one message *)
#[local] Existing Instance ascii_runtime.
#[local] Instance demo_stack : JsonStack := {| scan_depth := 10 |}.
Definition demo_answer (arguments : val) : bytes :=
  match json_dumps (compact true) (VDict [("protocol_version", VInt 1); ("id", VStr "detail-0a"); ("ok", VBool true);
                                          ("details", VDict [("message_arguments", arguments)])]) with
  | Ok text => list_of_string text ++ [Z_byte 10]
  | Raise _ => []
  end.
Definition demo_arguments : list argument := [Argument 0 ["g1abc"; "100"] false].
Definition demo_world : Type := bytes * bytes.                   (* sent, read *)
#[local] Instance demo_process : DecoderProcess demo_world unit := {|
  monotonic w := (f_zero, w);
  uuid4_hex w := ("0a", w);
  environ w name := if String.eqb name "PATH" then Some "/usr/bin" else None;
  popen path env w := (Ok tt, ([], []));
  has_stream p s := true;
  new_selector w := (Ok tt, w);
  close_selector w := w;
  set_nonblocking p s w := (Ok tt, w);
  register p s w := (Ok tt, w);
  unregister p s w := (Ok tt, w);
  select p l t w := (Ok l, w);
  os_write p data w := (Ok (Z.min 50 (Z.of_nat (length data))), (w.1 ++ take 50 data, w.2));
  os_read p n w := let answer := match w.2 with
                                 | [] => take (Z.to_nat n) (demo_answer (VList (map argument_val demo_arguments)))
                                 | _ => [] end in
                   if Z.of_nat (length answer) <=? n then (Ok answer, (w.1, w.2 ++ answer)) else (Raise OSError, w);
  close_stream p s w := (Ok tt, w);
  poll p w := (Ok None, w);
  terminate p w := (Ok tt, w);
  kill p w := (Ok tt, w);
  wait p t w := (Ok 0, w)
|}.
#[local] Instance demo_pipes : PipeLaws demo_world unit.
Proof.
  refine {| io w := w |}; try done.
  - intros p data w. cbn. split; [lia|]. f_equal. f_equal. rewrite Z2Nat.inj_min, Nat2Z.id.
    destruct (Nat.le_gt_cases 50 (length data)); [by rewrite Nat.min_l|]. by rewrite Nat.min_r, !take_ge by (cbn; lia).
  - intros p n w. cbn [os_read demo_process]. set (answer := match w.2 with [] => _ | _ => _ end). cbn zeta.
    by destruct (Z.leb_spec (Z.of_nat (length answer)) n).
Defined.
#[local] Instance demo_errors : ProcessErrors demo_world unit.
Proof.
  split; try done. intros p n w. cbn [os_read demo_process]. cbn zeta. by destruct (_ <=? _).
Defined.

Lemma exchange_exact_witness : exists fuel r w', bounded_exchange fuel tt (list_of_string "request") (f_of_Z 1) (([], []) : demo_world) = Some (r, w') /\
  (io w').1 `prefix_of` list_of_string "request" /\ length_Z (io w').2 <= MAX_RESPONSE_BYTES + 1 /\
  forall output, r = Ok (Some output) -> io w' = (list_of_string "request", output) /\ output <> [] /\ length_Z output <= MAX_RESPONSE_BYTES /\
    exists remaining w1 w2, wait tt remaining w1 = (Ok 0, w2) /\ io w2 = io w'.
Proof. exists (Z.to_nat (exchange_rounds (list_of_string "request"))). apply exchange_exact; [reflexivity|]. rewrite Z2Nat.id; [done|by vm_compute]. Defined.
Lemma decode_arguments_sound_witness : exists fuel r w', decode_transaction_arguments fuel "/bin/decoder" (f_of_Z 1) (VStr "AAAA") (VInt 3) (([], []) : demo_world) = Some (r, w') /\
  match r with
  | Ok None => True
  | Ok (Some l) => arguments_ok l /\ exists text bytes id request output,
      VStr "AAAA" = VStr text /\ b64decode text = Ok bytes /\ VInt 3 = VInt (length_Z bytes) /\ length_Z bytes <= MAX_TRANSACTION_BYTES /\
      request_line id text = Ok request /\ io w' = (request, output) /\ read_answer id output = Ok (Some l)
  | Raise e => is_json_failure e = true
  end.
Proof. exists (Z.to_nat decode_rounds). apply decode_arguments_sound. rewrite Z2Nat.id; [done|by vm_compute]. Defined.
(** The demonstration runs: the request takes several rounds. *)
Example arguments_decoded :
  match decode_transaction_arguments 10 "/bin/decoder" (f_of_Z 1) (VStr "AAAA") (VInt 3) (([], []) : demo_world) with
  | Some (Ok (Some l), w) => l = demo_arguments /\ length w.1 = 63%nat
  | _ => False
  end.
Proof. vm_compute. done. Qed.
(** An answer whose details hold a lone surrogate, and one with a number of too
    many digits, are not turned into [None]: the request fails. *)
Definition lone_surrogate : string := string_of_list (utf8_char 55296).
Example surrogate_escapes : read_answer "detail-0a" (demo_answer (VStr lone_surrogate)) = Raise (ValueError "UnicodeEncodeError").
Proof. vm_compute. done. Qed.
Example long_number_escapes : read_answer "detail-0a" (replicate 4301 "1"%char) = Raise bad_int.
Proof. vm_compute. done. Qed.
