(* ===== verification/Keyset.v ===== *)
(** * Keyset pagination

    The lists of the API (src/api/database.py, src/api/app.py) are read in pages:
    [ORDER BY key DESC LIMIT limit + 1] below the cursor, the key of the last row
    of the page before.  Walking the pages lists every row of a table once, also
    while rows are added. *)
From Stdlib Require Import ZArith Lia Sorted.
From stdpp Require Import base gmap sets list.
From S2P Require Import Prelude.

(** ** Ordered keys *)
Class KeyOrder (K : Type) := {
  key_ltb : K -> K -> bool;
  key_irrefl : forall a, key_ltb a a = false;
  key_trans : forall a b c, key_ltb a b = true -> key_ltb b c = true -> key_ltb a c = true;
  key_total : forall a b, key_ltb a b = false -> key_ltb b a = false -> a = b
}.
#[global] Instance Z_order : KeyOrder Z.
Proof. refine {| key_ltb := Z.ltb |}; intros; lia. Defined.
#[global] Instance nat_order : KeyOrder nat.
Proof. refine {| key_ltb := Nat.ltb |}; intros *; rewrite ?Nat.ltb_irrefl, ?Nat.ltb_lt, ?Nat.ltb_ge; (lia || done). Defined.
(** PostgreSQL's row comparison *)
#[global] Instance pair_order {A B} `{KeyOrder A, KeyOrder B} : KeyOrder (A * B).
Proof.
  refine {| key_ltb a b := key_ltb a.1 b.1 || (negb (key_ltb b.1 a.1) && key_ltb a.2 b.2) |}.
  - intros [a b]. cbn. by rewrite !key_irrefl.
  - intros [a b] [c d] [e f]. cbn. rewrite !orb_true_iff, !andb_true_iff, !negb_true_iff.
    intros [H1|[H1 H2]] [H3|[H3 H4]].
    + left. by eapply key_trans.
    + left. destruct (key_ltb a e) eqn:E; [done|]. destruct (key_ltb e a) eqn:F.
      * pose proof (key_trans _ _ _ F H1). congruence.
      * by rewrite (key_total _ _ E F), H3 in H1.
    + left. destruct (key_ltb a e) eqn:E; [done|]. destruct (key_ltb e a) eqn:F.
      * pose proof (key_trans _ _ _ H3 F). congruence.
      * by rewrite <-(key_total _ _ E F), H1 in H3.
    + destruct (key_ltb a e) eqn:E; [by left|]. right. split; [|by eapply key_trans].
      destruct (key_ltb e a) eqn:F; [|done]. destruct (key_ltb a c) eqn:G.
      * pose proof (key_trans _ _ _ F G). congruence.
      * rewrite (key_total _ _ G H1) in F. congruence.
  - intros [a b] [c d]. cbn. rewrite !orb_false_iff, !andb_false_iff, !negb_false_iff. intros [H1 H2] [H3 H4].
    rewrite H1 in H4. rewrite H3 in H2. destruct H2 as [|H2]; [done|]. destruct H4 as [|H4]; [done|].
    f_equal; by apply key_total.
Defined.

Section keyset.
Context {K R : Type} `{KeyOrder K} (key : R -> K).

(** [WHERE cursor IS NULL OR key < cursor ORDER BY key DESC LIMIT n] *)
Definition below (cursor : option K) (k : K) : bool := match cursor with None => true | Some c => key_ltb k c end.
Definition descending (a b : R) : bool := negb (key_ltb (key a) (key b)).
Definition selected (cursor : option K) (rows : list R) : list R := sort_by descending (List.filter (fun r => below cursor (key r)) rows).
Definition select (cursor : option K) (n : nat) (rows : list R) : list R := take n (selected cursor rows).
(** [rows[:limit]] and the key of its last row, when there are more *)
Definition page (limit : nat) (rows : list R) : list R * option K :=
  (take limit rows, if Nat.ltb limit (length rows) then key <$> last (take limit rows) else None).

(** The client that asks for page after page; the table at the time of page [i]
    is [tables i]. *)
Fixpoint walk (fuel limit : nat) (tables : nat -> list R) (i : nat) (cursor : option K) : option (list R) :=
  match fuel with
  | O => None
  | S fuel =>
      match page limit (select cursor (S limit) (tables i)) with
      | (items, None) => Some items
      | (items, next) => app items <$> walk fuel limit tables (S i) next
      end
  end.

(** ** What a page holds *)
Local Abbreviation after := (fun a b : K => key_ltb b a = true).
Lemma descending_total a b : descending a b = true \/ descending b a = true.
Proof.
  unfold descending. destruct (key_ltb (key a) (key b)) eqn:E; [|by left]. right. destruct (key_ltb (key b) (key a)) eqn:F; [|done].
  pose proof (key_trans _ _ _ E F). by rewrite key_irrefl in *.
Qed.
Lemma descending_trans a b c : descending a b = true -> descending b c = true -> descending a c = true.
Proof.
  unfold descending. rewrite !negb_true_iff. intros E F. destruct (key_ltb (key a) (key c)) eqn:G; [|done].
  destruct (key_ltb (key c) (key b)) eqn:I; [pose proof (key_trans _ _ _ G I); congruence|].
  rewrite (key_total _ _ F I) in E. congruence.
Qed.
Lemma elem_of_selected cursor rows r : r ∈ selected cursor rows <-> r ∈ rows /\ below cursor (key r) = true.
Proof. unfold selected. rewrite elem_of_sort_by, !list_elem_of_In. apply filter_In. Qed.
Lemma selected_sorted cursor rows : NoDup (key <$> rows) -> StronglySorted after (key <$> selected cursor rows).
Proof.
  intros Hnd. assert (NoDup (key <$> selected cursor rows)) as Hn.
  { assert (NoDup (key <$> List.filter (fun r => below cursor (key r)) rows)) as Hf.
    { induction rows as [|r rows IH]; [constructor|]. rewrite fmap_cons in Hnd. apply NoDup_cons in Hnd as [Hr Hnd]. cbn [List.filter].
      destruct (below cursor (key r)); [|by apply IH]. rewrite fmap_cons. constructor; [|by apply IH].
      intros (x & Hk & Hx)%list_elem_of_fmap. apply Hr. rewrite Hk. apply list_elem_of_fmap_2. apply list_elem_of_In, filter_In in Hx as [Hx _]. by apply list_elem_of_In. }
    unfold selected. by rewrite sort_by_perm. }
  pose proof (sort_by_sorted descending descending_total descending_trans (List.filter (fun r => below cursor (key r)) rows)) as Hs.
  fold (selected cursor rows) in Hs. revert Hs Hn. generalize (selected cursor rows) as l. intros l. induction l as [|x l IH]; [constructor|].
  rewrite fmap_cons. intros [Hs Hx]%StronglySorted_inv [Hnx Hn]%NoDup_cons. constructor; [by apply IH|].
  apply Forall_fmap, Forall_forall. intros y Hy. rewrite Forall_forall in Hx. specialize (Hx y Hy). unfold descending in Hx. apply negb_true_iff in Hx.
  cbn. destruct (key_ltb (key y) (key x)) eqn:E; [done|]. exfalso. apply Hnx. rewrite (key_total _ _ Hx E). by apply list_elem_of_fmap_2.
Qed.
(** Splitting a list in descending order after its first [limit] rows *)
Lemma split_sorted (l : list R) limit r : StronglySorted after (key <$> l) -> last (take limit l) = Some r ->
  Forall (fun x => key_ltb (key r) (key x) = true \/ key x = key r) (take limit l) /\ Forall (fun x => key_ltb (key x) (key r) = true) (drop limit l).
Proof.
  intros Hs Hr. apply last_Some in Hr as [init Hi]. rewrite <-(take_drop limit l), Hi in Hs. rewrite Hi.
  rewrite !fmap_app in Hs. rewrite <-app_assoc in Hs. cbn in Hs. split.
  - apply Forall_app. split; [|by constructor; [right|]]. clear Hi. induction init as [|x init IH]; [constructor|].
    apply StronglySorted_inv in Hs as [Hs Hx]. constructor; [|by apply IH]. left. rewrite Forall_forall in Hx. apply Hx.
    apply elem_of_app. right. left.
  - clear Hi. induction init as [|x init IH]; [|by apply StronglySorted_inv in Hs as [Hs _]; apply IH].
    apply StronglySorted_inv in Hs as [_ Hs]. by apply Forall_fmap in Hs.
Qed.
Lemma below_trans c k k' : below c k = true -> key_ltb k' k = true -> below c k' = true.
Proof. destruct c as [c|]; cbn; [|done]. intros. by eapply key_trans. Qed.

(** The keys of [all] below a cursor *)
Definition left_below (all : list K) (cursor : option K) : nat := length (List.filter (below cursor) all).
Lemma left_below_page all cursor items r : NoDup (key <$> items) -> (key <$> items) ⊆ all ->
  Forall (fun x => below cursor (key x) = true /\ (key_ltb (key r) (key x) = true \/ key x = key r)) items -> below cursor (key r) = true ->
  NoDup all -> (left_below all (Some (key r)) + length items <= left_below all cursor)%nat.
Proof.
  intros Hnd Hsub Hi Hr Hall. unfold left_below. rewrite <-(length_fmap key items), <-length_app.
  apply submseteq_length, NoDup_submseteq.
  - apply NoDup_app. split; [by apply NoDup_ListNoDup, List.NoDup_filter, NoDup_ListNoDup|]. split; [|done].
    intros k Hk (x & -> & Hx)%list_elem_of_fmap. apply list_elem_of_In, filter_In in Hk as [_ Hk]. cbn in Hk.
    rewrite Forall_forall in Hi. destruct (Hi x Hx) as [_ [Hlt|Heq]].
    + pose proof (key_trans _ _ _ Hk Hlt) as Hc. by rewrite key_irrefl in Hc.
    + by rewrite Heq, key_irrefl in Hk.
  - intros k. rewrite elem_of_app, !list_elem_of_In, !filter_In, <-!list_elem_of_In. intros [[Hk Hb]|(x & -> & Hx)%list_elem_of_fmap].
    + split; [done|]. cbn in Hb. by eapply below_trans.
    + split; [by apply Hsub, list_elem_of_fmap_2|]. rewrite Forall_forall in Hi. by apply Hi.
Qed.

(** ** Walking all pages *)
Section walking.
Context (limit : nat) (tables : nat -> list R) (all : list K).
Hypothesis limit_pos : (0 < limit)%nat.
Hypothesis unique : forall i, NoDup (key <$> tables i).
Hypothesis grows : forall i, (key <$> tables i) ⊆ (key <$> tables (S i)).
Hypothesis bounded : forall i, (key <$> tables i) ⊆ all.
Hypothesis all_unique : NoDup all.

Lemma walk_spec fuel i cursor : (left_below all cursor < fuel * limit)%nat ->
  exists out, walk fuel limit tables i cursor = Some out /\ StronglySorted after (key <$> out) /\
    Forall (fun r => below cursor (key r) = true /\ exists j, (i <= j)%nat /\ r ∈ tables j) out /\
    (forall k, k ∈ key <$> tables i -> below cursor k = true -> k ∈ key <$> out).
Proof.
  revert i cursor. induction fuel as [|fuel IH]; intros i cursor Hf; [lia|]. cbn [walk]. unfold page, select.
  set (l := selected cursor (tables i)).
  assert (StronglySorted after (key <$> l)) as Hs by by apply selected_sorted.
  assert (forall r, r ∈ l <-> r ∈ tables i /\ below cursor (key r) = true) as Hin by (intros r; apply elem_of_selected).
  assert (NoDup (key <$> l)) as Hnd.
  { clear -Hs. induction l as [|x l IHl]; [constructor|]. rewrite fmap_cons in *. apply StronglySorted_inv in Hs as [Hs Hx]. constructor; [|by apply IHl].
    intros Hk. rewrite Forall_forall in Hx. specialize (Hx _ Hk). cbn in Hx. by rewrite key_irrefl in Hx. }
  assert (take limit (take (S limit) l) = take limit l) as -> by (rewrite take_take; f_equal; lia).
  destruct (Nat.ltb_spec limit (length (take (S limit) l))) as [Hlt|Hge].
  - rewrite length_take in Hlt. destruct (last (take limit l)) as [r|] eqn:El.
    2: { apply last_None in El. apply (f_equal length) in El. rewrite length_take in El. cbn in El. lia. }
    cbn [fmap option_fmap option_map]. destruct (split_sorted l limit r Hs El) as [Hpre Hpost].
    assert (r ∈ l) as Hr. { apply last_Some in El as [init El]. rewrite <-(take_drop limit l), El. set_solver. }
    assert (forall x, x ∈ take limit l -> x ∈ l) as Htake by (intros x Hx; rewrite <-(take_drop limit l); set_solver).
    assert (left_below all (Some (key r)) + limit <= left_below all cursor)%nat as Hcount.
    { replace limit with (length (take limit l)) at 1 by (rewrite length_take; lia). apply left_below_page; [|..].
      - rewrite fmap_take. eapply sublist_NoDup; [exact Hnd|apply sublist_take].
      - intros k (x & -> & Hx)%list_elem_of_fmap. apply (bounded i), list_elem_of_fmap_2. by apply Hin, Htake.
      - rewrite Forall_forall in Hpre |- *. intros x Hx. split; [by apply Hin, Htake|by apply Hpre].
      - by apply Hin.
      - done. }
    destruct (IH (S i) (Some (key r))) as (out & -> & Hso & Hbo & Hco); [lia|].
    eexists. split; [done|]. assert (StronglySorted after (key <$> take limit l)) as Hst.
    { rewrite <-(take_drop limit l), fmap_app in Hs. clear -Hs. induction (take limit l) as [|x t IHt]; [constructor|]. rewrite fmap_cons in *. cbn in Hs.
      apply StronglySorted_inv in Hs as [Hs Hx]. constructor; [by apply IHt|]. by apply Forall_app in Hx as [Hx _]. }
    split_and!.
    + rewrite fmap_app. clear -Hst Hso Hpre Hbo H. induction (take limit l) as [|x t IHt]; [done|]. rewrite fmap_cons in *. cbn.
      apply StronglySorted_inv in Hst as [Hst Hx]. apply Forall_cons in Hpre as [Hp Hpre]. constructor; [by apply IHt|]. apply Forall_app. split; [done|].
      apply Forall_fmap. eapply Forall_impl; [exact Hbo|]. cbn. intros y [Hy _]. destruct Hp as [Hp|Hp]; [by eapply key_trans|by rewrite Hp].
    + apply Forall_app. split; apply Forall_forall.
      * intros x Hx. split; [by apply Hin, Htake|]. exists i. split; [lia|]. by apply Hin, Htake.
      * intros x Hx. rewrite Forall_forall in Hbo. destruct (Hbo x Hx) as [Hb (j & Hj & Hxj)]. split; [|exists j; split; [lia|done]].
        cbn in Hb. eapply below_trans; [|exact Hb]. by apply Hin.
    + intros k Hk Hb. rewrite fmap_app, elem_of_app. pose proof Hk as (x & Ex & Hx)%list_elem_of_fmap.
      assert (x ∈ l) as Hxl by (apply Hin; by rewrite <-Ex). rewrite <-(take_drop limit l) in Hxl. apply elem_of_app in Hxl as [Hxl|Hxl].
      * left. rewrite Ex. by apply list_elem_of_fmap_2.
      * right. apply Hco; [by apply grows|]. rewrite Forall_forall in Hpost. cbn. rewrite Ex. by apply Hpost.
  - rewrite length_take in Hge. exists (take limit l). split; [done|]. rewrite take_ge by lia. split_and!; [done| |].
    + apply Forall_forall. intros x Hx. split; [by apply Hin|]. exists i. split; [lia|]. by apply Hin.
    + intros k (x & -> & Hx)%list_elem_of_fmap Hb. apply list_elem_of_fmap_2. by apply Hin.
Qed.

(** Every row of the first table is listed, rows are listed in descending order
    of distinct keys, and each is a row of some table; the walk ends after at
    most one page more than full ones. *)
Lemma walk_complete fuel : (length all < fuel * limit)%nat ->
  exists out, walk fuel limit tables 0 None = Some out /\ StronglySorted after (key <$> out) /\
    Forall (fun r => exists j, r ∈ tables j) out /\ (key <$> tables 0%nat) ⊆ (key <$> out).
Proof.
  intros Hf. destruct (walk_spec fuel 0 None) as (out & Hw & Hs & Ho & Hc).
  { eapply Nat.le_lt_trans; [|exact Hf]. unfold left_below. apply List.filter_length_le. }
  exists out. split_and!; [done|done| |].
  - eapply Forall_impl; [exact Ho|]. intros r [_ (j & _ & Hr)]. by exists j.
  - intros k Hk. by apply Hc.
Qed.
End walking.

(** A table that does not change is listed exactly. *)
Lemma keys_sorted_unique (l l' : list R) : StronglySorted after (key <$> l) -> StronglySorted after (key <$> l') -> l ≡ₚ l' -> l = l'.
Proof.
  intros Hs%StronglySorted_map_inv Hs'%StronglySorted_map_inv Hp. apply (sorted_unique (fun x y => after (key x) (key y))); [|done..].
  intros x y _ _ Hxy Hyx. pose proof (key_trans _ _ _ Hxy Hyx) as Hc. by rewrite key_irrefl in Hc.
Qed.
Lemma walk_static limit rows fuel : (0 < limit)%nat -> NoDup (key <$> rows) -> (length rows < fuel * limit)%nat ->
  walk fuel limit (fun _ => rows) 0 None = Some (selected None rows).
Proof.
  intros Hl Hn Hf. destruct (walk_complete limit (fun _ => rows) (key <$> rows) Hl (fun _ => Hn) (fun _ => reflexivity _) (fun _ => reflexivity _) Hn fuel) as (out & -> & Hs & Ho & Hc).
  { by rewrite length_fmap. }
  f_equal. assert (forall l : list R, StronglySorted after (key <$> l) -> NoDup l) as Hnd.
  { intros l. induction l as [|x l IH]; [constructor|]. rewrite fmap_cons. intros [Hl' Hx]%StronglySorted_inv. constructor; [|by apply IH].
    intros Hin. rewrite Forall_forall in Hx. specialize (Hx _ (list_elem_of_fmap_2 key _ _ Hin)). cbn in Hx. by rewrite key_irrefl in Hx. }
  apply keys_sorted_unique; [done|by apply selected_sorted|]. apply NoDup_Permutation; [by apply Hnd|by apply Hnd, selected_sorted|].
  intros r. rewrite elem_of_selected. split.
  - intros Hr. rewrite Forall_forall in Ho. by destruct (Ho r Hr) as [_ ?].
  - intros [Hr _]. destruct (proj1 (list_elem_of_fmap key out (key r)) (Hc _ (list_elem_of_fmap_2 key _ _ Hr))) as (x & Hk & Hx).
    rewrite Forall_forall in Ho. destruct (Ho x Hx) as [_ Hxr]. assert (r = x) as ->; [|done].
    clear -Hn Hr Hxr Hk. induction rows as [|y rows IH]; [by apply elem_of_nil in Hr|]. rewrite fmap_cons in Hn. apply NoDup_cons in Hn as [Hy Hn].
    apply elem_of_cons in Hr as [->|Hr]; apply elem_of_cons in Hxr as [->|Hxr]; [done| | |by apply IH].
    + exfalso. apply Hy. rewrite Hk. by apply list_elem_of_fmap_2.
    + exfalso. apply Hy. rewrite <-Hk. by apply list_elem_of_fmap_2.
Qed.
End keyset.
