(* ===== verification/ExplorerRows.v ===== *)
(** * api/app.py: what a stored row becomes in an answer

    The public form of the stored transaction summary, the intent of a
    transaction (src/api/transaction_semantics.py) and the items of the lists of
    blocks and transactions.  The datetime psycopg makes of a TIMESTAMPTZ column
    is the class [Timestamps]; answers are records of the response models, whose
    constraints are written out where stored data may violate them. *)
From Stdlib Require Import ZArith Lia Ascii String.
From stdpp Require Import base gmap sets list strings.
From S2P Require Import Prelude PyStr PyVal Codec Scan Digits Rfc3339 Summary Participants.
Open Scope Z_scope.

(** The instant of a column, in microseconds (see [Rfc3339]) *)
Class Timestamps := { instant : val -> Z }.
(** [isoformat_utc_z(value)] of src/api/database.py *)
Definition isoformat_utc_z (t : Z) : string :=
  let '(y, m, d) := ord2ymd (t / DAY + 1) in
  let us := t mod DAY in
  padded 4 y +:+ "-" +:+ padded 2 m +:+ "-" +:+ padded 2 d +:+ "T" +:+
  padded 2 (us / 3600000000) +:+ ":" +:+ padded 2 (us / 60000000 mod 60) +:+ ":" +:+ padded 2 (us / 1000000 mod 60) +:+
  (if us mod 1000000 =? 0 then "" else "." +:+ padded 6 (us mod 1000000)) +:+ "Z".

Definition SUMMARY_CORE_FIELDS : list string := ["type"; "category"; "action"; "label"].
Definition SUMMARY_FIELD_LIMITS : list (string * Z) := [("type", 160); ("category", 64); ("action", 64); ("label", 80)].
Definition SUMMARY_MESSAGE_FIELDS : list string :=
  SUMMARY_CORE_FIELDS ++ ["sender"; "recipient"; "amount"; "send"; "package_path"; "package_name"; "function"; "args_count";
                          "file_count"; "expires_at"; "allow_paths_count"; "spend_limit"; "spend_period"].
Definition SUMMARY_SCALAR_STRING_LIMIT : Z := 160.
Definition SUMMARY_INTEGER_LIMIT : Z := Z.shiftl 1 255 - 1.
Definition SUMMARY_MAX_BYTES : Z := 16384.

(** ** Transaction intent *)
Definition BASE_OPERATIONS : list (string * string) :=
  [("gno.bank.MsgSend", "Coin Transfer"); ("gno.vm.MsgAddPackage", "Deployment"); ("gno.vm.MsgRun", "Package Run")].
Definition STANDARD_OPERATIONS : list (string * list (string * string)) :=
  [("grc721", [("Mint", "NFT Mint"); ("TransferFrom", "NFT Transfer"); ("SafeTransferFrom", "NFT Transfer");
               ("Approve", "NFT Approval"); ("SetApprovalForAll", "NFT Approval"); ("Burn", "NFT Burn")]);
   ("grc20", [("Transfer", "GRC20 Transfer"); ("TransferFrom", "GRC20 Transfer"); ("Approve", "GRC20 Approval")])].
Definition given (o : option string) : bool := match o with Some s => negb (String.eqb s "") | None => false end.
Definition semantic_transaction_operation (raw_type current_operation : string) (package_path function verified_standard : option string) : string :=
  match dict_get raw_type BASE_OPERATIONS with
  | Some operation => operation
  | None =>
      if negb (String.eqb raw_type "gno.vm.MsgCall") then current_operation
      else if negb (given package_path) || negb (given function) then "Contract Call"
      else default "Contract Call" (standard ← verified_standard; functions ← dict_get standard STANDARD_OPERATIONS;
                                    f ← function; dict_get f functions)
  end.
(** src/api/nft_actions.py *)
Definition NFT_ACTION_BY_FUNCTION : list (string * string) :=
  [("Mint", "mint"); ("TransferFrom", "transfer"); ("SafeTransferFrom", "transfer"); ("Approve", "approval");
   ("SetApprovalForAll", "approval"); ("Burn", "burn")].
Definition classify_nft_action (function_name : val) : option string :=
  match function_name with VStr f => dict_get f NFT_ACTION_BY_FUNCTION | _ => None end.

Section rows.
Context `{PyRuntime} `{Timestamps}.

(** [s.startswith(("0x", "0X"))] and what follows *)
Definition without_0x (s : string) : string :=
  match s with
  | String "0" (String c r) => if bool_decide (c = "x"%char) || bool_decide (c = "X"%char) then r else s
  | _ => s
  end.
Definition normalize_block_hash (block_hash_hex : string) : string := py_upper (without_0x block_hash_hex).
Definition hash_char (a : ascii) : bool := let z := byte_Z a in ((48 <=? z) && (z <=? 57)) || ((65 <=? z) && (z <=? 70)).
Definition is_tx_hash (s : string) : bool := Nat.eqb (String.length s) 64 && str_forallb hash_char s.
Definition normalize_tx_hash (tx_hash_hex : option string) : option string :=
  tx_hash_hex ← tx_hash_hex;
  let normalized := py_upper (without_0x tx_hash_hex) in
  if is_tx_hash normalized then Some normalized else None.

(** ** The public summary *)
Definition printable (s : string) : bool := forallb is_printable_char (chars s).
Definition public_summary_string (value : val) (maximum : Z) : bool :=
  match value with VStr s => (0 <? py_len s) && (py_len s <=? maximum) && printable s | _ => false end.
Definition public_summary_scalar (value : val) : bool :=
  match value with
  | VNone | VBool _ => true
  | VStr s => (py_len s <=? SUMMARY_SCALAR_STRING_LIMIT) && printable s
  | VInt z => (- SUMMARY_INTEGER_LIMIT <=? z) && (z <=? SUMMARY_INTEGER_LIMIT)
  | VFloat f => isfinite f
  | VList _ | VDict _ => false
  end.
(** [[a-z][a-z0-9_-]*] *)
Definition family_re (s : string) : bool :=
  match s with
  | String a r =>
      let lower c := (97 <=? byte_Z c) && (byte_Z c <=? 122) in
      lower a && str_forallb (fun c => lower c || ((48 <=? byte_Z c) && (byte_Z c <=? 57)) || in_strs (String c EmptyString) ["_"; "-"]) r
  | EmptyString => false
  end.
Definition core_limit (field : string) : Z := default 0 (dict_get field SUMMARY_FIELD_LIMITS).
Definition value_error : exc := ValueError "".
(** One field of a message, when it is present *)
Definition public_field (stored : list (string * val)) (message : list (string * val)) (field : string) : res (list (string * val)) :=
  match dict_get field stored with
  | None => Ok message
  | Some item =>
      _ ← require (if in_strs field SUMMARY_CORE_FIELDS then public_summary_string item (core_limit field) else public_summary_scalar item) value_error;
      Ok (dict_set field item message)
  end.
Definition public_message (stored : val) : res (list (string * val)) :=
  match stored with
  | VDict stored =>
      message ← foldM_res (public_field stored) [] SUMMARY_MESSAGE_FIELDS;
      _ ← require (forallb (fun field => dict_has field message) SUMMARY_CORE_FIELDS) value_error;
      Ok message
  | _ => Raise value_error
  end.
Definition primary_field (primary : list (string * val)) (field : string) : res string :=
  match dget primary field with
  | VStr s => _ ← require (public_summary_string (VStr s) (core_limit field)) value_error; Ok s
  | _ => Raise value_error
  end.
Definition core_equal (s : summary) (message : list (string * val)) : bool :=
  py_eq (dget message "type") (VStr (sm_type s)) && py_eq (dget message "category") (VStr (sm_category s)) &&
  py_eq (dget message "action") (VStr (sm_action s)) && py_eq (dget message "label") (VStr (sm_label s)).
Definition public_body (value : val) : res summary :=
  match value with
  | VDict v =>
      _ ← require (forallb (fun k => dict_has k v) REQUIRED_FIELDS) value_error;
      _ ← require (match dget v "schema_version" with VInt z => z =? 1 | _ => false end) value_error;
      chain_family ← match dget v "chain_family" with
                     | VStr s => _ ← require (public_summary_string (VStr s) 64 && family_re s) value_error; Ok s
                     | _ => Raise value_error
                     end;
      parse_status ← match dget v "parse_status" with
                     | VStr s => _ ← require (in_strs s PARSE_STATUSES) value_error; Ok s
                     | _ => Raise value_error
                     end;
      count ← match dget v "message_count" with
              | VNone => Ok None
              | VInt c => _ ← require ((0 <=? c) && (c <=? 100000)) value_error; Ok (Some c)
              | _ => Raise value_error
              end;
      match dget v "messages_truncated", dget v "primary" with
      | VBool truncated, VDict primary =>
          type ← primary_field primary "type";
          category ← primary_field primary "category";
          action ← primary_field primary "action";
          label ← primary_field primary "label";
          match dget v "messages" with
          | VList stored_messages =>
              _ ← require (Nat.leb (length stored_messages) 20) value_error;
              messages ← mapM_res public_message stored_messages;
              let n := Z.of_nat (length messages) in
              _ ← require (match count with Some c => n <=? c | None => true end) value_error;
              _ ← require (match count with Some c => (c <=? n) || truncated | None => true end) value_error;
              let public := Summary chain_family parse_status count truncated type category action label messages in
              _ ← require (match messages with m :: _ => core_equal public m | [] => true end) value_error;
              text ← json_dumps (Build_json_opts false true "," ":" false) (summary_val public);
              _ ← require (utf8_valid (list_of_string text)) (ValueError "UnicodeEncodeError");
              _ ← require (Z.of_nat (String.length text) <=? SUMMARY_MAX_BYTES) value_error;
              Ok public
          | _ => Raise value_error
          end
      | _, _ => Raise value_error
      end
  | _ => Raise value_error
  end.
Definition public_transaction_summary (value : val) : res (option summary) :=
  match value with
  | VNone => Ok None
  | _ => match public_body value with
         | Ok s => Ok (Some s)
         | Raise e => if isinstance_TypeError e || isinstance_ValueError e then Ok None else Raise e
         end
  end.

(** ** Items of the lists *)
Definition text_field (message : list (string * val)) (field : string) : option string := as_str (dget message field).
Definition summary_operation (s : option summary) (verified_standards : list (string * string)) : string * string * option Z :=
  match s with
  | None => ("unknown", "Transaction", None)
  | Some s =>
      let package_path := m ← head (sm_messages s); text_field m "package_path" in
      let function := m ← head (sm_messages s); text_field m "function" in
      (sm_type s,
       semantic_transaction_operation (sm_type s) (sm_label s) package_path function
         (if given package_path then p ← package_path; dict_get p verified_standards else None),
       sm_message_count s)
  end.
End rows.

Section items.
Context `{PyRuntime} `{Timestamps}.

(** [BlockSummary] *)
Record block_item := BlockItem {
  bi_height : Z;
  bi_hash : string;
  bi_time : string;
  bi_proposer : option string;
  bi_moniker : option string;
  bi_tx_count : Z
}.
(** The columns of [_execution_fields_from_row], the gas as text *)
Record execution_fields := ExecutionFields {
  ex_status : option string;
  ex_gas_wanted : option string;
  ex_gas_used : option string;
  ex_error : option string;
  ex_log : option string;
  ex_info : option string
}.
(** [TransactionListItem] *)
Record transaction_item := TransactionItem {
  ti_height : Z;
  ti_index : Z;
  ti_hash : option string;
  ti_time : string;
  ti_type : string;
  ti_operation : string;
  ti_message_count : option Z;
  ti_execution : execution_fields
}.
Definition transaction_item_valid (i : transaction_item) : bool :=
  (1 <=? ti_height i) && (0 <=? ti_index i) && (1 <=? py_len (ti_type i)) && (py_len (ti_type i) <=? 160)
  && (1 <=? py_len (ti_operation i)) && (py_len (ti_operation i) <=? 80)
  && match ti_message_count i with Some c => (0 <=? c) && (c <=? 100000) | None => true end
  && match ex_status (ti_execution i) with Some s => in_strs s ["success"; "failed"] | None => true end.
(** A row of [TRANSACTIONS_SQL] or [ACCOUNT_TRANSACTIONS_SQL] *)
Record tx_page_row := TxPageRow {
  tp_key : Z * Z;                       (* block_height, tx_index *)
  tp_hash : option string;
  tp_summary : option val;
  tp_time : val;
  tp_execution : execution_fields
}.
Definition list_item (row : tx_page_row) (s : option summary) (verified_standards : list (string * string)) : transaction_item :=
  let '(type, operation, message_count) := summary_operation s verified_standards in
  TransactionItem (tp_key row).1 (tp_key row).2 (normalize_tx_hash (tp_hash row)) (isoformat_utc_z (instant (tp_time row)))
    type operation message_count (tp_execution row).
Definition transaction_list_item_from_row (row : tx_page_row) (summary : option summary) (verified_standards : list (string * string)) : res transaction_item :=
  s ← match summary with Some s => Ok (Some s) | None => public_transaction_summary (default VNone (tp_summary row)) end;
  let i := list_item row s verified_standards in
  _ ← require (transaction_item_valid i) ValidationError;
  Ok i.

(** [AccountTransactionListItem] *)
Record account_item := AccountItem {
  ai_item : transaction_item;
  ai_direction : string;
  ai_counterparty : option string;
  ai_amount : val
}.
(** The roles of the address in the messages: [indexed], refused when malformed *)
Definition participation_ok (participation : list (Z * string)) : bool :=
  negb (bool_decide (participation = [])) &&
  forallb (fun p => (0 <=? p.1) && (p.1 <=? 19) && in_strs p.2 ["sender"; "recipient"]) participation.
Definition direction (participation : list (Z * string)) : string :=
  match existsb (fun p => String.eqb p.2 "sender") participation, existsb (fun p => String.eqb p.2 "recipient") participation with
  | true, true => "self"
  | true, false => "outgoing"
  | _, _ => "incoming"
  end.
(** The first message the address takes part in, as the public summary has it *)
Fixpoint own_message (address : string) (participation : list (Z * string)) (index : Z) (messages : list (list (string * val))) : option (list (string * val)) :=
  match messages with
  | [] => None
  | m :: messages =>
      if (bool_decide ((index, "sender") ∈ participation) && py_eq (dget m "sender") (VStr address))
         || (bool_decide ((index, "recipient") ∈ participation) && py_eq (dget m "recipient") (VStr address))
      then Some m else own_message address participation (index + 1) messages
  end.
(** The response model takes a bool for an int. *)
Definition amount_value (v : val) : val := match v with VBool b => VInt (Z.b2z b) | _ => v end.
Definition account_transaction_item_from_row (row : tx_page_row) (participation : list (Z * string)) (address : string)
    (profile : NetworkProfile) (summary : option summary) (verified_standards : list (string * string)) : res account_item :=
  _ ← require (participation_ok participation) (ValueError "Account participation");
  s ← match summary with Some s => Ok (Some s) | None => public_transaction_summary (default VNone (tp_summary row)) end;
  let direction := direction participation in
  let message := s ← s; own_message address participation 0 (sm_messages s) in
  let amount := match message with
                | None => VNone
                | Some m => match dget m "amount" with VNone => dget m "send" | v => v end
                end in
  let candidate := m ← message; as_str (dget m (if String.eqb direction "outgoing" then "recipient" else "sender")) in
  let counterparty := match candidate with
                      | Some c => if negb (String.eqb direction "self") && validate_account_address c profile then Some c else None
                      | None => None
                      end in
  let i := list_item row s verified_standards in
  _ ← require (transaction_item_valid i) ValidationError;
  Ok (AccountItem i direction counterparty (amount_value amount)).
End items.

(** ** The public summary never raises *)
Section summary_proofs.
Context `{PyRuntime}.

Lemma public_field_raises stored message field : raises isinstance_ValueError (public_field stored message field).
Proof. unfold public_field. destruct (dict_get field stored); [|done]. destruct (in_strs _ _); [destruct (public_summary_string _ _)|destruct (public_summary_scalar _)]; done. Qed.
Lemma public_message_raises stored : raises isinstance_ValueError (public_message stored).
Proof.
  unfold public_message. destruct stored as [| | | | | |d]; try done. apply raises_bind; [|intros m _; by destruct (forallb _ _)].
  generalize (@nil (string * val)). induction SUMMARY_MESSAGE_FIELDS as [|f l IH]; intros acc; [done|]. cbn.
  apply raises_bind; [apply public_field_raises|]. intros acc' _. apply IH.
Qed.
Lemma primary_field_raises p f : raises isinstance_ValueError (primary_field p f).
Proof. unfold primary_field. destruct (dget p f); try done. by destruct (public_summary_string _ _). Qed.
Lemma mapM_raises {A B} (X : exc -> bool) (f : A -> res B) l : (forall x, raises X (f x)) -> raises X (mapM_res f l).
Proof. intros Hf. induction l as [|x l IH]; [done|]. cbn. apply raises_bind; [done|]. intros y _. by apply raises_bind. Qed.
Lemma public_body_raises value : raises isinstance_ValueError (public_body value).
Proof.
  assert (forall b, raises isinstance_ValueError (require b value_error)) as Hreq by (by intros []).
  unfold public_body. destruct value as [| | | | | |v]; try done.
  apply raises_bind; [done|]. intros _ _. apply raises_bind; [done|]. intros _ _.
  apply raises_bind. { destruct (dget v "chain_family"); try done. by apply raises_bind. } intros family _.
  apply raises_bind. { destruct (dget v "parse_status"); try done. by apply raises_bind. } intros status _.
  apply raises_bind. { destruct (dget v "message_count"); try done. by apply raises_bind. } intros count _.
  destruct (dget v "messages_truncated"); try done. destruct (dget v "primary") as [| | | | | |primary]; try done.
  do 4 (apply raises_bind; [apply primary_field_raises|]; intros ? _).
  destruct (dget v "messages") as [| | | | |l|]; try done.
  apply raises_bind; [done|]. intros _ _. apply raises_bind; [apply mapM_raises, public_message_raises|]. intros messages _. cbn zeta.
  do 3 (apply raises_bind; [done|]; intros _ _). apply raises_bind; [apply json_dumps_raises|]. intros text _.
  apply raises_bind; [by destruct (utf8_valid _)|]. intros _ _. by apply raises_bind.
Qed.
Lemma public_summary_total value : exists s, public_transaction_summary value = Ok s.
Proof.
  unfold public_transaction_summary. pose proof (public_body_raises value) as Hr.
  destruct (public_body value) as [s|e]; [by destruct value; eexists|]. cbn in Hr. rewrite Hr, orb_true_r. destruct value; by eexists.
Qed.
End summary_proofs.

(** ** The public summary is bounded and its own public form *)
Section fixed_point.
Context `{PyRuntime}.

(** The fields of a message that are shown, in their order *)
Definition projected (fields : list string) (stored : list (string * val)) : list (string * val) :=
  omap (fun f => pair f <$> dict_get f stored) fields.
Definition field_check (field : string) (item : val) : bool :=
  if in_strs field SUMMARY_CORE_FIELDS then public_summary_string item (core_limit field) else public_summary_scalar item.
Lemma projected_snoc fields f stored : projected (fields ++ [f]) stored = projected fields stored ++ match dict_get f stored with Some i => [(f, i)] | None => [] end.
Proof. unfold projected. rewrite omap_app. f_equal. cbn. by destruct (dict_get f stored). Qed.
Lemma projected_keys fields stored k : k ∈ dict_keys (projected fields stored) -> k ∈ fields.
Proof.
  unfold dict_keys. intros ([j v] & -> & (f & Hf & Hp)%list_elem_of_omap)%list_elem_of_fmap. by apply fmap_Some in Hp as (x & _ & [= -> _]).
Qed.
Lemma dict_set_new k v (d : list (string * val)) : k ∉ dict_keys d -> dict_set k v d = d ++ [(k, v)].
Proof.
  induction d as [|[j w] d IH]; [done|]. cbn. rewrite not_elem_of_cons. intros [Hj Hk]. destruct (String.eqb_spec k j) as [->|]; [done|]. by rewrite IH.
Qed.
(** The loop over the fields of a message *)
Lemma public_fields_eq fields stored : NoDup fields ->
  foldM_res (public_field stored) [] fields =
  if forallb (fun kv => field_check kv.1 kv.2) (projected fields stored) then Ok (projected fields stored) else Raise value_error.
Proof.
  induction fields as [|f fields IH] using rev_ind; [done|]. intros [Hn [Hf _]]%NoDup_app. rewrite foldM_res_app, IH by done.
  rewrite projected_snoc, forallb_app. destruct (forallb _ (projected fields stored)) eqn:Ec; [|done]. cbn [mbind res_bind andb foldM_res].
  unfold public_field. destruct (dict_get f stored) as [i|]; [|cbn; by rewrite app_nil_r]. cbn [forallb fst snd]. fold (field_check f i). rewrite andb_true_r.
  destruct (field_check f i); [|done]. cbn. rewrite dict_set_new; [done|]. intros Hk%projected_keys. apply (Hf f); [done|left].
Qed.
Lemma fields_NoDup : NoDup SUMMARY_MESSAGE_FIELDS.
Proof. apply (bool_decide_unpack _). by vm_compute. Qed.
Lemma public_message_Ok stored m : public_message stored = Ok m ->
  exists d, stored = VDict d /\ m = projected SUMMARY_MESSAGE_FIELDS d /\ Forall (fun kv => field_check kv.1 kv.2 = true) m /\
    forallb (fun field => dict_has field m) SUMMARY_CORE_FIELDS = true.
Proof.
  unfold public_message. destruct stored as [| | | | | |d]; try done. rewrite public_fields_eq by apply fields_NoDup. intros Hm. exists d. split; [done|].
  revert Hm. generalize (projected SUMMARY_MESSAGE_FIELDS d) as q. intros q. destruct (forallb _ q) eqn:Ec; [|done].
  intros (q' & Hq & Hm)%bind_Ok. injection Hq as <-. apply bind_Ok in Hm as ([] & Hh%require_Ok & Hm). injection Hm as <-. split_and!; [done| |done]. apply Forall_forall. intros kv Hkv. rewrite forallb_forall in Ec. by apply Ec, list_elem_of_In.
Qed.
Lemma dict_get_key k (d : list (string * val)) v : dict_get k d = Some v -> k ∈ dict_keys d.
Proof. induction d as [|[j w] d IH]; [done|]. cbn. destruct (String.eqb_spec k j) as [->|]; [left|right; by apply IH]. Qed.
Lemma projected_absent fields stored f : dict_get f stored = None -> dict_get f (projected fields stored) = None.
Proof.
  intros Hf. induction fields as [|g fields IH]; [done|]. unfold projected. cbn. fold (projected fields stored).
  destruct (dict_get g stored) as [i|] eqn:Eg; cbn; [|done]. destruct (String.eqb_spec f g) as [->|]; [congruence|done].
Qed.
Lemma dict_get_projected fields stored f : f ∈ fields -> dict_get f (projected fields stored) = dict_get f stored.
Proof.
  induction fields as [|g fields IH]; [by intros ?%elem_of_nil|]. intros Hf. unfold projected. cbn. fold (projected fields stored).
  destruct (decide (f = g)) as [->|Hne].
  - destruct (dict_get g stored) as [i|] eqn:Eg; cbn; [by rewrite String.eqb_refl|by apply projected_absent].
  - apply elem_of_cons in Hf as [->|Hf]; [done|]. destruct (dict_get g stored) as [i|]; cbn; [|by apply IH].
    destruct (String.eqb_spec f g) as [->|]; [done|by apply IH].
Qed.
Lemma projected_twice fields stored : projected fields (projected fields stored) = projected fields stored.
Proof.
  unfold projected at 1 3. assert (forall l, l ⊆ fields -> omap (fun f => pair f <$> dict_get f (projected fields stored)) l = omap (fun f => pair f <$> dict_get f stored) l) as Hl; [|by apply Hl].
  induction l as [|f l IH]; [done|]. intros Hs. cbn. rewrite dict_get_projected by (apply Hs; left). rewrite IH by (intros x Hx; apply Hs; by right). done.
Qed.
Lemma public_message_fixed stored m : public_message stored = Ok m -> public_message (VDict m) = Ok m.
Proof.
  intros (d & -> & -> & Hc & Hh)%public_message_Ok. unfold public_message. rewrite public_fields_eq by apply fields_NoDup. rewrite projected_twice.
  assert (forallb (fun kv => field_check kv.1 kv.2) (projected SUMMARY_MESSAGE_FIELDS d) = true) as ->.
  { apply forallb_forall. intros kv Hkv. rewrite Forall_forall in Hc. by apply Hc, list_elem_of_In. }
  cbn [mbind res_bind]. by rewrite Hh.
Qed.
Lemma public_messages_fixed l ms : mapM_res public_message l = Ok ms -> mapM_res public_message (map VDict ms) = Ok ms.
Proof.
  revert ms. induction l as [|v l IH]; intros ms; cbn; [by intros [= <-]|]. intros (m & Hm & Hms)%bind_Ok. apply bind_Ok in Hms as (ms' & Hms & [= <-]).
  cbn [map mapM_res]. rewrite (public_message_fixed _ _ Hm). cbn [mbind res_bind]. by rewrite (IH _ Hms).
Qed.

(** What is shown of any stored value *)
Record public_bounded (s : summary) : Prop := {
  pb_family : public_summary_string (VStr (sm_chain_family s)) 64 && family_re (sm_chain_family s) = true;
  pb_status : sm_parse_status s ∈ PARSE_STATUSES;
  pb_core : forall field, field ∈ SUMMARY_CORE_FIELDS ->
    public_summary_string (dget [("type", VStr (sm_type s)); ("category", VStr (sm_category s)); ("action", VStr (sm_action s)); ("label", VStr (sm_label s))] field) (core_limit field) = true;
  pb_messages : (length (sm_messages s) <= 20)%nat;
  pb_count : forall c, sm_message_count s = Some c -> Z.of_nat (length (sm_messages s)) <= c <= 100000 /\
    (sm_messages_truncated s = false -> c = Z.of_nat (length (sm_messages s)));
  pb_message : Forall (fun m => dict_keys m ⊆ SUMMARY_MESSAGE_FIELDS /\ SUMMARY_CORE_FIELDS ⊆ dict_keys m /\
    Forall (fun kv => field_check kv.1 kv.2 = true) m) (sm_messages s);
  pb_first : forall m, head (sm_messages s) = Some m -> core_equal s m = true;
  pb_size : exists text, json_dumps (Build_json_opts false true "," ":" false) (summary_val s) = Ok text /\ Z.of_nat (String.length text) <= SUMMARY_MAX_BYTES
}.
Lemma primary_field_Ok p f s : primary_field p f = Ok s -> public_summary_string (VStr s) (core_limit f) = true.
Proof. unfold primary_field. destruct (dget p f); try done. intros ([] & Hr%require_Ok & [= <-])%bind_Ok. done. Qed.
Lemma public_body_fixed value s : public_body value = Ok s -> public_bounded s /\ public_body (summary_val s) = Ok s.
Proof.
  unfold public_body. destruct value as [| | | | | |v]; try done.
  intros ([] & _ & Hv)%bind_Ok. apply bind_Ok in Hv as ([] & _ & Hv). apply bind_Ok in Hv as (family & Hfam & Hv).
  apply bind_Ok in Hv as (status & Hst & Hv). apply bind_Ok in Hv as (count & Hcount & Hv).
  destruct (dget v "messages_truncated") as [|truncated| | | | |]; try done. destruct (dget v "primary") as [| | | | | |primary]; try done.
  apply bind_Ok in Hv as (type & Hty%primary_field_Ok & Hv). apply bind_Ok in Hv as (category & Hca%primary_field_Ok & Hv).
  apply bind_Ok in Hv as (action & Hac%primary_field_Ok & Hv). apply bind_Ok in Hv as (label & Hla%primary_field_Ok & Hv).
  destruct (dget v "messages") as [| | | | |stored|]; try done. apply bind_Ok in Hv as ([] & Hlen%require_Ok & Hv).
  apply bind_Ok in Hv as (messages & Hms & Hv). cbn zeta in Hv. apply bind_Ok in Hv as ([] & Hn%require_Ok & Hv). apply bind_Ok in Hv as ([] & Ht%require_Ok & Hv).
  apply bind_Ok in Hv as ([] & Hfirst%require_Ok & Hv). apply bind_Ok in Hv as (text & Htext & Hv). apply bind_Ok in Hv as ([] & Hutf & Hv).
  apply bind_Ok in Hv as ([] & Hsize & [= <-]).
  assert (public_summary_string (VStr family) 64 && family_re family = true) as Hfam'.
  { destruct (dget v "chain_family"); try done. by apply bind_Ok in Hfam as ([] & Hr%require_Ok & [= <-]). }
  assert (in_strs status PARSE_STATUSES = true) as Hst'.
  { destruct (dget v "parse_status"); try done. by apply bind_Ok in Hst as ([] & Hr%require_Ok & [= <-]). }
  assert (match count with Some c => (0 <=? c) && (c <=? 100000) = true | None => True end) as Hcount'.
  { destruct (dget v "message_count"); try done; [by injection Hcount as <-|]. by apply bind_Ok in Hcount as ([] & Hr%require_Ok & [= <-]). }
  assert (length messages = length stored) as Hls by by apply mapM_res_length in Hms.
  split.
  - constructor; cbn; try done.
    + by apply in_strs_spec.
    + intros field Hf. repeat (apply elem_of_cons in Hf as [->|Hf]; [done|]). by apply elem_of_nil in Hf.
    + apply Nat.leb_le in Hlen. lia.
    + intros c ->. cbn in Hcount', Hn, Ht. apply andb_true_iff in Hcount' as [_ Hc%Z.leb_le]. apply Z.leb_le in Hn. split; [lia|]. intros ->. rewrite orb_false_r in Ht. apply Z.leb_le in Ht. lia.
    + clear -Hms. revert messages Hms. induction stored as [|m stored IH]; intros messages; cbn; [intros [= <-]; constructor|].
      intros (m' & Hm & Hms)%bind_Ok. apply bind_Ok in Hms as (ms & Hms & [= <-]). constructor; [|by apply IH].
      apply public_message_Ok in Hm as (d & _ & -> & Hc & Hh). split_and!; [intros k; apply projected_keys| |done].
      intros f Hf. rewrite forallb_forall in Hh. apply list_elem_of_In in Hf. specialize (Hh f Hf). unfold dict_has in Hh.
      destruct (dict_get f _) as [w|] eqn:Ew; [|done]. by eapply dict_get_key.
    + intros m Hm. by destruct messages as [|m' ms]; [|injection Hm as ->].
    + exists text. split; [done|]. by apply require_Ok, Z.leb_le in Hsize.
  - unfold summary_val. cbn -[public_summary_string family_re core_limit PARSE_STATUSES mapM_res public_message json_dumps SUMMARY_MAX_BYTES core_equal].
    rewrite Hfam'. cbn [require mbind res_bind]. rewrite Hst'. cbn [require mbind res_bind].
    assert ((match match count with Some c => VInt c | None => VNone end with
      | VNone => Ok None | VInt c => _ ← require ((0 <=? c) && (c <=? 100000)) value_error; Ok (Some c) | _ => Raise value_error end) = Ok count) as ->.
    { destruct count; [by rewrite Hcount'|done]. }
    cbn [mbind res_bind]. unfold primary_field. cbn [dget dict_get String.eqb Ascii.eqb eqb default]. 
    rewrite Hty, Hca, Hac, Hla. cbn [require mbind res_bind]. rewrite length_map, (public_messages_fixed _ _ Hms), Hls, Hlen. cbn [require mbind res_bind].
    rewrite Hn. cbn [require mbind res_bind]. rewrite Ht. cbn [require mbind res_bind]. rewrite Hfirst. cbn [require mbind res_bind]. match goal with |- context [json_dumps ?o ?v] => change (json_dumps o v) with (json_dumps o (summary_val (Summary family status count truncated type category action label messages))) end.
    rewrite Htext. cbn [mbind res_bind]. rewrite Hutf. cbn [mbind res_bind]. by rewrite Hsize.
Qed.
End fixed_point.


(** ** Stored but not shown

    The indexer keeps complete package paths of up to 256 characters
    ([Summary.MAX_PACKAGE_PATH_LENGTH]); a summary with one of more than 160 is
    stored as it is and not published at all. *)
#[local] Existing Instance ascii_runtime.
Definition path_summary (n : nat) : val :=
  let core := [("type", VStr "gno.vm.MsgCall"); ("category", VStr "vm"); ("action", VStr "call"); ("label", VStr "Call")] in
  VDict [("schema_version", VInt 1); ("chain_family", VStr "gno"); ("parse_status", VStr "parsed"); ("message_count", VInt 1);
         ("messages_truncated", VBool false); ("primary", VDict core);
         ("messages", VList [VDict (core ++ [("package_path", VStr ("gno.land/r/" +:+ string_of_list (replicate n "a"%char)));
                                             ("package_path_complete", VBool true)])])].
Definition shown (value : val) : bool := match public_transaction_summary value with Ok (Some _) => true | _ => false end.
Example long_path_hidden :
  match normalize_summary (path_summary 149) "unparsed", normalize_summary (path_summary 150) "unparsed" with
  | Ok v, Ok w => shown v = true /\ shown w = false /\ w = path_summary 150
  | _, _ => False
  end.
Proof. vm_compute. done. Qed.
