(* ===== verification/Schema.v ===== *)
(** * src/database/schema.sql: the CHECK constraints behind the API's answers

    The constraints of the tables the API reads, as boolean functions of a row,
    and the invariant that every stored row satisfies them.  The server that
    enforces them is the class [EnforcesSchema]. *)
From Stdlib Require Import ZArith Lia Ascii String.
From stdpp Require Import base gmap sets list strings.
From S2P Require Import Prelude PyStr PyVal Codec InspectRpc Summary Participants Parsers RealmCatalog Database Finalized ValopersStore ExplorerRows.
Open Scope Z_scope.

Definition VOTE_STATUSES : list string := ["commit"; "nil"; "absent"; "invalid"].
(** INTEGER; BIGINT is [bigint] *)
Definition int4 (z : Z) : bool := (- 2 ^ 31 <=? z) && (z <? 2 ^ 31).
(** [transactions_tx_index_check], [..._decode_status_*], [..._tx_hash_*] *)
Definition tx_checks (k : Z * Z) (r : tx_row) : bool :=
  let '(raw, length, decoded_length, decode_status, tx_hash) := tr_columns r in
  bigint k.1 && int4 k.2 && (0 <=? k.2) && (0 <=? length) &&
  in_strs decode_status ["decoded"; "invalid_base64"; "not_attempted"] &&
  match tx_hash with Some s => is_tx_hash s | None => true end &&
  Bool.eqb (bool_decide (is_Some tx_hash)) (String.eqb decode_status "decoded").
(** [transaction_participants_*_check] *)
Definition participant_checks (k : Z * Z) (q : participant_row) : bool :=
  let '(message_index, role, address) := q in
  (0 <? k.1) && (0 <=? k.2) && (Z.of_nat message_index <=? 19) && in_strs role ["sender"; "recipient"].
(** [transaction_execution_results_*_check] *)
Definition result_checks (r : result_row) : bool :=
  in_strs (rr_status r) ["success"; "failed"] && (0 <=? rr_gas_wanted r) && (0 <=? rr_gas_used r) &&
  Bool.eqb (bool_decide (is_Some (rr_error r))) (String.eqb (rr_status r) "failed").
(** [validator_signatures_*_check] *)
Definition vote_status_of (s : stored_signature) : string := let '(status, _, _, _, _, _, _, _, _, _) := ss_columns s in status.
Definition signed_of (s : stored_signature) : bool := let '(_, signed, _, _, _, _, _, _, _, _) := ss_columns s in signed.
Definition matches_of (s : stored_signature) : bool := let '(_, _, _, _, _, _, _, _, matches, _) := ss_columns s in matches.
Definition signature_checks (s : stored_signature) : bool :=
  in_strs (vote_status_of s) VOTE_STATUSES &&
  Bool.eqb (signed_of s) (String.eqb (vote_status_of s) "commit" && matches_of s) &&
  (negb (String.eqb (vote_status_of s) "commit") || matches_of s) &&
  (String.eqb (vote_status_of s) "commit" || (negb (signed_of s) && negb (matches_of s))).
(** [validators_*_check], [validator_set_members_*_check] *)
Definition voting_power (m : member_row) : Z := let '(power, _, _) := mr_columns m in power.
Definition validator_checks (r : validator_row) : bool := (0 <=? vr_first_seen r) && (vr_first_seen r <=? vr_last_seen r).
Definition row_checks (row : any_row) : bool :=
  match row with
  | RowBlock h r => bigint h && (0 <=? br_tx_count r)
  | RowTx k r => tx_checks k r
  | RowParticipant k q => participant_checks k q
  | RowResult k r => result_checks r
  | RowSignature k s => signature_checks s
  | RowValidator a r => validator_checks r
  | RowMember k m => 0 <=? voting_power m
  | _ => true
  end.
Class EnforcesSchema `{Postgres} := {
  row_checked : forall row, pg_check row = Ok tt -> row_checks row = true
}.

Record stored_checked (d : db) : Prop := {
  sc_blocks : forall h r, blocks d !! h = Some r -> row_checks (RowBlock h r) = true;
  sc_txs : forall k r, transactions d !! k = Some r -> tx_checks k r = true;
  sc_participants : forall k s q, participants d !! k = Some s -> q ∈ s -> participant_checks k q = true;
  sc_results : forall k r, results d !! k = Some r -> result_checks r = true;
  sc_signatures : forall k s, signatures d !! k = Some s -> signature_checks s = true;
  sc_validators : forall a r, validators d !! a = Some r -> validator_checks r = true;
  sc_members : forall k m, members d !! k = Some m -> 0 <= voting_power m
}.

(** Only the tables with constraints matter. *)
Lemma checked_tables d d' : blocks d' = blocks d -> transactions d' = transactions d -> participants d' = participants d ->
  results d' = results d -> signatures d' = signatures d -> validators d' = validators d -> members d' = members d ->
  stored_checked d -> stored_checked d'.
Proof. intros E1 E2 E3 E4 E5 E6 E7 []. constructor; rewrite ?E1, ?E2, ?E3, ?E4, ?E5, ?E6, ?E7; done. Qed.

Section preserved.
Context `{PyRuntime} `{PL : PostgresLaws} `{!EnforcesSchema}.

Lemma upsert_block_checked p d d' : stored_checked d -> upsert_block p d = Ok d' -> stored_checked d'.
Proof.
  unfold upsert_block. intros Hd Hu. do 5 apply bind_Ok in Hu as (? & _ & Hu). cbn zeta in Hu. apply bind_Ok in Hu as ([] & Hc%row_checked & Hu).
  destruct (blocks d !! ph_height p); [by injection Hu as <-|]. destruct (existsb _ _); [done|]. injection Hu as <-.
  destruct Hd. constructor; try done. cbn [blocks set_blocks]. intros h r. destruct (decide (h = ph_height p)) as [->|Hne].
  - rewrite lookup_insert_eq. by intros [= <-].
  - rewrite lookup_insert_ne by done. apply sc_blocks0.
Qed.
Lemma insert_participant_checked k d q d' : stored_checked d -> insert_participant k d q = Ok d' -> stored_checked d'.
Proof.
  unfold insert_participant. intros Hd ([] & Hc%row_checked & [= <-])%bind_Ok. destruct Hd. constructor; try done.
  cbn [participants set_participants]. intros j s x. destruct (decide (j = k)) as [->|Hne].
  - rewrite lookup_insert_eq. intros [= <-] [->%elem_of_singleton|Hx]%elem_of_union; [done|].
    destruct (participants d !! k) as [s|] eqn:E; cbn in Hx; [by eapply sc_participants0|by apply elem_of_empty in Hx].
  - rewrite lookup_insert_ne by done. apply sc_participants0.
Qed.
Lemma upsert_transaction_checked h d t d' : stored_checked d -> upsert_transaction h d t = Ok d' -> stored_checked d'.
Proof.
  unfold upsert_transaction. intros Hd Hu. do 4 apply bind_Ok in Hu as (? & _ & Hu). cbn zeta in Hu.
  apply bind_Ok in Hu as ([] & _ & Hu). apply bind_Ok in Hu as ([] & Hc%row_checked & Hu). cbn [row_checks] in Hc. revert Hu.
  apply foldM_res_inv; [|intros; by eapply insert_participant_checked]. destruct Hd. constructor; try done.
  - cbn [transactions set_transactions set_participants]. intros j r. destruct (decide (j = (h, px_index t))) as [->|Hne].
    + rewrite lookup_insert_eq. intros [= <-]. exact Hc.
    + rewrite lookup_insert_ne by done. apply sc_txs0.
  - cbn [participants set_transactions set_participants]. intros j s q [_ Hs]%lookup_delete_Some. by apply sc_participants0.
Qed.
Lemma upsert_result_checked h ep d r d' : stored_checked d -> upsert_result h ep d r = Ok d' -> stored_checked d'.
Proof.
  unfold upsert_result. intros Hd Hu. do 6 apply bind_Ok in Hu as (? & _ & Hu). cbn zeta in Hu. apply bind_Ok in Hu as ([] & Hc%row_checked & Hu).
  destruct (results d !! _); [by injection Hu as <-|]. case_bool_decide; [|done]. injection Hu as <-.
  destruct Hd. constructor; try done. cbn [results set_results]. intros k r'. destruct (decide (k = (h, er_tx_index r))) as [->|Hne].
  - rewrite lookup_insert_eq. by intros [= <-].
  - rewrite lookup_insert_ne by done. apply sc_results0.
Qed.
Lemma insert_signature_checked h d s d' : stored_checked d -> insert_signature h d s = Ok d' -> stored_checked d'.
Proof.
  unfold insert_signature. intros Hd Hu. do 3 apply bind_Ok in Hu as (? & _ & Hu). cbn zeta in Hu. apply bind_Ok in Hu as ([] & Hc%row_checked & Hu).
  destruct (signatures d !! _); [by injection Hu as <-|]. case_bool_decide; [|done]. injection Hu as <-.
  destruct Hd. constructor; try done. cbn [signatures set_signatures]. intros k r'. destruct (decide (k = (h, x))) as [->|Hne].
  - rewrite lookup_insert_eq. by intros [= <-].
  - rewrite lookup_insert_ne by done. apply sc_signatures0.
Qed.

Lemma upsert_validator_checked h d v d' : stored_checked d -> upsert_validator h d v = Ok d' -> stored_checked d'.
Proof.
  unfold upsert_validator. intros Hd Hu. do 3 apply bind_Ok in Hu as (? & _ & Hu). cbn zeta in Hu. apply bind_Ok in Hu as ([] & Hc%row_checked & Hu).
  assert (forall a r, validator_checks r = true -> stored_checked (set_validators (<[a := r]> (validators d)) d)) as Hset.
  { intros a r Hr. destruct Hd. constructor; try done. cbn [validators set_validators]. intros b q. destruct (decide (b = a)) as [->|Hne].
    - rewrite lookup_insert_eq. by intros [= <-].
    - rewrite lookup_insert_ne by done. apply sc_validators0. }
  destruct (validators d !! _) as [old|].
  - apply bind_Ok in Hu as ([] & Hc2%row_checked & [= <-]). by apply Hset.
  - destruct (existsb _ _); [done|]. injection Hu as <-. by apply Hset.
Qed.
Lemma insert_member_checked h d iv d' : stored_checked d -> insert_member h d iv = Ok d' -> stored_checked d'.
Proof.
  unfold insert_member. intros Hd Hu. do 2 apply bind_Ok in Hu as (? & _ & Hu). cbn zeta in Hu. apply bind_Ok in Hu as ([] & Hc%row_checked & Hu).
  destruct (members d !! _); [by injection Hu as <-|]. injection Hu as <-. apply Z.leb_le in Hc.
  destruct Hd. constructor; try done. cbn [members set_members]. intros k m. destruct (decide (k = (h, x))) as [->|Hne].
  - rewrite lookup_insert_eq. by intros [= <-].
  - rewrite lookup_insert_ne by done. apply sc_members0.
Qed.
Lemma upsert_member_checked h d iv d' : stored_checked d -> upsert_validator_and_member h d iv = Ok d' -> stored_checked d'.
Proof. intros Hd (e & He & Hm)%bind_Ok. eapply insert_member_checked; [|exact Hm]. by eapply upsert_validator_checked. Qed.

Lemma advance_checked h cp chain tip ep d d' : stored_checked d -> advance_checkpoint h cp chain tip ep d = Ok d' -> stored_checked d'.
Proof.
  unfold advance_checkpoint. intros Hd Ha. assert (forall s, stored_checked (set_state s d)) as Hs by by intros s; apply (checked_tables d).
  repeat case_match; try (by injection Ha as <-); repeat (apply bind_Ok in Ha as (? & _ & Ha); cbn zeta in Ha); by injection Ha as <-.
Qed.
Lemma cursor_checked p chain tip ep d d' : stored_checked d -> write_height_cursor p chain tip ep d = Ok d' -> stored_checked d'.
Proof.
  intros Hd (cp & d1 & d2 & d3 & d4 & d5 & d6 & d7 & d8 & d9 & cv & av & [])%write_cursor_run.
  assert (stored_checked d1) as K1 by by eapply (upsert_block_checked p (lock_realm_call_index d)); [apply (checked_tables d)|].
  assert (stored_checked d2) as K2.
  { revert run_txs. apply foldM_res_inv; [done|]. intros; by eapply upsert_transaction_checked. }
  assert (stored_checked d3) as K3.
  { revert run_results. apply foldM_res_inv; [done|]. intros; by eapply upsert_result_checked. }
  assert (stored_checked d7) as K7.
  { destruct (replace_realm_calls_Ok _ _ _ _ run_calls) as [_ Crun]. rewrite Crun in run_calls. apply Ok_inj in run_calls as <-.
    apply upsert_realm_catalog_Ok in run_catalog as (entries & _ & _ & Hcat).
    apply (fold_rows_mono catalog set_catalog _ _ _ (upsert_aggregate_step chain (ph_height p) (b_time (ph_block p))) any_change)
      in Hcat as (sC & -> & _); [|done].
    apply call_coverage_Ok in run_call_coverage as (-> & _). apply activity_coverage_Ok in run_activity as (-> & _).
    by apply (checked_tables d3). }
  assert (stored_checked d8) as K8.
  { revert run_vm. apply foldM_res_inv; [done|]. intros; by eapply upsert_member_checked. }
  assert (stored_checked d9) as K9.
  { revert run_signatures. apply foldM_res_inv; [done|]. intros; by eapply insert_signature_checked. }
  by eapply advance_checked.
Qed.
Lemma reachable_checked chain d : reachable chain d -> stored_checked d.
Proof.
  induction 1 as [|d p tip ep _ IH]; [by constructor|].
  unfold write_height. destruct (write_height_cursor p chain tip ep d) as [e|] eqn:E; [|done].
  by apply (checked_tables e), (cursor_checked _ _ _ _ _ _ IH E).
Qed.
End preserved.
