(* ===== verification/Explorer.v ===== *)
(** * api/database.py, api/app.py: blocks and transactions of the explorer

    The queries behind /api/blocks, /api/transactions and
    /api/accounts/{address}/transactions over the tables of Database.v, and the
    route handlers that make answers of their rows.  Connections run with READ
    COMMITTED isolation: every statement sees a snapshot of its own.  What
    [pool.connection(timeout=2.0)] gives is the argument [conn]; asset
    classification is the argument [standards]. *)
From Stdlib Require Import ZArith Lia Ascii String Sorted.
From stdpp Require Import base gmap sets list strings.
From S2P Require Import Prelude PyStr PyVal Codec InspectRpc Summary Participants Parsers RealmCatalog Database Finalized ValopersStore.
From S2P Require Import Digits Keyset ExplorerRows Schema.
Open Scope Z_scope.

(** What one statement sees: the indexer's tables and [valoper_profiles] *)
Record snapshot := Snapshot { sn_db : db; sn_profiles : list profile_row }.
Definition UNAVAILABLE_DETAIL : string := "Explorer database is unavailable".
(** [except HTTPException: raise], [except Exception]: status 503 *)
Definition or_unavailable {A} (r : res A) : res A :=
  match r with
  | Raise (HTTPException status detail) => Raise (HTTPException status detail)
  | Raise e => Raise (if isinstance_Exception e then HTTPException 503 UNAVAILABLE_DETAIL else e)
  | Ok a => Ok a
  end.
(** FastAPI's checks of the declared parameters *)
Definition unprocessable : exc := HTTPException 422 "".
Definition limit_ok (limit : Z) : bool := (1 <=? limit) && (limit <=? 100).
Definition option_all {A} (p : A -> bool) (o : option A) : bool := match o with Some a => p a | None => true end.

(** ** Rows of the queries *)
Definition t_moniker (t : profile_tuple) : string := let '(_, m, _, _, _, _) := t in m.
(** [LEFT JOIN valoper_profiles profile ON profile.signing_address = block.proposer_address] *)
Definition proposer_monikers (profiles : list profile_row) (proposer : option string) : list (option string) :=
  match List.filter (fun r : profile_row => bool_decide (proposer = Some (t_signing r.1.1))) profiles with
  | [] => [None]
  | joined => map (fun r : profile_row => Some (t_moniker r.1.1)) joined
  end.
Record block_page_row := BlockPageRow { bp_height : Z; bp_block : block_row; bp_moniker : option string }.
Definition block_rows (s : snapshot) : list block_page_row :=
  flat_map (fun hb => map (BlockPageRow hb.1 hb.2) (proposer_monikers (sn_profiles s) (br_proposer hb.2))) (map_to_list (blocks (sn_db s))).
(** [numeric::text] *)
Definition numeric_text : Z -> string := str_of_Z.
(** [LEFT JOIN transaction_execution_results result] *)
Definition execution_of (r : option result_row) : execution_fields :=
  match r with
  | Some r => ExecutionFields (Some (rr_status r)) (Some (numeric_text (rr_gas_wanted r))) (Some (numeric_text (rr_gas_used r))) (rr_error r) (rr_log r) (rr_info r)
  | None => ExecutionFields None None None None None None
  end.
Definition tx_hash_of (r : tx_row) : option string := let '(_, _, _, _, hash) := tr_columns r in hash.
Definition tx_page_row_of (d : db) (k : Z * Z) (r : tx_row) (b : block_row) : tx_page_row :=
  TxPageRow k (tx_hash_of r) (tr_payload_summary r) (br_time b) (execution_of (results d !! k)).
Definition tx_rows (d : db) : list tx_page_row :=
  omap (fun kr => tx_page_row_of d kr.1 kr.2 <$> (blocks d !! kr.1.1)) (map_to_list (transactions d)).
(** [jsonb_agg(... ORDER BY participant.message_index, participant.role)] *)
Definition role_leb (a b : Z * string) : bool := (a.1 <? b.1) || ((a.1 =? b.1) && str_leb a.2 b.2).
Definition participation_of (d : db) (address : string) (k : Z * Z) : list (Z * string) :=
  sort_by role_leb (map (fun q : participant_row => (Z.of_nat q.1.1, q.1.2))
    (List.filter (fun q : participant_row => String.eqb q.2 address) (elements (default ∅ (participants d !! k))))).
Definition account_rows (d : db) (address : string) : list (tx_page_row * list (Z * string)) :=
  omap (fun row => let p := participation_of d address (tp_key row) in if bool_decide (p = []) then None else Some (row, p)) (tx_rows d).

(** ** Queries *)
Definition fetch_blocks (conn : res snapshot) (limit : Z) (before_height : option Z) : res (list block_page_row) :=
  s ← conn;
  _ ← require (option_all bigint before_height) DataError;
  Ok (select bp_height before_height (S (Z.to_nat limit)) (block_rows s)).
(** Text parameters hold no NUL character. *)
Definition fetch_block_by_hash (conn : res snapshot) (normalized_hex block_hash_base64 : option string) : res (option block_page_row) :=
  let column r := match normalized_hex with Some _ => br_hash_hex (bp_block r) | None => br_hash_base64 (bp_block r) end in
  let value := match normalized_hex with Some h => Some h | None => block_hash_base64 end in
  s ← conn;
  _ ← require (option_all no_nul value) DataError;
  Ok (head (List.filter (fun r => bool_decide (value = Some (column r))) (block_rows s))).
Definition fetch_transactions (conn : res snapshot) (limit : Z) (before_height before_tx_index : option Z) : res (list tx_page_row) :=
  s ← conn;
  _ ← require (option_all bigint before_height && option_all int4 before_tx_index) DataError;
  Ok (select tp_key (h ← before_height; i ← before_tx_index; Some (h, i)) (S (Z.to_nat limit)) (tx_rows (sn_db s))).
Definition fetch_transaction_by_hash (conn : res snapshot) (tx_hash : string) : res (option (Z * Z * tx_row)) :=
  s ← conn;
  _ ← require (no_nul tx_hash) DataError;
  Ok (head (selected fst None (List.filter (fun kr => bool_decide (tx_hash_of kr.2 = Some tx_hash)) (map_to_list (transactions (sn_db s)))))).
Definition fetch_account_transactions (conn : res snapshot) (address : string) (limit : Z) (before_height before_tx_index : option Z) :
    res (list (tx_page_row * list (Z * string))) :=
  s ← conn;
  _ ← require (no_nul address && option_all bigint before_height && option_all int4 before_tx_index) DataError;
  Ok (select (fun r => tp_key r.1) (h ← before_height; i ← before_tx_index; Some (h, i)) (S (Z.to_nat limit)) (account_rows (sn_db s) address)).

(** *** One block: three statements *)
Record commit_counts := CommitCounts { cc_validators : Z; cc_signed : Z; cc_nil : Z; cc_absent : Z; cc_invalid : Z; cc_unknown : Z }.
Definition count_if {A} (p : A -> bool) (l : list A) : Z := Z.of_nat (length (List.filter p l)).
Definition commit_at (d : db) (height : Z) : commit_counts :=
  let vsm := at_height height (members d) in
  let vs a := signatures d !! (height, a) in
  let status s a := match vs a with Some v => String.eqb (vote_status_of v) s | None => false end in
  CommitCounts (Z.of_nat (length vsm)) (count_if (fun a => match vs a with Some v => signed_of v | None => false end) vsm)
    (count_if (status "nil") vsm) (count_if (status "absent") vsm) (count_if (status "invalid") vsm)
    (count_if (fun a => bool_decide (vs a = None)) vsm).
Definition cc_missed (c : commit_counts) : Z := cc_nil c + cc_absent c + cc_invalid c.
Record block_tx_row := BlockTxRow { bt_index : Z; bt_columns : tx_columns; bt_execution : execution_fields }.
(** [ORDER BY transaction.tx_index ASC] *)
Definition block_transactions (d : db) (height : Z) : list block_tx_row :=
  omap (fun i => (fun r => BlockTxRow i (tr_columns r) (execution_of (results d !! (height, i)))) <$> transactions d !! (height, i))
    (sort_by Z.leb (at_height height (transactions d))).
Record block_detail_rows := BlockDetailRows { bd_row : block_page_row; bd_commit : commit_counts; bd_transactions : list block_tx_row }.
Definition fetch_block_detail (conn : res (nat -> snapshot)) (height : Z) : res (option block_detail_rows) :=
  s ← conn;
  _ ← require (bigint height) DataError;
  match List.filter (fun r => bp_height r =? height) (block_rows (s 0%nat)) with
  | [] => Ok None
  | block_row :: _ => Ok (Some (BlockDetailRows block_row (commit_at (sn_db (s 1%nat)) height) (block_transactions (sn_db (s 2%nat)) height)))
  end.

(** ** Route handlers *)
Section routes.
Context `{PyRuntime} `{Timestamps}.

Definition hex_char (a : ascii) : bool :=
  let z := byte_Z a in ((48 <=? z) && (z <=? 57)) || ((97 <=? z) && (z <=? 102)) || ((65 <=? z) && (z <=? 70)).
(** [HEX_HASH_RE.match(s)], [match.group(1)], for a text with no trailing newline *)
Definition hex_hash (s : string) : option string :=
  let digits := without_0x s in
  if Nat.eqb (String.length digits) 64 && str_forallb hex_char digits then Some digits else None.
Definition normalize_hash_query (value : string) : res (option string * option string) :=
  let stripped := py_strip value in
  _ ← raise_if (String.eqb stripped "") (HTTPException 422 "hash must not be empty");
  _ ← raise_if (200 <? py_len stripped) (HTTPException 422 "hash is too long");
  Ok (match hex_hash stripped with Some digits => (Some (py_upper digits), None) | None => (None, Some stripped) end).

Definition block_summary_from_row (r : block_page_row) : block_item :=
  BlockItem (bp_height r) (normalize_block_hash (br_hash_hex (bp_block r))) (isoformat_utc_z (instant (br_time (bp_block r))))
    (br_proposer (bp_block r)) (bp_moniker r) (br_tx_count (bp_block r)).
Record page_response (A C : Type) := Page { pg_items : list A; pg_limit : Z; pg_next : option C }.
Arguments Page {A C}.
Arguments pg_items {A C}.
Arguments pg_limit {A C}.
Arguments pg_next {A C}.

Definition get_blocks (conn : res snapshot) (limit : Z) (before_height : option Z) (hash : option string) : res (page_response block_item Z) :=
  _ ← require (limit_ok limit && option_all (Z.ltb 0) before_height && option_all (fun q => py_len q <=? 200) hash) unprocessable;
  _ ← raise_if (bool_decide (is_Some before_height) && bool_decide (is_Some hash))
        (HTTPException 422 "before_height and hash are mutually exclusive");
  match hash with
  | Some q =>
      row ← or_unavailable ('(normalized_hex, block_hash_base64) ← normalize_hash_query q;
                            fetch_block_by_hash conn normalized_hex block_hash_base64);
      Ok (Page (match row with Some r => [block_summary_from_row r] | None => [] end) limit None)
  | None =>
      rows ← or_unavailable (fetch_blocks conn limit before_height);
      let '(page_rows, next_before_height) := page bp_height (Z.to_nat limit) rows in
      Ok (Page (map block_summary_from_row page_rows) limit next_before_height)
  end.

(** [_verified_transaction_standards] never raises. *)
Context (standards : list (option summary) -> list (string * string)).
Definition summaries_of (rows : list tx_page_row) : res (list (option summary)) :=
  mapM_res (fun row => public_transaction_summary (default VNone (tp_summary row))) rows.
Definition both_or_none (before_height before_tx_index : option Z) : res unit :=
  require (eqb (bool_decide (before_height = None)) (bool_decide (before_tx_index = None)))
    (HTTPException 422 "before_height and before_tx_index must be provided together").
Definition get_transactions (conn : res snapshot) (limit : Z) (before_height before_tx_index : option Z) : res (page_response transaction_item (Z * Z)) :=
  _ ← require (limit_ok limit && option_all (Z.ltb 0) before_height && option_all (Z.leb 0) before_tx_index) unprocessable;
  _ ← both_or_none before_height before_tx_index;
  rows ← or_unavailable (fetch_transactions conn limit before_height before_tx_index);
  let '(page_rows, next) := page tp_key (Z.to_nat limit) rows in
  summaries ← summaries_of page_rows;
  let verified_standards := standards summaries in
  items ← mapM_res (fun rs => transaction_list_item_from_row rs.1 rs.2 verified_standards) (zip page_rows summaries);
  Ok (Page items limit next).

Definition get_account_transactions (conn : res snapshot) (chain_id address : string) (limit : Z) (before_height before_tx_index : option Z) :
    res (page_response account_item (Z * Z)) :=
  _ ← require (limit_ok limit && option_all (Z.ltb 0) before_height && option_all (Z.leb 0) before_tx_index) unprocessable;
  _ ← require (validate_account_address address (gno_profile chain_id)) (HTTPException 422 "Invalid account address");
  _ ← both_or_none before_height before_tx_index;
  rows ← or_unavailable (fetch_account_transactions conn address limit before_height before_tx_index);
  or_unavailable
    (let '(page_rows, next) := page (fun r => tp_key r.1) (Z.to_nat limit) rows in
     summaries ← summaries_of (map fst page_rows);
     let verified_standards := standards summaries in
     items ← mapM_res (fun rs => account_transaction_item_from_row rs.1.1 rs.1.2 address (gno_profile chain_id) rs.2 verified_standards)
               (zip page_rows summaries);
     Ok (Page items limit next)).

Record tx_lookup := TxLookup { lk_height : Z; lk_index : Z; lk_hash : string }.
Definition get_transaction_by_hash (conn : res snapshot) (tx_hash : string) : res tx_lookup :=
  match hex_hash tx_hash with
  | None => Raise (HTTPException 422 "Invalid transaction hash")
  | Some digits =>
      row ← or_unavailable (fetch_transaction_by_hash conn (py_upper digits));
      match row with
      | None => Raise (HTTPException 404 "Transaction not found")
      | Some (h, i, r) =>
          let hash := py_upper (default "None" (tx_hash_of r)) in
          _ ← require ((1 <=? h) && (0 <=? i) && is_tx_hash hash) ValidationError;
          Ok (TxLookup h i hash)
      end
  end.

(** [BlockDetailResponse] *)
Record block_detail := BlockDetail {
  de_block : block_item;
  de_hash_base64 : string;
  de_commit : commit_counts;
  de_transactions : list (Z * option string * tx_columns * execution_fields)
}.
Definition execution_valid (e : execution_fields) : bool := option_all (fun s => in_strs s ["success"; "failed"]) (ex_status e).
Definition block_detail_from_row (r : block_detail_rows) : res block_detail :=
  _ ← require (forallb (fun t => execution_valid (bt_execution t)) (bd_transactions r)) ValidationError;
  Ok (BlockDetail (block_summary_from_row (bd_row r)) (br_hash_base64 (bp_block (bd_row r))) (bd_commit r)
        (map (fun t => (bt_index t, normalize_tx_hash (let '(_, _, _, _, hash) := bt_columns t in hash), bt_columns t, bt_execution t)) (bd_transactions r))).
Definition get_block_detail (conn : res (nat -> snapshot)) (height : Z) : res block_detail :=
  _ ← require (0 <? height) unprocessable;
  detail ← or_unavailable (fetch_block_detail conn height);
  match detail with
  | None => Raise (HTTPException 404 "Block not found")
  | Some rows => block_detail_from_row rows
  end.
End routes.
