(* ===== verification/ExplorerSafety.v ===== *)
(** * What the explorer's answers guarantee

    Theorems about the routes of Explorer.v over every database the indexer can
    produce: pages are complete while blocks are written, a block page read by
    three statements is consistent, account pages and lookups by hash never find
    their data inconsistent. *)
From Stdlib Require Import ZArith Lia Ascii String Sorted.
From stdpp Require Import base gmap sets list strings relations sorting.
From S2P Require Import Prelude PyStr PyVal Codec InspectRpc Summary Participants Parsers RealmCatalog Database Finalized ValopersStore.
From S2P Require Import Digits Keyset ExplorerRows Schema Explorer.
Open Scope Z_scope.

(** ** What the index keeps of a stored height *)
Section growth.
Context `{PyRuntime} `{PL : PostgresLaws}.

(** Any number of height transactions *)
Definition wrote (chain : string) : db -> db -> Prop := rtc (fun d d' => exists p tip ep, d' = (write_height p chain tip ep d).2).
Lemma wrote_reachable chain d d' : wrote chain d d' -> reachable chain d -> reachable chain d'.
Proof. induction 1 as [|d e f (p & tip & ep & ->) _ IH]; [done|]. intros Hd. by apply IH, reachable_write. Qed.

(** What later states of the index agree on about a height that is stored *)
Record height_kept (h : Z) (d d' : db) : Prop := {
  hk_block : blocks d' !! h = blocks d !! h;
  hk_txs : forall i, tr_columns <$> transactions d' !! (h, i) = tr_columns <$> transactions d !! (h, i);
  hk_members : forall a, members d' !! (h, a) = members d !! (h, a);
  hk_signatures : forall a, signatures d' !! (h, a) = signatures d !! (h, a);
  hk_results : forall i r, results d !! (h, i) = Some r -> results d' !! (h, i) = Some r
}.
#[global] Instance height_kept_preorder h : PreOrder (height_kept h).
Proof.
  split; [by constructor|]. intros d e f [B1 T1 M1 S1 R1] [B2 T2 M2 S2 R2]. constructor.
  - congruence.
  - intros i. by rewrite T2.
  - intros a. by rewrite M2.
  - intros a. by rewrite S2.
  - intros i r Hr. by apply R2, R1.
Qed.
Lemma same_of_kept {R} (o o' : option R) : kept o o' -> (is_Some o' -> is_Some o) -> o' = o.
Proof. intros Hk Hs. destruct o as [r|]; [by apply Hk|]. destruct o' as [r|]; [|done]. by destruct (Hs ltac:(eauto)). Qed.
(** At a stored height the incoming addresses are text. *)
Lemma incoming_strs d p : verify_finalized_conflicts d p = Ok tt -> is_Some (blocks d !! ph_height p) ->
  (forall v, v ∈ ph_validators p -> v_address v = VStr (str_of_val (v_address v))) /\
  (forall s, s ∈ ph_signatures p -> sg_signing_address s = VStr (str_of_val (sg_signing_address s))).
Proof.
  unfold verify_finalized_conflicts. intros (ex & Hb & Hv)%bind_Ok [r Hr]. unfold verify_block_conflict in Hb. rewrite Hr in Hb.
  destruct (_ && _); [|done]. injection Hb as <-. apply bind_Ok in Hv as ([] & Hsets & _). cbn [negb verify_child_key_sets] in Hsets.
  unfold verify_child_key_sets in Hsets. cbn [negb] in Hsets. apply bind_Ok in Hsets as (u & _ & Hset). apply bind_Ok in Hset as (vs & Hvs & Hset).
  apply bind_Ok in Hset as (u2 & Hm%require_Ok & Hset). apply bind_Ok in Hset as (ss & Hss & Hs%require_Ok). unfold val_set in Hvs, Hss.
  destruct (forallb _ (map v_address _)); [|done]. destruct (forallb _ (map sg_signing_address _)); [|done]. injection Hvs as <-. injection Hss as <-.
  apply same_strs in Hm as [_ Hm]. apply same_strs in Hs as [_ Hs]. split.
  - intros v Hv. specialize (Hm _ (list_elem_of_fmap_2 v_address _ _ Hv)). by destruct (v_address v).
  - intros s Hv. specialize (Hs _ (list_elem_of_fmap_2 sg_signing_address _ _ Hv)). by destruct (sg_signing_address s).
Qed.
Lemma tables_height p chain tip ep d d' h : tables_after p chain tip ep d d' -> is_Some (blocks d !! h) -> height_kept h d d'.
Proof.
  intros HT Hb. pose proof (tables_kept _ _ _ _ _ _ HT) as HK. pose proof (verify_agrees d p (ta_agrees _ _ _ _ _ _ HT)) as HA.
  constructor.
  - destruct Hb as [r Hr]. rewrite Hr. by apply (fk_blocks _ _ _ _ HK).
  - intros i. destruct (transactions d !! (h, i)) as [r|] eqn:Er.
    + destruct (fk_txs _ _ _ _ HK (h, i) r) as (r' & Hr' & Hc & _); [done|]. cbn in Hr'. rewrite Hr'. cbn. by rewrite Hc.
    + destruct (decide (h = ph_height p)) as [->|Hne].
      2: { pose proof (fk_other_txs _ _ _ _ HK (h, i) Hne) as [= He _]. by rewrite He, Er. }
      assert ((ph_height p, i) ∉ map (fun t => (ph_height p, px_index t)) (ph_transactions p)) as Hout.
      { intros (t & [= ->] & Ht)%list_elem_of_fmap. destruct (proj2 (sa_tx_set _ _ HA Hb (px_index t))) as [r Hr]; [by apply list_elem_of_fmap_2|congruence]. }
      pose proof (ta_txs_out _ _ _ _ _ _ HT _ Hout) as [= He _]. by rewrite He, Er.
  - intros a. apply same_of_kept; [apply (fk_members _ _ _ _ HK)|]. intros Hs. destruct (decide (h = ph_height p)) as [->|Hne].
    2: { by rewrite (fk_other_members _ _ _ _ HK) in Hs. }
    destruct (decide (a ∈ map (fun iv : nat * validator => str_of_val (v_address iv.2)) (enumerate (ph_validators p)))) as [Ha|Ha].
    + apply (sa_member_set _ _ HA Hb). apply list_elem_of_fmap in Ha as (iv & -> & Hv%enumerate_elem).
      rewrite <-(proj1 (incoming_strs d p (ta_agrees _ _ _ _ _ _ HT) Hb) _ Hv). by apply (list_elem_of_fmap_2 v_address).
    + pose proof (ta_vm_out _ _ _ _ _ _ HT a Ha) as He. injection He as _ Hm. cbn in Hm. by rewrite Hm in Hs.
  - intros a. apply same_of_kept; [apply (fk_signatures _ _ _ _ HK)|]. intros Hs. destruct (decide (h = ph_height p)) as [->|Hne].
    2: { by rewrite (fk_other_signatures _ _ _ _ HK) in Hs. }
    destruct (decide ((ph_height p, a) ∈ map (fun s => (ph_height p, str_of_val (sg_signing_address s))) (ph_signatures p))) as [Ha|Ha].
    + apply (sa_signature_set _ _ HA Hb). apply list_elem_of_fmap in Ha as (s & [= ->] & Hin).
      rewrite <-(proj2 (incoming_strs d p (ta_agrees _ _ _ _ _ _ HT) Hb) _ Hin). by apply (list_elem_of_fmap_2 sg_signing_address).
    + by rewrite (ta_signatures_out _ _ _ _ _ _ HT _ Ha) in Hs.
  - intros i r. apply (fk_results _ _ _ _ HK).
Qed.
Lemma step_height p chain tip ep d h : is_Some (blocks d !! h) -> height_kept h d (write_height p chain tip ep d).2.
Proof.
  intros Hb. unfold write_height. destruct (write_height_cursor p chain tip ep d) as [e|] eqn:E; [|done].
  destruct (tables_height p chain tip ep d e h (cursor_tables _ _ _ _ _ _ E) Hb). by constructor.
Qed.
Lemma wrote_height chain d d' h : wrote chain d d' -> is_Some (blocks d !! h) -> height_kept h d d'.
Proof.
  induction 1 as [|d e f (p & tip & ep & ->) _ IH]; [done|]. intros Hb. pose proof (step_height p chain tip ep d h Hb) as Hk.
  etransitivity; [exact Hk|]. apply IH. by rewrite (hk_block _ _ _ Hk).
Qed.
End growth.

(** ** One block, read by three statements *)
Lemma at_height_NoDup {K A} `{Countable K} (h : Z) (m : gmap (Z * K) A) : NoDup (at_height h m).
Proof.
  unfold at_height. assert (NoDup (List.filter (fun k : Z * K => k.1 =? h) (map fst (map_to_list m)))) as Hn.
  { apply NoDup_ListNoDup, List.NoDup_filter, NoDup_ListNoDup, NoDup_fst_map_to_list. }
  assert (Forall (fun k => k.1 = h) (List.filter (fun k : Z * K => k.1 =? h) (map fst (map_to_list m)))) as Hf.
  { apply Forall_forall. intros k Hk%list_elem_of_In%filter_In. lia. }
  revert Hn Hf. generalize (List.filter (fun k : Z * K => k.1 =? h) (map fst (map_to_list m))) as l. intros l. induction l as [|k l IH]; [constructor|].
  intros [Hk Hn]%NoDup_cons [Hh Hf]%Forall_cons. cbn. constructor; [|by apply IH].
  intros (j & Hj & Hin)%list_elem_of_fmap. apply Hk. rewrite Forall_forall in Hf. specialize (Hf j Hin).
  destruct k as [k1 k2], j as [j1 j2]. cbn in *. by subst.
Qed.
Lemma at_height_perm {K A} `{Countable K} (h : Z) (m m' : gmap (Z * K) A) :
  (forall k, is_Some (m !! (h, k)) <-> is_Some (m' !! (h, k))) -> at_height h m ≡ₚ at_height h m'.
Proof. intros Hm. apply NoDup_Permutation; [apply at_height_NoDup..|]. intros k. rewrite !elem_of_at_height. apply Hm. Qed.
Lemma count_if_perm {A} (p q : A -> bool) l l' : l ≡ₚ l' -> (forall a, p a = q a) -> count_if p l = count_if q l'.
Proof.
  intros Hl Hp. unfold count_if. f_equal. transitivity (length (List.filter p l')).
  - induction Hl; cbn; [done| | |congruence].
    + destruct (p x); cbn; by rewrite IHHl.
    + by destruct (p x), (p y).
  - clear Hl. induction l' as [|a l' IH]; [done|]. cbn. rewrite <-Hp. destruct (p a); cbn; by rewrite IH.
Qed.
Lemma commit_at_kept d d' h : height_kept h d d' -> commit_at d' h = commit_at d h.
Proof.
  intros Hk. assert (at_height h (members d') ≡ₚ at_height h (members d)) as Hp.
  { apply at_height_perm. intros a. by rewrite (hk_members _ _ _ Hk). }
  unfold commit_at. f_equal; [by rewrite Hp|..]; (apply count_if_perm; [done|]); intros a; by rewrite (hk_signatures _ _ _ Hk).
Qed.
Lemma sort_Z_perm (l l' : list Z) : l ≡ₚ l' -> sort_by Z.leb l = sort_by Z.leb l'.
Proof.
  assert (forall k : list Z, StronglySorted Z.le (sort_by Z.leb k)) as Hs.
  { intros k. assert (StronglySorted (fun a b => Z.leb a b = true) (sort_by Z.leb k)) as Hk by (apply sort_by_sorted; intros; lia). induction Hk as [|x k' _ IH Hx]; [constructor|].
    constructor; [done|]. eapply Forall_impl; [exact Hx|]. intros y Hy. by apply Z.leb_le. }
  intros Hl. apply (StronglySorted_unique Z.le); [apply Hs..|]. by rewrite !sort_by_perm.
Qed.
Lemma block_transactions_kept d d' h : height_kept h d d' ->
  map (fun t => (bt_index t, bt_columns t)) (block_transactions d' h) = map (fun t => (bt_index t, bt_columns t)) (block_transactions d h).
Proof.
  intros Hk. unfold block_transactions.
  assert (sort_by Z.leb (at_height h (transactions d')) = sort_by Z.leb (at_height h (transactions d))) as ->.
  { apply sort_Z_perm, at_height_perm. intros i. pose proof (hk_txs _ _ _ Hk i) as Ht.
    destruct (transactions d !! (h, i)), (transactions d' !! (h, i)); cbn in Ht; try done; split; eauto. }
  induction (sort_by Z.leb _) as [|i l IH]; [done|]. cbn. pose proof (hk_txs _ _ _ Hk i) as Ht.
  destruct (transactions d !! (h, i)), (transactions d' !! (h, i)); cbn in Ht |- *; try done. injection Ht as ->. by rewrite IH.
Qed.

(** Every member of the set is counted once. *)
Lemma commit_total d h : stored_checked d -> let c := commit_at d h in cc_validators c = cc_signed c + cc_missed c + cc_unknown c.
Proof.
  intros Hd. unfold cc_missed, commit_at. cbn [cc_validators cc_signed cc_nil cc_absent cc_invalid cc_unknown].
  generalize (at_height h (members d)) as l. intros l. unfold count_if. induction l as [|a l IH]; [done|]. cbn [List.filter length].
  destruct (signatures d !! (h, a)) as [v|] eqn:Ev.
  - pose proof (sc_signatures _ Hd _ _ Ev) as Hc. unfold signature_checks in Hc. apply andb_true_iff in Hc as [Hc H4]. apply andb_true_iff in Hc as [Hc H3].
    apply andb_true_iff in Hc as [H1 H2%eqb_prop]. rewrite (bool_decide_eq_false_2 (Some v = None)) by done.
    apply in_strs_spec in H1. repeat (apply elem_of_cons in H1 as [H1|H1]); [..|by apply elem_of_nil in H1]; rewrite H1 in *; cbn in *.
    + rewrite H2, H3. cbn [length]. lia.
    + rewrite H2. cbn [length]. lia.
    + rewrite H2. cbn [length]. lia.
    + rewrite H2. cbn [length]. lia.
  - cbn [length]. rewrite (bool_decide_eq_true_2 (None = None)) by done. cbn [length]. lia.
Qed.

(** The rows of a block in the join *)
Lemma filter_entry {K A} `{Countable K} (m : gmap K A) k (p : K * A -> bool) : (forall x, p x = bool_decide (x.1 = k)) ->
  List.filter p (map_to_list m) = match m !! k with Some b => [(k, b)] | None => [] end.
Proof.
  intros Hp. assert (forall x, x ∈ List.filter p (map_to_list m) <-> m !! k = Some x.2 /\ x.1 = k) as Hin.
  { intros [j b]. rewrite list_elem_of_In, filter_In, <-list_elem_of_In, elem_of_map_to_list, Hp, bool_decide_eq_true. cbn.
    split; [intros [Hj ->]; by split|intros [Hj <-]; by split]. }
  destruct (m !! k) as [b|] eqn:Eb.
  - apply Permutation_singleton_r. apply NoDup_Permutation; [|apply NoDup_singleton|].
    + apply NoDup_ListNoDup, List.NoDup_filter, NoDup_ListNoDup, NoDup_map_to_list.
    + intros [j c]. rewrite Hin, list_elem_of_singleton. cbn. split; [by intros [[= ->] ->]|by intros [= -> ->]].
  - destruct (List.filter p _) as [|x l]; [done|]. by destruct (proj1 (Hin x) ltac:(left)).
Qed.
Lemma block_rows_in s h : List.filter (fun r => bp_height r =? h) (block_rows s) =
  match blocks (sn_db s) !! h with Some b => map (BlockPageRow h b) (proposer_monikers (sn_profiles s) (br_proposer b)) | None => [] end.
Proof.
  unfold block_rows. set (f := fun hb : Z * block_row => map (BlockPageRow hb.1 hb.2) (proposer_monikers (sn_profiles s) (br_proposer hb.2))).
  transitivity (flat_map f (List.filter (fun hb => hb.1 =? h) (map_to_list (blocks (sn_db s))))).
  - induction (map_to_list (blocks (sn_db s))) as [|hb l IH]; [done|]. cbn [flat_map List.filter]. rewrite List.filter_app, IH.
    assert (List.filter (fun r => bp_height r =? h) (f hb) = if hb.1 =? h then f hb else []) as ->; [|by destruct (hb.1 =? h)].
    unfold f. induction (proposer_monikers _ _) as [|m ms IHm]; [by destruct (hb.1 =? h)|]. cbn. rewrite IHm. by destruct (hb.1 =? h).
  - rewrite (filter_entry _ h); [|intros [j b]; cbn; by destruct (Z.eqb_spec j h); case_bool_decide].
    destruct (blocks (sn_db s) !! h); [|done]. cbn. by rewrite app_nil_r.
Qed.
Lemma monikers_cons profiles proposer : exists m ms, proposer_monikers profiles proposer = m :: ms.
Proof. unfold proposer_monikers. destruct (List.filter _ _) as [|r l]; cbn; eauto. Qed.

(** Stored heights are positive BIGINTs. *)
Lemma height_range `{PyRuntime} `{PL : PostgresLaws} `{!EnforcesSchema} chain d h b : reachable chain d -> blocks d !! h = Some b -> 0 < h < 2 ^ 63.
Proof.
  intros Hr Hb. pose proof (sc_blocks _ (reachable_checked _ _ Hr) _ _ Hb) as Hc. cbn in Hc. unfold bigint in Hc.
  pose proof (ix_state _ _ (reachable_indexed _ _ Hr)) as Hs. destruct (state d) as [st|].
  - destruct Hs as (_ & first & ? & _ & Hs & _). pose proof (Hs h (ex_intro _ b Hb)). lia.
  - destruct Hs as [He _]. by rewrite He, lookup_empty in Hb.
Qed.

Section block_page.
Context `{PyRuntime} `{Timestamps}.

Lemma execution_checked d k : stored_checked d -> execution_valid (execution_of (results d !! k)) = true.
Proof.
  intros Hd. destruct (results d !! k) as [r|] eqn:Er; [|done]. pose proof (sc_results _ Hd _ _ Er) as Hr. unfold result_checks in Hr.
  by do 3 apply andb_true_iff in Hr as [Hr _].
Qed.
(** The answer for a stored block, whatever states its statements see *)
Lemma block_detail_answer (s : nat -> snapshot) h b : stored_checked (sn_db (s 2%nat)) -> blocks (sn_db (s 0%nat)) !! h = Some b -> 0 < h < 2 ^ 63 ->
  exists m ms, proposer_monikers (sn_profiles (s 0%nat)) (br_proposer b) = m :: ms /\
  get_block_detail (Ok s) h = Ok (BlockDetail (block_summary_from_row (BlockPageRow h b m)) (br_hash_base64 b) (commit_at (sn_db (s 1%nat)) h)
    (map (fun t => (bt_index t, normalize_tx_hash (let '(_, _, _, _, hash) := bt_columns t in hash), bt_columns t, bt_execution t))
       (block_transactions (sn_db (s 2%nat)) h))).
Proof.
  intros Hd Hb Hh. destruct (monikers_cons (sn_profiles (s 0%nat)) (br_proposer b)) as (m & ms & Hm). exists m, ms. split; [done|].
  unfold get_block_detail. rewrite (proj2 (Z.ltb_lt 0 h)) by lia. cbn [require mbind res_bind]. unfold fetch_block_detail. cbn [mbind res_bind].
  assert (bigint h = true) as -> by (unfold bigint; lia). cbn [require mbind res_bind]. rewrite block_rows_in, Hb, Hm. cbn [map or_unavailable mbind res_bind].
  unfold block_detail_from_row. cbn [bd_row bd_commit bd_transactions].
  assert (forallb (fun t => execution_valid (bt_execution t)) (block_transactions (sn_db (s 2%nat)) h) = true) as ->; [|done].
  unfold block_transactions. apply forallb_forall. intros t (i & _ & Ht)%list_elem_of_In%list_elem_of_omap.
  apply fmap_Some in Ht as (r & _ & ->). by apply execution_checked.
Qed.
End block_page.

(** C23. The page of a block is consistent although its three statements see
    different states of the index: it is the page of the last state, the members
    of the validator set are exactly the signed, missed and unknown ones, and no
    later state shows anything else than new execution results of the same
    transactions. *)
Theorem block_detail_consistent `{PyRuntime} `{Timestamps} `{PL : PostgresLaws} `{!EnforcesSchema} chain (s : nat -> snapshot) h :
  reachable chain (sn_db (s 0%nat)) -> wrote chain (sn_db (s 0%nat)) (sn_db (s 1%nat)) -> wrote chain (sn_db (s 1%nat)) (sn_db (s 2%nat)) ->
  is_Some (blocks (sn_db (s 0%nat)) !! h) ->
  exists b, get_block_detail (Ok s) h = Ok b /\
    get_block_detail (Ok (fun _ => Snapshot (sn_db (s 2%nat)) (sn_profiles (s 0%nat)))) h = Ok b /\
    (let c := de_commit b in cc_validators c = cc_signed c + cc_missed c + cc_unknown c) /\
    forall d', wrote chain (sn_db (s 2%nat)) d' -> exists b', get_block_detail (Ok (fun _ => Snapshot d' (sn_profiles (s 0%nat)))) h = Ok b' /\
      de_block b' = de_block b /\ de_hash_base64 b' = de_hash_base64 b /\ de_commit b' = de_commit b /\
      map fst (de_transactions b') = map fst (de_transactions b).
Proof.
  intros Hr0 W1 W2 [b Hb]. pose proof (wrote_reachable _ _ _ W1 Hr0) as Hr1. pose proof (wrote_reachable _ _ _ W2 Hr1) as Hr2.
  pose proof (height_range _ _ _ _ Hr0 Hb) as Hh'.
  assert (forall d', wrote chain (sn_db (s 2%nat)) d' -> height_kept h (sn_db (s 0%nat)) d') as Hk.
  { intros d' Hw. apply (wrote_height chain); [|by exists b]. etransitivity; [exact W1|]. by etransitivity. }
  assert (height_kept h (sn_db (s 1%nat)) (sn_db (s 2%nat))) as Hk12.
  { apply (wrote_height chain); [done|]. exists b. by rewrite (hk_block _ _ _ (wrote_height _ _ _ h W1 (ex_intro _ b Hb))). }
  destruct (block_detail_answer s h b (reachable_checked _ _ Hr2) Hb Hh') as (m & ms & Hm & Ha). eexists. split; [exact Ha|].
  assert (forall d', wrote chain (sn_db (s 2%nat)) d' -> get_block_detail (Ok (fun _ => Snapshot d' (sn_profiles (s 0%nat)))) h =
    Ok (BlockDetail (block_summary_from_row (BlockPageRow h b m)) (br_hash_base64 b) (commit_at d' h)
    (map (fun t => (bt_index t, normalize_tx_hash (let '(_, _, _, _, hash) := bt_columns t in hash), bt_columns t, bt_execution t)) (block_transactions d' h)))) as Hans.
  { intros d' Hw. pose proof (Hk d' Hw) as Hkd. destruct (block_detail_answer (fun _ => Snapshot d' (sn_profiles (s 0%nat))) h b) as (m' & ms' & Hm' & ->); cbn in *.
    - exact (reachable_checked _ _ (wrote_reachable _ _ _ Hw Hr2)).
    - by rewrite (hk_block _ _ _ Hkd).
    - done.
    - rewrite Hm in Hm'. by injection Hm' as -> ->. }
  split_and!.
  - rewrite Hans by apply rtc_refl. by rewrite (commit_at_kept _ _ _ Hk12).
  - cbn. apply commit_total. exact (reachable_checked _ _ Hr1).
  - intros d' Hw. eexists. split; [by apply Hans|]. split_and!; [done|done| |].
    + cbn. apply commit_at_kept. etransitivity; [exact Hk12|]. apply (wrote_height chain); [done|]. exists b. by rewrite (hk_block _ _ _ (Hk _ (rtc_refl _ _))).
    + cbn. rewrite !map_map. cbn. assert (height_kept h (sn_db (s 2%nat)) d') as Hk2.
      { apply (wrote_height chain); [done|]. exists b. by rewrite (hk_block _ _ _ (Hk _ (rtc_refl _ _))). }
      pose proof (block_transactions_kept _ _ _ Hk2) as Ht.
      apply (f_equal (map (fun ic => (ic.1, normalize_tx_hash (let '(_, _, _, _, hash) := ic.2 in hash), ic.2)))) in Ht. by rewrite !map_map in Ht.
Qed.

(** ** Listing all transactions *)
Section listing.
Context `{PyRuntime} `{Timestamps} (standards : nat -> list (option summary) -> list (string * string)).

(** The client that follows [next_before_height] and [next_before_tx_index]: the
    [i]-th request sees the snapshot [s i]. *)
Fixpoint list_transactions (fuel : nat) (limit : Z) (s : nat -> snapshot) (i : nat) (cursor : option (Z * Z)) : option (res (list transaction_item)) :=
  match fuel with
  | O => None
  | S fuel =>
      match get_transactions (standards i) (Ok (s i)) limit (fst <$> cursor) (snd <$> cursor) with
      | Raise e => Some (Raise e)
      | Ok r =>
          match pg_next _ _ r with
          | None => Some (Ok (pg_items _ _ r))
          | next =>
              match list_transactions fuel limit s (S i) next with
              | Some (Ok items) => Some (Ok (pg_items _ _ r ++ items))
              | other => other
              end
          end
      end
  end.
End listing.

Lemma mapM_res_all {A B} (f : A -> res B) (P : A -> B -> Prop) l : (forall x, x ∈ l -> exists y, f x = Ok y /\ P x y) ->
  exists ys, mapM_res f l = Ok ys /\ Forall2 P l ys.
Proof.
  induction l as [|x l IH]; intros Hf; [by exists []|]. destruct (Hf x ltac:(left)) as (y & Hy & Hp).
  destruct IH as (ys & Hys & Hps); [intros z Hz; apply Hf; by right|]. exists (y :: ys). cbn. rewrite Hy. cbn. rewrite Hys. split; [done|by constructor].
Qed.

Section items_valid.
Context `{PyRuntime} `{Timestamps}.

Lemma summaries_total rows : exists ss, summaries_of rows = Ok ss /\
  Forall2 (fun row s => public_transaction_summary (default VNone (tp_summary row)) = Ok s) rows ss.
Proof. apply mapM_res_all. intros row _. destruct (public_summary_total (default VNone (tp_summary row))) as [s Hs]. by exists s. Qed.

(** Every published operation has a length the response model takes. *)
Definition op_ok (s : string) : bool := (1 <=? py_len s) && (py_len s <=? 80).
Lemma semantic_ok type label path function standard : op_ok label = true -> op_ok (semantic_transaction_operation type label path function standard) = true.
Proof.
  intros Hl. unfold semantic_transaction_operation.
  assert (forall d : list (string * string), forallb (fun kv => op_ok kv.2) d = true -> forall k v, dict_get k d = Some v -> op_ok v = true) as Hd.
  { intros d Hd k v Hk. induction d as [|[j w] d IH]; [done|]. cbn in Hd, Hk. apply andb_true_iff in Hd as [Hw Hd]. destruct (String.eqb k j); [by injection Hk as <-|by apply IH]. }
  destruct (dict_get type BASE_OPERATIONS) as [op|] eqn:Eb.
  { eapply (Hd BASE_OPERATIONS); [by vm_compute|exact Eb]. }
  destruct (negb _); [done|]. destruct (negb _ || negb _); [by vm_compute|].
  destruct standard as [st|]; [|by vm_compute]. cbn [mbind option_bind]. destruct (dict_get st STANDARD_OPERATIONS) as [fs|] eqn:Es; [|by vm_compute].
  destruct function as [f|]; [|by vm_compute]. cbn [mbind option_bind]. destruct (dict_get f fs) as [op|] eqn:Ef; [|by vm_compute]. cbn [default].
  eapply (Hd fs); [|exact Ef]. unfold STANDARD_OPERATIONS in Es. cbn [dict_get] in Es.
  repeat (destruct (String.eqb st _) in Es; [injection Es as <-; by vm_compute|]). done.
Qed.
Lemma item_valid (row : tx_page_row) s std : 1 <= (tp_key row).1 -> 0 <= (tp_key row).2 -> execution_valid (tp_execution row) = true ->
  public_transaction_summary (default VNone (tp_summary row)) = Ok s -> transaction_item_valid (list_item row s std) = true.
Proof.
  intros Hh Hi He Hs. unfold list_item. destruct s as [s|].
  2: { unfold transaction_item_valid, execution_valid, option_all in *. cbn [ti_height ti_index ti_type ti_operation ti_message_count ti_execution summary_operation].
       rewrite He, (proj2 (Z.leb_le 1 _)), (proj2 (Z.leb_le 0 _)) by done. by vm_compute. }
  assert (public_bounded s) as [_ _ Hc _ Hn _ _ _].
  { unfold public_transaction_summary in Hs. assert (public_body (default VNone (tp_summary row)) = Ok s) as Hb; [|by destruct (public_body_fixed _ _ Hb)].
    destruct (default VNone (tp_summary row)); try done; destruct (public_body _) as [s'|e]; try (by injection Hs as ->); by destruct (_ || _). }
  pose proof (Hc "type" ltac:(left)) as Ht. pose proof (Hc "label" ltac:(do 3 right; left)) as Hl. cbn in Ht, Hl.
  unfold transaction_item_valid, summary_operation. cbn [ti_height ti_index ti_type ti_operation ti_message_count ti_execution].
  apply andb_true_iff in Ht as [Ht _]. apply andb_true_iff in Hl as [Hl _].
  assert (op_ok (sm_label s) = true) as Ho by (unfold op_ok; lia). unfold execution_valid, option_all in He. rewrite He, andb_true_r.
  match goal with |- context [semantic_transaction_operation ?t ?l ?p ?f ?v] => pose proof (semantic_ok t l p f v Ho) as Hop end.
  unfold op_ok in Hop. apply andb_true_iff in Hop as [Ho1 Ho2]. rewrite Ho1, Ho2, (proj2 (Z.leb_le 1 _)), (proj2 (Z.leb_le 0 _)) by done.
  apply andb_true_iff in Ht as [Ht1 Ht2]. rewrite Ht2, (proj2 (Z.leb_le 1 (py_len (sm_type s)))) by lia. cbn [andb].
  destruct (sm_message_count s) as [c|]; [|done]. destruct (Hn c eq_refl) as [? _]. lia.
Qed.
End items_valid.

(** The joined rows of an indexed database: one per transaction *)
Lemma elem_of_tx_rows d row : row ∈ tx_rows d <->
  exists k r b, transactions d !! k = Some r /\ blocks d !! k.1 = Some b /\ row = tx_page_row_of d k r b.
Proof.
  unfold tx_rows. rewrite list_elem_of_omap. split.
  - intros ([k r] & Hk%elem_of_map_to_list & (b & Hb & ->)%fmap_Some). by exists k, r, b.
  - intros (k & r & b & Hk & Hb & ->). exists (k, r). split; [by apply elem_of_map_to_list|]. cbn. by rewrite Hb.
Qed.
Lemma tx_rows_keys d : (forall k, is_Some (transactions d !! k) -> is_Some (blocks d !! k.1)) ->
  tp_key <$> tx_rows d = fst <$> map_to_list (transactions d).
Proof.
  intros Hfk. unfold tx_rows. assert (Forall (fun kr => is_Some (blocks d !! kr.1.1)) (map_to_list (transactions d))) as Hf.
  { apply Forall_forall. intros [k r] Hk%elem_of_map_to_list. by apply Hfk; exists r. }
  induction Hf as [|[k r] l [b Hb] _ IH]; [done|]. cbn [omap list_omap]. cbn [fst snd] in *. rewrite Hb. cbn. by f_equal.
Qed.

Lemma elem_of_take_in {A} n (l : list A) x : x ∈ take n l -> x ∈ l.
Proof. rewrite <-(take_drop n l) at 2. rewrite elem_of_app. by left. Qed.

(** A position the handler takes: those of stored rows are *)
Definition cursor_ok (c : option (Z * Z)) : bool := option_all (fun c => (0 <? c.1) && (0 <=? c.2) && bigint c.1 && int4 c.2) c.
Ltac cursor_done := match goal with c : option (Z * Z) |- _ =>
  destruct c as [[??]|]; unfold cursor_ok, option_all in *; cbn [fst snd fmap option_fmap option_map] in *; [|done] end;
  rewrite !andb_true_iff in *; destruct_and?; split_and?; done.

Section transaction_pages.
Context `{PyRuntime} `{Timestamps} `{PL : PostgresLaws} `{!EnforcesSchema} (chain : string).

Lemma tx_rows_unique d : reachable chain d -> NoDup (tp_key <$> tx_rows d).
Proof. intros Hr. rewrite tx_rows_keys by apply (ix_txs _ _ (reachable_indexed _ _ Hr)). apply NoDup_fst_map_to_list. Qed.
Lemma tx_keys_spec d k : reachable chain d -> k ∈ tp_key <$> tx_rows d <-> is_Some (transactions d !! k).
Proof.
  intros Hr. rewrite tx_rows_keys by apply (ix_txs _ _ (reachable_indexed _ _ Hr)). rewrite list_elem_of_fmap. split.
  - intros ([j r] & -> & Hj%elem_of_map_to_list). by exists r.
  - intros [r Hk]. exists (k, r). split; [done|]. by apply elem_of_map_to_list.
Qed.
Lemma wrote_txs d d' k : wrote chain d d' -> is_Some (transactions d !! k) -> is_Some (transactions d' !! k).
Proof.
  induction 1 as [|d e f (p & tip & ep & ->) _ IH]; [done|]. intros [r Hk]. apply IH.
  destruct (fk_txs _ _ _ _ (write_height_immutable p chain tip ep d) k r Hk) as (r' & Hr' & _). by exists r'.
Qed.

Lemma tx_row_checked d row : reachable chain d -> row ∈ tx_rows d ->
  cursor_ok (Some (tp_key row)) = true /\ 1 <= (tp_key row).1 /\ 0 <= (tp_key row).2 /\ execution_valid (tp_execution row) = true.
Proof.
  intros Hr (k & r & b & Hk & Hb & ->)%elem_of_tx_rows. pose proof (height_range _ _ _ _ Hr Hb).
  pose proof (sc_txs _ (reachable_checked _ _ Hr) _ _ Hk) as Hc. unfold tx_checks in Hc. destruct (tr_columns r) as [[[[a l] dl] st] hs].
  do 6 apply andb_true_iff in Hc as [Hc ?]. unfold tx_page_row_of. cbn [tp_key tp_execution].
  split_and!; [unfold cursor_ok, option_all; rewrite !andb_true_iff; split_and!; (done || lia)|lia|lia|].
  apply execution_checked. exact (reachable_checked _ _ Hr).
Qed.
Definition is_item (row : tx_page_row) (i : transaction_item) : Prop :=
  exists summary standards, public_transaction_summary (default VNone (tp_summary row)) = Ok summary /\ i = list_item row summary standards.
Lemma transactions_page s std limit cursor : limit_ok limit = true -> reachable chain (sn_db s) -> cursor_ok cursor = true ->
  let p := page tp_key (Z.to_nat limit) (select tp_key cursor (S (Z.to_nat limit)) (tx_rows (sn_db s))) in
  exists items, get_transactions std (Ok s) limit (fst <$> cursor) (snd <$> cursor) = Ok (Page _ _ items limit p.2) /\ Forall2 is_item p.1 items.
Proof.
  intros Hl Hr Hc. cbn zeta. set (p := page _ _ _).
  assert (forall row, row ∈ p.1 -> row ∈ tx_rows (sn_db s)) as Hin.
  { intros row Hrow. apply (elem_of_selected tp_key cursor (tx_rows (sn_db s)) row). unfold p, page, select in Hrow. cbn [fst] in Hrow.
    by do 2 apply elem_of_take_in in Hrow. }
  destruct (summaries_total p.1) as (ss & Hss & Hpub).
  destruct (mapM_res_all (fun rs : tx_page_row * option summary => transaction_list_item_from_row rs.1 rs.2 (std ss))
    (fun rs i => public_transaction_summary (default VNone (tp_summary rs.1)) = Ok rs.2 /\ i = list_item rs.1 rs.2 (std ss)) (zip p.1 ss)) as (items & Hitems & Hall).
  { intros [row su] Hrs. cbn [fst snd]. assert (public_transaction_summary (default VNone (tp_summary row)) = Ok su) as Hsu.
    { clear -Hrs Hpub. induction Hpub as [|x y l k Hxy _ IH]; [by apply elem_of_nil in Hrs|]. cbn in Hrs. apply elem_of_cons in Hrs as [[= -> ->]|Hrs]; [done|by apply IH]. }
    exists (list_item row su (std ss)). split; [|done]. unfold transaction_list_item_from_row.
    assert (match su with Some s0 => Ok (Some s0) | None => public_transaction_summary (default VNone (tp_summary row)) end = Ok su) as -> by (by destruct su).
    cbn [mbind res_bind]. assert (row ∈ tx_rows (sn_db s)) as Hrow by (apply Hin; apply elem_of_zip_l in Hrs; done).
    destruct (tx_row_checked _ _ Hr Hrow) as (_ & ? & ? & ?). by rewrite (item_valid row su (std ss)). }
  exists items. split.
  - unfold get_transactions. rewrite Hl. assert (option_all (Z.ltb 0) (fst <$> cursor) = true) as -> by cursor_done.
    assert (option_all (Z.leb 0) (snd <$> cursor) = true) as -> by cursor_done. cbn [andb require mbind res_bind].
    assert (both_or_none (fst <$> cursor) (snd <$> cursor) = Ok tt) as -> by (by destruct cursor). cbn [mbind res_bind].
    unfold fetch_transactions. cbn [mbind res_bind]. assert (option_all bigint (fst <$> cursor) && option_all int4 (snd <$> cursor) = true) as ->.
    { cursor_done. }
    cbn [require mbind res_bind]. assert ((h ← fst <$> cursor; i ← snd <$> cursor; Some (h, i)) = cursor) as -> by (by destruct cursor as [[]|]).
    cbn [or_unavailable mbind res_bind]. fold p. clearbody p. destruct p as [rows next]. cbn [fst snd] in *. rewrite Hss. cbn [mbind res_bind]. by rewrite Hitems.
  - clear -Hpub Hall. revert Hall. generalize (std ss) as st. intros st. revert items. induction Hpub as [|row su l k Hsu _ IH]; intros items; cbn [zip zip_with]; intros Hall.
    { apply Forall2_nil_inv_l in Hall as ->. constructor. }
    apply Forall2_cons_inv_l in Hall as (it & its & [_ ->] & Hall & ->). constructor; [|by apply IH]. exists su, st. by split.
Qed.

Lemma list_transactions_walk std s limit fuel i cursor out : limit_ok limit = true -> (forall i, reachable chain (sn_db (s i))) -> cursor_ok cursor = true ->
  walk tp_key fuel (Z.to_nat limit) (fun i => tx_rows (sn_db (s i))) i cursor = Some out ->
  exists items, list_transactions std fuel limit s i cursor = Some (Ok items) /\ Forall2 is_item out items.
Proof.
  intros Hl Hr. revert i cursor out. induction fuel as [|fuel IH]; intros i cursor out Hc Hw; [done|]. cbn [walk list_transactions] in *.
  destruct (transactions_page (s i) (std i) limit cursor Hl (Hr i) Hc) as (items & -> & Hitems).
  set (rows := select tp_key cursor (S (Z.to_nat limit)) (tx_rows (sn_db (s i)))) in *. cbn [pg_next pg_items].
  destruct (page tp_key (Z.to_nat limit) rows) as [page_rows next] eqn:Ep. cbn [fst snd] in *. destruct next as [c|].
  - apply fmap_Some in Hw as (rest & Hw & ->). destruct (IH (S i) (Some c) rest) as (more & -> & Hmore); [|done|].
    + unfold page in Ep. injection Ep as _ Hn. destruct (Nat.ltb _ _); [|done]. apply fmap_Some in Hn as (row & Hlast & ->).
      apply (tx_row_checked (sn_db (s i))); [done|]. apply (elem_of_selected tp_key cursor). unfold rows, select in Hlast.
      apply last_Some_elem_of in Hlast. by do 2 apply elem_of_take_in in Hlast.
    + eexists. split; [done|]. by apply Forall2_app.
  - injection Hw as <-. by exists items.
Qed.
End transaction_pages.


(** ** The transactions of an account *)
Lemma elem_of_participation d address k i role : (Z.of_nat i, role) ∈ participation_of d address k <->
  (i, role, address) ∈ default ∅ (participants d !! k).
Proof.
  unfold participation_of. rewrite elem_of_sort_by, list_elem_of_fmap. split.
  - intros ([[j r] a] & [= Hj ->] & Hq%list_elem_of_In%filter_In). cbn in *. destruct Hq as [Hq%list_elem_of_In%elem_of_elements ->%String.eqb_eq].
    by replace i with j by lia.
  - intros Hq. exists (i, role, address). split; [done|]. apply list_elem_of_In, filter_In. split; [by apply list_elem_of_In, elem_of_elements|apply String.eqb_refl].
Qed.
Lemma participation_nat d address k p : p ∈ participation_of d address k -> exists i, p = (Z.of_nat i, p.2).
Proof.
  unfold participation_of. rewrite elem_of_sort_by, list_elem_of_fmap. intros ([[j r] a] & -> & _). by exists j.
Qed.
Lemma elem_of_account_rows d address rp : rp ∈ account_rows d address <->
  rp.1 ∈ tx_rows d /\ rp.2 = participation_of d address (tp_key rp.1) /\ rp.2 <> [].
Proof.
  unfold account_rows. rewrite list_elem_of_omap. destruct rp as [row p]. cbn [fst snd]. split.
  - intros (row' & Hrow & Hp). case_bool_decide; [done|]. by injection Hp as <- <-.
  - intros (Hrow & -> & Hp). exists row. split; [done|]. by rewrite bool_decide_eq_false_2.
Qed.

Section account_page.
Context `{PyRuntime} `{Timestamps} `{PL : PostgresLaws} `{!EnforcesSchema} (chain : string).

Lemma participation_checked d address k : reachable chain d -> participation_of d address k <> [] -> participation_ok (participation_of d address k) = true.
Proof.
  intros Hr Hne. unfold participation_ok. rewrite bool_decide_eq_false_2 by done. cbn [negb andb]. apply forallb_forall.
  intros p Hp%list_elem_of_In. destruct (participation_nat _ _ _ _ Hp) as [i Hi]. destruct p as [j role]. injection Hi as ->. apply elem_of_participation in Hp.
  destruct (participants d !! k) as [q|] eqn:Eq; cbn in Hp; [|by apply elem_of_empty in Hp].
  pose proof (sc_participants _ (reachable_checked _ _ Hr) _ _ _ Eq Hp) as Hc. unfold participant_checks in Hc.
  apply andb_true_iff in Hc as [Hc Hrole]. cbn [fst snd]. rewrite Hrole. apply andb_true_iff in Hc as [_ Hc]. rewrite Hc, (proj2 (Z.leb_le 0 (Z.of_nat i))) by lia. done.
Qed.
Lemma account_item_ok d row p address std su cid : reachable chain d -> (row, p) ∈ account_rows d address ->
  public_transaction_summary (default VNone (tp_summary row)) = Ok su ->
  exists it, account_transaction_item_from_row row p address (gno_profile cid) su std = Ok it /\
    ai_item it = list_item row su std /\ ai_direction it = direction p.
Proof.
  intros Hr (Hrow & Hp & Hne)%elem_of_account_rows Hsu. cbn [fst snd] in *. unfold account_transaction_item_from_row.
  assert (participation_ok p = true) as -> by (rewrite Hp in Hne |- *; by apply participation_checked). cbn [require mbind res_bind].
  assert (match su with Some s0 => Ok (Some s0) | None => public_transaction_summary (default VNone (tp_summary row)) end = Ok su) as -> by (by destruct su).
  cbn [mbind res_bind]. destruct (tx_row_checked chain d row Hr Hrow) as (_ & ? & ? & ?). rewrite (item_valid row su std) by done. by eexists.
Qed.
Lemma direction_incoming p : direction p = "incoming" <-> forall i, (i, "sender") ∉ p.
Proof.
  unfold direction. destruct (existsb (fun q => String.eqb q.2 "sender") p) eqn:Es.
  - apply existsb_exists in Es as ([i r] & Hi%list_elem_of_In & Er'%String.eqb_eq). cbn in Er'. subst r. split; [by destruct (existsb _ _)|]. intros Hn. by destruct (Hn i).
  - split; [|done]. intros _ i Hi. assert (existsb (fun q => String.eqb q.2 "sender") p = true) as Ht; [|congruence].
    apply existsb_exists. exists (i, "sender"). split; [by apply list_elem_of_In|done].
Qed.
Lemma direction_outgoing p : participation_ok p = true -> direction p = "outgoing" <-> forall i, (i, "recipient") ∉ p.
Proof.
  intros Hok. unfold direction. destruct (existsb (fun q => String.eqb q.2 "recipient") p) eqn:Er.
  - apply existsb_exists in Er as ([i r] & Hi%list_elem_of_In & Er'%String.eqb_eq). cbn in Er'. subst r. split; [by destruct (existsb _ _)|]. intros Hn. by destruct (Hn i).
  - assert (existsb (fun q => String.eqb q.2 "sender") p = true) as ->.
    { unfold participation_ok in Hok. destruct p as [|q p]; [done|]. apply andb_true_iff in Hok as [_ Hf]. cbn in Hf, Er |- *.
      apply andb_true_iff in Hf as [Hf _]. apply orb_false_iff in Er as [Er _]. apply andb_true_iff in Hf as [_ Hf]. unfold in_strs in Hf. cbn in Hf.
      destruct (String.eqb_spec q.2 "sender"); [done|]. by rewrite Er in Hf. }
    split; [|done]. intros _ i Hi. assert (existsb (fun q => String.eqb q.2 "recipient") p = true) as Ht; [|congruence].
    apply existsb_exists. exists (i, "recipient"). split; [by apply list_elem_of_In|done].
Qed.
(** The items of a page *)
Lemma account_items d std cid address (rows : list (tx_page_row * list (Z * string))) : reachable chain d ->
  (forall row, row ∈ rows -> row ∈ account_rows d address) ->
  exists ss items, summaries_of (map fst rows) = Ok ss /\
    mapM_res (fun rs : tx_page_row * list (Z * string) * option summary =>
      account_transaction_item_from_row rs.1.1 rs.1.2 address (gno_profile cid) rs.2 (std ss)) (zip rows ss) = Ok items /\
    Forall2 (fun row it => row ∈ rows /\ (ti_height (ai_item it), ti_index (ai_item it)) = tp_key row.1 /\ ai_direction it = direction row.2) rows items.
Proof.
  intros Hr Hin. destruct (summaries_total (map fst rows)) as (ss & Hss & Hpub). exists ss.
  destruct (mapM_res_all (fun rs : tx_page_row * list (Z * string) * option summary =>
      account_transaction_item_from_row rs.1.1 rs.1.2 address (gno_profile cid) rs.2 (std ss))
    (fun rs it => rs.1 ∈ rows /\ (ti_height (ai_item it), ti_index (ai_item it)) = tp_key rs.1.1 /\ ai_direction it = direction rs.1.2) (zip rows ss)) as (items & Hitems & Hall).
  - intros [[row p] su] Hrs. cbn [fst snd]. assert ((row, p) ∈ rows) as Hrow by (by apply elem_of_zip_l in Hrs).
    assert (public_transaction_summary (default VNone (tp_summary row)) = Ok su) as Hsu.
    { clear -Hrs Hpub. revert ss Hpub Hrs. induction rows as [|x rows IH]; intros ss Hpub Hrs; [by apply elem_of_nil in Hrs|].
      apply Forall2_cons_inv_l in Hpub as (y & k & Hy & Hpub & ->). cbn in Hrs. apply elem_of_cons in Hrs as [Heq|Hrs]; [|by eapply IH].
      injection Heq as <- <-. done. }
    destruct (account_item_ok d row p address (std ss) su cid Hr (Hin _ Hrow) Hsu) as (it & Hit & Hi & Hd). exists it. split_and!; [done|done| |done].
    rewrite Hi. unfold list_item. destruct (summary_operation su (std ss)) as [[? ?] ?]. cbn. by destruct (tp_key row).
  - exists items. split_and!; [done|done|]. assert (length rows = length ss) as Hlen by (apply Forall2_length in Hpub; by rewrite length_map in Hpub).
    clear -Hall Hlen. revert Hall. generalize rows at 1 3 as all. intros all. revert ss items Hlen. induction rows as [|row rows IH]; intros [|su ss] items Hlen Hall; try done.
    + apply Forall2_nil_inv_l in Hall as ->. constructor.
    + cbn in Hall. apply Forall2_cons_inv_l in Hall as (it & its & Hit & Hall & ->). constructor; [done|]. apply (IH ss); [by injection Hlen|done].
Qed.
End account_page.

Lemma address_no_nul `{PyRuntime} a c : validate_account_address a (gno_profile c) = true -> no_nul a = true.
Proof.
  intros Hv%validate_iff. apply (check_bech32_iff _ c) in Hv; [|apply groups_ok_chars].
  apply check_bech32_iff in Hv as (data & values & Hcs & _ & Hf & _); [|apply groups_ok_chars].
  assert (Forall (fun g => data_char_ok g = true) (chars a)) as Hall.
  { rewrite Hcs. do 2 (apply Forall_cons; split; [reflexivity|]). apply Forall_forall. intros g [i Hi]%list_elem_of_lookup.
    destruct (Forall2_lookup_l _ _ _ _ _ Hf Hi) as (v & _ & Hv). by eapply bech32_value_char. }
  destruct (is_ascii_concat _ Hall) as [Ha _]. rewrite str_concat_chars in Ha. rewrite (chars_ascii _ Ha) in Hall.
  unfold no_nul. rewrite str_forallb_list. apply forallb_forall. intros x Hx. rewrite Forall_map, Forall_forall in Hall.
  apply list_elem_of_In in Hx. specialize (Hall x Hx). cbn in Hall. destruct (Z.eqb_spec (byte_Z x) 0) as [E|]; [|done].
  rewrite <-(Z_byte_Z x), E in Hall. by vm_compute in Hall.
Qed.

Section account_rows.
Context `{PyRuntime} `{PL : PostgresLaws} `{!EnforcesSchema} (chain : string) (d : db) (address : string).
Hypothesis indexed : reachable chain d.

Lemma account_rows_unique : NoDup (map (fun r => tp_key r.1) (account_rows d address)).
Proof.
  pose proof (tx_rows_unique chain _ indexed) as Hn. unfold account_rows. revert Hn. generalize (tx_rows d) as l.
  induction l as [|row l IH]; [constructor|]. rewrite fmap_cons. intros [Hk Hn]%NoDup_cons. cbn [omap list_omap].
  case_bool_decide; [by apply IH|]. cbn. constructor; [|by apply IH].
  intros (rp & Hrp & (row' & Hrow & Hp)%list_elem_of_omap)%list_elem_of_fmap. apply Hk. apply list_elem_of_fmap. exists row'.
  case_bool_decide; [done|]. injection Hp as <-. by split.
Qed.
(** A participation that is not empty comes from participant rows. *)
Lemma participation_rows k : participation_of d address k <> [] -> exists q, participants d !! k = Some q /\
  exists i role, (i, role, address) ∈ q.
Proof.
  intros Hne. destruct (participation_of d address k) as [|x l] eqn:Ep; [done|].
  assert (x ∈ participation_of d address k) as Hx by (rewrite Ep; left).
  destruct (participation_nat _ _ _ _ Hx) as [i Hi]. rewrite Hi in Hx. apply elem_of_participation in Hx.
  destruct (participants d !! k) as [q|]; cbn in Hx; [|by apply elem_of_empty in Hx]. exists q. split; [done|]. by exists i, x.2.
Qed.
Lemma account_rows_keys k : k ∈ map (fun r => tp_key r.1) (account_rows d address) <->
  exists q i role, participants d !! k = Some q /\ (i, role, address) ∈ q.
Proof.
  rewrite list_elem_of_fmap. split.
  - intros ([row p] & -> & (_ & Hp & Hne)%elem_of_account_rows). cbn [fst snd] in *. rewrite Hp in Hne.
    destruct (participation_rows _ Hne) as (q & Hq & i & role & Hi). by exists q, i, role.
  - intros (q & i & role & Hq & Hi). destruct (ix_participants _ _ (reachable_indexed _ _ indexed) k (ex_intro _ q Hq)) as [r Hk].
    destruct (ix_txs _ _ (reachable_indexed _ _ indexed) k (ex_intro _ r Hk)) as [b Hb].
    exists (tx_page_row_of d k r b, participation_of d address k). split; [done|]. apply elem_of_account_rows. cbn [fst snd].
    split_and!; [apply elem_of_tx_rows; by exists k, r, b|done|]. intros He.
    assert ((Z.of_nat i, role) ∈ participation_of d address k) as Hx by (apply elem_of_participation; by rewrite Hq).
    rewrite He in Hx. by apply elem_of_nil in Hx.
Qed.
(** The direction an item shows *)
Lemma account_row_direction row : row ∈ account_rows d address -> exists q, participants d !! tp_key row.1 = Some q /\
  (direction row.2 = "incoming" <-> forall i, (i, "sender", address) ∉ q) /\ (direction row.2 = "outgoing" <-> forall i, (i, "recipient", address) ∉ q).
Proof.
  intros (_ & Hp & Hne)%elem_of_account_rows. rewrite Hp in Hne. destruct (participation_rows _ Hne) as (q & Hq & _). exists q. split; [done|].
  rewrite Hp, direction_incoming, direction_outgoing by (by apply (participation_checked chain)).
  assert (forall role, (forall i, (i, role) ∉ participation_of d address (tp_key row.1)) <-> (forall i, (i, role, address) ∉ q)) as Hgo; [|by split; apply Hgo].
  assert (forall i role, (Z.of_nat i, role) ∈ participation_of d address (tp_key row.1) <-> (i, role, address) ∈ q) as He.
  { intros i role. rewrite elem_of_participation. by rewrite Hq. }
  intros role. split; intros Hn i Hi; [by apply (Hn (Z.of_nat i)), He|]. destruct (participation_nat _ _ _ _ Hi) as [j [= ->]]. by apply (Hn j), He.
Qed.
End account_rows.


(** ** Lookups by hash *)
Section hashes.
Context `{PyRuntime}.

Lemma upper_fixed s (p : ascii -> bool) : (forall a, p a = true -> is_ascii_byte a = true /\ ascii_upper a = a) -> str_forallb p s = true -> py_upper s = s.
Proof.
  intros Hp Hs. unfold py_upper. assert (is_ascii s = true /\ str_map ascii_upper s = s) as [-> ->]; [|done].
  unfold is_ascii. induction s as [|a s IH]; [done|]. cbn in Hs |- *. apply andb_true_iff in Hs as [Ha Hs]. destruct (IH Hs) as [-> ->].
  destruct (Hp a Ha) as [-> ->]. done.
Qed.
Lemma byte_check (p : ascii -> bool) a : forallb (fun z => p (Z_byte z)) (seqZ 0 256) = true -> p a = true.
Proof.
  intros Hp. pose proof (byte_Z_range a) as Hr. pose proof (range_check (fun z => p (Z_byte z)) 0 256 (byte_Z a) Hp ltac:(lia)) as Ha. cbn beta in Ha. by rewrite Z_byte_Z in Ha.
Qed.
Lemma stored_hash_upper s : is_tx_hash s = true -> py_upper s = s.
Proof.
  unfold is_tx_hash. intros [_ Hs]%andb_true_iff. apply (upper_fixed s hash_char); [|done]. intros a Ha.
  pose proof (byte_check (fun a => negb (hash_char a) || (is_ascii_byte a && Ascii.eqb (ascii_upper a) a)) a ltac:(by vm_compute)) as Hc. cbn beta in Hc.
  rewrite Ha in Hc. cbn in Hc. apply andb_true_iff in Hc as [-> Hc]. by apply Ascii.eqb_eq in Hc.
Qed.
Lemma hex_hash_ok q digits : hex_hash q = Some digits -> no_nul (py_upper digits) = true.
Proof.
  unfold hex_hash. destruct (_ && _) eqn:E; [|done]. intros [= <-]. apply andb_true_iff in E as [_ Hs]. revert Hs. generalize (without_0x q) as d. intros d Hs.
  unfold py_upper, no_nul. assert (is_ascii d = true) as ->.
  { unfold is_ascii. induction d as [|a d IH]; [done|]. cbn in Hs |- *. apply andb_true_iff in Hs as [Ha Hs]. rewrite (IH Hs), andb_true_r.
    pose proof (byte_check (fun a => negb (hex_char a) || is_ascii_byte a) a ltac:(by vm_compute)) as Hc. cbn beta in Hc. by rewrite Ha in Hc. }
  induction d as [|a d IH]; [done|]. cbn in Hs |- *. apply andb_true_iff in Hs as [Ha Hs]. rewrite (IH Hs), andb_true_r.
  pose proof (byte_check (fun a => negb (hex_char a) || negb (byte_Z (ascii_upper a) =? 0)) a ltac:(by vm_compute)) as Hc. cbn beta in Hc. by rewrite Ha in Hc.
Qed.
End hashes.

Section lookups.
Context `{PyRuntime} `{Timestamps} `{PL : PostgresLaws} `{!EnforcesSchema} (chain : string) (s : snapshot) (q digits : string).
Hypothesis indexed : reachable chain (sn_db s).
Hypothesis is_hash : hex_hash q = Some digits.
Hypothesis hash_no_nul : no_nul (py_upper digits) = true.

Lemma elem_of_block_rows r : r ∈ block_rows s <-> blocks (sn_db s) !! bp_height r = Some (bp_block r) /\
  bp_moniker r ∈ proposer_monikers (sn_profiles s) (br_proposer (bp_block r)).
Proof.
  unfold block_rows. rewrite list_elem_of_In, in_flat_map. split.
  - intros ([h b] & Hb%list_elem_of_In%elem_of_map_to_list & (m & <- & Hm)%in_map_iff). split; [done|]. by apply list_elem_of_In.
  - intros [Hb Hm]. destruct r as [h b m]. cbn in *. exists (h, b). split; [by apply list_elem_of_In, elem_of_map_to_list|].
    apply in_map_iff. exists m. split; [done|]. by apply list_elem_of_In.
Qed.
Lemma block_by_hash_ok limit : limit_ok limit = true -> py_len q <= 200 -> py_strip q = q ->
  exists items, get_blocks (Ok s) limit None (Some q) = Ok (Page _ _ items limit None) /\
    match items with
    | [] => forall h b, blocks (sn_db s) !! h = Some b -> br_hash_hex b <> py_upper digits
    | [item] => exists b, blocks (sn_db s) !! bi_height item = Some b /\ br_hash_hex b = py_upper digits /\ bi_hash item = normalize_block_hash (br_hash_hex b) /\
        forall h b', blocks (sn_db s) !! h = Some b' -> br_hash_hex b' = py_upper digits -> h = bi_height item
    | _ => False
    end.
Proof.
  intros Hl Hlen Hstrip. unfold get_blocks. rewrite Hl. cbn [option_all andb]. rewrite (proj2 (Z.leb_le _ _)) by done.
  rewrite (bool_decide_eq_false_2 (is_Some None)) by (by intros [? ?]). cbn [require raise_if andb mbind res_bind].
  unfold normalize_hash_query. rewrite Hstrip.
  assert (String.eqb q "" = false) as -> by (destruct (String.eqb_spec q "") as [->|]; [by vm_compute in is_hash|done]).
  rewrite (proj2 (Z.ltb_ge _ _)) by done. rewrite is_hash. cbn [raise_if mbind res_bind]. unfold fetch_block_by_hash. cbn [mbind res_bind option_all].
  rewrite hash_no_nul. cbn [require mbind res_bind or_unavailable]. eexists. split; [done|].
  set (l := List.filter _ (block_rows s)). assert (forall r, r ∈ l <-> r ∈ block_rows s /\ br_hash_hex (bp_block r) = py_upper digits) as Hin.
  { intros r. unfold l. rewrite list_elem_of_In, filter_In, <-list_elem_of_In, bool_decide_eq_true. split; intros [? Hv]; (split; [done|]); [by injection Hv|by rewrite Hv]. }
  clearbody l. destruct l as [|r l]; cbn [head].
  - intros h b Hb Hh. destruct (monikers_cons (sn_profiles s) (br_proposer b)) as (m & ms & Hm).
    assert (BlockPageRow h b m ∈ ([] : list block_page_row)) as Hr; [|by apply elem_of_nil in Hr]. apply Hin. split; [|done].
    apply elem_of_block_rows. cbn. split; [done|]. rewrite Hm. left.
  - destruct (proj1 (Hin r) ltac:(left)) as [[Hb _]%elem_of_block_rows Hh]. exists (bp_block r). split_and!; [done|done|done|].
    intros h b' Hb' Hh'. cbn. eapply (ix_hash _ _ (reachable_indexed _ _ indexed)); [exact Hb'|exact Hb|]. right. congruence.
Qed.
Lemma tx_by_hash_ok :
  match get_transaction_by_hash (Ok s) q with
  | Ok l => lk_hash l = py_upper digits /\
      (exists r, transactions (sn_db s) !! (lk_height l, lk_index l) = Some r /\ tx_hash_of r = Some (py_upper digits)) /\
      forall k r, transactions (sn_db s) !! k = Some r -> tx_hash_of r = Some (py_upper digits) -> key_ltb (lk_height l, lk_index l) k = false
  | Raise e => e = HTTPException 404 "Transaction not found" /\
      forall k r, transactions (sn_db s) !! k = Some r -> tx_hash_of r <> Some (py_upper digits)
  end.
Proof.
  unfold get_transaction_by_hash. rewrite is_hash. unfold fetch_transaction_by_hash. cbn [mbind res_bind]. rewrite hash_no_nul. cbn [require mbind res_bind or_unavailable].
  set (rows := List.filter _ (map_to_list (transactions (sn_db s)))).
  assert (forall k r, (k, r) ∈ selected fst None rows <-> transactions (sn_db s) !! k = Some r /\ tx_hash_of r = Some (py_upper digits)) as Hin.
  { intros k r. rewrite elem_of_selected. unfold rows. rewrite list_elem_of_In, filter_In, <-list_elem_of_In, elem_of_map_to_list, bool_decide_eq_true. cbn. tauto. }
  assert (NoDup (fst <$> rows)) as Hn.
  { pose proof (NoDup_fst_map_to_list (transactions (sn_db s))) as Hn. unfold rows. revert Hn. generalize (map_to_list (transactions (sn_db s))) as l.
    induction l as [|x l IH]; [constructor|]. rewrite fmap_cons. intros [Hx Hn]%NoDup_cons. cbn. destruct (bool_decide _); [|by apply IH].
    rewrite fmap_cons. constructor; [|by apply IH]. intros (y & Hy & Hyl%list_elem_of_In%filter_In)%list_elem_of_fmap. apply Hx. apply list_elem_of_fmap.
    exists y. split; [done|]. apply list_elem_of_In. by destruct Hyl. }
  pose proof (selected_sorted fst None rows Hn) as Hs. destruct (selected fst None rows) as [|[k r] l] eqn:El; cbn [head].
  - split; [done|]. intros k r Hk Hh. assert ((k, r) ∈ ([] : list (Z * Z * tx_row))) as Hx by (by apply Hin). by apply elem_of_nil in Hx.
  - destruct (proj1 (Hin k r) ltac:(left)) as [Hk Hh]. pose proof (sc_txs _ (reachable_checked _ _ indexed) _ _ Hk) as Hc.
    destruct (ix_txs _ _ (reachable_indexed _ _ indexed) k (ex_intro _ r Hk)) as [b Hb]. pose proof (height_range _ _ _ _ indexed Hb) as Hrange.
    unfold tx_checks in Hc. assert (tx_hash_of r = Some (py_upper digits)) as Hh' by done. unfold tx_hash_of in Hh. destruct (tr_columns r) as [[[[a l1] dl] st] hs] eqn:Er.
    subst hs. apply andb_true_iff in Hc as [Hc _]. apply andb_true_iff in Hc as [Hc Hhash]. apply andb_true_iff in Hc as [Hc _].
    apply andb_true_iff in Hc as [Hc _]. apply andb_true_iff in Hc as [_ Hi]. destruct k as [h i]. cbn [fst snd] in *. rewrite Hh'. cbn [default].
    rewrite (stored_hash_upper _ Hhash), Hhash, Hi, (proj2 (Z.leb_le 1 h)) by lia. cbn [andb require mbind res_bind lk_hash lk_height lk_index].
    split_and!; [done|by exists r|]. intros k' r' Hk' Hh2. rewrite fmap_cons in Hs. apply StronglySorted_inv in Hs as [_ Hs]. rewrite Forall_forall in Hs.
    assert ((k', r') ∈ (h, i, r) :: l) as [Heq|Hx]%elem_of_cons by (by apply Hin).
    + injection Heq as -> _. apply (key_irrefl (K := Z * Z)).
    + specialize (Hs _ (list_elem_of_fmap_2 fst _ _ Hx)). cbn [fst] in Hs. destruct (key_ltb (h, i) k') eqn:E; [|done].
      pose proof (key_trans _ _ _ E Hs) as Hc. by rewrite key_irrefl in Hc.
Qed.
End lookups.

(** C25. Lookup by hash, in any case and with or without 0x: the block that has
    the hash, if any, and no other; the latest of the transactions that have the
    hash, as it is stored, or status 404 when there is none. *)
Theorem found_by_hash `{PyRuntime} `{Timestamps} `{PL : PostgresLaws} `{!EnforcesSchema} chain s limit q digits :
  reachable chain (sn_db s) -> limit_ok limit = true -> py_len q <= 200 -> py_strip q = q -> hex_hash q = Some digits ->
  (exists items, get_blocks (Ok s) limit None (Some q) = Ok (Page _ _ items limit None) /\
    match items with
    | [] => forall h b, blocks (sn_db s) !! h = Some b -> br_hash_hex b <> py_upper digits
    | [item] => exists b, blocks (sn_db s) !! bi_height item = Some b /\ br_hash_hex b = py_upper digits /\ bi_hash item = normalize_block_hash (br_hash_hex b) /\
        forall h b', blocks (sn_db s) !! h = Some b' -> br_hash_hex b' = py_upper digits -> h = bi_height item
    | _ => False
    end) /\
  match get_transaction_by_hash (Ok s) q with
  | Ok l => lk_hash l = py_upper digits /\
      (exists r, transactions (sn_db s) !! (lk_height l, lk_index l) = Some r /\ tx_hash_of r = Some (py_upper digits)) /\
      forall k r, transactions (sn_db s) !! k = Some r -> tx_hash_of r = Some (py_upper digits) -> key_ltb (lk_height l, lk_index l) k = false
  | Raise e => e = HTTPException 404 "Transaction not found" /\
      forall k r, transactions (sn_db s) !! k = Some r -> tx_hash_of r <> Some (py_upper digits)
  end.
Proof.
  intros Hr Hl Hq Hstrip Hd. pose proof (hex_hash_ok _ _ Hd) as Hnul. split; [by apply (block_by_hash_ok chain)|by apply (tx_by_hash_ok chain)].
Qed.

(** ** Concrete runs *)
#[local] Existing Instance ascii_runtime.
#[local] Instance epoch : Timestamps := {| instant _ := 719162 * 86400000000 |}.
(** The server of [Finalized.demo_postgres], with the constraints *)
#[local] Instance schema_postgres : Postgres := {|
  pg_text := @pg_text demo_postgres;
  pg_jsonb := @pg_jsonb demo_postgres;
  pg_timestamp v := Ok v;
  pg_check row := if row_checks row then Ok tt else Raise IntegrityError
|}.
#[local] Instance schema_laws : PostgresLaws.
Proof. constructor. apply (@pg_text_stored demo_postgres demo_laws). Qed.
#[local] Instance schema_enforced : EnforcesSchema.
Proof. constructor. intros row. cbn [pg_check schema_postgres]. by destruct (row_checks row). Qed.
Definition page_address : string := "g1jg8mtutu9khhfwc4nxmuhcpftf0pajdhfvsqf5".
(** The same height, its transaction sending coins from [page_address] *)
Definition send_summary : val :=
  let core := [("type", VStr "gno.bank.MsgSend"); ("category", VStr "bank"); ("action", VStr "send"); ("label", VStr "Coin Transfer")] in
  VDict [("schema_version", VInt 1); ("chain_family", VStr "gno"); ("parse_status", VStr "parsed"); ("message_count", VInt 1);
         ("messages_truncated", VBool false); ("primary", VDict core); ("messages", VList [VDict (core ++ [("sender", VStr page_address)])])].
Definition send_height : ParsedHeight :=
  Build_ParsedHeight 12 (ph_block demo_height)
    (map (fun t => Build_parsed_tx (px_index t) (px_raw_base64 t) (px_raw_base64_length t) (px_decoded_bytes t) (px_decoded_byte_length t)
       (px_decode_status t) (px_tx_hash_hex t) send_summary) (ph_transactions demo_height))
    (ph_execution_results demo_height) (ph_validators demo_height) (ph_signatures demo_height) VNone.
Definition page_db : db := (write_height send_height "dev" 20 None empty_db).2.
Definition page_snapshot : snapshot := Snapshot page_db [].
Lemma page_reachable : reachable "dev" (sn_db page_snapshot).
Proof. unfold page_snapshot, sn_db, page_db. apply (reachable_write "dev" empty_db). constructor. Qed.

Lemma block_detail_consistent_witness : exists b, get_block_detail (Ok (fun _ => page_snapshot)) 12 = Ok b /\ cc_validators (de_commit b) = 1.
Proof.
  destruct (@block_detail_consistent ascii_runtime epoch schema_postgres schema_laws schema_enforced "dev" (fun _ => page_snapshot) 12
    page_reachable (rtc_refl _ _) (rtc_refl _ _)) as (b & Hb & _).
  - destruct (blocks (sn_db page_snapshot) !! 12) as [r|] eqn:E; [by exists r|by vm_compute in E].
  - exists b. split; [exact Hb|]. vm_compute in Hb. by injection Hb as <-.
Defined.
Definition page_hash : string := "0x709e80c88487a2411e1ee4dfb9f22a861492d20c4765150c0c794abd70f8147c".
Lemma found_by_hash_witness : exists l, get_transaction_by_hash (Ok page_snapshot) page_hash = Ok l /\ lk_height l = 12.
Proof.
  destruct (@found_by_hash ascii_runtime epoch schema_postgres schema_laws schema_enforced "dev" page_snapshot 20 page_hash
    "709e80c88487a2411e1ee4dfb9f22a861492d20c4765150c0c794abd70f8147c" page_reachable) as [_ Ht]; [vm_compute; (reflexivity || discriminate)..|].
  destruct (get_transaction_by_hash (Ok page_snapshot) page_hash) as [l|e] eqn:E; [|by vm_compute in E].
  exists l. split; [reflexivity|]. vm_compute in E. by injection E as <-.
Defined.
