(* ===== verification/Percent.v ===== *)
(** * Percentages of api/app.py

    [_rounded_percent]: decimal division in the default context, rounded half up
    to hundredths, and the sum of a column of decimals. *)
From Stdlib Require Import ZArith Lia Ascii String SpecFloat.
From stdpp Require Import base list strings.
From S2P Require Import Prelude PyStr PyVal Decimal.
Open Scope Z_scope.

(** ** Arithmetic of non-negative decimals *)
Definition dec_int (n : Z) : decimal := Finite false n 0.
Definition decimal_plus (a b : decimal) : res decimal :=
  match a, b with
  | Finite false c1 e1, Finite false c2 e2 =>
      let e := Z.min e1 e2 in finalize false (c1 * 10 ^ (e1 - e) + c2 * 10 ^ (e2 - e)) e
  | _, _ => Raise DecimalInvalidOperation
  end.
(** An exact quotient loses zeros up to the ideal exponent. *)
Fixpoint strip_quotient (fuel : nat) (c e ideal : Z) : Z * Z :=
  match fuel with
  | O => (c, e)
  | S fuel => if (e <? ideal) && (c mod 10 =? 0) then strip_quotient fuel (c / 10) (e + 1) ideal else (c, e)
  end.
(** [a / b], [b <> 0] *)
Definition decimal_div (a b : decimal) : res decimal :=
  match a, b with
  | Finite false c1 e1, Finite false c2 e2 =>
      if c1 =? 0 then finalize false 0 (e1 - e2) else
      let shift := ndigits c2 - ndigits c1 + PREC + 1 in
      let n := if 0 <=? shift then c1 * 10 ^ shift else c1 in
      let d := if 0 <=? shift then c2 else c2 * 10 ^ (- shift) in
      let q := n / d in
      if n mod d =? 0 then let '(c, e) := strip_quotient (Z.to_nat shift) q (e1 - e2 - shift) (e1 - e2) in finalize false c e
      else finalize false (if q mod 5 =? 0 then q + 1 else q) (e1 - e2 - shift)
  | _, _ => Raise DecimalInvalidOperation
  end.
(** [d.quantize(Decimal("0.01"), rounding=ROUND_HALF_UP)], in hundredths *)
Definition hundredths (d : decimal) : res Z :=
  match d with
  | Finite false c e =>
      let k := - 2 - e in
      let h := if k <=? 0 then c * 10 ^ (- k) else c / 10 ^ k + (if 10 ^ k <=? 2 * (c mod 10 ^ k) then 1 else 0) in
      _ ← require (ndigits h <=? PREC) DecimalInvalidOperation;
      Ok h
  | _ => Raise DecimalInvalidOperation
  end.
(** [float(Decimal)] of hundredths *)
Definition percent_float (h : Z) : float := f_div (f_of_Z h) (f_of_Z 100).
Definition is_zero (d : decimal) : bool := match d with Finite _ c _ => c =? 0 | _ => false end.
Definition rounded_percent (numerator denominator : decimal) : res float :=
  if is_zero denominator then Ok (f_of_Z 0) else
  n ← decimal_times numerator 100;
  value ← decimal_div n denominator;
  h ← hundredths value;
  Ok (percent_float h).
(** [sum((Decimal(row) for row in rows), Decimal(0))] *)
Definition decimal_sum (l : list Z) : res decimal := foldM_res (fun acc n => decimal_plus acc (dec_int n)) (dec_int 0) l.
(** [str] of a non-negative integral decimal *)
Definition decimal_str (d : decimal) : string :=
  match d with
  | Finite _ c e =>
      if e <=? 0 then str_of_nonneg c
      else match dec_digits c with
           | [] => ""
           | [x] => digits_str [x] +:+ "E+" +:+ str_of_nonneg e
           | x :: l => digits_str [x] +:+ "." +:+ digits_str l +:+ "E+" +:+ str_of_nonneg (e + Z.of_nat (length l))
           end
  | Infinite _ => "Infinity"
  | NaN _ => "NaN"
  end.

(** ** Percentages of a part *)
Lemma ndigits_le c k : 0 <= c -> 1 <= k -> ndigits c <= k <-> c < 10 ^ k.
Proof. intros Hc Hk. unfold ndigits. destruct (dec_digits_ok c Hc) as (_ & _ & _ & Hl). by apply Hl. Qed.
Lemma ndigits_pos c : 0 <= c -> 1 <= ndigits c.
Proof. intros Hc. unfold ndigits. destruct (dec_digits_ok c Hc) as (_ & _ & Hne & _). destruct (dec_digits c); [done|]. cbn. lia. Qed.
Lemma finalize_small c e : 0 <= c -> 0 <= e <= 1000 -> ndigits c <= PREC -> finalize false c e = Ok (Finite false c e).
Proof.
  intros Hc He Hn. unfold finalize, PREC, EMAX, ETINY, rounded_to_prec, PREC in *. pose proof (ndigits_pos c Hc). destruct (Z.eqb_spec c 0) as [->|Hne].
  - do 2 f_equal. lia.
  - rewrite (proj2 (Z.ltb_ge _ _)) by lia. rewrite (proj2 (Z.ltb_ge e _)) by lia. rewrite (proj2 (Z.ltb_ge 28 _)) by lia. by rewrite (proj2 (Z.ltb_ge 999999 _)) by lia.
Qed.
Lemma decimal_sum_exact l : Forall (fun n => 0 <= n) l -> foldr Z.add 0 l < 10 ^ PREC -> decimal_sum l = Ok (dec_int (foldr Z.add 0 l)).
Proof.
  unfold decimal_sum. assert (forall a, 0 <= a -> Forall (fun n => 0 <= n) l -> a + foldr Z.add 0 l < 10 ^ PREC ->
    foldM_res (fun acc n => decimal_plus acc (dec_int n)) (dec_int a) l = Ok (dec_int (a + foldr Z.add 0 l))) as Hg; [|intros; by apply (Hg 0)].
  induction l as [|n l IH]; intros a Ha Hl Hs; [cbn; by rewrite Z.add_0_r|]. apply Forall_cons in Hl as [Hn Hl]. cbn [foldr foldM_res] in *.
  assert (0 <= foldr Z.add 0 l) as Hr. { clear -Hl. induction Hl; cbn; lia. }
  assert (decimal_plus (dec_int a) (dec_int n) = Ok (dec_int (a + n))) as ->.
  { cbn [decimal_plus dec_int]. rewrite Z.min_id, Z.sub_diag, !Z.mul_1_r. apply finalize_small; [lia|lia|]. apply ndigits_le; unfold PREC in *; lia. }
  cbn [mbind res_bind].
  rewrite IH by (done || lia). by rewrite Z.add_assoc.
Qed.

(** Rounding does not exceed an integral bound. *)
Lemma div_half_even_le c m M : 0 < m -> c <= M * m -> div_half_even c m <= M.
Proof.
  intros Hm Hc. unfold div_half_even. pose proof (Z.div_mod c m ltac:(lia)). pose proof (Z.mod_pos_bound c m Hm).
  destruct (Z.eq_dec (c / m) M) as [He|].
  - assert (c mod m = 0) as -> by nia. rewrite Z.mul_0_r, (proj2 (Z.ltb_lt 0 m)) by lia. lia.
  - assert (c / m < M) by nia. repeat case_match; lia.
Qed.
Lemma div_half_even_nonneg c m : 0 <= c -> 0 < m -> 0 <= div_half_even c m.
Proof. intros Hc Hm. unfold div_half_even. pose proof (Z.div_pos c m Hc Hm). repeat case_match; lia. Qed.
Lemma pow10_split a b : 0 <= a -> 0 <= b -> 10 ^ (a + b) = 10 ^ a * 10 ^ b.
Proof. intros. by apply Z.pow_add_r. Qed.
(** At most 100, with [s] decimals *)
Definition at_most_hundred (c e : Z) : Prop := 0 <= c <= 100 * 10 ^ (- e) /\ -1000 <= e <= 0.
Lemma at_most_digits c e : at_most_hundred c e -> 1 <= ndigits c <= - e + 3.
Proof.
  intros [Hc He]. split; [apply ndigits_pos; lia|]. apply ndigits_le; [lia|lia|]. rewrite pow10_split by lia. pose proof (Z.pow_pos_nonneg 10 (- e)). lia.
Qed.
Lemma at_most_drop c e : at_most_hundred c e -> e < 0 -> at_most_hundred (c / 10) (e + 1).
Proof.
  intros [Hc He] Hlt. unfold at_most_hundred. replace (- e) with (- (e + 1) + 1) in Hc by lia. rewrite pow10_split in Hc by lia.
  split; [|lia]. split; [apply Z.div_pos; lia|]. apply Z.div_le_upper_bound; lia.
Qed.
Lemma rounded_hundred c e : at_most_hundred c e -> exists c' e', rounded_to_prec c e = (c', e') /\ at_most_hundred c' e'.
Proof.
  intros Hh. pose proof (at_most_digits c e Hh) as Hn. unfold rounded_to_prec. destruct (Z.ltb_spec PREC (ndigits c)) as [Hlt|]; [|by eexists _, _].
  unfold PREC in *. set (k := ndigits c - 28) in *.
  assert (at_most_hundred (shift_right c k) (e + k)) as Hr.
  { unfold shift_right. rewrite (proj2 (Z.ltb_ge _ _)) by lia. destruct Hh as [Hc He]. pose proof (Z.pow_pos_nonneg 10 k).
    split; [|lia]. split; [apply div_half_even_nonneg; lia|]. apply div_half_even_le; [lia|].
    replace (- e) with (- (e + k) + k) in Hc by lia. rewrite pow10_split in Hc by lia. lia. }
  destruct (28 <? ndigits _); [|by eexists _, _]. eexists _, _. split; [done|]. apply at_most_drop; [done|lia].
Qed.
Lemma finalize_hundred c e : at_most_hundred c e -> exists c' e', finalize false c e = Ok (Finite false c' e') /\ at_most_hundred c' e'.
Proof.
  intros Hh. pose proof (at_most_digits c e Hh) as Hn. unfold finalize, EMAX, ETINY. destruct (Z.eqb_spec c 0) as [->|Hne].
  { eexists _, _. split; [done|]. destruct Hh as [_ He]. unfold at_most_hundred. pose proof (Z.pow_nonneg 10 (- Z.max (-1000026) (Z.min 999999 e))). lia. }
  rewrite (proj2 (Z.ltb_ge 999999 _)) by lia. rewrite (proj2 (Z.ltb_ge e _)) by (unfold at_most_hundred in Hh; lia).
  destruct (rounded_hundred c e Hh) as (c' & e' & -> & Hh'). pose proof (at_most_digits c' e' Hh').
  rewrite (proj2 (Z.ltb_ge 999999 _)) by lia. by eexists _, _.
Qed.
Lemma strip_hundred fuel c e ideal : at_most_hundred c e -> ideal <= 0 -> at_most_hundred (strip_quotient fuel c e ideal).1 (strip_quotient fuel c e ideal).2.
Proof.
  revert c e. induction fuel as [|fuel IH]; intros c e Hh Hi; [done|]. cbn [strip_quotient]. destruct (_ && _) eqn:E; [|done].
  apply IH; [|done]. apply at_most_drop; [done|lia].
Qed.
Lemma hundredths_range c e : at_most_hundred c e -> exists h, hundredths (Finite false c e) = Ok h /\ 0 <= h <= 10000.
Proof.
  intros [Hc He]. unfold hundredths. set (k := -2 - e).
  set (h := if k <=? 0 then c * 10 ^ (- k) else c / 10 ^ k + (if 10 ^ k <=? 2 * (c mod 10 ^ k) then 1 else 0)).
  assert (0 <= h <= 10000) as Hh.
  { unfold h. destruct (Z.leb_spec k 0) as [Hk|Hk].
    - assert (10 ^ (- e) * 10 ^ (- k) = 100) as Hp by (rewrite <-pow10_split by lia; by replace (- e + - k) with 2 by lia).
      pose proof (Z.pow_nonneg 10 (- k) ltac:(lia)). nia.
    - replace (- e) with (2 + k) in Hc by lia. rewrite pow10_split in Hc by lia. pose proof (Z.pow_pos_nonneg 10 k ltac:(lia) ltac:(lia)).
      pose proof (Z.div_mod c (10 ^ k) ltac:(lia)). pose proof (Z.mod_pos_bound c (10 ^ k) ltac:(lia)). pose proof (Z.div_pos c (10 ^ k) ltac:(lia) ltac:(lia)).
      change (10 ^ 2) with 100 in Hc. set (q := c / 10 ^ k) in *. set (r := c mod 10 ^ k) in *. set (m := 10 ^ k) in *. clearbody q r m.
      destruct (Z.leb_spec m (2 * r)); nia. }
  exists h. split; [|done]. rewrite (proj2 (Z.leb_le _ _)); [done|]. apply ndigits_le; unfold PREC; lia.
Qed.
(** A part of a total is at most 100.00 percent. *)
Lemma rounded_percent_ok n d : 0 <= n <= d -> d < 10 ^ 26 -> exists h, rounded_percent (dec_int n) (dec_int d) = Ok (percent_float h) /\ 0 <= h <= 10000.
Proof.
  intros Hn Hd. unfold rounded_percent. cbn [is_zero dec_int]. destruct (Z.eqb_spec d 0) as [->|Hne].
  { exists 0. split; [by vm_compute|lia]. }
  assert (decimal_times (dec_int n) 100 = Ok (dec_int (n * 100))) as ->.
  { cbn [decimal_times dec_int]. apply finalize_small; [lia|lia|]. apply ndigits_le; unfold PREC; lia. }
  cbn [mbind res_bind decimal_div dec_int]. destruct (Z.eqb_spec (n * 100) 0) as [Hz|Hz].
  { exists 0. split; [by vm_compute|lia]. }
  set (shift := ndigits d - ndigits (n * 100) + PREC + 1). unfold PREC in *.
  assert (26 <= shift <= 1000) as Hs.
  { pose proof (ndigits_pos (n * 100) ltac:(lia)). pose proof (ndigits_pos d ltac:(lia)). assert (ndigits d <= 26) by (apply ndigits_le; lia).
    assert (ndigits (n * 100) <= ndigits d + 2); [|lia]. apply ndigits_le; [lia|lia|]. rewrite pow10_split by lia.
    pose proof (proj1 (ndigits_le d (ndigits d) ltac:(lia) ltac:(lia)) ltac:(lia)). lia. }
  rewrite (proj2 (Z.leb_le 0 shift)) by lia. pose proof (Z.pow_pos_nonneg 10 shift ltac:(lia) ltac:(lia)) as Hp.
  set (N := n * 100 * 10 ^ shift). pose proof (Z.div_mod N d ltac:(lia)) as Hdm. pose proof (Z.mod_pos_bound N d ltac:(lia)) as Hm.
  assert (N <= 100 * 10 ^ shift * d) as HN by nia. assert (0 <= N / d) as Hq0 by (apply Z.div_pos; lia).
  assert (forall c e, at_most_hundred c e -> exists h, (value ← finalize false c e; h ← hundredths value; Ok (percent_float h)) = Ok (percent_float h) /\ 0 <= h <= 10000) as Hfin.
  { intros c e Hh. destruct (finalize_hundred c e Hh) as (c' & e' & -> & Hh'). cbn [mbind res_bind]. destruct (hundredths_range c' e' Hh') as (h & -> & Hr). by exists h. }
  replace (0 - 0 - shift) with (- shift) by lia. destruct (Z.eqb_spec (N mod d) 0) as [Hr|Hr].
  - assert (at_most_hundred (N / d) (- shift)) as Hh. { split; [|lia]. rewrite Z.opp_involutive. split; [done|]. apply Z.div_le_upper_bound; [lia|]. by rewrite Z.mul_comm. }
    pose proof (strip_hundred (Z.to_nat shift) _ _ (0 - 0) Hh ltac:(lia)) as Hstrip. destruct (strip_quotient _ _ _ _) as [c e]. by apply Hfin.
  - apply Hfin. split; [|lia]. rewrite Z.opp_involutive. assert (N / d < 100 * 10 ^ shift) as Hlt.
    { apply Z.div_lt_upper_bound; [lia|]. rewrite Z.mul_comm. apply Z.le_neq. split; [done|]. intros He. apply Hr. rewrite He. apply Z.mod_mul. lia. }
   
    destruct (_ =? 0); lia.
Qed.
Example percent_half_up : map (fun nd => rounded_percent (dec_int nd.1) (dec_int nd.2)) [(1, 3); (2, 3); (1, 32); (0, 5); (5, 5); (7, 0)] =
  map (fun h => Ok (percent_float h)) [3333; 6667; 313; 0; 10000; 0].
Proof. vm_compute. reflexivity. Qed.
