(* ===== verification/Validators.v ===== *)
(** * api/database.py, api/app.py: validators and their signing history

    The queries behind /api/validators, /api/validators/{address} and
    /api/validators/signing-history over the tables of Database.v, one snapshot
    per statement, and the routes that make answers of their rows. *)
From Stdlib Require Import ZArith Lia Ascii String Sorted SpecFloat.
From stdpp Require Import base gmap sets list strings.
From S2P Require Import Prelude PyStr PyVal Codec InspectRpc Summary Participants Parsers RealmCatalog Database Finalized ValopersStore.
From S2P Require Import Decimal Percent Keyset ExplorerRows Schema Explorer.
Open Scope Z_scope.

(** [SELECT ... FROM blocks WHERE height <= h ORDER BY height DESC LIMIT n] *)
Definition recent_blocks (d : db) (height limit : Z) : list (Z * block_row) :=
  select fst (Some (height + 1)) (Z.to_nat limit) (map_to_list (blocks d)).
Definition missing_state : exc := RuntimeError "Default indexer state is missing".
Definition missing_block : exc := RuntimeError "Indexed block is missing".
(** The checkpoint of [indexer_state], whose block must exist *)
Definition checkpoint_height (d : db) : res Z :=
  match state d with
  | None => Raise missing_state
  | Some s => match blocks d !! st_last_finalized s with Some _ => Ok (st_last_finalized s) | None => Raise missing_block end
  end.
Definition proposer_priority (m : member_row) : option Z := let '(_, priority, _) := mr_columns m in priority.
(** The validator set of a height, [ORDER BY voting_power DESC, signing_address ASC] *)
Definition member_leb (a b : string * member_row) : bool :=
  (voting_power b.2 <? voting_power a.2) || ((voting_power a.2 =? voting_power b.2) && str_leb a.1 b.1).
Definition members_at (d : db) (height : Z) : list (string * member_row) :=
  sort_by member_leb (omap (fun a => pair a <$> members d !! (height, a)) (at_height height (members d))).
(** [LEFT JOIN valoper_profiles profile ON profile.signing_address = ...] *)
Definition profiles_of (profiles : list profile_row) (address : string) : list (option profile_row) :=
  match List.filter (fun r : profile_row => String.eqb (t_signing r.1.1) address) profiles with [] => [None] | l => map Some l end.

(** ** The active validators *)
Record uptime_counts := UptimeCounts { uc_active : Z; uc_signed : Z; uc_nil : Z; uc_absent : Z; uc_invalid : Z; uc_unknown : Z }.
Definition status_at (d : db) (address status : string) (h : Z) : bool :=
  match signatures d !! (h, address) with Some s => String.eqb (vote_status_of s) status | None => false end.
Definition signed_at (d : db) (address : string) (h : Z) : bool :=
  match signatures d !! (h, address) with Some s => signed_of s | None => false end.
(** [membership_by_validator], [signatures_by_validator] and the outer SELECT *)
Definition uptime_counts_of (d : db) (recent : list Z) (address : string) : uptime_counts :=
  let active := count_if (fun h => bool_decide (is_Some (members d !! (h, address)))) recent in
  let observed := count_if (fun h => bool_decide (is_Some (signatures d !! (h, address)))) recent in
  UptimeCounts active (count_if (signed_at d address) recent) (count_if (status_at d address "nil") recent)
    (count_if (status_at d address "absent") recent) (count_if (status_at d address "invalid") recent) (Z.max (active - observed) 0).
Record active_row := ActiveRow {
  ac_address : string;
  ac_member : member_row;
  ac_key_type : option string;
  ac_profile : option profile_row;
  ac_counts : uptime_counts
}.
Definition active_rows (s : snapshot) (height : Z) : list active_row :=
  let d := sn_db s in
  let recent := map fst (recent_blocks d height 1000) in
  flat_map (fun am => map (fun p => ActiveRow am.1 am.2 ((fun r => (vr_key r).1) <$> validators d !! am.1) p (uptime_counts_of d recent am.1))
                        (profiles_of (sn_profiles s) am.1)) (members_at d height).
(** height, network_blocks_1000 and the rows *)
Definition fetch_active_validators (conn : res (nat -> snapshot)) : res (Z * Z * list active_row) :=
  s ← conn;
  height ← checkpoint_height (sn_db (s 0%nat));
  let network_blocks := Z.of_nat (length (recent_blocks (sn_db (s 0%nat)) height 1000)) in
  Ok (height, network_blocks, active_rows (s 1%nat) height).

(** ** One validator *)
Definition STATUSES : list string := ["commit"; "nil"; "absent"; "invalid"; "not_active"; "unknown"].
(** A row of [VALIDATOR_HISTORY_SQL]: height, time_utc, whether the address is a
    member, and its signature if it is *)
Record history_row := HistoryRow { hr_height : Z; hr_time : val; hr_member : bool; hr_signature : option stored_signature }.
Definition history_row_of (d : db) (address : string) (hb : Z * block_row) : history_row :=
  let member := bool_decide (is_Some (members d !! (hb.1, address))) in
  HistoryRow hb.1 (br_time hb.2) member (if member then signatures d !! (hb.1, address) else None).
Definition history_rows (d : db) (address : string) (height limit : Z) : list history_row :=
  map (history_row_of d address) (reverse (recent_blocks d height limit)).
Record detail_rows := DetailRows {
  dr_identity : validator_row * option profile_row;
  dr_height : Z;
  dr_current : option member_row;
  dr_total : Z;
  dr_history : list history_row
}.
Definition total_power (d : db) (height : Z) : Z := foldr Z.add 0 (map (fun am => voting_power am.2) (members_at d height)).
Definition fetch_validator_detail (conn : res (nat -> snapshot)) (address : string) : res (option detail_rows) :=
  s ← conn;
  _ ← require (no_nul address) DataError;
  match validators (sn_db (s 0%nat)) !! address with
  | None => Ok None
  | Some v =>
      let d1 := sn_db (s 1%nat) in
      height ← checkpoint_height d1;
      Ok (Some (DetailRows (v, default None (head (profiles_of (sn_profiles (s 0%nat)) address))) height (members d1 !! (height, address)) (total_power d1 height)
                  (history_rows (sn_db (s 2%nat)) address height 1000)))
  end.

(** ** The history of the whole set *)
Record batch_rows := BatchRows { ba_height : Z; ba_addresses : list string; ba_blocks : list (Z * val); ba_items : list (string * history_row) }.
Definition fetch_validator_signing_history (conn : res (nat -> snapshot)) (limit : Z) : res batch_rows :=
  s ← conn;
  height ← checkpoint_height (sn_db (s 0%nat));
  Ok (BatchRows height (map fst (members_at (sn_db (s 0%nat)) height))
        (map (fun hb => (hb.1, br_time hb.2)) (reverse (recent_blocks (sn_db (s 1%nat)) height limit)))
        (flat_map (fun am => map (fun r => (am.1, r)) (history_rows (sn_db (s 2%nat)) am.1 height limit)) (members_at (sn_db (s 2%nat)) height))).

(** ** Answers *)
Definition history_status (row : history_row) : string :=
  if negb (hr_member row) then "not_active"
  else match hr_signature row with
       | None => "unknown"
       | Some s => if signed_of s then "commit" else if in_strs (vote_status_of s) ["nil"; "absent"; "invalid"] then vote_status_of s else "unknown"
       end.
(** [ValidatorUptime] *)
Record uptime := Uptime { up_network : Z; up_counts : uptime_counts; up_percent : float }.
Definition uptime_valid (u : uptime) : bool :=
  let c := up_counts u in
  (0 <=? up_network u) && (0 <=? uc_active c) && (0 <=? uc_signed c) && (0 <=? uc_nil c) && (0 <=? uc_absent c) && (0 <=? uc_invalid c) && (0 <=? uc_unknown c).
Definition profile_valid (p : option profile_row) : bool :=
  match p with
  | Some ((operator, moniker, description, server_type, signing, pubkey), height, position) => in_strs server_type ["cloud"; "on-prem"; "data-center"] && (1 <=? height)
  | None => true
  end.
Record validator_item := ValidatorItem { vi_address : string; vi_key_type : option string; vi_power : string; vi_percent : float;
  vi_priority : option string; vi_profile : option profile_row; vi_uptime : uptime }.
Record validators_response := ValidatorsResponse { vs_height : Z; vs_total : Z; vs_power : string; vs_items : list validator_item }.
Definition validator_item_of (network_blocks : Z) (total : decimal) (row : active_row) : res validator_item :=
  let c := ac_counts row in
  percent ← rounded_percent (dec_int (uc_signed c)) (dec_int (uc_active c));
  let up := Uptime network_blocks c percent in
  _ ← require (uptime_valid up) ValidationError;
  share ← rounded_percent (dec_int (voting_power (ac_member row))) total;
  _ ← require (profile_valid (ac_profile row)) ValidationError;
  Ok (ValidatorItem (ac_address row) (ac_key_type row) (str_of_Z (voting_power (ac_member row))) share (str_of_Z <$> proposer_priority (ac_member row)) (ac_profile row) up).
Definition validators_response_from_rows (result : Z * Z * list active_row) : res validators_response :=
  let '(height, network_blocks, rows) := result in
  total ← decimal_sum (map (fun r => voting_power (ac_member r)) rows);
  items ← mapM_res (validator_item_of network_blocks total) rows;
  Ok (ValidatorsResponse height (Z.of_nat (length items)) (decimal_str total) items).
Definition get_validators (conn : res (nat -> snapshot)) : res validators_response :=
  or_unavailable (rows ← fetch_active_validators conn; validators_response_from_rows rows).

Section routes.
Context `{Timestamps}.

(** height, time and status *)
Definition history_item (row : history_row) : Z * string * string := (hr_height row, isoformat_utc_z (instant (hr_time row)), history_status row).
Definition uptime_from_history (items : list (Z * string * string)) : res uptime :=
  let statuses := map snd items in
  let count status := count_if (String.eqb status) statuses in
  let active := count_if (fun s => negb (String.eqb s "not_active")) statuses in
  percent ← rounded_percent (dec_int (count "commit")) (dec_int active);
  Ok (Uptime (Z.of_nat (length items)) (UptimeCounts active (count "commit") (count "nil") (count "absent") (count "invalid") (count "unknown")) percent).
(** [ValidatorCurrentStatus], [ValidatorSigningHistory], [ValidatorDetailResponse] *)
Record current_status := CurrentStatus { cu_active : bool; cu_at : Z; cu_power : option string; cu_percent : float; cu_priority : option string }.
Record signing_history := SigningHistory { sh_network : Z; sh_start : option Z; sh_end : option Z; sh_items : list (Z * string * string) }.
Record validator_detail := ValidatorDetail { vd_address : string; vd_identity : validator_row; vd_profile : option profile_row;
  vd_current : current_status; vd_uptime : uptime; vd_history : signing_history }.
Definition last_n {A} (n : nat) (l : list A) : list A := drop (length l - n) l.
Definition least (l : list Z) : option Z := match l with [] => None | x :: l => Some (foldr Z.min x l) end.
Definition greatest (l : list Z) : option Z := match l with [] => None | x :: l => Some (foldr Z.max x l) end.
Definition validator_detail_from_rows (address : string) (r : detail_rows) : res validator_detail :=
  let all_history_items := map history_item (dr_history r) in
  let visible_history_items := last_n 100 all_history_items in
  let heights := map (fun i => i.1.1) visible_history_items in
  share ← match dr_current r with Some m => rounded_percent (dec_int (voting_power m)) (dec_int (dr_total r)) | None => Ok (f_of_Z 0) end;
  _ ← require (0 <=? dr_height r) ValidationError;
  up ← uptime_from_history all_history_items;
  _ ← require (uptime_valid up && forallb (fun i => 0 <=? i.1.1) visible_history_items) ValidationError;
  let '(v, profile) := dr_identity r in
  _ ← require ((0 <=? vr_first_seen v) && (0 <=? vr_last_seen v) && profile_valid profile) ValidationError;
  Ok (ValidatorDetail address v profile
        (CurrentStatus (bool_decide (is_Some (dr_current r))) (dr_height r) ((fun m => str_of_Z (voting_power m)) <$> dr_current r) share
           (m ← dr_current r; str_of_Z <$> proposer_priority m))
        up (SigningHistory (Z.of_nat (length visible_history_items)) (least heights) (greatest heights) visible_history_items)).
Definition get_validator_detail (conn : res (nat -> snapshot)) (address : string) : res validator_detail :=
  _ ← require ((1 <=? py_len address) && (py_len address <=? 128)) unprocessable;
  or_unavailable
    (result ← fetch_validator_detail conn address;
     match result with None => Raise (HTTPException 404 "Validator not found") | Some rows => validator_detail_from_rows address rows end).

(** *** The batch: the two axes must match *)
Record batch_response := BatchResponse { br_height : Z; br_network : Z; br_start : option Z; br_end : option Z; br_blocks : list (Z * string);
  br_items : list (string * list string) }.
Definition strictly_ascending (l : list Z) : bool := bool_decide (sort_by Z.leb l = l) && Nat.eqb (length l) (length (dedup l)).
Definition rows_for (items : list (string * history_row)) (address : string) : list history_row :=
  map snd (List.filter (fun r => String.eqb r.1 address) items).
Definition batch_item (r : batch_rows) (block_heights : list Z) (address : string) : res (string * list string) :=
  let rows := rows_for (ba_items r) address in
  _ ← require (bool_decide (map hr_height rows = block_heights)) (ValueError "Signing history matrix is not aligned");
  Ok (address, map history_status rows).
Definition batch_from_rows (r : batch_rows) : res batch_response :=
  let block_heights := map fst (ba_blocks r) in
  _ ← require (strictly_ascending block_heights) (ValueError "Signing history block axis is invalid");
  _ ← require (Nat.eqb (length (ba_addresses r)) (length (dedup (ba_addresses r)))) (ValueError "Signing history validator axis contains duplicates");
  _ ← require (forallb (fun i => bool_decide (i.1 ∈ ba_addresses r)) (ba_items r)) (ValueError "Signing history matrix contains an unexpected validator");
  items ← mapM_res (batch_item r block_heights) (ba_addresses r);
  _ ← require ((0 <=? ba_height r) && forallb (Z.leb 0) block_heights) ValidationError;
  Ok (BatchResponse (ba_height r) (Z.of_nat (length (ba_blocks r))) (head block_heights) (last block_heights)
        (map (fun b => (b.1, isoformat_utc_z (instant b.2))) (ba_blocks r)) items).
Definition get_validator_signing_history (conn : res (nat -> snapshot)) (limit : Z) : res batch_response :=
  _ ← require (limit_ok limit) unprocessable;
  or_unavailable (rows ← fetch_validator_signing_history conn limit; batch_from_rows rows).
End routes.
