(* ===== verification/ValidatorsSafety.v ===== *)
(** * What the validator routes guarantee

    The two computations of a validator's uptime agree, the counts are complete,
    and the axes of the history matrix match although its parts are read by
    statements that see different states. *)
From Stdlib Require Import ZArith Lia Ascii String Sorted SpecFloat.
From stdpp Require Import base gmap sets list strings relations sorting.
From S2P Require Import Prelude PyStr PyVal Codec InspectRpc Summary Participants Parsers RealmCatalog Database Finalized ValopersStore.
From S2P Require Import Decimal Percent Keyset ExplorerRows Schema Explorer ExplorerSafety Validators.
Open Scope Z_scope.

(** ** Counting *)
Lemma count_if_map {A B} (p : B -> bool) (f : A -> B) l : count_if p (map f l) = count_if (fun a => p (f a)) l.
Proof. unfold count_if. f_equal. induction l as [|a l IH]; [done|]. cbn. destruct (p (f a)); cbn; by rewrite IH. Qed.
Lemma count_if_ext {A} (p q : A -> bool) l : (forall a, a ∈ l -> p a = q a) -> count_if p l = count_if q l.
Proof.
  intros Hp. unfold count_if. f_equal. induction l as [|a l IH]; [done|]. cbn. rewrite <-(Hp a ltac:(left)).
  assert (length (List.filter p l) = length (List.filter q l)) as He by (apply IH; intros b Hb; apply Hp; by right).
  destruct (p a); cbn; by rewrite He.
Qed.
Lemma count_if_cons {A} (p : A -> bool) a l : count_if p (a :: l) = (if p a then 1 else 0) + count_if p l.
Proof. unfold count_if. cbn. destruct (p a); cbn [length]; lia. Qed.
Lemma count_if_range {A} (p : A -> bool) l : 0 <= count_if p l <= Z.of_nat (length l).
Proof. unfold count_if. pose proof (List.filter_length_le p l). lia. Qed.

(** ** Recent blocks and the validator set *)
Lemma elem_of_recent d h n hb : hb ∈ recent_blocks d h n -> blocks d !! hb.1 = Some hb.2 /\ hb.1 <= h.
Proof.
  unfold recent_blocks, select. intros Hin%elem_of_take_in. apply elem_of_selected in Hin as [Hin Hb]. destruct hb as [k b].
  apply elem_of_map_to_list in Hin. cbn in Hb |- *. split; [done|lia].
Qed.
Lemma recent_length d h n : 0 <= n -> Z.of_nat (length (recent_blocks d h n)) <= n.
Proof. intros Hn. unfold recent_blocks, select. rewrite length_take. lia. Qed.
Lemma members_at_perm d h : members_at d h ≡ₚ omap (fun a => pair a <$> members d !! (h, a)) (at_height h (members d)).
Proof. apply sort_by_perm. Qed.
Lemma elem_of_members_at d h am : am ∈ members_at d h <-> members d !! (h, am.1) = Some am.2.
Proof.
  rewrite members_at_perm, list_elem_of_omap. destruct am as [a m]. cbn. split.
  - intros (b & _ & (x & Hx & [= -> ->])%fmap_Some). done.
  - intros Ha. exists a. rewrite elem_of_at_height, Ha. split; [by exists m|done].
Qed.
Lemma members_at_unique d h : NoDup (map fst (members_at d h)).
Proof.
  assert (map fst (members_at d h) ≡ₚ at_height h (members d)) as ->; [|apply at_height_NoDup].
  rewrite members_at_perm. assert (forall l, (forall a, a ∈ l -> is_Some (members d !! (h, a))) ->
    map fst (omap (fun a => pair a <$> members d !! (h, a)) l) = l) as Hl.
  { induction l as [|a l IH]; [done|]. intros Hs. destruct (Hs a ltac:(left)) as [m Hm]. cbn. rewrite Hm. cbn. f_equal. apply IH. intros b Hb. apply Hs. by right. }
  rewrite Hl; [done|]. intros a. by rewrite elem_of_at_height.
Qed.
Lemma checkpoint_ok `{PyRuntime} `{PL : PostgresLaws} chain d st : reachable chain d -> state d = Some st ->
  checkpoint_height d = Ok (st_last_finalized st) /\ 1 <= st_last_finalized st.
Proof.
  intros Hr Hs. unfold checkpoint_height. pose proof (ix_state _ _ (reachable_indexed _ _ Hr)) as Hi. rewrite Hs in Hi |- *.
  destruct Hi as (_ & first & Hf & Hb & _). destruct (Hb (st_last_finalized st) ltac:(lia)) as [b ->]. split; [done|lia].
Qed.

(** ** Uptime *)
Section uptime.
Context `{PyRuntime} `{Timestamps} `{PL : PostgresLaws} `{!EnforcesSchema} (chain : string) (d : db) (a : string).
Hypothesis indexed : reachable chain d.

(** What the history shows of one block is what the aggregates count. *)
Lemma status_cases hb : let s := history_status (history_row_of d a hb) in
  let m := bool_decide (is_Some (members d !! (hb.1, a))) in let o := bool_decide (is_Some (signatures d !! (hb.1, a))) in
  String.eqb "commit" s = signed_at d a hb.1 /\ String.eqb "nil" s = status_at d a "nil" hb.1 /\ String.eqb "absent" s = status_at d a "absent" hb.1 /\
  String.eqb "invalid" s = status_at d a "invalid" hb.1 /\ String.eqb "unknown" s = m && negb o /\ negb (String.eqb s "not_active") = m /\ (o = true -> m = true) /\
  (if m then 1 else 0) = (if signed_at d a hb.1 then 1 else 0) + (if status_at d a "nil" hb.1 then 1 else 0) + (if status_at d a "absent" hb.1 then 1 else 0) +
    (if status_at d a "invalid" hb.1 then 1 else 0) + (if m && negb o then 1 else 0).
Proof.
  cbn zeta. unfold history_status, history_row_of, signed_at, status_at. cbn [hr_member hr_signature].
  destruct (signatures d !! (hb.1, a)) as [v|] eqn:Ev.
  - destruct (ix_signatures _ _ (reachable_indexed _ _ indexed) _ (ex_intro _ v Ev)) as [m Hm]. rewrite Hm.
    rewrite !bool_decide_eq_true_2 by eauto. cbn [negb andb].
    pose proof (sc_signatures _ (reachable_checked _ _ indexed) _ _ Ev) as Hc. unfold signature_checks in Hc.
    apply andb_true_iff in Hc as [Hc H4]. apply andb_true_iff in Hc as [Hc H3]. apply andb_true_iff in Hc as [K1 K2%eqb_prop]. apply in_strs_spec in K1.
    repeat (apply elem_of_cons in K1 as [K1|K1]); [..|by apply elem_of_nil in K1]; rewrite K1 in *; cbn in *; rewrite K2; try done. by rewrite H3.
  - rewrite (bool_decide_eq_false_2 (is_Some None)) by (by intros [? ?]). destruct (members d !! (hb.1, a)) as [m|].
    + by rewrite bool_decide_eq_true_2 by eauto.
    + by rewrite bool_decide_eq_false_2 by (by intros [? ?]).
Qed.
Definition shown_statuses (recent : list (Z * block_row)) : list string := map (fun hb => history_status (history_row_of d a hb)) recent.
Lemma members_split recent : count_if (fun hb : Z * block_row => bool_decide (is_Some (members d !! (hb.1, a)))) recent =
  count_if (fun hb : Z * block_row => bool_decide (is_Some (signatures d !! (hb.1, a)))) recent +
  count_if (fun hb : Z * block_row => bool_decide (is_Some (members d !! (hb.1, a))) && negb (bool_decide (is_Some (signatures d !! (hb.1, a))))) recent.
Proof.
  induction recent as [|hb recent IH]; [done|]. rewrite !count_if_cons, IH. destruct (status_cases hb) as (_ & _ & _ & _ & _ & _ & Ho & _).
  destruct (bool_decide (is_Some (signatures d !! (hb.1, a)))); [rewrite Ho by done|destruct (bool_decide _)]; cbn [andb negb]; lia.
Qed.
Lemma counts_agree (recent : list (Z * block_row)) : let count st := count_if (String.eqb st) (shown_statuses recent) in
  uptime_counts_of d (map fst recent) a =
  UptimeCounts (count_if (fun s => negb (String.eqb s "not_active")) (shown_statuses recent)) (count "commit") (count "nil") (count "absent") (count "invalid") (count "unknown").
Proof.
  cbn zeta. unfold uptime_counts_of, shown_statuses. rewrite !count_if_map. f_equal.
  - apply count_if_ext. intros hb _. symmetry. apply status_cases.
  - apply count_if_ext. intros hb _. symmetry. apply status_cases.
  - apply count_if_ext. intros hb _. symmetry. apply status_cases.
  - apply count_if_ext. intros hb _. symmetry. apply status_cases.
  - apply count_if_ext. intros hb _. symmetry. apply status_cases.
  - rewrite (count_if_ext (fun hb : Z * block_row => String.eqb "unknown" (history_status (history_row_of d a hb)))
      (fun hb : Z * block_row => bool_decide (is_Some (members d !! (hb.1, a))) && negb (bool_decide (is_Some (signatures d !! (hb.1, a)))))).
    2: { intros hb _. apply status_cases. }
    rewrite (members_split recent). pose proof (count_if_range (fun hb : Z * block_row => bool_decide (is_Some (members d !! (hb.1, a))) && negb (bool_decide (is_Some (signatures d !! (hb.1, a))))) recent). lia.
Qed.
Lemma active_split (recent : list (Z * block_row)) : let count st := count_if (fun hb => String.eqb st (history_status (history_row_of d a hb))) recent in
  count_if (fun hb => negb (String.eqb (history_status (history_row_of d a hb)) "not_active")) recent =
  count "commit" + count "nil" + count "absent" + count "invalid" + count "unknown".
Proof.
  cbn zeta. induction recent as [|hb recent IH]; [done|]. rewrite !count_if_cons, IH.
  destruct (status_cases hb) as (-> & -> & -> & -> & -> & -> & _ & Hs). lia.
Qed.
Lemma counts_complete (recent : list (Z * block_row)) : let c := uptime_counts_of d (map fst recent) a in
  uc_active c = uc_signed c + uc_nil c + uc_absent c + uc_invalid c + uc_unknown c /\ uc_active c <= Z.of_nat (length recent) /\
  0 <= uc_signed c <= uc_active c /\ forall n, 0 <= n -> forall p, uptime_valid (Uptime n c p) = true.
Proof.
  cbn zeta. rewrite counts_agree. cbn [uc_active uc_signed uc_nil uc_absent uc_invalid uc_unknown]. unfold shown_statuses. rewrite !count_if_map.
  pose proof (active_split recent) as Hsum. cbn zeta beta in Hsum.
  pose proof (count_if_range (fun hb : Z * block_row => negb (String.eqb (history_status (history_row_of d a hb)) "not_active")) recent) as R1.
  pose proof (count_if_range (fun hb : Z * block_row => String.eqb "commit" (history_status (history_row_of d a hb))) recent) as R2.
  pose proof (count_if_range (fun hb : Z * block_row => String.eqb "nil" (history_status (history_row_of d a hb))) recent) as R3.
  pose proof (count_if_range (fun hb : Z * block_row => String.eqb "absent" (history_status (history_row_of d a hb))) recent) as R4.
  pose proof (count_if_range (fun hb : Z * block_row => String.eqb "invalid" (history_status (history_row_of d a hb))) recent) as R5.
  pose proof (count_if_range (fun hb : Z * block_row => String.eqb "unknown" (history_status (history_row_of d a hb))) recent) as R6.
  split_and!; try lia. intros n Hn p. unfold uptime_valid.
  cbn [up_network up_counts uc_active uc_signed uc_nil uc_absent uc_invalid uc_unknown]. rewrite !andb_true_iff. repeat split; apply Z.leb_le; lia.
Qed.
End uptime.

(** ** The list and the detail of a validator agree *)
Lemma profiles_single (profiles : list profile_row) a : NoDup (map (fun r => t_signing r.1.1) profiles) ->
  exists p, profiles_of profiles a = [p] /\ (forall r, p = Some r -> r ∈ profiles).
Proof.
  unfold profiles_of. intros Hn. destruct (List.filter _ profiles) as [|r l] eqn:Ef; [by exists None|].
  assert (forall x, x ∈ r :: l -> x ∈ profiles /\ t_signing x.1.1 = a) as Hin.
  { intros x. rewrite <-Ef, list_elem_of_In, filter_In, <-list_elem_of_In. intros [Hx ->%String.eqb_eq]. done. }
  assert (NoDup (map (fun r => t_signing r.1.1) (r :: l))) as Hl.
  { rewrite <-Ef. clear -Hn. induction profiles as [|x l IH]; [constructor|]. cbn in Hn |- *. apply NoDup_cons in Hn as [Hx Hn].
    destruct (String.eqb _ _); [|by apply IH]. cbn. constructor; [|by apply IH].
    intros (y & Hy & Hyl%list_elem_of_In%filter_In)%list_elem_of_fmap. apply Hx. rewrite Hy. apply (list_elem_of_fmap_2 (fun r : profile_row => t_signing r.1.1)). apply list_elem_of_In. by destruct Hyl. }
  destruct l as [|r' l]; [exists (Some r); split; [done|]; intros x [= <-]; apply Hin; left|].
  exfalso. cbn in Hl. apply NoDup_cons in Hl as [Hl _]. apply Hl. rewrite (proj2 (Hin r ltac:(left))), (proj2 (Hin r' ltac:(right; left))). left.
Qed.
Lemma profile_checked_valid `{PyRuntime} r : profile_checks r = true -> profile_valid (Some r) = true.
Proof.
  unfold profile_checks, profile_valid. destruct r as [[[[[[[op mo] de] se] si] pu] h] pos]. intros Hc.
  do 4 apply andb_true_iff in Hc as [Hc _]. apply andb_true_iff in Hc as [Hc Hs]. do 3 apply andb_true_iff in Hc as [Hc _]. rewrite Hc, andb_true_r. exact Hs.
Qed.

Section agree.
Context `{PyRuntime} `{Timestamps} `{PL : PostgresLaws} `{!EnforcesSchema} (chain : string) (s : snapshot) (st : state_row).
#[local] Abbreviation d := (sn_db s).
#[local] Abbreviation h := (st_last_finalized st).
Hypothesis indexed : reachable chain d.
Hypothesis has_state : state d = Some st.
Hypothesis profiles_ok : Forall (fun r => profile_checks r = true) (sn_profiles s).
Hypothesis profiles_unique : NoDup (map (fun r => t_signing r.1.1) (sn_profiles s)).
Hypothesis power_bound : total_power d h < 10 ^ 26.

Definition profile_at (a : string) : option profile_row := default None (head (profiles_of (sn_profiles s) a)).
Lemma profiles_at a : profiles_of (sn_profiles s) a = [profile_at a] /\ profile_valid (profile_at a) = true.
Proof.
  unfold profile_at. destruct (profiles_single (sn_profiles s) a profiles_unique) as (p & -> & Hp). cbn. split; [done|].
  destruct p as [r|]; [|done]. apply profile_checked_valid. rewrite Forall_forall in profiles_ok. apply profiles_ok. by apply Hp.
Qed.
Definition network_blocks : Z := Z.of_nat (length (recent_blocks d h 1000)).
Definition counts_at (a : string) : uptime_counts := uptime_counts_of d (map fst (recent_blocks d h 1000)) a.
Definition row_at (am : string * member_row) : active_row :=
  ActiveRow am.1 am.2 ((fun r => (vr_key r).1) <$> validators d !! am.1) (profile_at am.1) (counts_at am.1).
Lemma active_rows_eq : active_rows s h = map row_at (members_at d h).
Proof.
  unfold active_rows. induction (members_at d h) as [|am l IH]; [done|]. cbn [flat_map map]. rewrite IH.
  destruct (profiles_at am.1) as [-> _]. done.
Qed.
Lemma powers_nonneg : Forall (fun n => 0 <= n) (map (fun am => voting_power am.2) (members_at d h)).
Proof.
  apply Forall_map, Forall_forall. intros am Ham%elem_of_members_at. exact (sc_members _ (reachable_checked _ _ indexed) _ _ Ham).
Qed.
Lemma power_part am : am ∈ members_at d h -> 0 <= voting_power am.2 <= total_power d h.
Proof.
  unfold total_power. pose proof powers_nonneg as Hp. induction (members_at d h) as [|x l IH]; [by intros ?%elem_of_nil|].
  cbn [map foldr] in *. apply Forall_cons in Hp as [Hx Hp]. intros [->|Ha]%elem_of_cons; [|specialize (IH Hp Ha); lia].
  assert (0 <= foldr Z.add 0 (map (fun am => voting_power am.2) l)); [|lia]. clear -Hp. induction Hp; cbn; lia.
Qed.
(** What the list shows of a member *)
Lemma item_at am : am ∈ members_at d h -> exists up share,
  rounded_percent (dec_int (uc_signed (counts_at am.1))) (dec_int (uc_active (counts_at am.1))) = Ok up /\
  rounded_percent (dec_int (voting_power am.2)) (dec_int (total_power d h)) = Ok share /\
  validator_item_of network_blocks (dec_int (total_power d h)) (row_at am) =
    Ok (ValidatorItem am.1 ((fun r => (vr_key r).1) <$> validators d !! am.1) (str_of_Z (voting_power am.2)) share (str_of_Z <$> proposer_priority am.2) (profile_at am.1)
          (Uptime network_blocks (counts_at am.1) up)).
Proof.
  intros Ham. destruct (counts_complete chain d am.1 indexed (recent_blocks d h 1000)) as (Hsum & Hlen & Hs & Hv). fold (counts_at am.1) in Hsum, Hlen, Hs, Hv.
  pose proof (recent_length d h 1000 ltac:(lia)) as Hr.
  destruct (rounded_percent_ok (uc_signed (counts_at am.1)) (uc_active (counts_at am.1))) as (p1 & E1 & _); [lia|lia|].
  destruct (rounded_percent_ok (voting_power am.2) (total_power d h)) as (p2 & E2 & _); [by apply power_part|done|].
  eexists _, _. split; [exact E1|]. split; [exact E2|]. unfold validator_item_of, row_at. cbn [ac_counts ac_member ac_profile ac_address ac_key_type].
  rewrite E1. cbn [mbind res_bind]. rewrite Hv by (unfold network_blocks; lia). cbn [require mbind res_bind]. rewrite E2. cbn [mbind res_bind].
  destruct (profiles_at am.1) as [_ ->]. done.
Qed.
(** The history counts what the aggregates count. *)
Lemma history_uptime a up : rounded_percent (dec_int (uc_signed (counts_at a))) (dec_int (uc_active (counts_at a))) = Ok up ->
  uptime_from_history (map history_item (history_rows d a h 1000)) = Ok (Uptime network_blocks (counts_at a) up).
Proof.
  intros Hup. unfold uptime_from_history. rewrite map_map. cbn [history_item snd].
  assert (map (fun r => (history_item r).2) (history_rows d a h 1000) ≡ₚ shown_statuses d a (recent_blocks d h 1000)) as Hp.
  { unfold history_rows, shown_statuses. rewrite map_map. cbn. by rewrite reverse_Permutation. }
  assert (forall p, count_if p (map (fun r => (history_item r).2) (history_rows d a h 1000)) = count_if p (shown_statuses d a (recent_blocks d h 1000))) as Hc.
  { intros p. by apply count_if_perm. }
  cbn [history_item snd] in Hc. rewrite !Hc. pose proof (counts_agree chain d a indexed (recent_blocks d h 1000)) as Ha. cbn zeta in Ha. fold (counts_at a) in Ha. rewrite <-Ha.
  rewrite Ha in Hup. cbn [uc_signed uc_active] in Hup. rewrite Hup. cbn [mbind res_bind]. do 2 f_equal. unfold network_blocks, history_rows. by rewrite !length_map, length_reverse.
Qed.
Lemma history_heights a n : forallb (fun i : Z * string * string => 0 <=? i.1.1) (last_n n (map history_item (history_rows d a h 1000))) = true.
Proof.
  apply forallb_forall. intros i Hi. assert (In i (map history_item (history_rows d a h 1000))) as Hin.
  { apply list_elem_of_In. apply list_elem_of_In in Hi. unfold last_n in Hi. rewrite <-(take_drop (length (map history_item (history_rows d a h 1000)) - n)), elem_of_app. by right. }
  apply in_map_iff in Hin as (r & <- & (hb & <- & Hb)%in_map_iff). cbn. apply list_elem_of_In, elem_of_reverse, elem_of_recent in Hb as [Hb _].
  pose proof (height_range _ _ _ _ indexed Hb). lia.
Qed.
(** What the page of a member shows *)
Lemma detail_at am up share : am ∈ members_at d h -> no_nul am.1 = true -> 1 <= py_len am.1 <= 128 ->
  rounded_percent (dec_int (uc_signed (counts_at am.1))) (dec_int (uc_active (counts_at am.1))) = Ok up ->
  rounded_percent (dec_int (voting_power am.2)) (dec_int (total_power d h)) = Ok share ->
  exists v, get_validator_detail (Ok (fun _ => s)) am.1 = Ok v /\ vd_uptime v = Uptime network_blocks (counts_at am.1) up /\ vd_profile v = profile_at am.1 /\
    vd_current v = CurrentStatus true h (Some (str_of_Z (voting_power am.2))) share (str_of_Z <$> proposer_priority am.2).
Proof.
  intros Ham Hnul Hlen Hup Hshare. pose proof Ham as Hm%elem_of_members_at. destruct (ix_members _ _ (reachable_indexed _ _ indexed) _ (ex_intro _ _ Hm)) as [_ [v Hv]].
  cbn in Hv. unfold get_validator_detail. assert ((1 <=? py_len am.1) && (py_len am.1 <=? 128) = true) as -> by lia. cbn [require mbind res_bind].
  unfold fetch_validator_detail. cbn [mbind res_bind]. rewrite Hnul. cbn [require mbind res_bind]. rewrite Hv.
  destruct (checkpoint_ok chain d st indexed has_state) as [-> Hpos]. cbn [mbind res_bind]. rewrite Hm. unfold validator_detail_from_rows.
  cbn [dr_current dr_total dr_height dr_history dr_identity]. rewrite Hshare. cbn [mbind res_bind]. rewrite (proj2 (Z.leb_le 0 h)) by lia. cbn [require mbind res_bind].
  destruct (counts_complete chain d am.1 indexed (recent_blocks d h 1000)) as (_ & _ & _ & Hval). fold (counts_at am.1) in Hval.
  rewrite (history_uptime am.1 up Hup). cbn [mbind res_bind]. rewrite Hval by (unfold network_blocks; lia). rewrite history_heights. cbn [andb require mbind res_bind].
  pose proof (sc_validators _ (reachable_checked _ _ indexed) _ _ Hv) as Hc. unfold validator_checks in Hc. fold (profile_at am.1).
  destruct (profiles_at am.1) as [_ ->]. rewrite (proj2 (Z.leb_le 0 (vr_first_seen v))), (proj2 (Z.leb_le 0 (vr_last_seen v))) by lia. cbn [andb require mbind res_bind].
  eexists. split; [done|]. by rewrite bool_decide_eq_true_2.
Qed.
End agree.

(** C26. The list of validators shows exactly the set of the checkpoint, and for
    each of them its own page shows the same uptime, power, share, priority and
    profile, although the list counts in SQL and the page in Python; the counts of
    an uptime add up to its active blocks, at most 1000 of the network's. *)
Theorem validators_agree `{PyRuntime} `{Timestamps} `{PL : PostgresLaws} `{!EnforcesSchema} chain s st :
  reachable chain (sn_db s) -> state (sn_db s) = Some st -> Forall (fun r => profile_checks r = true) (sn_profiles s) ->
  NoDup (map (fun r => t_signing r.1.1) (sn_profiles s)) -> total_power (sn_db s) (st_last_finalized st) < 10 ^ 26 ->
  exists r, get_validators (Ok (fun _ => s)) = Ok r /\ vs_height r = st_last_finalized st /\
    map vi_address (vs_items r) = map fst (members_at (sn_db s) (st_last_finalized st)) /\
    Forall (fun i => let u := vi_uptime i in let c := up_counts u in
      uc_active c = uc_signed c + uc_nil c + uc_absent c + uc_invalid c + uc_unknown c /\ uc_active c <= up_network u <= 1000 /\
      (no_nul (vi_address i) = true -> 1 <= py_len (vi_address i) <= 128 ->
       exists v, get_validator_detail (Ok (fun _ => s)) (vi_address i) = Ok v /\ vd_uptime v = u /\ vd_profile v = vi_profile i /\
         vd_current v = CurrentStatus true (st_last_finalized st) (Some (vi_power i)) (vi_percent i) (vi_priority i))) (vs_items r).
Proof.
  intros Hr Hst Hp Hu Hb. set (members := members_at (sn_db s) (st_last_finalized st)).
  destruct (mapM_res_all (validator_item_of (network_blocks s st) (dec_int (total_power (sn_db s) (st_last_finalized st))))
    (fun row i => exists am, am ∈ members /\ row = row_at s st am /\ vi_address i = am.1 /\ up_network (vi_uptime i) = network_blocks s st /\
       up_counts (vi_uptime i) = counts_at s st am.1 /\ (no_nul am.1 = true -> 1 <= py_len am.1 <= 128 ->
       exists v, get_validator_detail (Ok (fun _ => s)) am.1 = Ok v /\ vd_uptime v = vi_uptime i /\ vd_profile v = vi_profile i /\
         vd_current v = CurrentStatus true (st_last_finalized st) (Some (vi_power i)) (vi_percent i) (vi_priority i)))
    (map (row_at s st) members)) as (items & Hitems & Hall).
  - intros row (am & -> & Ham)%list_elem_of_fmap. destruct (item_at chain s st Hr Hp Hu Hb am Ham) as (up & share & E1 & E2 & E3).
    eexists. split; [exact E3|]. exists am. cbn [vi_address vi_uptime up_network up_counts vi_profile vi_power vi_percent vi_priority]. split_and!; try done. intros Hn Hl.
    destruct (detail_at chain s st Hr Hst Hp Hu am up share Ham Hn Hl E1 E2) as (v & Hv & V1 & V2 & V3). by exists v.
  - eexists. split.
    { unfold get_validators, fetch_active_validators. destruct (checkpoint_ok chain (sn_db s) st Hr Hst) as [Hcp _]. cbn [mbind res_bind]. rewrite Hcp. cbn [mbind res_bind].
      fold (network_blocks s st). unfold validators_response_from_rows. rewrite (active_rows_eq s st Hp Hu). fold members. rewrite map_map. cbn [row_at ac_member].
      rewrite decimal_sum_exact; [|exact (powers_nonneg chain s st Hr)|].
      2: { unfold PREC. unfold total_power in Hb. fold members in Hb. change (10 ^ 28) with (100 * 10 ^ 26). lia. }
      cbn [mbind res_bind]. fold (total_power (sn_db s) (st_last_finalized st)). change (foldr Z.add 0 (map (fun x => voting_power x.2) members)) with (total_power (sn_db s) (st_last_finalized st)).
      rewrite Hitems. done. }
    cbn [vs_height vs_items]. split_and!; [done| |].
    + assert (Forall2 (fun row i => ac_address row = vi_address i) (map (row_at s st) members) items) as Hadr.
      { eapply Forall2_impl; [exact Hall|]. cbn. intros row i (am & _ & -> & -> & _). done. }
      transitivity (map ac_address (map (row_at s st) members)); [|by rewrite map_map].
      clear -Hadr. induction Hadr as [|row i l k Hri _ IH]; [done|]. cbn. by rewrite Hri, IH.
    + clear Hitems. apply Forall_forall. intros i Hi. apply list_elem_of_lookup in Hi as [n Hn]. destruct (Forall2_lookup_r _ _ _ _ _ Hall Hn) as (row & _ & am & Ham & _ & Ha & Hnet & Hc & Hdet).
      rewrite Hc, Hnet, Ha. destruct (counts_complete chain (sn_db s) am.1 Hr (recent_blocks (sn_db s) (st_last_finalized st) 1000)) as (Hsum & Hlen & _ & _).
      split_and!; [exact Hsum|exact Hlen|apply recent_length; lia|exact Hdet].
Qed.

(** ** The history matrix *)
Lemma recent_sorted d h n : StronglySorted (fun a b => key_ltb b a = true) (map fst (recent_blocks d h n)).
Proof.
  unfold recent_blocks, select. pose proof (selected_sorted fst (Some (h + 1)) (map_to_list (blocks d)) (NoDup_fst_map_to_list (blocks d))) as Hs.
  rewrite <-(take_drop (Z.to_nat n) (selected _ _ _)), fmap_app in Hs. induction (take (Z.to_nat n) _) as [|x l IH]; [constructor|]. rewrite fmap_cons in Hs. cbn in Hs |- *.
  apply StronglySorted_inv in Hs as [Hs Hx]. constructor; [by apply IH|]. by apply Forall_app in Hx as [Hx _].
Qed.
Lemma descending_unique (l : list Z) : StronglySorted (fun a b => key_ltb b a = true) l -> NoDup l.
Proof.
  induction 1 as [|x l _ IH Hx]; constructor; [|done]. intros Hin. rewrite Forall_forall in Hx. specialize (Hx x Hin). by rewrite key_irrefl in Hx.
Qed.
(** Blocks above the height do not matter. *)
Lemma recent_same d d' h n : (forall k, k <= h -> blocks d' !! k = blocks d !! k) -> recent_blocks d' h n = recent_blocks d h n.
Proof.
  intros Hb. unfold recent_blocks, select. f_equal. apply (keys_sorted_unique fst).
  - apply selected_sorted, NoDup_fst_map_to_list.
  - apply selected_sorted, NoDup_fst_map_to_list.
  - apply NoDup_Permutation; [apply (NoDup_fmap_1 fst), descending_unique, selected_sorted, NoDup_fst_map_to_list..|].
    intros [k b]. rewrite !elem_of_selected, !elem_of_map_to_list. cbn [below fst key_ltb Z_order]. split; intros [Hk Hlt]; (split; [|done]).
    + rewrite <-Hb; [done|]. cbn in Hlt. lia.
    + rewrite Hb; [done|]. cbn in Hlt. lia.
Qed.
Lemma rows_for_item (rows : string -> list history_row) (l : list string) a : NoDup l -> a ∈ l ->
  rows_for (flat_map (fun x => map (fun r => (x, r)) (rows x)) l) a = rows a.
Proof.
  unfold rows_for. intros Hn Ha. assert (forall x, List.filter (fun r : string * history_row => String.eqb r.1 a) (map (fun r => (x, r)) (rows x)) = if String.eqb x a then map (fun r => (x, r)) (rows x) else []) as Hf.
  { intros x. induction (rows x) as [|r k IH]; [by destruct (String.eqb x a)|]. cbn. rewrite IH. by destruct (String.eqb x a). }
  assert (forall l, a ∉ l -> List.filter (fun r : string * history_row => String.eqb r.1 a) (flat_map (fun x => map (fun r => (x, r)) (rows x)) l) = []) as Hnone.
  { induction l0 as [|x k IH]; [done|]. intros [Hx Hk]%not_elem_of_cons. cbn. rewrite List.filter_app, Hf, IH by done. destruct (String.eqb_spec x a); [congruence|done]. }
  induction l as [|x l IH]; [by apply elem_of_nil in Ha|]. apply NoDup_cons in Hn as [Hx Hn]. cbn [flat_map]. rewrite List.filter_app, Hf.
  destruct (String.eqb_spec x a) as [->|Hne].
  - rewrite (Hnone l Hx), app_nil_r, map_map. cbn. apply map_id.
  - apply elem_of_cons in Ha as [->|Ha]; [done|]. by apply IH.
Qed.
Lemma dedup_length {A} `{EqDecision A} (l : list A) : NoDup l -> Nat.eqb (length l) (length (dedup l)) = true.
Proof. intros Hl. apply Nat.eqb_eq, Permutation_length, NoDup_Permutation; [done|apply NoDup_dedup|]. intros x. by rewrite elem_of_dedup. Qed.
Lemma ascending_ok (l : list Z) : StronglySorted (fun a b => key_ltb b a = true) l -> strictly_ascending (reverse l) = true.
Proof.
  intros Hs. unfold strictly_ascending. apply andb_true_iff. split; [|apply dedup_length; rewrite reverse_Permutation; by apply descending_unique].
  apply bool_decide_eq_true. apply (StronglySorted_unique Z.le); [| |apply sort_by_perm].
  - assert (StronglySorted (fun a b => Z.leb a b = true) (sort_by Z.leb (reverse l))) as Hk by (apply sort_by_sorted; intros; lia).
    induction Hk as [|x k _ IH Hx]; [constructor|]. constructor; [done|]. eapply Forall_impl; [exact Hx|]. intros y Hy. by apply Z.leb_le.
  - induction Hs as [|x l _ IH Hx]; [constructor|]. rewrite reverse_cons. apply StronglySorted_app. split_and!; [|done|by repeat constructor].
    intros y z Hy ->%list_elem_of_singleton. rewrite Forall_forall in Hx. specialize (Hx y ltac:(by apply elem_of_reverse)). cbn in Hx. apply Z.ltb_lt in Hx. by apply Z.lt_le_incl.
Qed.

(** The rows of every validator match the axis of the blocks. *)
Lemma batch_items (r : batch_rows) d bl l : (forall a, a ∈ l -> rows_for (ba_items r) a = map (history_row_of d a) bl) ->
  mapM_res (batch_item r (map fst bl)) l = Ok (map (fun a => (a, map (fun hb => history_status (history_row_of d a hb)) bl)) l).
Proof.
  induction l as [|a l IH]; intros Hrows; [done|]. cbn [mapM_res map].
  assert (batch_item r (map fst bl) a = Ok (a, map (fun hb => history_status (history_row_of d a hb)) bl)) as ->.
  { unfold batch_item. rewrite (Hrows a ltac:(left)), !map_map. cbn [history_row_of hr_height]. by rewrite bool_decide_eq_true_2. }
  cbn [mbind res_bind]. rewrite IH; [done|]. intros b Hb. apply Hrows. by right.
Qed.

(** C27. The history matrix is always aligned: although its checkpoint, its blocks
    and its statuses are read by statements that see different states of the
    index, as long as nothing below the checkpoint is added meanwhile, the route
    answers with the latest blocks up to the checkpoint in ascending order and,
    for every validator of the set, one status per block, those its own page
    shows. *)
Theorem signing_history_aligned `{PyRuntime} `{Timestamps} `{PL : PostgresLaws} `{!EnforcesSchema} chain (s : nat -> snapshot) st limit :
  limit_ok limit = true -> reachable chain (sn_db (s 0%nat)) -> wrote chain (sn_db (s 0%nat)) (sn_db (s 1%nat)) -> wrote chain (sn_db (s 1%nat)) (sn_db (s 2%nat)) ->
  state (sn_db (s 0%nat)) = Some st -> (forall k, k <= st_last_finalized st -> blocks (sn_db (s 2%nat)) !! k = blocks (sn_db (s 1%nat)) !! k) ->
  let h := st_last_finalized st in let blocks := reverse (recent_blocks (sn_db (s 1%nat)) h limit) in
  exists r, get_validator_signing_history (Ok s) limit = Ok r /\ br_height r = h /\ br_network r = Z.of_nat (length blocks) /\
    br_blocks r = map (fun hb => (hb.1, isoformat_utc_z (instant (br_time hb.2)))) blocks /\ strictly_ascending (map fst (br_blocks r)) = true /\
    br_items r = map (fun am => (am.1, map (fun hb => history_status (history_row_of (sn_db (s 2%nat)) am.1 hb)) blocks)) (members_at (sn_db (s 0%nat)) h).
Proof.
  intros Hl Hr W1 W2 Hst Hsame h bl. pose proof (wrote_reachable _ _ _ W1 Hr) as Hr1. pose proof (wrote_reachable _ _ _ W2 Hr1) as Hr2.
  destruct (checkpoint_ok chain _ st Hr Hst) as [Hcp Hpos].
  assert (recent_blocks (sn_db (s 2%nat)) h limit = recent_blocks (sn_db (s 1%nat)) h limit) as Hrec by by apply recent_same.
  set (M0 := members_at (sn_db (s 0%nat)) h). set (M2 := members_at (sn_db (s 2%nat)) h).
  assert (height_kept h (sn_db (s 0%nat)) (sn_db (s 2%nat))) as Hk.
  { apply (wrote_height chain); [by etransitivity|]. unfold checkpoint_height in Hcp. rewrite Hst in Hcp. fold h in Hcp. destruct (blocks (sn_db (s 0%nat)) !! h); [eauto|done]. }
  assert (forall a, a ∈ map fst M2 <-> a ∈ map fst M0) as HM.
  { intros a. rewrite !list_elem_of_fmap. split; intros ([x m] & -> & Hm%elem_of_members_at); exists (x, m); (split; [done|]); apply elem_of_members_at; cbn in *;
      [by rewrite <-(hk_members _ _ _ Hk)|by rewrite (hk_members _ _ _ Hk)]. }
  set (items := flat_map (fun am : string * member_row => map (fun r => (am.1, r)) (history_rows (sn_db (s 2%nat)) am.1 h limit)) M2).
  assert (items = flat_map (fun a => map (fun r => (a, r)) (history_rows (sn_db (s 2%nat)) a h limit)) (map fst M2)) as Hitems.
  { unfold items. clear. induction M2 as [|x l IH]; [done|]. cbn. by rewrite IH. }
  assert (map fst (map (fun hb : Z * block_row => (hb.1, br_time hb.2)) bl) = map fst bl /\ map fst bl = reverse (map fst (recent_blocks (sn_db (s 1%nat)) h limit))) as [Hheights Hrev].
  { unfold bl. rewrite map_map. cbn. split; [done|]. by rewrite <-fmap_reverse. }
  assert (forall a, a ∈ map fst M0 -> rows_for items a = map (history_row_of (sn_db (s 2%nat)) a) bl) as Hrows.
  { intros a Ha. rewrite Hitems. rewrite (rows_for_item (fun a => history_rows (sn_db (s 2%nat)) a h limit)); [|apply members_at_unique|by apply HM].
    unfold history_rows. by rewrite Hrec. }
  pose proof (batch_items (BatchRows h (map fst M0) (map (fun hb => (hb.1, br_time hb.2)) bl) items) _ bl (map fst M0) Hrows) as Hbatch.
  eexists. split.
  { unfold get_validator_signing_history. rewrite Hl. cbn [require mbind res_bind]. unfold fetch_validator_signing_history. cbn [mbind res_bind]. rewrite Hcp. cbn [mbind res_bind].
    fold h bl M0 M2 items. unfold batch_from_rows. cbn [ba_blocks ba_addresses ba_items ba_height]. rewrite Hheights. rewrite Hrev at 1. rewrite (ascending_ok _ (recent_sorted _ h limit)). cbn [require mbind res_bind].
    rewrite (dedup_length (map fst M0)) by apply members_at_unique. cbn [require mbind res_bind].
    assert (forallb (fun i : string * history_row => bool_decide (i.1 ∈ map fst M0)) items = true) as ->.
    { apply forallb_forall. intros i (a & Ha & (r & <- & _)%in_map_iff)%in_flat_map. apply bool_decide_eq_true, HM, list_elem_of_fmap. exists a. split; [done|]. by apply list_elem_of_In. }
    cbn [require mbind res_bind]. rewrite Hbatch. cbn [mbind res_bind]. rewrite (proj2 (Z.leb_le 0 h)) by (unfold h; lia).
    rewrite Hrev. assert (forallb (Z.leb 0) (reverse (map fst (recent_blocks (sn_db (s 1%nat)) h limit))) = true) as ->; [|done].
    apply forallb_forall. intros z Hz. apply list_elem_of_In, elem_of_reverse, list_elem_of_fmap in Hz as (hb & -> & [Hb _]%elem_of_recent).
    pose proof (height_range _ _ _ _ Hr1 Hb). apply Z.leb_le. lia. }
  cbn [br_height br_network br_blocks br_items]. rewrite !map_map, !length_map. split_and!; try done.
  cbn [fst]. change (map (fun x : Z * block_row => x.1) bl) with (map fst bl). rewrite Hrev. apply ascending_ok, recent_sorted.
Qed.

(** ** Concrete runs *)
#[local] Existing Instance ascii_runtime.
#[local] Existing Instance epoch.
#[local] Existing Instance schema_postgres.
Definition page_state : state_row := {| st_chain := "dev"; st_last_finalized := 12; st_tip := 20; st_endpoint := None |}.

Lemma validators_agree_witness : exists r v, get_validators (Ok (fun _ => page_snapshot)) = Ok r /\ length (vs_items r) = 1%nat /\
  get_validator_detail (Ok (fun _ => page_snapshot)) "g1a" = Ok v /\ uc_active (up_counts (vd_uptime v)) = 1.
Proof.
  destruct (@validators_agree ascii_runtime epoch schema_postgres schema_laws schema_enforced "dev" page_snapshot page_state page_reachable) as (r & Hr & _ & _ & Hi).
  - vm_compute. reflexivity.
  - constructor.
  - constructor.
  - vm_compute. reflexivity.
  - assert (map vi_address (vs_items r) = ["g1a"]) as Ha by (vm_compute in Hr; by injection Hr as <-).
    destruct (vs_items r) as [|i [|]] eqn:Ei; [discriminate Ha| |discriminate Ha]. injection Ha as Ha. apply Forall_cons in Hi as [(_ & _ & Hd) _].
    rewrite Ha in Hd. destruct Hd as (v & Hv & _); [vm_compute; reflexivity|vm_compute; split; discriminate|].
    exists r, v. split; [exact Hr|]. rewrite Ei. split; [reflexivity|]. split; [exact Hv|]. vm_compute in Hv. injection Hv as <-. reflexivity.
Defined.
Lemma signing_history_aligned_witness : exists r, get_validator_signing_history (Ok (fun _ => page_snapshot)) 100 = Ok r /\ br_items r = [("g1a", ["commit"])].
Proof.
  destruct (@signing_history_aligned ascii_runtime epoch schema_postgres schema_laws schema_enforced "dev" (fun _ => page_snapshot) page_state 100
    eq_refl page_reachable (rtc_refl _ _) (rtc_refl _ _)) as (r & Hr & _); [vm_compute; reflexivity|reflexivity|].
  exists r. split; [exact Hr|]. vm_compute in Hr. by injection Hr as <-.
Defined.
